(* ===== verification/_CoqProject ===== *)
-Q . S2P
Prelude.v
Selection.v
Message.v
RpcWire.v
Registry.v
LoadBalancer.v
Router.v
Float32.v
FloatOrder.v
Aoi.v
AoiTest.v
PlayerState.v
AsyncDB.v
RedisLock.v
Session.v
Gateway.v
CacheSync.v
Json.v
Texts.v
Converter.v
ProtocolTest.v
Security.v
QuicStream.v
QuicConn.v
ConnManager.v
PubSub.v
NetServer.v
Config.v
NetPumps.v
GrpcRpc.v
GatewayServers.v
SecureServer.v
RedisCache.v
StandaloneRpc.v
DbPool.v
RedisPool.v
RpcServices.v
LbTest.v
LbServer.v
Metrics.v
Programs.v
Commands.v
RpcModes.v
Mains.v
