(* ===== verification/Prelude.v ===== *)
(** * A verification of the mmo-server packages

    mmo-server is the back end of an online game, written in Go.  Clients connect
    to a gateway ([pkg/gateway]), whose sessions turn client messages into an
    internal format and hand them to a router ([pkg/protocol]).  Behind it are
    services found through a registry with load balancing ([pkg/protocol],
    [pkg/rpc]), the state of the players and the grid that says who sees whom
    ([pkg/sync], [pkg/aoi]), asynchronous access to the database and a write-back
    cache before it ([pkg/db]), locks and messages shared between processes
    ([pkg/redis]).  A second, simpler server ([pkg/network]) serves clients over
    WebSocket by itself.

    ** The files

    - [Prelude.v] (this file): results of Go calls ([outcome]: a value, an error or
      a panic), integers at their width, bytes and buffers with Go's bounds
      checks, the order in which a map is ranged over ([map_order]), and the
      lemmas the components share.
    - [Selection.v]: choosing from a list by a counter or by weights, used by both
      balancers ([rpc/load_balancer.go], [protocol/router.go]).
    - [Message.v]: [pkg/protocol/message.go].  The message record, flags, [Encode]
      and [Decode] over explicit buffers.
    - [RpcWire.v]: [pkg/rpc/protocol.go] and the calls of [pkg/rpc/rpc.go].
    - [Registry.v]: [pkg/protocol/handler_registry.go].  Handlers are values of an
      arbitrary type.
    - [LoadBalancer.v]: [pkg/rpc/load_balancer.go].  The registry keeps pointers to
      instances, so these live in a heap; watcher channels have a capacity and can
      be closed, and a send on a closed channel panics.  The classes
      [InstanceSelector] and [ServiceRegistry] are the interfaces of the source,
      with what the balancer relies on as laws.
    - [Router.v]: [pkg/protocol/router.go].  Service discovery hands out slices of
      its own arrays, so arrays are shared and updated in place.  [grow] is how
      far [append] extends an array.  The class [LoadBalancer] is the interface
      the router's theorems are proved against; both balancers are instances.
    - [Float32.v]: the operations on [float32] that the grid uses, and those on
      [float64] of the statistics, from the Standard Library's specification of IEEE
      754, with bounds on rounding; and [FloatOrder.v], the order of [float32] values by
      their exact values, under which rounding is monotone.
    - [Aoi.v]: [pkg/aoi/aoi.go].  What the machine makes of a float that fits no
      [int] is the parameter [conv].
    - [PlayerState.v]: [pkg/sync/player_state.go].  Players are shared objects: the
      grid, the manager and the callbacks hold the same pointers.
    - [AsyncDB.v]: [pkg/db/async.go].  Submissions, batch timers, workers, retries,
      [WaitForCompletion] and [Close] are steps of one relation; a submission is
      two steps, its check and its send.
    - [RedisLock.v]: [pkg/redis/lock.go].  Any number of processes over the class
      [Redis], which says what the commands do; the network may lose a request or
      a reply ([delivery], in this file).  [Acquire] is the loop over the turns that
      the environment offers.
    - [Session.v]: [pkg/gateway/session.go].  Sessions in a heap; calls on
      connections are events.
    - [Gateway.v]: [pkg/gateway/handler.go].  Sessions by ID and by user, the
      message loop over the router, and the locks the cleanup and the readers
      take.  The protocol converter is the class [ProtocolConverter].
    - [CacheSync.v]: [pkg/db/cache_sync.go].  The table of dirty entries with its
      shared entries, flushing in batches, reading through the cache.  The cache is
      a class; the answers of the database are an argument, and so is what happens
      between the parts of a flush.
    - [Json.v]: what the code uses of [encoding/json] and [encoding/base64], to the
      byte: UTF-8, quoting and unquoting of strings, a parser, the decoding of
      fields into integers, texts and byte slices, nested objects, and what becomes
      of a text that is cut off or followed by another.
    - [Texts.v]: what is printed or handed on as a text: the descriptions of a message,
      the tokens of the lock, the nonces of the handshake.
    - [Converter.v]: [pkg/protocol/converter.go], an instance of
      [ProtocolConverter], composed with the gateway.  The protobuf [Any] is a
      class.
    - [Security.v]: [pkg/security/crypto.go], [pkg/gateway/secure_connection.go] and
      the client of [tools/secure_ws_client.go].  AES-GCM, the curve and the hash
      are the class [Crypto], with the laws of their documentation.
    - [QuicStream.v]: [pkg/gateway/quic_stream_handler.go], over sessions and the
      converter.
    - [QuicConn.v]: the streams of one QUIC connection side by side: the goroutines of
      [quic_stream_handler.go] cut where they look at what they share; its theorems
      are about the messages that the handler itself is given.
    - [ConnManager.v]: [pkg/rpc/conn_manager.go].  Calls of [GetConnection] cut at
      their locks and waits and interleaved.
    - [PubSub.v]: [pkg/redis/pubsub.go].  The receiving goroutines are state
      machines.
    - [NetServer.v]: [pkg/network/server.go] and [message_handler.go].  Operations
      that block for good are distinguished from those that return.
    - [Config.v]: [pkg/config/config.go].  The search paths are a state of the process;
      viper is a class.
    - [NetPumps.v]: [readPump] and [writePump] of [pkg/network/server.go] in time, over
      [NetServer.v]: deadlines, pings and pongs.
    - [GrpcRpc.v]: [pkg/rpc/rpc.go] with [grpc_server.go], [grpc_client.go] and
      [call.go].  The types that [reflect] shows decide which methods a service
      has; protocol buffers are a class, and what the network does with each
      attempt is an argument.
    - [GatewayServers.v]: [pkg/gateway/config.go], [websocket_server.go],
      [secure_websocket_server.go], [quic_server.go] and the construction, start, stop
      and internal handlers of [handler.go].  The goroutines that [Start] leaves behind
      are steps; viper is the class of the rule by which it finds fields.
    - [SecureServer.v]: [secure_websocket_server.go] and the program of
      [tools/secure_ws_client.go], over [Security.v] and [GatewayServers.v].
    - [RedisCache.v]: [pkg/redis/cache.go] over the class [RedisStore], and as an
      instance of the cache of [CacheSync.v].
    - [StandaloneRpc.v]: [pkg/rpc/client_standalone.go] and [server_standalone.go].  One
      connection as a state machine: calls, channels and goroutines of the client, the
      two directions of the socket as the messages written, of which a read takes any
      number of bytes, and the goroutines of the server.
    - [DbPool.v]: [pkg/db/connection_pool.go].  Contexts have a deadline and can be
      cancelled; the class [PgxRows] says what can be read of rows then.  Composed with
      [CacheSync.v].
    - [RedisPool.v]: [pkg/redis/connection_pool.go].
    - [RpcServices.v]: [pkg/rpc/factory.go], [example_service.go] and [GetClient] of
      [load_balancer.go], with the addresses of the [net] package and the clients that
      dial directly.
    - [Metrics.v]: [pkg/metrics/metrics.go] and [collectors.go].  Four tables over one
      registry, and the collecting goroutine as a state machine ([Module Collector]).
    - [Programs.v]: the example of [cmd/sync_test], over [PlayerState.v] and [GrpcRpc.v],
      and the load tests of [cmd/rpc_test]; [RpcModes.v]: the other modes of the two.
    - [AoiTest.v]: [cmd/aoi_test], entities that move and bounce over [Aoi.v];
      [ProtocolTest.v]: [cmd/protocol_test], over [Converter.v] and [Router.v].
    - [LbTest.v], [LbServer.v]: [examples/load_balancer], the test program, the server
      with its console, health check and signal handler, and the client, each a system
      of goroutines over [LoadBalancer.v].
    - [Commands.v]: the goroutines and counters of [cmd/load_test]; the processes of
      [StartStandaloneServer] and their socket file; [StartExample] of
      [example_service.go]; the service of [cmd/grpc_test].
    - [Mains.v]: the entry points [cmd/gateway], [cmd/server] and [cmd/metrics], from the
      configuration to the signal and the stop.

    ** What is shown

    - Refinement: the handler registry behaves as one map from pairs; the discovery
      with its shared arrays as a map from names to lists; the sessions by user as
      the sessions grouped by user; the Redis cache, all its operations, as a map from keys to values and numbers
      with deadlines; the log of queries as the history of statements; a cleanup tick of the
      service registry cannot be observed; the registry of the load-balancing test is at
      every point of every run the list of what should be live.
    - Round trips: RPC requests, responses and calls; internal messages, for which
      the theorem says exactly which messages survive; QUIC frames; the binary, text
      and JSON formats of clients; encrypted messages; base64 and JSON strings; entities
      in the Redis cache; a message through the standalone client and server.
    - Invariants of runs: the service registry never panics; the players are in the
      grid where they are; a database operation is in one place and completed at
      most once, and executed at most [MaxRetries] + 1 times; the handler of stop
      requests never closes a channel twice; the keys of the dirty table name their
      entries; the connection manager's lock has one holder and its entries one
      maker; the active channels of a subscriber are those with handlers; a call of the
      standalone client gets its own response, once; a metric has one kind, and a
      collector one goroutine; a QUIC server counts its active connections, and its handler
      is given the messages of each stream in order, and only once the connection is
      authenticated; the entities of the AOI simulation stay in their square and in their grids; the counters
      of the load test are exact.
    - Equivalence: the batches of a flush are the consecutive pieces of a list.
    - Termination: the loop over a stream and the JSON parser need no more fuel than
      the length of their input; the example client ends, each step of its requests taking
      from a measure.
    - Safety: a lock has one holder; unmarshalling and converting never panic; the
      inputs on which decoding a message, a secure frame or a handler panics; a client of
      the network server that answers its pings in time is not timed out.
    - Liveness: when the operations of the network server return and when they block
      for good; what a cleanup of the gateway and a waiting call of the connection
      manager keep from the others; when [Stop] of the gateway returns; that every echo
      call is answered once the socket is drained; how long [Acquire] waits; that the
      concurrent load test ends; that the metrics server can always stop, and the example
      server never does.
    - Balancing: consecutive choices visit each instance once or as often as its
      weight says, while the counter does not overflow; a live instance is found
      when there is one.
    - Functional behaviour on every branch: routing, broadcasting, acquiring a lock,
      synchronizing a position, counting and finding neighbours, answering a
      message, flushing, getting a connection, delivering a publication, agreeing on
      a key, answering the messages of a stream, a remote call from end to end, preparing
      an endpoint, registering a metric.
    - Defects of the code, as theorems about the code as it is: the overlap of the
      payload length with the first name in [Encode]; slices overwritten by a
      deregistration; a grid index from a coordinate that is no number; entities
      left behind by players that leave the world; accepted operations that are
      lost, a send that races with [Close], [WaitForCompletion] returning early;
      renewal stopped for the wrong lock; connections that are never closed; a
      cleanup that blocks the gateway; broadcasts to users that never find a
      session; short reads taken for whole messages; failed flushes that are never
      retried and writes that a flush drops; formats the gateway refuses or cannot
      answer; a client whose handshake is always refused; lengths that wrap; a
      mutex unlocked twice; services without methods and calls executed more than
      once; a subscriber that is dead after [Close]; a network
      server that locks itself out; a gateway that its own configuration file keeps from
      starting, that cuts off active clients and may listen after it was stopped; error
      responses that no call gets and requests that reads merge or cut; rows handed out
      with a cancelled context, so that entities are not found; IPv6 endpoints that are
      never available; messages counted at every collection again; clients of the network
      server that its configuration file cuts off after five seconds; streams that move
      each other to another session, or to the empty one; a test client that sends in the clear; examples
      none of whose calls succeeds; servers that take each other's socket or do not start
      with their defaults; a console command that cannot be given.

    ** Bounds, fuel and parameters

    All definitions are total.  Fuel is used in two places: the JSON parser
    ([json_fuel_enough]: the length of the text is enough) and the loop over a
    stream ([qs_loop_serves]: with anything beyond the length of the stream all messages that
    are on it are served).  Other loops are structurally recursive, over messages, turns or calls
    in the list of what the environment offers.  Integers wrap at their Go width where the code can reach the bound;
    times are integers without a bound.  The order in which a map is ranged over
    is always an argument, constrained by [map_order].  Code of other packages
    (connections, Redis, the database, random numbers, UUIDs) is an argument, an
    interface with a concrete instance, or a choice of a step.

    ** What is not modelled

    Logging; opening sockets, TLS and reading files; the generated protocol buffers, of
    which only the fields the services use appear, and [rpc/message_types.go], which
    repeats them; [utils/session_utils.go], a call of the UUID library; the choice of the
    mode in [cmd/rpc_standalone], and of [cmd/grpc_test] all but its service.  Of the
    packages above: [ToJSON] of a session, which needs the calendar and the local zone,
    the average in the statistics of [AsyncDB.v] and [CacheSync.v], and the intervals of
    tickers other than those of [NetPumps.v].  Data races on unsynchronized fields are not
    modelled, except for the variable that the players of [sync_test] share: a method that
    reads and writes such a field is one step or a few.  Where a method of another library
    is called on a nil pointer, the run is not followed further.

    ** How it can be extended

    Left are the constructors and tickers around [CacheSync.v] and [PubSub.v], and the
    goroutines of [NetServer.v] beside those of one client. *)

From stdpp Require Import base gmap strings list fin_maps.
From Stdlib Require Import ZArith Lia.
From Stdlib Require Strings.Byte Strings.String.

Declare Scope mmo_scope.
Delimit Scope mmo_scope with mmo.
Create HintDb mmo.
Create Rewrite HintDb mmo_rw.

(** ** Results of Go calls

    A Go function with an [error] result either returns a value, returns an
    error value or panics (an index out of range, a nil dereference).  [E] is
    the component's own type of error values. *)

Inductive outcome (E A : Type) : Type :=
  | Ret (a : A)
  | Fail (e : E)
  | Panic.
Arguments Ret {E A} a.
Arguments Fail {E A} e.
Arguments Panic {E A}.

#[export] Instance outcome_eq_dec {E A} `{EqDecision E} `{EqDecision A} : EqDecision (outcome E A).
Proof. solve_decision. Defined.

#[export] Instance outcome_ret {E} : MRet (outcome E) := fun A a => Ret a.

#[export] Instance outcome_bind {E} : MBind (outcome E) := fun A B f m =>
  match m with
  | Ret a => f a
  | Fail e => Fail e
  | Panic => Panic
  end.

#[export] Instance outcome_fmap {E} : FMap (outcome E) := fun A B f m =>
  match m with
  | Ret a => Ret (f a)
  | Fail e => Fail e
  | Panic => Panic
  end.

(** [if cond { return nil, err }]: the early return of a guard. *)
Definition fail_if {E} (c : bool) (e : E) : outcome E unit :=
  if c then Fail e else Ret tt.

(** A runtime check of the language: an index or slice bound. *)
Definition panic_unless {E} (c : bool) : outcome E unit :=
  if c then Ret tt else Panic.

Lemma Ret_inj {E A} (a b : A) : Ret (E := E) a = Ret b -> a = b.
Proof. by intros [= ->]. Qed.

Lemma outcome_bind_ret {E A B} (m : outcome E A) (f : A -> outcome E B) b :
  (m ≫= f) = Ret b <-> exists a, m = Ret a /\ f a = Ret b.
Proof.
  destruct m as [a|e|]; simpl; split.
  - eauto.
  - by intros (? & [= ->] & ?).
  - done.
  - by intros (? & ? & ?).
  - done.
  - by intros (? & ? & ?).
Qed.

Lemma outcome_bind_not_panic {E A B} (m : outcome E A) (f : A -> outcome E B) :
  m <> Panic -> (forall a, m = Ret a -> f a <> Panic) -> (m ≫= f) <> Panic.
Proof. destruct m; simpl; eauto. Qed.

Lemma fail_if_not_panic {E} c (e : E) : fail_if c e <> Panic.
Proof. by destruct c. Qed.

#[export] Hint Resolve outcome_bind_not_panic fail_if_not_panic : mmo.

(** ** Fixed-width integers *)

Section machine_integers.
Local Open Scope Z_scope.

(** Conversion to an unsigned integer of [w] bits: [uint16(x)] and the like. *)
Definition uwrap (w z : Z) : Z := z mod 2 ^ w.

(** Conversion to a signed integer of [w] bits, two's complement. *)
Definition swrap (w z : Z) : Z := (z + 2 ^ (w - 1)) mod 2 ^ w - 2 ^ (w - 1).

(** The type of [int] and [int64] on the 64-bit targets the server builds for. *)
Definition int64 (z : Z) : Z := swrap 64 z.

Definition in_u (w z : Z) : Prop := 0 <= z < 2 ^ w.
Definition in_s (w z : Z) : Prop := - 2 ^ (w - 1) <= z < 2 ^ (w - 1).

Lemma uwrap_small w z : in_u w z -> uwrap w z = z.
Proof. apply Z.mod_small. Qed.

Lemma uwrap_range w z : 0 <= w -> in_u w (uwrap w z).
Proof. intros. apply Z.mod_pos_bound. by apply Z.pow_pos_nonneg. Qed.

Lemma swrap_small w z : 0 < w -> in_s w z -> swrap w z = z.
Proof.
  unfold in_s, swrap. intros Hw Hz.
  assert (2 ^ w = 2 * 2 ^ (w - 1)).
  { rewrite <- Z.pow_succ_r by lia. f_equal. lia. }
  rewrite Z.mod_small; lia.
Qed.

Lemma swrap_range w z : 0 < w -> in_s w (swrap w z).
Proof.
  unfold in_s, swrap. intros Hw.
  assert (2 ^ w = 2 * 2 ^ (w - 1)) as Hp.
  { rewrite <- Z.pow_succ_r by lia. f_equal. lia. }
  pose proof (Z.pow_pos_nonneg 2 (w - 1)).
  pose proof (Z.mod_pos_bound (z + 2 ^ (w - 1)) (2 ^ w)). lia.
Qed.

Lemma int64_small z : - 2 ^ 63 <= z < 2 ^ 63 -> int64 z = z.
Proof. intros. apply swrap_small; [lia|done]. Qed.

(** Adding to a number that has wrapped. *)
Lemma swrap_add w a b : swrap w (swrap w a + b) = swrap w (a + b).
Proof.
  unfold swrap. f_equal. replace ((a + 2 ^ (w - 1)) mod 2 ^ w - 2 ^ (w - 1) + b + 2 ^ (w - 1)) with ((a + 2 ^ (w - 1)) mod 2 ^ w + b) by lia.
  rewrite Zplus_mod_idemp_l. f_equal. lia.
Qed.

(** A [w]-bit number is one that masking with [w] ones leaves alone. *)
Lemma in_u_mask w z : 0 <= w -> in_u w z <-> Z.land z (Z.ones w) = z.
Proof.
  intros Hw. rewrite Z.land_ones by done. split; [apply Z.mod_small|].
  intros <-. by apply uwrap_range.
Qed.

Lemma in_u_lor w a b : 0 <= w -> in_u w a -> in_u w b -> in_u w (Z.lor a b).
Proof. intros Hw. rewrite !in_u_mask, Z.land_lor_distr_l by done. congruence. Qed.

Lemma in_u_land w a b : 0 <= w -> in_u w b -> in_u w (Z.land a b).
Proof. intros Hw. rewrite !in_u_mask, <- Z.land_assoc by done. congruence. Qed.

(** Masking with the [w]-bit complement of [f] takes the bits of [f] away. *)
Lemma land_uwrap_lnot w g f :
  0 <= w -> in_u w g -> Z.land (uwrap w (Z.lnot f)) g = Z.ldiff g f.
Proof.
  intros Hw Hg%in_u_mask; [|done]. unfold uwrap. rewrite <- Z.land_ones by done.
  rewrite <- Z.land_assoc, (Z.land_comm (Z.ones w)), Hg, Z.ldiff_land.
  apply Z.land_comm.
Qed.

End machine_integers.

(** ** Bytes and big-endian numbers ([encoding/binary.BigEndian]) *)

Abbreviation byte := Byte.byte.

#[export] Instance byte_eq_dec : EqDecision byte := Byte.byte_eq_dec.

Section bytes.
Local Open Scope Z_scope.

Definition byte_val (b : byte) : Z := Z.of_N (Byte.to_N b).

(** [byte(x)]: the low eight bits. *)
Definition byte_of (z : Z) : byte :=
  match Byte.of_N (Z.to_N (z mod 256)) with
  | Some b => b
  | None => Byte.x00
  end.

Lemma byte_val_of z : byte_val (byte_of z) = z mod 256.
Proof.
  unfold byte_val, byte_of.
  pose proof (Z.mod_pos_bound z 256 ltac:(lia)) as Hb.
  destruct (Byte.of_N (Z.to_N (z mod 256))) eqn:E.
  - apply Byte.to_of_N in E. rewrite E. lia.
  - apply Byte.of_N_None_iff in E. lia.
Qed.

Lemma byte_val_range b : 0 <= byte_val b < 256.
Proof. unfold byte_val. pose proof (Byte.to_N_bounded b). lia. Qed.

Lemma byte_of_val b : byte_of (byte_val b) = b.
Proof.
  unfold byte_of. rewrite Z.mod_small by apply byte_val_range.
  unfold byte_val. rewrite N2Z.id, Byte.of_to_N. done.
Qed.

#[export] Instance byte_val_inj : Inj (=) (=) byte_val.
Proof. intros a b H. by rewrite <- (byte_of_val a), H, byte_of_val. Qed.

(** The [n] bytes of [z], most significant first (PutUint16/32/64). *)
Fixpoint be_put (n : nat) (z : Z) : list byte :=
  match n with
  | O => []
  | S n' => byte_of (z / 256 ^ Z.of_nat n') :: be_put n' z
  end.

(** The number a list of bytes denotes, most significant first (Uint16/32/64). *)
Fixpoint be_get (l : list byte) : Z :=
  match l with
  | [] => 0
  | b :: l' => byte_val b * 256 ^ Z.of_nat (length l') + be_get l'
  end.

Lemma length_be_put n z : length (be_put n z) = n.
Proof. induction n as [|n IH]; simpl; congruence. Qed.

Lemma be_get_put n z : be_get (be_put n z) = z mod 256 ^ Z.of_nat n.
Proof.
  induction n as [|n IH]; [by rewrite Z.mod_1_r|].
  cbn [be_put be_get]. rewrite length_be_put, IH, byte_val_of.
  rewrite Nat2Z.inj_succ, Z.pow_succ_r by lia.
  rewrite (Z.mul_comm 256), Z.rem_mul_r by lia. lia.
Qed.

Lemma be_get_range l : 0 <= be_get l < 256 ^ Z.of_nat (length l).
Proof.
  induction l as [|b l IH]; [done|].
  cbn [be_get length]. rewrite Nat2Z.inj_succ, Z.pow_succ_r by lia.
  pose proof (byte_val_range b). nia.
Qed.

Lemma be_put_mod n z w :
  Z.of_nat n <= w -> be_put n (z mod 256 ^ w) = be_put n z.
Proof.
  induction n as [|n IH]; intros Hw; [done|].
  cbn [be_put]. rewrite IH by lia. f_equal.
  apply (inj byte_val). rewrite !byte_val_of.
  replace w with (Z.of_nat n + (1 + (w - 1 - Z.of_nat n))) by lia.
  rewrite Z.pow_add_r, Z.pow_add_r by lia. change (256 ^ 1) with 256.
  set (k := 256 ^ (w - 1 - Z.of_nat n)).
  assert (0 < k) by (apply Z.pow_pos_nonneg; lia).
  assert (0 < 256 ^ Z.of_nat n) by (apply Z.pow_pos_nonneg; lia).
  rewrite (Z.rem_mul_r z) by lia.
  rewrite (Z.mul_comm (256 ^ Z.of_nat n)), Z.div_add by lia.
  rewrite (Z.div_small (z mod _)) by (apply Z.mod_pos_bound; lia).
  rewrite Z.add_0_l, (Z.rem_mul_r (z / 256 ^ Z.of_nat n)) by lia.
  rewrite (Z.mul_comm 256), Z.mod_add, Z.mod_mod; lia.
Qed.

Lemma be_put_get l : be_put (length l) (be_get l) = l.
Proof.
  induction l as [|b l IH]; [done|].
  cbn [length be_put be_get]. pose proof (be_get_range l) as Hr.
  f_equal.
  - rewrite Z.add_comm, Z.div_add, Z.div_small, Z.add_0_l by lia.
    apply byte_of_val.
  - rewrite <- (be_put_mod _ _ (Z.of_nat (length l))) by lia.
    rewrite Z.add_comm, Z.mod_add, be_put_mod by lia. exact IH.
Qed.

Lemma be_get_app l1 l2 :
  be_get (l1 ++ l2) = be_get l1 * 256 ^ Z.of_nat (length l2) + be_get l2.
Proof.
  induction l1 as [|b l1 IH]; [done|].
  simpl. rewrite IH, length_app, Nat2Z.inj_add, Z.pow_add_r by lia. lia.
Qed.

Lemma be_put_split n m z :
  be_put (n + m) z = be_put n (z / 256 ^ Z.of_nat m) ++ be_put m z.
Proof.
  induction n as [|n IH]; [done|].
  cbn [Nat.add be_put app]. rewrite IH. f_equal. f_equal.
  rewrite Z.div_div by lia. f_equal.
  rewrite <- Z.pow_add_r by lia. f_equal. lia.
Qed.

End bytes.

#[global] Arguments be_put : simpl never.
#[global] Arguments be_get : simpl never.

#[export] Hint Rewrite length_be_put be_get_put : mmo_rw.

(** ** Go strings and byte slices

    A Go string is a sequence of bytes, which is what [string] is here. *)

Definition str_bytes (s : string) : list byte := String.list_byte_of_string s.
Definition bytes_str (l : list byte) : string := String.string_of_list_byte l.

Lemma bytes_str_bytes s : bytes_str (str_bytes s) = s.
Proof. apply String.string_of_list_byte_of_string. Qed.

Lemma str_bytes_str l : str_bytes (bytes_str l) = l.
Proof. apply String.list_byte_of_string_of_list_byte. Qed.

#[export] Instance str_bytes_inj : Inj (=) (=) str_bytes.
Proof. intros a b H. by rewrite <- (bytes_str_bytes a), H, bytes_str_bytes. Qed.

#[global] Arguments str_bytes : simpl never.
#[global] Arguments bytes_str : simpl never.

Lemma str_bytes_app s t : str_bytes (s +:+ t) = str_bytes s ++ str_bytes t.
Proof.
  induction s as [|c s IH]; [done|]. unfold str_bytes, String.list_byte_of_string in *.
  simpl. by rewrite IH.
Qed.

(** [len(s)] *)
Definition strlen (s : string) : nat := length (str_bytes s).

(** [l[off : off+n]] without the bounds check. *)
Definition sub {A} (off n : nat) (l : list A) : list A := take n (drop off l).

(** [copy(buf[off:], src)] for an [off + len(src)] inside [buf]: the bytes of
    [src] replace those at [off]. *)
Definition blit {A} (off : nat) (src buf : list A) : list A :=
  take off buf ++ src ++ drop (off + length src) buf.

#[global] Arguments sub : simpl never.
#[global] Arguments blit : simpl never.

Lemma length_sub {A} off n (l : list A) :
  off + n <= length l -> length (sub off n l) = n.
Proof. intros. unfold sub. rewrite length_take, length_drop. lia. Qed.

Lemma sub_app {A} off n (pre mid post : list A) :
  off = length pre -> n = length mid -> sub off n (pre ++ mid ++ post) = mid.
Proof.
  intros -> ->. unfold sub. by rewrite drop_app_length, take_app_length.
Qed.

Lemma sub_full {A} off n (pre mid : list A) :
  off = length pre -> n = length mid -> sub off n (pre ++ mid) = mid.
Proof. intros. rewrite <- (app_nil_r mid) at 1. by apply sub_app. Qed.

Lemma sub_skip {A} off n (pre l : list A) :
  length pre <= off -> sub off n (pre ++ l) = sub (off - length pre) n l.
Proof. intros. unfold sub. by rewrite drop_app_ge. Qed.

Lemma take_sub {A} off n (l : list A) : take (off + n) l = take off l ++ sub off n l.
Proof. unfold sub. by rewrite take_take_drop. Qed.

Lemma length_blit {A} off (src buf : list A) :
  off + length src <= length buf -> length (blit off src buf) = length buf.
Proof.
  intros. unfold blit. rewrite !length_app, length_take, length_drop. lia.
Qed.

Lemma blit_app {A} off (src pre mid post : list A) :
  off = length pre -> length src = length mid ->
  blit off src (pre ++ mid ++ post) = pre ++ src ++ post.
Proof.
  intros -> Hs. unfold blit.
  rewrite take_app_length, Hs. do 2 f_equal.
  by rewrite <- drop_drop, drop_app_length, drop_app_length.
Qed.

(** Writing at the end of what is already written of a zeroed buffer. *)
Lemma blit_zeros {A} off n (src w : list A) (z : A) :
  off = length w -> length src <= n ->
  blit off src (w ++ replicate n z) = (w ++ src) ++ replicate (n - length src) z.
Proof.
  intros -> Hn.
  replace n with (length src + (n - length src)) at 1 by lia.
  rewrite replicate_add, blit_app by (rewrite ?length_replicate; done).
  by rewrite app_assoc.
Qed.

(** The split at the first occurrence of an element is unique. *)
Lemma first_split_inj {A} (x : A) a b a' b' :
  a ++ x :: b = a' ++ x :: b' -> x ∉ a -> x ∉ a' -> a = a' /\ b = b'.
Proof.
  revert a'. induction a as [|c a IH]; intros [|c' a'] H Ha Ha'; simplify_eq/=.
  - done.
  - set_solver.
  - set_solver.
  - apply not_elem_of_cons in Ha as [_ Ha], Ha' as [_ Ha'].
    edestruct IH as [-> ->]; eauto.
Qed.

Lemma elem_of_insert_inv {A} (l : list A) i x y : x ∈ <[i := y]> l -> x = y \/ x ∈ l.
Proof.
  intros [j Hj]%list_elem_of_lookup. destruct (decide (i = j)) as [->|Hne].
  - destruct (decide (j < length l)).
    + rewrite list_lookup_insert_eq in Hj by done. naive_solver.
    + rewrite list_insert_ge in Hj by lia. right. by eapply list_elem_of_lookup_2.
  - rewrite list_lookup_insert_ne in Hj by done. right. by eapply list_elem_of_lookup_2.
Qed.

(** Under a key without duplicates, an index is determined by the key. *)
Lemma NoDup_key_lookup {A K} (f : A -> K) l i j a b :
  NoDup (f <$> l) -> l !! i = Some a -> l !! j = Some b -> f a = f b -> i = j.
Proof.
  intros Hd Ha Hb Hf. eapply NoDup_lookup; [apply Hd| |].
  - rewrite list_lookup_fmap, Ha. done.
  - rewrite list_lookup_fmap, Hb. simpl. by rewrite Hf.
Qed.

Lemma filter_ext_in {A} (P Q : A -> Prop) `{forall x, Decision (P x)} `{forall x, Decision (Q x)} (l : list A) :
  (forall x, x ∈ l -> P x <-> Q x) -> filter P l = filter Q l.
Proof.
  induction l as [|x l IH]; intros He; [done|]. rewrite !filter_cons.
  rewrite IH by (intros; apply He; by apply list_elem_of_further).
  pose proof (He x (list_elem_of_here _ _)). repeat case_decide; naive_solver.
Qed.

Lemma filter_all {A} (P : A -> Prop) `{forall x, Decision (P x)} (l : list A) :
  (forall x, x ∈ l -> P x) -> filter P l = l.
Proof.
  induction l as [|x l IH]; intros He; [done|]. rewrite filter_cons, decide_True by set_solver.
  f_equal. apply IH. set_solver.
Qed.

Lemma filter_none {A} (P : A -> Prop) `{forall x, Decision (P x)} (l : list A) :
  (forall x, x ∈ l -> ~ P x) -> filter P l = [].
Proof.
  induction l as [|x l IH]; intros He; [done|]. rewrite filter_cons, decide_False by set_solver.
  apply IH. set_solver.
Qed.

Lemma length_filter_fmap {A B} (f : A -> B) (P : B -> Prop) `{forall x, Decision (P x)} (l : list A) :
  length (filter P (f <$> l)) = length (filter (fun x => P (f x)) l).
Proof.
  induction l as [|x l IH]; [done|]. rewrite fmap_cons, !filter_cons.
  case_decide; simpl; by rewrite IH.
Qed.

(** ** Writes into a byte buffer *)

Section buffers.
Context {E : Type}.

(** A write through the slice [buffer[lo:hi]]: the bounds check of the slice
    expression, then as many bytes of [src] as fit. *)
Definition put_at (lo hi : nat) (src buf : list byte) : outcome E (list byte) :=
  panic_unless ((lo <=? hi) && (hi <=? length buf));;
  Ret (blit lo (take (hi - lo) src) buf).

(** [copy(buffer[lo:], src)] *)
Definition copy_from (lo : nat) (src buf : list byte) : outcome E (list byte) :=
  put_at lo (length buf) src buf.

(** [binary.BigEndian.PutUintN(buffer[lo:], z)]: panics unless [n] bytes follow. *)
Definition put_uint (n lo : nat) (z : Z) (buf : list byte) : outcome E (list byte) :=
  put_at lo (lo + n) (be_put n z) buf.

(** [binary.BigEndian.UintN(data[lo:])]: panics unless [n] bytes follow. *)
Definition get_uint (n lo : nat) (data : list byte) : outcome E Z :=
  panic_unless (lo + n <=? length data);;
  Ret (be_get (sub lo n data)).

(** [data[lo:hi]] of a slice whose capacity is its length. *)
Definition slice (lo hi : nat) (data : list byte) : outcome E (list byte) :=
  panic_unless ((lo <=? hi) && (hi <=? length data));;
  Ret (sub lo (hi - lo) data).

Lemma put_at_zeros lo hi src w n :
  length w = lo -> lo <= hi -> hi - lo <= n ->
  put_at lo hi src (w ++ replicate n Byte.x00)
  = Ret ((w ++ take (hi - lo) src)
         ++ replicate (n - length (take (hi - lo) src)) Byte.x00).
Proof.
  intros Hw Hlo Hn. unfold put_at, panic_unless.
  rewrite (proj2 (Nat.leb_le lo hi)), (proj2 (Nat.leb_le hi _))
    by (rewrite ?length_app, ?length_replicate; lia). simpl.
  rewrite blit_zeros by (rewrite ?length_take; lia). done.
Qed.

Lemma put_uint_zeros k lo z w n :
  length w = lo -> k <= n ->
  put_uint k lo z (w ++ replicate n Byte.x00)
  = Ret ((w ++ be_put k z) ++ replicate (n - k) Byte.x00).
Proof.
  intros. unfold put_uint. rewrite put_at_zeros by lia.
  by rewrite take_ge, length_be_put by (rewrite length_be_put; lia).
Qed.

Lemma copy_from_zeros lo src w n :
  length w = lo -> length src <= n ->
  copy_from lo src (w ++ replicate n Byte.x00)
  = Ret ((w ++ src) ++ replicate (n - length src) Byte.x00).
Proof.
  intros. unfold copy_from.
  rewrite put_at_zeros by (rewrite ?length_app, ?length_replicate; lia).
  by rewrite take_ge by (rewrite length_app, length_replicate; lia).
Qed.

Lemma get_uint_at k lo z pre post :
  length pre = lo -> in_u (8 * Z.of_nat k) z ->
  get_uint k lo (pre ++ be_put k z ++ post) = Ret z.
Proof.
  intros <- Hz. unfold get_uint, panic_unless.
  rewrite (proj2 (Nat.leb_le _ _)) by (rewrite !length_app, length_be_put; lia). simpl.
  rewrite sub_app by (rewrite ?length_be_put; done). f_equal. rewrite be_get_put.
  change 256%Z with (2 ^ 8)%Z. rewrite <- Z.pow_mul_r by lia. by apply Z.mod_small.
Qed.

Lemma get_uint_head k z post :
  in_u (8 * Z.of_nat k) z -> get_uint k 0 (be_put k z ++ post) = Ret z.
Proof. by apply (get_uint_at k 0 z []). Qed.

Lemma slice_at lo hi pre mid post :
  length pre = lo -> hi = lo + length mid ->
  slice lo hi (pre ++ mid ++ post) = Ret mid.
Proof.
  intros <- ->. unfold slice, panic_unless.
  rewrite (proj2 (Nat.leb_le _ _)), (proj2 (Nat.leb_le _ _))
    by (rewrite ?length_app; lia). simpl.
  by rewrite sub_app by lia.
Qed.

Lemma get_uint_inv k lo data z :
  get_uint k lo data = Ret z ->
  lo + k <= length data /\ z = be_get (sub lo k data).
Proof.
  unfold get_uint, panic_unless. destruct (Nat.leb_spec (lo + k) (length data)); naive_solver.
Qed.

Lemma slice_inv lo hi data l :
  slice lo hi data = Ret l -> lo <= hi <= length data /\ l = sub lo (hi - lo) data.
Proof.
  unfold slice, panic_unless.
  destruct (Nat.leb_spec lo hi), (Nat.leb_spec hi (length data)); naive_solver.
Qed.

Lemma get_uint_not_panic k lo data :
  lo + k <= length data -> get_uint k lo data <> Panic.
Proof.
  intros. unfold get_uint, panic_unless. by rewrite (proj2 (Nat.leb_le _ _)).
Qed.

Lemma slice_not_panic lo hi data :
  lo <= hi -> hi <= length data -> slice lo hi data <> Panic.
Proof.
  intros. unfold slice, panic_unless. by rewrite !(proj2 (Nat.leb_le _ _)).
Qed.

End buffers.

(** ** Go map iteration

    [for k, v := range m] visits the entries of [m] once each in an unspecified
    order: an operation that ranges over a map takes the order as an argument,
    a list of the entries. *)

Definition map_order {K A} `{Countable K} (m : gmap K A) (l : list (K * A)) : Prop :=
  l ≡ₚ map_to_list m.

Lemma map_order_default {K A} `{Countable K} (m : gmap K A) :
  map_order m (map_to_list m).
Proof. unfold map_order. reflexivity. Qed.

Lemma map_order_elem {K A} `{Countable K} (m : gmap K A) l k a :
  map_order m l -> (k, a) ∈ l <-> m !! k = Some a.
Proof. unfold map_order. intros ->. apply elem_of_map_to_list. Qed.

Lemma map_order_nil {K A} `{Countable K} (m : gmap K A) l : map_order m l -> l = [] <-> m = ∅.
Proof.
  unfold map_order. intros Hl. split; [intros ->; apply map_to_list_empty_iff; symmetry; by apply Permutation_nil_l|].
  intros ->. rewrite map_to_list_empty in Hl. by apply Permutation_nil_r.
Qed.

Lemma map_order_nodup {K A} `{Countable K} (m : gmap K A) l :
  map_order m l -> NoDup l.*1.
Proof. unfold map_order. intros ->. apply NoDup_fst_map_to_list. Qed.

#[export] Hint Resolve map_order_default map_order_nodup : mmo.

(** A sum over a list of which one element changes. *)
Lemma sum_list_insert {A} (f : A -> nat) l k x y :
  l !! k = Some x -> (sum_list_with f (<[k := y]> l) + f x = sum_list_with f l + f y)%nat.
Proof.
  revert k. induction l as [|z l IH]; intros [|k] Hk; [done..| |].
  - injection Hk as ->. cbn. lia.
  - specialize (IH k Hk). change (<[S k := y]> (z :: l)) with (z :: <[k := y]> l). cbn [sum_list_with]. lia.
Qed.

(** ** Tactics *)

#[export] Hint Rewrite @length_app @length_replicate @length_take @length_drop
  @length_cons @length_nil : mmo_rw.

(** Arithmetic goals on the lengths of lists. *)
Ltac len := autorewrite with mmo_rw in *; lia.

(** Permutations of lists that are images of appended pieces. *)
Ltac perm := repeat first [rewrite fmap_app | rewrite fmap_cons | rewrite fmap_nil]; solve_Permutation.

(** Compute the binds of a monadic definition and nothing else. *)
Ltac gosimpl := cbn [mbind outcome_bind fmap outcome_fmap mret outcome_ret negb andb orb].

(** Case analysis on every [match] of the hypotheses and of the goal, closing
    the branches that contradict each other. *)
Ltac cases := repeat (case_match; simplify_eq/=; try done).

(** Split the guards of a monadic definition in a hypothesis [H : m = Ret _]. *)
Ltac go_inv H :=
  repeat match type of H with
  | (_ ≫= _) = Ret _ => apply outcome_bind_ret in H as (? & ? & H)
  end.

(** ** Commands to a server over the network *)

(** The client reports an error when a command does not get through and also
    when its reply does not: the command has then run. *)
Inductive delivery := Delivered | LostRequest | LostReply.

#[export]
Instance delivery_eq_dec : EqDecision delivery.
Proof. solve_decision. Defined.

(** A command on the server as the client sees it: [None] is an error. *)
Definition send {R A} (net : delivery) (r : R) (reply : R * A) : R * option A :=
  match net with
  | Delivered => (reply.1, Some reply.2)
  | LostRequest => (r, None)
  | LostReply => (reply.1, None)
  end.
