(* ===== verification/Selection.v ===== *)
(** * Choosing from a list

    Both load balancers of the server ([pkg/rpc/load_balancer.go],
    [pkg/protocol/router.go]) choose an instance in turn or by weight.  This
    file has the indexing and the weight scan they share, with the counting
    lemmas their fairness rests on. *)

From stdpp Require Import base list numbers sets fin_sets list_misc.
From Stdlib Require Import ZArith Lia.
From S2P Require Import Prelude.

Local Open Scope Z_scope.

(** [l[k]]: a Go index expression. *)
Definition index {E A} (l : list A) (k : Z) : outcome E A :=
  if decide (0 <= k) then
    match l !! Z.to_nat k with Some a => Ret a | None => Panic end
  else Panic.

(** [len(l)] *)
Definition llen {A} (l : list A) : Z := Z.of_nat (length l).

Lemma index_inv {E A} (l : list A) k a : index (E := E) l k = Ret a -> a ∈ l.
Proof.
  unfold index. case_decide; [|done]. destruct (l !! Z.to_nat k) eqn:Ek; [|done].
  intros [= ->]. by eapply list_elem_of_lookup_2.
Qed.

Lemma index_in_range {E A} (l : list A) k :
  0 <= k < llen l -> exists a, index (E := E) l k = Ret a /\ l !! Z.to_nat k = Some a.
Proof.
  unfold index, llen. intros Hk. rewrite decide_True by lia.
  destruct (lookup_lt_is_Some_2 l (Z.to_nat k)) as [a Ha]; [lia|]. rewrite Ha. eauto.
Qed.

(** ** Taking turns *)

Lemma rotate_permutation {A} (s : nat) (l : list A) : rotate s l ≡ₚ l.
Proof. unfold rotate. rewrite Permutation_app_comm, take_drop. done. Qed.

(** [len(l)] consecutive values of a counter, reduced modulo [len(l)], visit
    every position of [l] once. *)
Lemma turns_permutation {E A} (s : Z) (l : list A) :
  0 <= s -> l <> [] ->
  (fun k => index (E := E) l (Z.rem (s + Z.of_nat k) (llen l))) <$> seq 0 (length l)
  ≡ₚ Ret <$> l.
Proof.
  intros Hs Hl. transitivity (Ret (E := E) <$> rotate (Z.to_nat s) l);
    [apply reflexive_eq|by rewrite rotate_permutation].
  assert (0 < length l)%nat by (destruct l; simpl; [done|lia]).
  apply list_eq. intros k. rewrite !list_lookup_fmap.
  destruct (decide (k < length l)%nat) as [Hk|Hk].
  - rewrite lookup_seq_lt, lookup_rotate_r by done. simpl.
    rewrite Z.rem_mod_nonneg by (unfold llen; lia).
    pose proof (Z.mod_pos_bound (s + Z.of_nat k) (llen l)) as Hb. unfold llen in *.
    destruct (index_in_range (E := E) l ((s + Z.of_nat k) mod llen l)) as (a & Ha & Hl');
      [unfold llen; lia|]. unfold llen in *. rewrite Ha.
    unfold rotate_nat_add. rewrite Z2Nat.id by done. by rewrite Hl'.
  - rewrite lookup_seq_ge by lia. simpl. rewrite (lookup_ge_None_2 (rotate _ _)); [done|].
    rewrite length_rotate. lia.
Qed.

(** [W] consecutive values of a counter, reduced modulo [W], are the numbers
    below [W]. *)
Lemma turns_targets (c W : Z) :
  0 <= c -> 0 < W ->
  (fun k => Z.rem (c + Z.of_nat k) W) <$> seq 0 (Z.to_nat W) ≡ₚ seqZ 0 W.
Proof.
  intros Hc HW. set (get (o : outcome unit Z) := match o with Ret t => t | _ => 0 end).
  assert (llen (seqZ 0 W) = W) as HL by (unfold llen; rewrite length_seqZ; lia).
  pose proof (turns_permutation (E := unit) c (seqZ 0 W) Hc) as Hp.
  rewrite HL, length_seqZ in Hp. apply (fmap_Permutation get) in Hp.
  2: { intros E. rewrite E in HL. unfold llen in HL. simpl in HL. lia. }
  rewrite <- !list_fmap_compose in Hp.
  replace (seqZ 0 W) with (get ∘ Ret <$> seqZ 0 W) by apply list_fmap_id.
  rewrite <- Hp. apply reflexive_eq, list_fmap_ext. intros _ k _. simpl.
  pose proof (Z.rem_bound_pos (c + Z.of_nat k) W) as Hb.
  destruct (index_in_range (E := unit) (seqZ 0 W) (Z.rem (c + Z.of_nat k) W)) as (t & -> & Ht); [lia|].
  apply lookup_seqZ in Ht. simpl. lia.
Qed.

(** ** Choosing by weight *)

Section weights.
Context {A : Type} (w : A -> Z).

(** The running total of the weights in an [int]. *)
Definition total (l : list A) : Z := foldl (fun acc a => int64 (acc + w a)) 0 l.

(** The first element at which the running total passes [target]. *)
Fixpoint scan (target current : Z) (l : list A) : option A :=
  match l with
  | [] => None
  | a :: l =>
      let current := int64 (current + w a) in
      if target <? current then Some a else scan target current l
  end.

(** The sum the total computes when it does not overflow. *)
Fixpoint sum (l : list A) : Z :=
  match l with [] => 0 | a :: l => w a + sum l end.

Lemma sum_nonneg l : (forall a, a ∈ l -> 0 <= w a) -> 0 <= sum l.
Proof.
  induction l as [|a l IH]; simpl; intros H; [done|].
  specialize (IH (fun b Hb => H b (list_elem_of_further _ _ _ Hb))).
  specialize (H a (list_elem_of_here _ _)). lia.
Qed.

Lemma foldl_total l acc :
  (forall a, a ∈ l -> 0 <= w a) -> 0 <= acc -> acc + sum l < 2 ^ 63 ->
  foldl (fun acc a => int64 (acc + w a)) acc l = acc + sum l.
Proof.
  revert acc. induction l as [|a l IH]; simpl; intros acc Hw Hacc Hs; [lia|].
  assert (forall b, b ∈ l -> 0 <= w b) as Hw' by (intros; apply Hw; set_solver).
  pose proof (sum_nonneg l Hw'). assert (0 <= w a) by (apply Hw; set_solver).
  rewrite int64_small by lia. rewrite IH; [lia|done|lia..].
Qed.

Lemma total_sum l : (forall a, a ∈ l -> 0 <= w a) -> sum l < 2 ^ 63 -> total l = sum l.
Proof. intros. by apply (foldl_total l 0). Qed.

Lemma scan_elem t current l a : scan t current l = Some a -> a ∈ l.
Proof.
  revert current. induction l as [|b l IH]; simpl; intros current; [done|].
  case_match; [intros [= ->]; apply list_elem_of_here|]. intros. apply list_elem_of_further. eauto.
Qed.

Lemma scan_some l current t :
  (forall a, a ∈ l -> 0 <= w a) -> 0 <= current -> current + sum l < 2 ^ 63 ->
  current <= t < current + sum l -> exists a, a ∈ l /\ scan t current l = Some a.
Proof.
  revert current. induction l as [|a l IH]; simpl; intros current Hw Hc Hs Ht; [lia|].
  assert (forall b, b ∈ l -> 0 <= w b) as Hw' by (intros; apply Hw; set_solver).
  pose proof (sum_nonneg l Hw'). assert (0 <= w a) by (apply Hw; set_solver).
  rewrite int64_small by lia. destruct (Z.ltb_spec t (current + w a)); [set_solver|].
  destruct (IH (current + w a)) as (b & Hb & He); [done|lia..|]. set_solver.
Qed.

(** Of the targets between [current] and the total, as many choose [a] as its
    weight says. *)
Lemma scan_count `{EqDecision A} l current a :
  (forall a, a ∈ l -> 0 <= w a) -> 0 <= current -> current + sum l < 2 ^ 63 ->
  NoDup l -> a ∈ l ->
  Z.of_nat (length (filter (fun t => scan t current l = Some a) (seqZ current (sum l)))) = w a.
Proof.
  revert current. induction l as [|b l IH]; simpl; intros current Hw Hc Hs Hd Ha; [set_solver|].
  apply NoDup_cons in Hd as [Hb Hd].
  assert (forall b, b ∈ l -> 0 <= w b) as Hw' by (intros; apply Hw; set_solver).
  pose proof (sum_nonneg l Hw'). assert (0 <= w b) by (apply Hw; set_solver).
  rewrite seqZ_app, filter_app, length_app by lia. rewrite int64_small by lia.
  rewrite (filter_ext_in _ (fun _ => b = a) (seqZ current (w b))).
  2: { intros t Ht%elem_of_seqZ. destruct (Z.ltb_spec t (current + w b)); [naive_solver|lia]. }
  rewrite (filter_ext_in _ (fun t => scan t (current + w b) l = Some a) (seqZ (current + w b) (sum l))).
  2: { intros t Ht%elem_of_seqZ. destruct (Z.ltb_spec t (current + w b)); [lia|done]. }
  destruct (decide (b = a)) as [<-|Hne].
  - rewrite (filter_all _ (seqZ current (w b))) by done.
    rewrite (filter_none _ (seqZ (current + w b) (sum l))) by (intros t _ ?%scan_elem; done).
    rewrite length_seqZ. simpl. lia.
  - rewrite (filter_none _ (seqZ current (w b))) by done. simpl.
    apply IH; [done|lia..|done|set_solver].
Qed.

End weights.
