(* ===== verification/Message.v ===== *)
(** * The internal message format ([pkg/protocol/message.go])

    [Message] is the record of the source with its fixed-width fields as [Z];
    [Encode] writes a zeroed buffer of the computed length piece by piece, in
    the source's order and at the source's offsets, and [Decode] reads it back
    with the source's length checks.  The header is declared to be [HeaderSize]
    = 20 bytes long, but its last field, [PayloadLength], sits at [18:22]. *)

From stdpp Require Import base gmap strings list fin_maps.
From Stdlib Require Import ZArith Lia.
From S2P Require Import Prelude.

Local Open Scope Z_scope.

(** ** Constants *)

Definition ServiceTypeUnknown : Z := 0.
Definition ServiceTypeGateway : Z := 1.
Definition ServiceTypeChat : Z := 2.
Definition ServiceTypeGame : Z := 3.
Definition ServiceTypeAuth : Z := 4.
Definition ServiceTypeMatchmaker : Z := 5.
Definition ServiceTypeLocation : Z := 6.
Definition ServiceTypeCombat : Z := 7.
Definition ServiceTypeInventory : Z := 8.
Definition ServiceTypeQuest : Z := 9.

Definition ProtocolVersion : Z := 1.

Definition FlagNone : Z := 0.
Definition FlagEncrypted : Z := 1.
Definition FlagCompressed : Z := 2.
Definition FlagReliable : Z := 4.
Definition FlagOrdered : Z := 8.
Definition FlagAck : Z := 16.
Definition FlagSystem : Z := 32.
Definition FlagPing : Z := 64.
Definition FlagPong : Z := 128.

Definition MaxMessageSize : Z := 10 * 1024 * 1024.
Definition HeaderSize : nat := 20.
Definition MaxPayloadSize : Z := MaxMessageSize - Z.of_nat HeaderSize.
Definition MaxServiceNameSize : Z := 32.

(** ** The message record *)

Record Message := MkMessage {
  Version : Z;             (* uint8 *)
  Flags : Z;               (* uint8 *)
  ServiceType : Z;         (* uint16 *)
  MessageType : Z;         (* uint16 *)
  SequenceID : Z;          (* uint32 *)
  Timestamp : Z;           (* uint64 *)
  PayloadLength : Z;       (* uint32 *)
  SourceService : string;
  DestinationService : string;
  CorrelationID : string;
  SessionID : string;
  Payload : list byte
}.

(** The values the Go types of the fields admit. *)
Record message_typed (m : Message) : Prop := {
  typed_version : in_u 8 (Version m);
  typed_flags : in_u 8 (Flags m);
  typed_service : in_u 16 (ServiceType m);
  typed_message : in_u 16 (MessageType m);
  typed_sequence : in_u 32 (SequenceID m);
  typed_timestamp : in_u 64 (Timestamp m);
  typed_length : in_u 32 (PayloadLength m)
}.

(** [now] is [uint64(time.Now().UnixMicro())]. *)
Definition NewMessage (now serviceType messageType : Z) (payload : list byte) : Message :=
  {| Version := ProtocolVersion;
     Flags := FlagNone;
     ServiceType := serviceType;
     MessageType := messageType;
     SequenceID := 0;
     Timestamp := now;
     PayloadLength := uwrap 32 (Z.of_nat (length payload));
     SourceService := "";
     DestinationService := "";
     CorrelationID := "";
     SessionID := "";
     Payload := payload |}.

Definition set_flags (m : Message) (f : Z) : Message :=
  {| Version := Version m; Flags := f; ServiceType := ServiceType m;
     MessageType := MessageType m; SequenceID := SequenceID m;
     Timestamp := Timestamp m; PayloadLength := PayloadLength m;
     SourceService := SourceService m; DestinationService := DestinationService m;
     CorrelationID := CorrelationID m; SessionID := SessionID m;
     Payload := Payload m |}.

Definition SetFlag (m : Message) (flag : Z) : Message :=
  set_flags m (Z.lor (Flags m) flag).

(** [m.Flags &= ^flag], the complement taken on eight bits. *)
Definition ClearFlag (m : Message) (flag : Z) : Message :=
  set_flags m (Z.land (Flags m) (uwrap 8 (Z.lnot flag))).

Definition HasFlag (m : Message) (flag : Z) : bool :=
  negb (Z.land (Flags m) flag =? 0).

(** A fresh record with the same fields; the payload is copied into a zeroed
    slice of its length. *)
Definition Clone (m : Message) : Message :=
  {| Version := Version m; Flags := Flags m; ServiceType := ServiceType m;
     MessageType := MessageType m; SequenceID := SequenceID m;
     Timestamp := Timestamp m; PayloadLength := PayloadLength m;
     SourceService := SourceService m; DestinationService := DestinationService m;
     CorrelationID := CorrelationID m; SessionID := SessionID m;
     Payload := blit 0 (Payload m) (replicate (length (Payload m)) Byte.x00) |}.

(** ** Encoding *)

Inductive MsgError :=
  | ErrPayloadTooBig (size : nat)
  | ErrSourceNameTooLong (size : nat)
  | ErrDestNameTooLong (size : nat)
  | ErrShortHeader
  | ErrVersion (v : Z)
  | ErrShortSourceLen
  | ErrShortSource
  | ErrShortDestLen
  | ErrShortDest
  | ErrShortCorrelationLen
  | ErrShortCorrelation
  | ErrShortSessionLen
  | ErrShortSession
  | ErrShortPayload.

(** [uint16(len(s))] *)
Definition len16 (s : string) : Z := uwrap 16 (Z.of_nat (strlen s)).

(** The fixed header. *)
Definition put_header (m : Message) (buffer : list byte) : outcome MsgError (list byte) :=
  buffer ← put_at 0 1 [byte_of (Version m)] buffer;
  buffer ← put_at 1 2 [byte_of (Flags m)] buffer;
  buffer ← put_at 2 4 (be_put 2 (ServiceType m)) buffer;
  buffer ← put_at 4 6 (be_put 2 (MessageType m)) buffer;
  buffer ← put_at 6 10 (be_put 4 (SequenceID m)) buffer;
  buffer ← put_at 10 18 (be_put 8 (Timestamp m)) buffer;
  put_at 18 22 (be_put 4 (PayloadLength m)) buffer.

(** The length prefix and the contents of one variable field, at [offset]. *)
Definition put_string (s : string) (st : list byte * nat) : outcome MsgError (list byte * nat) :=
  let '(buffer, offset) := st in
  let n := Z.to_nat (len16 s) in
  buffer ← put_at offset (offset + 2) (be_put 2 (len16 s)) buffer;
  let offset := (offset + 2)%nat in
  buffer ← put_at offset (offset + n) (str_bytes s) buffer;
  Ret (buffer, (offset + n)%nat).

Definition Encode (m : Message) : outcome MsgError (list byte) :=
  fail_if (MaxPayloadSize <? Z.of_nat (length (Payload m)))
    (ErrPayloadTooBig (length (Payload m)));;
  fail_if (MaxServiceNameSize <? Z.of_nat (strlen (SourceService m)))
    (ErrSourceNameTooLong (strlen (SourceService m)));;
  fail_if (MaxServiceNameSize <? Z.of_nat (strlen (DestinationService m)))
    (ErrDestNameTooLong (strlen (DestinationService m)));;
  let totalLength :=
    (HeaderSize + (2 + Z.to_nat (len16 (SourceService m)))
     + (2 + Z.to_nat (len16 (DestinationService m)))
     + (2 + Z.to_nat (len16 (CorrelationID m)))
     + (2 + Z.to_nat (len16 (SessionID m)))
     + length (Payload m))%nat in
  let buffer := replicate totalLength Byte.x00 in
  buffer ← put_header m buffer;
  st ← put_string (SourceService m) (buffer, HeaderSize);
  st ← put_string (DestinationService m) st;
  st ← put_string (CorrelationID m) st;
  '(buffer, offset) ← put_string (SessionID m) st;
  put_at offset (length buffer) (Payload m) buffer.

(** ** Decoding *)

(** One length-prefixed field of [data] at [offset]: [eLen] when the prefix is
    cut off, [eBody] when the contents are. *)
Definition get_string (data : list byte) (offset : nat) (eLen eBody : MsgError) :
    outcome MsgError (string * nat) :=
  fail_if (length data <? offset + 2)%nat eLen;;
  let n := Z.to_nat (be_get (sub offset 2 data)) in
  let offset := (offset + 2)%nat in
  fail_if (length data <? offset + n)%nat eBody;;
  Ret (bytes_str (sub offset n data), (offset + n)%nat).

(** [spare] holds the bytes of the backing array past [len(data)], so that
    [cap(data) = length data + length spare]: a Go slice expression may reach
    them, and it panics past them. *)
Definition Decode (spare data : list byte) : outcome MsgError Message :=
  fail_if (length data <? HeaderSize)%nat ErrShortHeader;;
  panic_unless (22 <=? length (data ++ spare))%nat;;
  let backing := data ++ spare in
  let version := be_get (sub 0 1 data) in
  let flags := be_get (sub 1 1 data) in
  let serviceType := be_get (sub 2 2 data) in
  let messageType := be_get (sub 4 2 data) in
  let sequenceID := be_get (sub 6 4 data) in
  let timestamp := be_get (sub 10 8 data) in
  let payloadLength := be_get (sub 18 4 backing) in
  fail_if (negb (version =? ProtocolVersion)) (ErrVersion version);;
  '(source, offset) ← get_string data HeaderSize ErrShortSourceLen ErrShortSource;
  '(dest, offset) ← get_string data offset ErrShortDestLen ErrShortDest;
  '(corr, offset) ← get_string data offset ErrShortCorrelationLen ErrShortCorrelation;
  '(sess, offset) ← get_string data offset ErrShortSessionLen ErrShortSession;
  fail_if (length data <? offset + Z.to_nat payloadLength)%nat ErrShortPayload;;
  Ret {| Version := version; Flags := flags; ServiceType := serviceType;
         MessageType := messageType; SequenceID := sequenceID;
         Timestamp := timestamp; PayloadLength := payloadLength;
         SourceService := source; DestinationService := dest;
         CorrelationID := corr; SessionID := sess;
         Payload := sub offset (Z.to_nat payloadLength) data |}.

(** ** What [Encode] writes *)

(** The contents of a variable field that fit its 16-bit length prefix. *)
Definition trunc16 (s : string) : list byte := take (Z.to_nat (Z.of_nat (strlen s) mod 65536)) (str_bytes s).

Lemma trunc16_len s : trunc16 s = take (Z.to_nat (len16 s)) (str_bytes s).
Proof. done. Qed.

Definition wire_field (s : string) : list byte := be_put 2 (len16 s) ++ trunc16 s.

(** The eighteen bytes before [PayloadLength]. *)
Definition wire_head (m : Message) : list byte :=
  byte_of (Version m) :: byte_of (Flags m) ::
  be_put 2 (ServiceType m) ++ be_put 2 (MessageType m) ++
  be_put 4 (SequenceID m) ++ be_put 8 (Timestamp m).

(** Only the upper half of [PayloadLength] survives: the prefix of the source
    service is written over the lower half. *)
Definition wire_tail (m : Message) : list byte :=
  wire_field (SourceService m) ++ wire_field (DestinationService m) ++
  wire_field (CorrelationID m) ++ wire_field (SessionID m) ++ Payload m.

Definition wire (m : Message) : list byte :=
  wire_head m ++ be_put 2 (PayloadLength m / 65536) ++ wire_tail m.

(** The three checks of [Encode] on the sizes of its fields. *)
Definition encodable (m : Message) : Prop :=
  Z.of_nat (length (Payload m)) <= MaxPayloadSize
  /\ Z.of_nat (strlen (SourceService m)) <= MaxServiceNameSize
  /\ Z.of_nat (strlen (DestinationService m)) <= MaxServiceNameSize.

Lemma len16_range s : 0 <= len16 s < 65536.
Proof. apply (uwrap_range 16). lia. Qed.

Lemma len16_le s : (Z.to_nat (len16 s) <= strlen s)%nat.
Proof.
  unfold len16, uwrap. pose proof (Z.mod_le (Z.of_nat (strlen s)) (2 ^ 16)). lia.
Qed.

Lemma length_trunc16 s : length (trunc16 s) = Z.to_nat (len16 s).
Proof.
  rewrite trunc16_len. pose proof (len16_le s). unfold strlen in *.
  rewrite length_take. lia.
Qed.

Lemma trunc16_short s : Z.of_nat (strlen s) < 65536 -> trunc16 s = str_bytes s.
Proof.
  intros. rewrite trunc16_len. unfold len16. rewrite uwrap_small by (unfold in_u; lia).
  rewrite Nat2Z.id. unfold strlen. by rewrite take_ge.
Qed.

Lemma length_wire_head m : length (wire_head m) = 18%nat.
Proof.
  unfold wire_head. cbn [length]. rewrite !length_app, !length_be_put. lia.
Qed.

Lemma length_wire_field s : length (wire_field s) = (2 + Z.to_nat (len16 s))%nat.
Proof. unfold wire_field. by rewrite length_app, length_be_put, length_trunc16. Qed.

Lemma put_string_zeros s w n :
  (2 + Z.to_nat (len16 s) <= n)%nat ->
  put_string s (w ++ replicate n Byte.x00, length w)
  = Ret ((w ++ wire_field s) ++ replicate (n - length (wire_field s)) Byte.x00,
         length (w ++ wire_field s)).
Proof.
  intros Hn. pose proof (len16_le s). unfold strlen in *. unfold put_string.
  rewrite put_at_zeros by len. gosimpl.
  rewrite put_at_zeros by len. gosimpl.
  rewrite take_ge by len. unfold wire_field. rewrite trunc16_len.
  replace (length w + 2 + Z.to_nat (len16 s) - (length w + 2))%nat
    with (Z.to_nat (len16 s)) by lia.
  rewrite <- !app_assoc. do 2 f_equal; [do 4 f_equal|]; len.
Qed.

Lemma be_put_4_2 z : be_put 4 z = be_put 2 (z / 65536) ++ be_put 2 z.
Proof. apply (be_put_split 2 2). Qed.

(** What a previous write left in the two bytes of a length prefix is lost. *)
Lemma put_string_overlap s w x n :
  length x = 2%nat ->
  put_string s ((w ++ x) ++ replicate n Byte.x00, length w)
  = put_string s (w ++ replicate (2 + n) Byte.x00, length w).
Proof.
  intros Hx. unfold put_string, put_at, panic_unless.
  rewrite (proj2 (Nat.leb_le _ (length ((w ++ x) ++ _)))) by len.
  rewrite (proj2 (Nat.leb_le _ (length (w ++ _)))) by len.
  rewrite (proj2 (Nat.leb_le (length w) _)) by lia.
  rewrite replicate_add, <- app_assoc. cbn [andb mbind outcome_bind].
  rewrite (blit_app _ _ w x), (blit_app _ _ w (replicate 2 _)) by len. done.
Qed.

Lemma put_header_zeros m n :
  (22 <= n)%nat ->
  put_header m (replicate n Byte.x00)
  = Ret ((wire_head m ++ be_put 4 (PayloadLength m)) ++ replicate (n - 22) Byte.x00).
Proof.
  intros Hn. unfold put_header. rewrite <- (app_nil_l (replicate n _)).
  do 7 (rewrite put_at_zeros; [gosimpl; rewrite take_ge by len | len..]).
  unfold wire_head. rewrite <- !app_assoc. cbn [app]. rewrite <- !app_assoc.
  do 9 f_equal. len.
Qed.

(** The source service's length prefix replaces the lower half of the payload
    length. *)
Lemma put_source_zeros m n :
  (Z.to_nat (len16 (SourceService m)) <= n)%nat ->
  put_string (SourceService m)
    ((wire_head m ++ be_put 4 (PayloadLength m)) ++ replicate n Byte.x00, HeaderSize)
  = let w := wire_head m ++ be_put 2 (PayloadLength m / 65536) ++ wire_field (SourceService m) in
    Ret (w ++ replicate (n - Z.to_nat (len16 (SourceService m))) Byte.x00, length w).
Proof.
  intros Hn. rewrite be_put_4_2, app_assoc.
  replace HeaderSize with (length (wire_head m ++ be_put 2 (PayloadLength m / 65536)))
    by (by rewrite length_app, length_wire_head, length_be_put).
  rewrite put_string_overlap by len. rewrite put_string_zeros by lia.
  by rewrite length_wire_field, <- app_assoc.
Qed.

Lemma encode_wire m : encodable m -> Encode m = Ret (wire m).
Proof.
  intros (Hp & Hs & Hd). unfold Encode, fail_if.
  do 3 (rewrite (proj2 (Z.ltb_ge _ _)) by lia; gosimpl).
  rewrite put_header_zeros by (unfold HeaderSize; lia). gosimpl.
  rewrite put_source_zeros by (unfold HeaderSize; lia). cbn zeta. gosimpl.
  do 3 (rewrite put_string_zeros by (rewrite ?length_wire_field; unfold HeaderSize; lia);
        gosimpl).
  rewrite put_at_zeros by (rewrite ?length_app, ?length_replicate, ?length_wire_field;
    unfold HeaderSize; lia).
  rewrite take_ge by (rewrite ?length_app, ?length_replicate, ?length_wire_field;
    unfold HeaderSize; lia).
  match goal with |- context [replicate ?n Byte.x00] => replace n with 0%nat by
    (rewrite ?length_app, ?length_replicate, ?length_wire_field; unfold HeaderSize; lia) end.
  unfold wire, wire_tail. by rewrite app_nil_r, <- !app_assoc.
Qed.

(** ** What [Decode] reads back *)

(** The payload length that is read back. *)
Definition decoded_length (m : Message) : Z :=
  PayloadLength m / 65536 * 65536 + Z.of_nat (strlen (SourceService m)).

(** The message [Decode] returns for the bytes of [m]. *)
Definition decoded (m : Message) : Message :=
  {| Version := Version m; Flags := Flags m; ServiceType := ServiceType m;
     MessageType := MessageType m; SequenceID := SequenceID m;
     Timestamp := Timestamp m; PayloadLength := decoded_length m;
     SourceService := SourceService m; DestinationService := DestinationService m;
     CorrelationID := bytes_str (trunc16 (CorrelationID m));
     SessionID := bytes_str (trunc16 (SessionID m));
     Payload := take (Z.to_nat (decoded_length m)) (Payload m) |}.

Lemma get_string_at data pre s post off e1 e2 :
  data = pre ++ wire_field s ++ post -> off = length pre ->
  get_string data off e1 e2
  = Ret (bytes_str (trunc16 s), (off + length (wire_field s))%nat).
Proof.
  intros -> ->. pose proof (length_trunc16 s). pose proof (len16_range s).
  unfold get_string, fail_if, wire_field.
  rewrite <- app_assoc, (sub_app (length pre) 2) by len.
  rewrite be_get_put, Z.mod_small by done.
  rewrite (proj2 (Nat.ltb_ge _ _)) by len. gosimpl.
  rewrite (proj2 (Nat.ltb_ge _ _)) by len. gosimpl.
  rewrite (app_assoc pre), sub_app by len. do 2 f_equal. len.
Qed.

Lemma get_string_not_panic data off e1 e2 : get_string data off e1 e2 <> Panic.
Proof. unfold get_string. repeat (apply outcome_bind_not_panic; auto with mmo). Qed.

(** A fixed-width field read at its offset. *)
Lemma be_get_at n z pre post off :
  off = length pre -> in_u (8 * Z.of_nat n) z ->
  be_get (sub off n (pre ++ be_put n z ++ post)) = z.
Proof.
  intros -> Hz. rewrite sub_app by len. rewrite be_get_put.
  change 256 with (2 ^ 8). rewrite <- Z.pow_mul_r by lia. by apply Z.mod_small.
Qed.

Lemma be_get_in_u l w : w = 8 * Z.of_nat (length l) -> in_u w (be_get l).
Proof.
  intros ->. pose proof (be_get_range l). unfold in_u.
  rewrite Z.pow_mul_r by lia. done.
Qed.

Lemma byte_of_put z : [byte_of z] = be_put 1 z.
Proof. unfold be_put. by rewrite Z.div_1_r. Qed.

Lemma wire_shape m :
  wire m = be_put 1 (Version m) ++ be_put 1 (Flags m) ++ be_put 2 (ServiceType m)
    ++ be_put 2 (MessageType m) ++ be_put 4 (SequenceID m) ++ be_put 8 (Timestamp m)
    ++ be_put 2 (PayloadLength m / 65536) ++ wire_tail m.
Proof.
  unfold wire, wire_head. rewrite <- !byte_of_put. cbn [app]. by rewrite <- !app_assoc.
Qed.

Lemma len16_name s : Z.of_nat (strlen s) <= MaxServiceNameSize -> len16 s = Z.of_nat (strlen s).
Proof. intros. apply uwrap_small. unfold in_u, MaxServiceNameSize in *. lia. Qed.

Lemma wire_payload_length m spare :
  in_u 32 (PayloadLength m) -> Z.of_nat (strlen (SourceService m)) <= MaxServiceNameSize ->
  be_get (sub 18 4 (wire m ++ spare)) = decoded_length m.
Proof.
  intros Ht Hs. unfold wire, wire_tail, wire_field. rewrite <- !app_assoc.
  rewrite (app_assoc (be_put 2 (PayloadLength m / 65536))).
  rewrite sub_app by (rewrite ?length_wire_head; len).
  rewrite be_get_app, length_be_put, !be_get_put, len16_name by done.
  unfold decoded_length, in_u, MaxServiceNameSize in *. change (256 ^ Z.of_nat 2) with 65536.
  rewrite !Z.mod_small; try lia.
  pose proof (Z.div_pos (PayloadLength m) 65536).
  pose proof (Z.div_lt_upper_bound (PayloadLength m) 65536 65536). lia.
Qed.

(** The fixed-width fields are read from where they were written. *)
Lemma wire_fixed_fields m :
  message_typed m ->
  be_get (sub 0 1 (wire m)) = Version m /\ be_get (sub 1 1 (wire m)) = Flags m
  /\ be_get (sub 2 2 (wire m)) = ServiceType m /\ be_get (sub 4 2 (wire m)) = MessageType m
  /\ be_get (sub 6 4 (wire m)) = SequenceID m /\ be_get (sub 10 8 (wire m)) = Timestamp m.
Proof.
  intros []. rewrite wire_shape.
  repeat split; repeat (rewrite sub_skip, length_be_put by len; cbn [Nat.sub]);
    by apply (be_get_at _ _ []).
Qed.

(** The tail: four variable fields, then as much payload as the length read asks for. *)
Lemma wire_strings m k :
  encodable m ->
  (let data := wire m in
   '(source, offset) ← get_string data HeaderSize ErrShortSourceLen ErrShortSource;
   '(dest, offset) ← get_string data offset ErrShortDestLen ErrShortDest;
   '(corr, offset) ← get_string data offset ErrShortCorrelationLen ErrShortCorrelation;
   '(sess, offset) ← get_string data offset ErrShortSessionLen ErrShortSession;
   k source dest corr sess offset : outcome MsgError Message)
  = k (SourceService m) (DestinationService m) (bytes_str (trunc16 (CorrelationID m)))
      (bytes_str (trunc16 (SessionID m))) (length (wire m) - length (Payload m))%nat.
Proof.
  intros (Hp & Hs & Hd). cbn zeta. unfold MaxServiceNameSize in *.
  set (h := wire_head m ++ be_put 2 (PayloadLength m / 65536)).
  assert (length h = HeaderSize) as Hh by (unfold h; by rewrite length_app, length_wire_head, length_be_put).
  assert (wire m = h ++ wire_tail m) as Hw by (unfold wire, h; by rewrite app_assoc).
  rewrite Hw. unfold wire_tail. rewrite <- Hh.
  rewrite (get_string_at _ h (SourceService m) _ _ _ _ eq_refl eq_refl), <- length_app.
  gosimpl. rewrite (app_assoc h).
  rewrite (get_string_at _ (h ++ _) (DestinationService m) _ _ _ _ eq_refl eq_refl), <- length_app.
  gosimpl. rewrite (app_assoc (h ++ _)).
  rewrite (get_string_at _ ((h ++ _) ++ _) (CorrelationID m) _ _ _ _ eq_refl eq_refl), <- length_app.
  gosimpl. rewrite (app_assoc ((h ++ _) ++ _)).
  rewrite (get_string_at _ (((h ++ _) ++ _) ++ _) (SessionID m) _ _ _ _ eq_refl eq_refl), <- length_app.
  gosimpl. rewrite (app_assoc (((h ++ _) ++ _) ++ _)).
  rewrite (trunc16_short (SourceService m)), (trunc16_short (DestinationService m)) by lia.
  rewrite !bytes_str_bytes. f_equal. rewrite (length_app _ (Payload m)). lia.
Qed.

Lemma wire_payload m n :
  sub (length (wire m) - length (Payload m)) n (wire m) = take n (Payload m).
Proof.
  unfold wire, wire_tail. rewrite !app_assoc, length_app, Nat.add_sub.
  unfold sub. by rewrite drop_app_length.
Qed.

Lemma decode_wire_any m spare :
  message_typed m -> encodable m ->
  Decode spare (wire m)
  = if negb (Version m =? ProtocolVersion) then Fail (ErrVersion (Version m))
    else if Z.of_nat (length (Payload m)) <? decoded_length m then Fail ErrShortPayload
    else Ret (decoded m).
Proof.
  intros Ht He. destruct (wire_fixed_fields m Ht) as (E1 & E2 & E3 & E4 & E5 & E6).
  pose proof (wire_payload_length m spare (typed_length m Ht) (proj1 (proj2 He))) as Hpl.
  assert (length (wire m) = 20 + length (wire_tail m))%nat as Hl
    by (unfold wire; rewrite !length_app, length_wire_head, length_be_put; lia).
  assert (8 + length (Payload m) <= length (wire_tail m))%nat as Ht8
    by (unfold wire_tail; rewrite !length_app, !length_wire_field; lia).
  unfold Decode, fail_if, panic_unless.
  rewrite (proj2 (Nat.ltb_ge _ _)) by (unfold HeaderSize; lia). gosimpl.
  rewrite (proj2 (Nat.leb_le _ _)) by len. gosimpl.
  rewrite Hpl, E1, E2, E3, E4, E5, E6. destruct (negb _); [done|]. cbn [mbind outcome_bind].
  refine (eq_trans (wire_strings m _ He) _). cbn beta.
  assert (0 <= decoded_length m) by (rewrite <- Hpl; apply be_get_range).
  rewrite wire_payload.
  destruct (Z.ltb_spec (Z.of_nat (length (Payload m))) (decoded_length m)).
  - by rewrite (proj2 (Nat.ltb_lt _ _)) by lia.
  - rewrite (proj2 (Nat.ltb_ge _ _)) by lia. done.
Qed.

Lemma decode_wire m spare :
  message_typed m -> encodable m -> Version m = ProtocolVersion ->
  Decode spare (wire m)
  = if Z.of_nat (length (Payload m)) <? decoded_length m then Fail ErrShortPayload
    else Ret (decoded m).
Proof. intros Ht He Hv. rewrite decode_wire_any by done. by rewrite Hv. Qed.

(** ** Properties *)

(** C15: encoding then decoding a message: for every message whose fields have
    the values of their Go types and whose sizes pass the three checks, [Decode] of [Encode]
    fails when the version is not the protocol's; otherwise it reads back every fixed field
    and both service names, the correlation and session ids cut to their length
    modulo 2^16, and a payload length whose lower half is the length of the
    source service's name: the prefix of that name is written at [20:22], over
    the lower half of [PayloadLength] at [18:22].  It fails when that length
    exceeds the payload, and otherwise cuts the payload to it. *)
Theorem message_encode_decode (m : Message) (spare : list byte) :
  message_typed m -> encodable m ->
  (Encode m ≫= Decode spare)
  = if negb (Version m =? ProtocolVersion) then Fail (ErrVersion (Version m))
    else if Z.of_nat (length (Payload m)) <? decoded_length m then Fail ErrShortPayload
    else Ret (decoded m).
Proof. intros. rewrite encode_wire by done. by apply decode_wire_any. Qed.

(** A chat message from a service whose name has as many bytes as the payload. *)
Definition sample_message : Message :=
  {| Version := 1; Flags := 3; ServiceType := 2; MessageType := 4; SequenceID := 77;
     Timestamp := 1700000000; PayloadLength := 5; SourceService := "gw-01";
     DestinationService := "chat"; CorrelationID := "c1"; SessionID := "s1";
     Payload := str_bytes "hello" |}.

Lemma sample_message_typed : message_typed sample_message.
Proof. by repeat split. Qed.

Lemma sample_message_encodable : encodable sample_message.
Proof. by repeat split. Qed.

Lemma message_encode_decode_witness :
  (Encode sample_message ≫= Decode []) = Ret sample_message.
Proof.
  rewrite (message_encode_decode sample_message []
    sample_message_typed sample_message_encodable).
  reflexivity.
Defined.

(** When the round trip is exact: a message that carries its own payload
    length and ids shorter than 2^16 bytes comes back unchanged exactly when the
    lower half of its payload length equals the length of its source service's
    name; in particular a message without a source service only survives when
    its payload length is a multiple of 2^16. *)
Theorem message_roundtrip_iff (m : Message) (spare : list byte) :
  message_typed m -> encodable m -> Version m = ProtocolVersion ->
  PayloadLength m = Z.of_nat (length (Payload m)) ->
  Z.of_nat (strlen (CorrelationID m)) < 65536 -> Z.of_nat (strlen (SessionID m)) < 65536 ->
  (Encode m ≫= Decode spare) = Ret m
  <-> PayloadLength m mod 65536 = Z.of_nat (strlen (SourceService m)).
Proof.
  intros Ht He Hv Hpl Hc Hs. rewrite encode_wire by done. gosimpl.
  rewrite decode_wire by done.
  assert (PayloadLength m = decoded_length m
    <-> PayloadLength m mod 65536 = Z.of_nat (strlen (SourceService m))) as <-.
  { unfold decoded_length. pose proof (Z.div_mod (PayloadLength m) 65536). lia. }
  split.
  - case_match; [done|]. intros [= E]. by rewrite <- E at 1.
  - intros E. rewrite <- E, Hpl, Z.ltb_irrefl. f_equal.
    unfold decoded. rewrite !trunc16_short, !bytes_str_bytes by done.
    rewrite <- E, Hpl, Nat2Z.id, take_ge by done. rewrite <- Hpl. by destruct m.
Qed.

Lemma message_roundtrip_iff_witness :
  (Encode sample_message ≫= Decode []) = Ret sample_message
  <-> PayloadLength sample_message mod 65536 = Z.of_nat (strlen (SourceService sample_message)).
Proof.
  apply (message_roundtrip_iff sample_message []); try reflexivity.
  - apply sample_message_typed.
  - apply sample_message_encodable.
Defined.

(** [Decode] is safe except on one window: it panics exactly when the data
    is 20 or 21 bytes long and its backing array ends before byte 22, because
    the only length check before the read of [data[18:22]] is against
    [HeaderSize] = 20. *)
Theorem message_decode_panics_iff (spare data : list byte) :
  Decode spare data = Panic
  <-> (20 <= length data)%nat /\ (length data + length spare < 22)%nat.
Proof.
  unfold Decode, fail_if, panic_unless, HeaderSize. rewrite length_app.
  destruct (Nat.ltb_spec (length data) 20); gosimpl; [split; [done|lia]|].
  destruct (Nat.leb_spec 22 (length data + length spare)); gosimpl;
    [|split; [lia|done]].
  split; [|lia]. intros Hd. exfalso. revert Hd.
  apply outcome_bind_not_panic; [by case_match|intros _ _].
  do 4 (apply outcome_bind_not_panic; [apply get_string_not_panic|intros [? ?] _]).
  apply outcome_bind_not_panic; [by case_match|done].
Qed.

(** C40: what a decoded message satisfies: every field has a value of its Go
    type, the version is the protocol's and the payload has exactly the length
    the header announces. *)
Theorem message_decode_typed (spare data : list byte) (m : Message) :
  Decode spare data = Ret m ->
  message_typed m /\ Version m = ProtocolVersion
  /\ PayloadLength m = Z.of_nat (length (Payload m)).
Proof.
  unfold Decode, fail_if, panic_unless, HeaderSize. rewrite length_app.
  destruct (Nat.ltb_spec (length data) 20); [done|]. gosimpl.
  destruct (Nat.leb_spec 22 (length data + length spare)); [|done]. gosimpl.
  destruct (be_get (sub 0 1 data) =? ProtocolVersion) eqn:Hv; [|done]. gosimpl.
  apply Z.eqb_eq in Hv. destruct (get_string _ _ _ _) as [[s1 o1]| |]; [|done..].
  gosimpl. destruct (get_string _ _ _ _) as [[s2 o2]| |]; [|done..].
  gosimpl. destruct (get_string _ _ _ _) as [[s3 o3]| |]; [|done..].
  gosimpl. destruct (get_string _ _ _ _) as [[s4 o4]| |]; [|done..].
  gosimpl. destruct (Nat.ltb_spec (length data)
    (o4 + Z.to_nat (be_get (sub 18 4 (data ++ spare))))); [done|].
  intros [= <-]. pose proof (be_get_range (sub 18 4 (data ++ spare))).
  split; [constructor|split; [done|]]; simpl.
  1-7: eapply be_get_in_u; rewrite length_sub; len.
  rewrite length_sub; lia.
Qed.

Lemma message_decode_typed_witness :
  message_typed sample_message /\ Version sample_message = ProtocolVersion
  /\ PayloadLength sample_message = Z.of_nat (length (Payload sample_message)).
Proof. by apply (message_decode_typed [] (wire sample_message) sample_message). Defined.

(** [Encode] on every branch: it never panics, it refuses exactly the
    oversized payloads and service names, checked in that order, and otherwise
    writes [wire m]. *)
Theorem message_encode_total (m : Message) :
  Encode m =
    if MaxPayloadSize <? Z.of_nat (length (Payload m)) then
      Fail (ErrPayloadTooBig (length (Payload m)))
    else if MaxServiceNameSize <? Z.of_nat (strlen (SourceService m)) then
      Fail (ErrSourceNameTooLong (strlen (SourceService m)))
    else if MaxServiceNameSize <? Z.of_nat (strlen (DestinationService m)) then
      Fail (ErrDestNameTooLong (strlen (DestinationService m)))
    else Ret (wire m).
Proof.
  destruct (MaxPayloadSize <? _) eqn:E1; [unfold Encode, fail_if; by rewrite E1|].
  destruct (MaxServiceNameSize <? Z.of_nat (strlen (SourceService m))) eqn:E2;
    [unfold Encode, fail_if; by rewrite E1, E2|].
  destruct (MaxServiceNameSize <? Z.of_nat (strlen (DestinationService m))) eqn:E3;
    [unfold Encode, fail_if; by rewrite E1, E2, E3|].
  apply encode_wire. unfold encodable. rewrite <- !Z.ltb_ge. done.
Qed.

(** The flag operations on the bits of a flag [f]: setting [f] makes the
    test of [g] succeed when [f] and [g] share a bit and leaves it alone
    otherwise; clearing [f] makes the test of [g] depend only on the bits of [g]
    outside [f]; both keep [Flags] a byte. *)
Theorem message_flags (m : Message) (f g : Z) :
  in_u 8 (Flags m) -> in_u 8 f -> in_u 8 g ->
  HasFlag (SetFlag m f) g = HasFlag m g || negb (Z.land f g =? 0)
  /\ HasFlag (ClearFlag m f) g = HasFlag m (Z.ldiff g f)
  /\ in_u 8 (Flags (SetFlag m f)) /\ in_u 8 (Flags (ClearFlag m f)).
Proof.
  intros Hm Hf Hg. unfold HasFlag, SetFlag, ClearFlag. cbn [Flags set_flags]. split_and!.
  - rewrite Z.land_lor_distr_l, <- negb_andb. f_equal.
    apply eq_bool_prop_intro. rewrite andb_True, !Is_true_true, !Z.eqb_eq.
    apply Z.lor_eq_0_iff.
  - by rewrite <- Z.land_assoc, land_uwrap_lnot.
  - by apply in_u_lor.
  - apply in_u_land; [done|]. by apply uwrap_range.
Qed.

Lemma message_flags_witness :
  HasFlag (SetFlag sample_message FlagPing) FlagPing = true
  /\ HasFlag (ClearFlag sample_message FlagCompressed) FlagCompressed = false.
Proof.
  destruct (message_flags sample_message FlagPing FlagPing) as (-> & _); [done..|].
  destruct (message_flags sample_message FlagCompressed FlagCompressed) as (_ & -> & _);
    [done..|].
  by split.
Defined.
