(* ===== verification/RpcWire.v ===== *)
(** * The RPC wire format ([pkg/rpc/protocol.go], [pkg/rpc/rpc.go])

    Binary requests and responses with length-prefixed fields, their
    [MarshalBinary] / [UnmarshalBinary] methods with every slice bound the
    runtime checks, the (de)serialisation of calls around them and the
    ["Service.Method"] parser. *)

From stdpp Require Import base gmap strings list fin_maps.
From Stdlib Require Import ZArith Lia.
From S2P Require Import Prelude.

(** ** The two wire records *)

Record ProtocolRPCRequest := MkRequest {
  req_ServiceMethod : string;
  req_Sequence : Z;            (* uint64 *)
  req_ArgsData : list byte
}.

Record ProtocolRPCResponse := MkResponse {
  resp_ServiceMethod : string;
  resp_Sequence : Z;           (* uint64 *)
  resp_Error : string;
  resp_ReplyData : list byte
}.

Inductive WireError :=
  | ErrTooShort
  | ErrServiceMethodLength
  | ErrNoArgsLength
  | ErrArgsLength
  | ErrNoErrorLength
  | ErrErrorLength
  | ErrNoReplyLength
  | ErrReplyLength
  | ErrMarshalArgs
  | ErrIllFormed (serviceMethod : string).

(** ** Marshalling *)

(** A 4-byte length [uint32(len(src))] and then the bytes, at [offset]. *)
Definition put_field (src : list byte) (st : list byte * nat) :
    outcome WireError (list byte * nat) :=
  let '(result, offset) := st in
  result ← put_uint 4 offset (uwrap 32 (Z.of_nat (length src))) result;
  let offset := offset + 4 in
  result ← copy_from offset src result;
  Ret (result, offset + length src).

Definition req_MarshalBinary (r : ProtocolRPCRequest) : outcome WireError (list byte) :=
  let serviceMethodLen := strlen (req_ServiceMethod r) in
  let argsDataLen := length (req_ArgsData r) in
  let totalLen := 8 + 4 + serviceMethodLen + 4 + argsDataLen in
  let result := replicate totalLen Byte.x00 in
  result ← put_uint 8 0 (req_Sequence r) result;
  st ← put_field (str_bytes (req_ServiceMethod r)) (result, 8);
  '(result, _) ← put_field (req_ArgsData r) st;
  Ret result.

Definition resp_MarshalBinary (r : ProtocolRPCResponse) : outcome WireError (list byte) :=
  let serviceMethodLen := strlen (resp_ServiceMethod r) in
  let errorLen := strlen (resp_Error r) in
  let replyDataLen := length (resp_ReplyData r) in
  let totalLen := 8 + 4 + serviceMethodLen + 4 + errorLen + 4 + replyDataLen in
  let result := replicate totalLen Byte.x00 in
  result ← put_uint 8 0 (resp_Sequence r) result;
  st ← put_field (str_bytes (resp_ServiceMethod r)) (result, 8);
  st ← put_field (str_bytes (resp_Error r)) st;
  '(result, _) ← put_field (resp_ReplyData r) st;
  Ret result.

(** ** Unmarshalling *)

(** The bytes of one field at [offset]: its length, checked against the data
    with error [eBody], then its contents and the offset after it. *)
Definition get_field (data : list byte) (offset : nat) (eBody : WireError) :
    outcome WireError (list byte * nat) :=
  n ← get_uint 4 offset data;
  let offset := offset + 4 in
  fail_if (length data <? offset + Z.to_nat n) eBody;;
  l ← slice offset (offset + Z.to_nat n) data;
  Ret (l, offset + Z.to_nat n).

(** [if len(data) < offset+4 { return errors.New(...) }] *)
Definition need_length (data : list byte) (offset : nat) (e : WireError) : outcome WireError unit :=
  fail_if (length data <? offset + 4) e.

Definition req_UnmarshalBinary (data : list byte) : outcome WireError ProtocolRPCRequest :=
  fail_if (length data <? 16) ErrTooShort;;
  sequence ← get_uint 8 0 data;
  '(sm, offset) ← get_field data 8 ErrServiceMethodLength;
  need_length data offset ErrNoArgsLength;;
  '(args, _) ← get_field data offset ErrArgsLength;
  Ret {| req_ServiceMethod := bytes_str sm; req_Sequence := sequence; req_ArgsData := args |}.

Definition resp_UnmarshalBinary (data : list byte) : outcome WireError ProtocolRPCResponse :=
  fail_if (length data <? 20) ErrTooShort;;
  sequence ← get_uint 8 0 data;
  '(sm, offset) ← get_field data 8 ErrServiceMethodLength;
  need_length data offset ErrNoErrorLength;;
  '(err, offset) ← get_field data offset ErrErrorLength;
  need_length data offset ErrNoReplyLength;;
  '(reply, _) ← get_field data offset ErrReplyLength;
  Ret {| resp_ServiceMethod := bytes_str sm; resp_Sequence := sequence;
         resp_Error := bytes_str err; resp_ReplyData := reply |}.

(** ** Calls ([rpc.go])

    [proto.Message] and [proto.Marshal] belong to the protobuf library: [msg] is
    its type of messages and [marshal] its encoder, [None] on an error. *)

Record RPCRequest (msg : Type) := MkRPCRequest {
  rq_ServiceMethod : string; rq_Sequence : Z; rq_Args : option msg }.
Record RPCResponse (msg : Type) := MkRPCResponse {
  rs_ServiceMethod : string; rs_Sequence : Z; rs_Error : string; rs_Reply : option msg }.
Arguments MkRPCRequest {msg}. Arguments rq_ServiceMethod {msg}. Arguments rq_Sequence {msg}.
Arguments rq_Args {msg}. Arguments MkRPCResponse {msg}. Arguments rs_ServiceMethod {msg}.
Arguments rs_Sequence {msg}. Arguments rs_Error {msg}. Arguments rs_Reply {msg}.

Section calls.
Context {msg : Type} (marshal : msg -> option (list byte)).

(** [nil] marshals to no bytes. *)
Definition marshal_opt (m : option msg) : outcome WireError (list byte) :=
  match m with
  | None => Ret []
  | Some m => match marshal m with Some b => Ret b | None => Fail ErrMarshalArgs end
  end.

Definition SerializeRequest (req : RPCRequest msg) : outcome WireError (list byte) :=
  argsBytes ← marshal_opt (rq_Args req);
  req_MarshalBinary {| req_ServiceMethod := rq_ServiceMethod req;
    req_Sequence := rq_Sequence req; req_ArgsData := argsBytes |}.

Definition DeserializeRequest (data : list byte) : outcome WireError (RPCRequest msg) :=
  r ← req_UnmarshalBinary data;
  Ret {| rq_ServiceMethod := req_ServiceMethod r; rq_Sequence := req_Sequence r;
         rq_Args := None |}.

Definition SerializeResponse (resp : RPCResponse msg) : outcome WireError (list byte) :=
  replyBytes ← marshal_opt (rs_Reply resp);
  resp_MarshalBinary {| resp_ServiceMethod := rs_ServiceMethod resp;
    resp_Sequence := rs_Sequence resp; resp_Error := rs_Error resp;
    resp_ReplyData := replyBytes |}.

Definition DeserializeResponse (data : list byte) : outcome WireError (RPCResponse msg) :=
  r ← resp_UnmarshalBinary data;
  Ret {| rs_ServiceMethod := resp_ServiceMethod r; rs_Sequence := resp_Sequence r;
         rs_Error := resp_Error r; rs_Reply := None |}.

End calls.

(** The loop of [parseServiceMethod]: the index of the first dot, [0] when it
    finds none. *)
Fixpoint first_dot (i : nat) (l : list byte) : nat :=
  match l with
  | [] => 0
  | b :: l' => if bool_decide (b = Byte.x2e) then i else first_dot (S i) l'
  end.

Definition parseServiceMethod (serviceMethod : string) : outcome WireError (string * string) :=
  let l := str_bytes serviceMethod in
  let dot := first_dot 0 l in
  fail_if (dot =? 0) (ErrIllFormed serviceMethod);;
  service ← slice 0 dot l;
  method ← slice (dot + 1) (length l) l;
  Ret (bytes_str service, bytes_str method).

(** ** The bytes on the wire *)

Definition field_bytes (src : list byte) : list byte :=
  be_put 4 (uwrap 32 (Z.of_nat (length src))) ++ src.

Definition req_bytes (r : ProtocolRPCRequest) : list byte :=
  be_put 8 (req_Sequence r) ++ field_bytes (str_bytes (req_ServiceMethod r))
  ++ field_bytes (req_ArgsData r).

Definition resp_bytes (r : ProtocolRPCResponse) : list byte :=
  be_put 8 (resp_Sequence r) ++ field_bytes (str_bytes (resp_ServiceMethod r))
  ++ field_bytes (str_bytes (resp_Error r)) ++ field_bytes (resp_ReplyData r).

(** Sizes a 32-bit length prefix can carry. *)
Definition fits32 (l : list byte) : Prop := (Z.of_nat (length l) < 2 ^ 32)%Z.

Lemma length_field_bytes src : length (field_bytes src) = 4 + length src.
Proof. unfold field_bytes. len. Qed.

Lemma put_field_zeros src w n off :
  off = length w -> 4 + length src <= n ->
  put_field src (w ++ replicate n Byte.x00, off)
  = Ret ((w ++ field_bytes src) ++ replicate (n - (4 + length src)) Byte.x00,
         length (w ++ field_bytes src)).
Proof.
  intros -> Hn. unfold put_field.
  rewrite put_uint_zeros by lia. gosimpl.
  rewrite copy_from_zeros by len. gosimpl.
  unfold field_bytes. rewrite <- !app_assoc. do 2 f_equal; [do 4 f_equal|]; len.
Qed.

Lemma get_field_at pre src post e off :
  off = length pre -> fits32 src ->
  get_field (pre ++ field_bytes src ++ post) off e = Ret (src, length (pre ++ field_bytes src)).
Proof.
  intros -> Hs. unfold get_field, field_bytes. rewrite <- app_assoc.
  rewrite get_uint_at by (done || by apply uwrap_range). gosimpl.
  rewrite uwrap_small, Nat2Z.id by (unfold fits32, in_u in *; lia).
  unfold fail_if. rewrite (proj2 (Nat.ltb_ge _ _)) by len. gosimpl.
  rewrite app_assoc, slice_at by len. gosimpl. do 2 f_equal. len.
Qed.

(** What a successful read of a field says about the data. *)
Lemma get_field_inv data off e l off' :
  get_field data off e = Ret (l, off') ->
  take off' data = take off data ++ field_bytes l /\ off' <= length data /\ fits32 l.
Proof.
  unfold get_field, fail_if. intros H. go_inv H.
  destruct (Nat.ltb_spec (length data) (off + 4 + Z.to_nat x)); [done|].
  apply get_uint_inv in H0 as [Hlen ->]. apply slice_inv in H2 as [Hb ->].
  simplify_eq. set (n := be_get _) in *.
  assert (length (sub off 4 data) = 4) as H4 by (apply length_sub; lia).
  pose proof (be_get_range (sub off 4 data)) as Hr. fold n in Hr.
  rewrite H4 in Hr. change (256 ^ Z.of_nat 4)%Z with (2 ^ 32)%Z in Hr.
  replace (off + 4 + Z.to_nat n - (off + 4)) with (Z.to_nat n) by lia.
  assert (length (sub (off + 4) (Z.to_nat n) data) = Z.to_nat n) as Hl
    by (apply length_sub; lia).
  split_and!; [|lia|unfold fits32; lia].
  unfold field_bytes. rewrite Hl, Z2Nat.id, uwrap_small by (unfold in_u; lia).
  replace (be_put 4 n) with (sub off 4 data) by (rewrite <- (be_put_get (sub off 4 data)), H4; done).
  by rewrite app_assoc, <- !take_sub.
Qed.

Lemma get_field_not_panic data off e : off + 4 <= length data -> get_field data off e <> Panic.
Proof.
  intros H. unfold get_field, fail_if.
  apply outcome_bind_not_panic; [by apply get_uint_not_panic|intros n _].
  destruct (Nat.ltb_spec (length data) (off + 4 + Z.to_nat n)); gosimpl; [done|].
  apply outcome_bind_not_panic; [apply slice_not_panic; lia|done].
Qed.

Lemma req_marshal_bytes r : req_MarshalBinary r = Ret (req_bytes r).
Proof.
  unfold req_MarshalBinary, strlen. rewrite <- (app_nil_l (replicate _ _)).
  rewrite put_uint_zeros by (done || lia). gosimpl.
  do 2 (rewrite put_field_zeros by len; gosimpl).
  match goal with |- context [replicate ?n Byte.x00] => replace n with 0 by lia end.
  unfold req_bytes. by rewrite app_nil_r, <- !app_assoc.
Qed.

Lemma resp_marshal_bytes r : resp_MarshalBinary r = Ret (resp_bytes r).
Proof.
  unfold resp_MarshalBinary, strlen. rewrite <- (app_nil_l (replicate _ _)).
  rewrite put_uint_zeros by (done || lia). gosimpl.
  do 3 (rewrite put_field_zeros by len; gosimpl).
  match goal with |- context [replicate ?n Byte.x00] => replace n with 0 by lia end.
  unfold resp_bytes. by rewrite app_nil_r, <- !app_assoc.
Qed.

(** ** Properties *)

(** The fields of a request and of a response fit their length prefixes. *)
Definition req_sized (r : ProtocolRPCRequest) : Prop :=
  in_u 64 (req_Sequence r) /\ fits32 (str_bytes (req_ServiceMethod r)) /\ fits32 (req_ArgsData r).

Definition resp_sized (r : ProtocolRPCResponse) : Prop :=
  in_u 64 (resp_Sequence r) /\ fits32 (str_bytes (resp_ServiceMethod r))
  /\ fits32 (str_bytes (resp_Error r)) /\ fits32 (resp_ReplyData r).

Lemma req_unmarshal_bytes r extra :
  req_sized r -> req_UnmarshalBinary (req_bytes r ++ extra) = Ret r.
Proof.
  intros (Hs & Hm & Ha). unfold req_UnmarshalBinary, fail_if, need_length, req_bytes.
  rewrite <- !app_assoc.
  rewrite (proj2 (Nat.ltb_ge _ _)) by (rewrite !length_app, !length_field_bytes; len). gosimpl.
  rewrite get_uint_head by done. gosimpl.
  rewrite get_field_at by (rewrite ?length_be_put; done). gosimpl.
  unfold fail_if.
  rewrite (proj2 (Nat.ltb_ge _ _)) by (rewrite !length_app, !length_field_bytes; len). gosimpl.
  rewrite app_assoc, get_field_at by done. gosimpl.
  rewrite bytes_str_bytes. by destruct r.
Qed.

Lemma resp_unmarshal_bytes r extra :
  resp_sized r -> resp_UnmarshalBinary (resp_bytes r ++ extra) = Ret r.
Proof.
  intros (Hs & Hm & He & Ha). unfold resp_UnmarshalBinary, fail_if, need_length, resp_bytes.
  rewrite <- !app_assoc.
  rewrite (proj2 (Nat.ltb_ge _ _)) by (rewrite !length_app, !length_field_bytes; len). gosimpl.
  rewrite get_uint_head by done. gosimpl.
  rewrite get_field_at by (rewrite ?length_be_put; done). gosimpl.
  unfold fail_if.
  rewrite (proj2 (Nat.ltb_ge _ _)) by (rewrite !length_app, !length_field_bytes; len). gosimpl.
  rewrite app_assoc, get_field_at by done. gosimpl.
  rewrite (proj2 (Nat.ltb_ge _ _)) by (rewrite !length_app, !length_field_bytes; len). gosimpl.
  rewrite app_assoc, get_field_at by done. gosimpl.
  rewrite !bytes_str_bytes. by destruct r.
Qed.

(** Reading a field where its length prefix was checked to be present. *)
Lemma checked_field_not_panic {B} data off e1 e2 (k : list byte * nat -> outcome WireError B) :
  (forall p, k p <> Panic) ->
  (need_length data off e1;; p ← get_field data off e2; k p) <> Panic.
Proof.
  intros Hk. unfold need_length, fail_if.
  destruct (Nat.ltb_spec (length data) (off + 4)); gosimpl; [done|].
  apply outcome_bind_not_panic; [by apply get_field_not_panic|auto].
Qed.

(** Requests round trip: any request whose sequence number is a [uint64]
    and whose fields are shorter than 2^32 bytes is read back as it was from its
    marshalled bytes, whatever follows them. *)
Theorem rpc_request_roundtrip (r : ProtocolRPCRequest) (extra : list byte) :
  req_sized r ->
  (b ← req_MarshalBinary r; req_UnmarshalBinary (b ++ extra)) = Ret r.
Proof. intros. rewrite req_marshal_bytes. by apply req_unmarshal_bytes. Qed.

Lemma rpc_request_roundtrip_witness :
  (b ← req_MarshalBinary (MkRequest "PlayerService.UpdatePosition" 42 (str_bytes "xyz"));
   req_UnmarshalBinary (b ++ str_bytes "next"))
  = Ret (MkRequest "PlayerService.UpdatePosition" 42 (str_bytes "xyz")).
Proof. apply rpc_request_roundtrip. by repeat split. Defined.

(** Responses round trip, under the same bounds. *)
Theorem rpc_response_roundtrip (r : ProtocolRPCResponse) (extra : list byte) :
  resp_sized r ->
  (b ← resp_MarshalBinary r; resp_UnmarshalBinary (b ++ extra)) = Ret r.
Proof. intros. rewrite resp_marshal_bytes. by apply resp_unmarshal_bytes. Qed.

Lemma rpc_response_roundtrip_witness :
  (b ← resp_MarshalBinary (MkResponse "A.B" 7 "service not found" []);
   resp_UnmarshalBinary (b ++ [])) = Ret (MkResponse "A.B" 7 "service not found" []).
Proof. apply rpc_response_roundtrip. by repeat split. Defined.

(** Unmarshalling is safe on every input: no slice expression or integer
    read of either [UnmarshalBinary] goes out of range, whatever lengths the
    data announces. *)
Theorem rpc_unmarshal_safe (data : list byte) :
  req_UnmarshalBinary data <> Panic /\ resp_UnmarshalBinary data <> Panic.
Proof.
  split; unfold req_UnmarshalBinary, resp_UnmarshalBinary;
    [set (k := 16)|set (k := 20)]; unfold fail_if;
    destruct (Nat.ltb_spec (length data) k); gosimpl; try done; subst k.
  all: apply outcome_bind_not_panic; [apply get_uint_not_panic; lia|intros ? _].
  all: apply outcome_bind_not_panic; [apply get_field_not_panic; lia|intros [? off] _].
  - by apply checked_field_not_panic; intros [? ?].
  - apply checked_field_not_panic; intros [? ?]. by apply checked_field_not_panic; intros [? ?].
Qed.

(** The format is canonical: data that unmarshals to a request starts with
    the bytes that request marshals to, so two different prefixes never decode
    to the same request. *)
Theorem rpc_request_canonical (data : list byte) (r : ProtocolRPCRequest) :
  req_UnmarshalBinary data = Ret r ->
  exists extra, req_MarshalBinary r = Ret (take (length data - length extra) data)
    /\ data = take (length data - length extra) data ++ extra /\ req_sized r.
Proof.
  unfold req_UnmarshalBinary, fail_if, need_length. intros H.
  destruct (Nat.ltb_spec (length data) 16); [done|]. cbn [mbind outcome_bind] in H.
  go_inv H. destruct x0 as [sm off]. go_inv H. destruct x1 as [args off'].
  apply get_uint_inv in H1 as [_ ->]. apply get_field_inv in H2 as (T1 & L1 & F1).
  apply get_field_inv in H4 as (T2 & L2 & F2). simplify_eq.
  assert (length (sub 0 8 data) = 8) as H8 by (apply length_sub; lia).
  assert (take off' data = req_bytes
    {| req_ServiceMethod := bytes_str sm; req_Sequence := be_get (sub 0 8 data);
       req_ArgsData := args |}) as Ht.
  { rewrite T2, T1. unfold req_bytes. cbn [req_ServiceMethod req_Sequence req_ArgsData].
    rewrite str_bytes_str.
    change (take 8 data) with (sub 0 8 data).
    pose proof (be_put_get (sub 0 8 data)) as Hp. rewrite H8 in Hp. rewrite Hp.
    by rewrite <- app_assoc. }
  exists (drop off' data). rewrite req_marshal_bytes, <- Ht, length_drop.
  replace (length data - (length data - off')) with off' by lia.
  split_and!; [done|by rewrite take_drop|]. unfold req_sized. cbn [req_ServiceMethod req_Sequence req_ArgsData].
  rewrite str_bytes_str. split_and!; [|done..].
  pose proof (be_get_range (sub 0 8 data)) as Hr. rewrite H8 in Hr. exact Hr.
Qed.

Lemma rpc_request_canonical_witness :
  exists extra, req_MarshalBinary (MkRequest "A.B" 1 [])
      = Ret (take (19 - length extra) (be_put 8 1 ++ be_put 4 3 ++ str_bytes "A.B" ++ be_put 4 0))
    /\ be_put 8 1 ++ be_put 4 3 ++ str_bytes "A.B" ++ be_put 4 0
      = take (19 - length extra) (be_put 8 1 ++ be_put 4 3 ++ str_bytes "A.B" ++ be_put 4 0) ++ extra
    /\ req_sized (MkRequest "A.B" 1 []).
Proof.
  apply (rpc_request_canonical (be_put 8 1 ++ be_put 4 3 ++ str_bytes "A.B" ++ be_put 4 0)).
  reflexivity.
Defined.

(** Where the search of [parseServiceMethod] stops. *)
Lemma first_dot_skip i a l :
  Byte.x2e ∉ a -> first_dot i (a ++ l) = first_dot (i + length a) l.
Proof.
  revert i. induction a as [|b a IH]; intros i Ha; simpl; [by rewrite Nat.add_0_r|].
  apply not_elem_of_cons in Ha as [Hb Ha]. rewrite bool_decide_false by done.
  rewrite IH by done. f_equal. lia.
Qed.

Lemma first_dot_none i a : Byte.x2e ∉ a -> first_dot i a = 0.
Proof. intros. rewrite <- (app_nil_r a). by rewrite first_dot_skip. Qed.

Lemma first_dot_split (l : list byte) :
  Byte.x2e ∉ l \/ exists a b, l = a ++ Byte.x2e :: b /\ Byte.x2e ∉ a.
Proof.
  destruct (decide (Byte.x2e ∈ l)) as [H|]; [right|by left].
  apply list_elem_of_split_l in H as (a & b & -> & Ha). eauto.
Qed.

Lemma slice_after (a b : list byte) x :
  slice (length a + 1) (length (a ++ x :: b)) (a ++ x :: b) =@{outcome WireError _} Ret b.
Proof.
  rewrite (cons_middle x a b), app_assoc.
  pose proof (slice_at (E := WireError) (length a + 1) (length ((a ++ [x]) ++ b))
    (a ++ [x]) b []) as H.
  rewrite app_nil_r in H. apply H; len.
Qed.

Lemma parse_service_method_iff (s service method : string) :
  parseServiceMethod s = Ret (service, method)
  <-> s = service +:+ "." +:+ method /\ service <> "" /\ Byte.x2e ∉ str_bytes service.
Proof.
  assert (forall a b : list byte, str_bytes s = a ++ Byte.x2e :: b <->
    s = bytes_str a +:+ "." +:+ bytes_str b) as Hs.
  { intros a b. split; intros H.
    - apply (inj str_bytes). by rewrite !str_bytes_app, !str_bytes_str.
    - by rewrite H, !str_bytes_app, !str_bytes_str. }
  unfold parseServiceMethod, fail_if.
  destruct (first_dot_split (str_bytes s)) as [Hno|(a & b & E & Ha)].
  - rewrite first_dot_none by done. split; [done|]. intros (-> & _ & _).
    exfalso. apply Hno. rewrite !str_bytes_app. set_solver.
  - rewrite E, first_dot_skip by done. cbn [first_dot]. rewrite bool_decide_true by done.
    rewrite Nat.add_0_l. destruct a as [|c a]; gosimpl.
    + split; [done|]. intros (-> & Hne & Hdot). rewrite !str_bytes_app in E.
      destruct (str_bytes service) eqn:Es; [|set_solver].
      destruct Hne. apply (inj str_bytes). done.
    + rewrite (slice_at 0 _ [] (c :: a) (Byte.x2e :: b)) by done. gosimpl.
      rewrite slice_after. cbn [length Nat.eqb]. gosimpl. apply Hs in E.
      assert (bytes_str (c :: a) <> "") as Hne
        by (intros H; apply (f_equal str_bytes) in H; by rewrite str_bytes_str in H).
      split; [intros [= <- <-]; by rewrite str_bytes_str|].
      intros (E2 & _ & Hdot). rewrite E2 in E.
      apply (f_equal str_bytes) in E. rewrite !str_bytes_app, !str_bytes_str in E.
      apply (first_split_inj Byte.x2e) in E as [<- <-]; [|done..].
      by rewrite !bytes_str_bytes.
Qed.

(** [parseServiceMethod] is exactly the split at the first dot: it returns
    [(service, method)] for the strings [service ++ "." ++ method] with a
    non-empty service that has no dot, and refuses every other string. *)
Theorem rpc_parse_service_method (s service method : string) :
  parseServiceMethod s = Ret (service, method)
  <-> s = service +:+ "." +:+ method /\ service <> "" /\ Byte.x2e ∉ str_bytes service.
Proof. apply parse_service_method_iff. Qed.

Section calls_roundtrip.
Context {msg : Type} (marshal : msg -> option (list byte)).

(** A call survives serialisation up to its message: the name and sequence
    number of any request whose argument marshals come back, and its argument
    does not ([DeserializeRequest] leaves [Args] nil and drops the bytes); the
    same holds of a response's name, sequence number and error. *)
Theorem rpc_call_roundtrip (req : RPCRequest msg) (resp : RPCResponse msg) args reply :
  marshal_opt marshal (rq_Args req) = Ret args ->
  req_sized (MkRequest (rq_ServiceMethod req) (rq_Sequence req) args) ->
  marshal_opt marshal (rs_Reply resp) = Ret reply ->
  resp_sized (MkResponse (rs_ServiceMethod resp) (rs_Sequence resp) (rs_Error resp) reply) ->
  (SerializeRequest marshal req ≫= DeserializeRequest)
  = Ret (MkRPCRequest (msg := msg) (rq_ServiceMethod req) (rq_Sequence req) None)
  /\ (SerializeResponse marshal resp ≫= DeserializeResponse)
  = Ret (MkRPCResponse (msg := msg) (rs_ServiceMethod resp) (rs_Sequence resp)
      (rs_Error resp) None).
Proof.
  intros Ha Hq Hr Hs.
  unfold SerializeRequest, SerializeResponse, DeserializeRequest, DeserializeResponse.
  rewrite Ha, Hr. gosimpl. rewrite req_marshal_bytes, resp_marshal_bytes. gosimpl.
  rewrite <- (app_nil_r (req_bytes _)), <- (app_nil_r (resp_bytes _)).
  by rewrite req_unmarshal_bytes, resp_unmarshal_bytes.
Qed.

End calls_roundtrip.

Lemma rpc_call_roundtrip_witness :
  (SerializeRequest (fun s => Some (str_bytes s)) (MkRPCRequest "Echo.Say" 3 (Some "hi"))
     ≫= DeserializeRequest)
  = Ret (MkRPCRequest (msg := string) "Echo.Say" 3 None)
  /\ (SerializeResponse (fun s => Some (str_bytes s)) (MkRPCResponse "Echo.Say" 3 "" (Some "ho"))
     ≫= DeserializeResponse)
  = Ret (MkRPCResponse (msg := string) "Echo.Say" 3 "" None).
Proof.
  by apply (rpc_call_roundtrip (fun s => Some (str_bytes s))
    (MkRPCRequest "Echo.Say" 3 (Some "hi")) (MkRPCResponse "Echo.Say" 3 "" (Some "ho"))
    (str_bytes "hi") (str_bytes "ho")).
Defined.
