(* ===== verification/Registry.v ===== *)
(** * The handler registry ([pkg/protocol/handler_registry.go])

    A two-level map from service type and message type to a handler.  The
    registry is shown to refine one flat map keyed by the pair, error values
    included, over every sequence of operations. *)

From stdpp Require Import base gmap strings list fin_maps.
From Stdlib Require Import ZArith Lia.
From S2P Require Import Prelude.

Inductive RegError :=
  | ErrHandlerExists (serviceType messageType : Z)
  | ErrNoService (serviceType : Z)
  | ErrNoHandler (serviceType messageType : Z).

Section registry.
(** The handlers, functions from a message to a message or an error, are opaque
    to the registry. *)
Context {handler : Type}.

Implicit Types (s t : Z) (h : handler).

(** [map[ServiceType]map[MessageType]MessageHandlerFunc] *)
Record HandlerRegistry := MkRegistry { handlers : gmap Z (gmap Z handler) }.

Definition NewHandlerRegistry : HandlerRegistry := {| handlers := ∅ |}.

Definition RegisterHandler (r : HandlerRegistry) s t h :
    HandlerRegistry * outcome RegError unit :=
  let hs := match handlers r !! s with
            | Some _ => handlers r
            | None => <[s := ∅]> (handlers r)
            end in
  let inner := default ∅ (hs !! s) in
  match inner !! t with
  | Some _ => ({| handlers := hs |}, Fail (ErrHandlerExists s t))
  | None => ({| handlers := <[s := <[t := h]> inner]> hs |}, Ret tt)
  end.

Definition GetHandler (r : HandlerRegistry) s t : outcome RegError handler :=
  match handlers r !! s with
  | None => Fail (ErrNoService s)
  | Some serviceHandlers =>
      match serviceHandlers !! t with
      | None => Fail (ErrNoHandler s t)
      | Some h => Ret h
      end
  end.

Definition UnregisterHandler (r : HandlerRegistry) s t :
    HandlerRegistry * outcome RegError unit :=
  match handlers r !! s with
  | None => (r, Fail (ErrNoService s))
  | Some serviceHandlers =>
      match serviceHandlers !! t with
      | None => (r, Fail (ErrNoHandler s t))
      | Some _ =>
          let serviceHandlers := delete t serviceHandlers in
          if decide (size serviceHandlers = 0)
          then ({| handlers := delete s (handlers r) |}, Ret tt)
          else ({| handlers := <[s := serviceHandlers]> (handlers r) |}, Ret tt)
      end
  end.

(** The message types come in the iteration order of the inner map, which Go
    leaves unspecified: [order] gives it. *)
Definition ListHandlers (order : gmap Z handler -> list (Z * handler))
    (r : HandlerRegistry) : gmap Z (list Z) :=
  (fun serviceHandlers => (order serviceHandlers).*1) <$> handlers r.

Definition HasHandler (r : HandlerRegistry) s t : bool :=
  match handlers r !! s with
  | None => false
  | Some serviceHandlers => bool_decide (is_Some (serviceHandlers !! t))
  end.

(** ** The abstract registry *)

(** One map from pairs; [ErrNoService] is reported when the service has no
    handler at all. *)
Definition serves (a : gmap (Z * Z) handler) s : Prop := map_Exists (fun k _ => k.1 = s) a.

#[global] Instance serves_dec a s : Decision (serves a s).
Proof. unfold serves. apply _. Defined.

Definition spec_missing (a : gmap (Z * Z) handler) s t : RegError :=
  if decide (serves a s) then ErrNoHandler s t else ErrNoService s.

Inductive reg_op :=
  | OpRegister s t h
  | OpGet s t
  | OpUnregister s t
  | OpHas s t.

(** What an operation lets its caller observe. *)
Inductive reg_obs :=
  | ObsUnit (o : outcome RegError unit)
  | ObsHandler (o : outcome RegError handler)
  | ObsBool (b : bool).

Definition reg_step (r : HandlerRegistry) (op : reg_op) : HandlerRegistry * reg_obs :=
  match op with
  | OpRegister s t h => let '(r', o) := RegisterHandler r s t h in (r', ObsUnit o)
  | OpGet s t => (r, ObsHandler (GetHandler r s t))
  | OpUnregister s t => let '(r', o) := UnregisterHandler r s t in (r', ObsUnit o)
  | OpHas s t => (r, ObsBool (HasHandler r s t))
  end.

Definition spec_step (a : gmap (Z * Z) handler) (op : reg_op) : gmap (Z * Z) handler * reg_obs :=
  match op with
  | OpRegister s t h =>
      match a !! (s, t) with
      | Some _ => (a, ObsUnit (Fail (ErrHandlerExists s t)))
      | None => (<[(s, t) := h]> a, ObsUnit (Ret tt))
      end
  | OpGet s t =>
      (a, ObsHandler match a !! (s, t) with
                     | Some h => Ret h
                     | None => Fail (spec_missing a s t)
                     end)
  | OpUnregister s t =>
      match a !! (s, t) with
      | Some _ => (delete (s, t) a, ObsUnit (Ret tt))
      | None => (a, ObsUnit (Fail (spec_missing a s t)))
      end
  | OpHas s t => (a, ObsBool (bool_decide (is_Some (a !! (s, t)))))
  end.

Definition reg_exec (r : HandlerRegistry) (ops : list reg_op) : HandlerRegistry :=
  foldl (fun r op => (reg_step r op).1) r ops.

Definition spec_exec (a : gmap (Z * Z) handler) (ops : list reg_op) : gmap (Z * Z) handler :=
  foldl (fun a op => (spec_step a op).1) a ops.

Fixpoint reg_run (r : HandlerRegistry) (ops : list reg_op) : list reg_obs :=
  match ops with
  | [] => []
  | op :: ops => let '(r', o) := reg_step r op in o :: reg_run r' ops
  end.

Fixpoint spec_run (a : gmap (Z * Z) handler) (ops : list reg_op) : list reg_obs :=
  match ops with
  | [] => []
  | op :: ops => let '(a', o) := spec_step a op in o :: spec_run a' ops
  end.

(** ** The refinement *)

(** The flat view of a registry, and the invariant that no service is kept
    without a handler. *)
Definition flat (r : HandlerRegistry) s t : option handler :=
  handlers r !! s ≫= fun inner => inner !! t.

Record represents (r : HandlerRegistry) (a : gmap (Z * Z) handler) : Prop := {
  rep_flat s t : flat r s t = a !! (s, t);
  rep_nonempty s inner : handlers r !! s = Some inner -> inner <> ∅
}.

Lemma represents_new : represents NewHandlerRegistry ∅.
Proof. split; intros s; [intros t|intros ?]; unfold flat; simpl; by rewrite lookup_empty. Qed.

Lemma represents_serves r a s :
  represents r a -> serves a s <-> is_Some (handlers r !! s).
Proof.
  intros [Hf Hn]. unfold serves. split.
  - intros ([s' t] & h & Ha & <-). rewrite <- Hf in Ha. unfold flat in Ha. simpl.
    destruct (handlers r !! s'); [eauto|done].
  - intros [inner Hi]. destruct (map_choose inner) as (t & h & Ht); [by eapply Hn|].
    exists (s, t), h. split; [|done]. rewrite <- Hf. unfold flat. by rewrite Hi.
Qed.

Lemma represents_missing r a s t :
  represents r a -> flat r s t = None ->
  spec_missing a s t
  = match handlers r !! s with Some _ => ErrNoHandler s t | None => ErrNoService s end.
Proof.
  intros Hr _. unfold spec_missing.
  destruct (decide (serves a s)) as [Hd|Hd]; rewrite (represents_serves r a s Hr) in Hd;
    destruct (handlers r !! s); naive_solver.
Qed.

(** Replacing the inner map of one service. *)
Lemma represents_update r a s t inner o :
  represents r a -> inner <> ∅ ->
  (forall t', inner !! t' = if decide (t = t') then o else flat r s t') ->
  represents {| handlers := <[s := inner]> (handlers r) |} (partial_alter (fun _ => o) (s, t) a).
Proof.
  intros [Hf Hn] Hne Hi. split.
  - intros s' t'. unfold flat. simpl. rewrite lookup_insert. case_decide; subst.
    + simpl. rewrite Hi. case_decide; subst; [by rewrite lookup_partial_alter_eq|].
      rewrite lookup_partial_alter_ne by congruence. apply Hf.
    + rewrite lookup_partial_alter_ne by congruence. apply Hf.
  - intros s' inner'. simpl. rewrite lookup_insert. case_decide; naive_solver.
Qed.

Lemma register_flat r s t h :
  RegisterHandler r s t h =
  match flat r s t with
  | Some _ => (r, Fail (ErrHandlerExists s t))
  | None => ({| handlers := <[s := <[t := h]> (default ∅ (handlers r !! s))]> (handlers r) |}, Ret tt)
  end.
Proof.
  unfold RegisterHandler, flat. destruct (handlers r !! s) as [inner|] eqn:E; simpl.
  - rewrite E. simpl. destruct (inner !! t); [by destruct r|done].
  - rewrite lookup_insert_eq. simpl. rewrite lookup_empty. by rewrite insert_insert_eq.
Qed.

Lemma registry_step_refines r a op :
  represents r a ->
  represents (reg_step r op).1 (spec_step a op).1 /\ (reg_step r op).2 = (spec_step a op).2.
Proof.
  intros Hr. destruct op as [s t h|s t|s t|s t]; simpl.
  - rewrite register_flat, <- (rep_flat _ _ Hr). destruct (flat r s t) eqn:E; [done|]. simpl.
    split; [|done]. apply (represents_update r a s t _ (Some h) Hr).
    + apply insert_non_empty.
    + intros t'. rewrite lookup_insert. case_decide; [done|]. unfold flat.
      destruct (handlers r !! s); simpl; [done|apply lookup_empty].
  - split; [done|]. pose proof (represents_missing r a s t Hr) as Hm.
    rewrite <- (rep_flat _ _ Hr). unfold GetHandler. unfold flat in *.
    destruct (handlers r !! s) as [inner|]; simpl in *; [destruct (inner !! t); simpl in *|];
      rewrite ?Hm; done.
  - pose proof (represents_missing r a s t Hr) as Hm.
    rewrite <- (rep_flat _ _ Hr). unfold UnregisterHandler. 
    destruct (handlers r !! s) as [inner|] eqn:Hs; simpl in *.
    2: { unfold flat in *. rewrite Hs in *. simpl in *. by rewrite Hm. }
    assert (flat r s t = inner !! t) as Hft by (unfold flat; by rewrite Hs).
    rewrite Hft in *. destruct (inner !! t) as [h|] eqn:Ht; simpl in *; [|by rewrite Hm].
    case_decide as Hz; simpl; (split; [|done]).
    + apply map_size_empty_iff in Hz.
      assert (inner = {[t := h]}) as ->.
      { apply map_eq. intros t'. rewrite lookup_singleton. case_decide; [congruence|].
        by rewrite <- (lookup_delete_ne inner t t'), Hz, lookup_empty. }
      split.
      * intros s' t'. unfold flat. simpl. rewrite !lookup_delete. repeat case_decide; simplify_eq/=; try done.
        -- rewrite <- (rep_flat _ _ Hr). unfold flat. rewrite Hs. simpl.
           rewrite lookup_singleton_ne; [done|congruence].
        -- apply Hr.
      * intros s' inner. simpl. rewrite lookup_delete. case_decide; [done|apply Hr].
    + apply (represents_update r a s t _ None Hr).
      * intros He. apply Hz. by rewrite He.
      * intros t'. rewrite lookup_delete. case_decide; [done|]. unfold flat. by rewrite Hs.
  - split; [done|]. f_equal. rewrite <- (rep_flat _ _ Hr). unfold HasHandler, flat.
    by destruct (handlers r !! s).
Qed.

Lemma registry_exec_refines r a ops :
  represents r a -> represents (reg_exec r ops) (spec_exec a ops).
Proof.
  revert r a. induction ops as [|op ops IH]; intros r a Hr; [done|].
  apply IH, (registry_step_refines r a op Hr).
Qed.

Lemma registry_run_refines r a ops :
  represents r a -> reg_run r ops = spec_run a ops.
Proof.
  revert r a. induction ops as [|op ops IH]; intros r a Hr; [done|]. simpl.
  destruct (registry_step_refines r a op Hr) as [Hr' Ho].
  destruct (reg_step r op) as [r' o], (spec_step a op) as [a' o']; simpl in *.
  subst. f_equal. by apply IH.
Qed.

(** C2: over every sequence of calls from the empty registry, the two-level
    registry answers exactly as one flat map from pairs of a service and a
    message type would: the same handlers, the same successes and the same
    error on every failing branch. *)
Theorem registry_refines_flat_map (ops : list reg_op) :
  reg_run NewHandlerRegistry ops = spec_run ∅ ops.
Proof. apply registry_run_refines, represents_new. Qed.

(** After any sequence of calls, [ListHandlers] has an entry for exactly
    the services that have a handler, and the entry lists each message type
    handled for the service exactly once. *)
Theorem registry_list_handlers (order : gmap Z handler -> list (Z * handler)) ops s
    (Horder : forall m, map_order m (order m)) :
  match ListHandlers order (reg_exec NewHandlerRegistry ops) !! s with
  | Some l => NoDup l /\ l <> [] /\
              forall t, t ∈ l <-> is_Some (spec_exec ∅ ops !! (s, t))
  | None => ~ serves (spec_exec ∅ ops) s
  end.
Proof.
  pose proof (registry_exec_refines _ _ ops represents_new) as Hr.
  pose proof (represents_serves _ _ s Hr) as Hs. unfold ListHandlers.
  rewrite lookup_fmap. destruct (handlers _ !! s) as [inner|] eqn:E; simpl.
  - split_and!.
    + by eapply map_order_nodup.
    + intros He%fmap_nil_inv. apply (rep_nonempty _ _ Hr s inner E).
      apply map_to_list_empty_iff, Permutation_nil_r. rewrite <- (Horder inner), He. done.
    + intros t. rewrite <- (rep_flat _ _ Hr). unfold flat. rewrite E. simpl.
      rewrite list_elem_of_fmap. split.
      * intros ([t' h] & -> & Hin). exists h. by apply (map_order_elem inner (order inner)).
      * intros [h Hh]. exists (t, h). split; [done|].
        by apply (map_order_elem inner (order inner)).
  - rewrite Hs. by intros [? ?].
Qed.

End registry.

Arguments HandlerRegistry : clear implicits.
Arguments reg_op : clear implicits.

(** Two services, one of which loses its only handler again. *)
Definition sample_ops : list (reg_op Z) :=
  [OpRegister 1 10 7; OpRegister 1 11 8; OpRegister 2 20 9; OpUnregister 2 20]%Z.

Example registry_list_handlers_witness :
  exists l, ListHandlers map_to_list (reg_exec NewHandlerRegistry sample_ops) !! 1%Z = Some l /\
  NoDup l /\ l <> [] /\ forall t, t ∈ l <-> is_Some (spec_exec ∅ sample_ops !! (1%Z, t)).
Proof.
  pose proof (registry_list_handlers map_to_list sample_ops 1 map_order_default) as H.
  destruct (ListHandlers map_to_list (reg_exec NewHandlerRegistry sample_ops) !! 1%Z) as [l|] eqn:E.
  - exists l. split; [reflexivity|exact H].
  - vm_compute in E. discriminate E.
Defined.
