(* ===== verification/LoadBalancer.v ===== *)
(** * Service registry and load balancing of the RPC layer ([pkg/rpc/load_balancer.go])

    The in-memory registry keeps pointers to the instances its callers own, so
    the instances live in a heap and a deregistration, which writes the status
    of an instance in place, is seen through every pointer.  Watchers are
    channels of capacity one with the goroutine that unsubscribes and closes
    them.  The three selectors and the balancer that uses them follow. *)

From stdpp Require Import base gmap strings list fin_maps numbers relations.
From Stdlib Require Import ZArith Lia.
From S2P Require Import Prelude Selection.

Local Open Scope Z_scope.

Record ServiceInstance := MkInstance {
  ID : string;
  Name : string;
  Endpoint : string;
  Tags : gmap string string;
  Weight : Z;
  Status : string
}.

Definition set_status (i : ServiceInstance) (s : string) : ServiceInstance :=
  MkInstance (ID i) (Name i) (Endpoint i) (Tags i) (Weight i) s.

Inductive LbError :=
  | ErrInstanceNotFound (instanceID : string)
  | ErrNoInstancesFound (serviceName : string)
  | ErrNoInstancesAvailable.

#[export] Instance LbError_eq_dec : EqDecision LbError.
Proof. solve_decision. Defined.

(** ** The registry *)

(** Addresses of instances and of channels. *)
Abbreviation ptr := nat.
Abbreviation chan := nat.

Abbreviation heap := (gmap ptr ServiceInstance).

(** A channel of instance lists made with capacity 1: what it buffers, and
    whether it is closed.  A list is recorded as it is when it is sent. *)
Record Chan := MkChan { buffered : list (list ptr); closed : bool }.

(** [objects] is the heap of the instances, [goroutines] the goroutines started
    by [WatchService] that still wait for their context, by channel. *)
Record InMemoryRegistry := MkRegistry {
  objects : heap;
  services : gmap string (list ptr);
  watches : gmap string (list chan);
  chans : gmap chan Chan;
  goroutines : gmap chan string
}.

Definition NewInMemoryRegistry : InMemoryRegistry :=
  {| objects := ∅; services := ∅; watches := ∅; chans := ∅; goroutines := ∅ |}.

Definition no_instance : ServiceInstance := MkInstance "" "" "" ∅ 0 "".

(** [*p]: the registry only stores pointers that [Register] has dereferenced. *)
Definition deref (h : heap) (p : ptr) : ServiceInstance := default no_instance (h !! p).

Definition is_down (h : heap) (p : ptr) : bool := bool_decide (Status (deref h p) = "down"%string).

(** The loop that keeps the instances whose status is not "down". *)
Fixpoint active (h : heap) (instances : list ptr) : list ptr :=
  match instances with
  | [] => []
  | inst :: rest =>
      if negb (is_down h inst) then inst :: active h rest else active h rest
  end.

(** The non-blocking send of [notifyWatchers]; a send on a closed channel
    panics. *)
Definition try_send (cs : gmap chan Chan) (c : chan) (instances : list ptr) :
    outcome LbError (gmap chan Chan) :=
  match cs !! c with
  | None => Ret cs
  | Some ch =>
      if closed ch then Panic
      else if decide (length (buffered ch) < 1)%nat
      then Ret (<[c := MkChan (buffered ch ++ [instances]) false]> cs)
      else Ret cs
  end.

Fixpoint send_all (cs : gmap chan Chan) (ws : list chan) (instances : list ptr) :
    outcome LbError (gmap chan Chan) :=
  match ws with
  | [] => Ret cs
  | c :: ws => cs' ← try_send cs c instances; send_all cs' ws instances
  end.

Definition notifyWatchers (r : InMemoryRegistry) (serviceName : string) (instances : list ptr) :
    outcome LbError InMemoryRegistry :=
  match watches r !! serviceName with
  | None => Ret r
  | Some ws =>
      cs ← send_all (chans r) ws instances;
      Ret {| objects := objects r; services := services r; watches := watches r;
             chans := cs; goroutines := goroutines r |}
  end.

Definition set_service (r : InMemoryRegistry) (name : string) (l : list ptr) : InMemoryRegistry :=
  {| objects := objects r; services := <[name := l]> (services r); watches := watches r;
     chans := chans r; goroutines := goroutines r |}.

Definition set_object (r : InMemoryRegistry) (p : ptr) (i : ServiceInstance) : InMemoryRegistry :=
  {| objects := <[p := i]> (objects r); services := services r; watches := watches r;
     chans := chans r; goroutines := goroutines r |}.

(** The index of the first instance with the given ID. *)
Fixpoint find_id (h : heap) (id : string) (instances : list ptr) : option nat :=
  match instances with
  | [] => None
  | inst :: rest =>
      if bool_decide (ID (deref h inst) = id) then Some O else S <$> find_id h id rest
  end.

Definition Register (r : InMemoryRegistry) (p : ptr) : outcome LbError InMemoryRegistry :=
  match objects r !! p with
  | None => Panic
  | Some instance =>
      let name := Name instance in
      match services r !! name with
      | None => notifyWatchers (set_service r name [p]) name [p]
      | Some instances =>
          match find_id (objects r) (ID instance) instances with
          | Some i =>
              let instances := <[i := p]> instances in
              notifyWatchers (set_service r name instances) name instances
          | None =>
              let instances := instances ++ [p] in
              notifyWatchers (set_service r name instances) name instances
          end
      end
  end.

(** [order] is the order in which the range over [r.services] visits it. *)
Fixpoint Deregister (r : InMemoryRegistry) (order : list (string * list ptr))
    (instanceID : string) : outcome LbError InMemoryRegistry :=
  match order with
  | [] => Fail (ErrInstanceNotFound instanceID)
  | (svcName, instances) :: order =>
      match find_id (objects r) instanceID instances with
      | None => Deregister r order instanceID
      | Some i =>
          let l := default [] (services r !! svcName) in
          match l !! i with
          | None => Panic
          | Some p =>
              let r := set_object r p (set_status (deref (objects r) p) "down") in
              notifyWatchers r svcName l
          end
      end
  end.

Definition GetInstances (r : InMemoryRegistry) (serviceName : string) : list ptr :=
  match services r !! serviceName with
  | None => []
  | Some instances => active (objects r) instances
  end.

(** One tick of the cleanup loop. *)
Fixpoint cleanup (r : InMemoryRegistry) (order : list (string * list ptr)) :
    outcome LbError InMemoryRegistry :=
  match order with
  | [] => Ret r
  | (name, instances) :: order =>
      let act := active (objects r) instances in
      let changed := existsb (is_down (objects r)) instances in
      r' ← (if changed then notifyWatchers (set_service r name act) name act else Ret r);
      cleanup r' order
  end.

(** The call returns the channel; its goroutine is left behind. *)
Definition WatchService (r : InMemoryRegistry) (serviceName : string) : InMemoryRegistry * chan :=
  let ch := fresh (dom (chans r)) in
  let ws := match watches r !! serviceName with
            | None => [ch]
            | Some ws => ws ++ [ch]
            end in
  let first := match services r !! serviceName with
               | Some instances => active (objects r) instances
               | None => []
               end in
  ({| objects := objects r; services := services r;
      watches := <[serviceName := ws]> (watches r);
      chans := <[ch := MkChan [first] false]> (chans r);
      goroutines := <[ch := serviceName]> (goroutines r) |}, ch).

(** The first occurrence of [c] is taken out. *)
Fixpoint remove_chan (c : chan) (ws : list chan) : list chan :=
  match ws with
  | [] => []
  | w :: ws => if bool_decide (w = c) then ws else w :: remove_chan c ws
  end.

(** The body of the goroutine of [ch] once its context is done. *)
Definition watch_done (r : InMemoryRegistry) (serviceName : string) (ch : chan) :
    outcome LbError InMemoryRegistry :=
  let ws' := match watches r !! serviceName with
             | None => watches r
             | Some ws =>
                 let ws := remove_chan ch ws in
                 if decide (length ws = 0%nat) then delete serviceName (watches r)
                 else <[serviceName := ws]> (watches r)
             end in
  match chans r !! ch with
  | None => Panic
  | Some c =>
      if closed c then Panic
      else Ret {| objects := objects r; services := services r; watches := ws';
                  chans := <[ch := MkChan (buffered c) true]> (chans r);
                  goroutines := delete ch (goroutines r) |}
  end.

(** The watcher takes what its channel holds. *)
Definition receive (r : InMemoryRegistry) (ch : chan) : InMemoryRegistry :=
  match chans r !! ch with
  | Some (MkChan (_ :: rest) b) =>
      {| objects := objects r; services := services r; watches := watches r;
         chans := <[ch := MkChan rest b]> (chans r); goroutines := goroutines r |}
  | _ => r
  end.

(** Everything that happens to a registry: its callers make instances, call it,
    cancel contexts and receive; the ticker fires. *)
Inductive lb_event : InMemoryRegistry -> outcome LbError InMemoryRegistry -> Prop :=
  | ev_new r p i : objects r !! p = None -> lb_event r (Ret (set_object r p i))
  | ev_register r p i : objects r !! p = Some i -> lb_event r (Register r p)
  | ev_deregister r order id :
      map_order (services r) order -> lb_event r (Deregister r order id)
  | ev_cleanup r order : map_order (services r) order -> lb_event r (cleanup r order)
  | ev_watch r name : lb_event r (Ret (WatchService r name).1)
  | ev_done r ch name : goroutines r !! ch = Some name -> lb_event r (watch_done r name ch)
  | ev_receive r ch : lb_event r (Ret (receive r ch)).

Definition lb_step (r r' : InMemoryRegistry) : Prop := lb_event r (Ret r').

Definition lb_reachable (r : InMemoryRegistry) : Prop := rtc lb_step NewInMemoryRegistry r.

(** ** Selectors *)

(** [intn n] stands for the number [math/rand] gives for [rand.Intn(n)], which
    panics unless [n] is positive and is documented to lie below [n]. *)
Definition intn_in_range (intn : Z -> Z) : Prop := forall n, 0 < n -> 0 <= intn n < n.

Definition Intn (intn : Z -> Z) (n : Z) : outcome LbError Z :=
  panic_unless (0 <? n);; Ret (intn n).

(** The interface of a selector: [Select] may change the selector.  A selector
    that is [sel_ready] for a list chooses from it, unless it is empty. *)
Class InstanceSelector (S : Type) := {
  Select : (Z -> Z) -> heap -> S -> list ptr -> S * outcome LbError ptr;
  sel_ready : heap -> S -> list ptr -> Prop;
  select_empty intn h s : Select intn h s [] = (s, Fail ErrNoInstancesAvailable);
  select_chooses intn h s l :
    intn_in_range intn -> sel_ready h s l -> l <> [] ->
    exists s' p, Select intn h s l = (s', Ret p) /\ p ∈ l
}.

Inductive RandomSelector := MkRandomSelector.

Definition random_Select (intn : Z -> Z) (s : RandomSelector) (instances : list ptr) :
    RandomSelector * outcome LbError ptr :=
  if decide (length instances = 0%nat) then (s, Fail ErrNoInstancesAvailable)
  else (s, idx ← Intn intn (llen instances); index instances idx).

Record RoundRobinSelector := MkRoundRobin { nextIdx : Z }.

(** [%] is the remainder of the truncated division and [nextIdx] an [int]. *)
Definition roundrobin_Select (s : RoundRobinSelector) (instances : list ptr) :
    RoundRobinSelector * outcome LbError ptr :=
  if decide (length instances = 0%nat) then (s, Fail ErrNoInstancesAvailable)
  else
    let idx := Z.rem (nextIdx s) (llen instances) in
    ({| nextIdx := int64 (nextIdx s + 1) |}, index instances idx).

Inductive WeightedSelector := MkWeightedSelector.

(** A weight that is not positive counts as 1. *)
Definition weight_of (h : heap) (p : ptr) : Z :=
  if Weight (deref h p) <=? 0 then 1 else Weight (deref h p).

Definition weighted_Select (intn : Z -> Z) (h : heap) (s : WeightedSelector) (instances : list ptr) :
    WeightedSelector * outcome LbError ptr :=
  if decide (length instances = 0%nat) then (s, Fail ErrNoInstancesAvailable)
  else
    let totalWeight := total (weight_of h) instances in
    (s, target ← Intn intn totalWeight;
        match scan (weight_of h) target 0 instances with
        | Some inst => Ret inst
        | None => index instances 0
        end).

(** ** The balancer *)

(** The interface of a service registry: the instances it lists are live
    instances of the service. *)
Class ServiceRegistry (R : Type) := {
  reg_GetInstances : R -> string -> outcome LbError (list ptr);
  reg_heap : R -> heap;
  reg_valid : R -> Prop;
  reg_live r name l p :
    reg_valid r -> reg_GetInstances r name = Ret l -> p ∈ l ->
    exists i, reg_heap r !! p = Some i /\ Name i = name /\ Status i <> "down"%string
}.

(** What [InstanceSelector] values the balancer holds. *)
Inductive Selector :=
  | SelRandom (s : RandomSelector)
  | SelRoundRobin (s : RoundRobinSelector)
  | SelWeighted (s : WeightedSelector).

(** Selectors are pointers, which two services may share. *)
Record LoadBalancer := MkLoadBalancer {
  selectors : gmap string nat;
  selector_at : gmap nat Selector
}.

Definition NewLoadBalancer : LoadBalancer := {| selectors := ∅; selector_at := ∅ |}.

Definition SetSelector (lb : LoadBalancer) (serviceName : string) (selector : nat) : LoadBalancer :=
  {| selectors := <[serviceName := selector]> (selectors lb); selector_at := selector_at lb |}.

(** ** Invariants *)

(** The lists of a registry hold allocated instances of their service, with
    pairwise different IDs. *)
Record service_inv (h : heap) (name : string) (l : list ptr) : Prop := {
  sv_alloc p : p ∈ l -> exists i, h !! p = Some i /\ Name i = name;
  sv_ids : NoDup ((fun p => ID (deref h p)) <$> l)
}.

(** A channel is subscribed exactly while its goroutine runs, and is open then. *)
Record watch_inv (ws : gmap string (list chan)) (cs : gmap chan Chan) (gs : gmap chan string) : Prop := {
  wi_subscribed name c : (exists l, ws !! name = Some l /\ c ∈ l) <-> gs !! c = Some name;
  wi_nodup name l : ws !! name = Some l -> NoDup l;
  wi_open c : is_Some (gs !! c) -> closed <$> cs !! c = Some false;
  wi_buffer c ch : cs !! c = Some ch -> (length (buffered ch) <= 1)%nat
}.

Record lb_inv (r : InMemoryRegistry) : Prop := {
  li_services name l : services r !! name = Some l -> service_inv (objects r) name l;
  li_watches : watch_inv (watches r) (chans r) (goroutines r)
}.

Definition set_chans (r : InMemoryRegistry) (cs : gmap chan Chan) : InMemoryRegistry :=
  {| objects := objects r; services := services r; watches := watches r;
     chans := cs; goroutines := goroutines r |}.

(** *** Notification *)

Lemma try_send_open cs c l :
  closed <$> cs !! c = Some false ->
  exists ch, cs !! c = Some ch /\ try_send cs c l =
    if decide (length (buffered ch) < 1)%nat
    then Ret (<[c := MkChan (buffered ch ++ [l]) false]> cs) else Ret cs.
Proof.
  intros (ch & Hf & Hc)%fmap_Some. exists ch. split; [done|]. unfold try_send.
  by rewrite Hf, <- Hc.
Qed.

Lemma send_all_open ws cs l :
  (forall c, c ∈ ws -> closed <$> cs !! c = Some false) ->
  (forall c ch, cs !! c = Some ch -> (length (buffered ch) <= 1)%nat) ->
  exists cs', send_all cs ws l = Ret cs' /\
    (forall c, closed <$> cs' !! c = closed <$> cs !! c) /\
    (forall c ch, cs' !! c = Some ch -> (length (buffered ch) <= 1)%nat).
Proof.
  revert cs. induction ws as [|w ws IH]; intros cs Hopen Hbuf; [by exists cs|]. simpl.
  destruct (try_send_open cs w l) as (ch & Hch & ->); [apply Hopen; set_solver|].
  assert (closed ch = false) as Hcl.
  { specialize (Hopen w). rewrite Hch in Hopen. injection Hopen; [done|set_solver]. }
  case_decide as Hlen; simpl; [|apply IH; [set_solver|done]].
  assert (forall c, closed <$> <[w := MkChan (buffered ch ++ [l]) false]> cs !! c
                    = closed <$> cs !! c) as Hsame.
  { intros c. rewrite lookup_insert. case_decide; subst; [|done]. rewrite Hch. simpl. congruence. }
  edestruct (IH (<[w := MkChan (buffered ch ++ [l]) false]> cs)) as (cs' & -> & Hc & Hb).
  - intros c Hc. rewrite Hsame. apply Hopen. set_solver.
  - intros c ch'. rewrite lookup_insert. case_decide; [|apply Hbuf].
    intros [= <-]. simpl. len.
  - exists cs'. split; [done|]. split; [|done]. intros c. by rewrite Hc, Hsame.
Qed.

Lemma notify_inv r name l :
  watch_inv (watches r) (chans r) (goroutines r) ->
  exists cs, notifyWatchers r name l = Ret (set_chans r cs) /\
             watch_inv (watches r) cs (goroutines r).
Proof.
  intros Hw. unfold notifyWatchers. destruct (watches r !! name) as [ws|] eqn:Hn.
  2: { exists (chans r). split; [by destruct r|done]. }
  destruct (send_all_open ws (chans r) l) as (cs & -> & Hc & Hb).
  - intros c Hin. apply Hw. exists name. apply Hw. eauto.
  - apply Hw.
  - exists cs. split; [done|]. destruct Hw. split; try done. intros c. rewrite Hc. auto.
Qed.

Lemma notify_lb_inv r name l :
  lb_inv r -> exists cs, notifyWatchers r name l = Ret (set_chans r cs) /\ lb_inv (set_chans r cs).
Proof.
  intros [Hs Hw]. destruct (notify_inv r name l Hw) as (cs & -> & Hcs). exists cs. by split.
Qed.

(** *** Registration *)

Lemma deref_alloc (h : heap) p i : h !! p = Some i -> deref h p = i.
Proof. unfold deref. by intros ->. Qed.

Lemma find_id_spec h id l :
  match find_id h id l with
  | Some k => exists p, l !! k = Some p /\ ID (deref h p) = id /\
                        forall j q, (j < k)%nat -> l !! j = Some q -> ID (deref h q) <> id
  | None => forall p, p ∈ l -> ID (deref h p) <> id
  end.
Proof.
  induction l as [|q l IH]; simpl; [set_solver|].
  case_bool_decide as Hq; [by exists q; split_and!; [..|lia]|].
  destruct (find_id h id l) as [k|]; simpl.
  - destruct IH as (p & Hp & Hid & Hj). exists p. split_and!; [done..|].
    intros [|j] q' Hlt; simpl; [naive_solver|]. apply Hj. lia.
  - intros p [->|Hp]%elem_of_cons; auto.
Qed.

(** The list [Register] stores for an instance of a service. *)
Definition registered (r : InMemoryRegistry) (p : ptr) : list ptr :=
  let i := deref (objects r) p in
  let l := default [] (services r !! Name i) in
  match find_id (objects r) (ID i) l with Some k => <[k := p]> l | None => l ++ [p] end.

Lemma register_store r p i :
  objects r !! p = Some i ->
  Register r p = notifyWatchers (set_service r (Name i) (registered r p)) (Name i) (registered r p).
Proof.
  intros Hp. unfold Register, registered, deref. rewrite Hp. simpl.
  destruct (services r !! Name i); simpl; [|done]. by destruct find_id.
Qed.

Lemma registered_inv r p i :
  lb_inv r -> objects r !! p = Some i -> service_inv (objects r) (Name i) (registered r p).
Proof.
  intros Hr Hp. unfold registered, deref. rewrite Hp. simpl.
  set (l := default [] (services r !! Name i)).
  assert (service_inv (objects r) (Name i) l) as [Ha Hi].
  { unfold l. destruct (services r !! Name i) eqn:E; [by apply Hr|].
    split; simpl; [set_solver|constructor]. }
  pose proof (find_id_spec (objects r) (ID i) l) as Hf.
  destruct (find_id _ _ _) as [k|].
  - destruct Hf as (q & Hq & Hid & _). split.
    + intros p' [? | ?]%elem_of_insert_inv; naive_solver.
    + rewrite list_fmap_insert. unfold deref at 1. rewrite Hp. simpl.
      rewrite list_insert_id; [done|]. rewrite list_lookup_fmap, Hq. simpl. congruence.
  - split.
    + intros p' [? | ->%list_elem_of_singleton]%elem_of_app; naive_solver.
    + rewrite fmap_app. apply NoDup_app. split_and!; [done| |apply NoDup_singleton].
      simpl. intros x (q & -> & Hq)%list_elem_of_fmap He%list_elem_of_singleton.
      apply (Hf q Hq). rewrite He. unfold deref. by rewrite Hp.
Qed.

Lemma set_service_inv r name l :
  lb_inv r -> service_inv (objects r) name l -> lb_inv (set_service r name l).
Proof.
  intros [Hs Hw] Hl. split; [|done]. intros name' l'. simpl. rewrite lookup_insert.
  case_decide; naive_solver.
Qed.

(** *** Writing an instance *)

Lemma deref_insert h p i q : deref (<[p := i]> h) q = if decide (p = q) then i else deref h q.
Proof. unfold deref. rewrite lookup_insert. by case_decide. Qed.

(** An object may be made, or changed in other fields than its ID and name. *)
Definition same_identity (h : heap) (p : ptr) (i : ServiceInstance) : Prop :=
  forall j, h !! p = Some j -> ID i = ID j /\ Name i = Name j.

Lemma service_inv_object h p i name l :
  same_identity h p i -> service_inv h name l -> service_inv (<[p := i]> h) name l.
Proof.
  intros Hi [Ha Hn]. split.
  - intros q Hq. destruct (Ha q Hq) as (j & Hj & <-). destruct (decide (p = q)) as [->|Hne].
    + exists i. rewrite lookup_insert_eq. split; [done|]. apply (Hi j Hj).
    + exists j. by rewrite lookup_insert_ne.
  - assert (((fun q => ID (deref (<[p := i]> h) q)) <$> l) = ((fun q => ID (deref h q)) <$> l)) as ->;
      [|done].
    apply list_fmap_ext. intros k q Hq%list_elem_of_lookup_2. rewrite deref_insert.
    case_decide; subst; [|done]. destruct (Ha q Hq) as (j & Hj & _).
    unfold deref. rewrite Hj. simpl. apply (Hi j Hj).
Qed.

Lemma set_object_inv r p i : lb_inv r -> same_identity (objects r) p i -> lb_inv (set_object r p i).
Proof. intros [Hs Hw] Hi. split; [|done]. intros. by apply service_inv_object; [|apply Hs]. Qed.

Definition mark_down (r : InMemoryRegistry) (p : ptr) : InMemoryRegistry :=
  set_object r p (set_status (deref (objects r) p) "down").

Lemma mark_down_inv r p : lb_inv r -> lb_inv (mark_down r p).
Proof.
  intros Hr. apply set_object_inv; [done|]. intros j Hj. unfold deref. by rewrite Hj.
Qed.

(** Some instance of the registry has the ID. *)
Definition holds (r : InMemoryRegistry) (name id : string) (p : ptr) : Prop :=
  exists l, services r !! name = Some l /\ p ∈ l /\ ID (deref (objects r) p) = id.

Lemma deregister_cases r order id :
  lb_inv r -> (forall n l, (n, l) ∈ order -> services r !! n = Some l) ->
  match Deregister r order id with
  | Ret r' => exists name p cs, holds r name id p /\ r' = set_chans (mark_down r p) cs /\ lb_inv r'
  | Fail e => e = ErrInstanceNotFound id /\
              forall n l p, (n, l) ∈ order -> p ∈ l -> ID (deref (objects r) p) <> id
  | Panic => False
  end.
Proof.
  intros Hr. induction order as [|[n l] order IH]; intros Ho; simpl; [split; [done|set_solver]|].
  pose proof (find_id_spec (objects r) id l) as Hf. destruct (find_id _ _ _) as [k|].
  - destruct Hf as (p & Hp & Hid & _).
    assert (services r !! n = Some l) as Hn by (apply Ho; set_solver).
    rewrite Hn. simpl. rewrite Hp.
    destruct (notify_lb_inv (mark_down r p) n l) as (cs & Heq & Hi); [by apply mark_down_inv|].
    unfold mark_down in *. rewrite Heq. exists n, p, cs. split_and!; [|done..].
    exists l. split_and!; [done| |done]. by eapply list_elem_of_lookup_2.
  - assert (forall n' l', (n', l') ∈ order -> services r !! n' = Some l') as Ho'
      by (intros; apply Ho; set_solver).
    specialize (IH Ho'). destruct (Deregister r order id) as [r'|e|]; [done| |done].
    destruct IH as [-> IH]. split; [done|].
    intros n' l' p [[= -> ->]|Hin]%elem_of_cons; [apply Hf|by eapply IH].
Qed.

(** *** Cleanup *)

Lemma elem_of_active h l p : p ∈ active h l <-> p ∈ l /\ is_down h p = false.
Proof.
  induction l as [|q l IH]; simpl; [set_solver|].
  destruct (is_down h q) eqn:E; simpl; rewrite !elem_of_cons, ?IH; intuition congruence.
Qed.

Lemma active_sublist h l : active h l `sublist_of` l.
Proof. induction l as [|q l IH]; simpl; [done|]. by destruct (is_down h q); constructor. Qed.

Lemma active_unchanged h l : existsb (is_down h) l = false -> active h l = l.
Proof.
  induction l as [|q l IH]; simpl; [done|].
  intros [-> H]%orb_false_iff. simpl. by rewrite IH.
Qed.

Lemma active_idemp h l : active h (active h l) = active h l.
Proof.
  induction l as [|q l IH]; simpl; [done|].
  destruct (is_down h q) eqn:E; simpl; [done|]. by rewrite E, IH.
Qed.

Lemma service_inv_active h name l : service_inv h name l -> service_inv h name (active h l).
Proof.
  intros [Ha Hn]. split.
  - intros p [Hp _]%elem_of_active. auto.
  - eapply sublist_NoDup; [apply Hn|]. apply fmap_sublist, active_sublist.
Qed.

Lemma cleanup_spec r order :
  lb_inv r -> (forall n l, (n, l) ∈ order -> services r !! n = Some l) -> NoDup order.*1 ->
  exists r', cleanup r order = Ret r' /\ lb_inv r' /\ objects r' = objects r /\
    forall n, services r' !! n
              = (if decide (n ∈ order.*1) then active (objects r) else id) <$> services r !! n.
Proof.
  revert r. induction order as [|[n l] order IH]; intros r Hr Ho Hd.
  { exists r. split_and!; try done. intros n. by rewrite option_fmap_id. }
  rewrite fmap_cons, NoDup_cons in Hd. destruct Hd as [Hn Hd]. cbn [fst] in Hn.
  assert (services r !! n = Some l) as Hl by (apply Ho; set_solver).
  assert (exists r1, (if existsb (is_down (objects r)) l
       then notifyWatchers (set_service r n (active (objects r) l)) n (active (objects r) l)
       else Ret r) = Ret r1 /\ lb_inv r1 /\ objects r1 = objects r /\
       services r1 = <[n := active (objects r) l]> (services r)) as (r1 & Hr1 & Hi & Hob & Hs).
  { destruct (existsb _ l) eqn:E.
    - destruct (notify_lb_inv (set_service r n (active (objects r) l)) n (active (objects r) l))
        as (cs & -> & Hcs); [|by exists (set_chans (set_service r n (active (objects r) l)) cs)].
      apply set_service_inv; [done|]. by apply service_inv_active, Hr.
    - exists r. rewrite (active_unchanged _ _ E), insert_id; done. }
  cbn [cleanup]. rewrite Hr1. gosimpl. destruct (IH r1) as (r' & Hc & Hi' & Hob' & Hs'); [done| |done|].
  { intros n' l' Hin. rewrite Hs, lookup_insert_ne; [apply Ho; set_solver|].
    intros ->. apply Hn, list_elem_of_fmap. by exists (n', l'). }
  exists r'. split_and!; [done..|congruence|]. intros n'.
  rewrite Hs', Hs, Hob, lookup_insert, fmap_cons. cbn [fst].
  destruct (decide (n = n')) as [->|Hne].
  - rewrite decide_False, decide_True, Hl by (done || apply list_elem_of_here). done.
  - destruct (decide (n' ∈ order.*1)) as [Hin|Hin].
    + rewrite decide_True by (by apply list_elem_of_further). done.
    + rewrite decide_False; [done|]. by intros [->|?]%elem_of_cons.
Qed.

(** There is nothing to clean up in a registry without services. *)
Lemma no_services_cleanup r order r' :
  services r = ∅ -> map_order (services r) order -> cleanup r order = Ret r' -> services r' = ∅.
Proof.
  intros Hs Ho. destruct order as [|[n l] order]; [by intros [= <-]|].
  assert (services r !! n = Some l) as H by (eapply map_order_elem; [exact Ho|apply list_elem_of_here]). by rewrite Hs in H.
Qed.

(** *** Watchers *)

Lemma watch_service_inv r name : lb_inv r -> lb_inv (WatchService r name).1.
Proof.
  intros [Hs [Hsub Hnd Hop Hbuf]]. split; [done|]. simpl.
  set (ch := fresh (dom (chans r))).
  assert (chans r !! ch = None) as Hc by apply not_elem_of_dom, is_fresh.
  assert (goroutines r !! ch = None) as Hg.
  { apply eq_None_not_Some. intros H%Hop. by rewrite Hc in H. }
  assert (forall n l, watches r !! n = Some l -> ch ∉ l) as Hnew.
  { intros n l Hl Hin. assert (goroutines r !! ch = Some n) by (apply Hsub; eauto). congruence. }
  set (ws := match watches r !! name with Some ws => ws ++ [ch] | None => [ch] end).
  assert (forall c, c ∈ ws <-> c = ch \/ goroutines r !! c = Some name) as Hws.
  { intros c. rewrite <- Hsub. unfold ws. destruct (watches r !! name) as [l|]; set_solver. }
  split.
  - intros n c. rewrite !lookup_insert. repeat case_decide; subst.
    + split; [done|]. intros _. exists ws. rewrite Hws. auto.
    + rewrite <- (Hsub n c). split; [|naive_solver].
      intros (l & [= <-] & [->|?]%Hws); [done|]. by apply Hsub.
    + split; [|naive_solver]. intros (l & Hl & Hin). by destruct (Hnew n l).
    + apply Hsub.
  - intros n l. rewrite lookup_insert. case_decide; [|apply Hnd]. intros [= <-]. subst. unfold ws.
    destruct (watches r !! n) as [l|] eqn:El; [|apply NoDup_singleton].
    apply NoDup_app. split_and!; [by eapply Hnd| |apply NoDup_singleton].
    intros c Hin ->%list_elem_of_singleton. by apply (Hnew n l).
  - intros c. rewrite !lookup_insert. case_decide; [done|apply Hop].
  - intros c ch'. rewrite lookup_insert. case_decide; [|apply Hbuf]. by intros [= <-].
Qed.

Lemma remove_chan_spec c ws :
  NoDup ws -> NoDup (remove_chan c ws) /\ forall x, x ∈ remove_chan c ws <-> x ∈ ws /\ x <> c.
Proof.
  induction ws as [|w ws IH]; simpl; intros Hd; [set_solver|].
  apply NoDup_cons in Hd as [Hw Hd]. case_bool_decide; subst; [set_solver|].
  destruct (IH Hd) as [Hn He]. split; [|set_solver]. apply NoDup_cons. set_solver.
Qed.

Lemma watch_done_inv r name ch :
  lb_inv r -> goroutines r !! ch = Some name ->
  exists r', watch_done r name ch = Ret r' /\ lb_inv r'.
Proof.
  intros [Hs [Hsub Hnd Hop Hbuf]] Hg. unfold watch_done.
  destruct (Hsub name ch) as [_ (l & Hl & Hin)]; [done|]. rewrite Hl.
  destruct (chans r !! ch) as [c|] eqn:Ec; [|specialize (Hop ch); rewrite Ec in Hop; naive_solver].
  assert (closed c = false) as ->
    by (specialize (Hop ch); rewrite Ec in Hop; simpl in Hop; naive_solver).
  eexists. split; [done|]. split; [done|]. simpl.
  destruct (remove_chan_spec ch l) as [Hd He]; [by eapply Hnd|].
  set (ws := if decide _ then _ else _).
  assert (forall n l', ws !! n = Some l' ->
            if decide (name = n) then l' = remove_chan ch l else watches r !! n = Some l') as Hws.
  { intros n l'. unfold ws. case_decide; rewrite ?lookup_delete, ?lookup_insert; case_decide; naive_solver. }
  assert (forall n c', (exists l', ws !! n = Some l' /\ c' ∈ l') <->
            exists l', watches r !! n = Some l' /\ c' ∈ l' /\ c' <> ch) as Hmem.
  { intros n c'. destruct (decide (name = n)) as [<-|Hne].
    - transitivity (c' ∈ remove_chan ch l); [|rewrite He; naive_solver]. unfold ws.
      case_decide as Hz; rewrite ?lookup_delete_eq, ?lookup_insert_eq; [|naive_solver].
      apply nil_length_inv in Hz. rewrite Hz. set_solver.
    - assert (ws !! n = watches r !! n) as ->.
      { unfold ws. case_decide; [by rewrite lookup_delete_ne|by rewrite lookup_insert_ne]. }
      split; [|naive_solver]. intros (l' & Hl' & Hc'). exists l'. split_and!; [done..|].
      intros ->. assert (goroutines r !! ch = Some n) by (apply Hsub; eauto). congruence. }
  split.
  - intros n c'. rewrite Hmem, lookup_delete. case_decide; [naive_solver|].
    rewrite <- Hsub. naive_solver.
  - intros n l' Hl'%Hws. case_decide; [by subst|by eapply Hnd].
  - intros c'. rewrite lookup_delete, lookup_insert. case_decide; [by intros [? ?]|apply Hop].
  - intros c' x. rewrite lookup_insert. case_decide; [|apply Hbuf]. intros [= <-]. exact (Hbuf ch c Ec).
Qed.

Lemma receive_inv r ch : lb_inv r -> lb_inv (receive r ch).
Proof.
  intros [Hs [Hsub Hnd Hop Hbuf]]. unfold receive.
  destruct (chans r !! ch) as [[[|m rest] b]|] eqn:Ec; try by split.
  split; [done|]. split; try done; simpl.
  - intros c H%Hop. rewrite lookup_insert. case_decide; subst; [|done]. by rewrite Ec in H.
  - intros c x. rewrite lookup_insert. case_decide; [|apply Hbuf]. intros [= <-]. simpl.
    specialize (Hbuf ch _ Ec). simpl in Hbuf. lia.
Qed.

(** *** Reachable registries *)

Lemma register_inv r p i :
  lb_inv r -> objects r !! p = Some i ->
  exists cs, Register r p = Ret (set_chans (set_service r (Name i) (registered r p)) cs) /\
             lb_inv (set_chans (set_service r (Name i) (registered r p)) cs).
Proof.
  intros Hr Hp. rewrite (register_store r p i Hp).
  apply notify_lb_inv, set_service_inv; [done|]. by apply registered_inv.
Qed.

Lemma lb_event_inv r o :
  lb_event r o -> lb_inv r -> match o with Ret r' => lb_inv r' | Fail _ => True | Panic => False end.
Proof.
  intros Hev Hr. destruct Hev as [r p i Hp|r p i Hp|r order id Ho|r order Ho|r name|r ch name Hg|r ch].
  - apply set_object_inv; [done|]. intros j. by rewrite Hp.
  - by destruct (register_inv r p i) as (cs & -> & ?).
  - assert (forall n l, (n, l) ∈ order -> services r !! n = Some l) as Hel
      by (intros n l; by apply map_order_elem).
    pose proof (deregister_cases r order id Hr Hel) as H.
    destruct (Deregister r order id); [|done..]. by destruct H as (? & ? & ? & _ & _ & ?).
  - destruct (cleanup_spec r order) as (r' & -> & ? & _); [done| |by eapply map_order_nodup|done].
    intros n l. by apply map_order_elem.
  - by apply watch_service_inv.
  - by destruct (watch_done_inv r name ch) as (r' & -> & ?).
  - by apply receive_inv.
Qed.

Lemma lb_reachable_inv r : lb_reachable r -> lb_inv r.
Proof.
  revert r. apply (rtc_ind_r lb_inv).
  - split; [done|]. split; simpl; intros *; rewrite ?lookup_empty; try done.
    split; [by intros (l & [=] & _)|done].
  - intros r r' _ Hs. by apply (lb_event_inv r (Ret r')).
Qed.

(** *** What the operations do *)

Lemma elem_of_registered r p i q :
  lb_inv r -> objects r !! p = Some i ->
  q ∈ registered r p <->
  q = p \/ (exists l, services r !! Name i = Some l /\ q ∈ l /\ ID (deref (objects r) q) <> ID i).
Proof.
  intros Hr Hp. unfold registered. rewrite (deref_alloc _ _ _ Hp).
  destruct (services r !! Name i) as [l|] eqn:El; simpl.
  2: { rewrite (list_elem_of_singleton q p). naive_solver. }
  assert (NoDup ((fun p => ID (deref (objects r) p)) <$> l)) as Hd by (eapply (li_services r Hr), El).
  pose proof (find_id_spec (objects r) (ID i) l) as Hf. destruct (find_id _ _ _) as [k|].
  - destruct Hf as (p0 & Hk & Hid & _).
    assert (k < length l)%nat by (by eapply lookup_lt_Some). split.
    + intros [j Hj]%list_elem_of_lookup. destruct (decide (k = j)) as [->|Hne].
      * left. rewrite list_lookup_insert_eq in Hj by done. congruence.
      * rewrite list_lookup_insert_ne in Hj by done. right. exists l.
        split_and!; [done|by eapply list_elem_of_lookup_2|]. intros He. apply Hne.
        eapply NoDup_key_lookup; [apply Hd|apply Hk|apply Hj|]. simpl. congruence.
    + intros [->|(l' & [= <-] & [j Hj]%list_elem_of_lookup & Hne)].
      * by apply list_elem_of_insert.
      * eapply (list_elem_of_lookup_2 _ j). rewrite list_lookup_insert_ne; [done|].
        intros ->. congruence.
  - rewrite elem_of_app, list_elem_of_singleton. naive_solver.
Qed.

Lemma elem_of_GetInstances r name q :
  q ∈ GetInstances r name <->
  exists l, services r !! name = Some l /\ q ∈ l /\ is_down (objects r) q = false.
Proof.
  unfold GetInstances. destruct (services r !! name) as [l|]; [|set_solver].
  rewrite elem_of_active. naive_solver.
Qed.

Lemma holds_unique r name id p q : lb_inv r -> holds r name id p -> holds r name id q -> p = q.
Proof.
  intros Hr (l & Hl & [j Hj]%list_elem_of_lookup & Hp) (l' & Hl' & [k Hk]%list_elem_of_lookup & Hq).
  simplify_eq.
  assert (j = k) as ->; [|congruence].
  eapply (NoDup_key_lookup _ l); [eapply (li_services r Hr), Hl|done..].
Qed.

(** C1: whatever its callers, their contexts and the cleanup ticker do, in any
    order, no operation of the registry panics: there is no send on a closed
    channel, no second close and no index out of range, and no channel is ever
    asked to hold more than its capacity. *)
Theorem lb_registry_never_panics r o (Hreach : lb_reachable r) (Hev : lb_event r o) :
  o <> Panic /\ forall c ch, chans r !! c = Some ch -> (length (buffered ch) <= 1)%nat.
Proof.
  apply lb_reachable_inv in Hreach as Hr. split; [|apply Hr].
  pose proof (lb_event_inv r o Hev Hr). by intros ->.
Qed.

(** In a reachable registry the pair of a service name and an ID names at
    most one instance, and [Register] is an insertion at that pair: it always
    succeeds, replaces the instance with the same name and ID if there is one,
    and touches nothing else. *)
Theorem lb_register_inserts r p i (Hreach : lb_reachable r) (Hp : objects r !! p = Some i) :
  exists r', Register r p = Ret r' /\ objects r' = objects r /\
    (forall name id q q', holds r' name id q -> holds r' name id q' -> q = q') /\
    (forall name id q, holds r' name id q <->
       if decide (name = Name i /\ id = ID i) then q = p else holds r name id q).
Proof.
  apply lb_reachable_inv in Hreach as Hr. destruct (register_inv r p i Hr Hp) as (cs & -> & Hi).
  eexists. split_and!; [done..|intros *; by apply holds_unique|].
  intros name id q. unfold holds. simpl. rewrite lookup_insert. destruct (decide (Name i = name)) as [<-|Hn].
  - transitivity (q ∈ registered r p /\ ID (deref (objects r) q) = id); [naive_solver|].
    rewrite (elem_of_registered r p i q Hr Hp). unfold deref in *. case_decide as Hd.
    + destruct Hd as [_ ->]. split; [naive_solver|]. intros ->. rewrite Hp. auto.
    + split; [|naive_solver]. intros [[->|?] Hid]; [|naive_solver]. rewrite Hp in Hid. naive_solver.
  - rewrite decide_False by naive_solver. done.
Qed.

(** [Deregister] fails exactly when no registered instance has the ID, and
    otherwise takes exactly one instance, which has the ID, out of every answer
    of [GetInstances], whatever order the map is visited in. *)
Theorem lb_deregister_spec r order id
    (Hreach : lb_reachable r) (Horder : map_order (services r) order) :
  match Deregister r order id with
  | Ret r' => exists name p, holds r name id p /\
                forall n q, q ∈ GetInstances r' n <-> q ∈ GetInstances r n /\ q <> p
  | Fail e => e = ErrInstanceNotFound id /\ forall name p, ~ holds r name id p
  | Panic => False
  end.
Proof.
  apply lb_reachable_inv in Hreach as Hr.
  assert (forall n l, (n, l) ∈ order <-> services r !! n = Some l) as Hel
    by (intros n l; by apply map_order_elem).
  pose proof (deregister_cases r order id Hr (fun n l => proj1 (Hel n l))) as H.
  destruct (Deregister r order id) as [r'|e|]; [|destruct H as [-> H]; split; [done|]|done].
  - destruct H as (name & p & cs & Hp & -> & _). exists name, p. split; [done|].
    intros n q. rewrite !elem_of_GetInstances. simpl. unfold is_down. rewrite deref_insert.
    case_decide; subst; naive_solver.
  - intros name p (l & Hl & Hin & Hid). by apply (H name l p); [apply Hel|..].
Qed.

(** A tick of the cleanup loop leaves every answer of [GetInstances] as it
    was and leaves no instance that is down in the registry. *)
Theorem lb_cleanup_invisible r order
    (Hreach : lb_reachable r) (Horder : map_order (services r) order) :
  exists r', cleanup r order = Ret r' /\ objects r' = objects r /\
    (forall name, GetInstances r' name = GetInstances r name) /\
    (forall name l, services r' !! name = Some l -> l = GetInstances r name).
Proof.
  apply lb_reachable_inv in Hreach as Hr.
  destruct (cleanup_spec r order) as (r' & Hc & _ & Hob & Hs);
    [done|intros *; by apply map_order_elem|by eapply map_order_nodup|].
  assert (forall n, services r' !! n = active (objects r) <$> services r !! n) as Hs'.
  { intros n. rewrite Hs. case_decide as Hn; [done|].
    destruct (services r !! n) as [l|] eqn:El; [|done]. destruct Hn.
    apply list_elem_of_fmap. exists (n, l). split; [done|]. by apply map_order_elem with (services r). }
  exists r'. split_and!; [done..| |]; intros name; unfold GetInstances; rewrite Hs', ?Hob;
    destruct (services r !! name); simpl; [by rewrite active_idemp|done|naive_solver|done].
Qed.

(** ** Selectors and balancer *)

#[refine]
Instance random_selector : InstanceSelector RandomSelector := {
  Select intn h s l := random_Select intn s l;
  sel_ready h s l := True
}.
Proof.
  - done.
  - intros intn h s l Hi _ Hl. unfold random_Select, Intn, panic_unless.
    assert (0 < llen l) by (unfold llen; destruct l; simpl; [done|lia]).
    rewrite decide_False by (by intros ?%nil_length_inv).
    rewrite (proj2 (Z.ltb_lt _ _)) by done. simpl.
    destruct (index_in_range (E := LbError) l (intn (llen l))) as (p & -> & ?%list_elem_of_lookup_2);
      [by apply Hi|eauto].
Defined.

#[refine]
Instance roundrobin_selector : InstanceSelector RoundRobinSelector := {
  Select intn h s l := roundrobin_Select s l;
  sel_ready h s l := 0 <= nextIdx s
}.
Proof.
  - done.
  - intros intn h s l Hi Hr Hl. unfold roundrobin_Select.
    assert (0 < llen l) by (unfold llen; destruct l; simpl; [done|lia]).
    rewrite decide_False by (by intros ?%nil_length_inv).
    destruct (index_in_range (E := LbError) l (Z.rem (nextIdx s) (llen l)))
      as (p & -> & ?%list_elem_of_lookup_2); [by apply Z.rem_bound_pos|eauto].
Defined.

Lemma weight_of_pos h p : 1 <= weight_of h p.
Proof. unfold weight_of. destruct (Z.leb_spec (Weight (deref h p)) 0); lia. Qed.

Lemma weights_nonneg h (l : list ptr) : forall p, p ∈ l -> 0 <= weight_of h p.
Proof. intros p _. pose proof (weight_of_pos h p). lia. Qed.

Lemma weights_sum_pos h l : l <> [] -> 0 < sum (weight_of h) l.
Proof.
  destruct l as [|p l]; [done|]. intros _. simpl.
  pose proof (weight_of_pos h p). pose proof (sum_nonneg (weight_of h) l (weights_nonneg h l)). lia.
Qed.

(** With a total that fits an [int], the scan decides and the fallback is dead. *)
Lemma weighted_Select_scan intn h s l :
  intn_in_range intn -> l <> [] -> sum (weight_of h) l < 2 ^ 63 ->
  exists p, p ∈ l /\ scan (weight_of h) (intn (sum (weight_of h) l)) 0 l = Some p /\
            weighted_Select intn h s l = (s, Ret p).
Proof.
  intros Hi Hl Hs. pose proof (weights_sum_pos h l Hl) as Hp.
  destruct (scan_some (weight_of h) l 0 (intn (sum (weight_of h) l))) as (p & Hin & Hsc);
    [apply weights_nonneg|done|lia|by apply Hi|].
  exists p. split_and!; [done..|]. unfold weighted_Select, Intn, panic_unless.
  rewrite decide_False by (by intros ?%nil_length_inv).
  rewrite (total_sum _ _ (weights_nonneg h l) Hs), (proj2 (Z.ltb_lt _ _)) by done. simpl.
  by rewrite Hsc.
Qed.

#[refine]
Instance weighted_selector : InstanceSelector WeightedSelector := {
  Select := weighted_Select;
  sel_ready h s l := sum (weight_of h) l < 2 ^ 63
}.
Proof.
  - done.
  - intros intn h s l Hi Hr Hl.
    destruct (weighted_Select_scan intn h s l Hi Hl Hr) as (p & Hin & _ & ->). eauto.
Defined.

(** Dispatch on the dynamic type of the selector. *)
Definition dispatch_Select (intn : Z -> Z) (h : heap) (s : Selector) (l : list ptr) :
    Selector * outcome LbError ptr :=
  match s with
  | SelRandom s => let '(s, o) := Select intn h s l in (SelRandom s, o)
  | SelRoundRobin s => let '(s, o) := Select intn h s l in (SelRoundRobin s, o)
  | SelWeighted s => let '(s, o) := Select intn h s l in (SelWeighted s, o)
  end.

Definition dispatch_ready (h : heap) (s : Selector) (l : list ptr) : Prop :=
  match s with
  | SelRandom s => sel_ready h s l
  | SelRoundRobin s => sel_ready h s l
  | SelWeighted s => sel_ready h s l
  end.

#[refine]
Instance any_selector : InstanceSelector Selector := {
  Select := dispatch_Select;
  sel_ready := dispatch_ready
}.
Proof.
  - intros intn h [s|s|s]; unfold dispatch_Select; by rewrite select_empty.
  - intros intn h [s|s|s] l Hi Hr Hl; unfold dispatch_Select;
      destruct (select_chooses intn h s l Hi Hr Hl) as (s' & p & -> & ?); eauto.
Defined.

Lemma inmemory_live r name l p :
  lb_reachable r -> Ret (E := LbError) (GetInstances r name) = Ret l -> p ∈ l ->
  exists i, objects r !! p = Some i /\ Name i = name /\ Status i <> "down"%string.
Proof.
  intros Hr%lb_reachable_inv [= <-] (l0 & Hl & Hin & Hd)%elem_of_GetInstances.
  destruct (sv_alloc _ _ _ (li_services r Hr _ _ Hl) p Hin) as (i & Hi & Hn).
  exists i. split_and!; [done..|]. unfold is_down in Hd.
  rewrite (deref_alloc _ _ _ Hi) in Hd. by apply bool_decide_eq_false in Hd.
Qed.

Instance inmemory_registry : ServiceRegistry InMemoryRegistry := {
  reg_GetInstances r name := Ret (GetInstances r name);
  reg_heap := objects;
  reg_valid := lb_reachable;
  reg_live := inmemory_live
}.

Section balancer.
Context {R : Type} `{ServiceRegistry R}.

(** The selector of a service, or a new random one. *)
Definition selector_for (lb : LoadBalancer) (serviceName : string) : Selector :=
  default (SelRandom MkRandomSelector)
    (selectors lb !! serviceName ≫= fun a => selector_at lb !! a).

Definition store_selector (lb : LoadBalancer) (serviceName : string) (s : Selector) : LoadBalancer :=
  match selectors lb !! serviceName with
  | Some a => {| selectors := selectors lb; selector_at := <[a := s]> (selector_at lb) |}
  | None => lb
  end.

Definition GetInstance (intn : Z -> Z) (lb : LoadBalancer) (registry : R) (serviceName : string) :
    LoadBalancer * outcome LbError ptr :=
  match reg_GetInstances registry serviceName with
  | Panic => (lb, Panic)
  | Fail err => (lb, Fail err)
  | Ret instances =>
      if decide (length instances = 0%nat) then (lb, Fail (ErrNoInstancesFound serviceName))
      else
        let '(s, o) := Select intn (reg_heap registry) (selector_for lb serviceName) instances in
        (store_selector lb serviceName s, o)
  end.

Lemma balancer_spec intn lb registry serviceName l :
  intn_in_range intn -> reg_valid registry ->
  reg_GetInstances registry serviceName = Ret l ->
  dispatch_ready (reg_heap registry) (selector_for lb serviceName) l ->
  match (GetInstance intn lb registry serviceName).2 with
  | Ret p => p ∈ l /\ exists i, reg_heap registry !! p = Some i /\ Name i = serviceName /\
                               Status i <> "down"%string
  | Fail e => e = ErrNoInstancesFound serviceName /\ l = []
  | Panic => False
  end.
Proof.
  intros Hi Hv Hg Hr. unfold GetInstance. rewrite Hg.
  case_decide as Hl; [by apply nil_length_inv in Hl|].
  destruct (select_chooses intn (reg_heap registry) (selector_for lb serviceName) l)
    as (s' & p & -> & Hin); [done|done|by intros ->|].
  simpl. split; [done|]. by eapply reg_live.
Qed.

End balancer.

(** With a reachable registry, [GetInstance] never panics, returns a live
    instance registered under the name asked for whenever there is one, and
    the error that there is none exactly when there is none; this needs the
    round-robin counter not to have wrapped and the weights of the list to
    add up within an [int]. *)
Theorem lb_get_instance_live intn lb r serviceName
    (Hintn : intn_in_range intn) (Hreach : lb_reachable r)
    (Hready : sel_ready (objects r) (selector_for lb serviceName) (GetInstances r serviceName)) :
  match (GetInstance intn lb r serviceName).2 with
  | Ret p => p ∈ GetInstances r serviceName /\
             exists i, objects r !! p = Some i /\ Name i = serviceName /\ Status i <> "down"%string
  | Fail e => e = ErrNoInstancesFound serviceName /\ GetInstances r serviceName = []
  | Panic => False
  end.
Proof. exact (balancer_spec intn lb r serviceName _ Hintn Hreach eq_refl Hready). Qed.

(** Consecutive choices of a round-robin selector from the same list. *)
Fixpoint roundrobin_picks (n : nat) (s : RoundRobinSelector) (l : list ptr) :
    list (outcome LbError ptr) :=
  match n with
  | O => []
  | S n => let '(s', o) := roundrobin_Select s l in o :: roundrobin_picks n s' l
  end.

Lemma roundrobin_picks_turns n s l :
  l <> [] -> 0 <= nextIdx s -> nextIdx s + Z.of_nat n < 2 ^ 63 ->
  roundrobin_picks n s l
  = (fun k => index l (Z.rem (nextIdx s + Z.of_nat k) (llen l))) <$> seq 0 n.
Proof.
  intros Hl. revert s. induction n as [|n IH]; intros s Hs Hn; [done|].
  cbn [roundrobin_picks seq]. unfold roundrobin_Select at 1.
  rewrite decide_False by (by intros ?%nil_length_inv).
  rewrite fmap_cons, Z.add_0_r. f_equal. rewrite int64_small by lia.
  rewrite IH by (simpl; lia). rewrite <- fmap_S_seq, <- list_fmap_compose. simpl.
  apply list_fmap_ext. intros _ k _. simpl. do 2 f_equal. lia.
Qed.

(** A round-robin selector is fair: from any counter that does not wrap on
    the way, as many consecutive choices as there are instances choose each
    instance exactly once. *)
Theorem lb_roundrobin_fair s l
    (Hl : l <> []) (Hidx : 0 <= nextIdx s) (Hwrap : nextIdx s + llen l < 2 ^ 63) :
  roundrobin_picks (length l) s l ≡ₚ Ret <$> l.
Proof. rewrite roundrobin_picks_turns by done. by apply turns_permutation. Qed.

(** A weighted selector chooses in proportion to the weights: of the
    numbers [rand.Intn] may give, exactly as many choose an instance as its
    weight says (1 for a weight that is not positive), and none panics. *)
Theorem lb_weighted_proportional h s l p
    (Hd : NoDup l) (Hp : p ∈ l) (Hsum : sum (weight_of h) l < 2 ^ 63) :
  Z.of_nat (length (filter (fun t => (weighted_Select (fun _ => t) h s l).2 = Ret p)
                      (seqZ 0 (sum (weight_of h) l)))) = weight_of h p.
Proof.
  assert (l <> []) as Hl by (by intros ->; apply elem_of_nil in Hp).
  rewrite (filter_ext_in _ (fun t => scan (weight_of h) t 0 l = Some p)).
  - apply scan_count; [apply weights_nonneg|done|lia|done..].
  - intros t Ht%elem_of_seqZ.
    set (intn n := if decide (n = sum (weight_of h) l) then t else 0).
    destruct (weighted_Select_scan intn h s l) as (q & _ & Hq & Hw); [|done..|].
    + intros n Hn. unfold intn. case_decide; lia.
    + unfold intn in Hq. rewrite decide_True in Hq by done. rewrite Hq.
      assert (weighted_Select (fun _ => t) h s l = (s, Ret q)) as ->; [|simpl; naive_solver].
      rewrite <- Hw. unfold weighted_Select, Intn, intn. rewrite total_sum by (done || apply weights_nonneg).
      by rewrite (decide_True (P := sum _ l = _)).
Qed.

(** ** Examples *)

Definition sample_instance (id : string) (w : Z) : ServiceInstance :=
  MkInstance id "chat" "localhost:50051" ∅ w "active".

(** Two instances of one service, registered while a watcher listens. *)
Definition sample_objects : InMemoryRegistry :=
  (WatchService (set_object (set_object NewInMemoryRegistry 0 (sample_instance "a" 3))
                            1 (sample_instance "b" 0)) "chat").1.

Definition sample_registry : InMemoryRegistry :=
  match (r ← Register sample_objects 0%nat; Register r 1%nat) with Ret r => r | _ => sample_objects end.

Lemma sample_reachable : lb_reachable sample_registry.
Proof.
  unfold lb_reachable, sample_registry, sample_objects.
  eapply rtc_l; [apply (ev_new _ 0%nat (sample_instance "a" 3)); reflexivity|].
  eapply rtc_l; [apply (ev_new _ 1%nat (sample_instance "b" 0)); reflexivity|].
  eapply rtc_l; [apply (ev_watch _ "chat")|].
  eapply rtc_l.
  { unfold lb_step.
    replace (Ret _) with (Register sample_objects 0) by (vm_compute; reflexivity).
    by eapply ev_register. }
  eapply rtc_once. unfold lb_step.
  match goal with |- lb_event ?r (Ret _) => 
    change (lb_event r (Register r 1)) end.
  by eapply ev_register.
Qed.

Example lb_registry_never_panics_witness :
  exists r', Register sample_registry 0%nat = Ret r' /\ Register sample_registry 0%nat <> Panic.
Proof.
  destruct (lb_registry_never_panics sample_registry (Register sample_registry 0%nat))
    as [H _]; [exact sample_reachable|by eapply ev_register|].
  eexists. split; [vm_compute; reflexivity|exact H].
Defined.

Example lb_register_inserts_witness :
  exists r', Register sample_registry 1%nat = Ret r' /\ holds r' "chat" "b" 1%nat.
Proof.
  destruct (lb_register_inserts sample_registry 1%nat (sample_instance "b" 0))
    as (r' & Hr & _ & _ & H); [exact sample_reachable|reflexivity|].
  exists r'. split; [exact Hr|]. apply H. reflexivity.
Defined.

Example lb_deregister_spec_witness :
  exists r', Deregister sample_registry (map_to_list (services sample_registry)) "a" = Ret r' /\
  exists p, forall n q, q ∈ GetInstances r' n <-> q ∈ GetInstances sample_registry n /\ q <> p.
Proof.
  pose proof (lb_deregister_spec sample_registry _ "a" sample_reachable (map_order_default _)) as H.
  destruct (Deregister sample_registry _ "a") as [r'|e|] eqn:E;
    [|vm_compute in E; discriminate E..].
  destruct H as (name & p & _ & H). exists r'. split; [reflexivity|]. exists p. exact H.
Defined.

Example lb_cleanup_invisible_witness :
  exists r', cleanup sample_registry (map_to_list (services sample_registry)) = Ret r' /\
             GetInstances r' "chat" = [0; 1]%nat.
Proof.
  destruct (lb_cleanup_invisible sample_registry _ sample_reachable (map_order_default _))
    as (r' & Hc & _ & H & _).
  exists r'. split; [exact Hc|]. rewrite H. vm_compute. reflexivity.
Defined.

Example lb_get_instance_live_witness :
  exists p, (GetInstance (fun _ => 0) NewLoadBalancer sample_registry "chat").2 = Ret p /\
            p ∈ GetInstances sample_registry "chat".
Proof.
  pose proof (lb_get_instance_live (fun _ => 0) NewLoadBalancer sample_registry "chat"
                ltac:(intros n; lia) sample_reachable I) as H.
  destruct (GetInstance _ _ _ _).2 as [p|e|] eqn:E; [|vm_compute in E; discriminate E..].
  exists p. split; [reflexivity|exact (proj1 H)].
Defined.

Example lb_roundrobin_fair_witness :
  roundrobin_picks 3 (MkRoundRobin 5) [10; 11; 12]%nat ≡ₚ [Ret 10; Ret 11; Ret 12]%nat.
Proof. apply (lb_roundrobin_fair (MkRoundRobin 5) [10; 11; 12]%nat); [done|simpl; lia|reflexivity]. Defined.

Example lb_weighted_proportional_witness :
  weight_of (objects sample_registry) 0%nat = 3 /\
  Z.of_nat (length (filter (fun t => (weighted_Select (fun _ => t) (objects sample_registry)
                                        MkWeightedSelector [0; 1]%nat).2 = Ret 0%nat) (seqZ 0 4))) = 3.
Proof.
  split; [vm_compute; reflexivity|].
  apply (lb_weighted_proportional (objects sample_registry) MkWeightedSelector [0; 1]%nat 0%nat).
  - by apply (bool_decide_unpack (NoDup [0; 1]%nat)).
  - apply list_elem_of_here.
  - vm_compute. reflexivity.
Defined.
