(* ===== verification/Router.v ===== *)
(** * Message routing ([pkg/protocol/router.go])

    The two load balancers of the router, the in-memory service discovery and
    the routing operations.  The discovery hands out the slices it keeps, and
    removes an instance by shifting the shared array in place, so slices are
    modelled with their backing arrays: a slice is an array and a length, and
    two slices of one array see each other's writes. *)

From stdpp Require Import base gmap strings list fin_maps numbers.
From Stdlib Require Import ZArith Lia.
From S2P Require Import Prelude Selection Message.

Local Open Scope Z_scope.

Record ServiceInstance := MkServiceInstance {
  ID : string;
  ServiceName : string;
  Address : string;
  Weight : Z;
  Status : string;
  LastSeen : Z;
  Metadata : gmap string string
}.

Inductive RouteError :=
  | ErrServiceNotFound (name : string)
  | ErrServiceTypeNotFound (serviceType : Z)
  | ErrNoAvailableInstance
  | ErrInstanceNotFound (instanceID : string)
  | ErrGetInstances (e : RouteError)
  | ErrLoadBalancing (e : RouteError)
  | ErrTimeout.

#[export] Instance RouteError_eq_dec : EqDecision RouteError.
Proof. solve_decision. Defined.

#[export] Instance ServiceInstance_eq_dec : EqDecision ServiceInstance.
Proof. solve_decision. Defined.

(** ** Load balancers *)

Definition is_up (i : ServiceInstance) : bool := bool_decide (Status i = "up"%string).

(** The loop that collects [availableInstances]. *)
Fixpoint available (instances : list ServiceInstance) : list ServiceInstance :=
  match instances with
  | [] => []
  | i :: rest => if is_up i then i :: available rest else available rest
  end.

(** The interface of a balancer: it chooses an instance that is up, and reports
    that there is none exactly when there is none. *)
Class LoadBalancer (B : Type) := {
  SelectInstance : B -> list ServiceInstance -> B * outcome RouteError ServiceInstance;
  lb_ready : B -> list ServiceInstance -> Prop;
  select_none b l :
    available l = [] -> SelectInstance b l = (b, Fail ErrNoAvailableInstance);
  select_up b l :
    lb_ready b l -> available l <> [] ->
    exists b' i, SelectInstance b l = (b', Ret i) /\ i ∈ available l
}.

Record RoundRobinLoadBalancer := MkRoundRobinLB { rr_counter : gmap string Z }.

Definition NewRoundRobinLoadBalancer : RoundRobinLoadBalancer := {| rr_counter := ∅ |}.

(** [m[k]] of a map from strings to [int], zero when the key is missing. *)
Definition count_of (m : gmap string Z) (k : string) : Z := default 0 (m !! k).

Definition rr_SelectInstance (lb : RoundRobinLoadBalancer) (instances : list ServiceInstance) :
    RoundRobinLoadBalancer * outcome RouteError ServiceInstance :=
  match instances with
  | [] => (lb, Fail ErrNoAvailableInstance)
  | first :: _ =>
      let serviceName := ServiceName first in
      let count := count_of (rr_counter lb) serviceName in
      let availableInstances := available instances in
      if decide (length availableInstances = 0%nat) then (lb, Fail ErrNoAvailableInstance)
      else
        let selectedIndex := Z.rem count (llen availableInstances) in
        ({| rr_counter := <[serviceName := int64 (count + 1)]> (rr_counter lb) |},
         index availableInstances selectedIndex)
  end.

Record WeightedLoadBalancer := MkWeightedLB { w_counter : gmap string Z }.

Definition NewWeightedLoadBalancer : WeightedLoadBalancer := {| w_counter := ∅ |}.

Definition weighted_SelectInstance (lb : WeightedLoadBalancer) (instances : list ServiceInstance) :
    WeightedLoadBalancer * outcome RouteError ServiceInstance :=
  match instances with
  | [] => (lb, Fail ErrNoAvailableInstance)
  | first :: _ =>
      let serviceName := ServiceName first in
      let availableInstances := available instances in
      let totalWeight := total Weight availableInstances in
      if decide (length availableInstances = 0%nat) then (lb, Fail ErrNoAvailableInstance)
      else
        let count := count_of (w_counter lb) serviceName in
        let lb' := {| w_counter := <[serviceName := int64 (count + 1)]> (w_counter lb) |} in
        if decide (totalWeight = 0) then
          (lb', index availableInstances (Z.rem count (llen availableInstances)))
        else
          (lb', match scan Weight (Z.rem count totalWeight) 0 availableInstances with
                | Some i => Ret i
                | None => index availableInstances 0
                end)
  end.

(** ** Service discovery *)

(** A slice: its backing array and its length; the capacity is the length of
    the array. *)
Record slice := MkSlice { arr : nat; slen : nat }.

Record InMemoryServiceDiscovery := MkDiscovery {
  arrays : gmap nat (list ServiceInstance);
  instances : gmap string slice;
  watches : gmap string (list nat)
}.

Definition NewInMemoryServiceDiscovery : InMemoryServiceDiscovery :=
  {| arrays := ∅; instances := ∅; watches := ∅ |}.

(** What a slice holds now. *)
Definition contents (sd : InMemoryServiceDiscovery) (s : slice) : list ServiceInstance :=
  take (slen s) (default [] (arrays sd !! arr s)).

(** A goroutine [go watch(instances)]: the callback and the slice it gets; the
    service is always present when watchers are notified. *)
Definition notification : Type := nat * slice.

Definition notifyWatchers (sd : InMemoryServiceDiscovery) (serviceName : string) : list notification :=
  match instances sd !! serviceName with
  | Some s => (fun watch => (watch, s)) <$> default [] (watches sd !! serviceName)
  | None => []
  end.

Definition GetServiceInstances (sd : InMemoryServiceDiscovery) (serviceName : string) :
    outcome RouteError slice :=
  match instances sd !! serviceName with
  | None => Fail (ErrServiceNotFound serviceName)
  | Some s => Ret s
  end.

Fixpoint find_id (id : string) (l : list ServiceInstance) : option nat :=
  match l with
  | [] => None
  | i :: l => if bool_decide (ID i = id) then Some O else S <$> find_id id l
  end.

Definition set_array (sd : InMemoryServiceDiscovery) (a : nat) (l : list ServiceInstance)
    (serviceName : string) (s : slice) : InMemoryServiceDiscovery :=
  {| arrays := <[a := l]> (arrays sd);
     instances := <[serviceName := s]> (instances sd);
     watches := watches sd |}.

Definition zero_instance : ServiceInstance := MkServiceInstance "" "" "" 0 "" 0 ∅.

Section discovery.
(** The capacity the runtime gives a slice of [n] elements that grows by one. *)
Context (grow : nat -> nat).

Definition RegisterServiceInstance (sd : InMemoryServiceDiscovery) (instance : ServiceInstance) :
    InMemoryServiceDiscovery * list notification :=
  let name := ServiceName instance in
  let sd' :=
    match instances sd !! name with
    | None =>
        (* append to the nil slice *)
        let a := fresh (dom (arrays sd)) in
        set_array sd a (instance :: replicate (grow 0 - 1) zero_instance) name (MkSlice a 1)
    | Some s =>
        let backing := default [] (arrays sd !! arr s) in
        match find_id (ID instance) (contents sd s) with
        | Some i => set_array sd (arr s) (<[i := instance]> backing) name s
        | None =>
            if decide (slen s < length backing)%nat then
              set_array sd (arr s) (<[slen s := instance]> backing) name
                (MkSlice (arr s) (S (slen s)))
            else
              let a := fresh (dom (arrays sd)) in
              set_array sd a
                (contents sd s ++ instance :: replicate (grow (slen s) - S (slen s)) zero_instance)
                name (MkSlice a (S (slen s)))
        end
    end in
  (sd', notifyWatchers sd' name).

(** [append(l[:i], l[i+1:]...)] on the first [n] elements of the array: the
    elements after [i] move down, the last slot keeps its value. *)
Definition shift_down (i n : nat) (backing : list ServiceInstance) : list ServiceInstance :=
  take i backing ++ sub (S i) (n - S i) backing ++ drop (n - 1) backing.

(** [order] is the order in which the range over [sd.instances] visits its keys. *)
Fixpoint DeregisterServiceInstance (sd : InMemoryServiceDiscovery) (order : list string)
    (instanceID : string) :
    InMemoryServiceDiscovery * outcome RouteError (list notification) :=
  match order with
  | [] => (sd, Fail (ErrInstanceNotFound instanceID))
  | serviceName :: order =>
      match instances sd !! serviceName with
      | None => DeregisterServiceInstance sd order instanceID
      | Some s =>
          match find_id instanceID (contents sd s) with
          | None => DeregisterServiceInstance sd order instanceID
          | Some i =>
              let sd' := set_array sd (arr s)
                (shift_down i (slen s) (default [] (arrays sd !! arr s)))
                serviceName (MkSlice (arr s) (slen s - 1)) in
              (sd', Ret (notifyWatchers sd' serviceName))
          end
      end
  end.

Definition WatchService (sd : InMemoryServiceDiscovery) (serviceName : string) (callback : nat) :
    InMemoryServiceDiscovery :=
  {| arrays := arrays sd; instances := instances sd;
     watches := <[serviceName := default [] (watches sd !! serviceName) ++ [callback]]> (watches sd) |}.

End discovery.

(** ** Routing *)

(** How the wait at the end of [Route] ends: the response is made at [now], or
    the context is done first. *)
Inductive route_wait := Responded (now : Z) | TimedOut.

Definition response_text : list byte := str_bytes "Response placeholder".

Definition set_destination (m : Message) (serviceType : Z) (name : string) : Message :=
  {| Version := Version m; Flags := Flags m; ServiceType := serviceType;
     MessageType := MessageType m; SequenceID := SequenceID m;
     Timestamp := Timestamp m; PayloadLength := PayloadLength m;
     SourceService := SourceService m; DestinationService := name;
     CorrelationID := CorrelationID m; SessionID := SessionID m;
     Payload := Payload m |}.

(** [if msg.DestinationService == "" { msg.DestinationService = serviceName }] *)
Definition fill_destination (m : Message) (name : string) : Message :=
  if decide (DestinationService m = ""%string) then set_destination m (ServiceType m) name else m.

Definition response_to (m : Message) (serviceName : string) (now : Z) : Message :=
  {| Version := Version m; Flags := Flags m; ServiceType := ServiceType m;
     MessageType := MessageType m; SequenceID := SequenceID m;
     Timestamp := uwrap 64 now; PayloadLength := 0;
     SourceService := serviceName; DestinationService := SourceService m;
     CorrelationID := CorrelationID m; SessionID := SessionID m;
     Payload := response_text |}.

Section routing.
Context {B : Type} `{LoadBalancer B}.

Record MessageRouter := MkRouter {
  loadBalancer : B;
  serviceMap : gmap Z string
}.

Definition RegisterServiceType (r : MessageRouter) (serviceType : Z) (serviceName : string) : MessageRouter :=
  {| loadBalancer := loadBalancer r; serviceMap := <[serviceType := serviceName]> (serviceMap r) |}.

Definition GetServiceName (r : MessageRouter) (serviceType : Z) : option string :=
  serviceMap r !! serviceType.

(** The steps [Route] and [RouteAsync] share: the instance chosen, with the
    router and the message as they are left. *)
Definition choose_instance (r : MessageRouter) (sd : InMemoryServiceDiscovery) (msg : Message) :
    MessageRouter * Message * outcome RouteError (string * ServiceInstance) :=
  match GetServiceName r (ServiceType msg) with
  | None => (r, msg, Fail (ErrServiceTypeNotFound (ServiceType msg)))
  | Some serviceName =>
      let msg := fill_destination msg serviceName in
      match GetServiceInstances sd serviceName with
      | Panic => (r, msg, Panic)
      | Fail err => (r, msg, Fail (ErrGetInstances err))
      | Ret s =>
          let '(lb, o) := SelectInstance (loadBalancer r) (contents sd s) in
          let r := {| loadBalancer := lb; serviceMap := serviceMap r |} in
          match o with
          | Panic => (r, msg, Panic)
          | Fail err => (r, msg, Fail (ErrLoadBalancing err))
          | Ret inst => (r, msg, Ret (serviceName, inst))
          end
      end
  end.

(** The response, with the instance the message was sent to. *)
Definition Route (r : MessageRouter) (sd : InMemoryServiceDiscovery) (msg : Message) (w : route_wait) :
    MessageRouter * Message * outcome RouteError (Message * ServiceInstance) :=
  let '(r, msg, o) := choose_instance r sd msg in
  (r, msg,
   '(serviceName, inst) ← o;
   match w with
   | Responded now => Ret (response_to msg serviceName now, inst)
   | TimedOut => Fail ErrTimeout
   end).

(** The instance a goroutine sends the message to. *)
Definition RouteAsync (r : MessageRouter) (sd : InMemoryServiceDiscovery) (msg : Message) :
    MessageRouter * Message * outcome RouteError ServiceInstance :=
  let '(r, msg, o) := choose_instance r sd msg in
  (r, msg, '(_, inst) ← o; Ret inst).

(** The instances goroutines send the message to. *)
Definition Broadcast (r : MessageRouter) (sd : InMemoryServiceDiscovery) (msg : Message) (serviceType : Z) :
    Message * outcome RouteError (list ServiceInstance) :=
  match GetServiceName r serviceType with
  | None => (msg, Fail (ErrServiceTypeNotFound serviceType))
  | Some serviceName =>
      let msg := set_destination msg serviceType serviceName in
      match GetServiceInstances sd serviceName with
      | Panic => (msg, Panic)
      | Fail err => (msg, Fail (ErrGetInstances err))
      | Ret s =>
          if decide (length (contents sd s) = 0%nat) then (msg, Fail ErrNoAvailableInstance)
          else (msg, Ret (available (contents sd s)))
      end
  end.

End routing.

Arguments MessageRouter : clear implicits.

(** ** Discovery: the lists it keeps *)

Section discovery_proofs.
Context (grow : nat -> nat).

(** Every slice has a backing array that is long enough, and no two services
    share an array. *)
Record sd_inv (sd : InMemoryServiceDiscovery) : Prop := {
  si_backing name s : instances sd !! name = Some s ->
    exists a, arrays sd !! arr s = Some a /\ (slen s <= length a)%nat;
  si_separate n1 n2 s1 s2 : instances sd !! n1 = Some s1 -> instances sd !! n2 = Some s2 ->
    arr s1 = arr s2 -> n1 = n2
}.

(** The abstract discovery: a list of instances per service. *)
Definition view (sd : InMemoryServiceDiscovery) : gmap string (list ServiceInstance) :=
  contents sd <$> instances sd.

Definition spec_register (v : gmap string (list ServiceInstance)) (i : ServiceInstance) :
    gmap string (list ServiceInstance) :=
  let l := default [] (v !! ServiceName i) in
  <[ServiceName i := match find_id (ID i) l with Some k => <[k := i]> l | None => l ++ [i] end]> v.

Fixpoint spec_deregister (v : gmap string (list ServiceInstance)) (order : list string) (id : string) :
    gmap string (list ServiceInstance) * outcome RouteError unit :=
  match order with
  | [] => (v, Fail (ErrInstanceNotFound id))
  | name :: order =>
      let l := default [] (v !! name) in
      match find_id id l with
      | Some k => (<[name := delete k l]> v, Ret tt)
      | None => spec_deregister v order id
      end
  end.

Inductive sd_op :=
  | OpRegister (i : ServiceInstance)
  | OpDeregister (order : list string) (id : string)
  | OpGet (name : string)
  | OpWatch (name : string) (callback : nat).

Definition sd_step (sd : InMemoryServiceDiscovery) (op : sd_op) :
    InMemoryServiceDiscovery * outcome RouteError (list ServiceInstance) :=
  match op with
  | OpRegister i => ((RegisterServiceInstance grow sd i).1, Ret [])
  | OpDeregister order id =>
      let '(sd', o) := DeregisterServiceInstance sd order id in (sd', _ ← o; Ret [])
  | OpGet name => (sd, contents sd <$> GetServiceInstances sd name)
  | OpWatch name c => (WatchService sd name c, Ret [])
  end.

Definition spec_step (v : gmap string (list ServiceInstance)) (op : sd_op) :
    gmap string (list ServiceInstance) * outcome RouteError (list ServiceInstance) :=
  match op with
  | OpRegister i => (spec_register v i, Ret [])
  | OpDeregister order id => let '(v', o) := spec_deregister v order id in (v', _ ← o; Ret [])
  | OpGet name => (v, match v !! name with Some l => Ret l | None => Fail (ErrServiceNotFound name) end)
  | OpWatch _ _ => (v, Ret [])
  end.

Fixpoint sd_run (sd : InMemoryServiceDiscovery) (ops : list sd_op) :
    InMemoryServiceDiscovery * list (outcome RouteError (list ServiceInstance)) :=
  match ops with
  | [] => (sd, [])
  | op :: ops => let '(sd', o) := sd_step sd op in let '(sd'', os) := sd_run sd' ops in (sd'', o :: os)
  end.

Fixpoint spec_run (v : gmap string (list ServiceInstance)) (ops : list sd_op) :
    gmap string (list ServiceInstance) * list (outcome RouteError (list ServiceInstance)) :=
  match ops with
  | [] => (v, [])
  | op :: ops => let '(v', o) := spec_step v op in let '(v'', os) := spec_run v' ops in (v'', o :: os)
  end.

Lemma find_id_inv id l k :
  find_id id l = Some k -> exists i, l !! k = Some i /\ ID i = id.
Proof.
  revert k. induction l as [|i l IH]; intros k; simpl; [done|].
  case_bool_decide; [intros [= <-]; eauto|]. destruct (find_id id l); [|done].
  intros [= <-]. simpl. eauto.
Qed.

Lemma contents_backing sd s a : arrays sd !! arr s = Some a -> contents sd s = take (slen s) a.
Proof. unfold contents. by intros ->. Qed.

Lemma view_lookup sd n : view sd !! n = contents sd <$> instances sd !! n.
Proof. apply lookup_fmap. Qed.

(** Storing a slice of an array that no other service uses. *)
Lemma set_array_spec sd a l name s :
  sd_inv sd -> arr s = a -> (slen s <= length l)%nat ->
  (forall n s', instances sd !! n = Some s' -> arr s' = a -> n = name) ->
  sd_inv (set_array sd a l name s) /\
  view (set_array sd a l name s) = <[name := take (slen s) l]> (view sd).
Proof.
  intros [Hb Hsep] <- Hlen Hown. split; [split|].
  - intros n s'. simpl. rewrite lookup_insert. case_decide; subst.
    + intros [= <-]. exists l. by rewrite lookup_insert_eq.
    + intros Hs'. rewrite lookup_insert_ne; [eauto|]. intros E. by destruct H; rewrite (Hown n s').
  - intros n1 n2 s1 s2. simpl. rewrite !lookup_insert.
    repeat case_decide; subst; intros; simplify_eq; eauto; exfalso; eauto using eq_sym.
  - apply map_eq. intros n. unfold view. simpl. rewrite lookup_fmap, !lookup_insert.
    case_decide; subst.
    + unfold contents. simpl. by rewrite lookup_insert_eq.
    + rewrite lookup_fmap. destruct (instances sd !! n) as [s'|] eqn:Hs'; [|done]. simpl. f_equal.
      unfold contents. simpl. rewrite lookup_insert_ne; [done|]. intros E. destruct H.
      by rewrite (Hown n s').
Qed.

Lemma register_refines sd i :
  sd_inv sd -> sd_inv (RegisterServiceInstance grow sd i).1 /\
  view (RegisterServiceInstance grow sd i).1 = spec_register (view sd) i.
Proof.
  intros Hi. unfold RegisterServiceInstance, spec_register. simpl. rewrite !view_lookup.
  set (a := fresh (dom (arrays sd))).
  assert (forall n s, instances sd !! n = Some s -> arr s = a -> n = ServiceName i) as Hfresh.
  { intros n s Hs Ha. destruct (si_backing sd Hi n s Hs) as (b & Hb & _). exfalso.
    apply (is_fresh (dom (arrays sd))), elem_of_dom. exists b. fold a. by rewrite <- Ha. }
  destruct (instances sd !! ServiceName i) as [s|] eqn:Hs; simpl.
  2: { apply set_array_spec; simpl; [done..|lia|done]. }
  destruct (si_backing sd Hi _ _ Hs) as (b & Hb & Hlen). rewrite Hb. simpl.
  rewrite (contents_backing _ _ _ Hb).
  assert (forall n s', instances sd !! n = Some s' -> arr s' = arr s -> n = ServiceName i) as Hown
    by (intros n s' Hs' Ha; eapply (si_separate sd Hi); eauto).
  destruct (find_id (ID i) (take (slen s) b)) as [k|] eqn:Hf.
  - apply find_id_inv in Hf as (x & Hx & _). apply lookup_lt_Some in Hx. rewrite length_take in Hx.
    rewrite <- take_insert_lt by lia. apply set_array_spec; [done..| |done].
    by rewrite length_insert.
  - case_decide as Hc.
    + assert (take (slen s) b ++ [i] = take (S (slen s)) (<[slen s := i]> b)) as ->.
      { erewrite take_S_r; [|by apply list_lookup_insert_eq]. by rewrite take_insert_ge by lia. }
      apply (set_array_spec sd _ _ _ (MkSlice (arr s) (S (slen s)))); simpl; [done..| |done].
      rewrite length_insert. lia.
    + assert (length (take (slen s) b) = slen s) as Ht by (rewrite length_take; lia).
      set (l := take (slen s) b ++ i :: replicate (grow (slen s) - S (slen s)) zero_instance).
      assert (take (slen s) b ++ [i] = take (S (slen s)) l) as ->.
      { unfold l. rewrite take_app, Ht, (take_ge (take _ _)) by lia. by replace (S (slen s) - slen s)%nat with 1%nat by lia. }
      apply (set_array_spec sd _ _ _ (MkSlice a (S (slen s)))); simpl; [done..| |done].
      unfold l. rewrite length_app, Ht. simpl. lia.
Qed.

(** What removing the [i]-th of [n] elements leaves in the array. *)
Lemma shift_down_take i n (b : list ServiceInstance) :
  (i < n)%nat -> (n <= length b)%nat -> take (n - 1) (shift_down i n b) = delete i (take n b).
Proof.
  intros Hi Hn. rewrite delete_take_drop, take_take, Nat.min_l by lia. unfold shift_down, sub.
  rewrite app_assoc, take_app_le, take_ge; [|len..]. f_equal.
  by rewrite skipn_firstn_comm.
Qed.

Lemma shift_down_stale i n (b : list ServiceInstance) :
  (i < n)%nat -> (n <= length b)%nat ->
  take n (shift_down i n b) = delete i (take n b) ++ drop (n - 1) (take n b).
Proof.
  intros Hi Hn. rewrite <- shift_down_take by done.
  replace n with (n - 1 + 1)%nat at 1 by lia. rewrite take_sub. f_equal.
  rewrite skipn_firstn_comm. replace (n - (n - 1))%nat with 1%nat by lia.
  unfold shift_down, sub. rewrite app_assoc, drop_app_ge by len. f_equal.
  rewrite length_app, length_take, length_take, length_drop.
  replace (n - 1 - _)%nat with 0%nat by lia. done.
Qed.

Lemma length_shift_down i n (b : list ServiceInstance) :
  (i < n)%nat -> (n <= length b)%nat -> length (shift_down i n b) = length b.
Proof. intros. unfold shift_down, sub. len. Qed.

(** A successful deregistration removes one index of one list. *)
Lemma sd_deregister_cases sd order id :
  sd_inv sd ->
  match DeregisterServiceInstance sd order id with
  | (sd', o) =>
      sd_inv sd' /\ (view sd', _ ← o; Ret tt) = spec_deregister (view sd) order id /\
      (forall ns, o = Ret ns -> exists name s i,
         name ∈ order /\ instances sd !! name = Some s /\
         find_id id (contents sd s) = Some i /\
         (i < slen s)%nat /\ slen s = length (contents sd s) /\
         contents sd' s = delete i (contents sd s) ++ drop (slen s - 1) (contents sd s))
  end.
Proof.
  intros Hi. induction order as [|name order IH]; simpl; [by split_and!|].
  rewrite view_lookup. destruct (instances sd !! name) as [s|] eqn:Hs; simpl.
  2: { destruct (DeregisterServiceInstance sd order id) as [sd' o].
       destruct IH as (? & ? & Hex). split_and!; [done..|]. intros ns Hns.
       destruct (Hex ns Hns) as (n & s & i & Hn & ?). exists n, s, i. split; [set_solver|done]. }
  destruct (find_id id (contents sd s)) as [i|] eqn:Hf.
  2: { destruct (DeregisterServiceInstance sd order id) as [sd' o].
       destruct IH as (? & ? & Hex). split_and!; [done..|]. intros ns Hns.
       destruct (Hex ns Hns) as (n & s' & i & Hn & ?). exists n, s', i. split; [set_solver|done]. }
  destruct (si_backing sd Hi _ _ Hs) as (b & Hb & Hlen). rewrite Hb. simpl.
  pose proof (contents_backing _ _ _ Hb) as Hcont.
  apply find_id_inv in Hf as Hx. destruct Hx as (x & Hx & _). apply lookup_lt_Some in Hx.
  rewrite Hcont, length_take in Hx.
  destruct (set_array_spec sd (arr s) (shift_down i (slen s) b) name (MkSlice (arr s) (slen s - 1)))
    as [Hinv Hview]; simpl; [done|done|rewrite length_shift_down; lia| |].
  { intros n s' Hs' Ha. by eapply (si_separate sd Hi). }
  split_and!; [done| |].
  - rewrite Hview. simpl. rewrite shift_down_take, <- Hcont by lia. done.
  - intros ns _. exists name, s, i. split_and!; [set_solver|done|done|lia|rewrite Hcont; len|].
    rewrite (contents_backing _ _ (shift_down i (slen s) b)) by (simpl; by rewrite lookup_insert_eq).
    rewrite Hcont. apply shift_down_stale; lia.
Qed.

Lemma sd_step_refines sd op :
  sd_inv sd -> sd_inv (sd_step sd op).1 /\
  (view (sd_step sd op).1, (sd_step sd op).2) = spec_step (view sd) op.
Proof.
  intros Hi. destruct op as [i|order id|name|name c]; cbn [sd_step spec_step].
  - destruct (register_refines sd i Hi) as [Hr Hv]. split; [done|]. by rewrite <- Hv.
  - pose proof (sd_deregister_cases sd order id Hi) as H.
    destruct (DeregisterServiceInstance sd order id) as [sd' o]. destruct H as (? & <- & _).
    split; [done|]. simpl. by destruct o.
  - split; [done|]. rewrite view_lookup. unfold GetServiceInstances.
    by destruct (instances sd !! name).
  - split; [|done]. by destruct Hi.
Qed.

Lemma sd_inv_new : sd_inv NewInMemoryServiceDiscovery.
Proof. by split. Qed.

Lemma sd_run_inv sd ops : sd_inv sd -> sd_inv (sd_run sd ops).1.
Proof.
  revert sd. induction ops as [|op ops IH]; intros sd Hi; simpl; [done|].
  destruct (sd_step_refines sd op Hi) as [Hi' _]. destruct (sd_step sd op) as [sd' o].
  specialize (IH sd' Hi'). by destruct (sd_run sd' ops).
Qed.

Lemma sd_run_refines sd ops :
  sd_inv sd -> (view (sd_run sd ops).1, (sd_run sd ops).2) = spec_run (view sd) ops.
Proof.
  revert sd. induction ops as [|op ops IH]; intros sd Hi; simpl; [done|].
  destruct (sd_step_refines sd op Hi) as [Hi' Hs]. destruct (sd_step sd op) as [sd' o].
  simpl in *. rewrite <- Hs. specialize (IH sd' Hi'). destruct (sd_run sd' ops) as [sd'' os].
  rewrite <- IH. done.
Qed.

(** C3: the discovery with its shared arrays, capacities and in-place shifts
    answers every sequence of calls as a plain map from service names to lists
    of instances would, the errors included, however the runtime grows slices
    and orders maps. *)
Theorem discovery_refines_lists (ops : list sd_op) :
  (view (sd_run NewInMemoryServiceDiscovery ops).1, (sd_run NewInMemoryServiceDiscovery ops).2)
  = spec_run ∅ ops.
Proof. rewrite sd_run_refines by apply sd_inv_new. done. Qed.

(** A slice a caller got before a deregistration is overwritten by it: the
    caller then sees the instances after the removed one moved down by one and
    the last one a second time, in a slice as long as before. *)
Theorem discovery_stale_slice (ops : list sd_op) order id ns :
  let sd := (sd_run NewInMemoryServiceDiscovery ops).1 in
  (DeregisterServiceInstance sd order id).2 = Ret ns ->
  exists name s i, GetServiceInstances sd name = Ret s /\
    find_id id (contents sd s) = Some i /\ (i < length (contents sd s))%nat /\
    contents (DeregisterServiceInstance sd order id).1 s
    = delete i (contents sd s) ++ drop (length (contents sd s) - 1) (contents sd s).
Proof.
  intros sd Ho. pose proof (sd_deregister_cases sd order id (sd_run_inv _ ops sd_inv_new)) as H.
  destruct (DeregisterServiceInstance sd order id) as [sd' o]. destruct H as (_ & _ & H).
  destruct (H ns Ho) as (name & s & i & _ & Hs & Hf & Hi & Hl & Hc). exists name, s, i.
  rewrite <- Hl. split_and!; [unfold GetServiceInstances; by rewrite Hs|done..].
Qed.

End discovery_proofs.

(** ** Balancers *)

Lemma elem_of_available i l : i ∈ available l <-> i ∈ l /\ Status i = "up"%string.
Proof.
  induction l as [|j l IH]; simpl; [set_solver|]. unfold is_up.
  case_bool_decide; rewrite !elem_of_cons, ?IH; intuition congruence.
Qed.

Definition service_of (l : list ServiceInstance) : string :=
  match l with [] => "" | i :: _ => ServiceName i end.

(** The chosen instance and the new counter of both balancers. *)
Lemma rr_SelectInstance_eq lb l :
  rr_SelectInstance lb l =
  if decide (length (available l) = 0%nat) then (lb, Fail ErrNoAvailableInstance)
  else
    let count := count_of (rr_counter lb) (service_of l) in
    ({| rr_counter := <[service_of l := int64 (count + 1)]> (rr_counter lb) |},
     index (available l) (Z.rem count (llen (available l)))).
Proof. by destruct l. Qed.

Lemma available_len l : available l <> [] -> 0 < llen (available l).
Proof. unfold llen. destruct (available l); simpl; [done|lia]. Qed.

#[refine]
Instance round_robin : LoadBalancer RoundRobinLoadBalancer := {
  SelectInstance := rr_SelectInstance;
  lb_ready lb l := 0 <= count_of (rr_counter lb) (service_of l)
}.
Proof.
  - intros lb l Hl. rewrite rr_SelectInstance_eq, decide_True; [done|by rewrite Hl].
  - intros lb l Hr Hl. rewrite rr_SelectInstance_eq, decide_False by (by intros ?%nil_length_inv).
    destruct (index_in_range (E := RouteError) (available l)
      (Z.rem (count_of (rr_counter lb) (service_of l)) (llen (available l))))
      as (i & Hi & Hin%list_elem_of_lookup_2).
    + apply Z.rem_bound_pos; [done|by apply available_len].
    + cbn zeta. rewrite Hi. eauto.
Defined.

Lemma weighted_SelectInstance_eq lb l :
  (forall i, i ∈ available l -> 0 <= Weight i) -> sum Weight (available l) < 2 ^ 63 ->
  available l <> [] -> 0 <= count_of (w_counter lb) (service_of l) ->
  weighted_SelectInstance lb l =
    let count := count_of (w_counter lb) (service_of l) in
    let W := sum Weight (available l) in
    ({| w_counter := <[service_of l := int64 (count + 1)]> (w_counter lb) |},
     if decide (W = 0) then index (available l) (Z.rem count (llen (available l)))
     else match scan Weight (Z.rem count W) 0 (available l) with
          | Some i => Ret i
          | None => Panic
          end).
Proof.
  intros Hw Hs Hl Hc. destruct l as [|i l]; [done|]. unfold weighted_SelectInstance.
  rewrite decide_False by (by intros ?%nil_length_inv). rewrite (total_sum _ _ Hw Hs). cbn zeta.
  destruct (decide (sum Weight (available (i :: l)) = 0)) as [Hz|Hz]; [done|].
  destruct (scan_some Weight (available (i :: l)) 0
    (Z.rem (count_of (w_counter lb) (ServiceName i)) (sum Weight (available (i :: l)))))
    as (x & _ & Hx); [done|done|lia| |].
  - pose proof (sum_nonneg Weight (available (i :: l)) Hw). apply Z.rem_bound_pos; [done|lia].
  - unfold service_of. by rewrite Hx.
Qed.

#[refine]
Instance weighted : LoadBalancer WeightedLoadBalancer := {
  SelectInstance := weighted_SelectInstance;
  lb_ready lb l := 0 <= count_of (w_counter lb) (service_of l) /\
                   (forall i, i ∈ available l -> 0 <= Weight i) /\ sum Weight (available l) < 2 ^ 63
}.
Proof.
  - intros lb [|i l] Hl; [done|]. unfold weighted_SelectInstance.
    rewrite decide_True; [done|by rewrite Hl].
  - intros lb l (Hc & Hw & Hs) Hl. rewrite weighted_SelectInstance_eq by done. cbn zeta. case_decide as Hz.
    + destruct (index_in_range (E := RouteError) (available l)
        (Z.rem (count_of (w_counter lb) (service_of l)) (llen (available l))))
        as (i & Hi & Hin%list_elem_of_lookup_2).
      * apply Z.rem_bound_pos; [done|by apply available_len].
      * rewrite Hi. eauto.
    + destruct (scan_some Weight (available l) 0
        (Z.rem (count_of (w_counter lb) (service_of l)) (sum Weight (available l))))
        as (i & Hin & ->); [done|done|lia| |eauto].
      pose proof (sum_nonneg Weight (available l) Hw). apply Z.rem_bound_pos; [done|lia].
Defined.

(** Consecutive choices from the same list. *)
Fixpoint picks {B} `{LoadBalancer B} (n : nat) (b : B) (l : list ServiceInstance) :
    list (outcome RouteError ServiceInstance) :=
  match n with
  | O => []
  | S n => let '(b', o) := SelectInstance b l in o :: picks n b' l
  end.

Lemma count_of_insert m k v : count_of (<[k := v]> m) k = v.
Proof. unfold count_of. by rewrite lookup_insert_eq. Qed.

(** A balancer that chooses by the count and adds one to it. *)
Lemma picks_turns {B} `{LoadBalancer B} (counter : B -> Z) (choose : Z -> outcome RouteError ServiceInstance) l :
  (forall b, 0 <= counter b < 2 ^ 63 - 1 ->
     exists b', SelectInstance b l = (b', choose (counter b)) /\ counter b' = counter b + 1) ->
  forall n b, 0 <= counter b -> counter b + Z.of_nat n < 2 ^ 63 ->
  picks n b l = (fun k => choose (counter b + Z.of_nat k)) <$> seq 0 n.
Proof.
  intros Hstep. induction n as [|n IH]; intros b Hb Hn; [done|]. cbn [picks seq].
  destruct (Hstep b) as (b' & -> & Hb'); [lia|]. rewrite fmap_cons, Z.add_0_r. f_equal.
  rewrite IH, Hb' by lia. rewrite <- fmap_S_seq, <- list_fmap_compose.
  apply list_fmap_ext. intros _ k _. simpl. f_equal. lia.
Qed.

(** The router's round-robin balancer is fair: as many consecutive choices
    as there are instances that are up choose each of them exactly once, from
    any counter that does not wrap on the way, and it never chooses another. *)
Theorem router_roundrobin_fair (lb : RoundRobinLoadBalancer) l
    (Hl : available l <> []) (Hcount : 0 <= count_of (rr_counter lb) (service_of l))
    (Hwrap : count_of (rr_counter lb) (service_of l) + llen (available l) < 2 ^ 63) :
  picks (length (available l)) lb l ≡ₚ Ret <$> available l.
Proof.
  rewrite (picks_turns (fun b => count_of (rr_counter b) (service_of l))
    (fun c => index (available l) (Z.rem c (llen (available l)))) l); [|..|done|done].
  - by apply turns_permutation.
  - intros b Hb. eexists. simpl. rewrite rr_SelectInstance_eq.
    rewrite decide_False by (by intros ?%nil_length_inv). split; [done|]. simpl.
    rewrite count_of_insert. apply int64_small. lia.
Qed.

(** The router's weighted balancer is exact: with weights that are not
    negative and not all zero, any run of as many consecutive choices as the
    weights add up to chooses each instance that is up as often as its weight
    says. *)
Theorem router_weighted_exact (lb : WeightedLoadBalancer) l i
    (Hw : forall i, i ∈ available l -> 0 <= Weight i) (Hd : NoDup (available l)) (Hi : i ∈ available l)
    (Hpos : 0 < sum Weight (available l)) (Hcount : 0 <= count_of (w_counter lb) (service_of l))
    (Hwrap : count_of (w_counter lb) (service_of l) + sum Weight (available l) < 2 ^ 63) :
  Z.of_nat (length (filter (fun o => o = Ret i)
                      (picks (Z.to_nat (sum Weight (available l))) lb l))) = Weight i.
Proof.
  assert (available l <> []) as Hl by (intros E; rewrite E in Hi; by apply elem_of_nil in Hi).
  set (W := sum Weight (available l)) in *.
  set (choose t := match scan Weight t 0 (available l) with Some i => Ret i | None => Panic end
                   : outcome RouteError ServiceInstance).
  rewrite (picks_turns (fun b => count_of (w_counter b) (service_of l)) (fun c => choose (Z.rem c W)) l);
    [|..|done|lia].
  2: { intros b Hb. eexists. simpl. rewrite weighted_SelectInstance_eq by (done || lia).
       cbn zeta. fold W. rewrite decide_False by lia. split; [done|]. simpl.
       rewrite count_of_insert. apply int64_small. lia. }
  set (c := count_of (w_counter lb) (service_of l)) in *.
  change (fun k => choose (Z.rem (c + Z.of_nat k) W)) with (choose ∘ (fun k => Z.rem (c + Z.of_nat k) W)).
  rewrite list_fmap_compose, turns_targets, length_filter_fmap by lia.
  rewrite (filter_ext_in _ (fun t => scan Weight t 0 (available l) = Some i)).
  - apply scan_count; [done|done|lia|done..].
  - intros t Ht%elem_of_seqZ. unfold choose.
    destruct (scan_some Weight (available l) 0 t) as (x & _ & ->); [done|done|lia|lia|naive_solver].
Qed.

(** ** Routing *)

(** [Route] on every branch, for any balancer that keeps its interface:
    the service type must be mapped, the service known and some instance up;
    then the message goes to a registered instance that is up, its empty
    destination is filled in, and the reply, unless the wait times out, goes
    back to the source with the sequence number, correlation and session of the
    request.  The reply announces a payload of length 0 and carries 20 bytes. *)
Theorem route_spec {B} `{LoadBalancer B} (r : MessageRouter B) sd msg w
    (Hready : forall name l, serviceMap r !! ServiceType msg = Some name ->
                view sd !! name = Some l -> lb_ready (loadBalancer r) l) :
  match serviceMap r !! ServiceType msg with
  | None => Route r sd msg w = (r, msg, Fail (ErrServiceTypeNotFound (ServiceType msg)))
  | Some name =>
      let msg' := fill_destination msg name in
      match view sd !! name with
      | None => Route r sd msg w = (r, msg', Fail (ErrGetInstances (ErrServiceNotFound name)))
      | Some l =>
          if decide (available l = [])
          then Route r sd msg w = (r, msg', Fail (ErrLoadBalancing ErrNoAvailableInstance))
          else exists r' inst, inst ∈ l /\ Status inst = "up"%string /\
            serviceMap r' = serviceMap r /\
            Route r sd msg w = (r', msg', match w with
              | TimedOut => Fail ErrTimeout
              | Responded now => Ret ({| Version := Version msg; Flags := Flags msg;
                  ServiceType := ServiceType msg; MessageType := MessageType msg;
                  SequenceID := SequenceID msg; Timestamp := uwrap 64 now; PayloadLength := 0;
                  SourceService := name; DestinationService := SourceService msg;
                  CorrelationID := CorrelationID msg; SessionID := SessionID msg;
                  Payload := response_text |}, inst)
              end)
      end
  end.
Proof.
  unfold Route, choose_instance, GetServiceName.
  destruct (serviceMap r !! ServiceType msg) as [name|] eqn:Hn; [|done]. cbn zeta.
  rewrite view_lookup in *. unfold GetServiceInstances.
  specialize (Hready name). rewrite view_lookup in Hready.
  destruct (instances sd !! name) as [s|]; [|done]. simpl in *.
  destruct (decide (available (contents sd s) = [])) as [Ha|Ha].
  - rewrite select_none by done. by destruct r.
  - destruct (select_up (loadBalancer r) (contents sd s)) as (b & i & -> & [? ?]%elem_of_available);
      [by apply Hready|done|].
    exists {| loadBalancer := b; serviceMap := serviceMap r |}, i. split_and!; [done..|]. simpl. destruct w; [|done].
    unfold response_to, fill_destination. by case_decide.
Qed.

(** [Broadcast] on every branch: it readdresses the message once the
    service type is known and sends it to exactly the registered instances
    that are up, in order.  When instances are registered but none is up it
    succeeds without sending to anyone. *)
Theorem broadcast_spec {B} `{LoadBalancer B} (r : MessageRouter B) sd msg serviceType :
  Broadcast r sd msg serviceType =
  match serviceMap r !! serviceType with
  | None => (msg, Fail (ErrServiceTypeNotFound serviceType))
  | Some name =>
      (set_destination msg serviceType name,
       match view sd !! name with
       | None => Fail (ErrGetInstances (ErrServiceNotFound name))
       | Some [] => Fail ErrNoAvailableInstance
       | Some l => Ret (filter (fun i => Status i = "up"%string) l)
       end)
  end.
Proof.
  assert (forall l, available l = filter (fun i => Status i = "up"%string) l) as Ha.
  { induction l as [|i l IH]; [done|]. rewrite filter_cons. simpl. unfold is_up.
    rewrite IH. case_bool_decide; by case_decide. }
  unfold Broadcast, GetServiceName. destruct (serviceMap r !! serviceType) as [name|]; [|done].
  rewrite view_lookup. unfold GetServiceInstances.
  destruct (instances sd !! name) as [s|]; [|done]. simpl. rewrite Ha.
  by destruct (contents sd s).
Qed.

(** ** Examples *)

Definition sample_service (id : string) (w : Z) : ServiceInstance :=
  MkServiceInstance id "chat" "10.0.0.1:9000" w "up" 0 ∅.

Definition sample_ops : list sd_op :=
  [OpRegister (sample_service "a" 1); OpRegister (sample_service "b" 2); OpRegister (sample_service "c" 0)].

Definition sample_sd : InMemoryServiceDiscovery :=
  (sd_run (fun n => 2 * n + 1)%nat NewInMemoryServiceDiscovery sample_ops).1.

Example discovery_stale_slice_witness :
  exists s, GetServiceInstances sample_sd "chat" = Ret s /\
    ID <$> contents sample_sd s = ["a"; "b"; "c"]%string /\
    ID <$> contents (DeregisterServiceInstance sample_sd ["chat"%string] "a").1 s = ["b"; "c"; "c"]%string.
Proof.
  destruct (discovery_stale_slice (fun n => 2 * n + 1)%nat sample_ops ["chat"%string] "a"
              (notifyWatchers sample_sd "chat")) as (name & s & i & Hs & Hf & Hi & Hc);
    [vm_compute; reflexivity|].
  change (sd_run _ _ sample_ops).1 with sample_sd in *.
  assert (name = "chat"%string) as ->.
  { unfold GetServiceInstances in Hs.
    change (instances sample_sd) with ({[ "chat"%string := MkSlice 1 3 ]} : gmap string slice) in Hs.
    rewrite lookup_singleton in Hs. by case_decide. }
  exists s. split; [exact Hs|]. vm_compute in Hs. injection Hs as <-.
  split; [vm_compute; reflexivity|]. rewrite Hc. vm_compute in Hf. injection Hf as <-. vm_compute. reflexivity.
Defined.

Definition sample_list : list ServiceInstance :=
  [sample_service "a" 1; sample_service "b" 2; sample_service "c" 0].

Example router_roundrobin_fair_witness :
  picks 3 NewRoundRobinLoadBalancer sample_list ≡ₚ Ret <$> sample_list.
Proof.
  apply (router_roundrobin_fair NewRoundRobinLoadBalancer sample_list);
    vm_compute; [discriminate|discriminate|reflexivity].
Defined.

Example router_weighted_exact_witness :
  Z.of_nat (length (filter (fun o => o = Ret (sample_service "b" 2))
                      (picks 3 NewWeightedLoadBalancer sample_list))) = 2.
Proof.
  apply (router_weighted_exact NewWeightedLoadBalancer sample_list (sample_service "b" 2)).
  - intros i Hi. vm_compute in Hi. repeat (apply elem_of_cons in Hi as [->|Hi]; [vm_compute; discriminate|]).
    by apply elem_of_nil in Hi.
  - apply (bool_decide_unpack _). vm_compute. exact I.
  - apply list_elem_of_further, list_elem_of_here.
  - vm_compute. reflexivity.
  - vm_compute. discriminate.
  - vm_compute. reflexivity.
Defined.

Example route_spec_witness :
  exists r' inst, Status inst = "up"%string /\
    (Route (MkRouter NewRoundRobinLoadBalancer {[ ServiceTypeChat := "chat"%string ]}) sample_sd
       sample_message (Responded 5)).1.1 = r' /\
    exists reply, (Route (MkRouter NewRoundRobinLoadBalancer {[ ServiceTypeChat := "chat"%string ]}) sample_sd
       sample_message (Responded 5)).2 = Ret (reply, inst) /\ CorrelationID reply = "c1"%string.
Proof.
  destruct (route_spec (MkRouter NewRoundRobinLoadBalancer {[ ServiceTypeChat := "chat"%string ]}) sample_sd
              sample_message (Responded 5)) as (r' & inst & _ & Hup & _ & ->).
  - intros name l _ _. simpl. unfold count_of. simpl. rewrite lookup_empty. simpl. lia.
  - exists r', inst. split; [exact Hup|]. split; [reflexivity|]. eexists. split; [reflexivity|reflexivity].
Defined.
