(* ===== verification/Float32.v ===== *)
(** * Floating-point arithmetic

    Go's [float32] is IEEE 754 binary32 with rounding to nearest even, which is
    the Standard Library's [SpecFloat] at precision 24 and maximal exponent
    128; the products and sums of the server are rounded one by one, as on
    amd64.  Converting a value an [int] cannot hold (NaN, an infinity, a number
    beyond the range) is left open by the language, so [to_int] takes what the
    machine does then as a parameter.  A few operations on [float64] (binary64), which
    the statistics use, are at the end. *)

From stdpp Require Import base numbers.
From Stdlib Require Import ZArith Lia.
From Stdlib Require Import SpecFloat.
From S2P Require Import Prelude.

Local Open Scope Z_scope.

Abbreviation float32 := spec_float.

Definition f32_sub : float32 -> float32 -> float32 := SFsub 24 128.
Definition f32_add : float32 -> float32 -> float32 := SFadd 24 128.
Definition f32_mul : float32 -> float32 -> float32 := SFmul 24 128.
Definition f32_div : float32 -> float32 -> float32 := SFdiv 24 128.
Definition f32_lt : float32 -> float32 -> bool := SFltb.
Definition f32_le : float32 -> float32 -> bool := SFleb.

(** [float32(n)] of an integer. *)
Definition f32_of_int (n : Z) : float32 := binary_normalize 24 128 n 0 false.

(** The bit patterns of the type: canonical mantissas and bounded exponents. *)
Definition f32_valid (f : float32) : Prop := valid_binary 24 128 f = true.

Definition f32_is_nan (f : float32) : bool :=
  match f with S754_nan => true | _ => false end.

(** The magnitude of a finite number, rounded down to an integer. *)
Definition mag_floor (m : positive) (e : Z) : Z := Z.shiftl (Zpos m) e.

(** The integer part of a finite number, towards zero. *)
Definition truncate (f : float32) : option Z :=
  match f with
  | S754_zero _ => Some 0
  | S754_finite s m e => Some (if s then - mag_floor m e else mag_floor m e)
  | _ => None
  end.

(** The least integer not below a finite number. *)
Definition ceiling (f : float32) : option Z :=
  match f with
  | S754_zero _ => Some 0
  | S754_finite s m e =>
      let exact := if decide (0 <= e) then true else Zpos m mod 2 ^ (- e) =? 0 in
      Some (if s then - mag_floor m e else if exact then mag_floor m e else mag_floor m e + 1)
  | _ => None
  end.

Definition fits_int (z : Z) : bool := (- 2 ^ 63 <=? z) && (z <? 2 ^ 63).

Section conversion.
Context (conv : float32 -> Z).

(** [int(f)] *)
Definition to_int (f : float32) : Z :=
  match truncate f with
  | Some z => if fits_int z then z else conv f
  | None => conv f
  end.

(** [int(math.Ceil(float64(f)))]: widening to [float64] and rounding up are
    exact for a [float32]. *)
Definition ceil_int (f : float32) : Z :=
  match ceiling f with
  | Some z => if fits_int z then z else conv f
  | None => conv f
  end.
End conversion.

(** ** Rounding keeps magnitudes *)

Lemma digits2_pos_spec p :
  2 ^ (Zpos (digits2_pos p) - 1) <= Zpos p < 2 ^ Zpos (digits2_pos p).
Proof.
  induction p as [p IH|p IH|]; cbn [digits2_pos]; [..|done];
    rewrite Pos2Z.inj_succ, Z.pow_succ_r by lia;
    replace (Z.succ (Zpos (digits2_pos p)) - 1) with (Z.succ (Zpos (digits2_pos p) - 1)) by lia;
    rewrite Z.pow_succ_r by lia; lia.
Qed.

Lemma Zdigits2_le m k : 0 <= m < 2 ^ k -> 0 <= k -> Zdigits2 m <= k.
Proof.
  intros Hm Hk. destruct m as [|p|p]; simpl; [done| |lia].
  pose proof (digits2_pos_spec p) as [Hd _].
  destruct (Z.le_gt_cases (Zpos (digits2_pos p)) k) as [|Hgt]; [done|].
  assert (2 ^ k <= 2 ^ (Zpos (digits2_pos p) - 1)) by (apply Z.pow_le_mono_r; lia). lia.
Qed.

Lemma shr_1_half r : 0 <= shr_m r -> shr_m (shr_1 r) = shr_m r / 2.
Proof.
  destruct r as [[|[p|p|]|p] b s]; simpl; intros; [done| | |done|lia].
  - rewrite Pos2Z.inj_xI, Z.mul_comm, Z.div_add_l by lia. change (1 / 2) with 0. lia.
  - by rewrite Pos2Z.inj_xO, Z.mul_comm, Z.div_mul by lia.
Qed.

Lemma iter_shr_1 p r :
  0 <= shr_m r -> shr_m (iter_pos shr_1 p r) = shr_m r / 2 ^ Zpos p.
Proof.
  revert r. induction p as [p IH|p IH|]; intros r Hr; cbn [iter_pos]; [| |by rewrite shr_1_half].
  - assert (0 <= shr_m (shr_1 r)) by (rewrite shr_1_half by done; apply Z.div_pos; lia).
    rewrite !IH, shr_1_half by (rewrite ?IH; try apply Z.div_pos; done || lia).
    rewrite !Z.div_div by (try apply Z.pow_pos_nonneg; lia). f_equal.
    change 2 with (2 ^ 1) at 1. rewrite <- !Z.pow_add_r by lia. f_equal. lia.
  - rewrite !IH by (rewrite ?IH; try apply Z.div_pos; done || lia).
    rewrite !Z.div_div by (try apply Z.pow_pos_nonneg; lia). f_equal.
    rewrite <- Z.pow_add_r by lia. f_equal. lia.
Qed.

(** A shift to the format's exponent keeps the magnitude below [2 ^ B]. *)
Lemma shr_fexp_bound m e l B :
  0 <= m < 2 ^ (B - e) -> e <= B -> -149 <= B ->
  let '(r, e') := shr_fexp 24 128 m e l in
  e <= e' <= B /\ 0 <= shr_m r < 2 ^ (B - e').
Proof.
  intros Hm He HB. unfold shr_fexp, shr.
  assert (shr_m (shr_record_of_loc m l) = m) as Hl by (by destruct l as [|[]]).
  pose proof (Zdigits2_le m (B - e) Hm ltac:(lia)) as Hd.
  destruct (fexp 24 128 (Zdigits2 m + e) - e) as [|n|n] eqn:En; rewrite ?Hl; [lia| |lia].
  unfold fexp, emin in En. rewrite iter_shr_1, Hl by lia.
  assert (0 < 2 ^ Zpos n) by (apply Z.pow_pos_nonneg; lia).
  split; [lia|]. split; [apply Z.div_pos; lia|]. apply Z.div_lt_upper_bound; [done|].
  rewrite <- Z.pow_add_r by lia. replace (Zpos n + (B - (e + Zpos n))) with (B - e) by lia. lia.
Qed.

(** A number with the given sign that is not larger than [2 ^ B]. *)
Definition magnitude (s : bool) (B : Z) (f : float32) : Prop :=
  match f with
  | S754_zero s' => s' = s
  | S754_finite s' m e => s' = s /\ e <= B /\ Zpos m < 2 ^ (B - e)
  | _ => False
  end.

Lemma round_magnitude s m e l B :
  0 <= m < 2 ^ (B - e) -> e <= B -> -149 <= B <= 103 ->
  magnitude s (B + 1) (binary_round_aux 24 128 s m e l).
Proof.
  intros Hm He HB. unfold binary_round_aux.
  pose proof (shr_fexp_bound m e l B Hm He ltac:(lia)) as H1.
  destruct (shr_fexp 24 128 m e l) as [r e'].
  assert (shr_m r <= round_nearest_even (shr_m r) (loc_of_shr_record r) <= shr_m r + 1) as Hr.
  { destruct (loc_of_shr_record r) as [|[]]; simpl; [lia| |lia|lia]. case_match; lia. }
  assert (2 ^ (B + 1 - e') = 2 * 2 ^ (B - e')).
  { rewrite <- Z.pow_succ_r by lia. f_equal. lia. }
  pose proof (shr_fexp_bound (round_nearest_even (shr_m r) (loc_of_shr_record r)) e' loc_Exact (B + 1)
    ltac:(lia) ltac:(lia) ltac:(lia)) as H2.
  destruct (shr_fexp 24 128 _ e' loc_Exact) as [r2 e2].
  destruct (shr_m r2) as [|p|p]; simpl; [done| |lia].
  destruct (Z.leb_spec e2 (128 - 24)); unfold magnitude; [split_and!; [done|lia..]|lia].
Qed.

(** The quotient of finite numbers is as large as the quotient of their bounds. *)
Lemma div_magnitude s1 m1 e1 s2 m2 e2 a b B :
  Zpos m1 < 2 ^ a -> 2 ^ b <= Zpos m2 -> 0 <= b ->
  e1 - e2 <= B -> a + (e1 - e2) - b <= B -> -149 <= B <= 103 ->
  magnitude (xorb s1 s2) (B + 1) (f32_div (S754_finite s1 m1 e1) (S754_finite s2 m2 e2)).
Proof.
  intros Ha Hb Hb0 He Hab HB. unfold f32_div, SFdiv, SFdiv_core_binary.
  set (e' := Z.min _ (e1 - e2)). assert (e' <= e1 - e2) as He' by (unfold e'; lia).
  assert (match e1 - e2 - e' with
          | Z0 => Zpos m1 | Zpos _ => Z.shiftl (Zpos m1) (e1 - e2 - e') | Zneg _ => 0
          end = Zpos m1 * 2 ^ (e1 - e2 - e')) as Hm.
  { destruct (e1 - e2 - e') eqn:E; [by rewrite Z.mul_1_r|apply Z.shiftl_mul_pow2; lia|lia]. }
  rewrite Hm. clear Hm.
  assert (0 < 2 ^ (e1 - e2 - e')) by (apply Z.pow_pos_nonneg; lia).
  assert (0 <= a) by (destruct (Z.le_gt_cases 0 a); [done|rewrite Z.pow_neg_r in Ha by done; lia]).
  destruct (Z.div_eucl _ _) as [q r] eqn:Eq.
  assert (q = Zpos m1 * 2 ^ (e1 - e2 - e') / Zpos m2) as -> by (unfold Z.div; by rewrite Eq).
  apply round_magnitude; [|lia|done]. split; [apply Z.div_pos; lia|].
  apply Z.div_lt_upper_bound; [lia|].
  apply Z.lt_le_trans with (2 ^ a * 2 ^ (e1 - e2 - e')); [apply Z.mul_lt_mono_pos_r; lia|].
  apply Z.le_trans with (2 ^ b * 2 ^ (B - e')).
  - rewrite <- !Z.pow_add_r by lia. apply Z.pow_le_mono_r; lia.
  - apply Z.mul_le_mono_nonneg_r; [apply Z.pow_nonneg; lia|done].
Qed.

(** Such a number is converted exactly. *)
Lemma to_int_magnitude conv B f :
  magnitude false B f -> 0 <= B <= 62 -> 0 <= to_int conv f < 2 ^ 63.
Proof.
  intros Hf HB. unfold to_int.
  assert (exists z, truncate f = Some z /\ 0 <= z < 2 ^ 63) as (z & -> & Hz).
  { destruct f as [s|s| |s m e]; simpl in *; [by exists 0| done..|].
    destruct Hf as (-> & He & Hm). exists (mag_floor m e). split; [done|]. unfold mag_floor.
    destruct (Z.le_gt_cases 0 e) as [Hpos|Hneg].
    - rewrite Z.shiftl_mul_pow2 by done. split; [lia|].
      apply Z.lt_le_trans with (2 ^ (B - e) * 2 ^ e); [apply Z.mul_lt_mono_pos_r; [|done]; lia|].
      rewrite <- Z.pow_add_r by lia. apply Z.pow_le_mono_r; lia.
    - replace e with (- - e) by lia. rewrite Z.shiftl_opp_r, Z.shiftr_div_pow2 by lia.
      split; [apply Z.div_pos; lia|]. apply Z.div_lt_upper_bound; [lia|].
      rewrite <- Z.pow_add_r by lia. eapply Z.lt_le_trans; [done|]. apply Z.pow_le_mono_r; lia. }
  unfold fits_int. by destruct (Z.leb_spec (- 2 ^ 63) z), (Z.ltb_spec z (2 ^ 63)); simpl; lia.
Qed.

(** ** Double precision *)

Abbreviation float64 := spec_float.

Definition f64_of_int (n : Z) : float64 := binary_normalize 53 1024 n 0 false.
Definition f64_add : float64 -> float64 -> float64 := SFadd 53 1024.
Definition f64_mul : float64 -> float64 -> float64 := SFmul 53 1024.
Definition f64_div : float64 -> float64 -> float64 := SFdiv 53 1024.
