(* ===== verification/FloatOrder.v ===== *)
(** * Order and rounding of [float32]

    The finite numbers of the type are integer multiples of [2 ^ -149], which makes
    their order and their exact sums statements about integers ([f_val]).  Rounding
    never crosses a number of the type, and keeps the sign; from this follow the
    bounds of sums and products that [AoiTest.v] uses. *)

From stdpp Require Import base numbers.
From Stdlib Require Import ZArith Lia SpecFloat.
From S2P Require Import Prelude Float32.

Local Open Scope Z_scope.

(** A finite number in units of [2 ^ -149]. *)
Definition f_val (f : float32) : Z :=
  match f with
  | S754_finite s m e => cond_Zopp s (Zpos m * 2 ^ (e + 149))
  | _ => 0
  end.

(** A number of the type that is neither infinite nor NaN. *)
Definition f_fin (f : float32) : Prop :=
  f32_valid f /\ match f with S754_zero _ | S754_finite _ _ _ => True | _ => False end.

(** ** Canonical mantissas *)

Lemma pow2_split a b : 0 <= b <= a -> 2 ^ a = 2 ^ (a - b) * 2 ^ b.
Proof. intros. rewrite <- Z.pow_add_r by lia. f_equal. lia. Qed.

Lemma pow2_pos a : 0 <= a -> 0 < 2 ^ a.
Proof. intros. by apply Z.pow_pos_nonneg. Qed.

Lemma digits_unique p k : 2 ^ (k - 1) <= Zpos p < 2 ^ k -> 0 < k -> Zpos (digits2_pos p) = k.
Proof.
  intros Hp Hk. pose proof (digits2_pos_spec p) as Hd.
  assert (forall a b, 0 < a -> 0 < b -> 2 ^ (a - 1) < 2 ^ b -> a <= b) as H.
  { intros a b Ha Hb Hlt. apply Z.pow_lt_mono_r_iff in Hlt; lia. }
  assert (Zpos (digits2_pos p) <= k) by (apply H; lia). assert (k <= Zpos (digits2_pos p)) by (apply H; lia). lia.
Qed.

Lemma valid_inv s m e :
  f32_valid (S754_finite s m e) -> -149 <= e <= 104 /\ Zpos m < 2 ^ 24 /\ (e = -149 \/ 2 ^ 23 <= Zpos m).
Proof.
  unfold f32_valid, valid_binary, bounded, canonical_mantissa, fexp, emin. intros [H%Z.eqb_eq He%Z.leb_le]%andb_true_iff.
  pose proof (digits2_pos_spec m) as Hd. split; [lia|]. split.
  - eapply Z.lt_le_trans; [apply Hd|]. apply Z.pow_le_mono_r; lia.
  - destruct (decide (e = -149)); [by left|right]. etrans; [|apply Hd]. apply Z.pow_le_mono_r; lia.
Qed.

Lemma valid_intro s m e :
  -149 <= e <= 104 -> Zpos m < 2 ^ 24 -> e = -149 \/ 2 ^ 23 <= Zpos m -> f32_valid (S754_finite s m e).
Proof.
  intros He Hm Hc. unfold f32_valid, valid_binary, bounded, canonical_mantissa, fexp, emin. apply andb_true_iff.
  split; [apply Z.eqb_eq|apply Z.leb_le; lia].
  destruct (decide (2 ^ 23 <= Zpos m)); [rewrite (digits_unique m 24); lia|].
  pose proof (Zdigits2_le (Zpos m) 24 ltac:(lia) ltac:(lia)) as Hd. cbn in Hd. lia.
Qed.

(** ** Order *)

(** The larger exponent has the larger number. *)
Lemma val_lt_exponent m1 e1 m2 e2 :
  Zpos m1 < 2 ^ 24 -> 2 ^ 23 <= Zpos m2 -> -149 <= e1 < e2 -> Zpos m1 * 2 ^ (e1 + 149) < Zpos m2 * 2 ^ (e2 + 149).
Proof.
  intros H1 H2 He. rewrite (pow2_split (e2 + 149) (e1 + 149)) by lia. replace (e2 + 149 - (e1 + 149)) with (Z.succ (e2 - e1 - 1)) by lia.
  rewrite Z.pow_succ_r by lia. pose proof (pow2_pos (e1 + 149) ltac:(lia)). pose proof (pow2_pos (e2 - e1 - 1) ltac:(lia)).
  rewrite Z.mul_assoc. apply Z.mul_lt_mono_pos_r; [done|]. change (2 ^ 24) with (2 * 2 ^ 23) in H1. nia.
Qed.

Lemma compare_mantissa m1 e1 m2 e2 :
  f32_valid (S754_finite false m1 e1) -> f32_valid (S754_finite false m2 e2) ->
  match Z.compare e1 e2 with Lt => Lt | Gt => Gt | Eq => Pos.compare_cont Eq m1 m2 end =
  Z.compare (Zpos m1 * 2 ^ (e1 + 149)) (Zpos m2 * 2 ^ (e2 + 149)).
Proof.
  intros (He1 & Hm1 & Hc1)%valid_inv (He2 & Hm2 & Hc2)%valid_inv. destruct (Z.compare_spec e1 e2) as [->|Hlt|Hgt].
  - pose proof (pow2_pos (e2 + 149) ltac:(lia)). change (Pos.compare_cont Eq m1 m2) with (Pos.compare m1 m2).
    change (Pos.compare m1 m2) with (Z.compare (Zpos m1) (Zpos m2)). apply Zmult_compare_compat_r. lia.
  - symmetry. apply Z.compare_lt_iff, val_lt_exponent; [done|lia..].
  - symmetry. apply Z.compare_gt_iff, val_lt_exponent; [done|lia..].
Qed.

Lemma val_pos m e : f32_valid (S754_finite false m e) -> 0 < Zpos m * 2 ^ (e + 149).
Proof. intros (He & _)%valid_inv. pose proof (pow2_pos (e + 149) ltac:(lia)). lia. Qed.

(** Comparing finite numbers is comparing integers. *)
Lemma fin_compare a b : f_fin a -> f_fin b -> SFcompare a b = Some (Z.compare (f_val a) (f_val b)).
Proof.
  intros [Ha Hfa] [Hb Hfb]. destruct a as [sa|sa| |sa ma ea], b as [sb|sb| |sb mb eb]; try done; cbn [SFcompare f_val].
  - pose proof (val_pos mb eb Hb). destruct sb; cbn [cond_Zopp]; f_equal; symmetry; [apply Z.compare_gt_iff|apply Z.compare_lt_iff]; lia.
  - pose proof (val_pos ma ea Ha). destruct sa; cbn [cond_Zopp]; f_equal; symmetry; [apply Z.compare_lt_iff|apply Z.compare_gt_iff]; lia.
  - pose proof (val_pos mb eb Hb). pose proof (val_pos ma ea Ha). f_equal. destruct sa, sb; cbn [cond_Zopp].
    + rewrite Z.compare_opp, (Z.compare_antisym (Zpos ma * _)), <- (compare_mantissa ma ea mb eb Ha Hb).
      by destruct (Z.compare ea eb).
    + symmetry. apply Z.compare_lt_iff. lia.
    + symmetry. apply Z.compare_gt_iff. lia.
    + by apply compare_mantissa.
Qed.

Lemma fin_lt a b : f_fin a -> f_fin b -> f32_lt a b = (f_val a <? f_val b).
Proof. intros Ha Hb. unfold f32_lt, SFltb. rewrite (fin_compare a b Ha Hb). unfold Z.ltb. by destruct (Z.compare _ _). Qed.

Lemma fin_le a b : f_fin a -> f_fin b -> f32_le a b = (f_val a <=? f_val b).
Proof. intros Ha Hb. unfold f32_le, SFleb. rewrite (fin_compare a b Ha Hb). unfold Z.leb. by destruct (Z.compare _ _). Qed.

(** ** Rounding *)

(** A shift to the right of [M] by [k] places: the mantissa is the quotient, and the
    two bits are set only if something was shifted out. *)
Record shifted (M k : Z) (r : shr_record) : Prop := {
  sh_nonneg : 0 <= shr_m r;
  sh_le : shr_m r * 2 ^ k <= M < (shr_m r + 1) * 2 ^ k;
  sh_bits : shr_r r || shr_s r = true -> shr_m r * 2 ^ k < M
}.

Lemma shifted_1 M k r : 0 <= k -> shifted M k r -> shifted M (k + 1) (shr_1 r).
Proof.
  intros Hk [Hm Hle Hb]. pose proof (pow2_pos k Hk). rewrite Z.add_1_r.
  destruct r as [[|[p|p|]|p] br bs]; cbn [shr_m shr_r shr_s shr_1] in *; split; cbn [shr_m shr_r shr_s]; rewrite ?Z.pow_succ_r by done;
    rewrite ?orb_false_l, ?orb_true_l; try lia; intros; try (specialize (Hb ltac:(done))); nia.
Qed.

Lemma shifted_iter M p k r : 0 <= k -> shifted M k r -> shifted M (k + Zpos p) (iter_pos shr_1 p r).
Proof.
  revert k r. induction p as [p IH|p IH|]; intros k r Hk Hr; cbn [iter_pos].
  - replace (k + Zpos p~1) with (k + 1 + Zpos p + Zpos p) by lia. apply IH; [lia|]. apply IH; [lia|]. by apply shifted_1.
  - replace (k + Zpos p~0) with (k + Zpos p + Zpos p) by lia. apply IH; [lia|]. by apply IH.
  - by apply shifted_1.
Qed.

(** The number with the rounded mantissa [m] at exponent [e]: a carry shifts once more. *)
Definition pack (s : bool) (m e : Z) : float32 :=
  match m with
  | Zpos p => if decide (m = 2 ^ 24) then (if e + 1 <=? 104 then S754_finite s (2 ^ 23) (e + 1) else S754_infinity s)
              else if e <=? 104 then S754_finite s p e else S754_infinity s
  | _ => S754_zero s
  end.

(** The exponent at which a number is rounded. *)
Definition round_exp (m e : Z) : Z := fexp 24 128 (Zdigits2 m + e).

(** What rounding does: the mantissa becomes the quotient or, if something is cut off, one
    more. *)
Record rounded (m e q m' : Z) : Prop := {
  rd_exp : -149 <= round_exp m e;
  rd_quotient : q * 2 ^ (round_exp m e - e) <= m < (q + 1) * 2 ^ (round_exp m e - e);
  rd_range : 0 <= q < 2 ^ 24;
  rd_normal : round_exp m e = -149 \/ 2 ^ 23 <= q;
  rd_up : m' = q \/ (m' = q + 1 /\ q * 2 ^ (round_exp m e - e) < m)
}.

Lemma quotient_range m e q :
  0 < m -> e <= round_exp m e -> 0 <= q -> q * 2 ^ (round_exp m e - e) <= m < (q + 1) * 2 ^ (round_exp m e - e) ->
  q < 2 ^ 24 /\ (round_exp m e = -149 \/ 2 ^ 23 <= q).
Proof.
  intros Hm He Hq Hb. destruct m as [|p|]; [lia| |lia]. unfold round_exp in *. cbn [Zdigits2] in *. set (E := fexp _ _ _) in *.
  pose proof (digits2_pos_spec p) as Hd. set (D := Zpos (digits2_pos p)) in *. assert (0 < D) by (unfold D; lia).
  assert (D + e - 24 <= E /\ (E = -149 \/ E = D + e - 24)) as [HE HE'] by (unfold E, fexp, emin; lia).
  pose proof (pow2_pos (E - e) ltac:(lia)). split.
  - assert (2 ^ D <= 2 ^ 24 * 2 ^ (E - e)) by (rewrite <- Z.pow_add_r by lia; apply Z.pow_le_mono_r; lia). nia.
  - destruct HE' as [HE'|HE']; [by left|right]. assert (2 ^ (D - 1) = 2 ^ 23 * 2 ^ (E - e)) by (rewrite <- Z.pow_add_r by lia; f_equal; lia). nia.
Qed.

(** Nothing is left to shift once the mantissa has at most 24 digits. *)
Lemma second_shift m e :
  0 <= m <= 2 ^ 24 -> -149 <= e ->
  shr_fexp 24 128 m e loc_Exact = if decide (m = 2 ^ 24) then (Build_shr_record (2 ^ 23) false false, e + 1) else (Build_shr_record m false false, e).
Proof.
  intros Hm He. unfold shr_fexp, shr, fexp, emin. case_decide as Hc.
  - subst m. change (Zdigits2 (2 ^ 24)) with 25. replace (Z.max _ _ - e) with 1 by lia. done.
  - pose proof (Zdigits2_le m 24 ltac:(lia) ltac:(lia)). destruct (Z.max _ _ - e) as [|p|p] eqn:En; [done|lia|done].
Qed.

Lemma first_shift m e :
  0 < m -> e <= round_exp m e -> exists r, shr_fexp 24 128 m e loc_Exact = (r, round_exp m e) /\ shifted m (round_exp m e - e) r.
Proof.
  intros Hm He. unfold shr_fexp. fold (round_exp m e). unfold shr. destruct (round_exp m e - e) as [|p|p] eqn:En; [|..|lia].
  - eexists. split; [f_equal; lia|]. split; cbn; lia.
  - eexists. split; [f_equal; lia|]. apply (shifted_iter m p 0); [done|]. split; cbn; lia.
Qed.

Lemma round_exact s m e :
  0 < m -> e <= round_exp m e ->
  exists q m', binary_round_aux 24 128 s m e loc_Exact = pack s m' (round_exp m e) /\ rounded m e q m'.
Proof.
  intros Hm He. destruct (first_shift m e Hm He) as (r & Hr & [Hq Hle Hbits]). unfold binary_round_aux. rewrite Hr.
  destruct (quotient_range m e (shr_m r) Hm He Hq Hle) as [Hq24 Hn]. exists (shr_m r).
  assert (-149 <= round_exp m e) as HE by (unfold round_exp, fexp, emin; lia).
  set (m' := round_nearest_even _ _). exists m'.
  assert (m' = shr_m r \/ (m' = shr_m r + 1 /\ shr_m r * 2 ^ (round_exp m e - e) < m)) as Hup.
  { unfold m'. destruct r as [q [|] [|]]; cbn in *; [right|destruct (Z.even q); [by left|right]|by left|by left]; (split; [done|by apply Hbits]). }
  split; [|by split]. rewrite second_shift by lia. unfold pack. destruct (decide (m' = 2 ^ 24)) as [->|Hne]; [done|]. cbn [shr_m].
  by destruct m' as [|p|p] eqn:Em; [..|lia].
Qed.

(** Rounding gives numbers of the type. *)
Lemma round_valid s m e : 0 < m -> e <= round_exp m e -> f32_valid (binary_round_aux 24 128 s m e loc_Exact).
Proof.
  intros Hm He. destruct (round_exact s m e Hm He) as (q & m' & -> & [HE _ Hq Hn Hup]). unfold pack.
  destruct m' as [|p|p]; [done| |done]. case_decide as Hc.
  - destruct (Z.leb_spec (round_exp m e + 1) 104); [|done]. apply valid_intro; lia.
  - destruct (Z.leb_spec (round_exp m e) 104); [|done]. apply valid_intro; lia.
Qed.

(** Rounding does not cross a number of the type: what is not above [w 2 ^ k] is not
    above it afterwards; and it does not lose a number that the type can hold. *)
Lemma round_le s m e w k :
  0 < m -> -149 <= e <= round_exp m e -> m * 2 ^ (e + 149) <= w * 2 ^ (k + 149) -> 2 ^ 23 <= w < 2 ^ 24 -> -149 <= k <= 104 ->
  exists p e', binary_round_aux 24 128 s m e loc_Exact = S754_finite s p e' /\ f32_valid (S754_finite s p e') /\
    Zpos p * 2 ^ (e' + 149) <= w * 2 ^ (k + 149).
Proof.
  intros Hm He Hb Hw Hk. destruct (round_exact s m e Hm ltac:(lia)) as (q & m' & -> & [HE Hq Hr Hn Hup]). set (E := round_exp m e) in *.
  assert (2 ^ (E + 149) = 2 ^ (E - e) * 2 ^ (e + 149)) as HEe by (rewrite <- Z.pow_add_r by lia; f_equal; lia).
  pose proof (pow2_pos (e + 149) ltac:(lia)). pose proof (pow2_pos (E + 149) ltac:(lia)). pose proof (pow2_pos (E - e) ltac:(lia)).
  pose proof (pow2_pos (k + 149) ltac:(lia)).
  assert (0 < q) as Hq0. { destruct Hn as [Hn|Hn]; [|lia]. replace (E - e) with 0 in Hq by lia. lia. }
  assert (m' * 2 ^ (E + 149) <= w * 2 ^ (k + 149)) as HW.
  { destruct Hup as [-> |[-> Hlt]]; [nia|]. assert (q * 2 ^ (E + 149) < w * 2 ^ (k + 149)) as Hlt' by nia.
    destruct (Z.le_gt_cases E k) as [HEk|HEk].
    - rewrite (pow2_split (k + 149) (E + 149)) in * by lia. assert (q < w * 2 ^ (k + 149 - (E + 149))) by nia. nia.
    - exfalso. assert (2 ^ 23 <= q) as Hq23 by lia. rewrite (pow2_split (E + 149) (k + 149)) in Hlt' by lia.
      replace (E + 149 - (k + 149)) with (Z.succ (E - k - 1)) in Hlt' by lia. rewrite Z.pow_succ_r in Hlt' by lia.
      pose proof (pow2_pos (E - k - 1) ltac:(lia)). assert (2 ^ 24 <= q * (2 * 2 ^ (E - k - 1))) by (change (2 ^ 24) with (2 ^ 23 * 2); nia). nia. }
  assert (forall x y, 2 ^ 23 <= x -> -149 <= y -> x * 2 ^ (y + 149) <= w * 2 ^ (k + 149) -> y <= k) as Hexp.
  { intros x y Hx Hy Hxy. destruct (Z.le_gt_cases y k) as [|Hgt]; [done|]. exfalso.
    rewrite (pow2_split (y + 149) (k + 149)) in Hxy by lia. replace (y + 149 - (k + 149)) with (Z.succ (y - k - 1)) in Hxy by lia.
    rewrite Z.pow_succ_r in Hxy by lia. pose proof (pow2_pos (y - k - 1) ltac:(lia)).
    assert (2 ^ 24 <= x * (2 * 2 ^ (y - k - 1))) by (change (2 ^ 24) with (2 ^ 23 * 2); nia). nia. }
  unfold pack. destruct m' as [|p|p]; [lia| |lia]. case_decide as Hc.
  - assert (2 ^ 23 * 2 ^ (E + 1 + 149) = Zpos p * 2 ^ (E + 149)) as Hv.
    { rewrite Hc. replace (E + 1 + 149) with (Z.succ (E + 149)) by lia. rewrite Z.pow_succ_r by lia. change (2 ^ 24) with (2 ^ 23 * 2). lia. }
    assert (E + 1 <= k) by (apply (Hexp (2 ^ 23)); lia). rewrite (proj2 (Z.leb_le _ _)) by lia.
    eexists _, _. split; [done|]. split; [apply valid_intro; lia|]. change (Zpos (2 ^ 23)) with (2 ^ 23). lia.
  - assert (E <= 104). { destruct Hn as [Hn|Hn]; [lia|]. assert (E <= k) by (apply (Hexp (Zpos p)); lia). lia. }
    rewrite (proj2 (Z.leb_le _ _)) by lia. eexists _, _. split; [done|]. split; [apply valid_intro; lia|done].
Qed.

(** ** Sums *)

Lemma iter_xO m d : Zpos (Pos.iter xO m d) = Zpos m * 2 ^ Zpos d.
Proof.
  induction d as [|d IH] using Pos.peano_ind; [cbn; lia|]. rewrite Pos.iter_succ, Pos2Z.inj_succ, Z.pow_succ_r by lia.
  rewrite Pos2Z.inj_xO, IH. lia.
Qed.

Lemma shl_align_spec m e e0 : exists p, shl_align m e e0 = (p, Z.min e e0) /\ Zpos p = Zpos m * 2 ^ (e - Z.min e e0).
Proof.
  unfold shl_align. destruct (e0 - e) as [|d|d] eqn:Ed.
  - exists m. split; [f_equal; lia|]. replace (e - Z.min e e0) with 0 by lia. lia.
  - exists m. split; [f_equal; lia|]. replace (e - Z.min e e0) with 0 by lia. lia.
  - eexists. split; [f_equal; lia|]. rewrite iter_xO. do 2 f_equal. lia.
Qed.

Lemma normalize_le s m e w k :
  -149 <= e -> Zpos m * 2 ^ (e + 149) <= w * 2 ^ (k + 149) -> 2 ^ 23 <= w < 2 ^ 24 -> -149 <= k <= 104 ->
  exists p e', binary_round 24 128 s m e = S754_finite s p e' /\ f32_valid (S754_finite s p e') /\
    Zpos p * 2 ^ (e' + 149) <= w * 2 ^ (k + 149).
Proof.
  intros He Hb Hw Hk. unfold binary_round. set (E := fexp _ _ _).
  destruct (shl_align_spec m e E) as (p & -> & Hp). assert (-149 <= E) by (unfold E, fexp, emin; lia).
  pose proof (digits2_pos_spec m) as Hd. set (D := Zpos (digits2_pos m)) in *. set (n := e - Z.min e E) in *. assert (0 <= n) by (unfold n; lia).
  assert (Zpos (digits2_pos p) = D + n) as Hdp.
  { assert (0 < D) by (unfold D; lia). apply digits_unique; [|lia]. rewrite Hp. replace (D + n - 1) with (D - 1 + n) by lia.
    rewrite !Z.pow_add_r by lia. pose proof (pow2_pos n ltac:(lia)). nia. }
  assert (round_exp (Zpos p) (Z.min e E) = E) as HE by (unfold round_exp; cbn [Zdigits2]; rewrite Hdp; by replace (D + n + Z.min e E) with (D + e) by (unfold n; lia)).
  apply round_le; [lia|rewrite HE; lia| |done|done]. rewrite Hp, <- Z.mul_assoc, <- Z.pow_add_r by lia.
  replace (n + (Z.min e E + 149)) with (e + 149) by (unfold n; lia). done.
Qed.

(** The sum of finite numbers: finite, on the same side of zero as the exact sum, and
    not beyond a number of the type that the exact sum is not beyond. *)
Lemma add_bounds x y w k :
  f_fin x -> f_fin y -> Z.abs (f_val x + f_val y) <= w * 2 ^ (k + 149) -> 2 ^ 23 <= w < 2 ^ 24 -> -149 <= k <= 104 ->
  f_fin (f32_add x y) /\ Z.abs (f_val (f32_add x y)) <= w * 2 ^ (k + 149) /\
  Z.sgn (f_val (f32_add x y)) = Z.sgn (f_val x + f_val y).
Proof.
  intros [Hx Hfx] [Hy Hfy] Hb Hw Hk.
  destruct x as [sx|sx| |sx mx ex], y as [sy|sy| |sy my ey]; try done.
  - destruct sx, sy; (split; [by split|split; [exact Hb|done]]).
  - change (f32_add _ _) with (S754_finite sx mx ex). change (f_val (S754_zero sy)) with 0 in *. rewrite Z.add_0_r in *.
    split; [by split|]. split; [exact Hb|done].
  - unfold f32_add. cbn [SFadd].
    destruct (shl_align_spec mx ex (Z.min ex ey)) as (px & -> & Hpx). destruct (shl_align_spec my ey (Z.min ex ey)) as (py & -> & Hpy).
    pose proof (valid_inv _ _ _ Hx) as (Hex & _). pose proof (valid_inv _ _ _ Hy) as (Hey & _). cbn [fst]. rewrite Hpx, Hpy.
    replace (Z.min ex (Z.min ex ey)) with (Z.min ex ey) by lia. replace (Z.min ey (Z.min ex ey)) with (Z.min ex ey) by lia.
    set (e := Z.min ex ey). set (M := cond_Zopp sx _ + cond_Zopp sy _).
    assert (f_val (S754_finite sx mx ex) + f_val (S754_finite sy my ey) = M * 2 ^ (e + 149)) as HM.
    { unfold M. cbn [f_val]. assert (forall z, e <= z -> 2 ^ (z + 149) = 2 ^ (z - e) * 2 ^ (e + 149)) as Hpow.
      { intros z Hz. rewrite <- Z.pow_add_r by lia. f_equal. lia. }
      rewrite (Hpow ex), (Hpow ey) by lia. destruct sx, sy; cbn [cond_Zopp]; lia. }
    rewrite HM in *. pose proof (pow2_pos (e + 149) ltac:(lia)) as HP. unfold binary_normalize.
    destruct M as [|m|m] eqn:EM; [split; [by split|split; [cbn; lia|done]]|..].
    + destruct (normalize_le false m e w k) as (p & e' & -> & Hv & Hle); [lia|lia|done|done|]. pose proof (val_pos p e' Hv).
      split; [by split|]. cbn [f_val cond_Zopp]. split; [lia|]. rewrite !Z.sgn_pos by lia. done.
    + destruct (normalize_le true m e w k) as (p & e' & -> & Hv & Hle); [lia|lia|done|done|]. pose proof (val_pos p e' Hv).
      split; [by split|]. cbn [f_val cond_Zopp]. split; [lia|]. rewrite !Z.sgn_neg by lia. done.
Qed.

(** ** Products and negation *)

Definition f32_neg : float32 -> float32 := SFopp.

Lemma neg_val x : f_val (f32_neg x) = - f_val x.
Proof. destruct x as [s|s| |s m e]; cbn; [done..|]. destruct s; cbn; lia. Qed.

Lemma neg_fin x : f_fin x -> f_fin (f32_neg x).
Proof. by destruct x. Qed.

Lemma round_neg s m e l : binary_round_aux 24 128 (negb s) m e l = f32_neg (binary_round_aux 24 128 s m e l).
Proof.
  unfold binary_round_aux. destruct (shr_fexp 24 128 m e l) as [r e1]. destruct (shr_fexp 24 128 _ e1 _) as [r2 e2].
  destruct (shr_m r2); [done| |done]. by destruct (_ <=? _).
Qed.

(** Turning the sign of a factor turns the sign of the product. *)
Lemma mul_neg x y : f32_mul (f32_neg x) y = f32_neg (f32_mul x y).
Proof.
  unfold f32_mul. destruct x as [sx|sx| |sx mx ex], y as [sy|sy| |sy my ey]; try done; cbn [f32_neg SFopp SFmul]; rewrite ?negb_xorb_l; try done.
  by rewrite <- negb_xorb_l, round_neg.
Qed.

(** The exact product has digits to round, or is below the smallest number. *)
Lemma mul_round_exp sx mx ex sy my ey :
  f32_valid (S754_finite sx mx ex) -> f32_valid (S754_finite sy my ey) -> ex + ey <= round_exp (Zpos (mx * my)) (ex + ey).
Proof.
  intros Hx Hy. apply valid_inv in Hx as (Hex & Hmx & Hcx), Hy as (Hey & Hmy & Hcy).
  unfold round_exp, fexp, emin. cbn [Zdigits2]. destruct (decide (ex + ey <= -149)); [lia|].
  assert (24 <= Zpos (digits2_pos (mx * my))); [|lia].
  pose proof (digits2_pos_spec (mx * my)) as [_ Hd]. assert (2 ^ 23 <= Zpos (mx * my)) as Hge.
  { rewrite Pos2Z.inj_mul. destruct Hcx, Hcy; [lia|nia..]. }
  destruct (Z.le_gt_cases 24 (Zpos (digits2_pos (mx * my)))) as [|Hlt]; [done|].
  assert (2 ^ Zpos (digits2_pos (mx * my)) <= 2 ^ 23) by (apply Z.pow_le_mono_r; lia). lia.
Qed.

(** Products of numbers of the type are numbers of the type. *)
Lemma mul_valid x y : f32_valid x -> f32_valid y -> f32_valid (f32_mul x y).
Proof.
  intros Hx Hy. unfold f32_mul. destruct x as [sx|sx| |sx mx ex], y as [sy|sy| |sy my ey]; try done. cbn [SFmul].
  apply round_valid; [done|]. by apply (mul_round_exp sx mx ex sy my ey).
Qed.

(** Rounding, where the exact number may be far below the smallest of the type. *)
Lemma round_bounds s m e w k :
  0 < m -> -298 <= e <= round_exp m e -> m * 2 ^ (e + 298) <= w * 2 ^ (k + 298) -> 2 ^ 23 <= w < 2 ^ 24 -> -149 <= k <= 104 ->
  exists f, binary_round_aux 24 128 s m e loc_Exact = f /\ f_fin f /\ 0 <= f_val (if s then f32_neg f else f) <= w * 2 ^ (k + 149).
Proof.
  intros Hm He Hb Hw Hk. destruct (round_exact s m e Hm ltac:(lia)) as (q & m' & -> & [HE Hq Hr Hn Hup]). set (E := round_exp m e) in *.
  assert (2 ^ (E + 298) = 2 ^ (E - e) * 2 ^ (e + 298)) as HEe by (rewrite <- Z.pow_add_r by lia; f_equal; lia).
  pose proof (pow2_pos (e + 298) ltac:(lia)). pose proof (pow2_pos (E - e) ltac:(lia)). pose proof (pow2_pos (k + 298) ltac:(lia)).
  assert (q * 2 ^ (E + 298) <= w * 2 ^ (k + 298)) as Hq' by nia.
  assert (E <= k) as HEk.
  { destruct (Z.le_gt_cases E k) as [|Hgt]; [done|]. exfalso. assert (2 ^ 23 <= q) as Hq23 by lia.
    rewrite (pow2_split (E + 298) (k + 298)) in Hq' by lia. replace (E + 298 - (k + 298)) with (Z.succ (E - k - 1)) in Hq' by lia.
    rewrite Z.pow_succ_r in Hq' by lia. pose proof (pow2_pos (E - k - 1) ltac:(lia)).
    assert (2 ^ 24 <= q * (2 * 2 ^ (E - k - 1))) by (change (2 ^ 24) with (2 ^ 23 * 2); nia). nia. }
  pose proof (pow2_pos (E + 298) ltac:(lia)). pose proof (pow2_pos (k - E) ltac:(lia)). pose proof (pow2_pos (E + 149) ltac:(lia)).
  assert (m' <= w * 2 ^ (k - E)) as Hm'.
  { rewrite (pow2_split (k + 298) (E + 298)) in * by lia. replace (k + 298 - (E + 298)) with (k - E) in * by lia.
    destruct Hup as [-> |[-> Hlt]]; [nia|]. assert (q < w * 2 ^ (k - E)) by nia. lia. }
  assert (m' * 2 ^ (E + 149) <= w * 2 ^ (k + 149)) as HW.
  { rewrite (pow2_split (k + 149) (E + 149)) by lia. replace (k + 149 - (E + 149)) with (k - E) by lia. nia. }
  eexists. split; [done|]. unfold pack. destruct m' as [|p|p]; [destruct s; (split; [by split|cbn [f32_neg SFopp f_val]; nia])| |lia]. case_decide as Hc.
  - assert (E + 1 <= k).
    { destruct (Z.le_gt_cases (E + 1) k); [done|]. replace (k - E) with 0 in Hm' by lia. lia. }
    rewrite (proj2 (Z.leb_le _ _)) by lia. split; [split; [apply valid_intro; lia|done]|].
    assert (2 ^ 23 * 2 ^ (E + 1 + 149) = Zpos p * 2 ^ (E + 149)) as Hv.
    { rewrite Hc. replace (E + 1 + 149) with (Z.succ (E + 149)) by lia. rewrite Z.pow_succ_r by lia. change (2 ^ 24) with (2 ^ 23 * 2). lia. }
    destruct s; cbn [f32_neg SFopp negb f_val cond_Zopp]; change (Zpos (2 ^ 23)) with (2 ^ 23); lia.
  - rewrite (proj2 (Z.leb_le _ _)) by lia. split; [split; [apply valid_intro; lia|done]|].
    destruct s; cbn [f32_neg SFopp negb f_val cond_Zopp]; nia.
Qed.

(** The product of finite numbers: finite, not on the other side of zero, and not beyond a number of
    the type that the exact product is not beyond. *)
Lemma mul_bounds x y w k :
  f_fin x -> f_fin y -> Z.abs (f_val x * f_val y) <= w * 2 ^ (k + 298) -> 2 ^ 23 <= w < 2 ^ 24 -> -149 <= k <= 104 ->
  f_fin (f32_mul x y) /\ Z.abs (f_val (f32_mul x y)) <= w * 2 ^ (k + 149) /\
  (0 <= f_val x * f_val y -> 0 <= f_val (f32_mul x y)).
Proof.
  intros [Hx Hfx] [Hy Hfy] Hb Hw Hk. pose proof (mul_valid x y Hx Hy) as Hv. pose proof (pow2_pos (k + 149) ltac:(lia)).
  destruct x as [sx|sx| |sx mx ex], y as [sy|sy| |sy my ey]; try done; unfold f32_mul in *; cbn [SFmul] in *;
    [split; [by split|cbn [f_val]; nia]..|].
  pose proof Hx as (Hex & Hmx & Hcx)%valid_inv. pose proof Hy as (Hey & Hmy & Hcy)%valid_inv.
  assert (f_val (S754_finite sx mx ex) * f_val (S754_finite sy my ey) = cond_Zopp (xorb sx sy) (Zpos (mx * my) * 2 ^ (ex + ey + 298))) as Hprod.
  { cbn [f_val]. replace (ex + ey + 298) with (ex + 149 + (ey + 149)) by lia. rewrite (Z.pow_add_r 2 (ex + 149)) by lia. rewrite Pos2Z.inj_mul.
    destruct sx, sy; cbn [cond_Zopp xorb]; lia. }
  rewrite Hprod in *. pose proof (pow2_pos (ex + ey + 298) ltac:(lia)) as HP.
  destruct (round_bounds (xorb sx sy) (Zpos (mx * my)) (ex + ey) w k) as (f & -> & Hf & Hr); [done| |destruct (xorb sx sy); cbn [cond_Zopp] in Hb; lia|done|done|].
  { split; [lia|]. by apply (mul_round_exp sx mx ex sy my ey). }
  split; [done|]. destruct (xorb sx sy); rewrite ?neg_val in Hr; cbn [cond_Zopp] in *; lia.
Qed.

(** A difference is the sum with the negated number. *)
Lemma sub_neg x y : f32_sub x y = f32_add x (f32_neg y).
Proof.
  unfold f32_sub, f32_add. destruct x as [sx|sx| |sx mx ex], y as [sy|sy| |sy my ey]; cbn [SFsub SFadd f32_neg SFopp]; try done; try (by destruct sx, sy).
Qed.
