(* ===== verification/Aoi.v ===== *)
(** * The area-of-interest grid ([pkg/aoi/aoi.go])

    A square of grids over the scene.  The entities are pointers whose position
    may change under the grid's feet, so every operation takes the state of the
    entities at the call, an [Entities] record, beside the manager; a [*Grid]
    is its position in the two-dimensional array, and an index outside the
    array is a panic. *)

From Stdlib Require Import SpecFloat.
From Stdlib Require Import ZArith Lia.
From stdpp Require Import base gmap strings fin_maps numbers list.
From S2P Require Import Prelude Float32.

Local Open Scope Z_scope.

Abbreviation ptr := nat.

(** The methods of the [Entity] interface on the entities as they are now. *)
Record Entities := MkEntities {
  GetID : ptr -> string;
  GetPosition : ptr -> float32 * float32 * float32;
  GetTypeID : ptr -> Z
}.

(** [GridPos]: the X and Y index of a grid. *)
Definition GridPos : Type := Z * Z.

Record Grid := MkGrid {
  entities : gmap string ptr;
  playerCount : Z
}.

Definition empty_grid : Grid := {| entities := ∅; playerCount := 0 |}.

Record AOIManager := MkAOI {
  minX : float32;
  maxX : float32;
  minZ : float32;
  maxZ : float32;
  gridWidth : float32;
  gridCount : Z;
  grids : gmap GridPos Grid
}.

(** The coordinates did not lie in the scene. *)
Inductive AoiError := ErrOutOfScene (x z : float32).

(** The two initialisation loops. *)
Definition all_positions (n : Z) : list GridPos :=
  seqZ 0 n ≫= fun i => (fun j => (i, j)) <$> seqZ 0 n.

Definition NewAOIManager (minX maxX minZ maxZ : float32) (gridCount : Z) : outcome AoiError AOIManager :=
  panic_unless (0 <=? gridCount);;
  Ret {| minX := minX; maxX := maxX; minZ := minZ; maxZ := maxZ;
         gridWidth := f32_div (f32_sub maxX minX) (f32_of_int gridCount);
         gridCount := gridCount;
         grids := list_to_map ((fun p => (p, empty_grid)) <$> all_positions gridCount) |}.

Definition set_grid (m : AOIManager) (k : GridPos) (g : Grid) : AOIManager :=
  {| minX := minX m; maxX := maxX m; minZ := minZ m; maxZ := maxZ m;
     gridWidth := gridWidth m; gridCount := gridCount m; grids := <[k := g]> (grids m) |}.

Section aoi.
(** What the machine makes of a float an [int] cannot hold. *)
Context (conv : float32 -> Z).

Definition out_of_scene (m : AOIManager) (x z : float32) : bool :=
  f32_lt x (minX m) || f32_le (maxX m) x || f32_lt z (minZ m) || f32_le (maxZ m) z.

(** The index on one axis, with the check against the upper bound. *)
Definition grid_index (m : AOIManager) (v lo : float32) : Z :=
  let i := to_int conv (f32_div (f32_sub v lo) (gridWidth m)) in
  if gridCount m <=? i then gridCount m - 1 else i.

Definition GetGridPosition (m : AOIManager) (x z : float32) : outcome AoiError GridPos :=
  fail_if (out_of_scene m x z) (ErrOutOfScene x z);;
  Ret (grid_index m x (minX m), grid_index m z (minZ m)).

(** Fails as [GetGridPosition] does, and indexes the array. *)
Definition GetGrid (m : AOIManager) (x z : float32) : outcome AoiError GridPos :=
  fail_if (out_of_scene m x z) (ErrOutOfScene x z);;
  let pos := (grid_index m x (minX m), grid_index m z (minZ m)) in
  panic_unless (bool_decide (is_Some (grids m !! pos)));;
  Ret pos.

Definition grid_at (m : AOIManager) (k : GridPos) : Grid := default empty_grid (grids m !! k).

Definition in_array (m : AOIManager) (x y : Z) : bool :=
  (0 <=? x) && (x <? gridCount m) && (0 <=? y) && (y <? gridCount m).

Definition GetSurroundingGridsByRange (m : AOIManager) (centerGrid : GridPos) (range_ : Z) : list GridPos :=
  let '(centerX, centerY) := centerGrid in
  seqZ (centerX - range_) (2 * range_ + 1) ≫= fun x =>
  seqZ (centerY - range_) (2 * range_ + 1) ≫= fun y =>
  if in_array m x y then [(x, y)] else [].

Definition GetSurroundingGrids (m : AOIManager) (x z : float32) (range_ : Z) :
    outcome AoiError (list GridPos) :=
  centerGrid ← GetGrid m x z;
  Ret (GetSurroundingGridsByRange m centerGrid range_).

Section orders.
(** The order in which a range visits a map of entities. *)
Context (order : gmap string ptr -> list (string * ptr)).

(** [for _, entity := range grid.entities { entityMap[entity.GetID()] = entity }] *)
Definition collect (env : Entities) (entityMap es : gmap string ptr) : gmap string ptr :=
  foldl (fun acc kv => <[GetID env kv.2 := kv.2]> acc) entityMap (order es).

Definition GetSurroundingEntities (env : Entities) (m : AOIManager) (x z : float32) (range_ : Z) :
    outcome AoiError (list ptr) :=
  gs ← GetSurroundingGrids m x z range_;
  let entityMap := foldl (fun acc k => collect env acc (entities (grid_at m k))) ∅ gs in
  Ret ((order entityMap).*2).

(** [(dx*dx + dy*dy + dz*dz) <= float32(distanceSquared)] *)
Definition within_distance (env : Entities) (x y z distance : float32) (e : ptr) : bool :=
  let '(ex, ey, ez) := GetPosition env e in
  let dx := f32_sub ex x in
  let dy := f32_sub ey y in
  let dz := f32_sub ez z in
  f32_le (f32_add (f32_add (f32_mul dx dx) (f32_mul dy dy)) (f32_mul dz dz))
         (f32_mul distance distance).

Definition GetEntitiesByDistance (env : Entities) (m : AOIManager) (x y z distance : float32) :
    outcome AoiError (list ptr) :=
  let gridRange := ceil_int conv (f32_div distance (gridWidth m)) in
  es ← GetSurroundingEntities env m x z gridRange;
  Ret (filter (fun e => within_distance env x y z distance e = true) es).
End orders.

(** A player has type 0. *)
Definition is_player (env : Entities) (e : ptr) : bool := GetTypeID env e =? 0.

Definition insert_entity (env : Entities) (m : AOIManager) (k : GridPos) (e : ptr) : AOIManager :=
  let g := grid_at m k in
  set_grid m k {| entities := <[GetID env e := e]> (entities g);
                  playerCount := if is_player env e then playerCount g + 1 else playerCount g |}.

Definition erase_entity (env : Entities) (m : AOIManager) (k : GridPos) (e : ptr) : AOIManager :=
  let g := grid_at m k in
  match entities g !! GetID env e with
  | None => m
  | Some _ =>
      set_grid m k {| entities := delete (GetID env e) (entities g);
                      playerCount := if is_player env e then playerCount g - 1 else playerCount g |}
  end.

Definition AddEntity (env : Entities) (m : AOIManager) (e : ptr) : outcome AoiError AOIManager :=
  let '(x, _, z) := GetPosition env e in
  k ← GetGrid m x z;
  Ret (insert_entity env m k e).

Definition RemoveEntity (env : Entities) (m : AOIManager) (e : ptr) : outcome AoiError AOIManager :=
  let '(x, _, z) := GetPosition env e in
  k ← GetGrid m x z;
  Ret (erase_entity env m k e).

Definition UpdateEntity (env : Entities) (m : AOIManager) (e : ptr) (oldX oldZ : float32) :
    outcome AoiError AOIManager :=
  let '(newX, _, newZ) := GetPosition env e in
  oldGrid ← GetGrid m oldX oldZ;
  newGrid ← GetGrid m newX newZ;
  if decide (oldGrid = newGrid) then Ret m
  else Ret (insert_entity env (erase_entity env m oldGrid e) newGrid e).

Definition GetNearbyPlayers (m : AOIManager) (x z : float32) (range_ : Z) : outcome AoiError Z :=
  gs ← GetSurroundingGrids m x z range_;
  Ret (foldl (fun acc k => acc + playerCount (grid_at m k)) 0 gs).

Definition GetGridSize (m : AOIManager) : Z * Z := (gridCount m, gridCount m).

End aoi.

(** ** Positions *)

(** The array has a grid for each pair of indices below [gridCount]. *)
Definition aoi_wf (m : AOIManager) : Prop :=
  forall x y, is_Some (grids m !! (x, y)) <-> in_array m x y = true.

Lemma in_array_spec m x y :
  in_array m x y = true <-> 0 <= x < gridCount m /\ 0 <= y < gridCount m.
Proof. unfold in_array. rewrite !andb_true_iff, !Z.leb_le, !Z.ltb_lt. lia. Qed.

Lemma elem_of_all_positions n x y : (x, y) ∈ all_positions n <-> 0 <= x < n /\ 0 <= y < n.
Proof.
  unfold all_positions. rewrite list_elem_of_bind. split.
  - intros (i & (j & [= -> ->] & Hj%elem_of_seqZ)%list_elem_of_fmap & Hi%elem_of_seqZ). lia.
  - intros [Hx Hy]. exists x. split; [|apply elem_of_seqZ; lia].
    apply list_elem_of_fmap. exists y. split; [done|apply elem_of_seqZ; lia].
Qed.

Lemma new_aoi_wf a b c d n m : NewAOIManager a b c d n = Ret m -> aoi_wf m /\ 0 <= n.
Proof.
  unfold NewAOIManager, panic_unless. destruct (Z.leb_spec 0 n); [|done]. intros [= <-].
  split; [|done]. intros x y. rewrite in_array_spec. simpl. rewrite <- elem_of_all_positions.
  assert (((fun p => (p, empty_grid)) <$> all_positions n).*1 = all_positions n) as Hk
    by (rewrite <- list_fmap_compose; apply list_fmap_id).
  rewrite <- elem_of_dom, dom_list_to_map_L, Hk. apply elem_of_list_to_set.
Qed.

(** The world of [NewPlayerStateManager]: 1000 by 1000 units in 20 by 20 grids. *)
Record game_world (m : AOIManager) : Prop := {
  gw_minX : minX m = f32_of_int 0;
  gw_maxX : maxX m = f32_of_int 1000;
  gw_minZ : minZ m = f32_of_int 0;
  gw_maxZ : maxZ m = f32_of_int 1000;
  gw_width : gridWidth m = f32_of_int 50;
  gw_count : gridCount m = 20;
  gw_wf : aoi_wf m
}.

Lemma new_game_world :
  exists m, NewAOIManager (f32_of_int 0) (f32_of_int 1000) (f32_of_int 0) (f32_of_int 1000) 20 = Ret m /\
            game_world m.
Proof.
  eexists. split; [reflexivity|].
  split; [reflexivity..|]. by eapply (new_aoi_wf _ _ _ _ 20).
Qed.

Lemma valid_mantissa s m e : f32_valid (S754_finite s m e) -> Zpos m < 2 ^ 24.
Proof.
  unfold f32_valid, valid_binary, bounded, canonical_mantissa, fexp, emin. intros [H%Z.eqb_eq _]%andb_true_iff.
  pose proof (digits2_pos_spec m) as [_ Hm]. eapply Z.lt_le_trans; [done|].
  apply Z.pow_le_mono_r; lia.
Qed.

(** A coordinate in the world falls in one of the twenty columns, although the
    quotient is rounded. *)
Lemma game_world_index conv m v :
  game_world m -> f32_valid v -> f32_is_nan v = false ->
  f32_lt v (f32_of_int 0) = false -> f32_le (f32_of_int 1000) v = false ->
  0 <= grid_index conv m v (f32_of_int 0) < 20.
Proof.
  intros Hw Hv Hn Hlo Hhi.
  assert (0 <= to_int conv (f32_div (f32_sub v (f32_of_int 0)) (f32_of_int 50)) < 2 ^ 63) as Hb.
  { destruct v as [s|s| |s p e]; [by destruct s|by destruct s|done|]. destruct s; [done|].
    change (f32_of_int 50) with (S754_finite false 13107200 (-18)).
    change (f32_sub (S754_finite false p e) (f32_of_int 0)) with (S754_finite false p e).
    apply (to_int_magnitude conv 6); [|lia].
    assert (e <= -14) as He.
    { unfold f32_le, SFleb in Hhi.
      change (f32_of_int 1000) with (S754_finite false 16384000 (-14)) in Hhi.
      destruct (Z.le_gt_cases e (-14)) as [|Hgt]; [done|]. unfold SFcompare in Hhi.
      by rewrite (proj2 (Z.compare_lt_iff (-14) e) Hgt) in Hhi. }
    apply (div_magnitude false p e false 13107200 (-18) 24 23 5); [|done|done|lia|lia|done].
    by eapply valid_mantissa. }
  unfold grid_index. rewrite (gw_width m Hw), (gw_count m Hw).
  destruct (Z.leb_spec 20 (to_int conv (f32_div (f32_sub v (f32_of_int 0)) (f32_of_int 50)))); lia.
Qed.

(** A position of the game world. *)
Definition in_world (x z : float32) : Prop :=
  (f32_valid x /\ f32_is_nan x = false /\ f32_lt x (f32_of_int 0) = false /\ f32_le (f32_of_int 1000) x = false) /\
  (f32_valid z /\ f32_is_nan z = false /\ f32_lt z (f32_of_int 0) = false /\ f32_le (f32_of_int 1000) z = false).

Lemma game_world_GetGrid conv m x z :
  game_world m -> in_world x z -> exists i j, GetGrid conv m x z = Ret (i, j) /\ 0 <= i < 20 /\ 0 <= j < 20.
Proof.
  intros Hw ((Hx & Hxn & Hx0 & Hx1) & (Hz & Hzn & Hz0 & Hz1)).
  pose proof (game_world_index conv m x Hw Hx Hxn Hx0 Hx1) as Hi.
  pose proof (game_world_index conv m z Hw Hz Hzn Hz0 Hz1) as Hj.
  unfold GetGrid, fail_if, out_of_scene.
  rewrite (gw_minX m Hw), (gw_minZ m Hw), (gw_maxX m Hw), (gw_maxZ m Hw), Hx0, Hx1, Hz0, Hz1. gosimpl.
  unfold panic_unless. rewrite bool_decide_true; [eauto|].
  apply (gw_wf m Hw), in_array_spec. by rewrite (gw_count m Hw).
Qed.

(** In the server's world every pair of coordinates that are numbers finds
    its grid or is refused: [GetGrid] fails exactly outside the scene, and
    otherwise the rounded quotients are indices of the 20 by 20 array, so that
    the array access does not panic, whatever the machine does with floats
    that fit no [int]. *)
Theorem aoi_get_grid_total conv m x z
    (Hworld : game_world m) (Hx : f32_valid x) (Hz : f32_valid z)
    (Hxn : f32_is_nan x = false) (Hzn : f32_is_nan z = false) :
  match GetGrid conv m x z with
  | Ret (i, j) => out_of_scene m x z = false /\ 0 <= i < 20 /\ 0 <= j < 20
  | Fail e => out_of_scene m x z = true /\ e = ErrOutOfScene x z
  | Panic => False
  end.
Proof.
  destruct (out_of_scene m x z) eqn:Ho; [unfold GetGrid, fail_if; by rewrite Ho|].
  unfold out_of_scene in Ho. rewrite !orb_false_iff in Ho. destruct Ho as [[[Ho1 Ho2] Ho3] Ho4].
  rewrite (gw_minX m Hworld), (gw_minZ m Hworld), (gw_maxX m Hworld), (gw_maxZ m Hworld) in *.
  by destruct (game_world_GetGrid conv m x z) as (i & j & -> & ?).
Qed.

(** A coordinate that is not a number passes the range check, as every
    comparison with it is false, and the server panics on it whenever the
    machine converts NaN to a negative integer, as amd64 does. *)
Theorem aoi_nan_panics conv m z
    (Hworld : game_world m) (Hz : out_of_scene m S754_nan z = false) (Hconv : conv S754_nan < 0) :
  GetGrid conv m S754_nan z = Panic.
Proof.
  assert (grid_index conv m S754_nan (minX m) = conv S754_nan) as Hi.
  { unfold grid_index. change (f32_div (f32_sub S754_nan (minX m)) (gridWidth m)) with S754_nan.
    change (to_int conv S754_nan) with (conv S754_nan). rewrite (gw_count m Hworld).
    destruct (Z.leb_spec 20 (conv S754_nan)); [lia|done]. }
  unfold GetGrid, fail_if. rewrite Hz. gosimpl. unfold panic_unless. rewrite Hi.
  rewrite bool_decide_false; [done|]. intros Hin%(gw_wf m Hworld)%in_array_spec. lia.
Qed.

(** The surrounding grids are exactly the grids of the array at most
    [range_] away from the centre on both axes, each once. *)
Theorem aoi_surrounding_exact m cx cy range_ :
  NoDup (GetSurroundingGridsByRange m (cx, cy) range_) /\
  forall x y, (x, y) ∈ GetSurroundingGridsByRange m (cx, cy) range_ <->
    (0 <= x < gridCount m /\ 0 <= y < gridCount m) /\ Z.abs (x - cx) <= range_ /\ Z.abs (y - cy) <= range_.
Proof.
  assert (forall x y x' y', (x, y) ∈ (if in_array m x' y' then [(x', y')] else []) <->
            x = x' /\ y = y' /\ in_array m x' y' = true) as Hif.
  { intros x y x' y'. destruct (in_array m x' y'); [|set_solver].
    rewrite list_elem_of_singleton. naive_solver. }
  split.
  - apply NoDup_bind; [|intros x _; apply NoDup_bind|apply NoDup_seqZ].
    + intros x1 x2 [x y] _ _ (y1 & (-> & _)%Hif & _)%list_elem_of_bind (y2 & (-> & _)%Hif & _)%list_elem_of_bind.
      done.
    + intros y1 y2 [x' y'] _ _ (_ & -> & _)%Hif (_ & -> & _)%Hif. done.
    + intros y _. destruct (in_array m x y); [apply NoDup_singleton|constructor].
    + apply NoDup_seqZ.
  - intros x y. unfold GetSurroundingGridsByRange. rewrite list_elem_of_bind, <- in_array_spec. split.
    + intros (x' & (y' & (-> & -> & Hin)%Hif & Hy%elem_of_seqZ)%list_elem_of_bind & Hx%elem_of_seqZ).
      split; [done|]. lia.
    + intros [Hin Hr]. exists x. split; [|apply elem_of_seqZ; lia].
      apply list_elem_of_bind. exists y. split; [by apply Hif|apply elem_of_seqZ; lia].
Qed.

(** ** Placement *)

(** The abstract content of the grids: each known ID with its entity and the
    grid it is in. *)
Abbreviation placement := (gmap string (ptr * GridPos)).

(** The players of a map of entities. *)
Definition players (env : Entities) (es : gmap string ptr) : gmap string ptr :=
  filter (fun kv => is_player env kv.2 = true) es.

(** Every grid holds the entities placed in it, under their IDs, and counts its
    players. *)
Record placed (env : Entities) (m : AOIManager) (P : placement) : Prop := {
  pl_entities k g id e : grids m !! k = Some g -> entities g !! id = Some e <-> P !! id = Some (e, k);
  pl_count k g : grids m !! k = Some g -> playerCount g = Z.of_nat (size (players env (entities g)));
  pl_known id e k : P !! id = Some (e, k) -> is_Some (grids m !! k) /\ GetID env e = id;
  pl_wf : aoi_wf m
}.

(** The constants of the scene and the array's shape. *)
Definition same_scene (m m' : AOIManager) : Prop :=
  minX m' = minX m /\ maxX m' = maxX m /\ minZ m' = minZ m /\ maxZ m' = maxZ m /\
  gridWidth m' = gridWidth m /\ gridCount m' = gridCount m /\
  forall k, is_Some (grids m' !! k) <-> is_Some (grids m !! k).

#[export] Instance same_scene_preorder : PreOrder same_scene.
Proof.
  split; [by intros m; unfold same_scene|]. intros m1 m2 m3 H1 H2. unfold same_scene in *.
  destruct_and!. split_and!; try congruence. intros k. naive_solver.
Qed.

Lemma set_grid_scene m k g : is_Some (grids m !! k) -> same_scene m (set_grid m k g).
Proof.
  intros Hk. unfold same_scene. simpl. split_and!; try done. intros k'. rewrite lookup_insert.
  case_decide; subst; naive_solver.
Qed.

Lemma same_scene_GetGrid conv m m' x z :
  same_scene m m' -> GetGrid conv m' x z = GetGrid conv m x z.
Proof.
  intros (E1 & E2 & E3 & E4 & E5 & E6 & E7). unfold GetGrid, out_of_scene, grid_index.
  rewrite E1, E2, E3, E4, E5, E6. by erewrite bool_decide_ext by apply E7.
Qed.

Lemma same_scene_world m m' : same_scene m m' -> game_world m -> game_world m'.
Proof.
  intros (E1 & E2 & E3 & E4 & E5 & E6 & E7) Hw. destruct Hw. split; try congruence.
  intros x y. rewrite E7, (gw_wf0 x y). unfold in_array. by rewrite E6.
Qed.

Lemma same_scene_wf m m' : same_scene m m' -> aoi_wf m -> aoi_wf m'.
Proof.
  intros (_ & _ & _ & _ & _ & E6 & E7) Hw x y. rewrite E7, (Hw x y). unfold in_array. by rewrite E6.
Qed.

Lemma GetGrid_in conv m x z k : GetGrid conv m x z = Ret k -> is_Some (grids m !! k).
Proof.
  unfold GetGrid, fail_if, panic_unless. destruct (out_of_scene m x z); [done|]. gosimpl.
  case_bool_decide; gosimpl; [|done]. by intros [= <-].
Qed.

Lemma players_insert env es id e :
  es !! id = None ->
  Z.of_nat (size (players env (<[id := e]> es)))
  = Z.of_nat (size (players env es)) + (if is_player env e then 1 else 0).
Proof.
  intros Hn. unfold players. destruct (is_player env e) eqn:He.
  - rewrite map_filter_insert_True by done. rewrite map_size_insert_None; [lia|].
    apply map_lookup_filter_None. auto.
  - rewrite map_filter_insert_not' by (simpl; congruence). lia.
Qed.

Lemma players_delete env es id e :
  es !! id = Some e ->
  Z.of_nat (size (players env (delete id es)))
  = Z.of_nat (size (players env es)) - (if is_player env e then 1 else 0).
Proof.
  intros Hs. rewrite <- (insert_delete_id es id e Hs) at 2.
  rewrite players_insert by apply lookup_delete_eq. lia.
Qed.

Lemma insert_entity_placed env m P k e :
  placed env m P -> is_Some (grids m !! k) -> P !! GetID env e = None ->
  placed env (insert_entity env m k e) (<[GetID env e := (e, k)]> P) /\
  same_scene m (insert_entity env m k e).
Proof.
  intros HP Hk HN. pose proof (set_grid_scene m k) as Hscene. destruct Hk as [g Hg].
  assert (entities g !! GetID env e = None) as Hge.
  { apply eq_None_not_Some. intros [e' He']. apply (pl_entities env m P HP k g) in He'; congruence. }
  unfold insert_entity, grid_at. rewrite Hg. simpl.
  split; [split|apply Hscene; eauto].
  - intros k' g' id e'. simpl. rewrite lookup_insert. destruct (decide (k = k')) as [<-|Hne].
    + intros [= <-]. simpl. rewrite !lookup_insert. case_decide; subst; [split; congruence|].
      by apply HP.
    + intros Hg'. rewrite (pl_entities env m P HP k' g' id e' Hg'), lookup_insert.
      case_decide; subst; [|done]. rewrite HN. split; congruence.
  - intros k' g'. simpl. rewrite lookup_insert. case_decide; [|apply HP]. subst. intros [= <-]. simpl.
    rewrite players_insert, (pl_count env m P HP k' g Hg) by done. destruct (is_player env e); lia.
  - intros id e' k'. rewrite lookup_insert. case_decide; subst.
    + intros [= <- <-]. split; [|done]. apply Hscene; eauto.
    + intros [H1 H2]%(pl_known env m P HP). split; [|done]. apply Hscene; eauto.
  - eapply same_scene_wf; [by apply Hscene; eauto|apply HP].
Qed.

Lemma erase_entity_placed env m P k e :
  placed env m P -> P !! GetID env e = Some (e, k) ->
  placed env (erase_entity env m k e) (delete (GetID env e) P) /\
  same_scene m (erase_entity env m k e).
Proof.
  intros HP He. pose proof (set_grid_scene m k) as Hscene.
  destruct (pl_known env m P HP _ _ _ He) as [[g Hg] _].
  apply (pl_entities env m P HP k g) in He as Hge; [|done].
  unfold erase_entity, grid_at. rewrite Hg. simpl. rewrite Hge.
  split; [split|apply Hscene; eauto].
  - intros k' g' id e'. simpl. rewrite lookup_insert. destruct (decide (k = k')) as [<-|Hne].
    + intros [= <-]. simpl. rewrite !lookup_delete. case_decide; [done|]. by apply HP.
    + intros Hg'. rewrite (pl_entities env m P HP k' g' id e' Hg'), lookup_delete.
      case_decide; subst; [|done]. rewrite He. split; congruence.
  - intros k' g'. simpl. rewrite lookup_insert. case_decide; [|apply HP]. subst. intros [= <-]. simpl.
    rewrite (players_delete env _ _ e Hge), (pl_count env m P HP k' g Hg).
    destruct (is_player env e); lia.
  - intros id e' k'. rewrite lookup_delete. case_decide; [done|].
    intros [H1 H2]%(pl_known env m P HP). split; [|done]. apply Hscene; eauto.
  - eapply same_scene_wf; [by apply Hscene; eauto|apply HP].
Qed.

(** An entity that is not in the grid is not removed from it. *)
Lemma erase_entity_absent env m P k e :
  placed env m P -> (forall e', P !! GetID env e <> Some (e', k)) -> erase_entity env m k e = m.
Proof.
  intros HP He. unfold erase_entity, grid_at. destruct (grids m !! k) as [g|] eqn:Hg; simpl; [|done].
  destruct (entities g !! GetID env e) as [e'|] eqn:Hge; [|done].
  apply (pl_entities env m P HP k g) in Hge; [|done]. by destruct (He e').
Qed.

(** A new manager has no entity. *)
Lemma new_aoi_placed env a b c d n m : NewAOIManager a b c d n = Ret m -> placed env m ∅.
Proof.
  intros Hm. destruct (new_aoi_wf _ _ _ _ _ _ Hm) as [Hw _].
  assert (forall k g, grids m !! k = Some g -> g = empty_grid) as He.
  { unfold NewAOIManager, panic_unless in Hm. destruct (0 <=? n); [|done]. injection Hm as <-.
    intros k g Hk%elem_of_list_to_map_2. apply list_elem_of_fmap in Hk as (p & [= _ ->] & _). done. }
  split; [| | |done].
  - intros k g id e ->%He. simpl. by rewrite !lookup_empty.
  - intros k g ->%He. unfold players. simpl. by rewrite map_filter_empty, map_size_empty.
  - intros id e k. by rewrite lookup_empty.
Qed.

(** Placement only depends on the IDs of the placed entities and on types. *)
Lemma placed_env_ext env env' m P :
  (forall id e k, P !! id = Some (e, k) -> GetID env' e = GetID env e) ->
  (forall e, GetTypeID env' e = GetTypeID env e) ->
  placed env m P -> placed env' m P.
Proof.
  intros Hid Hty HP. split.
  - apply HP.
  - intros k g Hg. rewrite (pl_count env m P HP k g Hg). do 2 f_equal. unfold players, is_player.
    apply map_filter_ext. intros. by rewrite Hty.
  - intros id e k He. rewrite (Hid id e k He). by apply HP.
  - apply HP.
Qed.

Lemma AddEntity_placed conv env m P e x y z k :
  placed env m P -> GetPosition env e = (x, y, z) -> GetGrid conv m x z = Ret k ->
  P !! GetID env e = None ->
  exists m', AddEntity conv env m e = Ret m' /\ same_scene m m' /\
             placed env m' (<[GetID env e := (e, k)]> P).
Proof.
  intros HP Hpos Hk HN. unfold AddEntity. rewrite Hpos, Hk. gosimpl. eexists. split; [done|].
  destruct (insert_entity_placed env m P k e) as [? ?]; eauto using GetGrid_in.
Qed.

Lemma RemoveEntity_placed conv env m P e x y z k :
  placed env m P -> GetPosition env e = (x, y, z) -> GetGrid conv m x z = Ret k ->
  P !! GetID env e = Some (e, k) ->
  exists m', RemoveEntity conv env m e = Ret m' /\ same_scene m m' /\
             placed env m' (delete (GetID env e) P).
Proof.
  intros HP Hpos Hk He. unfold RemoveEntity. rewrite Hpos, Hk. gosimpl. eexists. split; [done|].
  destruct (erase_entity_placed env m P k e) as [? ?]; eauto.
Qed.

Lemma UpdateEntity_placed conv env m P e x y z oldX oldZ k0 k1 :
  placed env m P -> GetPosition env e = (x, y, z) ->
  GetGrid conv m oldX oldZ = Ret k0 -> GetGrid conv m x z = Ret k1 ->
  P !! GetID env e = Some (e, k0) ->
  exists m', UpdateEntity conv env m e oldX oldZ = Ret m' /\ same_scene m m' /\
             placed env m' (<[GetID env e := (e, k1)]> P).
Proof.
  intros HP Hpos Hk0 Hk1 He. unfold UpdateEntity. rewrite Hpos, Hk0, Hk1. gosimpl.
  case_decide as Heq; subst.
  - exists m. split_and!; [done..|]. by rewrite insert_id.
  - destruct (erase_entity_placed env m P k0 e HP He) as [HP' Hs].
    destruct (insert_entity_placed env (erase_entity env m k0 e) (delete (GetID env e) P) k1 e)
      as [HP'' Hs']; [done| |apply lookup_delete_eq|].
    { apply Hs. by eapply GetGrid_in. }
    eexists. split_and!; [done|by etrans|]. by rewrite insert_delete_eq in HP''.
Qed.

(** C13: moving an entity keeps the grids exact: when it is placed in the grid
    of its old position and its new position is in the scene, [UpdateEntity]
    places it in the grid of the new position and in no other, leaves every
    other entity where it was, and every grid still counts its players. *)
Theorem aoi_update_moves conv env m P e x y z oldX oldZ k0 k1
    (HP : placed env m P) (Hpos : GetPosition env e = (x, y, z))
    (Hold : GetGrid conv m oldX oldZ = Ret k0) (Hnew : GetGrid conv m x z = Ret k1)
    (He : P !! GetID env e = Some (e, k0)) :
  exists m', UpdateEntity conv env m e oldX oldZ = Ret m' /\
             placed env m' (<[GetID env e := (e, k1)]> P) /\
             forall x z, GetGrid conv m' x z = GetGrid conv m x z.
Proof.
  destruct (UpdateEntity_placed conv env m P e x y z oldX oldZ k0 k1) as (m' & Hu & Hs & HP'); [done..|].
  exists m'. split_and!; [done..|]. intros. by apply same_scene_GetGrid.
Qed.

(** ** Queries *)

(** [k] is at most [r] grids away from [c] on both axes. *)
Definition near (c k : GridPos) (r : Z) : Prop :=
  Z.abs (k.1 - c.1) <= r /\ Z.abs (k.2 - c.2) <= r.

#[export] Instance near_dec c k r : Decision (near c k r).
Proof. unfold near. apply _. Defined.

Lemma elem_of_surrounding m c r k :
  aoi_wf m -> k ∈ GetSurroundingGridsByRange m c r <-> is_Some (grids m !! k) /\ near c k r.
Proof.
  intros Hw. destruct c as [cx cy], k as [x y]. rewrite (Hw x y). unfold near. simpl.
  rewrite list_elem_of_bind. split.
  - intros (x' & (y' & Hin & Hy%elem_of_seqZ)%list_elem_of_bind & Hx%elem_of_seqZ).
    destruct (in_array m x' y') eqn:E; [|by apply elem_of_nil in Hin].
    apply list_elem_of_singleton in Hin as [= -> ->]. split; [done|lia].
  - intros [Hin Hr]. exists x. split; [|apply elem_of_seqZ; lia]. apply list_elem_of_bind.
    exists y. rewrite Hin. split; [apply list_elem_of_here|apply elem_of_seqZ; lia].
Qed.

Lemma NoDup_surrounding m c r : NoDup (GetSurroundingGridsByRange m c r).
Proof.
  destruct c as [cx cy].
  assert (forall k x y, k ∈ (if in_array m x y then [(x, y)] else []) -> k = (x, y)) as Hif.
  { intros k x y. destruct (in_array m x y); [apply list_elem_of_singleton|by intros ?%elem_of_nil]. }
  apply NoDup_bind; [|intros x _; apply NoDup_bind|apply NoDup_seqZ].
  - intros x1 x2 k _ _ (y1 & ->%Hif & _)%list_elem_of_bind (y2 & [= -> ->]%Hif & _)%list_elem_of_bind. done.
  - intros y1 y2 k _ _ ->%Hif [= ->]%Hif. done.
  - intros y _. destruct (in_array m x y); [apply NoDup_singleton|constructor].
  - apply NoDup_seqZ.
Qed.

(** The players of one grid are the players placed in it. *)
Lemma grid_count env m P k :
  placed env m P -> is_Some (grids m !! k) ->
  playerCount (grid_at m k)
  = Z.of_nat (size (filter (fun p : string * (ptr * GridPos) => is_player env p.2.1 = true /\ p.2.2 = k) P)).
Proof.
  intros HP [g Hg]. unfold grid_at. rewrite Hg. simpl. rewrite (pl_count env m P HP k g Hg). f_equal.
  rewrite <- (map_size_fmap fst (filter _ P)). f_equal. apply map_eq. intros id.
  apply option_eq. intros e. unfold players. rewrite map_lookup_filter_Some, lookup_fmap, fmap_Some.
  rewrite (pl_entities env m P HP k g id e Hg). setoid_rewrite map_lookup_filter_Some. simpl. split.
  - intros [HPid He]. by exists (e, k).
  - intros ([e' k'] & (HPid & He & Hk) & Heq). simpl in *. by subst.
Qed.

Lemma count_cons (Q : string * (ptr * GridPos) -> bool) (P : placement) k ks :
  k ∉ ks ->
  size (filter (fun p => Q p = true /\ p.2.2 ∈ k :: ks) P)
  = (size (filter (fun p => Q p = true /\ p.2.2 = k) P)
     + size (filter (fun p => Q p = true /\ p.2.2 ∈ ks) P))%nat.
Proof.
  intros Hk.
  assert (filter (fun p : string * (ptr * GridPos) => Q p = true /\ p.2.2 = k) P
          ##ₘ filter (fun p => Q p = true /\ p.2.2 ∈ ks) P) as Hd.
  { apply map_disjoint_spec. intros id p p' [H1 [_ H2]]%map_lookup_filter_Some
      [H3 [_ H4]]%map_lookup_filter_Some. simpl in *. congruence. }
  rewrite <- map_size_disj_union by done. f_equal. apply map_eq. intros id. apply option_eq. intros p.
  rewrite lookup_union_Some by done. rewrite !map_lookup_filter_Some. simpl. rewrite elem_of_cons. tauto.
Qed.

Lemma sum_counts env m P ks acc :
  placed env m P -> NoDup ks -> (forall k, k ∈ ks -> is_Some (grids m !! k)) ->
  foldl (fun acc k => acc + playerCount (grid_at m k)) acc ks
  = acc + Z.of_nat (size (filter (fun p : string * (ptr * GridPos) =>
                            is_player env p.2.1 = true /\ p.2.2 ∈ ks) P)).
Proof.
  intros HP. revert acc. induction ks as [|k ks IH]; intros acc Hd Hin; simpl.
  - rewrite map_empty_filter_2; [rewrite map_size_empty; lia|].
    intros id p _ [_ Hp]. by apply elem_of_nil in Hp.
  - apply NoDup_cons in Hd as [Hk Hd]. rewrite IH by (done || intros; apply Hin; set_solver).
    rewrite (grid_count env m P k HP) by (apply Hin; set_solver).
    rewrite (count_cons (fun p => is_player env p.2.1)) by done. lia.
Qed.

Lemma nearby_players_placed conv env m P x z c range_
    (HP : placed env m P) (Hc : GetGrid conv m x z = Ret c) :
  GetNearbyPlayers conv m x z range_
  = Ret (Z.of_nat (size (filter (fun p : string * (ptr * GridPos) =>
                           GetTypeID env p.2.1 = 0 /\ near c p.2.2 range_) P))).
Proof.
  unfold GetNearbyPlayers, GetSurroundingGrids. rewrite Hc. gosimpl. f_equal.
  rewrite (sum_counts env m P).
  - rewrite Z.add_0_l. do 2 f_equal. apply map_filter_ext. intros id p Hp. simpl.
    destruct (pl_known env m P HP id p.1 p.2) as [Hg _]; [by destruct p|].
    rewrite elem_of_surrounding by apply HP. unfold is_player. rewrite Z.eqb_eq. tauto.
  - done.
  - apply NoDup_surrounding.
  - intros k [? _]%elem_of_surrounding; [done|apply HP].
Qed.

(** [GetNearbyPlayers] counts exactly the players placed in the grids at
    most [range_] away, on both axes, from the grid of the coordinates. *)
Theorem aoi_nearby_players conv env m P x z c range_
    (HP : placed env m P) (Hc : GetGrid conv m x z = Ret c) :
  GetNearbyPlayers conv m x z range_
  = Ret (Z.of_nat (size (filter (fun p : string * (ptr * GridPos) =>
                           GetTypeID env p.2.1 = 0 /\ near c p.2.2 range_) P))).
Proof. by apply nearby_players_placed. Qed.

(** The entities of a grid enter the collection under their own IDs. *)
Lemma collect_list env l (acc : gmap string ptr) id :
  NoDup l.*1 -> (forall k e, (k, e) ∈ l -> GetID env e = k) ->
  foldl (fun acc kv => <[GetID env kv.2 := kv.2]> acc) acc l !! id
  = match (list_to_map l : gmap string ptr) !! id with Some e => Some e | None => acc !! id end.
Proof.
  revert acc. induction l as [|[k e] l IH]; intros acc Hd Hid; [done|].
  rewrite fmap_cons, NoDup_cons in Hd. destruct Hd as [Hk Hd]. cbn [foldl fst snd] in *.
  rewrite IH by (done || intros; apply Hid; by apply list_elem_of_further).
  rewrite (Hid k e) by apply list_elem_of_here. rewrite list_to_map_cons, !lookup_insert.
  case_decide as Hc; [subst|done]. by rewrite not_elem_of_list_to_map_1.
Qed.

Lemma collect_lookup order env acc es id :
  map_order es (order es) -> (forall k e, es !! k = Some e -> GetID env e = k) ->
  collect order env acc es !! id = match es !! id with Some e => Some e | None => acc !! id end.
Proof.
  intros Ho Hid. unfold collect.
  rewrite collect_list; [|by eapply map_order_nodup|].
  - rewrite (list_to_map_proper (order es) (map_to_list es)); [|by eapply map_order_nodup|done].
    by rewrite list_to_map_to_list.
  - intros k e Hin. apply Hid. by eapply map_order_elem.
Qed.

Lemma collect_grids order env m P gs acc id e :
  (forall es, map_order es (order es)) -> placed env m P ->
  (forall id e, acc !! id = Some e -> exists k, P !! id = Some (e, k)) ->
  (forall k, k ∈ gs -> is_Some (grids m !! k)) ->
  foldl (fun acc k => collect order env acc (entities (grid_at m k))) acc gs !! id = Some e
  <-> acc !! id = Some e \/ exists k, k ∈ gs /\ P !! id = Some (e, k).
Proof.
  intros Ho HP. revert acc. induction gs as [|k gs IH]; intros acc Hacc Hgs; simpl.
  { split; [auto|]. intros [?|(k & ?%elem_of_nil & _)]; done. }
  destruct (Hgs k) as [g Hg]; [apply list_elem_of_here|].
  assert (grid_at m k = g) as -> by (unfold grid_at; by rewrite Hg).
  assert (forall i, collect order env acc (entities g) !! i
            = match entities g !! i with Some e => Some e | None => acc !! i end) as Hc.
  { intros i. apply collect_lookup; [done|]. intros i' e' He'.
    apply (pl_entities env m P HP k g) in He'; [|done]. by apply (pl_known env m P HP) in He' as [_ ?]. }
  pose proof (fun i e => pl_entities env m P HP k g i e Hg) as Hge.
  rewrite IH.
  - rewrite Hc. setoid_rewrite elem_of_cons. specialize (Hge id).
    destruct (entities g !! id) as [e0|] eqn:E.
    + pose proof (proj1 (Hge e0) eq_refl). specialize (Hacc id). naive_solver.
    + naive_solver.
  - intros i e'. rewrite Hc. specialize (Hge i). destruct (entities g !! i); naive_solver.
  - intros k' Hk'. apply Hgs. by apply list_elem_of_further.
Qed.

Lemma entities_by_distance_placed conv order env m P x y z distance c
    (Horder : forall es, map_order es (order es)) (HP : placed env m P)
    (Hc : GetGrid conv m x z = Ret c) :
  exists l, GetEntitiesByDistance conv order env m x y z distance = Ret l /\ NoDup l /\
    forall e, e ∈ l <->
      (exists k, P !! GetID env e = Some (e, k) /\
                 near c k (ceil_int conv (f32_div distance (gridWidth m)))) /\
      within_distance env x y z distance e = true.
Proof.
  unfold GetEntitiesByDistance, GetSurroundingEntities, GetSurroundingGrids. rewrite Hc. gosimpl.
  set (r := ceil_int conv (f32_div distance (gridWidth m))).
  set (em := foldl _ ∅ _). eexists. split; [done|].
  assert (forall id e, em !! id = Some e <-> exists k, P !! id = Some (e, k) /\ near c k r) as Hem.
  { intros id e. unfold em. rewrite (collect_grids order env m P); [|done..|].
    - setoid_rewrite elem_of_surrounding; [|apply HP]. split.
      + intros [[=]|(k & [_ ?] & ?)]. eauto.
      + intros (k & Hk & ?). right. exists k. split; [|done]. split; [|done].
        by apply (pl_known env m P HP) in Hk as [? _].
    - intros k [? _]%elem_of_surrounding; [done|apply HP]. }
  assert (NoDup (order em).*2) as Hnd.
  { apply NoDup_fmap_2_strong; [|eapply NoDup_fmap_1, map_order_nodup, Horder].
    intros [i1 e1] [i2 e2] H1 H2 He. simpl in He. subst e2.
    apply (map_order_elem em _ i1 e1 (Horder em)), Hem in H1 as (k1 & H1 & _).
    apply (map_order_elem em _ i2 e1 (Horder em)), Hem in H2 as (k2 & H2 & _).
    apply (pl_known env m P HP) in H1 as [_ H1], H2 as [_ H2]. congruence. }
  split; [by apply NoDup_filter|]. intros e. rewrite list_elem_of_filter.
  assert (e ∈ (order em).*2 <-> exists k, P !! GetID env e = Some (e, k) /\ near c k r) as ->.
  { rewrite <- Hem, list_elem_of_fmap. split.
    - intros ([i e'] & -> & Hin). simpl. apply (map_order_elem em _ i e' (Horder em)) in Hin.
      destruct (proj1 (Hem i e') Hin) as (k & Hk & _).
      apply (pl_known env m P HP) in Hk as [_ ->]. done.
    - intros He. exists (GetID env e, e). split; [done|]. by apply (map_order_elem em). }
  tauto.
Qed.

(** [GetEntitiesByDistance] returns each entity at most once, and exactly
    the placed entities in the grids the distance reaches whose rounded squared
    distance is at most the rounded square of the distance. *)
Theorem aoi_entities_by_distance conv order env m P x y z distance c
    (Horder : forall es, map_order es (order es)) (HP : placed env m P)
    (Hc : GetGrid conv m x z = Ret c) :
  exists l, GetEntitiesByDistance conv order env m x y z distance = Ret l /\ NoDup l /\
    forall e, e ∈ l <->
      (exists k, P !! GetID env e = Some (e, k) /\
                 near c k (ceil_int conv (f32_div distance (gridWidth m)))) /\
      within_distance env x y z distance e = true.
Proof. by apply entities_by_distance_placed. Qed.

(** ** Examples *)

Definition sample_world : AOIManager :=
  match NewAOIManager (f32_of_int 0) (f32_of_int 1000) (f32_of_int 0) (f32_of_int 1000) 20 with
  | Ret m => m
  | _ => MkAOI S754_nan S754_nan S754_nan S754_nan S754_nan 0 ∅
  end.

Lemma sample_world_ok : game_world sample_world.
Proof.
  destruct new_game_world as (m & Hm & Hw). unfold sample_world. by rewrite Hm.
Qed.

Example aoi_get_grid_total_witness :
  exists i j, GetGrid (fun _ => 0) sample_world (f32_of_int 99) (f32_of_int 950) = Ret (i, j) /\
              0 <= i < 20 /\ 0 <= j < 20.
Proof.
  pose proof (aoi_get_grid_total (fun _ => 0) sample_world (f32_of_int 99) (f32_of_int 950)
                sample_world_ok eq_refl eq_refl eq_refl eq_refl) as H.
  destruct (GetGrid _ _ _ _) as [[i j]|e|] eqn:E; [|vm_compute in E; discriminate E..].
  exists i, j. split; [reflexivity|exact (proj2 H)].
Defined.

Example aoi_nan_panics_witness :
  GetGrid (fun _ => - 2 ^ 63) sample_world S754_nan (f32_of_int 5) = Panic.
Proof.
  apply (aoi_nan_panics (fun _ => - 2 ^ 63) sample_world (f32_of_int 5) sample_world_ok);
    vm_compute; reflexivity.
Defined.

(** One player, placed in the corner, that has moved to (120, 0, 0). *)
Definition sample_env : Entities :=
  {| GetID _ := "a"%string; GetPosition _ := (f32_of_int 120, f32_of_int 0, f32_of_int 0); GetTypeID _ := 0 |}.

Definition sample_aoi : AOIManager := insert_entity sample_env sample_world (0, 0) 0%nat.

Lemma sample_aoi_placed : placed sample_env sample_aoi {[ "a"%string := (0%nat, (0, 0)) ]}.
Proof.
  unfold sample_aoi. apply (insert_entity_placed sample_env sample_world ∅ (0, 0) 0%nat).
  - apply (new_aoi_placed sample_env (f32_of_int 0) (f32_of_int 1000) (f32_of_int 0) (f32_of_int 1000) 20).
    reflexivity.
  - vm_compute. eauto.
  - reflexivity.
Qed.

Example aoi_update_moves_witness :
  exists m', UpdateEntity (fun _ => 0) sample_env sample_aoi 0%nat (f32_of_int 0) (f32_of_int 0) = Ret m' /\
             placed sample_env m' {[ "a"%string := (0%nat, (2, 0)) ]}.
Proof.
  destruct (aoi_update_moves (fun _ => 0) sample_env sample_aoi _ 0%nat
    (f32_of_int 120) (f32_of_int 0) (f32_of_int 0) (f32_of_int 0) (f32_of_int 0) (0, 0) (2, 0)
    sample_aoi_placed) as (m' & Hu & HP & _); [vm_compute; reflexivity..|].
  exists m'. split; [exact Hu|exact HP].
Defined.

Example aoi_nearby_players_witness :
  GetNearbyPlayers (fun _ => 0) sample_aoi (f32_of_int 60) (f32_of_int 10) 1 = Ret 1.
Proof.
  rewrite (aoi_nearby_players (fun _ => 0) sample_env sample_aoi _ (f32_of_int 60) (f32_of_int 10) (1, 0) 1
             sample_aoi_placed); vm_compute; reflexivity.
Defined.

Example aoi_entities_by_distance_witness :
  exists l, GetEntitiesByDistance (fun _ => 0) map_to_list sample_env sample_aoi
              (f32_of_int 60) (f32_of_int 0) (f32_of_int 10) (f32_of_int 100) = Ret l /\ NoDup l.
Proof.
  destruct (aoi_entities_by_distance (fun _ => 0) map_to_list sample_env sample_aoi _
    (f32_of_int 60) (f32_of_int 0) (f32_of_int 10) (f32_of_int 100) (1, 0) map_order_default sample_aoi_placed)
    as (l & Hl & Hd & _); [vm_compute; reflexivity|].
  exists l. split; [exact Hl|exact Hd].
Defined.
