(* ===== verification/AoiTest.v ===== *)
(** * The simulation of the area of interest ([cmd/aoi_test/main.go])

    Players and other entities move in a square and are kept in the grids of
    [Aoi.v]; every tenth player looks around itself.  The entities are pointers, the
    places of a list.  The random numbers and the flags are arguments.  That the
    entities stay in the square, although every position is rounded, rests on
    [FloatOrder.v]. *)

From Stdlib Require Import ZArith Lia SpecFloat.
From stdpp Require Import base gmap strings pretty fin_maps numbers list.
From S2P Require Import Prelude Float32 FloatOrder Aoi.

Local Open Scope Z_scope.

(** ** Entities *)

Record TestEntity := MkTestEntity {
  te_id : string;
  te_x : float32;
  te_y : float32;
  te_z : float32;
  te_typeID : Z;
  te_vx : float32;
  te_vy : float32;
  te_vz : float32
}.

Definition f0 : float32 := f32_of_int 0.
Definition f1000 : float32 := f32_of_int 1000.

(** One coordinate of [Move]: the new position and the new velocity. *)
Definition move_axis (old v deltaTime : float32) : float32 * float32 :=
  let new := f32_add old (f32_mul v deltaTime) in
  if f32_lt new f0 || f32_lt f1000 new then
    let v := f32_neg v in (f32_add old (f32_mul v deltaTime), v)
  else (new, v).

Definition Move (e : TestEntity) (deltaTime : float32) : TestEntity :=
  let '(x, vx) := move_axis (te_x e) (te_vx e) deltaTime in
  let '(y, vy) := move_axis (te_y e) (te_vy e) deltaTime in
  let '(z, vz) := move_axis (te_z e) (te_vz e) deltaTime in
  MkTestEntity (te_id e) x y z (te_typeID e) vx vy vz.

(** The random numbers of one entity: two coordinates and two velocities. *)
Record randoms := MkRandoms { r_x : float32; r_z : float32; r_vx : float32; r_vz : float32 }.

(** [rand.Float32()*1000] and [(rand.Float32()*span) - half] *)
Definition new_entity (prefix : string) (typeID span half : Z) (i : nat) (r : randoms) : TestEntity :=
  let v a := f32_sub (f32_mul a (f32_of_int span)) (f32_of_int half) in
  MkTestEntity (prefix +:+ pretty i) (f32_mul (r_x r) f1000) f0 (f32_mul (r_z r) f1000) typeID (v (r_vx r)) f0 (v (r_vz r)).

Definition new_player : nat -> randoms -> TestEntity := new_entity "player_" 0 20 10.
Definition new_npc : nat -> randoms -> TestEntity := new_entity "npc_" 1 10 5.

Definition nobody : TestEntity := MkTestEntity "" f0 f0 f0 0 f0 f0 f0.

Definition entity_at (l : list TestEntity) (p : ptr) : TestEntity := default nobody (l !! p).

(** The methods of the [Entity] interface. *)
Definition entities_of (l : list TestEntity) : Entities :=
  {| GetID p := te_id (entity_at l p);
     GetPosition p := (te_x (entity_at l p), te_y (entity_at l p), te_z (entity_at l p));
     GetTypeID p := te_typeID (entity_at l p) |}.

(** ** The simulation *)

Record simulation := MkSimulation {
  sim_entities : list TestEntity;
  sim_aoi : AOIManager;
  totalUpdates : Z;
  totalQueries : Z;
  totalEntitiesFound : Z
}.

Section simulation.
Context (conv : float32 -> Z) (order : gmap string ptr -> list (string * ptr)).

(** The entities are added one by one; an error ends the program. *)
Fixpoint add_all (env : Entities) (m : AOIManager) (ps : list ptr) : outcome AoiError AOIManager :=
  match ps with
  | [] => Ret m
  | p :: ps => m ← AddEntity conv env m p; add_all env m ps
  end.

(** Everything before the simulation. *)
Definition start (gridCount : Z) (players npcs : list randoms) : outcome AoiError simulation :=
  m ← NewAOIManager f0 f1000 f0 f1000 gridCount;
  let es := imap new_player players ++ imap new_npc npcs in
  m ← add_all (entities_of es) m (seq 0 (length es));
  Ret (MkSimulation es m 0 0 0).

(** An entity moves and is updated; an error is logged and not counted. *)
Definition update_one (stepTime : float32) (s : simulation) (i : ptr) : outcome AoiError simulation :=
  let e := entity_at (sim_entities s) i in
  let es := <[i := Move e stepTime]> (sim_entities s) in
  match UpdateEntity conv (entities_of es) (sim_aoi s) i (te_x e) (te_z e) with
  | Ret m => Ret (MkSimulation es m (int64 (totalUpdates s + 1)) (totalQueries s) (totalEntitiesFound s))
  | Fail _ => Ret (MkSimulation es (sim_aoi s) (totalUpdates s) (totalQueries s) (totalEntitiesFound s))
  | Panic => Panic
  end.

Fixpoint update_loop (stepTime : float32) (s : simulation) (js : list ptr) : outcome AoiError simulation :=
  match js with
  | [] => Ret s
  | i :: js => s ← update_one stepTime s i; update_loop stepTime s js
  end.

(** Every tenth player asks for what is around it. *)
Definition query_one (queryRadius : float32) (s : simulation) (i : ptr) : outcome AoiError simulation :=
  if decide (i mod 10 = 0)%nat then
    let e := entity_at (sim_entities s) i in
    match GetEntitiesByDistance conv order (entities_of (sim_entities s)) (sim_aoi s) (te_x e) (te_y e) (te_z e) queryRadius with
    | Ret found => Ret (MkSimulation (sim_entities s) (sim_aoi s) (totalUpdates s) (int64 (totalQueries s + 1))
                          (int64 (totalEntitiesFound s + Z.of_nat (length found))))
    | Fail _ => Ret s
    | Panic => Panic
    end
  else Ret s.

Fixpoint query_loop (queryRadius : float32) (s : simulation) (js : list ptr) : outcome AoiError simulation :=
  match js with
  | [] => Ret s
  | i :: js => s ← query_one queryRadius s i; query_loop queryRadius s js
  end.

(** The players come first. *)
Definition iteration (playerCount npcCount : nat) (stepTime queryRadius : float32) (s : simulation) : outcome AoiError simulation :=
  s ← update_loop stepTime s (seq 0 playerCount);
  s ← update_loop stepTime s (seq playerCount npcCount);
  query_loop queryRadius s (seq 0 playerCount).

Fixpoint simulate (n playerCount npcCount : nat) (stepTime queryRadius : float32) (s : simulation) : outcome AoiError simulation :=
  match n with
  | O => Ret s
  | S n => s ← iteration playerCount npcCount stepTime queryRadius s; simulate n playerCount npcCount stepTime queryRadius s
  end.

(** [playerGridCount]: how many players each grid has. *)
Definition grid_key (k : GridPos) : string := pretty k.1 +:+ "," +:+ pretty k.2.

Definition count_player (m : AOIManager) (counts : gmap string Z) (e : TestEntity) : gmap string Z :=
  match GetGridPosition conv m (te_x e) (te_z e) with
  | Ret k => <[grid_key k := default 0 (counts !! grid_key k) + 1]> counts
  | _ => counts
  end.

Definition playerGridCount (m : AOIManager) (players : list TestEntity) : gmap string Z := fold_left (count_player m) players ∅.

(** The loop over the counts; the sum and the maximum do not depend on its order. *)
Definition totalDensity (counts : gmap string Z) : Z := map_fold (fun _ count total => count + total) 0 counts.
Definition maxDensity (counts : gmap string Z) : Z := map_fold (fun _ count top => if top <? count then count else top) 0 counts.
End simulation.

(** ** Positions *)

(** A number from 0 to 1000, both included. *)
Definition in_box (x : float32) : Prop := f32_valid x /\ f32_le f0 x = true /\ f32_le x f1000 = true.

(** A velocity that moves by at most half of the square in a step. *)
Definition step_fits (v deltaTime : float32) : Prop :=
  f32_valid v /\ f32_valid deltaTime /\
  f32_le (f32_of_int (-500)) (f32_mul v deltaTime) = true /\ f32_le (f32_mul v deltaTime) (f32_of_int 500) = true.

(** 1 in the units of [f_val]. *)
Definition unit_val : Z := 2 ^ 149.

Lemma val_constants : f_val f0 = 0 /\ f_val f1000 = 1000 * unit_val /\ f_val (f32_of_int 500) = 500 * unit_val /\
  f_val (f32_of_int (-500)) = - (500 * unit_val).
Proof. by vm_compute. Qed.

Lemma fin_constants : f_fin f0 /\ f_fin f1000 /\ f_fin (f32_of_int 500) /\ f_fin (f32_of_int (-500)).
Proof. by repeat split. Qed.

(** Between two finite numbers everything is finite. *)
Lemma between_fin a x b : f_fin a -> f_fin b -> f32_valid x -> f32_le a x = true -> f32_le x b = true -> f_fin x.
Proof.
  intros [_ Ha] [_ Hb] Hv H1 H2. split; [done|]. destruct x as [s|s| |s m e]; try done.
  destruct a as [| | |sa ma ea], b as [| | |sb mb eb]; try done; by destruct s.
Qed.

Lemma in_box_val x : in_box x <-> f_fin x /\ 0 <= f_val x <= 1000 * unit_val.
Proof.
  destruct fin_constants as (F0 & F1 & _). destruct val_constants as (V0 & V1 & _). unfold in_box. split.
  - intros (Hv & H0 & H1). assert (f_fin x) as Hf by (by apply (between_fin f0 x f1000)). split; [done|].
    rewrite fin_le, V0 in H0 by done. rewrite fin_le, V1 in H1 by done. lia.
  - intros (Hf & H). split; [apply Hf|]. rewrite !fin_le, V0, V1 by done. lia.
Qed.

Lemma step_fits_val v dt : step_fits v dt -> f_fin (f32_mul v dt) /\ - (500 * unit_val) <= f_val (f32_mul v dt) <= 500 * unit_val.
Proof.
  destruct fin_constants as (_ & _ & F1 & F2). destruct val_constants as (_ & _ & V1 & V2). intros (Hv & Hd & H1 & H2).
  assert (f_fin (f32_mul v dt)) as Hf by (apply (between_fin _ _ _ F2 F1); [by apply mul_valid|done..]). split; [done|].
  rewrite fin_le, V2 in H1 by done. rewrite fin_le, V1 in H2 by done. lia.
Qed.

Lemma step_fits_neg v dt : step_fits v dt -> step_fits (f32_neg v) dt.
Proof.
  intros Hs. destruct (step_fits_val v dt Hs) as [Hf Hb]. destruct fin_constants as (_ & _ & F1 & F2). destruct val_constants as (_ & _ & V1 & V2).
  destruct Hs as (Hv & Hd & _). split; [by destruct v|]. split; [done|]. rewrite mul_neg.
  apply neg_fin in Hf. rewrite !fin_le, V1, V2, neg_val by done. lia.
Qed.

(** The bounds 1000 and 2048 are numbers of the type. *)
Lemma bound_1000 : 1000 * unit_val = 16384000 * 2 ^ (-14 + 149).
Proof. by vm_compute. Qed.

Lemma bound_2048 : 2048 * unit_val = 2 ^ 23 * 2 ^ (-12 + 149).
Proof. by vm_compute. Qed.

(** A coordinate stays in the square: a step that would leave it goes the other way. *)
Lemma move_axis_in_box x v dt :
  in_box x -> step_fits v dt -> in_box (move_axis x v dt).1 /\ step_fits (move_axis x v dt).2 dt.
Proof.
  intros Hx Hs. pose proof (step_fits_neg v dt Hs) as Hn. apply in_box_val in Hx as [Fx Bx].
  destruct (step_fits_val v dt Hs) as [Fd Bd]. assert (0 < unit_val) as Hu by (by vm_compute). set (d := f32_mul v dt) in *.
  destruct fin_constants as (F0 & F1 & _). destruct val_constants as (V0 & V1 & _).
  destruct (add_bounds x d (2 ^ 23) (-12) Fx Fd) as (Fs & _ & Ss); [rewrite <- bound_2048; lia|done|done|].
  unfold move_axis. cbv zeta. rewrite mul_neg. fold d. rewrite !fin_lt, V0, V1 by done.
  destruct (Z.ltb_spec (f_val (f32_add x d)) 0) as [Hlt|Hge]; [|destruct (Z.ltb_spec (1000 * unit_val) (f_val (f32_add x d))) as [Hgt|Hle]];
    cbn [orb fst snd]; (split; [|done]); apply in_box_val.
  - assert (f_val x + f_val d < 0) by (rewrite (Z.sgn_neg (f_val (f32_add x d))) in Ss by done; apply Z.sgn_neg_iff; lia).
    destruct (add_bounds x (f32_neg d) 16384000 (-14) Fx (neg_fin d Fd)) as (Fr & Br & Sr); [rewrite <- bound_1000, neg_val; lia|done|done|].
    split; [done|]. rewrite <- bound_1000 in Br. rewrite neg_val in Sr. rewrite (Z.sgn_pos (f_val x + _)) in Sr by lia.
    apply Z.sgn_pos_iff in Sr. lia.
  - assert (1000 * unit_val < f_val x + f_val d) as Hex.
    { destruct (Z.le_gt_cases (f_val x + f_val d) (1000 * unit_val)) as [Hc|]; [|done].
      destruct (add_bounds x d 16384000 (-14) Fx Fd) as (_ & Br & _); [rewrite <- bound_1000; lia|done|done|]. rewrite <- bound_1000 in Br. lia. }
    destruct (add_bounds x (f32_neg d) 16384000 (-14) Fx (neg_fin d Fd)) as (Fr & Br & Sr); [rewrite <- bound_1000, neg_val; lia|done|done|].
    split; [done|]. rewrite <- bound_1000 in Br. rewrite neg_val in Sr. rewrite (Z.sgn_pos (f_val x + _)) in Sr by lia.
    apply Z.sgn_pos_iff in Sr. lia.
  - split; [done|]. lia.
Qed.

(** ** The simulation, proved *)

Record entity_ok (stepTime : float32) (e : TestEntity) : Prop := {
  eo_x : in_box (te_x e);
  eo_y : in_box (te_y e);
  eo_z : in_box (te_z e);
  eo_vx : step_fits (te_vx e) stepTime;
  eo_vy : step_fits (te_vy e) stepTime;
  eo_vz : step_fits (te_vz e) stepTime
}.

Lemma Move_ok stepTime e : entity_ok stepTime e -> entity_ok stepTime (Move e stepTime).
Proof.
  intros [Hx Hy Hz Hvx Hvy Hvz]. destruct (move_axis_in_box _ _ _ Hx Hvx), (move_axis_in_box _ _ _ Hy Hvy), (move_axis_in_box _ _ _ Hz Hvz).
  unfold Move. destruct (move_axis (te_x e) _ _), (move_axis (te_y e) _ _), (move_axis (te_z e) _ _). by split.
Qed.

Lemma Move_identity stepTime e : te_id (Move e stepTime) = te_id e /\ te_typeID (Move e stepTime) = te_typeID e.
Proof. unfold Move. by destruct (move_axis (te_x e) _ _), (move_axis (te_y e) _ _), (move_axis (te_z e) _ _). Qed.

Lemma entity_at_lookup l i e : l !! i = Some e -> entity_at l i = e.
Proof. unfold entity_at. by intros ->. Qed.

(** The IDs are different. *)
Lemma imap_ids prefix typeID span half l : te_id <$> imap (new_entity prefix typeID span half) l = (fun i => prefix +:+ pretty i) <$> seq 0 (length l).
Proof.
  apply list_eq. intros i. rewrite !list_lookup_fmap, list_lookup_imap. destruct (l !! i) eqn:E.
  - apply lookup_lt_Some in E. rewrite lookup_seq_lt by done. done.
  - apply lookup_ge_None_1 in E. rewrite lookup_seq_ge by done. done.
Qed.

Lemma test_ids_differ players npcs : NoDup (te_id <$> imap new_player players ++ imap new_npc npcs).
Proof.
  rewrite fmap_app. unfold new_player, new_npc. rewrite !imap_ids. apply NoDup_app. split_and!.
  - apply NoDup_fmap_2; [|apply NoDup_seq]. intros i j H. by apply (inj (String.append "player_")), (inj pretty) in H.
  - intros x (i & -> & _)%list_elem_of_fmap (j & H & _)%list_elem_of_fmap. done.
  - apply NoDup_fmap_2; [|apply NoDup_seq]. intros i j H. by apply (inj (String.append "npc_")), (inj pretty) in H.
Qed.

Section runs.
Context (conv : float32 -> Z).

(** In the square a grid is found, or the position is refused; nothing panics. *)
Lemma get_grid_box m x z :
  game_world m -> in_box x -> in_box z -> (exists g, GetGrid conv m x z = Ret g) \/ (exists e, GetGrid conv m x z = Fail e).
Proof.
  intros Hw Hx Hz. destruct fin_constants as (F0 & F1 & _). destruct val_constants as (V0 & _).
  apply in_box_val in Hx as [Fx Bx], Hz as [Fz Bz].
  destruct (out_of_scene m x z) eqn:Ho; [right; unfold GetGrid, fail_if; rewrite Ho; by eexists|left].
  unfold out_of_scene in Ho. rewrite !orb_false_iff, (gw_minX m Hw), (gw_minZ m Hw), (gw_maxX m Hw), (gw_maxZ m Hw) in Ho.
  destruct Ho as [[[H1 H2] H3] H4]. assert (forall f, f_fin f -> f32_is_nan f = false) as Hnan by (by intros []; [| |intros [_ []]|]).
  destruct (game_world_GetGrid conv m x z Hw) as (i & j & Hg & _); [|by eexists].
  split; (split_and!; [apply Fx || apply Fz|by apply Hnan|done|done]).
Qed.

(** Every entity is in the grid of its position. *)
Definition all_placed (l : list TestEntity) (m : AOIManager) : Prop :=
  exists P, placed (entities_of l) m P /\
    forall i e, l !! i = Some e -> exists g, GetGrid conv m (te_x e) (te_z e) = Ret g /\ P !! te_id e = Some (i, g).

Lemma add_all_placed env ps m P m' :
  placed env m P -> add_all conv env m ps = Ret m' -> NoDup (GetID env <$> ps) -> (forall p, p ∈ ps -> P !! GetID env p = None) ->
  exists P', placed env m' P' /\ same_scene m m' /\ (forall id, id ∉ GetID env <$> ps -> P' !! id = P !! id) /\
    forall p, p ∈ ps -> exists g, GetGrid conv m' (GetPosition env p).1.1 (GetPosition env p).2 = Ret g /\ P' !! GetID env p = Some (p, g).
Proof.
  revert m P. induction ps as [|p ps IH]; intros m P HP Ha Hd Hn; cbn [add_all] in Ha.
  { injection Ha as <-. exists P. split_and!; [done|done|done|]. intros p Hp. by apply elem_of_nil in Hp. }
  rewrite fmap_cons, NoDup_cons in Hd. destruct Hd as [Hnp Hd].
  destruct (GetPosition env p) as [[x y] z] eqn:Hpos. destruct (GetGrid conv m x z) as [k|e|] eqn:Hk;
    [|unfold AddEntity in Ha; rewrite Hpos, Hk in Ha; done..].
  destruct (AddEntity_placed conv env m P p x y z k HP Hpos Hk (Hn p (list_elem_of_here _ _))) as (m1 & Hm1 & Hs1 & HP1).
  rewrite Hm1 in Ha. cbn [mbind outcome_bind] in Ha.
  destruct (IH m1 (<[GetID env p := (p, k)]> P) HP1 Ha Hd) as (P' & HP' & Hs' & Hother & Hin).
  { intros q Hq. rewrite lookup_insert_ne; [by apply Hn, list_elem_of_further|]. intros E. apply Hnp. rewrite E. by apply list_elem_of_fmap_2. }
  exists P'. split_and!; [done|by etrans| |].
  - intros id Hid. rewrite fmap_cons, not_elem_of_cons in Hid. destruct Hid. rewrite Hother by done. by rewrite lookup_insert_ne.
  - intros q [->|Hq]%elem_of_cons; [|by apply Hin]. exists k. rewrite Hpos. cbn. split.
    + rewrite (same_scene_GetGrid conv m1 m' x z Hs'), (same_scene_GetGrid conv m m1 x z Hs1). done.
    + rewrite Hother by done. apply lookup_insert_eq.
Qed.

Record sim_ok (stepTime : float32) (ids : list string) (k : Z) (s : simulation) : Prop := {
  so_entities : Forall (entity_ok stepTime) (sim_entities s);
  so_ids : te_id <$> sim_entities s = ids;
  so_world : game_world (sim_aoi s);
  so_updates : 0 <= totalUpdates s <= k;
  so_placed : totalUpdates s = k -> all_placed (sim_entities s) (sim_aoi s)
}.

(** A moved entity in the list: the identities are as before. *)
Lemma moved_identities l i e stepTime :
  l !! i = Some e ->
  te_id <$> <[i := Move e stepTime]> l = te_id <$> l /\
  (forall p, GetID (entities_of (<[i := Move e stepTime]> l)) p = GetID (entities_of l) p) /\
  (forall p, GetTypeID (entities_of (<[i := Move e stepTime]> l)) p = GetTypeID (entities_of l) p).
Proof.
  intros Hi. destruct (Move_identity stepTime e) as [H1 H2]. split.
  - rewrite list_fmap_insert, H1. apply list_insert_id. by rewrite list_lookup_fmap, Hi.
  - cbn. unfold entity_at. split; intros p; (destruct (decide (i = p)) as [<-|Hne];
      [rewrite list_lookup_insert_eq by (by eapply lookup_lt_Some); by rewrite Hi|by rewrite list_lookup_insert_ne]).
Qed.

Lemma update_placed l m i e stepTime m' g0 :
  NoDup (te_id <$> l) -> l !! i = Some e -> all_placed l m ->
  GetGrid conv m (te_x e) (te_z e) = Ret g0 ->
  UpdateEntity conv (entities_of (<[i := Move e stepTime]> l)) m i (te_x e) (te_z e) = Ret m' ->
  (exists g1, GetGrid conv m (te_x (Move e stepTime)) (te_z (Move e stepTime)) = Ret g1) ->
  all_placed (<[i := Move e stepTime]> l) m'.
Proof.
  intros Hd Hi (P & HP & Hl) Hg0 Hu [g1 Hg1]. destruct (moved_identities l i e stepTime Hi) as (Hids & Hid & Hty).
  assert (i < length l)%nat as Hlen by (by eapply lookup_lt_Some). set (l' := <[i := Move e stepTime]> l) in *.
  assert (l' !! i = Some (Move e stepTime)) as Hi' by (by apply list_lookup_insert_eq).
  assert (GetID (entities_of l') i = te_id e) as Hidi by (rewrite Hid; cbn; by rewrite (entity_at_lookup _ _ _ Hi)).
  destruct (Hl i e Hi) as (g & Hg & HPi). rewrite Hg0 in Hg. injection Hg as <-.
  destruct (UpdateEntity_placed conv (entities_of l') m P i (te_x (Move e stepTime)) (te_y (Move e stepTime)) (te_z (Move e stepTime)) (te_x e) (te_z e) g0 g1)
    as (m2 & Hu2 & Hs & HP').
  - apply (placed_env_ext (entities_of l)); [intros; apply Hid|apply Hty|done].
  - cbn. by rewrite (entity_at_lookup _ _ _ Hi').
  - done.
  - done.
  - by rewrite Hidi.
  - rewrite Hu in Hu2. injection Hu2 as <-. rewrite Hidi in HP'. exists (<[te_id e := (i, g1)]> P). split; [done|].
    intros j e' Hj. rewrite (same_scene_GetGrid conv m m' _ _ Hs). destruct (decide (i = j)) as [<-|Hne].
    + rewrite Hi' in Hj. injection Hj as <-. exists g1. split; [done|]. destruct (Move_identity stepTime e) as [-> _]. apply lookup_insert_eq.
    + unfold l' in Hj. rewrite list_lookup_insert_ne in Hj by done. destruct (Hl j e' Hj) as (g & Hg & HPj). exists g. split; [done|].
      rewrite lookup_insert_ne; [done|]. intros E. apply Hne. eapply (NoDup_key_lookup te_id l); [exact Hd|exact Hi|exact Hj|done].
Qed.

Lemma update_one_ok stepTime ids k s i :
  NoDup ids -> sim_ok stepTime ids k s -> (i < length (sim_entities s))%nat -> k + 1 < 2 ^ 63 ->
  exists s', update_one conv stepTime s i = Ret s' /\ sim_ok stepTime ids (k + 1) s'.
Proof.
  intros Hd [He Hids Hw Hup Hpl] Hi Hk. destruct (lookup_lt_is_Some_2 _ _ Hi) as [e Hie]. unfold update_one.
  rewrite (entity_at_lookup _ _ _ Hie). destruct (moved_identities _ i e stepTime Hie) as (Hids' & _).
  assert (entity_ok stepTime e) as Hok by (by eapply Forall_lookup_1). pose proof (Move_ok stepTime e Hok) as Hok'.
  set (l' := <[i := Move e stepTime]> (sim_entities s)) in *. assert (Forall (entity_ok stepTime) l') as He' by (by apply Forall_insert).
  assert (entity_at l' i = Move e stepTime) as Hat by (apply entity_at_lookup, list_lookup_insert_eq; done).
  destruct (get_grid_box (sim_aoi s) (te_x e) (te_z e)) as [[g0 Hg0]|[er Hg0]]; [done|apply Hok..| |].
  2: { unfold UpdateEntity. cbn [GetPosition entities_of]. rewrite Hat, Hg0. cbn. eexists. split; [done|].
       split; cbn; [done|congruence|done|lia|lia]. }
  destruct (get_grid_box (sim_aoi s) (te_x (Move e stepTime)) (te_z (Move e stepTime))) as [[g1 Hg1]|[er Hg1]]; [done|apply Hok'..| |].
  2: { unfold UpdateEntity. cbn [GetPosition entities_of]. rewrite Hat, Hg0, Hg1. cbn. eexists. split; [done|].
       split; cbn; [done|congruence|done|lia|lia]. }
  assert (exists m', UpdateEntity conv (entities_of l') (sim_aoi s) i (te_x e) (te_z e) = Ret m' /\ game_world m') as (m' & Hu & Hw').
  { unfold UpdateEntity. cbn [GetPosition entities_of]. rewrite Hat, Hg0, Hg1. cbn. case_decide; [by eexists|]. eexists. split; [done|].
    eapply same_scene_world; [|exact Hw]. pose proof (GetGrid_in _ _ _ _ _ Hg0) as Hin0. pose proof (GetGrid_in _ _ _ _ _ Hg1) as Hin1.
    assert (same_scene (sim_aoi s) (erase_entity (entities_of l') (sim_aoi s) g0 i)) as Hs.
    { unfold erase_entity. case_match; [by apply set_grid_scene|done]. }
    etrans; [exact Hs|]. apply set_grid_scene, Hs, Hin1. }
  rewrite Hu. eexists. split; [done|]. split; cbn; [done|congruence|done|rewrite int64_small; lia|].
  intros E. rewrite int64_small in E by lia. eapply update_placed; [by rewrite Hids|done|by apply Hpl; lia|done|done|by eexists].
Qed.

Lemma update_loop_ok stepTime ids js :
  NoDup ids -> forall k s, sim_ok stepTime ids k s -> Forall (fun i => (i < length ids)%nat) js -> k + Z.of_nat (length js) < 2 ^ 63 ->
  exists s', update_loop conv stepTime s js = Ret s' /\ sim_ok stepTime ids (k + Z.of_nat (length js)) s'.
Proof.
  intros Hd. induction js as [|i js IH]; intros k s Hok Hi Hk; cbn [update_loop length].
  { exists s. by rewrite Z.add_0_r. }
  apply Forall_cons in Hi as [Hi Hjs]. cbn [length] in Hk. destruct (update_one_ok stepTime ids k s i) as (s1 & -> & Hok1); [done|done| |lia|].
  { rewrite <- (so_ids _ _ _ _ Hok), length_fmap in Hi. done. }
  cbn [mbind outcome_bind]. destruct (IH (k + 1) s1 Hok1 Hjs) as (s' & -> & Hok'); [lia|]. exists s'. split; [done|].
  by replace (k + Z.of_nat (S (length js))) with (k + 1 + Z.of_nat (length js)) by lia.
Qed.

Lemma query_one_ok order stepTime ids k queryRadius s i :
  sim_ok stepTime ids k s -> (i < length ids)%nat -> exists s', query_one conv order queryRadius s i = Ret s' /\ sim_ok stepTime ids k s'.
Proof.
  intros Hok Hi. unfold query_one. case_decide; [|by exists s]. pose proof Hok as [He Hids Hw Hup Hpl].
  rewrite <- Hids, length_fmap in Hi. destruct (lookup_lt_is_Some_2 _ _ Hi) as [e Hie]. rewrite (entity_at_lookup _ _ _ Hie).
  assert (entity_ok stepTime e) as Hoke by (by eapply Forall_lookup_1).
  unfold GetEntitiesByDistance, GetSurroundingEntities, GetSurroundingGrids.
  destruct (get_grid_box (sim_aoi s) (te_x e) (te_z e)) as [[g ->]|[er ->]]; [done|apply Hoke..| |]; cbn; [|by exists s].
  eexists. split; [done|]. by split.
Qed.

Lemma query_loop_ok order stepTime ids k queryRadius js :
  forall s, sim_ok stepTime ids k s -> Forall (fun i => (i < length ids)%nat) js ->
  exists s', query_loop conv order queryRadius s js = Ret s' /\ sim_ok stepTime ids k s'.
Proof.
  induction js as [|i js IH]; intros s Hok Hi; cbn [query_loop]; [by exists s|]. apply Forall_cons in Hi as [Hi Hjs].
  destruct (query_one_ok order stepTime ids k queryRadius s i Hok Hi) as (s1 & -> & Hok1). by apply IH.
Qed.

Lemma seq_below a b n : (a + b <= n)%nat -> Forall (fun i => (i < n)%nat) (seq a b).
Proof. intros. apply Forall_seq. lia. Qed.

Lemma simulate_ok order stepTime queryRadius ids (p q : nat) n :
  NoDup ids -> length ids = (p + q)%nat -> forall k s, sim_ok stepTime ids k s -> k + Z.of_nat (n * (p + q)) < 2 ^ 63 ->
  exists s', simulate conv order n p q stepTime queryRadius s = Ret s' /\ sim_ok stepTime ids (k + Z.of_nat (n * (p + q))) s'.
Proof.
  intros Hd Hl. induction n as [|n IH]; intros k s Hok Hk; cbn [simulate].
  { exists s. by rewrite Z.add_0_r. }
  unfold iteration. destruct (update_loop_ok stepTime ids (seq 0 p) Hd k s Hok) as (s1 & -> & Hok1); [apply seq_below; lia|rewrite length_seq; lia|].
  rewrite length_seq in Hok1. cbn [mbind outcome_bind].
  destruct (update_loop_ok stepTime ids (seq p q) Hd _ s1 Hok1) as (s2 & -> & Hok2); [apply seq_below; lia|rewrite length_seq; lia|].
  rewrite length_seq in Hok2. cbn [mbind outcome_bind].
  destruct (query_loop_ok order stepTime ids _ queryRadius (seq 0 p) s2 Hok2) as (s3 & -> & Hok3); [apply seq_below; lia|].
  cbn [mbind outcome_bind]. destruct (IH _ s3 Hok3) as (s' & -> & Hok'); [lia|]. exists s'. split; [done|].
  by replace (k + Z.of_nat (S n * (p + q))) with (k + Z.of_nat p + Z.of_nat q + Z.of_nat (n * (p + q))) by lia.
Qed.

(** What [start] makes: everybody in the grid of its position. *)
Lemma sim_start_ok stepTime players npcs s :
  start conv 20 players npcs = Ret s -> Forall (entity_ok stepTime) (sim_entities s) ->
  sim_ok stepTime (te_id <$> imap new_player players ++ imap new_npc npcs) 0 s.
Proof.
  unfold start. destruct new_game_world as (m & Hm & Hw). unfold f0, f1000. rewrite Hm. cbn [mbind outcome_bind].
  set (es := imap new_player players ++ imap new_npc npcs). destruct (add_all conv _ m _) as [m'| |] eqn:Ha; [|done..].
  intros [= <-] Hok. cbn [sim_entities] in Hok.
  assert (GetID (entities_of es) <$> seq 0 (length es) = te_id <$> es) as Hids.
  { apply list_eq. intros i. rewrite !list_lookup_fmap. destruct (es !! i) as [e|] eqn:E.
    - rewrite lookup_seq_lt by (by eapply lookup_lt_Some). cbn. by rewrite (entity_at_lookup _ _ _ E).
    - apply lookup_ge_None_1 in E. by rewrite lookup_seq_ge. }
  destruct (add_all_placed (entities_of es) _ m ∅ m' (new_aoi_placed _ _ _ _ _ _ _ Hm) Ha) as (P & HP & Hs & _ & Hin).
  { rewrite Hids. apply test_ids_differ. }
  { done. }
  split; cbn; [done|done|by eapply same_scene_world|done|]. intros _. exists P. split; [done|]. intros i e Hi.
  destruct (Hin i) as (g & Hg & HPi); [apply elem_of_seq; split; [lia|by eapply lookup_lt_Some]|].
  exists g. cbn in Hg, HPi. by rewrite (entity_at_lookup _ _ _ Hi) in Hg, HPi.
Qed.

Lemma add_all_succeeds env ps : forall m,
  game_world m -> (forall p, p ∈ ps -> in_world (GetPosition env p).1.1 (GetPosition env p).2) -> exists m', add_all conv env m ps = Ret m'.
Proof.
  induction ps as [|p ps IH]; intros m Hw Hin; cbn [add_all]; [by exists m|]. unfold AddEntity.
  pose proof (Hin p (list_elem_of_here _ _)) as Hp. destruct (GetPosition env p) as [[x y] z].
  destruct (game_world_GetGrid conv m x z Hw Hp) as (i & j & Hg & _). rewrite Hg. cbn [mbind outcome_bind]. apply IH.
  - eapply same_scene_world; [|exact Hw]. apply set_grid_scene. by eapply GetGrid_in.
  - intros q Hq. by apply Hin, list_elem_of_further.
Qed.

(** Off the right and the lower edge, where the grids end. *)
Definition off_edge (e : TestEntity) : Prop := f32_le f1000 (te_x e) = false /\ f32_le f1000 (te_z e) = false.

Lemma in_box_world e stepTime : entity_ok stepTime e -> off_edge e -> in_world (te_x e) (te_z e).
Proof.
  intros [Hx _ Hz _ _ _] [Ex Ez]. destruct fin_constants as (F0 & _). destruct val_constants as (V0 & _).
  apply in_box_val in Hx as [Fx Bx], Hz as [Fz Bz]. fold f0 f1000.
  assert (forall f, f_fin f -> 0 <= f_val f -> f32_valid f /\ f32_is_nan f = false /\ f32_lt f f0 = false) as H.
  { intros f Hf Hv. split; [apply Hf|]. split; [destruct f; [done|done|by destruct Hf|done]|]. rewrite fin_lt, V0 by done. lia. }
  destruct (H _ Fx) as (? & ? & ?); [lia|]. destruct (H _ Fz) as (? & ? & ?); [lia|]. done.
Qed.

Lemma start_succeeds stepTime players npcs :
  Forall (fun e => entity_ok stepTime e /\ off_edge e) (imap new_player players ++ imap new_npc npcs) ->
  exists s, start conv 20 players npcs = Ret s /\ sim_entities s = imap new_player players ++ imap new_npc npcs.
Proof.
  intros Hes. unfold start. destruct new_game_world as (m & Hm & Hw). unfold f0, f1000. rewrite Hm. cbn [mbind outcome_bind].
  set (es := imap new_player players ++ imap new_npc npcs) in *.
  destruct (add_all_succeeds (entities_of es) (seq 0 (length es)) m Hw) as [m' Hm']; [|rewrite Hm'; by eexists].
  intros p [_ Hp]%elem_of_seq. destruct (lookup_lt_is_Some_2 es p Hp) as [e He]. cbn. rewrite (entity_at_lookup _ _ _ He).
  destruct (Forall_lookup_1 _ _ _ _ Hes He). by eapply in_box_world.
Qed.

(** The simulation from entities that are in the square, off its edge, and whose steps are at most
    half of it. *)
Lemma simulate_from order n stepTime queryRadius players npcs
    (Hentities : Forall (fun e => entity_ok stepTime e /\ off_edge e) (imap new_player players ++ imap new_npc npcs))
    (Hcount : Z.of_nat (n * (length players + length npcs)) < 2 ^ 63) :
  exists s0 s, start conv 20 players npcs = Ret s0 /\
    simulate conv order n (length players) (length npcs) stepTime queryRadius s0 = Ret s /\
    Forall (fun e => in_box (te_x e) /\ in_box (te_y e) /\ in_box (te_z e)) (sim_entities s) /\
    0 <= totalUpdates s <= Z.of_nat (n * (length players + length npcs)) /\
    (totalUpdates s = Z.of_nat (n * (length players + length npcs)) ->
     forall i e, sim_entities s !! i = Some e -> exists g, GetGrid conv (sim_aoi s) (te_x e) (te_z e) = Ret g /\
       forall g', is_Some (grids (sim_aoi s) !! g') -> entities (grid_at (sim_aoi s) g') !! te_id e = Some i <-> g' = g).
Proof.
  destruct (start_succeeds stepTime players npcs Hentities) as (s0 & Hstart & Hes).
  pose proof (sim_start_ok stepTime players npcs s0 Hstart) as Hok. rewrite Hes in Hok.
  specialize (Hok (Forall_impl _ _ _ Hentities (fun e H => proj1 H))).
  destruct (simulate_ok order stepTime queryRadius _ (length players) (length npcs) n (test_ids_differ players npcs)) with (k := 0) (s := s0)
    as (s & Hs & [He _ _ Hu Hp]); [by rewrite length_fmap, length_app, !length_imap|done|done|].
  exists s0, s. split; [done|]. split; [done|]. split; [eapply Forall_impl; [exact He|]; by intros e []|]. split; [done|].
  intros E i e Hi. destruct (Hp E) as (P & HP & Hl). destruct (Hl i e Hi) as (g & Hg & HPi). exists g. split; [done|].
  intros g' [gr Hgr]. unfold grid_at. rewrite Hgr. cbn. rewrite (pl_entities _ _ _ HP g' gr (te_id e) i Hgr), HPi.
  split; [by intros [= ->]|by intros ->].
Qed.

(** *** The random numbers *)

(** What [rand.Float32] documents: a number of the half-open interval from 0 to 1. *)
Definition f1 : float32 := f32_of_int 1.
Definition random_number (r : float32) : Prop := f32_valid r /\ f32_le f0 r = true /\ f32_lt r f1 = true.
Definition randoms_ok (r : randoms) : Prop :=
  random_number (r_x r) /\ random_number (r_z r) /\ random_number (r_vx r) /\ random_number (r_vz r).

(** A step of at most fifty seconds. *)
Definition step_ok (stepTime : float32) : Prop :=
  f32_valid stepTime /\ f32_le (f32_of_int (-50)) stepTime = true /\ f32_le stepTime (f32_of_int 50) = true.

Lemma random_val r : random_number r -> f_fin r /\ 0 <= f_val r < unit_val.
Proof.
  intros (Hv & H0 & H1). assert (f_fin f1) as F1 by done. destruct fin_constants as (F0 & _).
  assert (f_fin r) as Hf by (split; [done|]; destruct r as [s|s| |s m e]; [done|by destruct s|done|done]).
  split; [done|]. rewrite fin_le in H0 by done. rewrite fin_lt in H1 by done.
  change (f_val f1) with unit_val in H1. change (f_val f0) with 0 in H0. lia.
Qed.

(** The largest number below 1 is apart from the others. *)
Lemma random_top r : random_number r -> f_val r <= (2 ^ 24 - 2) * 2 ^ 125 \/ r = S754_finite false 16777215 (-24).
Proof.
  intros Hr. destruct (random_val r Hr) as [[Hv Hf] Hb]. destruct r as [s|s| |s m e]; [by left|done|done|].
  destruct (valid_inv _ _ _ Hv) as (He & Hm & Hc). cbn [f_val] in *. unfold unit_val in Hb. pose proof (pow2_pos (e + 149) ltac:(lia)) as HP.
  destruct s; cbn [cond_Zopp] in *; [lia|]. destruct (Z.le_gt_cases e (-25)) as [Hlow|Hhigh].
  - left. assert (2 ^ (e + 149) <= 2 ^ 124) by (apply Z.pow_le_mono_r; lia). change (2 ^ 125) with (2 * 2 ^ 124). nia.
  - assert (e = -24) as ->.
    { destruct (Z.le_gt_cases e (-24)); [lia|]. assert (2 ^ 126 <= 2 ^ (e + 149)) by (apply Z.pow_le_mono_r; lia).
      change (2 ^ 149) with (2 ^ 23 * 2 ^ 126) in Hb. assert (2 ^ 23 <= Zpos m) by lia. nia. }
    change (-24 + 149) with 125. destruct (decide (Zpos m = 2 ^ 24 - 1)) as [Em|Em]; [right|left; nia]. f_equal. lia.
Qed.

(** A coordinate starts in the square and off its edge. *)
Lemma random_position r : random_number r -> in_box (f32_mul r f1000) /\ f32_le f1000 (f32_mul r f1000) = false.
Proof.
  intros Hr. destruct fin_constants as (F0 & F1 & _). destruct val_constants as (V0 & V1 & _). destruct (random_val r Hr) as [Fr Br].
  destruct (random_top r Hr) as [Ht| ->]; [|split; [split_and!|]; vm_compute; reflexivity].
  destruct (mul_bounds r f1000 16383999 (-14) Fr F1) as (Fm & Bm & Sm); [|done|done|].
  { rewrite V1. unfold unit_val in *. change (-14 + 298) with 284. change (2 ^ 284) with (1024 * (2 ^ 125 * 2 ^ 149)). change (2 ^ 24) with 16777216 in Ht.
    set (a := 2 ^ 125) in *. set (b := 2 ^ 149) in *. assert (0 < a /\ 0 < b) as [Ha Hb] by (by vm_compute). rewrite Z.abs_eq by nia. nia. }
  assert (16383999 * 2 ^ (-14 + 149) < 1000 * unit_val) as Hlt by by vm_compute.
  assert (0 < unit_val) by by vm_compute. specialize (Sm ltac:(rewrite V1; nia)).
  split; [apply in_box_val; split; [done|lia]|]. rewrite fin_le, V1 by done. lia.
Qed.

(** The velocities are at most ten. *)
Lemma random_velocity r span half :
  random_number r -> (span, half) ∈ [(20, 10); (10, 5)] ->
  let v := f32_sub (f32_mul r (f32_of_int span)) (f32_of_int half) in f_fin v /\ Z.abs (f_val v) <= 10 * unit_val.
Proof.
  intros Hr Hs v. destruct (random_val r Hr) as [Fr Br]. assert (0 < unit_val) by by vm_compute.
  assert (exists k, f_fin (f32_of_int span) /\ f_fin (f32_neg (f32_of_int half)) /\ -149 <= k <= 103 /\ half <= 10 /\
    f_val (f32_of_int span) = 2 * half * unit_val /\ f_val (f32_of_int half) = half * unit_val /\
    half * unit_val = 10485760 * 2 ^ (k + 149) /\ 2 * half * unit_val * unit_val = 10485760 * 2 ^ (k + 1 + 298) /\
    2 * half * unit_val = 10485760 * 2 ^ (k + 1 + 149)) as (k & Fs & Fh & Hk & Hh & Vs & Vh & Ek & Ek2 & Ek1).
  { rewrite !elem_of_cons, elem_of_nil in Hs. destruct Hs as [[= -> ->]|[[= -> ->]|[]]]; [exists (-20)|exists (-21)]; by vm_compute. }
  destruct (mul_bounds r (f32_of_int span) 10485760 (k + 1) Fr Fs) as (Fm & Bm & Sm); [|done|lia|].
  { rewrite Vs, <- Ek2, Z.abs_eq by nia. nia. }
  specialize (Sm ltac:(rewrite Vs; nia)). unfold v. rewrite sub_neg.
  destruct (add_bounds (f32_mul r (f32_of_int span)) (f32_neg (f32_of_int half)) 10485760 k Fm Fh) as (Fa & Ba & _); [|done|lia|].
  { rewrite neg_val, Vh, <- Ek. lia. }
  split; [done|]. rewrite <- Ek in Ba. nia.
Qed.

Lemma random_step v stepTime : f_fin v -> Z.abs (f_val v) <= 10 * unit_val -> step_ok stepTime -> step_fits v stepTime.
Proof.
  intros Fv Bv (Hs & H1 & H2). assert (f_fin (f32_of_int (-50)) /\ f_fin (f32_of_int 50)) as [G1 G2] by done.
  pose proof (between_fin _ _ _ G1 G2 Hs H1 H2) as Fs. rewrite fin_le in H1, H2 by done.
  change (f_val (f32_of_int (-50))) with (- (50 * unit_val)) in H1. change (f_val (f32_of_int 50)) with (50 * unit_val) in H2.
  destruct (mul_bounds v stepTime 16384000 (-15) Fv Fs) as (Fm & Bm & _); [|done|done|].
  { change (16384000 * 2 ^ (-15 + 298)) with (500 * unit_val * unit_val). rewrite Z.abs_mul. assert (0 < unit_val) by by vm_compute. nia. }
  change (16384000 * 2 ^ (-15 + 149)) with (500 * unit_val) in Bm. destruct fin_constants as (_ & _ & F1 & F2). destruct val_constants as (_ & _ & V1 & V2).
  split_and!; [apply Fv|done|rewrite fin_le, V2 by done; lia|rewrite fin_le, V1 by done; lia].
Qed.

(** Every entity that the program makes starts in the square, off its edge, and moves by at most half of
    it in a step. *)
Lemma new_entity_ok prefix typeID span half i r stepTime :
  randoms_ok r -> step_ok stepTime -> (span, half) ∈ [(20, 10); (10, 5)] ->
  entity_ok stepTime (new_entity prefix typeID span half i r) /\ off_edge (new_entity prefix typeID span half i r).
Proof.
  intros (Hx & Hz & Hvx & Hvz) Hs Hsp. destruct (random_position _ Hx), (random_position _ Hz).
  destruct (random_velocity _ span half Hvx Hsp), (random_velocity _ span half Hvz Hsp). split; [|done].
  split; cbn; [done|split_and!; by vm_compute|done|by apply random_step| |by apply random_step].
  apply random_step; [done|by vm_compute|done].
Qed.

(** C21: the simulation of [aoi_test], with its grid of 20 by 20, whatever numbers the generator
    draws (each in the half-open interval from 0 to 1) and for steps of at most fifty seconds: all entities are added, and it
    runs to its end without a panic; all entities stay in the square from 0 to 1000 although
    positions are rounded; and when the program counts all updates, every entity is in the grid
    of its position and in no other. *)
Theorem aoi_test_simulates order n stepTime queryRadius players npcs
    (Hrandom : Forall randoms_ok (players ++ npcs)) (Hstep : step_ok stepTime)
    (Hcount : Z.of_nat (n * (length players + length npcs)) < 2 ^ 63) :
  exists s0 s, start conv 20 players npcs = Ret s0 /\
    simulate conv order n (length players) (length npcs) stepTime queryRadius s0 = Ret s /\
    Forall (fun e => in_box (te_x e) /\ in_box (te_y e) /\ in_box (te_z e)) (sim_entities s) /\
    0 <= totalUpdates s <= Z.of_nat (n * (length players + length npcs)) /\
    (totalUpdates s = Z.of_nat (n * (length players + length npcs)) ->
     forall i e, sim_entities s !! i = Some e -> exists g, GetGrid conv (sim_aoi s) (te_x e) (te_z e) = Ret g /\
       forall g', is_Some (grids (sim_aoi s) !! g') -> entities (grid_at (sim_aoi s) g') !! te_id e = Some i <-> g' = g).
Proof.
  apply simulate_from; [|done]. apply Forall_app in Hrandom as [Hp Hn]. rewrite Forall_forall in Hp, Hn. apply Forall_app.
  split; apply Forall_lookup_2; intros i e; rewrite list_lookup_imap, fmap_Some; intros (r & Hr & ->); apply list_elem_of_lookup_2 in Hr;
    (apply new_entity_ok; [by auto|done|set_solver]).
Qed.

(** *** Densities *)

Lemma totalDensity_insert (counts : gmap string Z) k :
  totalDensity (<[k := default 0 (counts !! k) + 1]> counts) = totalDensity counts + 1.
Proof.
  unfold totalDensity. assert (forall (m : gmap string Z) i x, m !! i = None ->
    map_fold (fun _ c t => c + t) 0 (<[i := x]> m) = x + map_fold (fun _ c t => c + t) 0 m) as Hins.
  { intros m i x Hi. rewrite (map_fold_insert_L (fun _ c t => c + t)); [done|intros; lia|done]. }
  rewrite <- insert_delete_eq, Hins by apply lookup_delete_eq. destruct (counts !! k) as [c|] eqn:E.
  - rewrite <- (insert_delete_id counts k c E) at 2. rewrite Hins by apply lookup_delete_eq. cbn. lia.
  - rewrite delete_id by done. cbn. lia.
Qed.

(** The densities that are printed add up: their sum is the number of players that are
    in the scene. *)
Theorem aoi_test_densities m players :
  totalDensity (playerGridCount conv m players) = Z.of_nat (length (filter (fun e => out_of_scene m (te_x e) (te_z e) = false) players)).
Proof.
  assert (forall counts, totalDensity (fold_left (count_player conv m) players counts) =
    totalDensity counts + Z.of_nat (length (filter (fun e => out_of_scene m (te_x e) (te_z e) = false) players))) as H.
  { induction players as [|e l IH]; intros counts; cbn [fold_left]; [rewrite filter_nil; cbn; lia|]. rewrite IH, filter_cons.
    unfold count_player, GetGridPosition, fail_if. destruct (out_of_scene m (te_x e) (te_z e)) eqn:Ho; cbn.
    - rewrite decide_False by done. lia.
    - rewrite totalDensity_insert, decide_True by done. cbn. lia. }
  unfold playerGridCount. rewrite H. done.
Qed.
End runs.

(** ** Examples *)

(** Two players and another entity: random numbers 1/2 and 3/4, steps of 1/8. *)
Definition sample_half : float32 := f32_div (f32_of_int 1) (f32_of_int 2).
Definition sample_rand : randoms := MkRandoms sample_half sample_half (f32_div (f32_of_int 3) (f32_of_int 4)) f0.
Definition sample_step : float32 := f32_div (f32_of_int 1) (f32_of_int 8).

Lemma aoi_test_simulates_witness :
  exists s0 s, simulate (fun _ => 0) map_to_list 3 2 1 sample_step (f32_of_int 100) s0 = Ret s /\
    Forall (fun e => in_box (te_x e) /\ in_box (te_y e) /\ in_box (te_z e)) (sim_entities s).
Proof.
  destruct (aoi_test_simulates (fun _ => 0) map_to_list 3 sample_step (f32_of_int 100) [sample_rand; sample_rand] [sample_rand])
    as (s0 & s & _ & Hs & Hb & _).
  - assert (randoms_ok sample_rand) as Hr by (unfold randoms_ok, random_number; split_and!; vm_compute; reflexivity). by repeat constructor.
  - unfold step_ok. split_and!; vm_compute; reflexivity.
  - by vm_compute.
  - exists s0, s. exact (conj Hs Hb).
Defined.

(** At the edge: [Move] lets an entity reach 1000, where the grid ends before; the
    update is refused, and so is the next. *)
Definition edge_entity : TestEntity :=
  MkTestEntity "player_0" (f32_sub f1000 sample_half) f0 f0 0 (f32_of_int 4) f0 f0.

Example edge_is_outside :
  te_x (Move edge_entity sample_step) = f1000 /\
  (forall conv m g, game_world m -> GetGrid conv m (te_x (Move edge_entity sample_step)) f0 <> Ret g).
Proof.
  assert (te_x (Move edge_entity sample_step) = f1000) as E by (by vm_compute). split; [done|]. rewrite E. intros conv m g Hw.
  unfold GetGrid, out_of_scene. by rewrite (gw_maxX m Hw), (gw_minX m Hw).
Qed.
