(* ===== verification/PlayerState.v ===== *)
(** * Player state and its synchronisation ([pkg/sync/player_state.go])

    The manager keeps pointers to the states of the players, which the
    area-of-interest grid shares: the states live in a heap, and the grid reads
    positions through it.  Calls are modelled one after the other; a callback is
    recorded as called and its own effects are not followed.  Positions handed
    to the manager are not nil. *)

From Stdlib Require Import SpecFloat.
From Stdlib Require Import ZArith Lia.
From stdpp Require Import base gmap strings fin_maps numbers list.
From S2P Require Import Prelude Float32 Aoi.

Local Open Scope Z_scope.

(** X, Y and Z of a [pb.Position] or [pb.Vector3]. *)
Definition vec3 : Type := float32 * float32 * float32.

Definition origin : vec3 := (f32_of_int 0, f32_of_int 0, f32_of_int 0).

Section player_state.
(** The values of attributes ([interface{}]) and what float conversion does
    out of range. *)
Context {value : Type} (conv : float32 -> Z).

Record PlayerState := MkPlayer {
  ID : string;
  Position : vec3;
  Velocity : vec3;
  Rotation : float32;
  LastSyncTime : Z;
  LastUpdateTime : Z;
  Attributes : gmap string value;
  UpdateMask : Z
}.

Record PlayerStateManager := MkManager {
  objects : gmap ptr PlayerState;
  players : gmap string ptr;
  subscribers : gmap string (list string);
  callbacks : gmap string nat;
  aoiManager : AOIManager
}.

Inductive PsError :=
  | ErrPlayerNotFound (id : string)
  | ErrTargetNotFound (id : string)
  | ErrAoi (e : AoiError).

Definition UpdatePosition : Z := 1.
Definition UpdateVelocity : Z := 2.
Definition UpdateRotation : Z := 4.
Definition UpdateAttributes : Z := 8.

(** A player as [RegisterPlayer] makes it at the millisecond [now]. *)
Definition new_player (playerID : string) (now : Z) : PlayerState :=
  {| ID := playerID; Position := origin; Velocity := origin; Rotation := f32_of_int 0;
     LastSyncTime := now; LastUpdateTime := now; Attributes := ∅; UpdateMask := 0 |}.

Definition deref (h : gmap ptr PlayerState) (p : ptr) : PlayerState :=
  default (new_player "" 0) (h !! p).

(** The methods the players give the grid. *)
Definition entities_of (h : gmap ptr PlayerState) : Entities :=
  {| GetID p := ID (deref h p); GetPosition p := Position (deref h p); GetTypeID _ := 0 |}.

Definition NewPlayerStateManager : outcome PsError PlayerStateManager :=
  match NewAOIManager (f32_of_int 0) (f32_of_int 1000) (f32_of_int 0) (f32_of_int 1000) 20 with
  | Ret m => Ret {| objects := ∅; players := ∅; subscribers := ∅; callbacks := ∅; aoiManager := m |}
  | Fail e => Fail (ErrAoi e)
  | Panic => Panic
  end.

Definition set_aoi (m : PlayerStateManager) (a : AOIManager) : PlayerStateManager :=
  {| objects := objects m; players := players m; subscribers := subscribers m;
     callbacks := callbacks m; aoiManager := a |}.

Definition set_object (m : PlayerStateManager) (p : ptr) (s : PlayerState) : PlayerStateManager :=
  {| objects := <[p := s]> (objects m); players := players m; subscribers := subscribers m;
     callbacks := callbacks m; aoiManager := aoiManager m |}.

Definition set_subscribers (m : PlayerStateManager) (s : gmap string (list string)) : PlayerStateManager :=
  {| objects := objects m; players := players m; subscribers := s;
     callbacks := callbacks m; aoiManager := aoiManager m |}.

(** An error of the grid is logged and otherwise ignored. *)
Definition log_aoi (m : PlayerStateManager) (o : outcome AoiError AOIManager) :
    outcome PsError PlayerStateManager :=
  match o with
  | Ret a => Ret (set_aoi m a)
  | Fail _ => Ret m
  | Panic => Panic
  end.

Definition RegisterPlayer (now : Z) (m : PlayerStateManager) (playerID : string) :
    outcome PsError (PlayerStateManager * ptr) :=
  match players m !! playerID with
  | Some player => Ret (m, player)
  | None =>
      let player := fresh (dom (objects m)) in
      let m := {| objects := <[player := new_player playerID now]> (objects m);
                  players := <[playerID := player]> (players m);
                  subscribers := <[playerID := []]> (subscribers m);
                  callbacks := callbacks m; aoiManager := aoiManager m |} in
      m ← log_aoi m (AddEntity conv (entities_of (objects m)) (aoiManager m) player);
      Ret (m, player)
  end.

(** The list without an ID, its order kept. *)
Fixpoint without (id : string) (subs : list string) : list string :=
  match subs with
  | [] => []
  | subID :: subs => if bool_decide (subID <> id) then subID :: without id subs else without id subs
  end.

Definition UnregisterPlayer (m : PlayerStateManager) (playerID : string) :
    outcome PsError PlayerStateManager :=
  match players m !! playerID with
  | None => Ret m
  | Some player =>
      m ← log_aoi m (RemoveEntity conv (entities_of (objects m)) (aoiManager m) player);
      Ret {| objects := objects m; players := delete playerID (players m);
             subscribers := without playerID <$> delete playerID (subscribers m);
             callbacks := callbacks m; aoiManager := aoiManager m |}
  end.

Definition GetPlayer (m : PlayerStateManager) (playerID : string) : outcome PsError ptr :=
  match players m !! playerID with
  | None => Fail (ErrPlayerNotFound playerID)
  | Some player => Ret player
  end.

(** What a notification does: a line of the log for each subscriber, and the
    callbacks by name, in the order the map is visited. *)
Inductive ps_event :=
  | NotifySubscriber (subscriberID playerID : string)
  | CallCallback (name playerID : string).

Section orders.
Context (cb_order : gmap string nat -> list (string * nat)).

Definition notifySubscribers (m : PlayerStateManager) (playerID : string) : list ps_event :=
  ((fun s => NotifySubscriber s playerID) <$> default [] (subscribers m !! playerID))
  ++ ((fun kv => CallCallback kv.1 playerID) <$> cb_order (callbacks m)).

(** The fields an update sets besides its own. *)
Definition touch (now mask : Z) (s : PlayerState) : PlayerState :=
  {| ID := ID s; Position := Position s; Velocity := Velocity s; Rotation := Rotation s;
     LastSyncTime := LastSyncTime s; LastUpdateTime := now; Attributes := Attributes s;
     UpdateMask := Z.lor (UpdateMask s) mask |}.

Definition UpdatePlayerPosition (now : Z) (m : PlayerStateManager) (playerID : string) (position : vec3) :
    outcome PsError (PlayerStateManager * list ps_event) :=
  player ← GetPlayer m playerID;
  let '(oldX, _, oldZ) := Position (deref (objects m) player) in
  let s := touch now UpdatePosition (deref (objects m) player) in
  let m := set_object m player
    {| ID := ID s; Position := position; Velocity := Velocity s; Rotation := Rotation s;
       LastSyncTime := LastSyncTime s; LastUpdateTime := LastUpdateTime s;
       Attributes := Attributes s; UpdateMask := UpdateMask s |} in
  m ← log_aoi m (UpdateEntity conv (entities_of (objects m)) (aoiManager m) player oldX oldZ);
  Ret (m, notifySubscribers m playerID).

Definition UpdatePlayerVelocity (now : Z) (m : PlayerStateManager) (playerID : string) (velocity : vec3) :
    outcome PsError (PlayerStateManager * list ps_event) :=
  player ← GetPlayer m playerID;
  let s := touch now UpdateVelocity (deref (objects m) player) in
  let m := set_object m player
    {| ID := ID s; Position := Position s; Velocity := velocity; Rotation := Rotation s;
       LastSyncTime := LastSyncTime s; LastUpdateTime := LastUpdateTime s;
       Attributes := Attributes s; UpdateMask := UpdateMask s |} in
  Ret (m, notifySubscribers m playerID).

Definition UpdatePlayerRotation (now : Z) (m : PlayerStateManager) (playerID : string) (rotation : float32) :
    outcome PsError (PlayerStateManager * list ps_event) :=
  player ← GetPlayer m playerID;
  let s := touch now UpdateRotation (deref (objects m) player) in
  let m := set_object m player
    {| ID := ID s; Position := Position s; Velocity := Velocity s; Rotation := rotation;
       LastSyncTime := LastSyncTime s; LastUpdateTime := LastUpdateTime s;
       Attributes := Attributes s; UpdateMask := UpdateMask s |} in
  Ret (m, notifySubscribers m playerID).

Definition UpdatePlayerAttribute (now : Z) (m : PlayerStateManager) (playerID key : string) (v : value) :
    outcome PsError (PlayerStateManager * list ps_event) :=
  player ← GetPlayer m playerID;
  let s := touch now UpdateAttributes (deref (objects m) player) in
  let m := set_object m player
    {| ID := ID s; Position := Position s; Velocity := Velocity s; Rotation := Rotation s;
       LastSyncTime := LastSyncTime s; LastUpdateTime := LastUpdateTime s;
       Attributes := <[key := v]> (Attributes s); UpdateMask := UpdateMask s |} in
  Ret (m, notifySubscribers m playerID).

Definition SubscribeToPlayer (m : PlayerStateManager) (subscriberID targetID : string) :
    outcome PsError PlayerStateManager :=
  match players m !! targetID with
  | None => Fail (ErrTargetNotFound targetID)
  | Some _ =>
      let subs := default [] (subscribers m !! targetID) in
      if existsb (fun id => bool_decide (id = subscriberID)) subs then Ret m
      else Ret (set_subscribers m (<[targetID := subs ++ [subscriberID]]> (subscribers m)))
  end.

Definition UnsubscribeFromPlayer (m : PlayerStateManager) (subscriberID targetID : string) :
    outcome PsError PlayerStateManager :=
  match subscribers m !! targetID with
  | None => Fail (ErrTargetNotFound targetID)
  | Some subs => Ret (set_subscribers m (<[targetID := without subscriberID subs]> (subscribers m)))
  end.

Definition RegisterCallback (m : PlayerStateManager) (name : string) (callback : nat) : PlayerStateManager :=
  {| objects := objects m; players := players m; subscribers := subscribers m;
     callbacks := <[name := callback]> (callbacks m); aoiManager := aoiManager m |}.

Definition UnregisterCallback (m : PlayerStateManager) (name : string) : PlayerStateManager :=
  {| objects := objects m; players := players m; subscribers := subscribers m;
     callbacks := delete name (callbacks m); aoiManager := aoiManager m |}.

(** An outcome of the grid, its errors passed on. *)
Definition lift_aoi {A} (o : outcome AoiError A) : outcome PsError A :=
  match o with Ret a => Ret a | Fail e => Fail (ErrAoi e) | Panic => Panic end.

Definition ps_GetNearbyPlayers (m : PlayerStateManager) (playerID : string) (range_ : Z) : outcome PsError Z :=
  player ← GetPlayer m playerID;
  let '(x, _, z) := Position (deref (objects m) player) in
  lift_aoi (GetNearbyPlayers conv (aoiManager m) x z range_).

(** ** The synchronisation service *)

(** The fields of [pb.PositionSyncRequest] the service reads; its header, which
    the response copies, is not nil. *)
Record PositionSyncRequest := MkSyncRequest {
  rq_EntityId : string;
  rq_Position : vec3;
  rq_Velocity : option vec3;
  rq_Rotation : float32;
  rq_Timestamp : Z
}.

Record EntityPosition := MkEntityPosition {
  ep_EntityId : string;
  ep_EntityType : string;
  ep_Position : vec3;
  ep_Rotation : float32;
  ep_Velocity : vec3
}.

(** The texts of [ResultMsg]. *)
Inductive result_msg :=
  | MsgSuccess
  | MsgError (e : PsError)
  | MsgBroadcast (playerCount : Z)
  | MsgNoSender (senderID : string)
  | MsgNearbyFailed (e : PsError)
  | MsgNearby (nearbyPlayers : Z)
  | MsgGroup (targetCount chatType : Z).

Record PositionSyncResponse := MkSyncResponse {
  Success : bool;
  NearbyEntities : list EntityPosition;
  HeaderTimestamp : Z;
  ResultCode : Z;
  ResultMsg : result_msg
}.

(** The order in which a map of entities is visited. *)
Context (ent_order : gmap string ptr -> list (string * ptr)).

Definition entity_position (m : PlayerStateManager) (e : ptr) : EntityPosition :=
  let s := deref (objects m) e in
  {| ep_EntityId := ID s; ep_EntityType := "player"; ep_Position := Position s;
     ep_Rotation := Rotation s; ep_Velocity := Velocity s |}.

Definition entities_within (m : PlayerStateManager) (player : ptr) (distance : Z) : outcome PsError (list ptr) :=
  let '(x, y, z) := Position (deref (objects m) player) in
  lift_aoi (GetEntitiesByDistance conv ent_order (entities_of (objects m)) (aoiManager m)
              x y z (f32_of_int distance)).

Definition getNearbyEntities (m : PlayerStateManager) (playerID : string) :
    outcome PsError (list EntityPosition) :=
  player ← GetPlayer m playerID;
  es ← entities_within m player 100;
  Ret (entity_position m <$> filter (fun e => ID (deref (objects m) e) <> playerID) (es : list ptr)).

(** A call whose error is dropped. *)
Definition ignore_error (m : PlayerStateManager) (o : outcome PsError (PlayerStateManager * list ps_event)) :
    outcome PsError (PlayerStateManager * list ps_event) :=
  match o with Fail _ => Ret (m, []) | _ => o end.

(** The manager, the notifications, the response and the error returned. *)
Definition SyncPosition (now : Z) (m : PlayerStateManager) (req : PositionSyncRequest) :
    outcome PsError (PlayerStateManager * list ps_event * PositionSyncResponse * option PsError) :=
  match UpdatePlayerPosition now m (rq_EntityId req) (rq_Position req) with
  | Panic => Panic
  | Fail err =>
      Ret (m, [], {| Success := false; NearbyEntities := []; HeaderTimestamp := now;
                     ResultCode := 1; ResultMsg := MsgError err |}, Some err)
  | Ret (m, ev1) =>
      '(m, ev2) ← match rq_Velocity req with
                  | Some v => ignore_error m (UpdatePlayerVelocity now m (rq_EntityId req) v)
                  | None => Ret (m, [])
                  end;
      '(m, ev3) ← ignore_error m (UpdatePlayerRotation now m (rq_EntityId req) (rq_Rotation req));
      nearbyEntities ← match getNearbyEntities m (rq_EntityId req) with
                       | Fail _ => Ret []
                       | o => o
                       end;
      Ret (m, ev1 ++ ev2 ++ ev3,
           {| Success := true; NearbyEntities := nearbyEntities;
              HeaderTimestamp := int64 (rq_Timestamp req + 50);
              ResultCode := 0; ResultMsg := MsgSuccess |}, None)
  end.

(** ** The broadcast service *)

Record ChatResponse := MkChatResponse {
  Delivered : bool;
  ChatResultCode : Z;
  ChatResultMsg : result_msg
}.

Definition BroadcastMessage (m : PlayerStateManager) : ChatResponse :=
  {| Delivered := true; ChatResultCode := 0; ChatResultMsg := MsgBroadcast (Z.of_nat (size (players m))) |}.

Definition BroadcastToNearby (m : PlayerStateManager) (senderID : string) :
    outcome PsError (ChatResponse * option PsError) :=
  match GetPlayer m senderID with
  | Panic => Panic
  | Fail err => Ret ({| Delivered := false; ChatResultCode := 1; ChatResultMsg := MsgNoSender senderID |}, Some err)
  | Ret player =>
      match entities_within m player 100 with
      | Panic => Panic
      | Fail err =>
          Ret ({| Delivered := false; ChatResultCode := 1; ChatResultMsg := MsgNearbyFailed err |}, Some err)
      | Ret es =>
          let env := entities_of (objects m) in
          let nearbyPlayers := length (filter (fun e => GetID env e <> senderID /\ GetTypeID env e = 0) es) in
          Ret ({| Delivered := true; ChatResultCode := 0;
                  ChatResultMsg := MsgNearby (Z.of_nat nearbyPlayers) |}, None)
      end
  end.

(** The values of [pb.ChatType]. *)
Definition ChatType_PRIVATE : Z := 1.
Definition ChatType_TEAM : Z := 2.
Definition ChatType_GUILD : Z := 3.
Definition ChatType_CHANNEL : Z := 5.

Definition GroupcastMessage (chatType : Z) (targetID : string) : ChatResponse :=
  let targetCount :=
    if decide (chatType = ChatType_PRIVATE) then (if decide (targetID = ""%string) then 0 else 1)
    else if decide (chatType = ChatType_TEAM) then 5
    else if decide (chatType = ChatType_GUILD) then 50
    else if decide (chatType = ChatType_CHANNEL) then 100
    else 0 in
  {| Delivered := true; ChatResultCode := 0; ChatResultMsg := MsgGroup targetCount chatType |}.

End orders.

(** ** Invariant *)

(** The grid a position falls in. *)
Definition cell (a : AOIManager) (v : vec3) : GridPos :=
  let '(x, _, z) := v in match GetGrid conv a x z with Ret k => k | _ => (0, 0) end.

Definition vec_in_world (v : vec3) : Prop := in_world v.1.1 v.2.

(** Each registered player in the grid of its position. *)
Definition placement_of (m : PlayerStateManager) : placement :=
  (fun p => (p, cell (aoiManager m) (Position (deref (objects m) p)))) <$> players m.

Record ps_inv (m : PlayerStateManager) : Prop := {
  pi_world : game_world (aoiManager m);
  pi_alloc id p : players m !! id = Some p -> exists s, objects m !! p = Some s /\ ID s = id;
  pi_scene id p : players m !! id = Some p -> vec_in_world (Position (deref (objects m) p));
  pi_placed : placed (entities_of (objects m)) (aoiManager m) (placement_of m);
  pi_subs id : is_Some (subscribers m !! id) <-> is_Some (players m !! id);
  pi_nodup id l : subscribers m !! id = Some l -> NoDup l
}.

Lemma cell_GetGrid a v :
  game_world a -> vec_in_world v -> GetGrid conv a v.1.1 v.2 = Ret (cell a v).
Proof.
  intros Hw Hv. destruct v as [[x y] z]. destruct (game_world_GetGrid conv a x z Hw Hv) as (i & j & He & _).
  unfold cell. simpl. by rewrite He.
Qed.

Lemma same_scene_cell a a' v : same_scene a a' -> cell a' v = cell a v.
Proof. intros Hs. destruct v as [[x y] z]. unfold cell. by rewrite (same_scene_GetGrid conv a a'). Qed.

Lemma ps_deref_alloc h p s : h !! p = Some s -> deref h p = s.
Proof. unfold deref. by intros ->. Qed.

Lemma ps_deref_insert h p s q : deref (<[p := s]> h) q = if decide (p = q) then s else deref h q.
Proof. unfold deref. rewrite lookup_insert. by case_decide. Qed.

Lemma placement_lookup m id e k :
  placement_of m !! id = Some (e, k) <->
  players m !! id = Some e /\ k = cell (aoiManager m) (Position (deref (objects m) e)).
Proof.
  unfold placement_of. rewrite lookup_fmap, fmap_Some. naive_solver.
Qed.

(** Writing a player's state, its ID kept. *)
Lemma player_unique m id1 id2 p :
  ps_inv m -> players m !! id1 = Some p -> players m !! id2 = Some p -> id1 = id2.
Proof.
  intros Hi H1 H2. destruct (pi_alloc m Hi _ _ H1) as (s1 & E1 & <-), (pi_alloc m Hi _ _ H2) as (s2 & E2 & <-).
  congruence.
Qed.

Lemma entities_ext m p s :
  ps_inv m -> (forall s', objects m !! p = Some s' -> ID s = ID s') ->
  (forall id, players m !! id = Some p -> is_Some (objects m !! p)) ->
  placed (entities_of (<[p := s]> (objects m))) (aoiManager m) (placement_of m).
Proof.
  intros Hi Hid Hal. apply (placed_env_ext (entities_of (objects m))); [|done|apply Hi].
  intros id e k [He _]%placement_lookup. simpl. rewrite ps_deref_insert. case_decide; [subst|done].
  destruct (Hal id He) as [s' Hs']. rewrite (Hid s' Hs'), (ps_deref_alloc _ _ _ Hs'). done.
Qed.

Lemma placement_update m m' id p s :
  players m' = <[id := p]> (players m) -> objects m' = <[p := s]> (objects m) ->
  same_scene (aoiManager m) (aoiManager m') ->
  (forall id', players m !! id' = Some p -> id' = id) ->
  placement_of m' = <[id := (p, cell (aoiManager m) (Position s))]> (placement_of m).
Proof.
  intros Hp Ho Hs Hu. apply map_eq. intros id'. unfold placement_of. rewrite Hp, Ho, lookup_fmap, !lookup_insert.
  case_decide as Hd; simpl.
  - by rewrite ps_deref_insert, decide_True, (same_scene_cell _ _ _ Hs).
  - rewrite lookup_fmap. destruct (players m !! id') as [q|] eqn:Hq; [|done]. simpl.
    rewrite ps_deref_insert, decide_False, (same_scene_cell _ _ _ Hs); [done|].
    intros <-. by destruct Hd; rewrite (Hu id').
Qed.

Lemma origin_in_world : vec_in_world origin.
Proof. by repeat split. Qed.

Lemma ps_register_inv now m id :
  ps_inv m ->
  exists m' p, RegisterPlayer now m id = Ret (m', p) /\ ps_inv m' /\ players m' !! id = Some p.
Proof.
  intros Hi. unfold RegisterPlayer. destruct (players m !! id) as [q|] eqn:Hq; [by exists m, q|].
  set (p := fresh (dom (objects m))). cbn zeta.
  assert (objects m !! p = None) as Hp by apply not_elem_of_dom, is_fresh.
  assert (forall id', players m !! id' <> Some p) as Hno.
  { intros id' H. apply (pi_alloc m Hi) in H as (s & Hs & _). congruence. }
  set (m1 := MkManager _ _ _ _ _). set (s := new_player id now) in *.
  assert (entities_of (objects m1) = entities_of (<[p := s]> (objects m))) as Henv by done.
  destruct (AddEntity_placed conv (entities_of (objects m1)) (aoiManager m1) (placement_of m) p
    origin.1.1 origin.1.2 origin.2 (cell (aoiManager m) (Position s))) as (a & Ha & Hs & HP).
  - rewrite Henv. apply (entities_ext m p s); [done|by rewrite Hp|]. intros id' H. by destruct (Hno id').
  - simpl. by rewrite ps_deref_insert, decide_True.
  - apply (cell_GetGrid (aoiManager m)); [apply Hi|apply origin_in_world].
  - simpl. rewrite ps_deref_insert, decide_True by done. apply eq_None_not_Some.
    intros [[e k] [He _]%placement_lookup]. simpl in He. congruence.
  - rewrite Ha. simpl. eexists _, p. split; [done|]. simpl. rewrite lookup_insert_eq. split; [|done].
    assert (GetID (entities_of (objects m1)) p = id) as Hid
      by (simpl; by rewrite ps_deref_insert, decide_True).
    rewrite Hid in HP.
    rewrite <- (placement_update m (set_aoi m1 a) id p s) in HP by (done || intros id' H; by destruct (Hno id')).
    split; simpl; [by eapply same_scene_world, Hi| | |done| |].
    + intros id' q. destruct (decide (id = id')) as [<-|Hne].
      * rewrite lookup_insert_eq. intros [= <-]. exists s. by rewrite lookup_insert_eq.
      * rewrite lookup_insert_ne by done. intros Hq'. destruct (decide (p = q)) as [<-|]; [by destruct (Hno id')|].
        rewrite lookup_insert_ne by done. by apply Hi.
    + intros id' q. rewrite ps_deref_insert. destruct (decide (p = q)) as [<-|Hne]; [done|].
      destruct (decide (id = id')) as [<-|]; [rewrite lookup_insert_eq; congruence|].
      rewrite lookup_insert_ne by done. apply Hi.
    + intros id'. rewrite !lookup_insert. case_decide; [naive_solver|apply Hi].
    + intros id' l. rewrite lookup_insert. case_decide; [intros [= <-]; constructor|apply Hi].
Qed.

(** A player's state is changed in other fields than ID and position. *)
Lemma ps_set_object_inv m id p s :
  ps_inv m -> players m !! id = Some p -> ID s = id ->
  Position s = Position (deref (objects m) p) -> ps_inv (set_object m p s).
Proof.
  intros Hi Hp Hid Hpos.
  assert (forall q, Position (deref (<[p := s]> (objects m)) q) = Position (deref (objects m) q)) as Hsame.
  { intros q. rewrite ps_deref_insert. by case_decide; subst. }
  destruct (pi_alloc m Hi id p Hp) as (s0 & Hs0 & Hs0id).
  split; simpl; [apply Hi| | | |apply Hi|apply Hi].
  - intros id' q Hq. rewrite lookup_insert. case_decide; subst; [|by apply Hi].
    exists s. split; [done|]. by eapply player_unique.
  - intros id' q Hq. rewrite Hsame. by eapply (pi_scene m Hi).
  - assert (placement_of (set_object m p s) = placement_of m) as ->.
    { unfold placement_of. simpl. apply map_fmap_ext. intros id' q _. by rewrite Hsame. }
    apply entities_ext; [done|intros s' Hs'; congruence|by rewrite Hs0].
Qed.

Lemma update_position_inv cb now m id p v :
  ps_inv m -> players m !! id = Some p -> vec_in_world v ->
  exists m' ev, UpdatePlayerPosition cb now m id v = Ret (m', ev) /\ ps_inv m' /\
    players m' = players m /\ subscribers m' = subscribers m /\
    Position (deref (objects m') p) = v /\
    (forall q, q <> p -> deref (objects m') q = deref (objects m) q).
Proof.
  intros Hi Hp Hv. unfold UpdatePlayerPosition, GetPlayer. rewrite Hp. gosimpl.
  destruct (Position (deref (objects m) p)) as [[oldX oldY] oldZ] eqn:Hold. cbn zeta.
  destruct (pi_alloc m Hi id p Hp) as (s0 & Hs0 & Hs0id).
  assert (ID (deref (objects m) p) = id) as Hid by (by rewrite (ps_deref_alloc _ _ _ Hs0)).
  set (s := MkPlayer _ _ _ _ _ _ _ _). set (m1 := set_object m p s).
  destruct (UpdateEntity_placed conv (entities_of (objects m1)) (aoiManager m) (placement_of m) p
    v.1.1 v.1.2 v.2 oldX oldZ (cell (aoiManager m) (oldX, oldY, oldZ)) (cell (aoiManager m) (Position s)))
    as (a & Ha & Hs & HP).
  - simpl. apply entities_ext; [done| |by rewrite Hs0]. intros s' Hs'. simpl. by rewrite (ps_deref_alloc _ _ _ Hs').
  - simpl. rewrite ps_deref_insert, decide_True by done. by destruct v as [[? ?] ?].
  - apply (cell_GetGrid (aoiManager m) (oldX, oldY, oldZ)); [apply Hi|].
    rewrite <- Hold. by eapply (pi_scene m Hi).
  - apply (cell_GetGrid (aoiManager m) v); [apply Hi|done].
  - simpl. rewrite ps_deref_insert, decide_True by done. simpl. rewrite Hid.
    apply placement_lookup. by rewrite Hold.
  - change (aoiManager m1) with (aoiManager m). rewrite Ha. simpl.
    assert (GetID (entities_of (objects m1)) p = id) as Hid1
      by (simpl; by rewrite ps_deref_insert, decide_True).
    rewrite Hid1 in HP.
    rewrite <- (placement_update m (set_aoi m1 a) id p s) in HP;
      [|simpl; by rewrite insert_id|done|done|intros id' H; by eapply player_unique].
    eexists _, _. split; [done|]. simpl. split_and!; [|done|done|by rewrite ps_deref_insert, decide_True|].
    2: { intros q Hq. by rewrite ps_deref_insert, decide_False. }
    split; simpl; [by eapply same_scene_world, Hi| | |done|apply Hi|apply Hi].
    + intros id' q Hq. destruct (decide (p = q)) as [<-|Hne].
      * exists s. rewrite lookup_insert_eq. split; [done|]. simpl. rewrite Hid. by eapply player_unique.
      * rewrite lookup_insert_ne by done. by apply Hi.
    + intros id' q Hq. rewrite ps_deref_insert. case_decide; [done|]. by eapply (pi_scene m Hi).
Qed.

Lemma elem_of_without id l x : x ∈ without id l <-> x ∈ l /\ x <> id.
Proof.
  induction l as [|y l IH]; simpl; [set_solver|].
  case_bool_decide; rewrite !elem_of_cons, ?IH; intuition congruence.
Qed.

Lemma NoDup_without id l : NoDup l -> NoDup (without id l).
Proof.
  induction 1 as [|y l Hy Hd IH]; simpl; [constructor|].
  case_bool_decide; [|done]. constructor; [|done]. rewrite elem_of_without. tauto.
Qed.

Lemma ps_unregister_inv m id p :
  ps_inv m -> players m !! id = Some p ->
  exists m', UnregisterPlayer m id = Ret m' /\ ps_inv m' /\ players m' = delete id (players m) /\
    objects m' = objects m /\ subscribers m' = without id <$> delete id (subscribers m).
Proof.
  intros Hi Hp. unfold UnregisterPlayer. rewrite Hp.
  destruct (pi_alloc m Hi id p Hp) as (s & Hs & Hsid).
  assert (GetID (entities_of (objects m)) p = id) as Hid by (simpl; by rewrite (ps_deref_alloc _ _ _ Hs)).
  set (v := Position (deref (objects m) p)).
  destruct (RemoveEntity_placed conv (entities_of (objects m)) (aoiManager m) (placement_of m) p
    v.1.1 v.1.2 v.2 (cell (aoiManager m) v)) as (a & Ha & Hsc & HP).
  - apply Hi.
  - simpl. fold v. by destruct v as [[? ?] ?].
  - apply cell_GetGrid; [apply Hi|by eapply (pi_scene m Hi)].
  - rewrite Hid. by apply placement_lookup.
  - rewrite Ha. simpl. eexists. split; [done|]. simpl. split_and!; try done.
    rewrite Hid in HP.
    split; simpl; [by eapply same_scene_world, Hi| | | | |].
    + intros id' q [_ Hq]%lookup_delete_Some. by apply Hi.
    + intros id' q [_ Hq]%lookup_delete_Some. by eapply (pi_scene m Hi).
    + assert (placement_of (MkManager (objects m) (delete id (players m))
        (without id <$> delete id (subscribers m)) (callbacks m) a) = delete id (placement_of m)) as ->;
        [|done].
      unfold placement_of. simpl. rewrite fmap_delete. f_equal. apply map_fmap_ext.
      intros id' q _. by rewrite (same_scene_cell _ _ _ Hsc).
    + intros id'. rewrite lookup_fmap, fmap_is_Some, !lookup_delete. case_decide; [done|apply Hi].
    + intros id' l. rewrite lookup_fmap. intros (l0 & [_ Hl]%lookup_delete_Some & ->)%fmap_Some.
      by eapply NoDup_without, (pi_nodup m Hi).
Qed.

Lemma set_subscribers_inv m target l :
  ps_inv m -> is_Some (players m !! target) -> NoDup l ->
  ps_inv (set_subscribers m (<[target := l]> (subscribers m))).
Proof.
  intros Hi Ht Hl. destruct Hi. split; try done; simpl.
  - intros id. rewrite lookup_insert. case_decide; subst; [naive_solver|done].
  - intros id l'. rewrite lookup_insert. case_decide; [naive_solver|eauto].
Qed.

(** ** Runs *)

Inductive ps_op :=
  | OpRegister (now : Z) (id : string)
  | OpUnregister (id : string)
  | OpPosition (now : Z) (id : string) (v : vec3)
  | OpVelocity (now : Z) (id : string) (v : vec3)
  | OpRotation (now : Z) (id : string) (r : float32)
  | OpAttribute (now : Z) (id key : string) (v : value)
  | OpSubscribe (subscriber target : string)
  | OpUnsubscribe (subscriber target : string)
  | OpRegisterCallback (name : string) (callback : nat)
  | OpUnregisterCallback (name : string).

Context (cb_order : gmap string nat -> list (string * nat)).

Definition ps_step (m : PlayerStateManager) (op : ps_op) : outcome PsError PlayerStateManager :=
  match op with
  | OpRegister now id => fst <$> RegisterPlayer now m id
  | OpUnregister id => UnregisterPlayer m id
  | OpPosition now id v => fst <$> UpdatePlayerPosition cb_order now m id v
  | OpVelocity now id v => fst <$> UpdatePlayerVelocity cb_order now m id v
  | OpRotation now id r => fst <$> UpdatePlayerRotation cb_order now m id r
  | OpAttribute now id key v => fst <$> UpdatePlayerAttribute cb_order now m id key v
  | OpSubscribe s t => SubscribeToPlayer m s t
  | OpUnsubscribe s t => UnsubscribeFromPlayer m s t
  | OpRegisterCallback name c => Ret (RegisterCallback m name c)
  | OpUnregisterCallback name => Ret (UnregisterCallback m name)
  end.

(** A call that returns an error leaves the manager as it was. *)
Fixpoint ps_run (m : PlayerStateManager) (ops : list ps_op) : outcome PsError PlayerStateManager :=
  match ops with
  | [] => Ret m
  | op :: ops =>
      match ps_step m op with
      | Ret m' => ps_run m' ops
      | Fail _ => ps_run m ops
      | Panic => Panic
      end
  end.

(** Positions are only set inside the world. *)
Definition stays_in_world (op : ps_op) : Prop :=
  match op with OpPosition _ _ v => vec_in_world v | _ => True end.

Lemma update_object_inv m id f :
  ps_inv m ->
  (forall s, ID (f s) = ID s /\ Position (f s) = Position s) ->
  match (p ← GetPlayer m id; Ret (set_object m p (f (deref (objects m) p)))) with
  | Ret m' => ps_inv m'
  | Fail _ => True
  | Panic => False
  end.
Proof.
  intros Hi Hf. unfold GetPlayer. destruct (players m !! id) as [p|] eqn:Hp; simpl; [|done].
  destruct (pi_alloc m Hi id p Hp) as (s & Hs & Hid).
  eapply ps_set_object_inv; [done|done| |apply Hf]. rewrite (proj1 (Hf _)), (ps_deref_alloc _ _ _ Hs). done.
Qed.

Lemma ps_step_inv m op :
  ps_inv m -> stays_in_world op ->
  match ps_step m op with Ret m' => ps_inv m' | Fail _ => True | Panic => False end.
Proof.
  intros Hi Hop.
  destruct op as [now id|id|now id v|now id v|now id r|now id key v|s t|s t|name c|name]; simpl.
  - by destruct (ps_register_inv now m id Hi) as (m' & p & -> & ? & _).
  - destruct (players m !! id) as [p|] eqn:Hp.
    + by destruct (ps_unregister_inv m id p Hi Hp) as (m' & -> & ? & _).
    + unfold UnregisterPlayer. by rewrite Hp.
  - destruct (players m !! id) as [p|] eqn:Hp.
    + by destruct (update_position_inv cb_order now m id p v Hi Hp Hop) as (m' & ev & -> & ? & _).
    + unfold UpdatePlayerPosition, GetPlayer. by rewrite Hp.
  - pose proof (update_object_inv m id (fun s => let s := touch now UpdateVelocity s in
      MkPlayer (ID s) (Position s) v (Rotation s) (LastSyncTime s) (LastUpdateTime s) (Attributes s) (UpdateMask s)) Hi
      ltac:(done)) as H.
    unfold UpdatePlayerVelocity, GetPlayer in *. by destruct (players m !! id).
  - pose proof (update_object_inv m id (fun s => let s := touch now UpdateRotation s in
      MkPlayer (ID s) (Position s) (Velocity s) r (LastSyncTime s) (LastUpdateTime s) (Attributes s) (UpdateMask s)) Hi
      ltac:(done)) as H.
    unfold UpdatePlayerRotation, GetPlayer in *. by destruct (players m !! id).
  - pose proof (update_object_inv m id (fun s => let s := touch now UpdateAttributes s in
      MkPlayer (ID s) (Position s) (Velocity s) (Rotation s) (LastSyncTime s) (LastUpdateTime s)
        (<[key := v]> (Attributes s)) (UpdateMask s)) Hi ltac:(done)) as H.
    unfold UpdatePlayerAttribute, GetPlayer in *. by destruct (players m !! id).
  - unfold SubscribeToPlayer. destruct (players m !! t) as [p|] eqn:Hp; [|done].
    destruct (existsb _ _) eqn:He; [done|]. apply set_subscribers_inv; [done|by rewrite Hp|].
    destruct (subscribers m !! t) as [l|] eqn:Hl; simpl in *; [|apply NoDup_singleton].
    apply NoDup_app. split_and!; [by eapply (pi_nodup m Hi)| |apply NoDup_singleton].
    intros x Hx ->%list_elem_of_singleton. apply not_true_iff_false in He. apply He.
    apply existsb_exists. exists s. split; [by apply list_elem_of_In|]. by apply bool_decide_eq_true.
  - unfold UnsubscribeFromPlayer. destruct (subscribers m !! t) as [l|] eqn:Hl; [|done].
    apply set_subscribers_inv; [done|apply (pi_subs m Hi); by rewrite Hl|].
    by eapply NoDup_without, (pi_nodup m Hi).
  - by destruct Hi.
  - by destruct Hi.
Qed.

Lemma ps_run_inv m ops :
  ps_inv m -> Forall stays_in_world ops -> exists m', ps_run m ops = Ret m' /\ ps_inv m'.
Proof.
  intros Hi Hops. revert m Hi. induction Hops as [|op ops Hop Hops IH]; intros m Hi; simpl; [eauto|].
  pose proof (ps_step_inv m op Hi Hop). destruct (ps_step m op); [by apply IH|by apply IH|done].
Qed.

Lemma new_manager_inv : exists m, NewPlayerStateManager = Ret m /\ ps_inv m.
Proof.
  unfold NewPlayerStateManager. destruct new_game_world as (a & Hn & Ha). rewrite Hn.
  eexists. split; [done|]. split; simpl; [done| | | | |].
  - intros id p. by rewrite lookup_empty.
  - intros id p. by rewrite lookup_empty.
  - unfold placement_of. simpl. rewrite fmap_empty. by eapply new_aoi_placed.
  - intros id. rewrite !lookup_empty. split; by intros [? ?].
  - intros id l. by rewrite lookup_empty.
Qed.

(** ** Properties *)

(** C4: every sequence of calls on a new manager that keeps players inside the
    world runs to its end without a panic, and then the grid holds exactly the
    registered players, each in the grid of its current position and counted
    there once; exactly the registered players have a subscriber list, and no
    list names a subscriber twice. *)
Theorem ps_run_consistent m0 ops
    (Hnew : NewPlayerStateManager = Ret m0) (Hops : Forall stays_in_world ops) :
  exists m, ps_run m0 ops = Ret m /\
    placed (entities_of (objects m)) (aoiManager m) (placement_of m) /\
    (forall id e k, placement_of m !! id = Some (e, k) <->
       players m !! id = Some e /\ ID (deref (objects m) e) = id /\
       GetGrid conv (aoiManager m) (Position (deref (objects m) e)).1.1
         (Position (deref (objects m) e)).2 = Ret k) /\
    (forall id, is_Some (subscribers m !! id) <-> is_Some (players m !! id)) /\
    (forall id l, subscribers m !! id = Some l -> NoDup l).
Proof.
  destruct new_manager_inv as (m1 & Hm1 & Hi1). rewrite Hnew in Hm1. injection Hm1 as <-.
  destruct (ps_run_inv m0 ops Hi1 Hops) as (m & Hm & Hi). exists m.
  split_and!; [done|apply Hi| |apply Hi|apply Hi].
  intros id e k. rewrite placement_lookup. split.
  - intros [Hp ->]. destruct (pi_alloc m Hi id e Hp) as (s & Hs & Hid).
    split_and!; [done|by rewrite (ps_deref_alloc _ _ _ Hs)|].
    apply cell_GetGrid; [apply Hi|by eapply (pi_scene m Hi)].
  - intros (Hp & _ & Hk). split; [done|].
    rewrite (cell_GetGrid (aoiManager m)) in Hk; [congruence|apply Hi|by eapply (pi_scene m Hi)].
Qed.

(** Unregistering a player forgets it everywhere: it is no longer
    registered or placed, has no subscriber list and is in nobody else's, and
    the lists of the others lose nothing else. *)
Theorem ps_unregister_forgets m id p (Hi : ps_inv m) (Hp : players m !! id = Some p) :
  exists m', UnregisterPlayer m id = Ret m' /\ ps_inv m' /\
    players m' = delete id (players m) /\ placement_of m' !! id = None /\
    subscribers m' !! id = None /\
    forall id' x, id' <> id ->
      (exists l, subscribers m' !! id' = Some l /\ x ∈ l) <->
      (exists l, subscribers m !! id' = Some l /\ x ∈ l) /\ x <> id.
Proof.
  destruct (ps_unregister_inv m id p Hi Hp) as (m' & Hu & Hi' & Hpl & _ & Hs). exists m'.
  split_and!; [done..| | |].
  - unfold placement_of. by rewrite lookup_fmap, Hpl, lookup_delete_eq.
  - by rewrite Hs, lookup_fmap, lookup_delete_eq.
  - intros id' x Hne. rewrite Hs, lookup_fmap, lookup_delete_ne by done. split.
    + intros (l & (l0 & Hl & ->)%fmap_Some & [Hx Hid]%elem_of_without). eauto.
    + intros [(l & Hl & Hx) Hid]. exists (without id l). rewrite Hl. split; [done|].
      by apply elem_of_without.
Qed.

(** A move out of the world is accepted but not followed by the grid, and
    unregistering the player then leaves it behind: the grid keeps counting and
    reporting a player that no longer exists. *)
Theorem ps_leaving_leaves_ghost now m id p v
    (Hi : ps_inv m) (Hp : players m !! id = Some p)
    (Hv : out_of_scene (aoiManager m) v.1.1 v.2 = true) :
  exists m1 ev m2, UpdatePlayerPosition cb_order now m id v = Ret (m1, ev) /\
    UnregisterPlayer m1 id = Ret m2 /\ players m2 !! id = None /\
    aoiManager m2 = aoiManager m /\
    forall x z c range_, GetGrid conv (aoiManager m) x z = Ret c ->
      GetNearbyPlayers conv (aoiManager m2) x z range_
      = Ret (Z.of_nat (size (filter (fun q : string * (ptr * GridPos) => near c q.2.2 range_) (placement_of m)))).
Proof.
  assert (forall x z, out_of_scene (aoiManager m) x z = true ->
            GetGrid conv (aoiManager m) x z = Fail (ErrOutOfScene x z)) as Hfail.
  { intros x z Ho. unfold GetGrid, fail_if. by rewrite Ho. }
  destruct v as [[vx vy] vz]. simpl in Hv.
  unfold UpdatePlayerPosition, GetPlayer. rewrite Hp. gosimpl.
  destruct (Position (deref (objects m) p)) as [[oldX oldY] oldZ] eqn:Hold. cbn zeta.
  set (m1 := set_object m p _).
  assert (Position (deref (objects m1) p) = (vx, vy, vz)) as Hpos by (simpl; by rewrite ps_deref_insert, decide_True).
  assert (log_aoi m1 (UpdateEntity conv (entities_of (objects m1)) (aoiManager m1) p oldX oldZ) = Ret m1) as ->.
  { unfold UpdateEntity. change (GetPosition (entities_of (objects m1)) p) with (Position (deref (objects m1) p)).
    rewrite Hpos. change (aoiManager m1) with (aoiManager m). rewrite (Hfail _ _ Hv).
    pose proof (cell_GetGrid (aoiManager m) (oldX, oldY, oldZ) (pi_world m Hi)) as Hc. simpl in Hc.
    rewrite Hc by (rewrite <- Hold; by eapply (pi_scene m Hi)). done. }
  gosimpl. eexists m1, _, _. split; [done|]. unfold UnregisterPlayer.
  change (players m1) with (players m). rewrite Hp.
  assert (log_aoi m1 (RemoveEntity conv (entities_of (objects m1)) (aoiManager m1) p) = Ret m1) as ->.
  { unfold RemoveEntity. change (GetPosition (entities_of (objects m1)) p) with (Position (deref (objects m1) p)).
    rewrite Hpos. change (aoiManager m1) with (aoiManager m). by rewrite (Hfail _ _ Hv). }
  gosimpl. split; [done|]. simpl. split_and!; [apply lookup_delete_eq|done|].
  intros x z c range_ Hc. rewrite (nearby_players_placed conv _ _ _ x z c range_ (pi_placed m Hi) Hc).
  do 3 f_equal. apply map_filter_ext. intros. simpl. tauto.
Qed.

(** Velocity and rotation updates move nobody. *)
Lemma update_still m id p s :
  ps_inv m -> players m !! id = Some p -> ID s = ID (deref (objects m) p) ->
  Position s = Position (deref (objects m) p) ->
  ps_inv (set_object m p s) /\
  forall q, Position (deref (objects (set_object m p s)) q) = Position (deref (objects m) q).
Proof.
  intros Hi Hp Hid Hpos. destruct (pi_alloc m Hi id p Hp) as (s0 & Hs0 & Hid0). split.
  - eapply ps_set_object_inv; [done..| |done]. by rewrite Hid, (ps_deref_alloc _ _ _ Hs0).
  - intros q. simpl. rewrite ps_deref_insert. by case_decide; subst.
Qed.

Lemma sync_updates now m req p :
  ps_inv m -> players m !! rq_EntityId req = Some p -> vec_in_world (rq_Position req) ->
  exists m1 ev1 m2 ev2 m3 ev3,
    UpdatePlayerPosition cb_order now m (rq_EntityId req) (rq_Position req) = Ret (m1, ev1) /\
    match rq_Velocity req with
    | Some v => ignore_error m1 (UpdatePlayerVelocity cb_order now m1 (rq_EntityId req) v)
    | None => Ret (m1, [])
    end = Ret (m2, ev2) /\
    ignore_error m2 (UpdatePlayerRotation cb_order now m2 (rq_EntityId req) (rq_Rotation req)) = Ret (m3, ev3) /\
    ps_inv m3 /\ players m3 = players m /\ Position (deref (objects m3) p) = rq_Position req.
Proof.
  intros Hi Hp Hv.
  destruct (update_position_inv cb_order now m _ p _ Hi Hp Hv) as (m1 & ev1 & H1 & Hi1 & Hp1 & _ & Hpos1 & _).
  exists m1, ev1. rewrite <- Hp1 in Hp.
  assert (exists m2 ev2, match rq_Velocity req with
    | Some v => ignore_error m1 (UpdatePlayerVelocity cb_order now m1 (rq_EntityId req) v)
    | None => Ret (m1, [])
    end = Ret (m2, ev2) /\ ps_inv m2 /\ players m2 = players m1 /\
    Position (deref (objects m2) p) = rq_Position req) as (m2 & ev2 & H2 & Hi2 & Hp2 & Hpos2).
  { destruct (rq_Velocity req) as [v|]; [|by exists m1, []].
    unfold UpdatePlayerVelocity, GetPlayer. rewrite Hp. gosimpl. cbn [ignore_error].
    eexists _, _. split; [done|].
    match goal with |- context [set_object m1 p ?s] =>
      destruct (update_still m1 (rq_EntityId req) p s) as [? Hq]; [done..|] end.
    split_and!; [done..|]. by rewrite Hq. }
  exists m2, ev2. rewrite <- Hp2 in Hp.
  unfold UpdatePlayerRotation, GetPlayer. rewrite Hp. gosimpl. cbn [ignore_error].
  eexists _, _. split; [done|]. split; [done|]. split; [done|].
  match goal with |- context [set_object m2 p ?s] =>
    destruct (update_still m2 (rq_EntityId req) p s) as [? Hq]; [done..|] end.
  split_and!; [done|simpl; congruence|]. by rewrite Hq.
Qed.

(** C38: [SyncPosition] of a registered player inside the world succeeds, stores
    the position, and answers with exactly the other registered players in the
    grids at most two away whose rounded distance is at most 100, each once and
    with its current position. *)
Theorem ps_sync_position_nearby ent_order now m req p
    (Horder : forall es, map_order es (ent_order es))
    (Hi : ps_inv m) (Hp : players m !! rq_EntityId req = Some p) (Hv : vec_in_world (rq_Position req)) :
  exists m' ev resp l, SyncPosition cb_order ent_order now m req = Ret (m', ev, resp, None) /\
    ps_inv m' /\ players m' = players m /\ Position (deref (objects m') p) = rq_Position req /\
    Success resp = true /\ ResultCode resp = 0 /\
    NearbyEntities resp = entity_position m' <$> l /\ NoDup l /\
    forall q, q ∈ l <-> exists id, id <> rq_EntityId req /\ players m' !! id = Some q /\
      near (cell (aoiManager m') (rq_Position req)) (cell (aoiManager m') (Position (deref (objects m') q))) 2 /\
      within_distance (entities_of (objects m')) (rq_Position req).1.1 (rq_Position req).1.2
        (rq_Position req).2 (f32_of_int 100) q = true.
Proof.
  destruct (sync_updates now m req p Hi Hp Hv)
    as (m1 & ev1 & m2 & ev2 & m' & ev3 & H1 & H2 & H3 & Hi' & Hpl & Hpos).
  unfold SyncPosition. rewrite H1, H2. gosimpl. rewrite H3. gosimpl.
  unfold getNearbyEntities, GetPlayer, entities_within. rewrite Hpl, Hp. gosimpl. rewrite Hpos.
  set (id := rq_EntityId req) in *.
  pose proof (cell_GetGrid (aoiManager m') (rq_Position req) (pi_world m' Hi') Hv) as Hc.
  destruct (rq_Position req) as [[x y] z]. simpl in Hc.
  destruct (entities_by_distance_placed conv ent_order (entities_of (objects m')) (aoiManager m')
    (placement_of m') x y z (f32_of_int 100) _ Horder (pi_placed m' Hi') Hc) as (es & -> & Hnd & Hes).
  gosimpl. eexists m', _, _, _. split; [done|]. simpl. split_and!; try done.
  - by apply NoDup_filter.
  - intros q. rewrite list_elem_of_filter, Hes. rewrite (gw_width _ (pi_world m' Hi')).
    change (ceil_int conv (f32_div (f32_of_int 100) (f32_of_int 50))) with 2. simpl. split.
    + intros (Hne & (k & [Hq ->]%placement_lookup & Hk) & Hd). eauto 6.
    + intros (id' & Hne & Hq & Hk & Hd). destruct (pi_alloc m' Hi' id' q Hq) as (s & Hs & Hid).
      assert (ID (deref (objects m') q) = id') as Hid' by (by rewrite (ps_deref_alloc _ _ _ Hs)).
      rewrite Hid'. split_and!; [done| |done]. eexists. split; [|done]. by apply placement_lookup.
Qed.

End player_state.

(** ** Examples *)

Definition sample_conv (_ : float32) : Z := - 2 ^ 63.

Definition at_xz (x z : Z) : vec3 := (f32_of_int x, f32_of_int 0, f32_of_int z).

Definition sample_ops : list (@ps_op unit) :=
  [OpRegister 1 "a"; OpRegister 2 "b"; OpSubscribe "b" "a"; OpPosition 3 "a" (at_xz 60 10)]%string.

Definition sample_start : @PlayerStateManager unit :=
  match NewPlayerStateManager with Ret m => m | _ => MkManager ∅ ∅ ∅ ∅ sample_world end.

Definition sample_manager : @PlayerStateManager unit :=
  match ps_run sample_conv map_to_list sample_start sample_ops with Ret m => m | _ => sample_start end.

Lemma sample_ops_in_world : Forall stays_in_world sample_ops.
Proof. repeat constructor. Qed.

Lemma sample_manager_inv : ps_inv sample_conv sample_manager.
Proof.
  destruct (new_manager_inv (value := unit) sample_conv) as (m & Hm & Hi).
  assert (sample_start = m) as E by (unfold sample_start; by rewrite Hm).
  destruct (ps_run_inv sample_conv map_to_list m sample_ops Hi sample_ops_in_world) as (m' & Hr & Hi').
  unfold sample_manager. by rewrite E, Hr.
Qed.

Example ps_run_consistent_witness :
  exists m, ps_run sample_conv map_to_list sample_start sample_ops = Ret m /\
    placed (entities_of (objects m)) (aoiManager m) (placement_of sample_conv m).
Proof.
  destruct (ps_run_consistent sample_conv map_to_list sample_start sample_ops)
    as (m & Hm & HP & _); [reflexivity|exact sample_ops_in_world|].
  exists m. split; [exact Hm|exact HP].
Defined.

Example ps_unregister_forgets_witness :
  exists m', UnregisterPlayer sample_conv sample_manager "b" = Ret m' /\ players m' !! "b"%string = None.
Proof.
  destruct (ps_unregister_forgets sample_conv sample_manager "b" 1%nat sample_manager_inv)
    as (m' & Hu & _ & Hp & _); [vm_compute; reflexivity|].
  exists m'. split; [exact Hu|]. rewrite Hp. vm_compute. reflexivity.
Defined.

Example ps_leaving_leaves_ghost_witness :
  exists m1 ev m2, UpdatePlayerPosition sample_conv map_to_list 5 sample_manager "a" (at_xz 2000 0) = Ret (m1, ev) /\
    UnregisterPlayer sample_conv m1 "a" = Ret m2 /\ players m2 !! "a"%string = None /\
    GetNearbyPlayers sample_conv (aoiManager m2) (f32_of_int 0) (f32_of_int 0) 1 = Ret 2.
Proof.
  destruct (ps_leaving_leaves_ghost sample_conv map_to_list 5 sample_manager "a" 0%nat (at_xz 2000 0)
              sample_manager_inv) as (m1 & ev & m2 & H1 & H2 & H3 & _ & H4);
    [vm_compute; reflexivity..|].
  exists m1, ev, m2. split; [exact H1|]. split; [exact H2|]. split; [exact H3|].
  rewrite (H4 _ _ (0, 0) 1); vm_compute; reflexivity.
Defined.

Example ps_sync_position_nearby_witness :
  exists m' ev resp l,
    SyncPosition sample_conv map_to_list map_to_list 9 sample_manager
      (MkSyncRequest "b" (at_xz 70 20) None (f32_of_int 0) 8) = Ret (m', ev, resp, None) /\
    Success resp = true /\ NearbyEntities resp = entity_position m' <$> l /\ NoDup l.
Proof.
  destruct (ps_sync_position_nearby sample_conv map_to_list map_to_list 9 sample_manager
    (MkSyncRequest "b" (at_xz 70 20) None (f32_of_int 0) 8) 1%nat map_order_default sample_manager_inv)
    as (m' & ev & resp & l & H1 & _ & _ & _ & H2 & _ & H3 & H4 & _);
    [vm_compute; reflexivity|by repeat split|].
  exists m', ev, resp, l. split; [exact H1|]. split; [exact H2|]. split; [exact H3|exact H4].
Defined.
