(* ===== verification/AsyncDB.v ===== *)
(** * Asynchronous database access ([pkg/db/async.go])

    Operations wait in batches and in a bounded queue, workers execute them and
    put failed ones back.  The goroutines are the steps of a transition system:
    a submission is two steps, its check of [isClosed] and its insertion, as
    nothing locks them together; a worker takes an operation, executes it
    against the database, whose answer is arbitrary, and sleeps before a retry.
    Besides the fields of the source the state records what becomes of every
    operation: those being handled and those completed, refused or lost.  The
    running averages of the statistics are not modelled. *)

From stdpp Require Import base gmap strings fin_maps numbers relations list.
From Stdlib Require Import ZArith Lia.
From S2P Require Import Prelude.

Local Open Scope Z_scope.

Record AsyncConfig := MkConfig {
  QueueSize : nat;
  MaxRetries : Z;
  EnableBatching : bool;
  BatchSize : Z
}.

Definition DefaultAsyncConfig : AsyncConfig :=
  {| QueueSize := 1000; MaxRetries := 3; EnableBatching := true; BatchSize := 100 |}.

Inductive OpType := Query | Exec.

(** [op_id] tells operations apart, as their pointers do. *)
Record AsyncOperation := MkOp {
  op_id : nat;
  Type_ : OpType;
  SQL : string;
  RetryCount : Z;
  BatchID : string
}.

Record AsyncStats := MkStats {
  QueuedOperations : Z;
  CompletedOperations : Z;
  FailedOperations : Z;
  Retries : Z;
  BatchesProcessed : Z
}.

Inductive DbError := ErrClosed | ErrQueueFull.

Record asyncDB := MkDB {
  queue : list AsyncOperation;
  queue_closed : bool;
  stats : AsyncStats;
  batchQueues : gmap string (list AsyncOperation);
  batchTimers : gset string;
  stopped : bool;
  isClosed : bool;
  (** being submitted, past the check of [isClosed] *)
  submitting : list AsyncOperation;
  (** taken from the queue by a worker *)
  running : list AsyncOperation;
  (** put aside by a worker until the retry interval is over *)
  sleeping : list AsyncOperation;
  (** completed, with the success reported to the callback *)
  completed : list (AsyncOperation * bool);
  (** refused with an error to the caller *)
  refused : list AsyncOperation;
  (** dropped because an error of [enqueueOperation] was ignored *)
  lost : list AsyncOperation;
  (** the operation of each execution against the database so far *)
  executions : list nat
}.

Definition no_stats : AsyncStats := MkStats 0 0 0 0 0.

Definition NewAsyncDB : asyncDB :=
  {| queue := []; queue_closed := false; stats := no_stats; batchQueues := ∅; batchTimers := ∅;
     stopped := false; isClosed := false; submitting := []; running := []; sleeping := [];
     completed := []; refused := []; lost := []; executions := [] |}.

(** *** Setters *)

Definition set_queue (a : asyncDB) q s : asyncDB :=
  MkDB q (queue_closed a) s (batchQueues a) (batchTimers a) (stopped a) (isClosed a)
    (submitting a) (running a) (sleeping a) (completed a) (refused a) (lost a) (executions a).
Definition set_stats (a : asyncDB) s : asyncDB := set_queue a (queue a) s.
Definition set_batches (a : asyncDB) bq bt : asyncDB :=
  MkDB (queue a) (queue_closed a) (stats a) bq bt (stopped a) (isClosed a)
    (submitting a) (running a) (sleeping a) (completed a) (refused a) (lost a) (executions a).
Definition set_flags (a : asyncDB) qc st cl : asyncDB :=
  MkDB (queue a) qc (stats a) (batchQueues a) (batchTimers a) st cl
    (submitting a) (running a) (sleeping a) (completed a) (refused a) (lost a) (executions a).
Definition set_submitting (a : asyncDB) l : asyncDB :=
  MkDB (queue a) (queue_closed a) (stats a) (batchQueues a) (batchTimers a) (stopped a) (isClosed a)
    l (running a) (sleeping a) (completed a) (refused a) (lost a) (executions a).
Definition set_workers (a : asyncDB) r sl : asyncDB :=
  MkDB (queue a) (queue_closed a) (stats a) (batchQueues a) (batchTimers a) (stopped a) (isClosed a)
    (submitting a) r sl (completed a) (refused a) (lost a) (executions a).
Definition set_ends (a : asyncDB) c r l : asyncDB :=
  MkDB (queue a) (queue_closed a) (stats a) (batchQueues a) (batchTimers a) (stopped a) (isClosed a)
    (submitting a) (running a) (sleeping a) c r l (executions a).
Definition log_execution (a : asyncDB) (op : AsyncOperation) : asyncDB :=
  MkDB (queue a) (queue_closed a) (stats a) (batchQueues a) (batchTimers a) (stopped a) (isClosed a)
    (submitting a) (running a) (sleeping a) (completed a) (refused a) (lost a) (op_id op :: executions a).

(** ** Operations *)

Section asyncdb.
Context (config : AsyncConfig).

(** [sql[0:6]] of a string of at least six bytes. *)
Definition prefix6 (sql : string) : string := bytes_str (take 6 (str_bytes sql)).

Definition isBatchableQuery (sql : string) : bool :=
  (6 <? strlen sql)%nat && bool_decide (prefix6 sql = "SELECT"%string).

Definition isBatchableExec (sql : string) : bool :=
  if (strlen sql <? 6)%nat then false
  else bool_decide (prefix6 sql = "INSERT"%string) || bool_decide (prefix6 sql = "UPDATE"%string)
       || bool_decide (prefix6 sql = "DELETE"%string).

Definition getBatchID (sql : string) : string :=
  if (strlen sql <=? 20)%nat then sql else bytes_str (take 20 (str_bytes sql)).

(** The non-blocking send; a send on the closed queue panics. *)
Definition enqueueOperation (a : asyncDB) (op : AsyncOperation) : outcome DbError asyncDB :=
  if queue_closed a then Panic
  else if decide (length (queue a) < QueueSize config)%nat then
    let s := stats a in
    Ret (set_queue a (queue a ++ [op])
      (MkStats (QueuedOperations s + 1) (CompletedOperations s) (FailedOperations s) (Retries s) (BatchesProcessed s)))
  else Fail ErrQueueFull.

(** A call of [enqueueOperation] whose error is not looked at. *)
Definition enqueue_ignoring (a : asyncDB) (op : AsyncOperation) : outcome DbError asyncDB :=
  match enqueueOperation a op with
  | Fail _ => Ret (set_ends a (completed a) (refused a) (lost a ++ [op]))
  | o => o
  end.

Fixpoint enqueue_all (a : asyncDB) (batch : list AsyncOperation) : outcome DbError asyncDB :=
  match batch with
  | [] => Ret a
  | op :: batch => a' ← enqueue_ignoring a op; enqueue_all a' batch
  end.

Definition processBatch (a : asyncDB) (batchID : string) : outcome DbError asyncDB :=
  match batchQueues a !! batchID with
  | None => Ret a
  | Some [] => Ret a
  | Some batch =>
      let a := set_batches a (delete batchID (batchQueues a)) (batchTimers a) in
      let s := stats a in
      let a := set_stats a
        (MkStats (QueuedOperations s) (CompletedOperations s) (FailedOperations s) (Retries s) (BatchesProcessed s + 1)) in
      enqueue_all a batch
  end.

Definition set_batch_id (op : AsyncOperation) (batchID : string) : AsyncOperation :=
  MkOp (op_id op) (Type_ op) (SQL op) (RetryCount op) batchID.

Definition addToBatch (a : asyncDB) (batchID : string) (op : AsyncOperation) : outcome DbError asyncDB :=
  let op := set_batch_id op batchID in
  let batch := default [] (batchQueues a !! batchID) ++ [op] in
  let a := set_batches a (<[batchID := batch]> (batchQueues a)) (batchTimers a) in
  if decide (BatchSize config <= Z.of_nat (length batch)) then processBatch a batchID
  else Ret (set_batches a (batchQueues a) ({[ batchID ]} ∪ batchTimers a)).

Definition processBatchByTimer (a : asyncDB) (batchID : string) : outcome DbError asyncDB :=
  processBatch (set_batches a (batchQueues a) (batchTimers a ∖ {[ batchID ]})) batchID.

(** [order]: the keys of [batchQueues] as the range visits them. *)
Fixpoint process_batches (a : asyncDB) (order : list string) : outcome DbError asyncDB :=
  match order with
  | [] => Ret a
  | batchID :: order => a' ← processBatch a batchID; process_batches a' order
  end.

Definition processPendingBatches (a : asyncDB) (order : list string) : outcome DbError asyncDB :=
  process_batches (set_batches a (batchQueues a) ∅) order.

(** The first half of [QueryAsync] and [ExecAsync]. *)
Definition submit_check (a : asyncDB) (op : AsyncOperation) : outcome DbError asyncDB :=
  fail_if (isClosed a) ErrClosed;;
  Ret (set_submitting a (op :: submitting a)).

Definition is_batchable (op : AsyncOperation) : bool :=
  match Type_ op with Query => isBatchableQuery (SQL op) | Exec => isBatchableExec (SQL op) end.

(** The second half. *)
Definition submit_put (a : asyncDB) (op : AsyncOperation) : outcome DbError asyncDB :=
  let batchID := getBatchID (SQL op) in
  if EnableBatching config && is_batchable op && negb (bool_decide (batchID = ""%string))
  then addToBatch a batchID op
  else enqueueOperation a op.

(** What the execution of an operation comes to. *)
Inductive exec_result := ExecCancelled | ExecError | ExecOk.

Definition completeOperation (a : asyncDB) (op : AsyncOperation) (success : bool) : asyncDB :=
  let s := stats a in
  let a := set_stats a
    (MkStats (QueuedOperations s) (CompletedOperations s + 1) (FailedOperations s) (Retries s) (BatchesProcessed s)) in
  set_ends a (completed a ++ [(op, success)]) (refused a) (lost a).

(** Up to the sleep before a retry. *)
Definition processOperation (a : asyncDB) (op : AsyncOperation) (res : exec_result) : asyncDB :=
  let s := stats a in
  match res with
  | ExecCancelled => completeOperation a op false
  | ExecOk => completeOperation (log_execution a op) op true
  | ExecError =>
      let a := log_execution a op in
      if decide (RetryCount op < MaxRetries config) then
        let a := set_stats a
          (MkStats (QueuedOperations s) (CompletedOperations s) (FailedOperations s) (Retries s + 1) (BatchesProcessed s)) in
        set_workers a (running a)
          (MkOp (op_id op) (Type_ op) (SQL op) (RetryCount op + 1) (BatchID op) :: sleeping a)
      else
        let a := set_stats a
          (MkStats (QueuedOperations s) (CompletedOperations s) (FailedOperations s + 1) (Retries s) (BatchesProcessed s)) in
        completeOperation a op false
  end.

(** ** Steps *)

(** The operations of all batches. *)
Definition batched (m : gmap string (list AsyncOperation)) : list AsyncOperation :=
  concat ((map_to_list m).*2).

(** The operations that are still to be dealt with. *)
Definition live (a : asyncDB) : list AsyncOperation :=
  submitting a ++ batched (batchQueues a) ++ queue a ++ running a ++ sleeping a.

(** The operations that have met their end. *)
Definition ended (a : asyncDB) : list AsyncOperation :=
  (completed a).*1 ++ refused a ++ lost a.

Definition known_ids (a : asyncDB) : list nat := op_id <$> (live a ++ ended a).

Inductive db_step : asyncDB -> outcome DbError asyncDB -> Prop :=
  (* a new operation passes the check, or is told that the database is closed *)
  | step_check a op :
      RetryCount op = 0 -> op_id op ∉ known_ids a -> db_step a (submit_check a op)
  (* its insertion succeeds or panics *)
  | step_put a l1 op l2 o :
      submitting a = l1 ++ op :: l2 -> submit_put (set_submitting a (l1 ++ l2)) op = o ->
      (forall e, o <> Fail e) -> db_step a o
  (* its insertion is refused: the queue is full *)
  | step_refuse a l1 op l2 e :
      submitting a = l1 ++ op :: l2 -> submit_put (set_submitting a (l1 ++ l2)) op = Fail e ->
      db_step a (Ret (set_ends (set_submitting a (l1 ++ l2)) (completed a) (refused a ++ [op]) (lost a)))
  | step_timer a batchID : db_step a (processBatchByTimer a batchID)
  (* a worker takes the head of the queue; one that has seen the stop signal is gone *)
  | step_take a op q :
      queue a = op :: q -> queue_closed a = false ->
      db_step a (Ret (set_workers (set_queue a q (stats a)) (op :: running a) (sleeping a)))
  | step_execute a r1 op r2 res :
      running a = r1 ++ op :: r2 ->
      db_step a (Ret (processOperation (set_workers a (r1 ++ r2) (sleeping a)) op res))
  | step_retry a s1 op s2 :
      sleeping a = s1 ++ op :: s2 ->
      db_step a (enqueue_ignoring (set_workers a (running a) (s1 ++ s2)) op)
  (* WaitForCompletion *)
  | step_flush a order : db_step a (processPendingBatches a order)
  (* Close: the flag, the pending batches, the stop signal, then, when the
     workers are gone, the queue *)
  | step_close_flag a : db_step a (Ret (set_flags a (queue_closed a) (stopped a) true))
  | step_stop a : isClosed a = true -> db_step a (Ret (set_flags a (queue_closed a) true (isClosed a)))
  | step_close_queue a :
      stopped a = true -> running a = [] -> sleeping a = [] -> queue_closed a = false ->
      db_step a (Ret (set_flags a true (stopped a) (isClosed a))).

Definition db_run (a a' : asyncDB) : Prop := rtc (fun x y => db_step x (Ret y)) a a'.

(** ** Where operations go *)

(** What identifies an operation and its number of retries. *)
Definition key (op : AsyncOperation) : nat * Z := (op_id op, RetryCount op).

(** [a'] is [a] with the operations [l] taken in, and perhaps some of all these
    ended; nothing was executed. *)
Definition absorbs (a : asyncDB) (l : list AsyncOperation) (a' : asyncDB) : Prop :=
  exists D, key <$> (live a ++ l) ≡ₚ (key <$> live a') ++ D /\
            key <$> ended a' ≡ₚ (key <$> ended a) ++ D /\
            executions a' = executions a /\
            ((length (queue a) <= QueueSize config)%nat -> (length (queue a') <= QueueSize config)%nat).

Lemma absorbs_app a l1 a1 l2 a2 :
  absorbs a l1 a1 -> absorbs a1 l2 a2 -> absorbs a (l1 ++ l2) a2.
Proof.
  intros (D1 & H1 & E1 & X1 & Q1) (D2 & H2 & E2 & X2 & Q2). exists (D1 ++ D2). split_and!.
  - rewrite app_assoc, fmap_app, H1. rewrite fmap_app in H2.
    transitivity ((key <$> live a1) ++ (key <$> l2) ++ D1); [solve_Permutation|].
    rewrite app_assoc, H2. solve_Permutation.
  - rewrite E2, E1. solve_Permutation.
  - congruence.
  - auto.
Qed.

Lemma batched_delete m k l : m !! k = Some l -> batched m ≡ₚ l ++ batched (delete k m).
Proof. intros Hk. unfold batched. by rewrite <- (map_to_list_delete m k l Hk). Qed.

Lemma batched_insert m k l : batched (<[k := l]> (delete k m)) ≡ₚ l ++ batched (delete k m).
Proof. unfold batched. by rewrite map_to_list_insert by apply lookup_delete_eq. Qed.

Lemma enqueue_absorbs a op a' : enqueueOperation a op = Ret a' -> absorbs a [op] a'.
Proof.
  unfold enqueueOperation. destruct (queue_closed a); [done|]. case_decide as Hq; [|done].
  intros [= <-]. exists []. unfold live, ended. simpl. rewrite !fmap_app. split_and!; try done.
  - rewrite fmap_cons, fmap_nil. solve_Permutation.
  - by rewrite app_nil_r.
  - intros _. len.
Qed.

Lemma enqueue_ignoring_absorbs a op a' : enqueue_ignoring a op = Ret a' -> absorbs a [op] a'.
Proof.
  unfold enqueue_ignoring. destruct (enqueueOperation a op) as [a1|e|] eqn:E; [|intros [= <-]|done].
  - intros [= <-]. by apply enqueue_absorbs.
  - exists [key op]. unfold live, ended. simpl. split_and!; try done; perm.
Qed.

Lemma enqueue_all_absorbs a l a' : enqueue_all a l = Ret a' -> absorbs a l a'.
Proof.
  revert a. induction l as [|op l IH]; intros a.
  - intros [= <-]. exists []. rewrite !app_nil_r. split_and!; by try done.
  - cbn [enqueue_all]. intros (a1 & H1 & H2)%outcome_bind_ret.
    apply (absorbs_app a [op] a1 l); [by apply enqueue_ignoring_absorbs|by apply IH].
Qed.

(** Rearranging the live operations first. *)
Lemma absorbs_from a l a1 l1 a' :
  key <$> (live a ++ l) ≡ₚ key <$> (live a1 ++ l1) ->
  ended a1 = ended a -> executions a1 = executions a -> queue a1 = queue a ->
  absorbs a1 l1 a' -> absorbs a l a'.
Proof.
  intros Hl He Hx Hq (D & H1 & H2 & H3 & H4). exists D. rewrite Hl, <- He, <- Hx, <- Hq. done.
Qed.

Lemma absorbs_refl a : absorbs a [] a.
Proof. exists []. rewrite !app_nil_r. by split_and!. Qed.

Lemma process_batch_absorbs a batchID a' : processBatch a batchID = Ret a' -> absorbs a [] a'.
Proof.
  unfold processBatch. destruct (batchQueues a !! batchID) as [[|op l]|] eqn:Hb; [intros [= <-]|cbn zeta|intros [= <-]];
    try apply absorbs_refl.
  intros H%enqueue_all_absorbs. refine (absorbs_from a [] _ _ a' _ _ _ _ H); [|done..]. unfold live. simpl.
  rewrite (batched_delete _ _ _ Hb), app_nil_r. perm.
Qed.

Lemma add_to_batch_absorbs a batchID op a' :
  addToBatch a batchID op = Ret a' -> absorbs a [op] a'.
Proof.
  unfold addToBatch. cbn zeta. set (op' := set_batch_id op batchID).
  set (a1 := set_batches a _ _).
  assert (key <$> (live a ++ [op]) ≡ₚ key <$> (live a1 ++ [])) as Hl.
  { unfold live. simpl. rewrite <- (insert_delete_eq (batchQueues a) batchID), batched_insert.
    change (key <$> [op]) with (key <$> [op']).
    destruct (batchQueues a !! batchID) as [l|] eqn:Hb; simpl.
    - rewrite (batched_delete _ _ _ Hb), !fmap_app. change (key <$> [op]) with (key <$> [op']).
      rewrite fmap_nil. solve_Permutation.
    - rewrite delete_id by done. rewrite !fmap_app. change (key <$> [op]) with (key <$> [op']).
      perm. }
  case_decide.
  - intros Hp%process_batch_absorbs. by refine (absorbs_from a [op] a1 [] a' Hl _ _ _ Hp).
  - intros [= <-]. refine (absorbs_from a [op] a1 [] _ Hl _ _ _ _); [done..|].
    refine (absorbs_from a1 [] _ [] _ _ _ _ _ (absorbs_refl _)); done.
Qed.

Lemma timer_absorbs a batchID a' : processBatchByTimer a batchID = Ret a' -> absorbs a [] a'.
Proof. intros H%process_batch_absorbs. by refine (absorbs_from a [] _ [] a' _ _ _ _ H). Qed.

Lemma process_batches_absorbs a order a' : process_batches a order = Ret a' -> absorbs a [] a'.
Proof.
  revert a. induction order as [|b order IH]; intros a.
  - intros [= <-]. apply absorbs_refl.
  - cbn [process_batches]. intros (a1 & H1 & H2)%outcome_bind_ret.
    apply (absorbs_app a [] a1 []); [by eapply process_batch_absorbs|by apply IH].
Qed.

Lemma flush_absorbs a order a' : processPendingBatches a order = Ret a' -> absorbs a [] a'.
Proof. intros H%process_batches_absorbs. by refine (absorbs_from a [] _ [] a' _ _ _ _ H). Qed.

Lemma submit_put_absorbs a op a' : submit_put a op = Ret a' -> absorbs a [op] a'.
Proof.
  unfold submit_put. case_match; [apply add_to_batch_absorbs|apply enqueue_absorbs].
Qed.

(** ** Invariant *)

(** How often an operation has been executed. *)
Definition times (a : asyncDB) (id : nat) : Z := Z.of_nat (length (filter (fun i => i = id) (executions a))).

(** Every operation is in one place only; a live one has been executed as often
    as it has been retried, an ended one at most once more; the queue keeps to
    its capacity. *)
Record db_inv (a : asyncDB) : Prop := {
  di_nodup : NoDup (known_ids a);
  di_live k : k ∈ key <$> live a -> times a k.1 = k.2 /\ 0 <= k.2 <= Z.max 0 (MaxRetries config);
  di_ended k : k ∈ key <$> ended a -> times a k.1 <= k.2 + 1 /\ 0 <= k.2 <= Z.max 0 (MaxRetries config);
  di_executed id : id ∈ executions a -> id ∈ known_ids a;
  di_queue : (length (queue a) <= QueueSize config)%nat
}.

Lemma known_keys a : known_ids a = (key <$> (live a ++ ended a)).*1.
Proof. unfold known_ids. rewrite <- list_fmap_compose. done. Qed.

Lemma known_permutation a l a' :
  absorbs a l a' -> known_ids a' ≡ₚ (op_id <$> l) ++ known_ids a.
Proof.
  intros (D & H1 & H2 & _). rewrite !known_keys.
  replace (op_id <$> l) with ((key <$> l).*1) by (by rewrite <- list_fmap_compose).
  rewrite <- fmap_app. f_equiv. rewrite !fmap_app, H2 in *.
  transitivity (((key <$> live a) ++ (key <$> l)) ++ (key <$> ended a)); [|solve_Permutation].
  rewrite H1. solve_Permutation.
Qed.

(** The invariant of a state from which the operations [l] have been taken. *)
Lemma absorbs_inv a0 a l a' :
  db_inv a0 -> key <$> live a0 ≡ₚ key <$> (live a ++ l) -> ended a = ended a0 ->
  executions a = executions a0 -> (length (queue a) <= QueueSize config)%nat ->
  absorbs a l a' -> db_inv a' /\ known_ids a' ≡ₚ known_ids a0.
Proof.
  intros Hi Hl He Hx Hq Ha. pose proof (known_permutation a l a' Ha) as Hp.
  assert (known_ids a' ≡ₚ known_ids a0) as Hk.
  { rewrite Hp, !known_keys. replace (op_id <$> l) with ((key <$> l).*1) by (by rewrite <- list_fmap_compose).
    rewrite <- fmap_app. f_equiv. rewrite !fmap_app in *. rewrite He, Hl. solve_Permutation. }
  destruct Ha as (D & H1 & H2 & H3 & H4). split; [|done].
  assert (forall id, times a' id = times a0 id) as Ht by (intros; unfold times; congruence).
  assert (forall k, k ∈ (key <$> live a') ++ D -> k ∈ key <$> live a0) as HD.
  { intros k Hin. rewrite Hl, H1. done. }
  split.
  - rewrite Hk. apply Hi.
  - intros k Hin. rewrite Ht. apply Hi, HD. apply elem_of_app. auto.
  - intros k Hin. rewrite Ht. rewrite H2, He in Hin. apply elem_of_app in Hin as [Hin|Hin].
    + by apply Hi.
    + destruct (di_live a0 Hi k) as [Hk1 Hk2]; [apply HD, elem_of_app; auto|]. lia.
  - intros id. rewrite H3, Hx, Hk. apply Hi.
  - auto.
Qed.

(** One execution of a live operation. *)
Lemma executed_inv a0 a' id r K :
  db_inv a0 -> key <$> live a0 ≡ₚ (id, r) :: K ->
  (key <$> live a' ≡ₚ K /\ key <$> ended a' ≡ₚ (id, r) :: (key <$> ended a0)) \/
  (key <$> live a' ≡ₚ (id, r + 1) :: K /\ key <$> ended a' = key <$> ended a0 /\ r < MaxRetries config) ->
  executions a' = id :: executions a0 -> queue a' = queue a0 ->
  db_inv a' /\ known_ids a' ≡ₚ known_ids a0.
Proof.
  intros Hi Hl Hcase Hx Hq.
  assert (known_ids a0 ≡ₚ id :: K.*1 ++ (key <$> ended a0).*1) as Hk0
    by (by rewrite known_keys, fmap_app, fmap_app, Hl).
  assert (known_ids a' ≡ₚ known_ids a0) as Hk.
  { rewrite Hk0, known_keys, !fmap_app. destruct Hcase as [[-> ->]|[-> [-> _]]]; [|done].
    rewrite fmap_cons. simpl. solve_Permutation. }
  pose proof (di_nodup a0 Hi) as Hnd. rewrite Hk0, NoDup_cons, elem_of_app in Hnd. destruct Hnd as [Hid _].
  assert (forall x, times a' x = times a0 x + (if decide (x = id) then 1 else 0)) as Ht.
  { intros x. unfold times. rewrite Hx, filter_cons. repeat case_decide; simplify_eq; simpl; lia. }
  assert (forall k, k ∈ K \/ k ∈ key <$> ended a0 -> times a' k.1 = times a0 k.1) as Hother.
  { intros k Hin. rewrite Ht, decide_False; [lia|]. intros <-. apply Hid.
    destruct Hin; [left|right]; by apply list_elem_of_fmap_2. }
  destruct (di_live a0 Hi (id, r)) as [Hr1 Hr2]; [rewrite Hl; apply list_elem_of_here|]. simpl in *.
  assert (forall k, k ∈ K -> times a' k.1 = k.2 /\ 0 <= k.2 <= Z.max 0 (MaxRetries config)) as HK.
  { intros k Hin. rewrite Hother by auto. apply Hi. rewrite Hl. by apply list_elem_of_further. }
  assert (times a' id = r + 1) as Hid1 by (rewrite Ht, decide_True by done; lia).
  split; [|done]. split.
  - rewrite Hk. apply Hi.
  - intros k. destruct Hcase as [[-> _]|[-> [_ Hmax]]]; [apply HK|].
    intros [->|Hin]%elem_of_cons; [simpl; lia|by apply HK].
  - intros k. destruct Hcase as [[_ ->]|[_ [-> _]]].
    + intros [->|Hin]%elem_of_cons; [simpl; lia|]. rewrite Hother by auto. by apply Hi.
    + intros Hin. rewrite Hother by auto. by apply Hi.
  - intros x. rewrite Hx, Hk, elem_of_cons. intros [->|Hin]; [|by apply Hi].
    rewrite Hk0. apply list_elem_of_here.
  - rewrite Hq. apply Hi.
Qed.

Lemma execute_step_inv a r1 op r2 res :
  db_inv a -> running a = r1 ++ op :: r2 ->
  let a' := processOperation (set_workers a (r1 ++ r2) (sleeping a)) op res in
  db_inv a' /\ known_ids a' ≡ₚ known_ids a.
Proof.
  intros Hi Hr. cbn zeta. set (a1 := set_workers a (r1 ++ r2) (sleeping a)).
  assert (key <$> live a ≡ₚ key <$> (live a1 ++ [op])) as Hl.
  { unfold live. simpl. rewrite Hr. perm. }
  assert (key <$> live a ≡ₚ (op_id op, RetryCount op) :: (key <$> live a1)) as Hl'.
  { rewrite Hl. perm. }
  destruct res; cbn [processOperation].
  - eapply (absorbs_inv a a1 [op]); [done..|apply Hi|]. exists [key op]. unfold ended. simpl.
    split_and!; try done; perm.
  - case_decide.
    + eapply executed_inv; [done|exact Hl'| |done|done]. right. split_and!; [|done|done].
      unfold live. simpl. perm.
    + eapply executed_inv; [done|exact Hl'| |done|done]. left. split; [done|].
      unfold ended. simpl. perm.
  - eapply executed_inv; [done|exact Hl'| |done|done]. left. split; [done|].
    unfold ended. simpl. perm.
Qed.

Lemma db_step_inv a a' :
  db_inv a -> db_step a (Ret a') -> db_inv a' /\ exists new, known_ids a' ≡ₚ new ++ known_ids a.
Proof.
  intros Hi Hstep.
  assert (forall a1 l, key <$> live a ≡ₚ key <$> (live a1 ++ l) -> ended a1 = ended a ->
    executions a1 = executions a -> queue a1 = queue a -> absorbs a1 l a' ->
    db_inv a' /\ exists new, known_ids a' ≡ₚ new ++ known_ids a) as Habs.
  { intros a1 l H1 H2 H3 H4 H5. destruct (absorbs_inv a a1 l a' Hi H1 H2 H3) as [? ?];
      [rewrite H4; apply Hi|done|]. split; [done|]. by exists []. }
  inversion Hstep as [a0 op H0 Hfresh E1 E2|a0 l1 op l2 o Hs Hp Hne E1 E2|a0 l1 op l2 e Hs Hp E1 E2|
    a0 b E1 E2|a0 op q Hq Hc E1 E2|a0 r1 op r2 res Hr E1 E2|a0 s1 op s2 Hs E1 E2|a0 order E1 E2|
    a0 E1 E2|a0 Hc E1 E2|a0 H1 H2 H3 H4 E1 E2]; subst a0.
  - unfold submit_check, fail_if in E2. destruct (isClosed a); [done|]. injection E2 as <-.
    assert (times a (op_id op) = 0) as Ht.
    { unfold times. rewrite filter_none; [done|]. intros x Hx ->. by apply Hfresh, Hi. }
    split; [|by exists [op_id op]]. split; try apply Hi.
    + apply NoDup_cons. split; [done|apply Hi].
    + intros k [->|Hk]%elem_of_cons; [simpl; rewrite H0; split; [exact Ht|lia]|by apply Hi].
    + intros x Hx. apply list_elem_of_further. by apply Hi.
  - subst o. apply submit_put_absorbs in Hp. apply (Habs (set_submitting a (l1 ++ l2)) [op]); [|done..].
    unfold live. simpl. rewrite Hs. perm.
  - subst a'. apply (Habs (set_submitting a (l1 ++ l2)) [op]); [|done..|].
    + unfold live. simpl. rewrite Hs. perm.
    + exists [key op]. unfold ended, live. simpl. split_and!; try done; perm.
  - apply timer_absorbs in E2. apply (Habs a []); [by rewrite app_nil_r|done..].
  - subst a'. apply (Habs a []); [by rewrite app_nil_r|done..|]. exists [].
    unfold ended, live. simpl. rewrite Hq. split_and!; [perm|perm|done|simpl; lia].
  - subst a'. destruct (execute_step_inv a r1 op r2 res Hi Hr) as [? ?]. split; [done|]. by exists [].
  - apply enqueue_ignoring_absorbs in E2. apply (Habs (set_workers a (running a) (s1 ++ s2)) [op]); [|done..].
    unfold live. simpl. rewrite Hs. perm.
  - apply flush_absorbs in E2. apply (Habs a []); [by rewrite app_nil_r|done..].
  - subst a'. split; [by destruct Hi|by exists []].
  - subst a'. split; [by destruct Hi|by exists []].
  - subst a'. split; [by destruct Hi|by exists []].
Qed.

Lemma new_db_inv : db_inv NewAsyncDB.
Proof.
  assert (live NewAsyncDB = [] /\ ended NewAsyncDB = []) as [Hl He].
  { unfold live, ended, batched. simpl. by rewrite map_to_list_empty. }
  split; unfold known_ids; rewrite ?Hl, ?He; simpl; [constructor|..|lia]; intros k Hk; by apply elem_of_nil in Hk.
Qed.

Lemma db_run_inv a a' :
  db_run a a' -> db_inv a -> db_inv a' /\ exists new, known_ids a' ≡ₚ new ++ known_ids a.
Proof.
  intros H. induction H as [a|a a1 a' Hs _ IH]; intros Hi; [split; [done|by exists []]|].
  destruct (db_step_inv a a1 Hi Hs) as [Hi1 [n1 H1]]. destruct (IH Hi1) as [Hi' [n2 H2]].
  split; [done|]. exists (n2 ++ n1). rewrite H2, H1. by rewrite app_assoc.
Qed.

(** The queue only grows, and an operation is only lost when it is full. *)
Definition lost_full (a a' : asyncDB) : Prop :=
  (length (queue a) <= length (queue a'))%nat /\
  (lost a' = lost a \/ (QueueSize config <= length (queue a'))%nat).

#[local] Instance lost_full_preorder : PreOrder lost_full.
Proof.
  split; [intros a; split; auto|]. intros a b c [H1 H2] [H3 H4]. split; [lia|].
  destruct H2 as [E|E], H4 as [E'|E']; [left; congruence|auto|right; lia|auto].
Qed.

Lemma enqueue_lost a op a' : enqueueOperation a op = Ret a' -> lost_full a a'.
Proof.
  unfold enqueueOperation. destruct (queue_closed a); [done|]. case_decide; [|done].
  intros [= <-]. split; simpl; [len|auto].
Qed.

Lemma enqueue_ignoring_lost a op a' : enqueue_ignoring a op = Ret a' -> lost_full a a'.
Proof.
  unfold enqueue_ignoring. destruct (enqueueOperation a op) as [a1|e|] eqn:E; [| |done].
  - intros [= <-]. by eapply enqueue_lost.
  - unfold enqueueOperation in E. destruct (queue_closed a); [done|]. case_decide; [done|].
    intros [= <-]. split; simpl; [lia|]. right. lia.
Qed.

Lemma enqueue_all_lost a l a' : enqueue_all a l = Ret a' -> lost_full a a'.
Proof.
  revert a. induction l as [|op l IH]; intros a; cbn [enqueue_all]; [by intros [= <-]|].
  intros (a1 & H1%enqueue_ignoring_lost & H2)%outcome_bind_ret. etrans; [exact H1|by apply IH].
Qed.

Lemma process_batch_lost a b a' : processBatch a b = Ret a' -> lost_full a a'.
Proof.
  unfold processBatch. destruct (batchQueues a !! b) as [[|op l]|]; [by intros [= <-]| |by intros [= <-]].
  intros H%enqueue_all_lost. exact H.
Qed.

Lemma process_batches_lost a order a' : process_batches a order = Ret a' -> lost_full a a'.
Proof.
  revert a. induction order as [|b order IH]; intros a; cbn [process_batches]; [by intros [= <-]|].
  intros (a1 & H1%process_batch_lost & H2)%outcome_bind_ret. etrans; [exact H1|by apply IH].
Qed.

Lemma submit_put_lost a op a' : submit_put a op = Ret a' -> lost_full a a'.
Proof.
  unfold submit_put. destruct (_ && _ && _); [|apply enqueue_lost]. unfold addToBatch. cbn zeta.
  destruct (decide (BatchSize config <= _)).
  - intros Hp%process_batch_lost. exact Hp.
  - intros [= <-]. split; simpl; [lia|auto].
Qed.

(** ** Properties *)

(** C5: no operation is ever in two places or executed after its end: over any
    interleaving of submissions, timers, workers, retries and [Close], each
    operation that has passed the check of its submission is from then on in
    exactly one of the batches, the queue, the workers and the three ends, so
    that it is completed, and its callback called, at most once. *)
Theorem async_conservation a a' (Hrun : db_run NewAsyncDB a) (Hrun' : db_run a a') :
  NoDup (known_ids a') /\ NoDup (op_id <$> (completed a').*1) /\
  forall id, id ∈ known_ids a -> id ∈ known_ids a'.
Proof.
  destruct (db_run_inv _ _ Hrun new_db_inv) as [Hi _].
  destruct (db_run_inv _ _ Hrun' Hi) as [Hi' [new Hk]]. pose proof (di_nodup a' Hi') as Hd. split_and!.
  - done.
  - unfold known_ids, ended in Hd. rewrite !fmap_app in Hd.
    apply NoDup_app in Hd as (_ & _ & Hd). by apply NoDup_app in Hd as [Hd _].
  - intros id Hid. rewrite Hk. apply elem_of_app. auto.
Qed.

(** C33: an operation is executed at most [MaxRetries] + 1 times, and the queue
    never holds more than [QueueSize] operations. *)
Theorem async_bounded a op
    (Hrun : db_run NewAsyncDB a) (Hop : op ∈ live a ++ ended a) :
  times a (op_id op) <= Z.max 0 (MaxRetries config) + 1 /\ (length (queue a) <= QueueSize config)%nat.
Proof.
  destruct (db_run_inv _ _ Hrun new_db_inv) as [Hi _]. split; [|apply Hi].
  apply elem_of_app in Hop as [Hop|Hop]; apply (list_elem_of_fmap_2 key) in Hop.
  - destruct (di_live a Hi _ Hop) as [H1 H2]. simpl in *. lia.
  - destruct (di_ended a Hi _ Hop) as [H1 H2]. simpl in *. lia.
Qed.

(** An operation is only lost in a step that leaves the queue full. *)
Theorem async_lost_only_when_full a a'
    (Hstep : db_step a (Ret a')) (Hlost : lost a' <> lost a) :
  (QueueSize config <= length (queue a'))%nat.
Proof.
  assert (forall a1, lost a1 = lost a -> lost_full a1 a' -> (QueueSize config <= length (queue a'))%nat) as Hl.
  { intros a1 E [_ [E'|?]]; [|done]. congruence. }
  inversion Hstep as [a0 op H0 Hfresh E1 E2|a0 l1 op l2 o Hs Hp Hne E1 E2|a0 l1 op l2 e Hs Hp E1 E2|
    a0 b E1 E2|a0 op q Hq Hc E1 E2|a0 r1 op r2 res Hr E1 E2|a0 s1 op s2 Hs E1 E2|a0 order E1 E2|
    a0 E1 E2|a0 Hc E1 E2|a0 H1 H2 H3 H4 E1 E2]; subst a0; try by subst a'.
  - unfold submit_check, fail_if in E2. destruct (isClosed a); [done|]. by injection E2 as <-.
  - subst o. apply (Hl (set_submitting a (l1 ++ l2))); [done|by eapply submit_put_lost].
  - apply (Hl (set_batches a (batchQueues a) (batchTimers a ∖ {[ b ]}))); [done|by eapply process_batch_lost].
  - subst a'. destruct res; simpl in Hlost; [done| |done]. by case_decide.
  - apply (Hl (set_workers a (running a) (s1 ++ s2))); [done|by eapply enqueue_ignoring_lost].
  - apply (Hl (set_batches a (batchQueues a) ∅)); [done|by eapply process_batches_lost].
Qed.

Lemma run_step a o y z : db_step a o -> o = Ret y -> db_run y z -> db_run a z.
Proof. intros H -> Hr. by eapply rtc_l. Qed.
End asyncdb.

(** ** Examples *)

Definition small_config : AsyncConfig :=
  {| QueueSize := 1; MaxRetries := 3; EnableBatching := true; BatchSize := 2 |}.

Definition select_op (id : nat) : AsyncOperation := MkOp id Query "SELECT name FROM players WHERE id = $1" 0 "".

(** Solve [op_id op ∉ known_ids a] on concrete states. *)
Ltac fresh_op := apply (bool_decide_unpack _); vm_compute; exact I.

(** A submission that reported success can be lost: when a batch is larger
    than what the queue has room for, the operations that do not fit are dropped
    without an error to the caller and without a callback. *)
Theorem async_accepted_operation_lost :
  exists a op, db_run small_config NewAsyncDB a /\ lost a = [op] /\
    refused a = [] /\ submitting a = [] /\ completed a = [] /\ op_id op = 2%nat.
Proof.
  eexists _, _. split; [|split_and!].
  { eapply run_step; [apply (step_check _ _ (select_op 1)); [done|fresh_op]|reflexivity|].
    eapply run_step; [eapply (step_put _ _ [] (select_op 1) []); [reflexivity|reflexivity|]|reflexivity|];
      [intros e; vm_compute; discriminate|].
    eapply run_step; [apply (step_check _ _ (select_op 2)); [done|fresh_op]|reflexivity|].
    eapply run_step; [eapply (step_put _ _ [] (select_op 2) []); [reflexivity|reflexivity|]|vm_compute; reflexivity|];
      [intros e; vm_compute; discriminate|].
    apply rtc_refl. }
  all: reflexivity.
Qed.

Definition begin_op : AsyncOperation := MkOp 1 Exec "BEGIN" 0 "".

(** A submission that races with [Close] crashes the program: it passes the
    check, [Close] runs to its end, and its send on the closed queue panics. *)
Theorem async_close_race_panics :
  exists a, db_run small_config NewAsyncDB a /\ isClosed a = true /\ submitting a = [begin_op] /\
            db_step small_config a Panic.
Proof.
  eexists. split; [|split_and!].
  { eapply run_step; [apply (step_check _ _ begin_op); [done|fresh_op]|reflexivity|].
    eapply run_step; [apply step_close_flag|reflexivity|].
    eapply run_step; [apply (step_flush _ _ [])|reflexivity|].
    eapply run_step; [by apply step_stop|reflexivity|].
    eapply run_step; [by apply step_close_queue|reflexivity|].
    apply rtc_refl. }
  - reflexivity.
  - reflexivity.
  - eapply (step_put _ _ [] begin_op []); [reflexivity|vm_compute; reflexivity|done].
Qed.

(** What [WaitForCompletion] waits for can hold while an operation is still
    being executed: the queue is empty and no batch is pending, but a worker has
    the operation in hand. *)
Theorem async_wait_returns_early :
  exists a, db_run small_config NewAsyncDB a /\ queue a = [] /\ batchQueues a = ∅ /\
            running a = [begin_op] /\ completed a = [].
Proof.
  eexists. split; [|split_and!].
  { eapply run_step; [apply (step_check _ _ begin_op); [done|fresh_op]|reflexivity|].
    eapply run_step; [eapply (step_put _ _ [] begin_op []); [reflexivity|reflexivity|]|vm_compute; reflexivity|];
      [intros e; vm_compute; discriminate|].
    eapply run_step; [by eapply step_take|reflexivity|].
    apply rtc_refl. }
  all: reflexivity.
Qed.

(** One operation, queued, executed with success. *)
Definition sample_db : asyncDB :=
  match (a ← submit_check NewAsyncDB begin_op; submit_put small_config (set_submitting a []) begin_op) with
  | Ret a => processOperation small_config (set_workers (set_queue a [] (stats a)) [] []) begin_op ExecOk
  | _ => NewAsyncDB
  end.

Lemma sample_db_run : db_run small_config NewAsyncDB sample_db.
Proof.
  eapply run_step; [apply (step_check _ _ begin_op); [done|fresh_op]|reflexivity|].
  eapply run_step; [eapply (step_put _ _ [] begin_op []); [reflexivity|reflexivity|]|vm_compute; reflexivity|];
    [intros e; vm_compute; discriminate|].
  eapply run_step; [by eapply step_take|reflexivity|].
  eapply run_step; [by apply (step_execute _ _ [] begin_op [] ExecOk)|vm_compute; reflexivity|].
  apply rtc_refl.
Qed.

Example async_conservation_witness :
  completed sample_db = [(begin_op, true)] /\ NoDup (op_id <$> (completed sample_db).*1).
Proof.
  split; [vm_compute; reflexivity|].
  exact (proj1 (proj2 (async_conservation small_config sample_db sample_db sample_db_run (rtc_refl _ _)))).
Defined.

Example async_bounded_witness : times sample_db 1 <= Z.max 0 3 + 1.
Proof.
  apply (async_bounded small_config sample_db begin_op sample_db_run).
  vm_compute. apply list_elem_of_here.
Defined.

(** A full queue, and a retry that finds no room. *)
Definition full_db : asyncDB :=
  set_workers (set_queue NewAsyncDB [select_op 1] no_stats) [] [begin_op].

Example async_lost_only_when_full_witness :
  exists a', db_step small_config full_db (Ret a') /\ lost a' = [begin_op] /\
             (QueueSize small_config <= length (queue a'))%nat.
Proof.
  assert (db_step small_config full_db (enqueue_ignoring small_config (set_workers full_db [] []) begin_op)) as H.
  { by apply (step_retry small_config full_db [] begin_op []). }
  eexists. split; [exact H|]. split; [vm_compute; reflexivity|].
  apply (async_lost_only_when_full small_config full_db); [exact H|]. vm_compute. discriminate.
Defined.
