(* ===== verification/RedisLock.v ===== *)
(** * Distributed locks over Redis ([pkg/redis/lock.go])

    Several processes, each with its [RedisLock], share one Redis server.  The
    server is an interface: the commands the lock uses and what the Redis
    documentation says of them, with a finite map that implements it.  A Lua
    script runs without interruption, so each script is one step.  Renewal
    goroutines, the channel of stop requests and the goroutine that serves it
    are parts of a process's state.  Times are in nanoseconds. *)

From stdpp Require Import base gmap strings fin_maps numbers relations list.
From Stdlib Require Import ZArith Lia.
From S2P Require Import Prelude.

Local Open Scope Z_scope.

(** ** The Redis server *)

(** [r_entry r k]: the value of a key and the time it expires.  [GET] gives the
    value of a key that has not expired; [SETNX] with an expiry sets a key that
    is not there, for a positive expiry; [DEL] counts the keys it removes; [PEXPIRE], in milliseconds,
    gives 1 when the key is there. *)
Class Redis (R : Type) := {
  r_entry : R -> string -> option (string * Z);
  GET : R -> Z -> string -> option string;
  SETNX : R -> Z -> string -> string -> Z -> R * bool;
  DEL : R -> Z -> string -> R * Z;
  PEXPIRE : R -> Z -> string -> Z -> R * Z;
  get_spec r now k :
    GET r now k = match r_entry r k with
                  | Some (v, d) => if now <? d then Some v else None
                  | None => None
                  end;
  setnx_spec r now k v ttl : 0 < ttl ->
    (SETNX r now k v ttl).2 = bool_decide (GET r now k = None) /\
    forall k', r_entry (SETNX r now k v ttl).1 k'
      = if decide (k' = k /\ GET r now k = None) then Some (v, now + ttl) else r_entry r k';
  del_spec r now k :
    (DEL r now k).2 = (match GET r now k with Some _ => 1 | None => 0 end) /\
    forall k', r_entry (DEL r now k).1 k' = if decide (k' = k) then None else r_entry r k';
  pexpire_spec r now k ms :
    (PEXPIRE r now k ms).2 = (match GET r now k with Some _ => 1 | None => 0 end) /\
    forall k', r_entry (PEXPIRE r now k ms).1 k'
      = if decide (k' = k)
        then (fun v => (v, now + ms * 1000000)) <$> GET r now k
        else r_entry r k'
}.

(** A map from keys to values and deadlines. *)
Abbreviation redis_map := (gmap string (string * Z)).

Definition map_GET (r : redis_map) (now : Z) (k : string) : option string :=
  match r !! k with Some (v, d) => if now <? d then Some v else None | None => None end.

#[export, refine]
Instance redis_map_ok : Redis redis_map := {
  r_entry r k := r !! k;
  GET := map_GET;
  SETNX r now k v ttl :=
    match map_GET r now k with
    | None => (<[k := (v, now + ttl)]> r, true)
    | Some _ => (r, false)
    end;
  DEL r now k := (delete k r, match map_GET r now k with Some _ => 1 | None => 0 end);
  PEXPIRE r now k ms :=
    match map_GET r now k with
    | Some v => (<[k := (v, now + ms * 1000000)]> r, 1)
    | None => (delete k r, 0)
    end
}.
Proof.
  - done.
  - intros r now k v ttl _. destruct (map_GET r now k); simpl; (split; [done|]); intros k'.
    + by rewrite decide_False by naive_solver.
    + rewrite lookup_insert. repeat case_decide; naive_solver.
  - intros r now k. split; [done|]. intros k'. simpl. rewrite lookup_delete. repeat case_decide; naive_solver.
  - intros r now k ms. destruct (map_GET r now k); simpl; (split; [done|]); intros k'.
    + rewrite lookup_insert. repeat case_decide; naive_solver.
    + rewrite lookup_delete. repeat case_decide; naive_solver.
Defined.

(** ** The lock of a process *)

Record LockConfig := MkLockConfig {
  DefaultTimeout : Z;
  RetryInterval : Z;
  MaxRetries : Z;
  AutoRenew : bool;
  RenewInterval : Z;
  KeyPrefix : string
}.

Definition DefaultLockConfig : LockConfig :=
  {| DefaultTimeout := 30000000000; RetryInterval := 100000000; MaxRetries := 3; AutoRenew := true;
     RenewInterval := 10000000000; KeyPrefix := "lock:" |}.

(** [NewLock] keeps the renewal interval below a third of the timeout. *)
Definition validated (c : LockConfig) : LockConfig :=
  if RenewInterval c >=? Z.quot (DefaultTimeout c) 3
  then MkLockConfig (DefaultTimeout c) (RetryInterval c) (MaxRetries c) (AutoRenew c) (Z.quot (DefaultTimeout c) 3) (KeyPrefix c)
  else c.

(** [li_captured]: the timeout its goroutine was started with; [li_closed]:
    [renewChan] has been closed. *)
Record lockInfo := MkLockInfo {
  li_key : string;
  li_token : string;
  li_timeout : Z;
  li_captured : Z;
  li_closed : bool
}.

(** [infos] is the heap of the [*lockInfo] values, each of which has its renewal
    goroutine while it is in [renewing]. *)
Record RedisLock := MkRedisLock {
  infos : gmap nat lockInfo;
  activeLocks : gmap string nat;
  renewalStopChan : list string;
  renewing : gset nat
}.

Definition NewLock : RedisLock :=
  {| infos := ∅; activeLocks := ∅; renewalStopChan := []; renewing := ∅ |}.

Section lock.
Context {R : Type} `{Redis R} (config : LockConfig).

Definition formatKey (key : string) : string := KeyPrefix config +:+ key.

(** [if timeout <= 0 { timeout = l.config.DefaultTimeout }] *)
Definition or_default (timeout : Z) : Z :=
  if timeout <=? 0 then DefaultTimeout config else timeout.

(** The new goroutine is in [renewing]; its ticks are steps that may come at any
    time, so the ticker's interval plays no part. *)
Definition startAutoRenew (l : RedisLock) (key token : string) (timeout : Z) : RedisLock :=
  let info := fresh (dom (infos l)) in
  {| infos := <[info := MkLockInfo key token timeout timeout false]> (infos l);
     activeLocks := <[key := info]> (activeLocks l);
     renewalStopChan := renewalStopChan l;
     renewing := {[ info ]} ∪ renewing l |}.

(** The send on [renewalStopChan]; it waits while the channel's 100 places are
    taken, which the steps below let pass by themselves. *)
Definition stopAutoRenew (l : RedisLock) (key : string) : RedisLock :=
  {| infos := infos l; activeLocks := activeLocks l;
     renewalStopChan := renewalStopChan l ++ [key]; renewing := renewing l |}.

(** One turn of [handleStopRenewals]: closing a closed channel panics. *)
Definition handle_stop (l : RedisLock) : outcome Empty_set RedisLock :=
  match renewalStopChan l with
  | [] => Ret l
  | key :: rest =>
      match activeLocks l !! key with
      | None => Ret {| infos := infos l; activeLocks := activeLocks l;
                       renewalStopChan := rest; renewing := renewing l |}
      | Some i =>
          match infos l !! i with
          | None => Panic
          | Some info =>
              if li_closed info then Panic
              else Ret {| infos := <[i := MkLockInfo (li_key info) (li_token info) (li_timeout info) (li_captured info) true]> (infos l);
                          activeLocks := delete key (activeLocks l);
                          renewalStopChan := rest; renewing := renewing l |}
          end
      end
  end.

(** [generated] is what [generateToken] gives.  The last component of a result
    is [None] when the call returns an error. *)
Definition TryAcquire (net : delivery) (r : R) (now : Z) (l : RedisLock) (key : string)
    (generated : option string) (timeout : Z) : R * RedisLock * option (string * bool) :=
  match generated with
  | None => (r, l, None)
  | Some token =>
      let timeout := or_default timeout in
      match send net r (SETNX r now (formatKey key) token timeout) with
      | (r, None) => (r, l, None)
      | (r, Some success) =>
          if negb success then (r, l, Some (""%string, false))
          else (r, if AutoRenew config then startAutoRenew l key token timeout else l, Some (token, true))
      end
  end.

(** One turn of [Acquire]: what becomes of the command, the time and the token, whether
    the context is done when the turn has failed, and what the other processes do
    to the store while it waits. *)
Record turn := MkTurn {
  tn_net : delivery;
  tn_now : Z;
  tn_generated : option string;
  tn_done : bool;
  tn_others : R -> R
}.

Inductive AcquireError := ErrAcquire | ErrContext.

(** The loop, as far as the turns go; [None] while it still waits. *)
Fixpoint Acquire (r : R) (l : RedisLock) (key : string) (turns : list turn) :
    R * RedisLock * option (string + AcquireError) :=
  match turns with
  | [] => (r, l, None)
  | t :: turns =>
      match TryAcquire (tn_net t) r (tn_now t) l key (tn_generated t) (DefaultTimeout config) with
      | (r, l, None) => (r, l, Some (inr ErrAcquire))
      | (r, l, Some (token, true)) => (r, l, Some (inl token))
      | (r, l, Some (_, false)) =>
          if tn_done t then (r, l, Some (inr ErrContext)) else Acquire (tn_others t r) l key turns
      end
  end.

(** The script of [Release]. *)
Definition release_script (r : R) (now : Z) (lockKey token : string) : R * Z :=
  if decide (GET r now lockKey = Some token) then DEL r now lockKey else (r, 0).

Definition Release (net : delivery) (r : R) (now : Z) (l : RedisLock) (key token : string) :
    R * RedisLock * option bool :=
  match send net r (release_script r now (formatKey key) token) with
  | (r, None) => (r, l, None)
  | (r, Some result) =>
      let success := result =? 1 in
      (r, if success && AutoRenew config then stopAutoRenew l key else l, Some success)
  end.

(** The script of [Refresh]. *)
Definition refresh_script (r : R) (now : Z) (lockKey token : string) (timeoutMs : Z) : R * Z :=
  if decide (GET r now lockKey = Some token) then PEXPIRE r now lockKey timeoutMs else (r, 0).

(** The timeout of the active lock is brought up to date. *)
Definition update_timeout (l : RedisLock) (key token : string) (timeout : Z) : RedisLock :=
  match activeLocks l !! key with
  | None => l
  | Some i =>
      match infos l !! i with
      | None => l
      | Some info =>
          if decide (li_token info = token)
          then {| infos := <[i := MkLockInfo (li_key info) (li_token info) timeout (li_captured info) (li_closed info)]> (infos l);
                  activeLocks := activeLocks l; renewalStopChan := renewalStopChan l; renewing := renewing l |}
          else l
      end
  end.

Definition Refresh (net : delivery) (r : R) (now : Z) (l : RedisLock) (key token : string) (timeout : Z) :
    R * RedisLock * option bool :=
  let timeout := or_default timeout in
  let timeoutMs := Z.quot timeout 1000000 in
  match send net r (refresh_script r now (formatKey key) token timeoutMs) with
  | (r, None) => (r, l, None)
  | (r, Some result) =>
      let success := result =? 1 in
      (r, if success && AutoRenew config then update_timeout l key token timeout else l, Some success)
  end.

Definition IsLocked (net : delivery) (r : R) (now : Z) (key token : string) : option bool :=
  match (send net r (r, GET r now (formatKey key))).2 with
  | None => None
  | Some None => Some false
  | Some (Some currentToken) =>
      if decide (token = ""%string) then Some true else Some (bool_decide (currentToken = token))
  end.

(** A tick of the renewal goroutine of [i]; [timeout] and [token] are those the
    goroutine was started with.  It goes on after an error. *)
Definition renew_tick (net : delivery) (r : R) (now : Z) (l : RedisLock) (i : nat)
    (key token : string) (timeout : Z) : R * RedisLock :=
  match Refresh net r now l key token timeout with
  | (r, l, None) => (r, l)
  | (r, l, Some true) => (r, l)
  | (r, l, Some false) =>
      let l := stopAutoRenew l key in
      (r, {| infos := infos l; activeLocks := activeLocks l;
             renewalStopChan := renewalStopChan l; renewing := renewing l ∖ {[ i ]} |})
  end.

(** The goroutine sees its channel closed. *)
Definition renew_stop (l : RedisLock) (i : nat) : RedisLock :=
  {| infos := infos l; activeLocks := activeLocks l;
     renewalStopChan := renewalStopChan l; renewing := renewing l ∖ {[ i ]} |}.

(** ** The system *)

Record system := MkSystem {
  store : R;
  clock : Z;
  procs : gmap nat RedisLock
}.

Definition proc (s : system) (p : nat) : RedisLock := default NewLock (procs s !! p).

Definition set_proc (s : system) (r : R) (p : nat) (l : RedisLock) : system :=
  {| store := r; clock := clock s; procs := <[p := l]> (procs s) |}.

(** The calls that concern the holder of a key: an acquisition that returned its
    token, and a release. *)
Inductive action :=
  | ActAcquire (p : nat) (key token : string)
  | ActRelease (p : nat) (key token : string)
  | ActOther.

Inductive lock_step : system -> action -> system -> Prop :=
  | st_acquire s p net key generated timeout r l res :
      0 < or_default timeout ->
      TryAcquire net (store s) (clock s) (proc s p) key generated timeout = (r, l, res) ->
      lock_step s (match res with Some (token, true) => ActAcquire p key token | _ => ActOther end)
        (set_proc s r p l)
  | st_release s p net key token r l res :
      Release net (store s) (clock s) (proc s p) key token = (r, l, res) ->
      lock_step s (ActRelease p key token) (set_proc s r p l)
  | st_refresh s p net key token timeout r l res :
      0 < or_default timeout ->
      Refresh net (store s) (clock s) (proc s p) key token timeout = (r, l, res) ->
      lock_step s ActOther (set_proc s r p l)
  | st_tick s p net i info r l :
      i ∈ renewing (proc s p) -> infos (proc s p) !! i = Some info ->
      renew_tick net (store s) (clock s) (proc s p) i (li_key info) (li_token info) (li_captured info) = (r, l) ->
      lock_step s ActOther (set_proc s r p l)
  | st_renew_stop s p i info :
      i ∈ renewing (proc s p) -> infos (proc s p) !! i = Some info -> li_closed info = true ->
      lock_step s ActOther (set_proc s (store s) p (renew_stop (proc s p) i))
  | st_handle s p l :
      handle_stop (proc s p) = Ret l -> lock_step s ActOther (set_proc s (store s) p l)
  | st_time s d : 0 <= d ->
      lock_step s ActOther {| store := store s; clock := clock s + d; procs := procs s |}.

Definition holder (s : system) (key : string) : option string := GET (store s) (clock s) (formatKey key).

Inductive lock_reachable : system -> Prop :=
  | reach_init r now : lock_reachable {| store := r; clock := now; procs := ∅ |}
  | reach_step s a s' : lock_reachable s -> lock_step s a s' -> lock_reachable s'.

(** ** Redis under the scripts *)

Lemma formatKey_inj k1 k2 : formatKey k1 = formatKey k2 -> k1 = k2.
Proof. unfold formatKey. apply (inj (String.append (KeyPrefix config))). Qed.

(** What a call may do to the entry of a key: nothing, or give the same value
    another deadline. *)
Definition same_value (r r' : R) (k : string) : Prop :=
  forall v d, r_entry r k = Some (v, d) -> exists d', r_entry r' k = Some (v, d').

Lemma send_store {A} net (r : R) (reply : R * A) :
  (send net r reply).1 = if decide (net = LostRequest) then r else reply.1.
Proof. by destruct net. Qed.

Lemma send_reply {A} net (r : R) (reply : R * A) :
  (send net r reply).2 = if decide (net = Delivered) then Some reply.2 else None.
Proof. by destruct net. Qed.

Lemma refresh_store net r now l key token timeout :
  (Refresh net r now l key token timeout).1.1
  = (send net r (refresh_script r now (formatKey key) token (Z.quot (or_default timeout) 1000000))).1.
Proof. unfold Refresh. by destruct (send _ _ _) as [r' []]. Qed.

Lemma refresh_same_value net r now l key token timeout k v :
  GET r now k = Some v -> exists d, r_entry (Refresh net r now l key token timeout).1.1 k = Some (v, d).
Proof.
  intros Hv. assert (exists d, r_entry r k = Some (v, d)) as [d0 Hd0].
  { rewrite get_spec in Hv. destruct (r_entry r k) as [[v0 d0]|]; [|done]. case_match; naive_solver. }
  rewrite refresh_store, send_store. case_decide; [eauto|]. unfold refresh_script. case_decide as Ht; [|eauto].
  pose proof (pexpire_spec r now (formatKey key) (Z.quot (or_default timeout) 1000000)) as [_ Hp].
  rewrite Hp. case_decide; [|eauto]. subst. rewrite Hv. simpl. eauto.
Qed.

Lemma tick_same_value net r now l i key token timeout k v :
  GET r now k = Some v -> exists d, r_entry (renew_tick net r now l i key token timeout).1 k = Some (v, d).
Proof.
  intros Hv. pose proof (refresh_same_value net r now l key token timeout k v Hv) as Hr.
  unfold renew_tick. by destruct (Refresh net r now l key token timeout) as [[r' l'] [[]|]].
Qed.

Lemma acquire_store net r now l key token timeout :
  0 < or_default timeout ->
  forall k, r_entry (TryAcquire net r now l key (Some token) timeout).1.1 k
    = if decide (net <> LostRequest /\ k = formatKey key /\ GET r now (formatKey key) = None)
      then Some (token, now + or_default timeout) else r_entry r k.
Proof.
  intros Hpos k. assert ((TryAcquire net r now l key (Some token) timeout).1.1
    = (send net r (SETNX r now (formatKey key) token (or_default timeout))).1) as ->.
  { unfold TryAcquire. by destruct (send _ _ _) as [r' [[]|]]. }
  pose proof (setnx_spec r now (formatKey key) token _ Hpos) as [_ H2].
  rewrite send_store. case_decide.
  - by rewrite decide_False by naive_solver.
  - rewrite H2. repeat case_decide; naive_solver.
Qed.

Lemma acquire_result net r now l key token timeout :
  0 < or_default timeout ->
  (TryAcquire net r now l key (Some token) timeout).2
  = if decide (net = Delivered)
    then Some (if bool_decide (GET r now (formatKey key) = None) then (token, true) else (""%string, false))
    else None.
Proof.
  intros Hpos. pose proof (setnx_spec r now (formatKey key) token _ Hpos) as [H1 _].
  unfold TryAcquire. destruct (SETNX _ _ _ _ _) as [r' b]. simpl in H1. subst b.
  destruct net; simpl; try done. by destruct (bool_decide _).
Qed.

(** Unless it succeeds, [TryAcquire] leaves the process as it was. *)
Lemma acquire_local net r now l key generated timeout :
  match TryAcquire net r now l key generated timeout with
  | (_, l', Some (_, true)) =>
      exists token, generated = Some token /\
        l' = if AutoRenew config then startAutoRenew l key token (or_default timeout) else l
  | (_, l', _) => l' = l
  end.
Proof.
  unfold TryAcquire. destruct generated as [token|]; [|done].
  destruct (send _ _ _) as [r' [[]|]]; simpl; eauto.
Qed.

Lemma release_entry net r now l key token :
  forall k, r_entry (Release net r now l key token).1.1 k
    = if decide (net <> LostRequest /\ k = formatKey key /\ GET r now (formatKey key) = Some token)
      then None else r_entry r k.
Proof.
  intros k. assert ((Release net r now l key token).1.1 = (send net r (release_script r now (formatKey key) token)).1) as ->.
  { unfold Release. by destruct (send _ _ _) as [r' []]. }
  rewrite send_store. unfold release_script. pose proof (del_spec r now (formatKey key)) as [_ H2].
  repeat case_decide; try rewrite H2; try case_decide; try done; naive_solver.
Qed.

Lemma release_result net r now l key token :
  (Release net r now l key token).2
  = if decide (net = Delivered) then Some (bool_decide (GET r now (formatKey key) = Some token)) else None.
Proof.
  unfold Release, release_script. pose proof (del_spec r now (formatKey key)) as [H1 _].
  destruct net; try done. cbn [send]. case_decide as Ht; cbn [snd fst].
  - rewrite H1, Ht. by rewrite bool_decide_true.
  - by rewrite bool_decide_false.
Qed.

(** ** Properties *)

(** C6: a lock never changes hands while it is held: no step acquires a key that
    has a live holder, whichever process makes it, and a holder only loses the
    key by a release that presents its own token or by the expiry of its entry. *)
Theorem lock_exclusive s a s' key v
    (Hheld : holder s key = Some v) (Hstep : lock_step s a s') :
  (forall p token, a <> ActAcquire p key token) /\
  (holder s' key = Some v \/
   holder s' key = None /\
     ((exists p, a = ActRelease p key v) \/
      exists d, r_entry (store s') (formatKey key) = Some (v, d) /\ d <= clock s')).
Proof.
  unfold holder in *.
  assert (forall r now, (exists d, r_entry r (formatKey key) = Some (v, d)) ->
    GET r now (formatKey key) = Some v \/ GET r now (formatKey key) = None /\
      exists d, r_entry r (formatKey key) = Some (v, d) /\ d <= now) as Hent.
  { intros r now [d Hd]. rewrite get_spec, Hd. destruct (Z.ltb_spec now d); [auto|eauto]. }
  assert (exists d, r_entry (store s) (formatKey key) = Some (v, d)) as Hd0.
  { rewrite get_spec in Hheld. destruct (r_entry _ _) as [[v0 d0]|]; [|done]. case_match; naive_solver. }
  destruct Hstep as [s p net key' [token|] timeout r l res Hpos Ht|s p net key' token r l res Ht|
    s p net key' token timeout r l res _ Ht|s p net i info r l _ _ Ht|s p i info _ _ _|s p l _|s d _]; simpl.
  - pose proof (acquire_store net (store s) (clock s) (proc s p) key' token timeout Hpos) as He.
    pose proof (acquire_result net (store s) (clock s) (proc s p) key' token timeout Hpos) as Hres.
    rewrite Ht in He, Hres. simpl in He, Hres. split.
    + intros q t E. subst res. destruct (decide (net = Delivered)); [|done].
      case_bool_decide; [|done]. injection E as _ -> _. congruence.
    + destruct (Hent r (clock s)) as [?|[? ?]]; [|auto|auto].
      rewrite He, decide_False; [done|]. intros (_ & ->%formatKey_inj & ?). congruence.
  - injection Ht as <- <- <-. split; [done|auto].
  - pose proof (release_entry net (store s) (clock s) (proc s p) key' token) as He.
    rewrite Ht in He. simpl in He. split; [done|].
    destruct (decide (net <> LostRequest /\ formatKey key = formatKey key' /\
      GET (store s) (clock s) (formatKey key') = Some token)) as [(Hn & ->%formatKey_inj & Hg)|Hne].
    + right. rewrite Hheld in Hg. injection Hg as <-. split; [|by eauto].
      rewrite get_spec, He, decide_True by done. done.
    + destruct (Hent r (clock s)) as [?|[? ?]]; [|auto|auto]. by rewrite He, decide_False.
  - split; [done|]. pose proof (refresh_same_value net (store s) (clock s) (proc s p) key' token timeout _ _ Hheld) as He.
    rewrite Ht in He. destruct (Hent r (clock s) He) as [?|[? ?]]; auto.
  - split; [done|]. pose proof (tick_same_value net (store s) (clock s) (proc s p) i (li_key info) (li_token info)
      (li_captured info) _ _ Hheld) as He. rewrite Ht in He. destruct (Hent r (clock s) He) as [?|[? ?]]; auto.
  - split; [done|auto].
  - split; [done|auto].
  - split; [done|]. destruct (Hent (store s) (clock s + d) Hd0) as [?|[? ?]]; auto.
Qed.

(** [TryAcquire] succeeds only when the key has no live holder; it then holds
    the key with its token, for [IsLocked] and for [Release].  It answers false,
    and changes nothing, only when the key is held.  When it returns an error
    nothing has changed either, except that after a lost reply the key may be
    held with a token the caller never gets, and no goroutine renews it.  The
    other keys are never touched. *)
Theorem lock_try_acquire net r now l key generated timeout (Hpos : 0 < or_default timeout) :
  match TryAcquire net r now l key generated timeout with
  | (r', _, Some (token, true)) =>
      generated = Some token /\ GET r now (formatKey key) = None /\
      IsLocked Delivered r' now key token = Some true /\
      (Release Delivered r' now l key token).2 = Some true /\
      forall k, k <> formatKey key -> r_entry r' k = r_entry r k
  | (r', l', Some (_, false)) =>
      (exists v, GET r now (formatKey key) = Some v) /\ l' = l /\ forall k, r_entry r' k = r_entry r k
  | (r', l', None) =>
      l' = l /\ (forall k, k <> formatKey key -> r_entry r' k = r_entry r k) /\
      (r_entry r' (formatKey key) = r_entry r (formatKey key) \/
       net = LostReply /\ GET r now (formatKey key) = None /\ GET r' now (formatKey key) = generated)
  end.
Proof.
  pose proof (acquire_local net r now l key generated timeout) as Hl.
  destruct generated as [token|]; [|simpl; auto].
  pose proof (acquire_store net r now l key token timeout Hpos) as He.
  pose proof (acquire_result net r now l key token timeout Hpos) as Hres.
  destruct (TryAcquire net r now l key (Some token) timeout) as [[r' l'] res]. simpl in *.
  assert (net <> LostRequest -> GET r now (formatKey key) = None -> GET r' now (formatKey key) = Some token) as Hg.
  { intros Hn Hfree. rewrite get_spec, He, decide_True by done. by rewrite (proj2 (Z.ltb_lt _ _)) by lia. }
  assert (forall k, k <> formatKey key -> r_entry r' k = r_entry r k) as Hk.
  { intros k Hk. rewrite He, decide_False; naive_solver. }
  destruct (decide (net = Delivered)) as [->|Hn]; subst res.
  - case_bool_decide as Hfree.
    + specialize (Hg ltac:(done) Hfree).
      pose proof (release_result Delivered r' now l key token) as Hrel.
      rewrite decide_True, bool_decide_true in Hrel by done. split_and!; try done.
      unfold IsLocked. cbn. rewrite Hg. destruct (decide (token = ""%string)); [done|].
      f_equal. by apply bool_decide_eq_true.
    + split_and!; [destruct (GET r now (formatKey key)); [by eauto|done]|done|].
      intros k. rewrite He, decide_False; naive_solver.
  - split_and!; [done|done|]. rewrite He.
    destruct (decide (net <> LostRequest /\ _)) as [(Hl' & _ & Hfree)|_]; [right|by left].
    split_and!; [by destruct net|done|]. by apply Hg.
Qed.

(** A turn after which the loop goes on: the command got through, the key was held and the
    context is not done. *)
Definition turn_waits (r : R) (key : string) (t : turn) : Prop :=
  tn_net t = Delivered /\ is_Some (tn_generated t) /\ is_Some (GET r (tn_now t) (formatKey key)) /\ tn_done t = false.

(** The stores that the turns of a waiting loop meet. *)
Inductive held_through (key : string) : R -> list turn -> Prop :=
  | held_nil r : held_through key r []
  | held_cons r t turns :
      turn_waits r key t ->
      (forall r', (forall k, r_entry r' k = r_entry r k) -> held_through key (tn_others t r') turns) ->
      held_through key r (t :: turns).

(** [waits_to key r ts r0]: from the store [r] the turns [ts] find the key held, and the turn after them finds
    the store [r0]. *)
Inductive waits_to (key : string) : R -> list turn -> R -> Prop :=
  | waits_nil r : waits_to key r [] r
  | waits_cons r t r' ts r0 :
      turn_waits r key t -> (forall k, r_entry r' k = r_entry r k) -> waits_to key (tn_others t r') ts r0 ->
      waits_to key r (t :: ts) r0.

(** C39: with a positive default timeout [Acquire] waits for as long as the key is held and the context lives, whatever
    [MaxRetries] says.  When it returns a token, it has found the key held in all its turns but
    the last; the token was generated for the last turn, which found the key free, and afterwards the key is held with
    the token until the default timeout has passed, with every other key as that turn found it. *)
Theorem lock_acquire r l key turns (Hpos : 0 < DefaultTimeout config) :
  (held_through key r turns -> (Acquire r l key turns).2 = None) /\
  (forall r' l' token, Acquire r l key turns = (r', l', Some (inl token)) ->
     exists ts t ts' r0, turns = ts ++ t :: ts' /\ waits_to key r ts r0 /\ tn_generated t = Some token /\
       GET r0 (tn_now t) (formatKey key) = None /\ IsLocked Delivered r0 (tn_now t) key token = Some false /\
       (forall k, r_entry r' k = if decide (k = formatKey key) then Some (token, tn_now t + DefaultTimeout config) else r_entry r0 k) /\
       IsLocked Delivered r' (tn_now t) key token = Some true).
Proof.
  assert (or_default (DefaultTimeout config) = DefaultTimeout config) as Hor by (unfold or_default; by case_match).
  assert (0 < or_default (DefaultTimeout config)) as Hdef by lia.
  revert r l. induction turns as [|t turns IH]; intros r l; [split; [done|by intros r' l' token]|].
  cbn [Acquire]. destruct (tn_generated t) as [token0|] eqn:Hgen; [|split; [intros Hh; inv Hh|done]].
  2:{ match goal with H : turn_waits _ _ _ |- _ => destruct H as (_ & Hs & _) end. rewrite Hgen in Hs. by destruct Hs. }
  pose proof (acquire_store (tn_net t) r (tn_now t) l key token0 (DefaultTimeout config) Hdef) as He.
  pose proof (acquire_result (tn_net t) r (tn_now t) l key token0 (DefaultTimeout config) Hdef) as Hres.
  destruct (TryAcquire _ _ _ _ _ _ _) as [[r1 l1] res]. cbn [fst snd] in He, Hres. split.
  - intros Hh. inv Hh. match goal with H : turn_waits _ _ _ |- _ => destruct H as (Hn & _ & [v Hv] & Hd) end.
    rewrite Hn, Hv, Hd. cbn. rewrite decide_True by done. apply IH.
    match goal with H : forall r', _ -> held_through _ _ _ |- _ => apply H end.
    intros k. rewrite He, decide_False; [done|]. rewrite Hv. by intros (_ & _ & ?).
  - intros r' l' token. subst res. destruct (decide (tn_net t = Delivered)) as [Hn|Hn]; [|done].
    case_bool_decide as Hfree.
    + intros [= <- <- <-]. exists [], t, turns, r.
      assert (forall k, r_entry r1 k = if decide (k = formatKey key) then Some (token0, tn_now t + DefaultTimeout config) else r_entry r k) as Hs.
      { intros k. rewrite He, Hor. destruct (decide (k = formatKey key)) as [-> |Hk].
        - by rewrite decide_True by (split_and!; [by rewrite Hn|done..]).
        - by rewrite decide_False by (by intros (_ & ? & _)). }
      assert (GET r1 (tn_now t) (formatKey key) = Some token0) as Hg.
      { rewrite get_spec, Hs, decide_True by done. by rewrite (proj2 (Z.ltb_lt _ _)) by lia. }
      split_and!; [done|constructor|done|done| |done|]; unfold IsLocked; cbn; [by rewrite Hfree|]. rewrite Hg. destruct (decide (token0 = ""%string)); [done|].
      f_equal. by apply bool_decide_eq_true.
    + destruct (tn_done t) eqn:Hd; [done|]. intros Hrun. destruct (proj2 (IH (tn_others t r1) l1) _ _ _ Hrun) as (ts & t' & ts' & r0 & -> & Hw & Hlast).
      exists (t :: ts), t', ts', r0. split; [done|]. split; [|done]. apply (waits_cons key r t r1); [|intros k; rewrite He, decide_False; [done|by intros (_ & _ & ?)]|done].
      split_and!; [done|by rewrite Hgen| |done]. destruct (GET r (tn_now t) (formatKey key)); [by eexists|done].
Qed.

Definition active_open (l : RedisLock) : Prop :=
  forall key i, activeLocks l !! key = Some i ->
    exists info, infos l !! i = Some info /\ li_key info = key /\ li_closed info = false.

Lemma update_timeout_open l key token timeout :
  active_open l -> active_open (update_timeout l key token timeout).
Proof.
  intros Hl. unfold update_timeout. destruct (activeLocks l !! key) as [i|]; [|done].
  destruct (infos l !! i) as [info|] eqn:Hi; [|done]. case_decide; [|done].
  intros k j Hk. simpl in *. destruct (Hl k j Hk) as (inf & Hj & ? & ?).
  destruct (decide (i = j)) as [<-|Hne].
  - rewrite lookup_insert_eq. eexists. split; [done|]. simpl. naive_solver.
  - rewrite lookup_insert_ne by done. eauto.
Qed.

Lemma start_open l key token timeout : active_open l -> active_open (startAutoRenew l key token timeout).
Proof.
  intros Hl k j. simpl. set (i := fresh (dom (infos l))).
  assert (infos l !! i = None) as Hi by apply not_elem_of_dom, is_fresh.
  rewrite lookup_insert. destruct (decide (key = k)) as [<-|Hne].
  - intros [= <-]. rewrite lookup_insert_eq. eauto.
  - intros Hk. destruct (Hl k j Hk) as (inf & Hj & ? & ?). rewrite lookup_insert_ne by congruence. eauto.
Qed.

Lemma handle_open l :
  active_open l -> exists l', handle_stop l = Ret l' /\ active_open l'.
Proof.
  intros Hl. unfold handle_stop. destruct (renewalStopChan l) as [|key rest]; [eauto|].
  destruct (activeLocks l !! key) as [i|] eqn:Hk; [|by eexists].
  destruct (Hl key i Hk) as (info & Hi & Hkey & Hop). rewrite Hi, Hop. eexists. split; [done|].
  intros k j. simpl. rewrite lookup_delete. case_decide as Hne; [done|]. intros Hj.
  destruct (Hl k j Hj) as (inf & Hinf & ? & ?). rewrite lookup_insert_ne by (intros <-; congruence). eauto.
Qed.

Lemma refresh_open net r now l key token timeout :
  active_open l -> active_open (Refresh net r now l key token timeout).1.2.
Proof.
  intros Hl. unfold Refresh. destruct (send _ _ _) as [r' [n|]]; [|done]. simpl.
  destruct ((n =? 1) && AutoRenew config); [by apply update_timeout_open|done].
Qed.

Lemma lock_step_open s a s' :
  (forall p, active_open (proc s p)) -> lock_step s a s' -> forall p, active_open (proc s' p).
Proof.
  intros Hall Hstep q.
  assert (forall s p r l, (forall p, active_open (proc s p)) -> active_open l ->
            active_open (proc (set_proc s r p l) q)) as Hset.
  { intros s0 p r l Hs Hl. unfold proc. simpl. rewrite lookup_insert. case_decide; [done|apply Hs]. }
  destruct Hstep as [s p net key generated timeout r l res _ Ht|s p net key token r l res Ht|
    s p net key token timeout r l res _ Ht|s p net i info r l _ _ Ht|s p i info _ _ _|s p l Ht|s d _];
    [apply Hset; [done|]..|apply Hall].
  - pose proof (acquire_local net (store s) (clock s) (proc s p) key generated timeout) as Hl. rewrite Ht in Hl.
    destruct res as [[token []]|]; [|subst; apply Hall..]. destruct Hl as (tok & _ & ->).
    destruct (AutoRenew config); [apply start_open|]; apply Hall.
  - unfold Release in Ht. destruct (send _ _ _) as [r' [n|]]; simplify_eq/=; [|apply Hall].
    case_match; apply Hall.
  - pose proof (refresh_open net (store s) (clock s) (proc s p) key token timeout (Hall p)) as Ho. by rewrite Ht in Ho.
  - pose proof (refresh_open net (store s) (clock s) (proc s p) (li_key info) (li_token info) (li_captured info) (Hall p)) as Ho.
    unfold renew_tick in Ht. destruct (Refresh _ _ _ _ _ _ _) as [[r' l'] [[]|]]; simplify_eq/=; done.
  - apply Hall.
  - destruct (handle_open (proc s p) (Hall p)) as (l' & Hl' & Ho). rewrite Hl' in Ht. by injection Ht as <-.
Qed.

(** Whatever the processes do, the goroutine that serves stop requests never
    panics: it never closes a channel twice. *)
Theorem lock_handler_never_panics s p (Hreach : lock_reachable s) :
  exists l, handle_stop (proc s p) = Ret l.
Proof.
  assert (forall p, active_open (proc s p)) as Hall.
  { induction Hreach as [r now|s a s' _ IH Hs]; [by intros q key i|]. by eapply lock_step_open. }
  destruct (handle_open (proc s p) (Hall p)) as (l & Hl & _). eauto.
Qed.

End lock.

(** ** Concrete runs *)

(** Calls that get through, with the default configuration, against the map. *)
Abbreviation world := (system (R := redis_map)).

Definition empty_world : world := {| store := ∅; clock := 0; procs := ∅ |}.

Definition run_acquire (s : world) (p : nat) (key token : string) : world :=
  let '(r, l, _) := TryAcquire DefaultLockConfig Delivered (store s) (clock s) (proc s p) key (Some token) 0 in
  set_proc s r p l.

Definition run_release (s : world) (p : nat) (key token : string) : world :=
  let '(r, l, _) := Release DefaultLockConfig Delivered (store s) (clock s) (proc s p) key token in
  set_proc s r p l.

Definition run_handle (s : world) (p : nat) : world :=
  match handle_stop (proc s p) with Ret l => set_proc s (store s) p l | _ => s end.

Abbreviation reachable_world := (lock_reachable (R := redis_map) DefaultLockConfig).

Lemma run_acquire_reach s p key token : reachable_world s -> reachable_world (run_acquire s p key token).
Proof.
  intros Hs. unfold run_acquire. destruct (TryAcquire _ _ _ _ _ _ _ _) as [[r l] res] eqn:E.
  eapply reach_step; [exact Hs|]. eapply st_acquire; [|exact E]. done.
Qed.

Lemma run_release_reach s p key token : reachable_world s -> reachable_world (run_release s p key token).
Proof.
  intros Hs. unfold run_release. destruct (Release _ _ _ _ _ _ _) as [[r l] res] eqn:E.
  eapply reach_step; [exact Hs|]. eapply st_release. exact E.
Qed.

Lemma run_handle_reach s p : reachable_world s -> reachable_world (run_handle s p).
Proof.
  intros Hs. unfold run_handle. destruct (handle_stop (proc s p)) as [l| |] eqn:E; try done.
  eapply reach_step; [exact Hs|]. by eapply st_handle.
Qed.

Definition reacquired : world :=
  run_acquire (run_release (run_acquire empty_world 0 "k" "t1") 0 "k" "t1") 0 "k" "t2".

(** A stop request names a key, not an acquisition.  When a process releases
    a lock and takes it again before the request is served, the goroutine of the
    new acquisition is stopped in place of the old one: the process holds the
    lock and nothing renews it, while the goroutine of the released acquisition
    is still told to run. *)
Theorem lock_renewal_race :
  exists s : world, reachable_world s /\
    holder DefaultLockConfig s "k" = Some "t2"%string /\
    activeLocks (proc s 0) !! "k"%string = None /\
    map_Forall (fun _ info => li_token info = "t2"%string -> li_closed info = true) (infos (proc s 0)) /\
    map_Exists (fun i info => i ∈ renewing (proc s 0) /\ li_token info = "t1"%string /\ li_closed info = false)
      (infos (proc s 0)).
Proof.
  exists (run_handle reacquired 0). split_and!.
  - apply run_handle_reach, run_acquire_reach, run_release_reach, run_acquire_reach. apply reach_init.
  - by vm_compute.
  - by vm_compute.
  - apply (bool_decide_unpack _). by vm_compute.
  - exists 0%nat, (MkLockInfo "k" "t1" 30000000000 30000000000 false). split; [by vm_compute|].
    split_and!; [|done|done]. apply (bool_decide_unpack _). by vm_compute.
Qed.

Lemma lock_exclusive_witness :
  exists s a s', lock_step (R := redis_map) DefaultLockConfig s a s' /\
    forall p token, a <> ActAcquire p "k" token.
Proof.
  set (s := run_acquire empty_world 0 "k" "t1").
  assert (lock_step DefaultLockConfig s ActOther (run_acquire s 1 "k" "t2")) as Hs.
  { eapply (st_acquire _ s 1 Delivered "k" (Some "t2"%string) 0 _ _ (Some (""%string, false))); [done|].
    by vm_compute. }
  exists s, ActOther, (run_acquire s 1 "k" "t2"). split; [exact Hs|].
  apply (lock_exclusive DefaultLockConfig s ActOther (run_acquire s 1 "k" "t2") "k" "t1"); [by vm_compute|exact Hs].
Defined.

Lemma lock_try_acquire_witness :
  (exists l, TryAcquire (R := redis_map) DefaultLockConfig Delivered ∅ 0 NewLock "k" (Some "t1"%string) 0
    = ({[ "lock:k"%string := ("t1"%string, 30000000000) ]}, l, Some ("t1"%string, true))) /\
  GET (∅ : redis_map) 0 (formatKey DefaultLockConfig "k") = None.
Proof.
  split; [by eexists; vm_compute|].
  destruct (lock_try_acquire (R := redis_map) DefaultLockConfig Delivered ∅ 0 NewLock "k" (Some "t1"%string) 0
    ltac:(done)) as (_ & Hfree & _). exact Hfree.
Defined.

(** A key that another process holds: three turns wait, a fourth one after the release
    gets it. *)
Definition held_store : redis_map := {[ "lock:k"%string := ("other"%string, 30000000000) ]}.

Definition busy_turn (now : Z) (others : redis_map -> redis_map) : turn := MkTurn Delivered now (Some "t1"%string) false others.

Definition busy_turns : list turn := (fun now => busy_turn now id) <$> [0; 1; 2; 3; 4].

Lemma held_busy (r : redis_map) times :
  r !! "lock:k"%string = Some ("other"%string, 30000000000) -> Forall (fun now => now < 30000000000) times ->
  held_through DefaultLockConfig "k" r ((fun now => busy_turn now id) <$> times).
Proof.
  intros Hr Ht. revert r Hr. induction Ht as [|now times Hnow _ IH]; intros r Hr; [constructor|]. cbn [fmap list_fmap]. constructor.
  - split_and!; [done|by eexists| |done]. exists "other"%string. cbn. unfold map_GET. change (formatKey DefaultLockConfig "k") with "lock:k"%string.
    rewrite Hr. by rewrite (proj2 (Z.ltb_lt _ _) Hnow).
  - intros r' Hr'. cbn in *. unfold id. apply IH. by rewrite Hr'.
Qed.

Lemma lock_acquire_witness :
  (Acquire DefaultLockConfig held_store NewLock "k" busy_turns).2 = None /\
  exists r l (r0 : redis_map) (t : turn (R := redis_map)), Acquire DefaultLockConfig held_store NewLock "k" [busy_turn 0 (fun _ => ∅); busy_turn 1 id] = (r, l, Some (inl "t1"%string)) /\
    GET r0 (tn_now t) (formatKey DefaultLockConfig "k") = None /\ IsLocked DefaultLockConfig Delivered r (tn_now t) "k" "t1" = Some true.
Proof.
  split.
  - destruct (lock_acquire DefaultLockConfig held_store NewLock "k" busy_turns ltac:(done)) as [Hwait _].
    apply Hwait, held_busy; [done|repeat constructor].
  - set (turns := [busy_turn 0 (fun _ => ∅); busy_turn 1 id]).
    destruct (Acquire DefaultLockConfig held_store NewLock "k" turns) as [[r l] o] eqn:E.
    assert (o = Some (inl "t1"%string)) as -> by (apply (f_equal snd) in E; cbn [snd] in E; rewrite <- E; by vm_compute).
    destruct (lock_acquire DefaultLockConfig held_store NewLock "k" turns ltac:(done)) as [_ Hgot].
    destruct (Hgot r l "t1"%string E) as (_ & t & _ & r0 & _ & _ & _ & Hfree & _ & _ & Hl). exists r, l, r0, t. split; [done|]. exact (conj Hfree Hl).
Defined.

Lemma lock_handler_never_panics_witness :
  renewalStopChan (proc (run_release (run_acquire empty_world 0 "k" "t1") 0 "k" "t1") 0) = ["k"%string] /\
  exists l, handle_stop (proc (run_release (run_acquire empty_world 0 "k" "t1") 0 "k" "t1") 0) = Ret l.
Proof.
  split; [by vm_compute|].
  apply (lock_handler_never_panics DefaultLockConfig), run_release_reach, run_acquire_reach, reach_init.
Defined.
