(* ===== verification/Session.v ===== *)
(** * Client sessions ([pkg/gateway/session.go])

    A [*Session] is shared between the session manager, the gateway and the
    goroutine that reads from its connection, so sessions live in a heap.  The
    connections are code of other packages: a call on one is an [io] event, and
    whether it returns an error is given by the environment.  A QUIC stream is
    the bytes it still holds; a call of its [Read] may give fewer bytes than
    asked for. *)

From stdpp Require Import base gmap strings fin_maps numbers list.
From Stdlib Require Import ZArith Lia.
From S2P Require Import Prelude.

Local Open Scope Z_scope.

Definition ConnectionTypeWebSocket : string := "WebSocket".
Definition ConnectionTypeQUIC : string := "QUIC".
Definition ConnectionTypeInternal : string := "Internal".

(** The connections are named by numbers. *)
Record Session := MkSession {
  ID : string;
  UserID : string;
  ConnectionType : string;
  LastActivity : Z;
  wsConn : option nat;
  secureConn : option nat;
  quicConn : option nat;
  quicStream : option nat;
  closed : bool
}.

#[export]
Instance Session_eq_dec : EqDecision Session.
Proof. solve_decision. Defined.

Definition set_activity (s : Session) (now : Z) : Session :=
  MkSession (ID s) (UserID s) (ConnectionType s) now (wsConn s) (secureConn s) (quicConn s) (quicStream s) (closed s).

Definition set_closed (s : Session) : Session :=
  MkSession (ID s) (UserID s) (ConnectionType s) (LastActivity s) (wsConn s) (secureConn s) (quicConn s) (quicStream s) true.

Definition NewSession (id connType : string) (conn : nat) (now : Z) : Session :=
  MkSession id "" connType now (Some conn) None None None false.

Definition NewSessionWithSecureConnection (id connType : string) (conn : nat) (now : Z) : Session :=
  MkSession id "" connType now None (Some conn) None None false.

Definition NewSessionWithQUIC (id connType : string) (conn : nat) (now : Z) : Session :=
  MkSession id "" connType now None None (Some conn) None false.

Definition SetUserID (s : Session) (userID : string) : Session :=
  MkSession (ID s) userID (ConnectionType s) (LastActivity s) (wsConn s) (secureConn s) (quicConn s) (quicStream s) (closed s).

Definition UpdateLastActiveTime (s : Session) (now : Z) : Session := set_activity s now.

Definition IsClosed (s : Session) : bool := closed s.

(** ** Messages *)

Inductive SessionError :=
  | ErrSessionClosed
  | ErrNoValidConnection
  | ErrConnection
  | ErrSessionNotFound
  | ErrSessionAlreadyExists.

#[export]
Instance SessionError_eq_dec : EqDecision SessionError.
Proof. solve_decision. Defined.

(** The calls on connections. *)
Inductive io :=
  | ws_write (c : nat) (messageType : Z) (data : list byte)
  | secure_send (c : nat) (data : list byte)
  | stream_write (c : nat) (data : list byte)
  | ws_close (c : nat)
  | secure_close (c : nat)
  | stream_close (c : nat)
  | quic_close (c : nat).

#[export]
Instance byte_eq_dec : EqDecision byte.
Proof. intros x y. destruct (Strings.Byte.byte_eq_dec x y); [by left|by right]. Defined.

#[export]
Instance io_eq_dec : EqDecision io.
Proof. solve_decision. Defined.

(** A call whose error is returned at once: the events so far, then it. *)
Definition call (ok : io -> bool) (e : io) : outcome SessionError unit :=
  if ok e then Ret tt else Fail ErrConnection.

(** Calls in sequence, up to the first error. *)
Fixpoint calls (ok : io -> bool) (es : list io) : list io * outcome SessionError unit :=
  match es with
  | [] => ([], Ret tt)
  | e :: es =>
      if ok e then let '(done, o) := calls ok es in (e :: done, o) else ([e], Fail ErrConnection)
  end.

(** [uint32(len(data))], [uint8(messageType)] and the data. *)
Definition frame (messageType : Z) (data : list byte) : list (list byte) :=
  [be_put 4 (uwrap 32 (Z.of_nat (length data))); be_put 1 (uwrap 8 messageType); data].

Definition WriteMessage (ok : io -> bool) (now : Z) (s : Session) (messageType : Z) (data : list byte) :
    Session * list io * outcome SessionError unit :=
  if closed s then (s, [], Fail ErrSessionClosed)
  else
    let s := set_activity s now in
    if decide (ConnectionType s = ConnectionTypeWebSocket) then
      match wsConn s, secureConn s with
      | Some c, _ => (s, [ws_write c messageType data], call ok (ws_write c messageType data))
      | None, Some c => (s, [secure_send c data], call ok (secure_send c data))
      | None, None => (s, [], Fail ErrNoValidConnection)
      end
    else if decide (ConnectionType s = ConnectionTypeQUIC) then
      match quicStream s with
      | Some c =>
          let '(es, o) := calls ok (stream_write c <$> frame messageType data) in (s, es, o)
      | None => (s, [], Fail ErrNoValidConnection)
      end
    else (s, [], Fail ErrNoValidConnection).

(** What a connection delivers next: a message of the websocket, data of the
    secure connection, the bytes the stream holds. [None] is an error. *)
Record incoming := MkIncoming {
  ws_in : option (Z * list byte);
  secure_in : option (list byte);
  stream_in : list byte
}.

(** [websocket.BinaryMessage] *)
Definition BinaryMessage : Z := 2.

(** [binary.Read] of [n] bytes reads all of them or fails. *)
Definition read_full (n : nat) (stream : list byte) : outcome SessionError (list byte * list byte) :=
  if (length stream <? n)%nat then Fail ErrConnection else Ret (take n stream, drop n stream).

(** One call of the stream's [Read] with a buffer of [n] zero bytes, when [chunk]
    bytes have arrived: the buffer afterwards and the rest of the stream. *)
Definition stream_read (chunk n : nat) (stream : list byte) : outcome SessionError (list byte * list byte) :=
  match n, stream with
  | O, _ => Ret ([], stream)
  | _, [] => Fail ErrConnection
  | _, _ =>
      let k := Nat.min n (Nat.max 1 chunk) in
      let got := take k stream in
      Ret (got ++ replicate (n - length got) (byte_of 0), drop k stream)
  end.

Definition read_frame (chunk : nat) (stream : list byte) : outcome SessionError (Z * list byte * list byte) :=
  '(lenBytes, stream) ← read_full 4 stream;
  '(typeBytes, stream) ← read_full 1 stream;
  '(data, stream) ← stream_read chunk (Z.to_nat (be_get lenBytes)) stream;
  Ret (be_get typeBytes, data, stream).

(** The message's type and data, and the rest of the stream. *)
Definition ReadMessage (now : Z) (chunk : nat) (i : incoming) (s : Session) :
    Session * outcome SessionError (Z * list byte * list byte) :=
  if closed s then (s, Fail ErrSessionClosed)
  else
    let s := set_activity s now in
    (s,
     if decide (ConnectionType s = ConnectionTypeWebSocket) then
       match wsConn s, secureConn s with
       | Some _, _ => match ws_in i with Some (t, d) => Ret (t, d, stream_in i) | None => Fail ErrConnection end
       | None, Some _ =>
           match secure_in i with Some d => Ret (BinaryMessage, d, stream_in i) | None => Fail ErrConnection end
       | None, None => Fail ErrNoValidConnection
       end
     else if decide (ConnectionType s = ConnectionTypeQUIC) then
       match quicStream s with
       | Some _ => read_frame chunk (stream_in i)
       | None => Fail ErrNoValidConnection
       end
     else Fail ErrNoValidConnection).

Definition Close (ok : io -> bool) (s : Session) : Session * list io * outcome SessionError unit :=
  if closed s then (s, [], Ret tt)
  else
    let s := set_closed s in
    if decide (ConnectionType s = ConnectionTypeWebSocket) then
      match wsConn s, secureConn s with
      | Some c, _ => (s, [ws_close c], call ok (ws_close c))
      | None, Some c => (s, [secure_close c], call ok (secure_close c))
      | None, None => (s, [], Ret tt)
      end
    else if decide (ConnectionType s = ConnectionTypeQUIC) then
      let es := match quicStream s with Some c => [stream_close c] | None => [] end in
      match quicConn s with
      | Some c => (s, es ++ [quic_close c], call ok (quic_close c))
      | None => (s, es, Ret tt)
      end
    else (s, [], Ret tt).

(** ** The session manager *)

Abbreviation heap := (gmap nat Session).

Record SessionManager := MkManager {
  sessions : gmap string nat;
  heartbeatTTL : Z;
  cancelled : bool
}.

Definition NewSessionManager (ttl : Z) : SessionManager :=
  {| sessions := ∅; heartbeatTTL := ttl; cancelled := false |}.

Definition set_sessions (sm : SessionManager) (m : gmap string nat) : SessionManager :=
  {| sessions := m; heartbeatTTL := heartbeatTTL sm; cancelled := cancelled sm |}.

Definition GetSession (sm : SessionManager) (sessionID : string) : option nat := sessions sm !! sessionID.

Definition GetAllSessions (order : list (string * nat)) : list nat := order.*2.

Definition GetSessionCount (sm : SessionManager) : nat := size (sessions sm).

Definition AddSession (h : heap) (sm : SessionManager) (a : nat) :
    SessionManager * outcome SessionError unit :=
  match h !! a with
  | None => (sm, Panic)
  | Some session =>
      match sessions sm !! ID session with
      | Some _ => (sm, Fail ErrSessionAlreadyExists)
      | None => (set_sessions sm (<[ID session := a]> (sessions sm)), Ret tt)
      end
  end.

Definition RemoveSession (h : heap) (sm : SessionManager) (sessionID : string) :
    heap * SessionManager * outcome SessionError unit :=
  match sessions sm !! sessionID with
  | None => (h, sm, Fail ErrSessionNotFound)
  | Some a => (alter set_closed a h, set_sessions sm (delete sessionID (sessions sm)), Ret tt)
  end.

(** The scan of [checkHeartbeats]. *)
Definition is_expired (h : heap) (sm : SessionManager) (now : Z) (a : nat) : bool :=
  match h !! a with Some s => now - LastActivity s >? heartbeatTTL sm | None => false end.

Fixpoint expired_sessions (h : heap) (sm : SessionManager) (now : Z) (order : list (string * nat)) : list string :=
  match order with
  | [] => []
  | (id, a) :: rest =>
      if is_expired h sm now a then id :: expired_sessions h sm now rest else expired_sessions h sm now rest
  end.

Fixpoint remove_sessions (h : heap) (sm : SessionManager) (ids : list string) : heap * SessionManager :=
  match ids with
  | [] => (h, sm)
  | id :: rest => let '(h, sm, _) := RemoveSession h sm id in remove_sessions h sm rest
  end.

(** [order] is the order in which the map is visited. *)
Definition checkHeartbeats (h : heap) (sm : SessionManager) (now : Z) (order : list (string * nat)) :
    heap * SessionManager :=
  remove_sessions h sm (expired_sessions h sm now order).

(** Closing the sessions one by one. *)
Fixpoint close_all (h : heap) (l : list nat) : heap :=
  match l with
  | [] => h
  | a :: rest => close_all (alter set_closed a h) rest
  end.

Definition Stop (h : heap) (sm : SessionManager) (order : list (string * nat)) : heap * SessionManager :=
  (close_all h (order.*2), {| sessions := ∅; heartbeatTTL := heartbeatTTL sm; cancelled := true |}).

(** A session in the map whose pointer is [nil] does not occur: [AddSession] and
    [GetOrCreate] store pointers they have used. *)
Definition GetOrCreate (h : heap) (sm : SessionManager) (sessionID : string) (now : Z) :
    heap * SessionManager * nat :=
  match sessions sm !! sessionID with
  | Some a => (alter (fun s => UpdateLastActiveTime s now) a h, sm, a)
  | None =>
      let a := fresh (dom h) in
      (<[a := MkSession sessionID "" ConnectionTypeQUIC now None None None None false]> h,
       set_sessions sm (<[sessionID := a]> (sessions sm)), a)
  end.

(** ** Runs *)

(** What other goroutines do with a session. *)
Inductive session_op :=
  | OpRead (now : Z) (chunk : nat) (i : incoming)
  | OpWrite (now : Z) (messageType : Z) (data : list byte)
  | OpClose
  | OpTouch (now : Z)
  | OpUser (userID : string).

Definition session_step (ok : io -> bool) (s : Session) (op : session_op) : Session * list io :=
  match op with
  | OpRead now chunk i => ((ReadMessage now chunk i s).1, [])
  | OpWrite now t d => (WriteMessage ok now s t d).1
  | OpClose => (Close ok s).1
  | OpTouch now => (UpdateLastActiveTime s now, [])
  | OpUser u => (SetUserID s u, [])
  end.

Fixpoint session_run (ok : io -> bool) (s : Session) (ops : list session_op) : Session * list io :=
  match ops with
  | [] => (s, [])
  | op :: rest =>
      let '(s, es) := session_step ok s op in
      let '(s, es') := session_run ok s rest in (s, es ++ es')
  end.

Definition is_close (e : io) : bool :=
  match e with ws_close _ | secure_close _ | stream_close _ | quic_close _ => true | _ => false end.

Definition is_OpClose (op : session_op) : bool := match op with OpClose => true | _ => false end.

(** The manager's operations, those of its sessions' users, and new sessions. *)
Inductive manager_op :=
  | OpAdd (a : nat)
  | OpRemove (id : string)
  | OpBeat (now : Z) (order : list (string * nat))
  | OpStop (order : list (string * nat))
  | OpGetOrCreate (id : string) (now : Z)
  | OpNew (s : Session)
  | OpSession (a : nat) (op : session_op).

Definition manager_step (ok : io -> bool) (h : heap) (sm : SessionManager) (op : manager_op) :
    heap * SessionManager :=
  match op with
  | OpAdd a => (h, (AddSession h sm a).1)
  | OpRemove id => (RemoveSession h sm id).1
  | OpBeat now order => checkHeartbeats h sm now order
  | OpStop order => Stop h sm order
  | OpGetOrCreate id now => (GetOrCreate h sm id now).1
  | OpNew s => (<[fresh (dom h) := s]> h, sm)
  | OpSession a op => (alter (fun s => (session_step ok s op).1) a h, sm)
  end.

(** Ranging over the map visits its entries. *)
Definition op_order_ok (sm : SessionManager) (op : manager_op) : Prop :=
  match op with
  | OpBeat _ order | OpStop order => map_order (sessions sm) order
  | _ => True
  end.

Inductive manager_reach (ok : io -> bool) (ttl : Z) : heap -> SessionManager -> Prop :=
  | mreach_init h : manager_reach ok ttl h (NewSessionManager ttl)
  | mreach_step h sm op h' sm' :
      manager_reach ok ttl h sm -> op_order_ok sm op -> manager_step ok h sm op = (h', sm') ->
      manager_reach ok ttl h' sm'.

(** ** Framing *)

Lemma read_full_app n xs rest : length xs = n -> read_full n (xs ++ rest) = Ret (xs, rest).
Proof.
  intros <-. unfold read_full. rewrite (proj2 (Nat.ltb_ge _ _)) by (rewrite length_app; lia).
  by rewrite take_app_length, drop_app_length.
Qed.

Lemma stream_read_app chunk k xs rest :
  (0 < length xs)%nat -> k = Nat.min (length xs) (Nat.max 1 chunk) ->
  stream_read chunk (length xs) (xs ++ rest)
  = Ret (take k xs ++ replicate (length xs - k) (byte_of 0), drop k xs ++ rest).
Proof.
  intros Hpos ->. set (k := Nat.min _ _). assert (k <= length xs)%nat as Hk by lia.
  destruct xs as [|x xs']; [simpl in Hpos; lia|]. set (xs := x :: xs') in *. unfold stream_read.
  change (length xs) with (S (length xs')). cbn [app]. fold (app xs rest).
  change (x :: xs' ++ rest) with (xs ++ rest). fold k.
  rewrite take_app_le, drop_app_le by done. by rewrite length_take_le.
Qed.

Lemma frame_bytes t data rest :
  0 <= t < 256 -> Z.of_nat (length data) < 2 ^ 32 ->
  forall chunk, read_frame chunk (concat (frame t data) ++ rest)
    = '(d, rest) ← stream_read chunk (length data) (data ++ rest); Ret (t, d, rest).
Proof.
  intros Ht Hd chunk. unfold read_frame, frame. cbn [concat]. rewrite app_nil_r, <- !app_assoc.
  rewrite read_full_app by apply length_be_put. gosimpl.
  rewrite read_full_app by apply length_be_put. gosimpl.
  rewrite !be_get_put, !uwrap_small by (unfold in_u; lia).
  rewrite !Z.mod_small by (change (256 ^ Z.of_nat 4) with (2 ^ 32); change (256 ^ Z.of_nat 1) with 256; lia).
  by rewrite Nat2Z.id.
Qed.

(** ** Sessions *)

Lemma closed_step ok s op :
  closed s = true -> closed (session_step ok s op).1 = true /\ (session_step ok s op).2 = [].
Proof.
  intros Hc. destruct op; simpl; unfold ReadMessage, WriteMessage, Close; rewrite ?Hc; done.
Qed.

Lemma closed_run ok s ops : closed s = true -> (session_run ok s ops).2 = [].
Proof.
  revert s. induction ops as [|op ops IH]; intros s Hc; [done|]. simpl.
  destruct (closed_step ok s op Hc) as [Hc' He]. destruct (session_step ok s op) as [s' es]. simpl in *. subst es.
  specialize (IH s' Hc'). by destruct (session_run ok s' ops).
Qed.

(** The fields that tell how a session is closed. *)
Definition same_connections (s s' : Session) : Prop :=
  ConnectionType s' = ConnectionType s /\ wsConn s' = wsConn s /\ secureConn s' = secureConn s /\
  quicConn s' = quicConn s /\ quicStream s' = quicStream s /\ closed s' = closed s.

Lemma close_same ok s s' : same_connections s s' -> (Close ok s').1.2 = (Close ok s).1.2.
Proof.
  destruct s, s'. unfold same_connections. simpl. intros (-> & -> & -> & -> & -> & ->). unfold Close. simpl.
  repeat case_match; by simplify_eq/=.
Qed.

Lemma calls_no_close ok es : Forall (fun e => is_close e = false) es -> Forall (fun e => is_close e = false) (calls ok es).1.
Proof.
  induction 1 as [|e es He Hes IH]; [done|]. simpl. destruct (ok e); [|by repeat constructor].
  destruct (calls ok es) as [done o]. simpl in *. by constructor.
Qed.

Lemma open_step ok s op :
  is_OpClose op = false ->
  same_connections s (session_step ok s op).1 /\ Forall (fun e => is_close e = false) (session_step ok s op).2.
Proof.
  destruct op; intros Hop; try done; simpl.
  - unfold ReadMessage. destruct (closed s); by repeat split.
  - unfold WriteMessage. destruct (closed s); [by repeat split|]. repeat case_match; try by repeat constructor.
    split; [by repeat split|]. simpl. match goal with E : calls ?f ?es = (?l, _) |- _ =>
      change l with (fst (l, o)); rewrite <- E end.
    apply calls_no_close. by repeat constructor.
Qed.

(** Whatever its users do with an open session, it does its writes first and
    then, if it is closed, the closing calls of its connection once; there is no
    call on a connection after it was closed. *)
Theorem session_io_order ok s ops (Hopen : closed s = false) :
  exists writes, (session_run ok s ops).2 = writes ++ (if existsb is_OpClose ops then (Close ok s).1.2 else []) /\
    Forall (fun e => is_close e = false) writes.
Proof.
  revert s Hopen. induction ops as [|op ops IH]; intros s Hopen; [by exists []|]. simpl.
  destruct (is_OpClose op) eqn:Hop; simpl.
  - destruct op; try done. simpl. exists []. split; [|done]. simpl.
    assert (closed (Close ok s).1.1 = true) as Hc by (unfold Close; rewrite Hopen; by repeat case_match).
    destruct (Close ok s) as [[s' es] o]. simpl in *. pose proof (closed_run ok s' ops Hc) as Hr.
    destruct (session_run ok s' ops). simpl in *. subst. by rewrite app_nil_r.
  - destruct (open_step ok s op Hop) as [Hsame Hes]. destruct (session_step ok s op) as [s' es]. simpl in *.
    destruct (IH s') as (w & Hw & Hf); [by destruct Hsame as (_ & _ & _ & _ & _ & ->)|].
    destruct (session_run ok s' ops) as [s'' es']. simpl in *. subst es'.
    exists (es ++ w). rewrite <- app_assoc. rewrite (close_same ok s s') by done.
    split; [done|]. by apply Forall_app.
Qed.

Definition sample_session : Session := NewSession "s1" ConnectionTypeWebSocket 7 0.

Lemma session_io_order_witness :
  (session_run (fun _ => true) sample_session [OpWrite 1 2 []; OpClose; OpWrite 2 2 []; OpClose]).2
    = [ws_write 7 2 []; ws_close 7] /\
  exists writes, (session_run (fun _ => true) sample_session [OpWrite 1 2 []; OpClose; OpWrite 2 2 []; OpClose]).2
    = writes ++ [ws_close 7] /\ Forall (fun e => is_close e = false) writes.
Proof.
  split; [reflexivity|].
  exact (session_io_order (fun _ => true) sample_session [OpWrite 1 2 []; OpClose; OpWrite 2 2 []; OpClose] eq_refl).
Defined.

(** The bytes that calls write to a stream. *)
Fixpoint written (es : list io) : list byte :=
  match es with
  | [] => []
  | stream_write _ d :: es => d ++ written es
  | _ :: es => written es
  end.

Definition quic_open (s : Session) : Prop :=
  closed s = false /\ ConnectionType s = ConnectionTypeQUIC /\ exists c, quicStream s = Some c.

Lemma write_quic ok now s t data :
  quic_open s -> (forall e, ok e = true) ->
  written (WriteMessage ok now s t data).1.2 = concat (frame t data).
Proof.
  intros (Hc & Hq & c & Hs) Hok. unfold WriteMessage. rewrite Hc. simpl. rewrite Hq. simpl. rewrite Hs.
  rewrite !Hok. simpl. done.
Qed.

Lemma read_quic now chunk i s :
  quic_open s -> (ReadMessage now chunk i s).2 = read_frame chunk (stream_in i).
Proof.
  intros (Hc & Hq & c & Hs). unfold ReadMessage. rewrite Hc. simpl. rewrite Hq. simpl. by rewrite Hs.
Qed.

(** A QUIC session reads back the type and the data that another wrote when
    one [Read] of the stream gives the whole message; when it gives only [chunk]
    bytes, [ReadMessage] still succeeds, the rest of the data are zeros, and the
    bytes it did not take are the beginning of the next message. *)
Theorem session_frame_read ok now now' s r t data chunk i rest
    (Hs : quic_open s) (Hr : quic_open r) (Hok : forall e, ok e = true)
    (Ht : 0 <= t < 256) (Hlen : Z.of_nat (length data) < 2 ^ 32)
    (Hin : stream_in i = written (WriteMessage ok now s t data).1.2 ++ rest) :
  let k := Nat.min (length data) (Nat.max 1 chunk) in
  (ReadMessage now' chunk i r).2
  = Ret (t, take k data ++ replicate (length data - k) (byte_of 0), drop k data ++ rest).
Proof.
  intros k. rewrite read_quic, Hin, write_quic, frame_bytes by done.
  destruct (decide (length data = 0)%nat) as [E|Hne].
  - apply nil_length_inv in E. subst data. done.
  - rewrite (stream_read_app chunk k) by lia. done.
Qed.

Definition quic_session : Session := MkSession "s" "" ConnectionTypeQUIC 0 None None None (Some 1%nat) false.

Lemma session_frame_read_witness :
  (ReadMessage 0 2 (MkIncoming None None (written (WriteMessage (fun _ => true) 0 quic_session 3 (str_bytes "abc")).1.2 ++ str_bytes "z"))
    quic_session).2 = Ret (3, str_bytes "ab" ++ [byte_of 0], str_bytes "cz").
Proof.
  refine (session_frame_read (fun _ => true) 0 0 quic_session quic_session 3 (str_bytes "abc") 2
    (MkIncoming None None (written (WriteMessage (fun _ => true) 0 quic_session 3 (str_bytes "abc")).1.2 ++ str_bytes "z"))
    (str_bytes "z") _ _ _ _ _ eq_refl); [split_and!; eauto..|done|lia|by vm_compute].
Defined.

(** ** The manager *)

(** Every entry is a session with that ID. *)
Definition manager_inv (h : heap) (sm : SessionManager) : Prop :=
  forall id a, sessions sm !! id = Some a -> exists s, h !! a = Some s /\ ID s = id.

Lemma manager_inv_inj h sm id1 id2 a :
  manager_inv h sm -> sessions sm !! id1 = Some a -> sessions sm !! id2 = Some a -> id1 = id2.
Proof. intros Hi H1 H2. destruct (Hi _ _ H1) as (s & ? & <-), (Hi _ _ H2) as (s' & ? & <-). congruence. Qed.

Lemma alter_inv h sm f a :
  (forall s, ID (f s) = ID s) -> manager_inv h sm -> manager_inv (alter f a h) sm.
Proof.
  intros Hf Hi id b Hb. destruct (Hi id b Hb) as (s & Hs & Hid). destruct (decide (a = b)) as [->|Hne].
  - rewrite lookup_alter_eq, Hs. eexists. split; [done|]. by rewrite Hf.
  - rewrite lookup_alter_ne by done. eauto.
Qed.

Lemma session_step_ID ok s op : ID (session_step ok s op).1 = ID s.
Proof.
  destruct op; simpl; unfold ReadMessage, WriteMessage, Close; try done; repeat case_match; by simplify_eq/=.
Qed.

Lemma remove_inv h sm id : manager_inv h sm -> manager_inv (RemoveSession h sm id).1.1 (RemoveSession h sm id).1.2.
Proof.
  intros Hi. unfold RemoveSession. destruct (sessions sm !! id) as [a|]; [|done]. simpl.
  apply alter_inv; [done|]. intros k b. simpl. intros [_ Hk]%lookup_delete_Some. eauto.
Qed.

Lemma remove_sessions_inv h sm ids :
  manager_inv h sm -> manager_inv (remove_sessions h sm ids).1 (remove_sessions h sm ids).2.
Proof.
  revert h sm. induction ids as [|id ids IH]; intros h sm Hi; [done|]. simpl.
  pose proof (remove_inv h sm id Hi) as Hr. destruct (RemoveSession h sm id) as [[h' sm'] o]. by apply IH.
Qed.

Lemma new_inv h sm s : manager_inv h sm -> manager_inv (<[fresh (dom h) := s]> h) sm.
Proof.
  intros Hi id a Ha. destruct (Hi id a Ha) as (s' & Hs & Hid).
  assert (h !! fresh (dom h) = None) by apply not_elem_of_dom, is_fresh.
  rewrite lookup_insert_ne by congruence. eauto.
Qed.

Lemma insert_inv h sm id a s :
  manager_inv h sm -> h !! a = Some s -> ID s = id -> manager_inv h (set_sessions sm (<[id := a]> (sessions sm))).
Proof.
  intros Hi Ha Hid k b. simpl. rewrite lookup_insert. case_decide; [|by apply Hi]. intros [= <-]. subst. eauto.
Qed.

Lemma manager_step_inv ok h sm op :
  manager_inv h sm -> manager_inv (manager_step ok h sm op).1 (manager_step ok h sm op).2.
Proof.
  intros Hi. destruct op as [a|id|now order|order|id now|s|a op]; simpl.
  - unfold AddSession. destruct (h !! a) as [s|] eqn:Ha; [|done].
    destruct (sessions sm !! ID s); [done|]. by eapply insert_inv.
  - by apply remove_inv.
  - by apply remove_sessions_inv.
  - by intros id a.
  - unfold GetOrCreate. destruct (sessions sm !! id) as [a|]; simpl; [by apply alter_inv|].
    eapply insert_inv; [by apply new_inv|apply lookup_insert_eq|done].
  - by apply new_inv.
  - apply alter_inv; [|done]. intros s. apply session_step_ID.
Qed.

Lemma manager_reach_inv ok ttl h sm : manager_reach ok ttl h sm -> manager_inv h sm.
Proof.
  induction 1 as [h|h sm op h' sm' _ IH _ Hs]; [by intros id a|].
  pose proof (manager_step_inv ok h sm op IH) as Hi. by rewrite Hs in Hi.
Qed.

Lemma remove_sessions_map h sm ids id :
  sessions (remove_sessions h sm ids).2 !! id = if decide (id ∈ ids) then None else sessions sm !! id.
Proof.
  revert h sm. induction ids as [|k ids IH]; intros h sm; [done|]. simpl. unfold RemoveSession.
  destruct (sessions sm !! k) as [a|] eqn:Hk; simpl; rewrite IH; simpl; rewrite ?lookup_delete;
    repeat case_decide; set_solver.
Qed.

Lemma remove_sessions_other h sm ids a :
  (forall id, sessions sm !! id = Some a -> id ∉ ids) -> (remove_sessions h sm ids).1 !! a = h !! a.
Proof.
  revert h sm. induction ids as [|k ids IH]; intros h sm Hid; [done|]. simpl. unfold RemoveSession.
  destruct (sessions sm !! k) as [b|] eqn:Hk; simpl.
  - rewrite IH; [apply lookup_alter_ne; intros ->; by apply (Hid k); [|left]|].
    intros id. simpl. intros [_ Hi]%lookup_delete_Some. apply Hid in Hi. set_solver.
  - apply IH. intros id Hi%Hid. set_solver.
Qed.

Lemma remove_sessions_closed h sm ids id a :
  manager_inv h sm -> sessions sm !! id = Some a -> id ∈ ids ->
  (remove_sessions h sm ids).1 !! a = set_closed <$> h !! a.
Proof.
  revert h sm. induction ids as [|k ids IH]; intros h sm Hi Ha Hin; [set_solver|]. simpl.
  pose proof (remove_inv h sm k Hi) as Hi'. unfold RemoveSession in *.
  destruct (sessions sm !! k) as [b|] eqn:Hk; simpl in *; [|apply IH; [done|done|set_solver]].
  destruct (decide (k = id)) as [->|Hne].
  - assert (b = a) as -> by congruence. rewrite remove_sessions_other; [apply lookup_alter_eq|].
    intros id'. simpl. intros [Hne Hid']%lookup_delete_Some. by destruct (manager_inv_inj h sm id id' a Hi Ha Hid').
  - rewrite IH; [|done|simpl; by rewrite lookup_delete_ne|set_solver].
    rewrite lookup_alter_ne; [done|]. intros ->. by destruct (manager_inv_inj h sm k id a Hi Hk Ha).
Qed.

Lemma expired_sessions_spec h sm now order id :
  id ∈ expired_sessions h sm now order <-> exists a, (id, a) ∈ order /\ is_expired h sm now a = true.
Proof.
  induction order as [|[k b] order IH]; simpl; [set_solver|].
  setoid_rewrite elem_of_cons.
  destruct (is_expired h sm now b) eqn:Hb; [rewrite elem_of_cons|]; rewrite IH; split.
  - intros [->|(a & ? & ?)]; eauto.
  - intros (a & [[= -> ->]|?] & ?); eauto.
  - intros (a & ? & ?); eauto.
  - intros (a & [[= -> ->]|?] & ?); [congruence|eauto].
Qed.

Lemma expired_in_order h sm now order id a :
  map_order (sessions sm) order -> sessions sm !! id = Some a ->
  id ∈ expired_sessions h sm now order <-> is_expired h sm now a = true.
Proof.
  intros Ho Ha. rewrite expired_sessions_spec. setoid_rewrite Ho. setoid_rewrite elem_of_map_to_list. naive_solver.
Qed.

(** In every run, a heartbeat check takes out of the manager exactly the
    sessions that have been inactive for longer than the limit, and marks
    exactly these closed; no other session changes, in whatever order the map
    is visited. *)
Theorem manager_heartbeat_exact ok ttl h sm now order
    (Hreach : manager_reach ok ttl h sm) (Horder : map_order (sessions sm) order) :
  let h' := (checkHeartbeats h sm now order).1 in
  let sm' := (checkHeartbeats h sm now order).2 in
  (forall id a, sessions sm' !! id = Some a <-> sessions sm !! id = Some a /\ is_expired h sm now a = false) /\
  (forall id a, sessions sm !! id = Some a -> is_expired h sm now a = true -> h' !! a = set_closed <$> h !! a) /\
  (forall a, (forall id, sessions sm !! id = Some a -> is_expired h sm now a = false) -> h' !! a = h !! a).
Proof.
  apply manager_reach_inv in Hreach as Hi. intros h' sm'. split_and!.
  - intros id a. subst sm'. unfold checkHeartbeats. rewrite remove_sessions_map.
    destruct (sessions sm !! id) as [b|] eqn:Hb; [|case_decide; (split; [done|by intros []])].
    pose proof (expired_in_order h sm now order id b Horder Hb) as He.
    case_decide as Hd.
    + apply He in Hd. split; [done|]. intros [[= <-] ?]. congruence.
    + split; [|by intros [? _]]. intros [= <-]. split; [done|]. apply not_true_is_false. tauto.
  - intros id a Ha Hx. apply (remove_sessions_closed _ _ _ id); [done|done|].
    by eapply expired_in_order.
  - intros a Ha. apply remove_sessions_other. intros id Hid Hin.
    apply (expired_in_order h sm now order id a Horder Hid) in Hin. rewrite (Ha id Hid) in Hin. done.
Qed.

Lemma close_all_spec h l a : h !! a <> None -> a ∈ l -> exists s, close_all h l !! a = Some s /\ closed s = true.
Proof.
  assert (forall l h s, h !! a = Some s -> closed s = true ->
    exists s', close_all h l !! a = Some s' /\ closed s' = true) as Hkeep.
  { clear. intros l. induction l as [|b l IH]; intros h s Hs Hc; [eauto|]. simpl.
    destruct (decide (b = a)) as [->|Hne].
    - apply (IH _ (set_closed s)); [|done]. by rewrite lookup_alter_eq, Hs.
    - apply (IH _ s); [|done]. by rewrite lookup_alter_ne. }
  revert h. induction l as [|b l IH]; intros h Ha Hin; [set_solver|]. simpl.
  destruct (h !! a) as [s|] eqn:Hs; [|done]. destruct (decide (b = a)) as [->|Hne].
  - apply (Hkeep l _ (set_closed s)); [|done]. by rewrite lookup_alter_eq, Hs.
  - apply IH; [|set_solver]. by rewrite lookup_alter_ne, Hs.
Qed.

(** However a session leaves the manager, by [RemoveSession], by a heartbeat
    check or by [Stop], it is only marked closed: whatever is done with it
    afterwards, [Close] included, no call is made on its connection any more, so
    the connection is never closed. *)
Theorem manager_leaves_connection_open ok ttl h sm op id a ops
    (Hreach : manager_reach ok ttl h sm) (Horder : op_order_ok sm op)
    (Hin : sessions sm !! id = Some a) (Hout : sessions (manager_step ok h sm op).2 !! id <> Some a) :
  exists s, (manager_step ok h sm op).1 !! a = Some s /\ closed s = true /\ (session_run ok s ops).2 = [].
Proof.
  apply manager_reach_inv in Hreach as Hi. destruct (Hi id a Hin) as (s & Hs & Hid).
  cut (exists s, (manager_step ok h sm op).1 !! a = Some s /\ closed s = true).
  { intros (s' & ? & ?). exists s'. split_and!; [done|done|]. by apply closed_run. }
  destruct op as [b|k|now order|order|k now|s0|b op]; simpl in *.
  - unfold AddSession in Hout. destruct (h !! b) as [s0|]; [|done].
    destruct (sessions sm !! ID s0) eqn:E; [done|]. simpl in Hout. rewrite lookup_insert_ne in Hout by congruence. done.
  - unfold RemoveSession in *. destruct (sessions sm !! k) as [b|] eqn:Hk; [|done]. simpl in *.
    destruct (decide (k = id)) as [->|Hne]; [|by rewrite lookup_delete_ne in Hout].
    assert (b = a) as -> by congruence. rewrite lookup_alter_eq, Hs. by eexists.
  - unfold checkHeartbeats in *. rewrite remove_sessions_map in Hout. case_decide as Hd; [|done].
    rewrite (remove_sessions_closed _ _ _ id) by done. rewrite Hs. by eexists.
  - apply close_all_spec; [by rewrite Hs|]. apply list_elem_of_fmap. exists (id, a). split; [done|].
    rewrite Horder. by apply elem_of_map_to_list.
  - unfold GetOrCreate in Hout. destruct (sessions sm !! k) eqn:Hk; [done|]. simpl in Hout.
    rewrite lookup_insert_ne in Hout by congruence. done.
  - done.
  - done.
Qed.

(** A manager with one session, and a session that expires. *)
Definition sample_heap : heap := {[ 0%nat := sample_session ]}.
Definition sample_manager : SessionManager := set_sessions (NewSessionManager 30) {[ "s1"%string := 0%nat ]}.

Lemma sample_manager_reach : manager_reach (fun _ => true) 30 sample_heap sample_manager.
Proof.
  apply (mreach_step _ _ sample_heap (NewSessionManager 30) (OpAdd 0)); [apply mreach_init|done|].
  by vm_compute.
Qed.

Lemma manager_heartbeat_exact_witness :
  is_expired sample_heap sample_manager 31 0 = true /\
  (checkHeartbeats sample_heap sample_manager 31 [("s1"%string, 0%nat)]).1 !! 0%nat = Some (set_closed sample_session).
Proof.
  split; [by vm_compute|].
  refine (proj1 (proj2 (manager_heartbeat_exact (fun _ => true) 30 sample_heap sample_manager 31 [("s1"%string, 0%nat)]
    sample_manager_reach _)) "s1"%string 0%nat _ _); by vm_compute.
Defined.

Lemma manager_leaves_connection_open_witness :
  exists s, (manager_step (fun _ => true) sample_heap sample_manager (OpRemove "s1")).1 !! 0%nat = Some s /\
    closed s = true /\ (session_run (fun _ => true) s [OpClose]).2 = [].
Proof.
  apply (manager_leaves_connection_open (fun _ => true) 30 sample_heap sample_manager (OpRemove "s1") "s1" 0 [OpClose]
    sample_manager_reach); by vm_compute.
Defined.
