(* ===== verification/Gateway.v ===== *)
(** * The gateway ([pkg/gateway/handler.go])

    The gateway keeps its sessions by ID and, for those with a user, by user and
    ID.  A goroutine per session reads a message, converts it, routes it and
    writes the answer back.  A cleanup closes the sessions that have been idle
    for too long.  The protocol converter is used through its interface; the
    router, the discovery and the sessions are those of the other files. *)

From stdpp Require Import base gmap strings fin_maps numbers relations list.
From Stdlib Require Import ZArith Lia.
From S2P Require Import Prelude Message Router Session.

Local Open Scope Z_scope.

(** ** The sessions of the gateway *)

Record GatewayHandler := MkGateway {
  g_heap : heap;
  g_sessions : gmap string nat;
  sessionsByUser : gmap string (gmap string nat)
}.

Definition NewGatewayHandler (h : heap) : GatewayHandler :=
  {| g_heap := h; g_sessions := ∅; sessionsByUser := ∅ |}.

Definition set_heap (g : GatewayHandler) (h : heap) : GatewayHandler :=
  {| g_heap := h; g_sessions := g_sessions g; sessionsByUser := sessionsByUser g |}.

(** The entry of a user is made when it is missing. *)
Definition index_add (m : gmap string (gmap string nat)) (user id : string) (a : nat) :
    gmap string (gmap string nat) :=
  if decide (user = ""%string) then m else <[user := <[id := a]> (default ∅ (m !! user))]> m.

(** The entry of a user goes with the user's last session. *)
Definition index_remove (m : gmap string (gmap string nat)) (user id : string) : gmap string (gmap string nat) :=
  if decide (user = ""%string) then m
  else match m !! user with
       | None => m
       | Some userSessions =>
           let userSessions := delete id userSessions in
           if decide (size userSessions = 0%nat) then delete user m else <[user := userSessions]> m
       end.

Definition registerSession (g : GatewayHandler) (a : nat) : GatewayHandler :=
  match g_heap g !! a with
  | None => g
  | Some session =>
      {| g_heap := g_heap g;
         g_sessions := <[ID session := a]> (g_sessions g);
         sessionsByUser := index_add (sessionsByUser g) (UserID session) (ID session) a |}
  end.

Definition unregisterSession (g : GatewayHandler) (sessionID : string) : GatewayHandler :=
  match g_sessions g !! sessionID ≫= fun a => g_heap g !! a with
  | None => g
  | Some session =>
      {| g_heap := g_heap g;
         g_sessions := delete sessionID (g_sessions g);
         sessionsByUser := index_remove (sessionsByUser g) (UserID session) sessionID |}
  end.

Definition gw_GetSessionCount (g : GatewayHandler) : nat := size (g_sessions g).

Definition GetUserCount (g : GatewayHandler) : nat := size (sessionsByUser g).

Definition gw_GetSession (g : GatewayHandler) (sessionID : string) : option nat := g_sessions g !! sessionID.

(** The sessions in the order the user's map is visited. *)
Definition GetUserSessions (g : GatewayHandler) (userID : string) (order : gmap string nat -> list (string * nat)) :
    list nat :=
  match sessionsByUser g !! userID with
  | None => []
  | Some userSessions => (order userSessions).*2
  end.

(** A connection handler makes a session and registers it; the ID is a new UUID. *)
Definition accept (g : GatewayHandler) (s : Session) : GatewayHandler * nat :=
  let a := fresh (dom (g_heap g)) in
  (registerSession (set_heap g (<[a := s]> (g_heap g))) a, a).

Definition handleWebSocketConnection (g : GatewayHandler) (uuid : string) (conn : nat) (now : Z) : GatewayHandler * nat :=
  accept g (NewSession uuid ConnectionTypeWebSocket conn now).

Definition handleSecureWebSocketConnection (g : GatewayHandler) (uuid : string) (conn : nat) (now : Z) :
    GatewayHandler * nat :=
  accept g (NewSessionWithSecureConnection uuid ConnectionTypeWebSocket conn now).

Definition handleQUICConnection (g : GatewayHandler) (uuid : string) (conn : nat) (now : Z) : GatewayHandler * nat :=
  accept g (NewSessionWithQUIC uuid ConnectionTypeQUIC conn now).

(** ** Broadcasts *)

(** Every session is written to; an error is logged and the next one follows. *)
Fixpoint write_all (ok : io -> bool) (now : Z) (h : heap) (l : list nat) (msgType : Z) (data : list byte) :
    heap * list io :=
  match l with
  | [] => (h, [])
  | a :: rest =>
      match h !! a with
      | None => write_all ok now h rest msgType data
      | Some s =>
          let '(s, es, _) := WriteMessage ok now s msgType data in
          let '(h, es') := write_all ok now (<[a := s]> h) rest msgType data in (h, es ++ es')
      end
  end.

Inductive GatewayError (ConvError : Type) :=
  | ErrNoUserSessions (userID : string)
  | ErrToInternal (e : ConvError)
  | ErrRoute (e : RouteError)
  | ErrFromInternal (e : ConvError)
  | ErrSendResponse (e : SessionError).
Arguments ErrNoUserSessions {ConvError}.
Arguments ErrToInternal {ConvError}.
Arguments ErrRoute {ConvError}.
Arguments ErrFromInternal {ConvError}.
Arguments ErrSendResponse {ConvError}.

Definition BroadcastToUser {ConvError} (ok : io -> bool) (now : Z) (g : GatewayHandler) (userID : string)
    (order : gmap string nat -> list (string * nat)) (msgType : Z) (data : list byte) :
    GatewayHandler * list io * outcome (GatewayError ConvError) unit :=
  let sessions := GetUserSessions g userID order in
  if decide (length sessions = 0%nat) then (g, [], Fail (ErrNoUserSessions userID))
  else let '(h, es) := write_all ok now (g_heap g) sessions msgType data in (set_heap g h, es, Ret tt).

Definition BroadcastToAll (ok : io -> bool) (now : Z) (g : GatewayHandler) (order : list (string * nat))
    (msgType : Z) (data : list byte) : GatewayHandler * list io :=
  let '(h, es) := write_all ok now (g_heap g) (order.*2) msgType data in (set_heap g h, es).

(** ** Messages *)

(** The interface of [protocol.ProtocolConverter] the gateway uses. *)
Class ProtocolConverter (ConvError : Type) := {
  ToInternal : string -> Z -> list byte -> outcome ConvError Message;
  FromInternal : string -> Z -> Message -> outcome ConvError (list byte)
}.

(** The session of the message, and [gateway] as the source when it has none. *)
Definition stamp (m : Message) (sessionID : string) : Message :=
  {| Version := Version m; Flags := Flags m; ServiceType := ServiceType m;
     MessageType := MessageType m; SequenceID := SequenceID m;
     Timestamp := Timestamp m; PayloadLength := PayloadLength m;
     SourceService := if decide (SourceService m = ""%string) then "gateway"%string else SourceService m;
     DestinationService := DestinationService m;
     CorrelationID := CorrelationID m; SessionID := sessionID;
     Payload := Payload m |}.

(** What a turn of a session's loop meets: the time, what arrives and how the
    wait of [Route] ends. *)
Record turn := MkTurn {
  t_now : Z;
  t_chunk : nat;
  t_in : incoming;
  t_wait : route_wait
}.

(** How a session's loop goes on: it has returned, it waits for a message, or a
    panic has ended the process. *)
Inductive loop_end := Returned | Waiting | Crashed.

Section messages.
Context {B : Type} `{LoadBalancer B} {ConvError : Type} `{ProtocolConverter ConvError}.
Context (ok : io -> bool) (sd : InMemoryServiceDiscovery).
(** The text of an error. *)
Context (error_text : GatewayError ConvError -> list byte).

Definition handleMessage (now : Z) (r : MessageRouter B) (s : Session) (msgType : Z) (data : list byte) (w : route_wait) :
    MessageRouter B * Session * list io * outcome (GatewayError ConvError) unit :=
  match ToInternal (ConnectionType s) msgType data with
  | Panic => (r, s, [], Panic)
  | Fail e => (r, s, [], Fail (ErrToInternal e))
  | Ret internalMsg =>
      let '(r, _, response) := Route r sd (stamp internalMsg (ID s)) w in
      match response with
      | Panic => (r, s, [], Panic)
      | Fail e => (r, s, [], Fail (ErrRoute e))
      | Ret (response, _) =>
          match FromInternal (ConnectionType s) msgType response with
          | Panic => (r, s, [], Panic)
          | Fail e => (r, s, [], Fail (ErrFromInternal e))
          | Ret responseData =>
              match WriteMessage ok now s msgType responseData with
              | (s, es, Panic) => (r, s, es, Panic)
              | (s, es, Fail e) => (r, s, es, Fail (ErrSendResponse e))
              | (s, es, Ret _) => (r, s, es, Ret tt)
              end
          end
      end
  end.

(** The loop of [handleSessionMessages], a turn per message. *)
Fixpoint session_loop (r : MessageRouter B) (s : Session) (turns : list turn) :
    MessageRouter B * Session * list io * loop_end :=
  match turns with
  | [] => (r, s, [], Waiting)
  | t :: rest =>
      match ReadMessage (t_now t) (t_chunk t) (t_in t) s with
      | (s, Panic) => (r, s, [], Crashed)
      | (s, Fail _) => (r, s, [], Returned)
      | (s, Ret (msgType, data, _)) =>
          match handleMessage (t_now t) r s msgType data (t_wait t) with
          | (r, s, es, Panic) => (r, s, es, Crashed)
          | (r, s, es, Ret _) =>
              let '(r, s, es', e) := session_loop r s rest in (r, s, es ++ es', e)
          | (r, s, es, Fail err) =>
              match WriteMessage ok (t_now t) s msgType (error_text err) with
              | (s, es1, Ret _) =>
                  let '(r, s, es', e) := session_loop r s rest in (r, s, es ++ es1 ++ es', e)
              | (s, es1, Fail _) => (r, s, es ++ es1, Returned)
              | (s, es1, Panic) => (r, s, es ++ es1, Crashed)
              end
          end
      end
  end.

(** When the loop returns, the session is unregistered and closed. *)
Definition handleSessionMessages (r : MessageRouter B) (g : GatewayHandler) (a : nat) (turns : list turn) :
    MessageRouter B * GatewayHandler * list io * loop_end :=
  match g_heap g !! a with
  | None => (r, g, [], Crashed)
  | Some s =>
      let '(r, s, es, e) := session_loop r s turns in
      let g := set_heap g (<[a := s]> (g_heap g)) in
      match e with
      | Returned =>
          let g := unregisterSession g (ID s) in
          let '(s, es', _) := Close ok s in
          (r, set_heap g (<[a := s]> (g_heap g)), es ++ es', Returned)
      | _ => (r, g, es, e)
      end
  end.

End messages.

(** ** The cleanup of idle sessions *)

Definition is_idle (now maxInactiveTime : Z) (s : Session) : bool := now - LastActivity s >? maxInactiveTime.

(** What [cleanupInactiveSessions] does to the maps for an idle session. *)
Definition drop_session (g : GatewayHandler) (id : string) (user : string) : GatewayHandler :=
  {| g_heap := g_heap g;
     g_sessions := delete id (g_sessions g);
     sessionsByUser := index_remove (sessionsByUser g) user id |}.

(** The loop over the sessions.  [Close] takes the lock of the session, which its
    reader holds while it waits for a message: the loop stops at a session that
    is [reading], with the entries still to visit. *)
Fixpoint cleanup_walk (ok : io -> bool) (reading : gset nat) (now maxInactiveTime : Z) (g : GatewayHandler)
    (order : list (string * nat)) : GatewayHandler * list io * option (nat * list (string * nat)) :=
  match order with
  | [] => (g, [], None)
  | (id, a) :: rest =>
      match g_heap g !! a with
      | None => cleanup_walk ok reading now maxInactiveTime g rest
      | Some s =>
          if is_idle now maxInactiveTime s then
            let g := drop_session g id (UserID s) in
            if decide (a ∈ reading) then (g, [], Some (a, rest))
            else
              let '(s, es, _) := Close ok s in
              let '(g, es', p) := cleanup_walk ok reading now maxInactiveTime (set_heap g (<[a := s]> (g_heap g))) rest in
              (g, es ++ es', p)
          else cleanup_walk ok reading now maxInactiveTime g rest
      end
  end.

(** The cleanup when no session's reader is waiting. *)
Definition cleanupInactiveSessions (ok : io -> bool) (now maxInactiveTime : Z) (g : GatewayHandler)
    (order : list (string * nat)) : GatewayHandler * list io :=
  (cleanup_walk ok ∅ now maxInactiveTime g order).1.

(** ** Locks *)

(** [ls_reading]: the sessions whose reader waits for a message, with the
    session's read lock.  [ls_cleaning]: the cleanup is in [Close] for a session,
    with [sessionsMutex] locked and the entries it still has to visit. *)
Record lock_state := MkLockState {
  ls_g : GatewayHandler;
  ls_reading : gset nat;
  ls_cleaning : option (nat * list (string * nat))
}.

Inductive label :=
  | LReadStart (a : nat) (now : Z)
  | LReadEnd (a : nat)
  | LWrite (a : nat) (now msgType : Z) (data : list byte)
  | LRegister (a : nat)
  | LUnregister (id : string)
  | LClean (now : Z) (order : list (string * nat))
  | LResume (now : Z).

Section locks.
Context (ok : io -> bool) (maxInactiveTime : Z).

(** The session's lock is wanted for writing: new readers wait. *)
Definition write_pending (s : lock_state) (a : nat) : Prop :=
  exists rest, ls_cleaning s = Some (a, rest).

Inductive gw_step : lock_state -> label -> lock_state -> Prop :=
  | gw_read_start s a now session :
      g_heap (ls_g s) !! a = Some session -> closed session = false ->
      a ∉ ls_reading s -> ~ write_pending s a ->
      gw_step s (LReadStart a now)
        (MkLockState (set_heap (ls_g s) (<[a := set_activity session now]> (g_heap (ls_g s))))
           ({[ a ]} ∪ ls_reading s) (ls_cleaning s))
  | gw_read_end s a :
      a ∈ ls_reading s ->
      gw_step s (LReadEnd a) (MkLockState (ls_g s) (ls_reading s ∖ {[ a ]}) (ls_cleaning s))
  | gw_write s a now msgType data session :
      g_heap (ls_g s) !! a = Some session -> a ∉ ls_reading s -> ~ write_pending s a ->
      gw_step s (LWrite a now msgType data)
        (MkLockState (set_heap (ls_g s) (<[a := (WriteMessage ok now session msgType data).1.1]> (g_heap (ls_g s))))
           (ls_reading s) (ls_cleaning s))
  | gw_register s a :
      ls_cleaning s = None ->
      gw_step s (LRegister a) (MkLockState (registerSession (ls_g s) a) (ls_reading s) None)
  | gw_unregister s id :
      ls_cleaning s = None ->
      gw_step s (LUnregister id) (MkLockState (unregisterSession (ls_g s) id) (ls_reading s) None)
  | gw_clean s now order g es p :
      ls_cleaning s = None -> map_order (g_sessions (ls_g s)) order ->
      cleanup_walk ok (ls_reading s) now maxInactiveTime (ls_g s) order = (g, es, p) ->
      gw_step s (LClean now order) (MkLockState g (ls_reading s) p)
  | gw_resume s now a rest session g es p :
      ls_cleaning s = Some (a, rest) -> a ∉ ls_reading s -> g_heap (ls_g s) !! a = Some session ->
      cleanup_walk ok (ls_reading s) now maxInactiveTime
        (set_heap (ls_g s) (<[a := (Close ok session).1.1]> (g_heap (ls_g s)))) rest = (g, es, p) ->
      gw_step s (LResume now) (MkLockState g (ls_reading s) p).

Inductive gw_steps : lock_state -> list label -> lock_state -> Prop :=
  | gw_steps_nil s : gw_steps s [] s
  | gw_steps_cons s l s' tr s'' : gw_step s l s' -> gw_steps s' tr s'' -> gw_steps s (l :: tr) s''.

(** Waiting for a session that is being read. *)
Definition stuck_on (a : nat) (s : lock_state) : Prop :=
  a ∈ ls_reading s /\ write_pending s a.

Lemma stuck_step a s l s' :
  stuck_on a s -> gw_step s l s' -> l <> LReadEnd a ->
  stuck_on a s' /\ g_sessions (ls_g s') = g_sessions (ls_g s) /\ sessionsByUser (ls_g s') = sessionsByUser (ls_g s).
Proof.
  intros [Hr [rest Hp]] Hs Hl.
  destruct Hs; simpl in *; try congruence; unfold stuck_on, write_pending; simpl;
    (split; [split; [set_solver|by eauto]|done]).
Qed.

Lemma stuck_steps a s tr s' :
  stuck_on a s -> gw_steps s tr s' -> LReadEnd a ∉ tr ->
  stuck_on a s' /\ g_sessions (ls_g s') = g_sessions (ls_g s) /\ sessionsByUser (ls_g s') = sessionsByUser (ls_g s).
Proof.
  intros Hst Hs. induction Hs as [s|s l s1 tr s2 Hs1 Hs2 IH]; intros Hl; [done|].
  apply not_elem_of_cons in Hl as [Hl Htr].
  destruct (stuck_step a s l s1) as (H1 & H2 & H3); [done|done|congruence|].
  destruct IH as (? & -> & ->); [done|done|]. done.
Qed.

(** A walk that meets an idle session that is being read stops there or before. *)
Lemma walk_blocks reading now g order id a s :
  (id, a) ∈ order -> g_heap g !! a = Some s -> is_idle now maxInactiveTime s = true -> a ∈ reading ->
  exists b rest, (cleanup_walk ok reading now maxInactiveTime g order).2 = Some (b, rest) /\ b ∈ reading.
Proof.
  intros Hin Hs Hidle Hr. revert g Hs. induction order as [|[k b] order IH]; intros g Hs; [set_solver|]. simpl.
  apply elem_of_cons in Hin as [[= <- <-]|Hin].
  - rewrite Hs, Hidle. rewrite decide_True by done. simpl. eauto.
  - destruct (g_heap g !! b) as [sb|] eqn:Hb; [|by apply IH].
    destruct (is_idle now maxInactiveTime sb); [|by apply IH].
    case_decide as Hbr; [simpl; eauto|]. destruct (Close ok sb) as [[s' es] o].
    match goal with |- context [cleanup_walk ok reading now maxInactiveTime ?g' order] =>
      specialize (IH Hin g'); destruct (cleanup_walk ok reading now maxInactiveTime g' order) as [[g1 es1] p] end.
    apply IH. simpl. by rewrite lookup_insert_ne by congruence.
Qed.

(** A cleanup that meets an idle session whose reader is waiting for a message
    stops with the gateway's lock taken: until the read of that session ends, by
    a message, a disconnection or a deadline, no session is registered or
    unregistered and no other cleanup runs, whatever else happens.  A session is
    idle because its reader waits. *)
Theorem gateway_cleanup_blocks s now order s1 id a session
    (Hclean : gw_step s (LClean now order) s1)
    (Hin : g_sessions (ls_g s) !! id = Some a) (Hsession : g_heap (ls_g s) !! a = Some session)
    (Hidle : is_idle now maxInactiveTime session = true) (Hread : a ∈ ls_reading s) :
  exists b, b ∈ ls_reading s1 /\
    forall tr s2, gw_steps s1 tr s2 -> LReadEnd b ∉ tr ->
      ls_cleaning s2 <> None /\
      g_sessions (ls_g s2) = g_sessions (ls_g s1) /\ sessionsByUser (ls_g s2) = sessionsByUser (ls_g s1) /\
      forall l s3, gw_step s2 l s3 ->
        match l with LRegister _ | LUnregister _ | LClean _ _ | LResume _ => False | _ => True end.
Proof.
  inversion Hclean as [| | | | |? ? ? g es p Hnone Horder Hwalk|]; subst.
  destruct (walk_blocks (ls_reading s) now (ls_g s) order id a session) as (b & rest & Hp & Hb);
    [by rewrite Horder; apply elem_of_map_to_list|done..|].
  rewrite Hwalk in Hp. simpl in Hp. subst p. exists b. split; [done|]. intros tr s2 Hs Htr.
  assert (stuck_on b (MkLockState g (ls_reading s) (Some (b, rest)))) as Hst by (split; [done|by eexists]).
  destruct (stuck_steps b _ tr s2 Hst Hs Htr) as ([Hr2 [rest2 Hp2]] & Hg & Hu).
  split_and!; [by rewrite Hp2|done|done|].
  intros l s3 Hl. destruct Hl; simpl in *; simplify_eq; try done; contradiction.
Qed.

End locks.

(** ** Runs of the gateway *)

(** A session accepted, one unregistered, a cleanup, and what is done with a
    session. *)
Inductive gw_op :=
  | GAccept (s : Session)
  | GUnregister (id : string)
  | GCleanup (now : Z) (order : list (string * nat))
  | GSession (a : nat) (op : session_op).

Section gateway_runs.
Context (ok : io -> bool) (maxInactiveTime : Z).

Definition gw_apply (g : GatewayHandler) (op : gw_op) : GatewayHandler :=
  match op with
  | GAccept s => (accept g s).1
  | GUnregister id => unregisterSession g id
  | GCleanup now order => (cleanupInactiveSessions ok now maxInactiveTime g order).1
  | GSession a op => set_heap g (alter (fun s => (session_step ok s op).1) a (g_heap g))
  end.

(** IDs are new, and a map is ranged over completely. *)
Definition op_fresh (g : GatewayHandler) (op : gw_op) : Prop :=
  match op with
  | GAccept s => g_sessions g !! ID s = None
  | GCleanup _ order => map_order (g_sessions g) order
  | _ => True
  end.

Definition keeps_user (op : gw_op) : Prop :=
  match op with GSession _ (OpUser _) => False | _ => True end.

(** The runs of operations that satisfy [allowed]. *)
Inductive gw_reach (allowed : gw_op -> Prop) : GatewayHandler -> Prop :=
  | gr_init h : gw_reach allowed (NewGatewayHandler h)
  | gr_step g op : gw_reach allowed g -> op_fresh g op -> allowed op -> gw_reach allowed (gw_apply g op).

(** The sessions by ID are valid, and the sessions by user are the same sessions,
    grouped by user. *)
Record gw_inv (g : GatewayHandler) : Prop := {
  gi_valid id a : g_sessions g !! id = Some a -> exists s, g_heap g !! a = Some s /\ ID s = id;
  gi_index u id a :
    sessionsByUser g !! u ≫= (.!! id) = Some a <->
    u <> ""%string /\ g_sessions g !! id = Some a /\ exists s, g_heap g !! a = Some s /\ UserID s = u;
  gi_nonempty u m : sessionsByUser g !! u = Some m -> m <> ∅
}.

Lemma index_add_lookup m user id a u k :
  index_add m user id a !! u ≫= (.!! k)
  = if decide (user <> ""%string /\ u = user /\ k = id) then Some a else m !! u ≫= (.!! k).
Proof.
  unfold index_add. case_decide; [by rewrite decide_False by naive_solver|].
  destruct (decide (u = user)) as [->|Hu].
  - rewrite lookup_insert_eq. simpl. rewrite lookup_insert.
    destruct (decide (id = k)) as [->|Hk]; [by rewrite decide_True|].
    rewrite decide_False by naive_solver. destruct (m !! user); [done|]. simpl. apply lookup_empty.
  - rewrite lookup_insert_ne by done. by rewrite decide_False by naive_solver.
Qed.

Lemma index_remove_lookup m user id u k :
  index_remove m user id !! u ≫= (.!! k)
  = if decide (user <> ""%string /\ u = user /\ k = id) then None else m !! u ≫= (.!! k).
Proof.
  unfold index_remove. case_decide; [by rewrite decide_False by naive_solver|].
  destruct (m !! user) as [us|] eqn:Hus.
  - case_decide as Hsz.
    + apply map_size_empty_inv in Hsz. destruct (decide (u = user)) as [->|Hu].
      * rewrite lookup_delete_eq. simpl. destruct (decide (k = id)) as [->|Hk]; [by rewrite decide_True|].
        rewrite decide_False by naive_solver. rewrite Hus. simpl.
        rewrite <- (lookup_delete_ne us id k), Hsz by done. by rewrite lookup_empty.
      * rewrite lookup_delete_ne by done. by rewrite decide_False by naive_solver.
    + destruct (decide (u = user)) as [->|Hu].
      * rewrite lookup_insert_eq, Hus. simpl. rewrite lookup_delete. repeat case_decide; naive_solver.
      * rewrite lookup_insert_ne by done. by rewrite decide_False by naive_solver.
  - case_decide as Hd; [|done]. destruct Hd as (_ & -> & ->). by rewrite Hus.
Qed.

Lemma index_remove_nonempty m user id u us :
  (forall u us, m !! u = Some us -> us <> ∅) -> index_remove m user id !! u = Some us -> us <> ∅.
Proof.
  intros Hm. unfold index_remove. case_decide; [by apply Hm|]. destruct (m !! user) as [v|] eqn:Hv; [|by apply Hm].
  case_decide as Hsz.
  - intros [_ Hu]%lookup_delete_Some. by eapply Hm.
  - rewrite lookup_insert. case_decide; [|by apply Hm]. intros [= <-] He. rewrite He in Hsz. by rewrite map_size_empty in Hsz.
Qed.

(** The heap may change in other fields than the ID and the user. *)
Definition same_users (h h' : heap) : Prop :=
  forall a s, h !! a = Some s -> exists s', h' !! a = Some s' /\ ID s' = ID s /\ UserID s' = UserID s.

Lemma heap_inv g h : same_users (g_heap g) h -> gw_inv g -> gw_inv (set_heap g h).
Proof.
  intros Hh [Hv Hi Hn]. split; simpl.
  - intros id a Ha. destruct (Hv id a Ha) as (s & Hs & <-). destruct (Hh a s Hs) as (s' & ? & ? & ?). eauto.
  - intros u id a. rewrite Hi. split; intros (Hu & Ha & s & Hs & Hus); (split_and!; [done..|]).
    + destruct (Hh a s Hs) as (s' & ? & ? & ?). exists s'. split; congruence.
    + destruct (Hv id a Ha) as (s0 & Hs0 & ?). destruct (Hh a s0 Hs0) as (s' & ? & ? & ?). exists s0. split; congruence.
  - done.
Qed.

Lemma insert_same_users h a s s' :
  h !! a = Some s -> ID s' = ID s -> UserID s' = UserID s -> same_users h (<[a := s']> h).
Proof.
  intros Ha Hi Hu b t Hb. rewrite lookup_insert. case_decide; [|by eauto]. subst. exists s'. naive_solver.
Qed.

Lemma close_users s : ID (Close ok s).1.1 = ID s /\ UserID (Close ok s).1.1 = UserID s.
Proof. unfold Close. by repeat case_match. Qed.

Lemma drop_inv g id a s :
  gw_inv g -> g_sessions g !! id = Some a -> g_heap g !! a = Some s -> gw_inv (drop_session g id (UserID s)).
Proof.
  intros [Hv Hi Hn] Ha Hs. split; simpl.
  - intros k b [_ Hk]%lookup_delete_Some. by apply Hv.
  - intros u k b. rewrite index_remove_lookup. split.
    + case_decide as Hd; [done|]. intros Hk%Hi. destruct Hk as (Hu & Hk & t & Ht & Htu). split_and!; [done| |by eauto].
      apply lookup_delete_Some. split; [|done]. intros <-. apply Hd.
      assert (b = a) as -> by congruence. assert (t = s) as -> by congruence. subst u. done.
    + intros (Hu & [Hne Hk]%lookup_delete_Some & Hx). rewrite decide_False by (intros (_ & _ & ->); done).
      apply Hi. done.
  - intros u us. by apply index_remove_nonempty.
Qed.

Lemma gw_unregister_inv g id : gw_inv g -> gw_inv (unregisterSession g id).
Proof.
  intros Hi. unfold unregisterSession. destruct (g_sessions g !! id) as [a|] eqn:Ha; [|done]. simpl.
  destruct (g_heap g !! a) as [s|] eqn:Hs; [|done]. by apply (drop_inv g id a s).
Qed.

Lemma accept_inv g s : gw_inv g -> g_sessions g !! ID s = None -> gw_inv (accept g s).1.
Proof.
  intros [Hv Hi Hn] Hid. unfold accept. simpl. set (b := fresh (dom (g_heap g))).
  assert (g_heap g !! b = None) as Hb by apply not_elem_of_dom, is_fresh.
  assert (forall k a, g_sessions g !! k = Some a -> a <> b) as Hne.
  { intros k a Ha ->. destruct (Hv k b Ha) as (t & ? & _). congruence. }
  unfold registerSession. simpl. rewrite lookup_insert_eq. split; simpl.
  - intros k a. rewrite lookup_insert. case_decide.
    + intros [= <-]. subst k. exists s. by rewrite lookup_insert_eq.
    + intros Ha. rewrite lookup_insert_ne by (symmetry; by eapply Hne). by apply Hv.
  - intros u k a. rewrite index_add_lookup. split.
    + case_decide as Hd.
      * destruct Hd as (Hu & -> & ->). intros [= <-]. rewrite !lookup_insert_eq. eauto.
      * intros Hk%Hi. destruct Hk as (Hu & Hk & t & Ht & Htu). split_and!; [done| |].
        { rewrite lookup_insert_ne by congruence. done. }
        { exists t. rewrite lookup_insert_ne by (symmetry; by eapply Hne). done. }
    + intros (Hu & Hk & t & Ht & <-). rewrite lookup_insert in Hk. case_decide.
      * injection Hk as <-. rewrite lookup_insert_eq in Ht. injection Ht as <-. by rewrite decide_True.
      * rewrite lookup_insert_ne in Ht by (symmetry; by eapply Hne).
        rewrite decide_False by naive_solver. apply Hi. eauto.
  - intros u us. unfold index_add. case_decide; [by apply Hn|]. rewrite lookup_insert. case_decide; [|by apply Hn].
    intros [= <-]. apply insert_non_empty.
Qed.

Lemma walk_inv reading now g order :
  gw_inv g -> NoDup order.*1 -> (forall id a, (id, a) ∈ order -> g_sessions g !! id = Some a) ->
  gw_inv (cleanup_walk ok reading now maxInactiveTime g order).1.1.
Proof.
  revert g. induction order as [|[id a] order IH]; intros g Hi Hnd Hin; [done|]. simpl.
  apply NoDup_cons in Hnd as [Hid Hnd].
  destruct (g_heap g !! a) as [s|] eqn:Hs; [|apply IH; [done|done|]; intros; apply Hin; by right].
  destruct (is_idle now maxInactiveTime s); [|apply IH; [done|done|]; intros; apply Hin; by right].
  pose proof (drop_inv g id a s Hi (Hin _ _ ltac:(left)) Hs) as Hi'.
  case_decide; [done|]. pose proof (close_users s) as [Hci Hcu].
  destruct (Close ok s) as [[s' es] o]. simpl in Hci, Hcu.
  match goal with |- context [cleanup_walk ok reading now maxInactiveTime ?g' order] =>
    specialize (IH g'); destruct (cleanup_walk ok reading now maxInactiveTime g' order) as [[g1 es1] p] end.
  simpl in *. apply IH; [|done|].
  - apply heap_inv; [|done]. simpl. by apply (insert_same_users _ _ s).
  - intros k b Hk. rewrite lookup_delete_ne; [apply Hin; by right|].
    intros ->. apply Hid. apply list_elem_of_fmap. by exists (k, b).
Qed.

Lemma map_order_keys {A} (m : gmap string A) order : map_order m order -> NoDup order.*1.
Proof. intros Ho. rewrite Ho. apply NoDup_fst_map_to_list. Qed.

Lemma gw_apply_inv g op : gw_inv g -> op_fresh g op -> keeps_user op -> gw_inv (gw_apply g op).
Proof.
  intros Hi Hf Hk. destruct op as [s|id|now order|a op]; simpl in *.
  - by apply accept_inv.
  - by apply gw_unregister_inv.
  - apply walk_inv; [done|by eapply map_order_keys|]. intros id a. rewrite Hf. apply elem_of_map_to_list.
  - apply heap_inv; [|done]. intros b s Hb. destruct (decide (a = b)) as [->|Hne].
    + rewrite lookup_alter_eq, Hb. eexists. split; [done|]. rewrite session_step_ID. split; [done|].
      destruct op; simpl; unfold ReadMessage, WriteMessage; try done; try apply close_users;
        repeat case_match; by simplify_eq/=.
    + rewrite lookup_alter_ne by done. eauto.
Qed.

Lemma gw_reach_inv g : gw_reach keeps_user g -> gw_inv g.
Proof.
  induction 1 as [h|g op _ IH Hf Hk]; [|by apply gw_apply_inv].
  split; simpl; try done. intros u id a. rewrite lookup_empty. simpl. split; [done|]. by intros (_ & ? & _).
Qed.

(** C14: as long as the user of a session does not change while it is registered,
    the sessions of a user are exactly the registered sessions with that user,
    and the users counted are exactly those with a session. *)
Theorem gateway_user_sessions g u order
    (Hreach : gw_reach keeps_user g) (Horder : forall m, map_order m (order m)) (Hu : u <> ""%string) :
  (forall a, a ∈ GetUserSessions g u order <->
     exists id s, g_sessions g !! id = Some a /\ g_heap g !! a = Some s /\ UserID s = u) /\
  (u ∈ dom (sessionsByUser g) <->
     exists id a s, g_sessions g !! id = Some a /\ g_heap g !! a = Some s /\ UserID s = u).
Proof.
  apply gw_reach_inv in Hreach as [Hv Hi Hn].
  assert (forall a, a ∈ GetUserSessions g u order <-> exists id, sessionsByUser g !! u ≫= (.!! id) = Some a) as Hget.
  { intros a. unfold GetUserSessions. destruct (sessionsByUser g !! u) as [m|]; simpl.
    - rewrite list_elem_of_fmap. setoid_rewrite Horder. split.
      + intros ([id b] & -> & Hb). exists id. by apply elem_of_map_to_list in Hb.
      + intros [id Hb]. exists (id, a). by rewrite elem_of_map_to_list.
    - split; [set_solver|]. by intros [? ?]. }
  assert (forall a, a ∈ GetUserSessions g u order <->
     exists id s, g_sessions g !! id = Some a /\ g_heap g !! a = Some s /\ UserID s = u) as Hget'.
  { intros a. rewrite Hget. setoid_rewrite Hi. split.
    - intros (id & _ & Ha & s & ? & ?). eauto.
    - intros (id & s & ? & ? & ?). eauto 8. }
  split; [done|]. rewrite elem_of_dom. split.
  - intros [m Hm]. pose proof (Hn u m Hm) as Hne. apply map_choose in Hne as (id & a & Ha).
    destruct (proj1 (Hi u id a)) as (_ & ? & s & ? & ?); [by rewrite Hm|]. by exists id, a, s.
  - intros (id & a & s & ? & ? & ?). destruct (sessionsByUser g !! u) eqn:E; [by eexists|].
    assert (sessionsByUser g !! u ≫= (.!! id) = Some a) as Hx by (apply Hi; eauto). by rewrite E in Hx.
Qed.

(** The sessions of the connection handlers have no user. *)
Definition from_handler (op : gw_op) : Prop :=
  match op with
  | GAccept s => exists uuid conn now,
      s = NewSession uuid ConnectionTypeWebSocket conn now \/
      s = NewSessionWithSecureConnection uuid ConnectionTypeWebSocket conn now \/
      s = NewSessionWithQUIC uuid ConnectionTypeQUIC conn now
  | _ => True
  end.

Lemma index_remove_empty user id : index_remove ∅ user id = ∅.
Proof. unfold index_remove. case_decide; [done|]. by rewrite lookup_empty. Qed.

Lemma walk_empty reading now g order :
  sessionsByUser g = ∅ -> sessionsByUser (cleanup_walk ok reading now maxInactiveTime g order).1.1 = ∅.
Proof.
  revert g. induction order as [|[id a] order IH]; intros g Hg; [done|]. simpl.
  destruct (g_heap g !! a) as [s|]; [|by apply IH]. destruct (is_idle _ _ _); [|by apply IH].
  case_decide; [simpl; rewrite Hg; apply index_remove_empty|]. destruct (Close ok s) as [[s' es] o].
  match goal with |- context [cleanup_walk ok reading now maxInactiveTime ?g' order] =>
    specialize (IH g'); destruct (cleanup_walk ok reading now maxInactiveTime g' order) as [[g1 es1] p] end.
  apply IH. simpl. rewrite Hg. apply index_remove_empty.
Qed.

(** A user set after the connection was accepted is never found: in every run
    in which sessions come from the connection handlers, whatever users are set
    on them, a broadcast to a user fails and writes nothing. *)
Theorem gateway_user_broadcast_fails {ConvError} g now u order msgType data
    (Hreach : gw_reach from_handler g) :
  BroadcastToUser (ConvError := ConvError) ok now g u order msgType data = (g, [], Fail (ErrNoUserSessions u)).
Proof.
  assert (sessionsByUser g = ∅) as He.
  { induction Hreach as [h|g op _ IH _ Hop]; [done|]. destruct op as [s|id|nw ord|a op]; simpl.
    - unfold accept, registerSession. simpl. rewrite lookup_insert_eq. simpl. rewrite IH.
      assert (UserID s = ""%string) as -> by (destruct Hop as (? & ? & ? & [->|[->| ->]]); done).
      unfold index_add. by rewrite decide_True.
    - unfold unregisterSession. case_match; [|done]. simpl. rewrite IH. apply index_remove_empty.
    - by apply walk_empty.
    - done. }
  unfold BroadcastToUser, GetUserSessions. by rewrite He, lookup_empty.
Qed.

End gateway_runs.

(** ** Messages of a session *)

Section message_proofs.
Context {B : Type} `{LoadBalancer B} {ConvError : Type} `{ProtocolConverter ConvError}.
Context (ok : io -> bool) (sd : InMemoryServiceDiscovery) (error_text : GatewayError ConvError -> list byte).

Lemma route_reply (r : MessageRouter B) msg w r' msg' response inst :
  Route r sd msg w = (r', msg', Ret (response, inst)) ->
  exists name now, serviceMap r !! ServiceType msg = Some name /\
    response = response_to (fill_destination msg name) name now.
Proof.
  unfold Route, choose_instance, GetServiceName.
  destruct (serviceMap r !! ServiceType msg) as [name|]; [|done].
  destruct (GetServiceInstances sd name) as [sl|e|]; try done.
  destruct (SelectInstance (loadBalancer r) (contents sd sl)) as [lb [i|e|]]; try done.
  destruct w as [now|]; [|done]. intros [= <- <- <- <-]. eauto.
Qed.

Lemma write_no_panic now s msgType d : (WriteMessage ok now s msgType d).2 <> Panic.
Proof.
  assert (forall l, (calls ok l).2 <> Panic) as Hc.
  { intros l. induction l as [|x l IH]; [done|]. simpl. destruct (ok x); [|done]. by destruct (calls ok l). }
  unfold WriteMessage, call. repeat case_match; simplify_eq; try done.
  match goal with E : calls ok ?l = _ |- _ => specialize (Hc l); by rewrite E in Hc end.
Qed.

(** The loop keeps the session's identity. *)
Lemma loop_ID r s turns : ID (session_loop ok sd error_text r s turns).1.1.2 = ID s.
Proof.
  assert (forall now s t d, ID (WriteMessage ok now s t d).1.1 = ID s) as Hw.
  { intros now s0 t d. apply (session_step_ID ok s0 (OpWrite now t d)). }
  assert (forall now c i s, ID (ReadMessage now c i s).1 = ID s) as Hr.
  { intros now c i s0. apply (session_step_ID ok s0 (OpRead now c i)). }
  assert (forall now r s t d w, ID (handleMessage ok sd now r s t d w).1.1.2 = ID s) as Hh.
  { intros now r0 s0 t d w. unfold handleMessage. destruct (ToInternal _ _ _); [|done..].
    destruct (Route _ _ _ _) as [[r1 m1] [[reply inst]|e|]]; [|done..].
    destruct (FromInternal _ _ _) as [x|e|]; [|done..]. specialize (Hw now s0 t x).
    by destruct (WriteMessage ok now s0 t x) as [[s1 es] []]. }
  revert r s. induction turns as [|t turns IH]; intros r s; [done|]. simpl.
  specialize (Hr (t_now t) (t_chunk t) (t_in t) s).
  destruct (ReadMessage _ _ _ s) as [s1 [[[mt d] rest]|e|]]; simpl in *; [|done..]. rewrite <- Hr.
  specialize (Hh (t_now t) r s1 mt d (t_wait t)).
  destruct (handleMessage _ _ _ r s1 _ _ _) as [[[r2 s2] es] [[]|e|]]; simpl in *; rewrite <- Hh; [| |done].
  - specialize (IH r2 s2). by destruct (session_loop _ _ _ r2 s2 turns) as [[[? ?] ?] ?].
  - specialize (Hw (t_now t) s2 mt (error_text e)).
    destruct (WriteMessage ok (t_now t) s2 mt (error_text e)) as [[s3 es1] []]; simpl in *; rewrite <- Hw; [|done..].
    specialize (IH r2 s3). by destruct (session_loop _ _ _ r2 s3 turns) as [[[? ?] ?] ?].
Qed.

Lemma close_closes s : closed (Close ok s).1.1 = true.
Proof. unfold Close. destruct (closed s) eqn:E; [done|]. by repeat case_match. Qed.

(** When the gateway answers a message, the answer it writes to the session
    is the conversion of a reply that carries the session's own ID, the sequence
    number and the correlation of the message, comes from the service the message
    was routed to and goes to the message's source, or to the gateway when the
    message names none.  When it fails before it writes, nothing is written and
    the session is as it was. *)
Theorem gateway_handle_message now r s msgType data w r' s' es o
    (Hrun : handleMessage ok sd now r s msgType data w = (r', s', es, o)) :
  match o with
  | Ret _ | Fail (ErrSendResponse _) => exists m name at_ reply d,
      ToInternal (ConnectionType s) msgType data = Ret m /\
      serviceMap r !! ServiceType m = Some name /\
      SessionID reply = ID s /\ SequenceID reply = SequenceID m /\ CorrelationID reply = CorrelationID m /\
      SourceService reply = name /\
      DestinationService reply = (if decide (SourceService m = ""%string) then "gateway"%string else SourceService m) /\
      reply = response_to (fill_destination (stamp m (ID s)) name) name at_ /\
      FromInternal (ConnectionType s) msgType reply = Ret d /\
      (s', es) = (WriteMessage ok now s msgType d).1
  | Fail _ | Panic => es = [] /\ s' = s
  end.
Proof.
  unfold handleMessage in Hrun.
  destruct (ToInternal (ConnectionType s) msgType data) as [m|e|] eqn:Hto; [|by simplify_eq|by simplify_eq].
  destruct (Route r sd (stamp m (ID s)) w) as [[r1 msg1] [[reply inst]|e|]] eqn:Hroute; [|by simplify_eq|by simplify_eq].
  apply route_reply in Hroute as (name & at_ & Hname & Hreply).
  destruct (FromInternal (ConnectionType s) msgType reply) as [d|e|] eqn:Hfrom; [|by simplify_eq|by simplify_eq].
  assert (forall o', WriteMessage ok now s msgType d = (s', es, o') ->
    exists m0 name0 at0 reply0 d0,
      Ret (E := ConvError) m = Ret m0 /\ serviceMap r !! ServiceType m0 = Some name0 /\
      SessionID reply0 = ID s /\ SequenceID reply0 = SequenceID m0 /\ CorrelationID reply0 = CorrelationID m0 /\
      SourceService reply0 = name0 /\
      DestinationService reply0 = (if decide (SourceService m0 = ""%string) then "gateway"%string else SourceService m0) /\
      reply0 = response_to (fill_destination (stamp m0 (ID s)) name0) name0 at0 /\
      FromInternal (ConnectionType s) msgType reply0 = Ret d0 /\
      (s', es) = (WriteMessage ok now s msgType d0).1) as Hok.
  { intros o' Hw. exists m, name, at_, reply, d. rewrite Hw. simpl.
    split_and!; try done; subst reply; unfold fill_destination; by case_decide. }
  destruct (WriteMessage ok now s msgType d) as [[s1 es1] [[]|e|]] eqn:Hw; simplify_eq; try by eapply Hok.
  by destruct (write_no_panic now s msgType d); rewrite Hw.
Qed.

(** When the loop of a session returns, the gateway has forgotten the session,
    whose entry nobody else has taken, and the session is closed. *)
Theorem gateway_loop_unregisters r g a s turns r' g' es
    (Hs : g_heap g !! a = Some s) (Hown : forall b, g_sessions g !! ID s = Some b -> b = a)
    (Hrun : handleSessionMessages ok sd error_text r g a turns = (r', g', es, Returned)) :
  g_sessions g' !! ID s = None /\ exists s', g_heap g' !! a = Some s' /\ ID s' = ID s /\ closed s' = true.
Proof.
  unfold handleSessionMessages in Hrun. rewrite Hs in Hrun. pose proof (loop_ID r s turns) as Hid.
  destruct (session_loop ok sd error_text r s turns) as [[[r1 s1] es1] []]; [|done..]. simpl in Hid.
  pose proof (close_closes s1) as Hc. pose proof (close_users ok s1) as [Hci _].
  destruct (Close ok s1) as [[s2 es2] o]. simpl in Hc, Hci. injection Hrun as <- <- <-. rewrite Hid in *. split.
  - unfold unregisterSession. simpl. destruct (g_sessions g !! ID s) as [b|] eqn:Hb; [|done]. simpl.
    rewrite (Hown b eq_refl), lookup_insert_eq. simpl. apply lookup_delete_eq.
  - exists s2. simpl. rewrite lookup_insert_eq. split_and!; congruence.
Qed.

(** A QUIC connection handed to the gateway is given up at once: its session
    has no stream, so the first turn of its loop returns without a message, the
    connection is closed and the session is gone. *)
Theorem gateway_quic_connection_dropped r g uuid conn now turns (Hturns : turns <> []) :
  let '(g1, a) := handleQUICConnection g uuid conn now in
  exists g2, handleSessionMessages ok sd error_text r g1 a turns = (r, g2, [quic_close conn], Returned) /\
    g_sessions g2 !! uuid = None /\ sessionsByUser g2 = sessionsByUser g.
Proof.
  unfold handleQUICConnection, accept. simpl. unfold registerSession. simpl. rewrite lookup_insert_eq. simpl.
  destruct turns as [|t turns]; [done|]. unfold handleSessionMessages. simpl. rewrite lookup_insert_eq. simpl.
  eexists. split; [done|]. unfold unregisterSession. simpl. rewrite lookup_insert_eq. simpl.
  rewrite !lookup_insert_eq. simpl. split; [|done]. apply lookup_delete_eq.
Qed.

End message_proofs.

(** ** Examples *)

(** Client data are the payload of a chat message; the messages that go back are
    encoded. *)
#[export]
Instance chat_converter : ProtocolConverter MsgError := {
  ToInternal _ _ d := Ret (NewMessage 0 ServiceTypeChat 1 d);
  FromInternal _ _ m := Encode m
}.

Definition chat_router : MessageRouter RoundRobinLoadBalancer :=
  MkRouter NewRoundRobinLoadBalancer {[ ServiceTypeChat := "chat"%string ]}.

Definition one_session : GatewayHandler := (handleWebSocketConnection (NewGatewayHandler ∅) "s1" 7 0).1.

Lemma one_session_reach (allowed : gw_op -> Prop) (ok : io -> bool) :
  allowed (GAccept (NewSession "s1" ConnectionTypeWebSocket 7 0)) -> gw_reach ok 60 allowed one_session.
Proof.
  intros Ha. apply (gr_step ok 60 allowed (NewGatewayHandler ∅) (GAccept (NewSession "s1" ConnectionTypeWebSocket 7 0)));
    [apply gr_init|done|done].
Qed.

Lemma gateway_cleanup_blocks_witness :
  exists s1 b, gw_step (fun _ => true) 60 (MkLockState one_session {[ 0%nat ]} None) (LClean 61 [("s1"%string, 0%nat)]) s1 /\
    b ∈ ls_reading s1 /\
    forall tr s2, gw_steps (fun _ => true) 60 s1 tr s2 -> LReadEnd b ∉ tr -> ls_cleaning s2 <> None.
Proof.
  assert (map_order (g_sessions one_session) [("s1"%string, 0%nat)]) as Ho.
  { unfold map_order. by vm_compute. }
  pose proof (gw_clean (fun _ => true) 60 (MkLockState one_session {[ 0%nat ]} None) 61 [("s1"%string, 0%nat)]
      (drop_session one_session "s1" "") [] (Some (0%nat, [])) eq_refl Ho ltac:(by vm_compute)) as Hs.
  destruct (gateway_cleanup_blocks (fun _ => true) 60 (MkLockState one_session {[ 0%nat ]} None) 61 [("s1"%string, 0%nat)] _
    "s1" 0%nat sample_session Hs) as (b & Hb & Hstuck); [by vm_compute|by vm_compute|by vm_compute|set_solver|].
  eexists _, b. split; [exact Hs|]. split; [exact Hb|]. intros tr s2 Htr Hl. exact (proj1 (Hstuck tr s2 Htr Hl)).
Defined.

Definition user_session : Session := SetUserID sample_session "alice".

Lemma gateway_user_sessions_witness :
  GetUserSessions (accept (NewGatewayHandler ∅) user_session).1 "alice" map_to_list = [0%nat] /\
  "alice"%string ∈ dom (sessionsByUser (accept (NewGatewayHandler ∅) user_session).1).
Proof.
  split; [by vm_compute|].
  refine (proj2 (proj2 (gateway_user_sessions (fun _ => true) 60 (accept (NewGatewayHandler ∅) user_session).1 "alice"
    map_to_list _ _ _)) _).
  - apply (gr_step _ _ _ (NewGatewayHandler ∅) (GAccept user_session)); [apply gr_init|done|done].
  - intros m. apply map_order_default.
  - done.
  - exists "s1"%string, 0%nat, user_session. by vm_compute.
Defined.

Lemma gateway_user_broadcast_fails_witness :
  BroadcastToUser (ConvError := MsgError) (fun _ => true) 1 one_session "alice" map_to_list 2 []
  = (one_session, [], Fail (ErrNoUserSessions "alice")).
Proof.
  apply (gateway_user_broadcast_fails (fun _ => true) 60). apply one_session_reach.
  exists "s1"%string, 7%nat, 0. by left.
Defined.

Lemma gateway_handle_message_witness :
  exists r s es reply, handleMessage (fun _ => true) sample_sd 3 chat_router sample_session 2 [] (Responded 5)
      = (r, s, es, Ret tt) /\
    SessionID reply = "s1"%string /\ DestinationService reply = "gateway"%string.
Proof.
  destruct (handleMessage (fun _ => true) sample_sd 3 chat_router sample_session 2 [] (Responded 5))
    as [[[r s] es] o] eqn:E.
  pose proof (gateway_handle_message _ _ _ _ _ _ _ _ _ _ _ _ E) as Hg.
  assert (o = Ret tt) as -> by (vm_compute in E; by injection E as _ _ _ <-).
  destruct Hg as (m & name & at_ & reply & d & Hm & _ & Hid & _ & _ & _ & Hdst & _).
  exists r, s, es, reply. split_and!; [done|exact Hid|]. rewrite Hdst. injection Hm as <-. done.
Defined.

Definition broken_turn : turn := MkTurn 1 0 (MkIncoming None None []) TimedOut.

Lemma gateway_loop_unregisters_witness :
  exists r g es, handleSessionMessages (fun _ => true) sample_sd (fun _ : GatewayError MsgError => []) chat_router
      one_session 0 [broken_turn] = (r, g, es, Returned) /\ es = [ws_close 7] /\ g_sessions g !! "s1"%string = None.
Proof.
  destruct (handleSessionMessages (fun _ => true) sample_sd (fun _ : GatewayError MsgError => []) chat_router
      one_session 0 [broken_turn]) as [[[r g] es] e] eqn:E.
  assert (e = Returned /\ es = [ws_close 7]) as [-> ->] by (vm_compute in E; by simplify_eq).
  exists r, g, [ws_close 7]. split_and!; [done|done|].
  refine (proj1 (gateway_loop_unregisters _ _ _ _ _ 0%nat sample_session _ _ _ _ _ _ E)); [by vm_compute|].
  intros b Hb. vm_compute in Hb. by injection Hb as <-.
Defined.

Lemma gateway_quic_connection_dropped_witness :
  exists g, handleSessionMessages (fun _ => true) sample_sd (fun _ : GatewayError MsgError => []) chat_router
      (handleQUICConnection (NewGatewayHandler ∅) "q" 9 0).1 0 [broken_turn] = (chat_router, g, [quic_close 9], Returned).
Proof.
  destruct (gateway_quic_connection_dropped (fun _ => true) sample_sd (fun _ : GatewayError MsgError => []) chat_router
    (NewGatewayHandler ∅) "q" 9 0 [broken_turn] ltac:(done)) as (g & Hg & _). exists g. exact Hg.
Defined.
