(* ===== verification/CacheSync.v ===== *)
(** * Write-behind caching of entities ([pkg/db/cache_sync.go])

    Writes go to the cache and to a table of dirty entries; a flush sends the
    entries to the database and takes them out of the table.  The cache is used
    through the interface [Cache]; the database answers the statements it is
    given with results the environment chooses.  Dirty entries are shared
    between the table and the flushes under way, so they live in a heap.  The
    operations are functions; the last part lets flushes and writes interleave. *)

From stdpp Require Import base gmap strings pretty fin_maps numbers relations list.
From Stdlib Require Import ZArith Lia.
From S2P Require Import Prelude.

Local Open Scope Z_scope.

(** ** The cache *)

(** [redis.Cache] as the synchronization uses it; [E] are the entities.  A failed
    [Get] and a miss look the same.  The cache keeps an entity as JSON, so what
    comes back is its [image].  [cached] is what the cache holds. *)
Class Cache (C E : Type) := {
  cached : C -> string -> option E;
  image : E -> E;
  cache_Get : C -> string -> C * option E;
  cache_Set : C -> string -> E -> C * bool;
  cache_Delete : C -> string -> C * bool;
  cache_MGet : C -> list string -> C * option (list (option E));
  cache_MSet : C -> list (string * E) -> C * bool;
  cache_get_law c k :
    (forall k', cached (cache_Get c k).1 k' = cached c k') /\
    forall e, (cache_Get c k).2 = Some e -> cached c k = Some e;
  cache_set_law c k e :
    (forall k', k' <> k -> cached (cache_Set c k e).1 k' = cached c k') /\
    ((cache_Set c k e).2 = true -> cached (cache_Set c k e).1 k = Some (image e));
  cache_delete_law c k :
    (forall k', k' <> k -> cached (cache_Delete c k).1 k' = cached c k') /\
    ((cache_Delete c k).2 = true -> cached (cache_Delete c k).1 k = None);
  cache_mget_law c ks :
    (forall k', cached (cache_MGet c ks).1 k' = cached c k') /\
    forall l, (cache_MGet c ks).2 = Some l ->
      Forall2 (fun k o => forall e, o = Some e -> cached c k = Some e) ks l
}.

(** A map that never fails. *)
#[export, refine]
Instance map_cache (E : Type) : Cache (gmap string E) E := {
  cached c k := c !! k;
  image e := e;
  cache_Get c k := (c, c !! k);
  cache_Set c k e := (<[k := e]> c, true);
  cache_Delete c k := (delete k c, bool_decide (is_Some (c !! k)));
  cache_MGet c ks := (c, Some ((c !!.) <$> ks));
  cache_MSet c l := (list_to_map l ∪ c, true)
}.
Proof.
  - done.
  - intros c k e. simpl. split; [|by rewrite lookup_insert_eq]. intros k' Hk. by rewrite lookup_insert_ne.
  - intros c k. simpl. split; [|by rewrite lookup_delete_eq]. intros k' Hk. by rewrite lookup_delete_ne.
  - intros c ks. simpl. split; [done|]. intros l [= <-]. apply Forall2_fmap_r, Forall_Forall2_diag, Forall_true. by intros x e ?.
Defined.

(** ** Entities and dirty entries *)

(** The limits; the intervals and times to live decide when things happen, and the
    switches of the configuration are not read. *)
Record CacheSyncConfig := MkSyncConfig {
  BatchSize : Z;
  MaxDirtySize : Z
}.

Definition DefaultCacheSyncConfig : CacheSyncConfig := {| BatchSize := 100; MaxDirtySize := 1000 |}.

Inductive DirtyStatus := DirtyStatusNew | DirtyStatusPending | DirtyStatusFlushing.

#[export]
Instance DirtyStatus_eq_dec : EqDecision DirtyStatus.
Proof. solve_decision. Defined.

(** Why a call fails: the cache, a statement the queue of the database refused or
    the database rejected, or a query without a row. *)
Inductive SyncError :=
  | ErrCacheWrite
  | ErrSubmit
  | ErrExec
  | ErrQuerySubmit
  | ErrQuery.

#[export]
Instance SyncError_eq_dec : EqDecision SyncError.
Proof. solve_decision. Defined.

Section cache_sync.
(** The values of fields, and those that are strings. *)
Context {value : Type} (as_string : value -> option string).

Abbreviation EntityData := (gmap string value).

(** [Data] is [None] for a deletion. *)
Record DirtyEntry := MkDirtyEntry {
  EntityType : string;
  EntityID : string;
  Data : option EntityData;
  ModifiedAt : Z;
  Status : DirtyStatus;
  Version : Z;
  Tags : list string
}.

Record WriteOptions := MkWriteOptions {
  Immediate : bool;
  opt_Version : Z;
  opt_Tags : list string
}.

Definition no_options : WriteOptions := MkWriteOptions false 0 [].

(** The counters; [ConflictCount] is never written and the times are left out. *)
Record CacheSyncStats := MkSyncStats {
  CacheHits : Z;
  CacheMisses : Z;
  FlushCount : Z;
  FlushedEntries : Z
}.

Record cacheSync := MkCacheSync {
  objects : gmap nat DirtyEntry;
  dirtyEntries : gmap string nat;
  stats : CacheSyncStats;
  isClosed : bool
}.

Definition NewCacheSync : cacheSync :=
  {| objects := ∅; dirtyEntries := ∅; stats := MkSyncStats 0 0 0 0; isClosed := false |}.

Definition formatCacheKey (entityType entityID : string) : string :=
  "entity:" +:+ entityType +:+ ":" +:+ entityID.

Definition formatDirtyKey (entityType entityID : string) : string := entityType +:+ ":" +:+ entityID.

Definition hit (s : CacheSyncStats) : CacheSyncStats :=
  MkSyncStats (CacheHits s + 1) (CacheMisses s) (FlushCount s) (FlushedEntries s).

Definition miss (s : CacheSyncStats) : CacheSyncStats :=
  MkSyncStats (CacheHits s) (CacheMisses s + 1) (FlushCount s) (FlushedEntries s).

Definition set_sync_stats (cs : cacheSync) (s : CacheSyncStats) : cacheSync :=
  {| objects := objects cs; dirtyEntries := dirtyEntries cs; stats := s; isClosed := isClosed cs |}.

Definition set_dirty (cs : cacheSync) (m : gmap string nat) : cacheSync :=
  {| objects := objects cs; dirtyEntries := m; stats := stats cs; isClosed := isClosed cs |}.

(** [cs.dirtyEntries[dirtyKey] = &DirtyEntry{...}] *)
Definition put_dirty (cs : cacheSync) (entry : DirtyEntry) : cacheSync :=
  let p := fresh (dom (objects cs)) in
  {| objects := <[p := entry]> (objects cs);
     dirtyEntries := <[formatDirtyKey (EntityType entry) (EntityID entry) := p]> (dirtyEntries cs);
     stats := stats cs; isClosed := isClosed cs |}.

Definition dirty_entry (cs : cacheSync) (key : string) : option DirtyEntry :=
  dirtyEntries cs !! key ≫= fun p => objects cs !! p.

Definition Stats (cs : cacheSync) : CacheSyncStats * nat := (stats cs, size (dirtyEntries cs)).

(** ** Statements *)

Inductive stmt :=
  | Update (entityType id : string) (fields : list (string * value))
  | DeleteOne (entityType id : string)
  | DeleteMany (entityType : string) (ids : list string).

(** [strings.Join(l, ", ")] *)
Fixpoint join (l : list string) : string :=
  match l with
  | [] => ""
  | [s] => s
  | s :: l => s +:+ ", " +:+ join l
  end.

(** [$1, $2, ...] *)
Definition placeholder (i : nat) : string := "$" +:+ pretty i.

Definition placeholders (n : nat) : list string := placeholder <$> seq 1 n.

(** The text given to the database. *)
Definition sql (s : stmt) : string :=
  match s with
  | Update t id fields =>
      "UPDATE " +:+ t +:+ " SET " +:+ join fields.*1 +:+ " = " +:+ join (placeholders (length fields))
        +:+ " WHERE id = " +:+ placeholder (length fields + 1)
  | DeleteOne t _ => "DELETE FROM " +:+ t +:+ " WHERE id = $1"
  | DeleteMany t ids => "DELETE FROM " +:+ t +:+ " WHERE id IN (" +:+ join (placeholders (length ids)) +:+ ")"
  end.

(** What [ExecAsync] and its callback report: the queue refused the statement, it
    failed, or it succeeded. *)
Inductive exec_answer := ExecRefused | ExecFailed | ExecDone.

(** A query: refused, failed (a missing row is an error of the handler), or the
    columns of the rows. *)
Inductive query_answer := QueryRefused | QueryFailed | QueryRows (rows : list (list (string * value))).

(** What the environment decides: the orders in which maps are ranged over and
    the answers of the database. *)
Record environment := MkEnv {
  dirty_order : gmap string nat -> list (string * nat);
  type_order : gmap string (list nat) -> list (string * list nat);
  entity_order : gmap string EntityData -> list (string * EntityData);
  field_order : EntityData -> list (string * value);
  exec : stmt -> exec_answer;
  query : string -> list string -> query_answer
}.

Record env_ok (e : environment) : Prop := {
  eo_dirty m : map_order m (dirty_order e m);
  eo_type m : map_order m (type_order e m);
  eo_entity m : map_order m (entity_order e m);
  eo_field m : map_order m (field_order e m)
}.

(** [ExecAsync], then the wait for its callback. *)
Definition execute (e : environment) (s : stmt) : outcome SyncError unit :=
  match exec e s with
  | ExecRefused => Fail ErrSubmit
  | ExecFailed => Fail ErrExec
  | ExecDone => Ret tt
  end.

(** The fields of an update, without the ID. *)
Definition update_of (e : environment) (entityType id : string) (data : EntityData) : stmt :=
  Update entityType id (filter (fun f => f.1 <> "id"%string) (field_order e data)).

(** The statements given to the database, the last of which may have failed. *)
Fixpoint flush_list (e : environment) (entityType : string) (l : list (string * EntityData)) :
    list stmt * outcome SyncError unit :=
  match l with
  | [] => ([], Ret tt)
  | (id, data) :: l =>
      let s := update_of e entityType id data in
      match execute e s with
      | Ret _ => let '(ss, o) := flush_list e entityType l in (s :: ss, o)
      | Fail err => ([s], Fail err)
      | Panic => ([s], Panic)
      end
  end.

Definition flushEntities (e : environment) (entityType : string) (entities : gmap string EntityData) :
    list stmt * outcome SyncError unit :=
  flush_list e entityType (entity_order e entities).

Definition executeDelete (e : environment) (entityType entityID : string) : list stmt * outcome SyncError unit :=
  ([DeleteOne entityType entityID], execute e (DeleteOne entityType entityID)).

Definition executeDeleteMulti (e : environment) (entityType : string) (entityIDs : list string) :
    list stmt * outcome SyncError unit :=
  if decide (length entityIDs = 0%nat) then ([], Ret tt)
  else ([DeleteMany entityType entityIDs], execute e (DeleteMany entityType entityIDs)).

Definition flushEntry (e : environment) (entry : DirtyEntry) : list stmt * outcome SyncError unit :=
  match Data entry with
  | None => executeDelete e (EntityType entry) (EntityID entry)
  | Some data => flushEntities e (EntityType entry) {[ EntityID entry := data ]}
  end.

(** ** Flushing *)

Definition entry_at (cs : cacheSync) (p : nat) : DirtyEntry :=
  default (MkDirtyEntry "" "" None 0 DirtyStatusFlushing 0 []) (objects cs !! p).

Definition set_status (entry : DirtyEntry) (s : DirtyStatus) : DirtyEntry :=
  MkDirtyEntry (EntityType entry) (EntityID entry) (Data entry) (ModifiedAt entry) s (Version entry) (Tags entry).

Definition is_new (cs : cacheSync) (p : nat) : bool := bool_decide (Status (entry_at cs p) = DirtyStatusNew).

(** The entries to flush become pending. *)
Fixpoint collect (cs : cacheSync) (order : list (string * nat)) : cacheSync * list nat :=
  match order with
  | [] => (cs, [])
  | (_, p) :: rest =>
      if is_new cs p then
        let cs := {| objects := <[p := set_status (entry_at cs p) DirtyStatusPending]> (objects cs);
                     dirtyEntries := dirtyEntries cs; stats := stats cs; isClosed := isClosed cs |} in
        let '(cs, l) := collect cs rest in (cs, p :: l)
      else collect cs rest
  end.

(** [entriesByType[entry.EntityType] = append(...)] for every entry. *)
Definition group (cs : cacheSync) (l : list nat) : gmap string (list nat) :=
  fold_left (fun m p => <[EntityType (entry_at cs p) := default [] (m !! EntityType (entry_at cs p)) ++ [p]]> m) l ∅.

(** [entries[start:end]] *)
Definition slice_of (entries : list nat) (start end_ : Z) : outcome SyncError (list nat) :=
  panic_unless ((0 <=? start) && (start <=? end_) && (end_ <=? Z.of_nat (length entries)));;
  Ret (sub (Z.to_nat start) (Z.to_nat (end_ - start)) entries).

(** The loop over [i] from [i] to [batchCount]; [n] turns are left. *)
Fixpoint batch_loop (size : Z) (entries : list nat) (i : Z) (n : nat) : outcome SyncError (list (list nat)) :=
  match n with
  | O => Ret []
  | S n =>
      let start := int64 (i * size) in
      let end_ := int64 (start + size) in
      let end_ := if end_ >? Z.of_nat (length entries) then Z.of_nat (length entries) else end_ in
      batch ← slice_of entries start end_;
      rest ← batch_loop size entries (i + 1) n;
      Ret (batch :: rest)
  end.

(** Dividing by a batch size of zero panics. *)
Definition batches (size : Z) (entries : list nat) : outcome SyncError (list (list nat)) :=
  panic_unless (negb (size =? 0));;
  let batchCount := Z.quot (int64 (Z.of_nat (length entries) + size - 1)) size in
  batch_loop size entries 0 (Z.to_nat batchCount).

(** [updateData] and [deleteIDs] of a batch. *)
Definition batch_updates (cs : cacheSync) (l : list nat) : gmap string EntityData :=
  fold_left (fun m p => match Data (entry_at cs p) with
                        | Some d => <[EntityID (entry_at cs p) := d]> m
                        | None => m
                        end) l ∅.

Fixpoint batch_deletes (cs : cacheSync) (l : list nat) : list string :=
  match l with
  | [] => []
  | p :: l => match Data (entry_at cs p) with
              | Some _ => batch_deletes cs l
              | None => EntityID (entry_at cs p) :: batch_deletes cs l
              end
  end.

(** The statements of a batch, up to the first that fails. *)
Definition batch_exec (e : environment) (cs : cacheSync) (entityType : string) (l : list nat) :
    list stmt * outcome SyncError unit :=
  let updates := batch_updates cs l in
  let deletes := batch_deletes cs l in
  let '(ss, o) := if decide (size updates = 0%nat) then ([], Ret tt) else flushEntities e entityType updates in
  match o with
  | Ret _ =>
      if decide (length deletes = 0%nat) then (ss, Ret tt)
      else let '(ss', o) := executeDeleteMulti e entityType deletes in (ss ++ ss', o)
  | _ => (ss, o)
  end.

(** The keys of the entries leave the table. *)
Definition batch_clear (cs : cacheSync) (l : list nat) : cacheSync :=
  set_dirty cs (fold_left (fun m p => delete (formatDirtyKey (EntityType (entry_at cs p)) (EntityID (entry_at cs p))) m)
                  l (dirtyEntries cs)).

Definition flushBatch (e : environment) (cs : cacheSync) (entityType : string) (l : list nat) :
    cacheSync * list stmt * outcome SyncError unit :=
  if decide (length l = 0%nat) then (cs, [], Ret tt)
  else
    let '(ss, o) := batch_exec e cs entityType l in
    match o with
    | Ret _ => (batch_clear cs l, ss, Ret tt)
    | _ => (cs, ss, o)
    end.

(** The batches of one type; an error is kept and the next batch follows. *)
Fixpoint flush_batches (e : environment) (cs : cacheSync) (entityType : string) (bs : list (list nat)) :
    cacheSync * list stmt * list SyncError * bool :=
  match bs with
  | [] => (cs, [], [], false)
  | b :: bs =>
      match flushBatch e cs entityType b with
      | (cs, ss, Panic) => (cs, ss, [], true)
      | (cs, ss, o) =>
          let errs := match o with Fail err => [err] | _ => [] end in
          let '(cs, ss', errs', p) := flush_batches e cs entityType bs in (cs, ss ++ ss', errs ++ errs', p)
      end
  end.

(** The types of the entries; the last component tells whether the loop panicked. *)
Fixpoint flush_types (e : environment) (size : Z) (cs : cacheSync) (groups : list (string * list nat)) :
    cacheSync * list stmt * list SyncError * bool :=
  match groups with
  | [] => (cs, [], [], false)
  | (t, entries) :: rest =>
      match batches size entries with
      | Ret bs =>
          match flush_batches e cs t bs with
          | (cs, ss, errs, true) => (cs, ss, errs, true)
          | (cs, ss, errs, false) =>
              let '(cs, ss', errs', p) := flush_types e size cs rest in (cs, ss ++ ss', errs ++ errs', p)
          end
      | _ => (cs, [], [], true)
      end
  end.

Section flushing.
Context (config : CacheSyncConfig) (e : environment).

Definition Flush (cs : cacheSync) : cacheSync * list stmt * outcome SyncError unit :=
  let '(cs, entriesToFlush) := collect cs (dirty_order e (dirtyEntries cs)) in
  if decide (length entriesToFlush = 0%nat) then (cs, [], Ret tt)
  else
    let '(cs, ss, errs, panicked) := flush_types e (BatchSize config) cs (type_order e (group cs entriesToFlush)) in
    if panicked then (cs, ss, Panic)
    else
      let s := stats cs in
      let cs := set_sync_stats cs (MkSyncStats (CacheHits s) (CacheMisses s) (FlushCount s + 1)
                  (FlushedEntries s + Z.of_nat (length entriesToFlush))) in
      (cs, ss, match errs with err :: _ => Fail err | [] => Ret tt end).

(** The error of the last flush is only logged. *)
Definition Close (cs : cacheSync) : cacheSync * list stmt * outcome SyncError unit :=
  if isClosed cs then (cs, [], Ret tt)
  else
    let cs := {| objects := objects cs; dirtyEntries := dirtyEntries cs; stats := stats cs; isClosed := true |} in
    match Flush cs with
    | (cs, ss, Panic) => (cs, ss, Panic)
    | (cs, ss, _) => (cs, ss, Ret tt)
    end.

(** ** Writes *)

Section operations.
Context {C : Type} `{Cache C EntityData}.

(** The cache, the state, the statements executed, whether a flush was started,
    and the result. *)
Definition write_result : Type := C * cacheSync * list stmt * bool * outcome SyncError unit.

Definition too_dirty (cs : cacheSync) : bool := Z.of_nat (size (dirtyEntries cs)) >=? MaxDirtySize config.

Definition Set_ (now : Z) (c : C) (cs : cacheSync) (entityType entityID : string) (data : EntityData)
    (opts : option WriteOptions) : write_result :=
  let opts := default no_options opts in
  let entry := MkDirtyEntry entityType entityID (Some data) now DirtyStatusNew (opt_Version opts) (opt_Tags opts) in
  match cache_Set c (formatCacheKey entityType entityID) data with
  | (c, false) => (c, cs, [], false, Fail ErrCacheWrite)
  | (c, true) =>
      if Immediate opts then let '(ss, o) := flushEntry e entry in (c, cs, ss, false, o)
      else let cs := put_dirty cs entry in (c, cs, [], too_dirty cs, Ret tt)
  end.

Definition put_entities (now : Z) (cs : cacheSync) (entityType : string) (opts : WriteOptions)
    (l : list (string * EntityData)) : cacheSync :=
  fold_left (fun cs x => put_dirty cs
    (MkDirtyEntry entityType x.1 (Some x.2) now DirtyStatusNew (opt_Version opts) (opt_Tags opts))) l cs.

Definition SetMulti (now : Z) (c : C) (cs : cacheSync) (entityType : string) (entities : gmap string EntityData)
    (opts : option WriteOptions) : write_result :=
  if decide (size entities = 0%nat) then (c, cs, [], false, Ret tt)
  else
    let opts := default no_options opts in
    match cache_MSet c ((fun x => (formatCacheKey entityType x.1, x.2)) <$> entity_order e entities) with
    | (c, false) => (c, cs, [], false, Fail ErrCacheWrite)
    | (c, true) =>
        if Immediate opts then let '(ss, o) := flushEntities e entityType entities in (c, cs, ss, false, o)
        else let cs := put_entities now cs entityType opts (entity_order e entities) in
             (c, cs, [], too_dirty cs, Ret tt)
    end.

(** An error of the cache is only logged. *)
Definition Delete (now : Z) (c : C) (cs : cacheSync) (entityType entityID : string) (opts : option WriteOptions) :
    write_result :=
  let opts := default no_options opts in
  let '(c, _) := cache_Delete c (formatCacheKey entityType entityID) in
  if Immediate opts then let '(ss, o) := executeDelete e entityType entityID in (c, cs, ss, false, o)
  else (c, put_dirty cs (MkDirtyEntry entityType entityID None now DirtyStatusNew (opt_Version opts) (opt_Tags opts)),
        [], false, Ret tt).

Definition delete_keys (c : C) (keys : list string) : C := fold_left (fun c k => (cache_Delete c k).1) keys c.

Definition DeleteMulti (now : Z) (c : C) (cs : cacheSync) (entityType : string) (entityIDs : list string)
    (opts : option WriteOptions) : write_result :=
  if decide (length entityIDs = 0%nat) then (c, cs, [], false, Ret tt)
  else
    let opts := default no_options opts in
    let c := delete_keys c (formatCacheKey entityType <$> entityIDs) in
    if Immediate opts then let '(ss, o) := executeDeleteMulti e entityType entityIDs in (c, cs, ss, false, o)
    else (c, fold_left (fun cs id => put_dirty cs
              (MkDirtyEntry entityType id None now DirtyStatusNew (opt_Version opts) (opt_Tags opts))) entityIDs cs,
          [], false, Ret tt).

(** ** Reads *)

(** The entity of a row: a column that occurs twice counts with its last value. *)
Definition row_entity (row : list (string * value)) : EntityData :=
  fold_left (fun m x => <[x.1 := x.2]> m) row ∅.

(** The first row of the answer; no row is an error. *)
Definition query_one (entityType entityID : string) : outcome SyncError EntityData :=
  match query e entityType [entityID] with
  | QueryRefused => Fail ErrQuerySubmit
  | QueryFailed => Fail ErrQuery
  | QueryRows [] => Fail ErrQuery
  | QueryRows (row :: _) => Ret (row_entity row)
  end.

Definition Get (c : C) (cs : cacheSync) (entityType entityID : string) :
    C * cacheSync * outcome SyncError EntityData :=
  let cacheKey := formatCacheKey entityType entityID in
  match cache_Get c cacheKey with
  | (c, Some data) => (c, set_sync_stats cs (hit (stats cs)), Ret data)
  | (c, None) =>
      match dirty_entry cs (formatDirtyKey entityType entityID) ≫= Data with
      | Some dirtyData => ((cache_Set c cacheKey dirtyData).1, cs, Ret dirtyData)
      | None =>
          let cs := set_sync_stats cs (miss (stats cs)) in
          match query_one entityType entityID with
          | Ret entity => ((cache_Set c cacheKey entity).1, cs, Ret entity)
          | Fail err => (c, cs, Fail err)
          | Panic => (c, cs, Panic)
          end
      end
  end.

(** The answers of [MGet]: the hits, the missing IDs and the statistics. *)
Fixpoint sort_answers (ids : list string) (answers : list (option EntityData)) (result : gmap string EntityData)
    (missing : list string) (s : CacheSyncStats) : gmap string EntityData * list string * CacheSyncStats :=
  match ids, answers with
  | id :: ids, Some d :: answers => sort_answers ids answers (<[id := d]> result) missing (hit s)
  | id :: ids, None :: answers => sort_answers ids answers result (missing ++ [id]) (miss s)
  | _, _ => (result, missing, s)
  end.

(** [append(l[:i], l[i+1:]...)] on the first [n] elements of the array. *)
Definition shift_out (i n : nat) (backing : list string) : list string :=
  take i backing ++ sub (S i) (n - S i) backing ++ drop (n - 1) backing.

Fixpoint index_of (id : string) (l : list string) : option nat :=
  match l with
  | [] => None
  | x :: l => if decide (x = id) then Some O else S <$> index_of id l
  end.

(** The check of the dirty entries.  The range reads the array that the removal
    of an ID shifts: turn [i] reads slot [i] of the array as it then is, [n]
    turns are left, and [len] is the current length of [missingIDs]. *)
Fixpoint dirty_scan (cs : cacheSync) (entityType : string) (n i : nat) (backing : list string) (len : nat)
    (c : C) (result : gmap string EntityData) : C * gmap string EntityData * list string :=
  match n with
  | O => (c, result, take len backing)
  | S n =>
      let id := default ""%string (backing !! i) in
      match dirty_entry cs (formatDirtyKey entityType id) ≫= Data with
      | None => dirty_scan cs entityType n (S i) backing len c result
      | Some d =>
          let c := (cache_Set c (formatCacheKey entityType id) d).1 in
          match index_of id (take len backing) with
          | Some j => dirty_scan cs entityType n (S i) (shift_out j len backing) (len - 1) c (<[id := d]> result)
          | None => dirty_scan cs entityType n (S i) backing len c (<[id := d]> result)
          end
      end
  end.

(** The string in the column [id] of a row, or the empty string. *)
Definition row_id (row : list (string * value)) : string :=
  fold_left (fun id x => if decide (x.1 = "id"%string) then default id (as_string x.2) else id) row ""%string.

Definition rows_by_id (rows : list (list (string * value))) : gmap string EntityData :=
  fold_left (fun m row =>
    if decide (row_id row = ""%string) then m else <[row_id row := row_entity row]> m) rows ∅.

(** The rows found go to the result and to the cache. *)
Definition merge_rows (entityType : string) (l : list (string * EntityData)) (c : C) (result : gmap string EntityData) :
    C * gmap string EntityData :=
  fold_left (fun '(c, result) x =>
    ((cache_Set c (formatCacheKey entityType x.1) x.2).1, <[x.1 := x.2]> result)) l (c, result).

(** The result comes with the error. *)
Definition GetMulti (c : C) (cs : cacheSync) (entityType : string) (entityIDs : list string) :
    C * cacheSync * gmap string EntityData * option SyncError :=
  if decide (length entityIDs = 0%nat) then (c, cs, ∅, None)
  else
    let '(c, answers) := cache_MGet c (formatCacheKey entityType <$> entityIDs) in
    let '(result, missing, s) :=
      match answers with
      | None => (∅, [], stats cs)
      | Some l => sort_answers entityIDs l ∅ [] (stats cs)
      end in
    let cs := set_sync_stats cs s in
    let '(c, result, missing) := dirty_scan cs entityType (length missing) 0 missing (length missing) c result in
    if decide (length missing = 0%nat) then (c, cs, result, None)
    else
      match query e entityType missing with
      | QueryRefused => (c, cs, result, Some ErrQuerySubmit)
      | QueryFailed => (c, cs, result, Some ErrQuery)
      | QueryRows rows =>
          let '(c, result) := merge_rows entityType (entity_order e (rows_by_id rows)) c result in
          (c, cs, result, None)
      end.

End operations.
End flushing.

(** ** Batches *)

(** The reference: as many elements at a time as there are. *)
Fixpoint chunks_of (fuel n : nat) (l : list nat) : list (list nat) :=
  match fuel, l with
  | O, _ | _, [] => []
  | S fuel, _ => take n l :: chunks_of fuel n (drop n l)
  end.

Definition chunks (n : nat) (l : list nat) : list (list nat) := chunks_of (length l) n l.

Lemma chunks_of_fuel n l f1 f2 :
  (0 < n)%nat -> (length l <= f1)%nat -> (length l <= f2)%nat -> chunks_of f1 n l = chunks_of f2 n l.
Proof.
  intros Hn. revert l f2. induction f1 as [|f1 IH]; intros l f2 H1 H2.
  - apply Nat.le_0_r, nil_length_inv in H1 as ->. by destruct f2.
  - destruct l as [|x l]; [by destruct f2|]. destruct f2 as [|f2]; [simpl in H2; lia|]. cbn [chunks_of]. f_equal.
    apply IH; rewrite length_drop; simpl in *; lia.
Qed.

Lemma chunks_cons n l : (0 < n)%nat -> l <> [] -> chunks n l = take n l :: chunks n (drop n l).
Proof.
  intros Hn Hl. unfold chunks at 1. destruct l as [|x l]; [done|]. cbn [chunks_of length]. f_equal.
  apply chunks_of_fuel; [done| |done]. rewrite length_drop. simpl. lia.
Qed.

Lemma concat_chunks n l : (0 < n)%nat -> concat (chunks n l) = l.
Proof.
  intros Hn. remember (length l) as k eqn:Hk. revert l Hk. induction (lt_wf k) as [k _ IH]. intros l ->.
  destruct (decide (l = [])) as [->|Hl]; [done|]. rewrite chunks_cons by done. simpl.
  assert (length (drop n l) < length l)%nat as Hlt by (rewrite length_drop; destruct l; [done|simpl; lia]).
  rewrite (IH _ Hlt _ eq_refl). apply take_drop.
Qed.

Lemma batch_loop_chunks size entries i n :
  0 < size -> 0 <= i -> Z.of_nat (length entries) + size - 1 < 2 ^ 63 ->
  i * size <= Z.of_nat (length entries) ->
  Z.of_nat n = (Z.of_nat (length entries) - i * size + size - 1) / size ->
  batch_loop size entries i n = Ret (chunks (Z.to_nat size) (drop (Z.to_nat (i * size)) entries)).
Proof.
  intros Hs. revert i. induction n as [|n IH]; intros i Hi Hlen Hle Hn.
  - assert (Z.of_nat (length entries) - i * size <= 0) as Hz.
    { apply Z.nlt_ge. intros Hpos. assert (1 <= (Z.of_nat (length entries) - i * size + size - 1) / size); [|lia].
      apply Z.div_le_lower_bound; lia. }
    rewrite drop_ge by lia. done.
  - assert (0 < Z.of_nat (length entries) - i * size) as Hpos.
    { apply Z.nle_gt. intros Hz.
      assert ((Z.of_nat (length entries) - i * size + size - 1) / size < 1); [|lia].
      apply Z.div_lt_upper_bound; lia. }
    cbn [batch_loop]. rewrite !int64_small by (unfold in_s; lia).
    rewrite chunks_cons by (try lia; intros E%(f_equal length); rewrite length_drop in E; simpl in E; lia).
    unfold slice_of, panic_unless.
    assert (forall b, (if b >? Z.of_nat (length entries) then Z.of_nat (length entries) else b)
                      = Z.min b (Z.of_nat (length entries))) as Hmin.
    { intros b. rewrite Z.gtb_ltb. destruct (Z.ltb_spec (Z.of_nat (length entries)) b); lia. }
    rewrite Hmin.
    rewrite (proj2 (Z.leb_le 0 (i * size))), (proj2 (Z.leb_le (i * size) _)), (proj2 (Z.leb_le (Z.min _ _) _)) by lia.
    gosimpl. assert (Z.of_nat n = (Z.of_nat (length entries) - (i + 1) * size + size - 1) / size) as Hn'.
    { replace (Z.of_nat (length entries) - (i + 1) * size + size - 1)
        with (Z.of_nat (length entries) - i * size + size - 1 + (-1) * size) by lia.
      rewrite Z.div_add by lia. lia. }
    destruct (Z.le_gt_cases ((i + 1) * size) (Z.of_nat (length entries))) as [Hin|Hout].
    + rewrite IH by lia. gosimpl. rewrite drop_drop. f_equal. f_equal.
      * unfold sub. f_equal. lia.
      * f_equal. f_equal. lia.
    + assert (n = O) as ->.
      { assert ((Z.of_nat (length entries) - (i + 1) * size + size - 1) / size < 1); [|lia].
        apply Z.div_lt_upper_bound; lia. }
      cbn [batch_loop]. gosimpl. rewrite (drop_ge (drop _ _)) by (rewrite length_drop; lia).
      unfold sub. rewrite !take_ge by (rewrite length_drop; lia). done.
Qed.

Lemma batches_chunks size entries
    (Hsize : 0 < size) (Hlen : Z.of_nat (length entries) + size - 1 < 2 ^ 63) :
  batches size entries = Ret (chunks (Z.to_nat size) entries) /\
  concat (chunks (Z.to_nat size) entries) = entries.
Proof.
  split; [|apply concat_chunks; lia]. unfold batches, panic_unless.
  destruct (Z.eqb_spec size 0) as [?|_]; [lia|]. gosimpl. rewrite int64_small by (unfold in_s; lia).
  rewrite Z.quot_div_nonneg by lia. apply (batch_loop_chunks size entries 0); [lia..|].
  rewrite Z2Nat.id by (apply Z.div_pos; lia). f_equal. lia.
Qed.

(** C37: the index arithmetic of [Flush] cuts the entries into consecutive
    batches of the configured size, the last of which may be shorter, and leaves
    none out; no slice expression panics. *)
Theorem cs_batches_chunks size entries
    (Hsize : 0 < size) (Hlen : Z.of_nat (length entries) + size - 1 < 2 ^ 63) :
  batches size entries = Ret (chunks (Z.to_nat size) entries) /\
  concat (chunks (Z.to_nat size) entries) = entries.
Proof. by apply batches_chunks. Qed.

(** ** The table of dirty entries *)

Definition key_of (cs : cacheSync) (p : nat) : string :=
  formatDirtyKey (EntityType (entry_at cs p)) (EntityID (entry_at cs p)).

(** Every key of the table points to an entry of that key. *)
Definition sync_ok (cs : cacheSync) : Prop :=
  forall k p, dirtyEntries cs !! k = Some p -> is_Some (objects cs !! p) /\ k = key_of cs p.

Lemma key_of_objects cs cs' p : objects cs' = objects cs -> key_of cs' p = key_of cs p.
Proof. unfold key_of, entry_at. by intros ->. Qed.

Lemma sync_ok_new : sync_ok NewCacheSync.
Proof. intros k p H. cbn [NewCacheSync dirtyEntries] in H. by rewrite lookup_empty in H. Qed.

Lemma sync_ok_stats cs s : sync_ok cs -> sync_ok (set_sync_stats cs s).
Proof. intros H k p Hk. apply (H k p Hk). Qed.

Lemma put_dirty_fresh cs en p :
  is_Some (objects cs !! p) -> objects (put_dirty cs en) !! p = objects cs !! p.
Proof.
  intros Hp. cbn [put_dirty objects]. apply lookup_insert_ne. intros <-.
  apply (is_fresh (dom (objects cs))). by apply elem_of_dom.
Qed.

Lemma sync_ok_put cs en : sync_ok cs -> sync_ok (put_dirty cs en).
Proof.
  intros Hok k p Hk. cbn [put_dirty dirtyEntries] in Hk. apply lookup_insert_Some in Hk as [[<- <-]|[Hne Hk]].
  - split; [cbn [put_dirty objects]; by rewrite lookup_insert_eq|].
    unfold key_of, entry_at. cbn [put_dirty objects]. by rewrite lookup_insert_eq.
  - destruct (Hok k p Hk) as [Hp ->]. split; [by rewrite put_dirty_fresh|].
    unfold key_of, entry_at. by rewrite put_dirty_fresh.
Qed.

Lemma sync_ok_puts cs ens : sync_ok cs -> sync_ok (fold_left put_dirty ens cs).
Proof. revert cs. induction ens as [|en ens IH]; [done|]. intros cs Hok. by apply IH, sync_ok_put. Qed.

Lemma put_entities_puts now cs t opts l :
  put_entities now cs t opts l = fold_left put_dirty ((fun x =>
    MkDirtyEntry t x.1 (Some x.2) now DirtyStatusNew (opt_Version opts) (opt_Tags opts)) <$> l) cs.
Proof. revert cs. induction l as [|x l IH]; [done|]. intros cs. apply IH. Qed.

Lemma dirty_entry_put cs en :
  dirty_entry (put_dirty cs en) (formatDirtyKey (EntityType en) (EntityID en)) = Some en.
Proof. unfold dirty_entry. cbn [put_dirty dirtyEntries objects]. rewrite lookup_insert_eq. simpl. by rewrite lookup_insert_eq. Qed.

Lemma string_app_inj (a b c : string) : a +:+ b = a +:+ c -> b = c.
Proof. induction a as [|x a IH]; [done|]. simpl. intros [= H]. by apply IH. Qed.

Lemma formatDirtyKey_inj t id id' : formatDirtyKey t id = formatDirtyKey t id' -> id = id'.
Proof. unfold formatDirtyKey. intros H%string_app_inj. by apply (string_app_inj ":") in H. Qed.

(** Two entities of different types may share a key. *)
Lemma formatDirtyKey_collision : formatDirtyKey "a:b" "c" = formatDirtyKey "a" "b:c".
Proof. done. Qed.

Lemma concat_perm {A} (l l' : list (list A)) : l ≡ₚ l' -> concat l ≡ₚ concat l'.
Proof.
  induction 1 as [|x l l' _ IH|x y l|l1 l2 l3 _ IH1 _ IH2]; cbn [concat]; [done|by rewrite IH| |by etrans].
  rewrite !app_assoc. by rewrite (Permutation_app_comm y).
Qed.

(** *** Collecting *)

(** What a flush reads of an entry. *)
Definition content (cs : cacheSync) (p : nat) : string * string * option EntityData :=
  (EntityType (entry_at cs p), EntityID (entry_at cs p), Data (entry_at cs p)).

Lemma collect_spec cs order cs' l :
  NoDup order.*2 -> (forall p, p ∈ order.*2 -> is_Some (objects cs !! p)) -> collect cs order = (cs', l) ->
  l = filter (fun p => is_new cs p = true) order.*2 /\
  dirtyEntries cs' = dirtyEntries cs /\ stats cs' = stats cs /\ isClosed cs' = isClosed cs /\
  (forall p, content cs' p = content cs p) /\
  (forall p, is_Some (objects cs' !! p) <-> is_Some (objects cs !! p)) /\
  (forall p, is_new cs' p = true <-> is_new cs p = true /\ p ∉ order.*2).
Proof.
  revert cs l. induction order as [|[k p] order IH]; intros cs l Hnd Hdom Hc.
  { simplify_eq/=. split_and!; try done. intros p. set_solver. }
  cbn [collect] in Hc. change (((k, p) :: order).*2) with (p :: order.*2) in *.
  apply NoDup_cons in Hnd as [Hp Hnd]. rewrite filter_cons.
  destruct (is_new cs p) eqn:Hnew.
  - set (cs1 := MkCacheSync _ _ _ _) in Hc. destruct (collect cs1 order) as [cs2 l2] eqn:Hc2. simplify_eq.
    assert (forall q, q <> p -> entry_at cs1 q = entry_at cs q) as Hq.
    { intros q Hq. unfold entry_at, cs1. cbn [objects]. by rewrite lookup_insert_ne. }
    assert (entry_at cs1 p = set_status (entry_at cs p) DirtyStatusPending) as Hpp.
    { unfold entry_at at 1, cs1. cbn [objects]. by rewrite lookup_insert_eq. }
    assert (forall q, is_Some (objects cs1 !! q) <-> is_Some (objects cs !! q)) as Hdom1.
    { intros q. unfold cs1. cbn [objects]. rewrite lookup_insert. case_decide as E; [|done]. subst q.
      split; [intros _; apply Hdom, list_elem_of_here|done]. }
    destruct (IH cs1 l2 Hnd) as (-> & Hd & Hs & Hcl & Hcont & Hdom2 & Hn); [|done|].
    { intros q Hin. by apply Hdom1, Hdom, list_elem_of_further. }
    rewrite decide_True by done. split_and!; try done.
    + f_equal. apply filter_ext_in. intros q Hin. unfold is_new.
      rewrite Hq; [done|]. by intros ->.
    + intros q. rewrite Hcont. unfold content. destruct (decide (q = p)) as [->|Hne]; [by rewrite Hpp|by rewrite Hq].
    + intros q. by rewrite Hdom2, Hdom1.
    + intros q. rewrite Hn. unfold is_new. destruct (decide (q = p)) as [->|Hne].
      * rewrite Hpp. cbn [set_status Status]. split; [by intros [? _]|intros [_ []]; apply list_elem_of_here].
      * rewrite Hq by done. rewrite elem_of_cons. naive_solver.
  - destruct (IH cs l Hnd) as (-> & Hd & Hs & Hcl & Hcont & Hdom2 & Hn); [|done|].
    { intros q Hin. by apply Hdom, list_elem_of_further. }
    rewrite decide_False by done. split_and!; try done.
    intros q. rewrite Hn. rewrite elem_of_cons. split; [|naive_solver]. intros [H1 H2]. split; [done|].
    intros [->|?]; [|done]. by rewrite H1 in Hnew.
Qed.

(** *** Grouping *)

Lemma group_snoc cs l p :
  group cs (l ++ [p]) =
  <[EntityType (entry_at cs p) := default [] (group cs l !! EntityType (entry_at cs p)) ++ [p]]> (group cs l).
Proof. unfold group. by rewrite fold_left_app. Qed.

Lemma concat_insert (m : gmap string (list nat)) t p :
  concat (map_to_list (<[t := default [] (m !! t) ++ [p]]> m)).*2 ≡ₚ concat (map_to_list m).*2 ++ [p].
Proof.
  rewrite <- insert_delete_eq, map_to_list_insert by apply lookup_delete_eq. cbn [fmap list_fmap concat snd].
  destruct (m !! t) as [es|] eqn:Hm; cbn [default from_option id].
  - rewrite <- (map_to_list_delete m t es Hm). cbn [fmap list_fmap concat snd]. rewrite <- !app_assoc.
    by rewrite (Permutation_app_comm [p]), app_assoc.
  - rewrite delete_id by done. simpl. apply Permutation_cons_append.
Qed.

(** The groups split the entries by type. *)
Lemma group_spec cs l :
  concat (map_to_list (group cs l)).*2 ≡ₚ l /\
  forall t es, group cs l !! t = Some es -> Forall (fun p => EntityType (entry_at cs p) = t) es.
Proof.
  induction l as [|p l [IH1 IH2]] using rev_ind.
  - split; [done|]. intros t es H. unfold group in H. cbn [fold_left] in H. by rewrite lookup_empty in H.
  - rewrite group_snoc. split; [by rewrite concat_insert, IH1|]. intros t es.
    rewrite lookup_insert. case_decide as Ht; [|apply IH2]. intros [= <-]. subst t. apply Forall_app. split.
    + destruct (group cs l !! _) as [es|] eqn:E; simpl; [by apply IH2|done].
    + by apply Forall_singleton.
Qed.

Lemma type_groups e cs l :
  env_ok e ->
  concat (type_order e (group cs l)).*2 ≡ₚ l /\
  Forall (fun x => Forall (fun p => EntityType (entry_at cs p) = x.1) x.2) (type_order e (group cs l)).
Proof.
  intros He. destruct (group_spec cs l) as [H1 H2]. pose proof (eo_type e He (group cs l)) as Ho. split.
  - etrans; [|exact H1]. apply concat_perm. by rewrite Ho.
  - apply Forall_forall. intros [t es] Hin. apply H2. by eapply map_order_elem.
Qed.

(** *** Batches *)

(** The keys that [l] takes out of the table. *)
Lemma batch_clear_lookup cs l k :
  dirtyEntries (batch_clear cs l) !! k =
  if decide (k ∈ key_of cs <$> l) then None else dirtyEntries cs !! k.
Proof.
  unfold batch_clear. cbn [set_dirty dirtyEntries]. fold (key_of cs). generalize (dirtyEntries cs) as m.
  induction l as [|p l IH]; intros m.
  - rewrite decide_False by set_solver. done.
  - cbn [fold_left]. rewrite IH, fmap_cons. fold (key_of cs p).
    destruct (decide (k ∈ key_of cs <$> l)) as [Hin|Hin].
    + rewrite decide_True by set_solver. done.
    + rewrite lookup_delete. repeat case_decide; set_solver.
Qed.

(** What a statement does to the database: the entity it names, with the fields
    it is given or with nothing if it deletes the entity. *)
Definition touched (s : stmt) : list (string * string * option (list (string * value))) :=
  match s with
  | Update t id f => [(t, id, Some f)]
  | DeleteOne t id => [(t, id, None)]
  | DeleteMany t ids => (fun id => (t, id, None)) <$> ids
  end.

Definition all_touched (ss : list stmt) : list (string * string * option (list (string * value))) :=
  concat (touched <$> ss).

(** What an entry asks for. *)
Definition asked (e : environment) (x : string * string * option EntityData) :
    string * string * option (list (string * value)) :=
  (x.1.1, x.1.2, (fun d => filter (fun f => f.1 <> "id"%string) (field_order e d)) <$> x.2).

Lemma all_touched_app ss ss' : all_touched (ss ++ ss') = all_touched ss ++ all_touched ss'.
Proof. unfold all_touched. by rewrite fmap_app, concat_app. Qed.

Lemma batch_updates_snoc cs l p :
  batch_updates cs (l ++ [p]) =
  match Data (entry_at cs p) with
  | Some d => <[EntityID (entry_at cs p) := d]> (batch_updates cs l)
  | None => batch_updates cs l
  end.
Proof. unfold batch_updates. by rewrite fold_left_app. Qed.

Lemma batch_deletes_app cs l l' : batch_deletes cs (l ++ l') = batch_deletes cs l ++ batch_deletes cs l'.
Proof.
  induction l as [|p l IH]; [done|]. cbn [app batch_deletes]. destruct (Data (entry_at cs p)); [done|]. by rewrite IH.
Qed.

Lemma batch_updates_ids cs l id d : batch_updates cs l !! id = Some d -> id ∈ (fun p => EntityID (entry_at cs p)) <$> l.
Proof.
  induction l as [|p l IH] using rev_ind.
  - unfold batch_updates. cbn [fold_left]. by rewrite lookup_empty.
  - rewrite batch_updates_snoc, fmap_app, elem_of_app. destruct (Data (entry_at cs p)) as [d'|]; [|auto].
    rewrite lookup_insert. case_decide as E; [|auto]. intros _. right. subst id. apply list_elem_of_here.
Qed.

(** The two halves of a batch ask for what its entries ask for. *)
Lemma batch_asked e cs t l :
  Forall (fun p => EntityType (entry_at cs p) = t) l -> NoDup ((fun p => EntityID (entry_at cs p)) <$> l) ->
  ((fun x => asked e (t, x.1, Some x.2)) <$> map_to_list (batch_updates cs l)) ++
  ((fun id => (t, id, None)) <$> batch_deletes cs l) ≡ₚ (asked e ∘ content cs) <$> l.
Proof.
  induction l as [|p l IH] using rev_ind; intros Ht Hnd; [by unfold batch_updates; cbn [fold_left]; rewrite map_to_list_empty|].
  apply Forall_app in Ht as [Ht Hp]. rewrite Forall_singleton in Hp. rewrite fmap_app in Hnd. apply NoDup_app in Hnd as (Hnd & Hdis & _).
  rewrite batch_updates_snoc, batch_deletes_app, !fmap_app. rewrite <- (IH Ht Hnd). clear IH.
  cbn [batch_deletes fmap list_fmap compose]. unfold content. rewrite Hp.
  destruct (Data (entry_at cs p)) as [d|] eqn:Hd.
  - rewrite map_to_list_insert.
    + cbn [fmap list_fmap fst snd]. rewrite app_nil_r. apply Permutation_cons_append.
    + destruct (batch_updates cs l !! _) as [d'|] eqn:E; [|done]. apply batch_updates_ids in E.
      destruct (Hdis _ E). apply list_elem_of_here.
  - cbn [fmap list_fmap]. by rewrite app_assoc.
Qed.

(** The database accepts every statement. *)
Definition all_done (e : environment) : Prop := forall s, exec e s = ExecDone.

Lemma flush_list_done e t l :
  all_done e -> flush_list e t l = ((fun x => update_of e t x.1 x.2) <$> l, Ret tt).
Proof.
  intros Hd. induction l as [|[id d] l IH]; [done|]. cbn [flush_list]. unfold execute. rewrite Hd, IH. done.
Qed.

Lemma touched_updates e t l :
  all_touched ((fun x => update_of e t x.1 x.2) <$> l) = (fun x => asked e (t, x.1, Some x.2)) <$> l.
Proof. induction l as [|x l IH]; [done|]. unfold all_touched in *. cbn [fmap list_fmap concat] in *. by rewrite IH. Qed.

Lemma flushEntities_done e t m :
  env_ok e -> all_done e ->
  exists ss, flushEntities e t m = (ss, Ret tt) /\
    all_touched ss ≡ₚ (fun x => asked e (t, x.1, Some x.2)) <$> map_to_list m.
Proof.
  intros He Hd. unfold flushEntities. rewrite flush_list_done by done. eexists; split; [done|].
  rewrite touched_updates. by rewrite (eo_entity e He m).
Qed.

Lemma batch_exec_done e cs t l :
  env_ok e -> all_done e ->
  Forall (fun p => EntityType (entry_at cs p) = t) l -> NoDup ((fun p => EntityID (entry_at cs p)) <$> l) ->
  exists ss, batch_exec e cs t l = (ss, Ret tt) /\ all_touched ss ≡ₚ (asked e ∘ content cs) <$> l.
Proof.
  intros He Hd Ht Hnd. pose proof (batch_asked e cs t l Ht Hnd) as Hb. unfold batch_exec.
  destruct (flushEntities_done e t (batch_updates cs l) He Hd) as (ss & Hf & Hss). rewrite Hf.
  assert (forall ids, all_touched [DeleteMany t ids] = (fun id => (t, id, None)) <$> ids) as Hdel.
  { intros ids. unfold all_touched. simpl. by rewrite app_nil_r. }
  destruct (decide (size (batch_updates cs l) = 0%nat)) as [Hz%map_size_empty_inv|_].
  - rewrite Hz, map_to_list_empty in Hb. cbn [fmap list_fmap app] in Hb.
    destruct (decide (length (batch_deletes cs l) = 0%nat)) as [Hl%nil_length_inv|Hl].
    + exists []. split; [done|]. by rewrite Hl in Hb.
    + unfold executeDeleteMulti. rewrite decide_False by done. unfold execute. rewrite Hd. eexists. split; [done|].
      cbn [app]. by rewrite Hdel.
  - destruct (decide (length (batch_deletes cs l) = 0%nat)) as [Hl%nil_length_inv|Hl].
    + exists ss. split; [done|]. rewrite Hl in Hb. cbn [fmap list_fmap] in Hb. rewrite app_nil_r in Hb. by rewrite Hss.
    + unfold executeDeleteMulti. rewrite decide_False by done. unfold execute. rewrite Hd. eexists. split; [done|].
      by rewrite all_touched_app, Hdel, Hss.
Qed.

(** *** Whole flushes *)

(** [cs'] is [cs] without the keys of [l]. *)
Definition cleared (cs cs' : cacheSync) (l : list nat) : Prop :=
  objects cs' = objects cs /\ stats cs' = stats cs /\ isClosed cs' = isClosed cs /\
  forall k, dirtyEntries cs' !! k = if decide (k ∈ key_of cs <$> l) then None else dirtyEntries cs !! k.

Lemma cleared_nil cs : cleared cs cs [].
Proof. split_and!; try done. Qed.

Lemma cleared_batch cs l : cleared cs (batch_clear cs l) l.
Proof. split_and!; try done. apply batch_clear_lookup. Qed.

Lemma key_of_list cs cs' (l : list nat) : objects cs' = objects cs -> key_of cs' <$> l = key_of cs <$> l.
Proof. intros H. apply list_fmap_ext. intros i x _. by apply key_of_objects. Qed.

Lemma cleared_app cs cs1 cs2 l1 l2 : cleared cs cs1 l1 -> cleared cs1 cs2 l2 -> cleared cs cs2 (l1 ++ l2).
Proof.
  intros (Ho1 & Hs1 & Hc1 & H1) (Ho2 & Hs2 & Hc2 & H2). split_and!; try congruence. intros k.
  rewrite H2, H1, (key_of_list _ _ _ Ho1), fmap_app. repeat case_decide; set_solver.
Qed.

Lemma cleared_perm cs cs' l l' : l ≡ₚ l' -> cleared cs cs' l -> cleared cs cs' l'.
Proof.
  intros Hl (Ho & Hs & Hc & H). split_and!; try done. intros k. rewrite H.
  assert (k ∈ key_of cs <$> l <-> k ∈ key_of cs <$> l') as Hk by by rewrite Hl.
  repeat case_decide; tauto.
Qed.

Lemma entry_at_objects cs cs' p : objects cs' = objects cs -> entry_at cs' p = entry_at cs p.
Proof. unfold entry_at. by intros ->. Qed.

Lemma content_objects cs cs' (l : list nat) : objects cs' = objects cs -> content cs' <$> l = content cs <$> l.
Proof. intros H. apply list_fmap_ext. intros i x _. unfold content. by rewrite (entry_at_objects cs cs'). Qed.

Definition typed (cs : cacheSync) (t : string) (l : list nat) : Prop :=
  Forall (fun p => EntityType (entry_at cs p) = t) l.

Lemma typed_objects cs cs' t l : objects cs' = objects cs -> typed cs t l -> typed cs' t l.
Proof. intros H Hl. eapply Forall_impl; [exact Hl|]. intros p Hp. cbv beta. by rewrite (entry_at_objects cs cs'). Qed.

Lemma keys_ids cs t l :
  typed cs t l -> NoDup (key_of cs <$> l) -> NoDup ((fun p => EntityID (entry_at cs p)) <$> l).
Proof.
  intros Ht Hnd. apply (NoDup_fmap_1 (formatDirtyKey t)). rewrite <- list_fmap_compose.
  erewrite Forall_fmap_ext_1; [exact Hnd|]. eapply Forall_impl; [exact Ht|]. intros p Hp. unfold key_of. simpl. by rewrite Hp.
Qed.

Section done.
Context (e : environment) (He : env_ok e) (Hdone : all_done e).

Lemma flushBatch_done cs t l :
  typed cs t l -> NoDup (key_of cs <$> l) ->
  exists cs' ss, flushBatch e cs t l = (cs', ss, Ret tt) /\ cleared cs cs' l /\
    all_touched ss ≡ₚ asked e <$> (content cs <$> l).
Proof.
  intros Ht Hnd. unfold flushBatch. destruct (decide (length l = 0%nat)) as [->%nil_length_inv|_].
  - exists cs, []. split_and!; [done|apply cleared_nil|done].
  - destruct (batch_exec_done e cs t l He Hdone Ht (keys_ids cs t l Ht Hnd)) as (ss & -> & Hss).
    exists (batch_clear cs l), ss. split_and!; [done|apply cleared_batch|]. by rewrite <- list_fmap_compose.
Qed.

Lemma flush_batches_done cs t bs :
  typed cs t (concat bs) -> NoDup (key_of cs <$> concat bs) ->
  exists cs' ss, flush_batches e cs t bs = (cs', ss, [], false) /\ cleared cs cs' (concat bs) /\
    all_touched ss ≡ₚ asked e <$> (content cs <$> concat bs).
Proof.
  revert cs. induction bs as [|b bs IH]; intros cs Ht Hnd; cbn [concat flush_batches] in *.
  { exists cs, []. split_and!; [done|apply cleared_nil|done]. }
  apply Forall_app in Ht as [Htb Hts]. rewrite fmap_app in Hnd. apply NoDup_app in Hnd as (Hndb & _ & Hnds).
  destruct (flushBatch_done cs t b Htb Hndb) as (cs1 & ss1 & -> & Hc1 & Ht1).
  pose proof (proj1 Hc1) as Ho.
  destruct (IH cs1) as (cs2 & ss2 & -> & Hc2 & Ht2); [by apply (typed_objects cs)|by rewrite (key_of_list cs cs1)|].
  eexists _, _. split_and!; [done|by eapply cleared_app|].
  rewrite all_touched_app, Ht1, Ht2, (content_objects cs cs1) by done. by rewrite !fmap_app.
Qed.

Lemma flush_types_done size cs groups :
  0 < size -> Forall (fun x => typed cs x.1 x.2) groups -> NoDup (key_of cs <$> concat groups.*2) ->
  Z.of_nat (length (concat groups.*2)) + size - 1 < 2 ^ 63 ->
  exists cs' ss, flush_types e size cs groups = (cs', ss, [], false) /\ cleared cs cs' (concat groups.*2) /\
    all_touched ss ≡ₚ asked e <$> (content cs <$> concat groups.*2).
Proof.
  intros Hsize. revert cs. induction groups as [|[t es] groups IH]; intros cs Ht Hnd Hlen; cbn [flush_types].
  { exists cs, []. split_and!; [done|apply cleared_nil|done]. }
  cbn [fmap list_fmap concat snd] in *. apply Forall_cons in Ht as [Hte Hts]. cbn [fst snd] in Hte.
  rewrite length_app in Hlen. rewrite fmap_app in Hnd. apply NoDup_app in Hnd as (Hnde & _ & Hnds).
  destruct (batches_chunks size es Hsize) as [-> Hcat]; [lia|].
  destruct (flush_batches_done cs t (chunks (Z.to_nat size) es)) as (cs1 & ss1 & -> & Hc1 & Ht1); [by rewrite Hcat..|].
  rewrite Hcat in *. pose proof (proj1 Hc1) as Ho.
  destruct (IH cs1) as (cs2 & ss2 & -> & Hc2 & Ht2); [|by rewrite (key_of_list cs cs1)|lia|].
  { eapply Forall_impl; [exact Hts|]. intros x. by apply typed_objects. }
  eexists _, _. split_and!; [done|by eapply cleared_app|].
  rewrite all_touched_app, Ht1, Ht2, (content_objects cs cs1) by done. by rewrite !fmap_app.
Qed.
End done.

(** The entries of the table that wait for a flush. *)
Definition new_entries (cs : cacheSync) : gmap string nat := filter (fun x => is_new cs x.2 = true) (dirtyEntries cs).

Lemma order_keys e cs :
  env_ok e -> sync_ok cs -> key_of cs <$> (dirty_order e (dirtyEntries cs)).*2 = (dirty_order e (dirtyEntries cs)).*1.
Proof.
  intros He Hok. rewrite <- list_fmap_compose. apply list_fmap_ext. intros i [k p] Hi. simpl.
  apply list_elem_of_lookup_2 in Hi. apply (map_order_elem _ _ _ _ (eo_dirty e He _)) in Hi.
  by destruct (Hok k p Hi) as [_ ->].
Qed.

(** What a flush picks. *)
Lemma collect_table e cs cs' l :
  env_ok e -> sync_ok cs -> collect cs (dirty_order e (dirtyEntries cs)) = (cs', l) ->
  l ≡ₚ (map_to_list (new_entries cs)).*2 /\ NoDup (key_of cs <$> l) /\
  dirtyEntries cs' = dirtyEntries cs /\ stats cs' = stats cs /\ isClosed cs' = isClosed cs /\
  (forall p, content cs' p = content cs p) /\ sync_ok cs' /\
  (forall k p, dirtyEntries cs' !! k = Some p -> is_new cs' p = false).
Proof.
  intros He Hok Hc. pose proof (order_keys e cs He Hok) as Hkeys. pose proof (eo_dirty e He (dirtyEntries cs)) as Hord.
  set (order := dirty_order e (dirtyEntries cs)) in *.
  assert (forall k p, (k, p) ∈ order <-> dirtyEntries cs !! k = Some p) as Hin
    by exact (fun k p => map_order_elem _ _ k p Hord).
  assert (NoDup (key_of cs <$> order.*2)) as Hnd by (rewrite Hkeys; exact (map_order_nodup _ _ Hord)).
  destruct (collect_spec cs order cs' l) as (-> & Hd & Hs & Hcl & Hcont & Hdom & Hnew); [by eapply NoDup_fmap_1| |done|].
  { intros p ([k q] & -> & Hkq)%list_elem_of_fmap. apply Hin in Hkq. by apply (Hok k q). }
  assert (forall p, key_of cs' p = key_of cs p) as Hk.
  { intros p. specialize (Hcont p). unfold content in Hcont. unfold key_of. congruence. }
  split_and!; try done.
  - unfold new_entries. rewrite map_filter_alt. rewrite map_to_list_to_map.
    + assert (filter (fun p => is_new cs p = true) order.*2 = (filter (fun x => is_new cs x.2 = true) order).*2) as ->.
      { clear. induction order as [|x order IH]; [done|]. rewrite fmap_cons, !filter_cons.
        case_decide; [|done]. by rewrite IH. }
      by rewrite Hord.
    + eapply sublist_NoDup; [apply (NoDup_fst_map_to_list (dirtyEntries cs))|]. apply fmap_sublist, sublist_filter.
  - eapply sublist_NoDup; [exact Hnd|]. apply fmap_sublist, sublist_filter.
  - intros k p Hkp. rewrite Hd in Hkp. rewrite Hk, Hdom. by apply Hok.
  - intros k p Hkp. rewrite Hd in Hkp. apply not_true_iff_false. intros [_ []]%Hnew. apply list_elem_of_fmap.
    exists (k, p). split; [done|]. by apply Hin.
Qed.

Lemma cleared_ok cs cs' l : cleared cs cs' l -> sync_ok cs -> sync_ok cs'.
Proof.
  intros (Ho & _ & _ & Hl) Hok k p Hk. rewrite Hl in Hk. case_decide; [done|].
  rewrite Ho, (key_of_objects cs) by done. by apply Hok.
Qed.

Lemma content_keys cs cs' l :
  (forall p, content cs' p = content cs p) -> key_of cs' <$> l = key_of cs <$> (l : list nat).
Proof.
  intros Hc. apply list_fmap_ext. intros i p _. specialize (Hc p). unfold content in Hc. unfold key_of. congruence.
Qed.

Lemma new_key cs k :
  sync_ok cs -> k ∈ key_of cs <$> (map_to_list (new_entries cs)).*2 <-> is_Some (new_entries cs !! k).
Proof.
  intros Hok. rewrite <- list_fmap_compose, list_elem_of_fmap. split.
  - intros ([k' p] & -> & Hin). apply elem_of_map_to_list in Hin as Hnew.
    apply map_lookup_filter_Some in Hnew as Hk. destruct Hk as [Hk _]. destruct (Hok _ _ Hk) as [_ E]. simpl. rewrite <- E. by exists p.
  - intros [p Hp]. exists (k, p). rewrite elem_of_map_to_list. split; [|done]. apply map_lookup_filter_Some in Hp as [Hk _].
    by destruct (Hok _ _ Hk).
Qed.

(** Clearing the new entries leaves the others. *)
Lemma cleared_new cs cs1 cs' l :
  sync_ok cs -> dirtyEntries cs1 = dirtyEntries cs -> (forall p, content cs1 p = content cs p) ->
  l ≡ₚ (map_to_list (new_entries cs)).*2 -> cleared cs1 cs' l ->
  dirtyEntries cs' = filter (fun x => is_new cs x.2 = false) (dirtyEntries cs).
Proof.
  intros Hok Hd Hc Hl (_ & _ & _ & Hlook). apply map_eq. intros k. rewrite Hlook, Hd, (content_keys cs cs1) by done.
  assert (k ∈ key_of cs <$> l <-> is_Some (new_entries cs !! k)) as Hk by (rewrite Hl; by apply new_key).
  symmetry. destruct (dirtyEntries cs !! k) as [p|] eqn:Hkp.
  2:{ transitivity (@None nat); [apply map_lookup_filter_None; by left|by case_decide]. }
  destruct (is_new cs p) eqn:Hn.
  - rewrite decide_True.
    + apply map_lookup_filter_None. right. intros x Hx. simpl. congruence.
    + apply Hk. exists p. by apply map_lookup_filter_Some.
  - rewrite decide_False; [by apply map_lookup_filter_Some|]. intros [q Hq]%Hk.
    apply map_lookup_filter_Some in Hq as [Hq Hnew]. simpl in Hnew. congruence.
Qed.

(** C8: when the database accepts every statement, a flush executes exactly what
    the new entries ask for, each once (fields without the ID, or a deletion),
    and leaves exactly the other entries in the table. *)
Theorem cs_flush_exact config e cs
    (He : env_ok e) (Hdone : all_done e) (Hok : sync_ok cs) (Hsize : 0 < BatchSize config)
    (Hlen : Z.of_nat (size (dirtyEntries cs)) + BatchSize config - 1 < 2 ^ 63) :
  exists cs' ss, Flush config e cs = (cs', ss, Ret tt) /\
    all_touched ss ≡ₚ asked e <$> (content cs <$> (map_to_list (new_entries cs)).*2) /\
    dirtyEntries cs' = filter (fun x => is_new cs x.2 = false) (dirtyEntries cs) /\
    sync_ok cs' /\
    FlushedEntries (stats cs') = FlushedEntries (stats cs) + Z.of_nat (size (new_entries cs)).
Proof.
  unfold Flush. destruct (collect cs _) as [cs1 l] eqn:Hc.
  destruct (collect_table e cs cs1 l He Hok Hc) as (Hl & Hnd & Hd & Hs & Hcl & Hcont & Hok1 & _).
  assert (length l = size (new_entries cs)) as Hll by (by rewrite Hl, length_fmap, length_map_to_list).
  destruct (decide (length l = 0%nat)) as [Hz|_].
  - assert (new_entries cs = ∅) as Hne by (apply map_size_empty_inv; lia).
    exists cs1, []. rewrite Hs, Hne, map_to_list_empty, map_size_empty. split_and!; [done..| |done|lia].
    apply (cleared_new cs cs1 cs1 l); [done..|]. apply nil_length_inv in Hz as ->. apply cleared_nil.
  - destruct (type_groups e cs1 l He) as [Hg1 Hg2].
    destruct (flush_types_done e He Hdone (BatchSize config) cs1 (type_order e (group cs1 l)) Hsize Hg2)
      as (cs2 & ss & -> & Hc2 & Ht).
    + rewrite Hg1, (content_keys cs cs1) by done. done.
    + rewrite Hg1, Hll. assert (size (new_entries cs) <= size (dirtyEntries cs))%nat; [|lia].
      apply map_subseteq_size, map_filter_subseteq.
    + eexists _, _. split; [done|]. apply (cleared_perm _ _ _ _ Hg1) in Hc2 as Hc3. split_and!.
      * rewrite Ht, Hg1, <- Hl. by rewrite (list_fmap_ext (content cs1) (content cs) l (fun _ p _ => Hcont p)).
      * apply (cleared_new cs cs1 cs2 l); done.
      * apply sync_ok_stats, (cleared_ok cs1 cs2 l); done.
      * destruct Hc2 as (_ & Hs2 & _). cbn [set_sync_stats stats FlushedEntries]. rewrite Hs2, Hs. lia.
Qed.

(** *** Failed flushes *)

(** [l] splits into entries that left the table and entries that stayed, and at
    least one stayed if something failed. *)
Definition partly_cleared (cs cs' : cacheSync) (l : list nat) (failed : bool) : Prop :=
  exists gone kept, l ≡ₚ gone ++ kept /\ cleared cs cs' gone /\ (failed = true -> kept <> []).

Lemma partly_app cs cs1 cs2 l1 l2 f1 f2 :
  partly_cleared cs cs1 l1 f1 -> partly_cleared cs1 cs2 l2 f2 -> partly_cleared cs cs2 (l1 ++ l2) (f1 || f2).
Proof.
  intros (g1 & k1 & Hl1 & Hc1 & Hk1) (g2 & k2 & Hl2 & Hc2 & Hk2). exists (g1 ++ g2), (k1 ++ k2). split_and!.
  - rewrite Hl1, Hl2, <- !app_assoc. f_equiv. by rewrite !app_assoc, (Permutation_app_comm k1).
  - by eapply cleared_app.
  - intros [Hf|Hf]%orb_true_iff [E1 E2]%app_nil; [by apply Hk1|by apply Hk2].
Qed.

Lemma partly_kept cs l failed : l <> [] -> partly_cleared cs cs l failed.
Proof. intros Hl. exists [], l. split_and!; [done|apply cleared_nil|done]. Qed.

Definition is_error {A} (l : list A) : bool := match l with [] => false | _ => true end.

Lemma is_error_app {A} (l l' : list A) : is_error (l ++ l') = is_error l || is_error l'.
Proof. by destruct l. Qed.

Lemma batch_exec_no_panic e cs t l : (batch_exec e cs t l).2 <> Panic.
Proof.
  assert (forall s, execute e s <> Panic) as Hx by (intros s; unfold execute; by destruct (exec e s)).
  assert (forall t l, (flush_list e t l).2 <> Panic) as Hf.
  { intros t' l'. induction l' as [|[id d] l' IH]; [done|]. cbn [flush_list].
    destruct (execute e _) eqn:E; [|done|by apply Hx in E]. by destruct (flush_list e t' l'). }
  assert (forall t ids, (executeDeleteMulti e t ids).2 <> Panic) as Hm.
  { intros t' ids. unfold executeDeleteMulti. case_decide; [done|apply Hx]. }
  unfold batch_exec, flushEntities.
  specialize (Hf t (entity_order e (batch_updates cs l))). specialize (Hm t (batch_deletes cs l)).
  destruct (flush_list _ _ _) as [ss o], (executeDeleteMulti _ _ _) as [ss' o'].
  case_decide; [|destruct o; try done]; by case_decide.
Qed.

Lemma flushBatch_any e cs t l :
  exists cs' ss o, flushBatch e cs t l = (cs', ss, o) /\ o <> Panic /\
    partly_cleared cs cs' l (match o with Fail _ => true | _ => false end).
Proof.
  unfold flushBatch. destruct (decide (length l = 0%nat)) as [->%nil_length_inv|Hl].
  - exists cs, [], (Ret tt). split_and!; [done..|]. exists [], []. split_and!; [done|apply cleared_nil|done].
  - pose proof (batch_exec_no_panic e cs t l) as Hp. destruct (batch_exec e cs t l) as [ss [u|err|]]; [| |done].
    + destruct u. exists (batch_clear cs l), ss, (Ret tt). split_and!; [done..|].
      exists l, []. rewrite app_nil_r. split_and!; [done|apply cleared_batch|done].
    + exists cs, ss, (Fail err). split_and!; [done..|]. apply partly_kept. by intros ->.
Qed.

Lemma flush_batches_any e cs t bs :
  exists cs' ss errs, flush_batches e cs t bs = (cs', ss, errs, false) /\
    partly_cleared cs cs' (concat bs) (is_error errs).
Proof.
  revert cs. induction bs as [|b bs IH]; intros cs; cbn [flush_batches concat].
  - exists cs, [], []. split; [done|]. exists [], []. split_and!; [done|apply cleared_nil|done].
  - destruct (flushBatch_any e cs t b) as (cs1 & ss1 & o & -> & Ho & H1).
    destruct (IH cs1) as (cs2 & ss2 & errs & E & H2).
    destruct o as [u|err|]; [| |done]; rewrite E; eexists _, _, _; (split; [done|]);
      exact (partly_app _ _ _ _ _ _ _ H1 H2).
Qed.

Lemma flush_types_any e size cs groups cs' ss errs :
  flush_types e size cs groups = (cs', ss, errs, false) -> 0 < size ->
  Z.of_nat (length (concat groups.*2)) + size - 1 < 2 ^ 63 ->
  partly_cleared cs cs' (concat groups.*2) (is_error errs).
Proof.
  intros Hf Hsize. revert cs ss errs Hf.
  induction groups as [|[t es] groups IH]; intros cs ss errs Hf Hlen; cbn [flush_types] in Hf.
  { simplify_eq. exists [], []. split_and!; [done|apply cleared_nil|done]. }
  cbn [fmap list_fmap concat snd] in *. rewrite length_app in Hlen.
  destruct (batches_chunks size es Hsize) as [E Hcat]; [lia|]. rewrite E in Hf.
  destruct (flush_batches_any e cs t (chunks (Z.to_nat size) es)) as (cs1 & ss1 & errs1 & E1 & H1). rewrite E1 in Hf.
  destruct (flush_types e size cs1 groups) as [[[cs2 ss2] errs2] p] eqn:E2. simplify_eq.
  rewrite Hcat in H1. rewrite is_error_app. eapply partly_app; [exact H1|]. eapply IH; [exact E2|lia].
Qed.

(** Whatever the answers and the batch size, a flush only takes keys out. *)
Lemma flush_types_cleared e size cs groups :
  exists gone, cleared cs (flush_types e size cs groups).1.1.1 gone.
Proof.
  revert cs. induction groups as [|[t es] groups IH]; intros cs; cbn [flush_types]; [exists []; apply cleared_nil|].
  destruct (batches size es) as [bs| |]; [|exists []; apply cleared_nil..].
  destruct (flush_batches_any e cs t bs) as (cs1 & ss1 & errs1 & -> & gone & kept & _ & Hc & _).
  destruct (IH cs1) as [gone' Hc']. destruct (flush_types e size cs1 groups) as [[[cs2 ss2] errs2] p].
  exists (gone ++ gone'). by eapply cleared_app.
Qed.

Lemma flush_ok config e cs : env_ok e -> sync_ok cs -> sync_ok (Flush config e cs).1.1.
Proof.
  intros He Hok. unfold Flush. destruct (collect cs _) as [cs1 l] eqn:Hc.
  destruct (collect_table e cs cs1 l He Hok Hc) as (_ & _ & _ & _ & _ & _ & Hok1 & _). case_decide; [done|].
  destruct (flush_types_cleared e (BatchSize config) cs1 (type_order e (group cs1 l))) as [gone Hg].
  destruct (flush_types _ _ _ _) as [[[cs2 ss2] errs] [|]]; [by apply (cleared_ok cs1 cs2 gone)|].
  by apply sync_ok_stats, (cleared_ok cs1 cs2 gone).
Qed.

(** No entry of the table waits for a flush. *)
Definition no_new (cs : cacheSync) : Prop := forall k p, dirtyEntries cs !! k = Some p -> is_new cs p = false.

Lemma flush_idle config e cs : env_ok e -> no_new cs -> Flush config e cs = (cs, [], Ret tt).
Proof.
  intros He Hn. unfold Flush.
  assert (forall l, (forall k p, (k, p) ∈ l -> is_new cs p = false) -> collect cs l = (cs, [])) as Hc.
  { intros l. induction l as [|[k p] l IH]; intros Hl; [done|]. cbn [collect].
    rewrite (Hl k p) by apply list_elem_of_here. apply IH. intros k' p' Hin. by apply (Hl k'), list_elem_of_further. }
  rewrite Hc; [done|]. intros k p Hin. apply (Hn k), (map_order_elem _ _ _ _ (eo_dirty e He _)), Hin.
Qed.

Lemma no_new_cleared cs cs' l s : cleared cs cs' l -> no_new cs -> no_new (set_sync_stats cs' s).
Proof.
  intros (Ho & _ & _ & Hl) Hn k p Hk. cbn [set_sync_stats dirtyEntries] in Hk. rewrite Hl in Hk. case_decide; [done|].
  unfold is_new. rewrite (entry_at_objects cs) by done. by apply (Hn k).
Qed.

(** Entries that stay are found under their keys. *)
Lemma kept_key cs cs1 cs' l gone kept :
  sync_ok cs -> dirtyEntries cs1 = dirtyEntries cs -> (forall p, content cs1 p = content cs p) ->
  NoDup (key_of cs <$> l) -> l ≡ₚ (map_to_list (new_entries cs)).*2 ->
  l ≡ₚ gone ++ kept -> cleared cs1 cs' gone -> kept <> [] ->
  exists k p, dirtyEntries cs' !! k = Some p /\ new_entries cs !! k = Some p.
Proof.
  intros Hok Hd Hc Hnd Hl Hgk (_ & _ & _ & Hlook) Hk. destruct kept as [|p kept]; [done|].
  assert (p ∈ (map_to_list (new_entries cs)).*2) as ([k q] & -> & Hin)%list_elem_of_fmap.
  { rewrite <- Hl, Hgk. apply elem_of_app. right. apply list_elem_of_here. }
  apply elem_of_map_to_list in Hin. exists k, q. split; [|done].
  apply map_lookup_filter_Some in Hin as Hkq. destruct Hkq as [Hkq _]. destruct (Hok k q Hkq) as [_ Hkey].
  rewrite Hlook, decide_False; [by rewrite Hd|]. rewrite (content_keys cs cs1) by done. rewrite Hgk, fmap_app in Hnd.
  apply NoDup_app in Hnd as (_ & Hdis & _). intros Hg. destruct (Hdis k Hg). rewrite Hkey. apply list_elem_of_here.
Qed.

(** What the statements of a flush touch, whatever the answers, and what it takes out. *)
Definition within (cs : cacheSync) (ss : list stmt) (l : list nat) : Prop :=
  forall x, x ∈ all_touched ss -> formatDirtyKey x.1.1 x.1.2 ∈ key_of cs <$> l.

Lemma within_app cs ss1 ss2 l1 l2 : within cs ss1 l1 -> within cs ss2 l2 -> within cs (ss1 ++ ss2) (l1 ++ l2).
Proof. intros H1 H2 x. rewrite all_touched_app, fmap_app, !elem_of_app. intros [?|?]; auto. Qed.

Lemma flush_list_within e t l x :
  x ∈ all_touched (flush_list e t l).1 -> x.1.1 = t /\ x.1.2 ∈ l.*1.
Proof.
  induction l as [|[id d] l IH]; [by intros ?%elem_of_nil|]. cbn [flush_list fmap list_fmap fst].
  assert (forall ss, x ∈ all_touched (update_of e t id d :: ss) -> (x.1.1 = t /\ x.1.2 = id) \/ x ∈ all_touched ss) as Hu.
  { intros ss. unfold all_touched, update_of. cbn [fmap list_fmap touched concat]. rewrite elem_of_app, list_elem_of_singleton.
    intros [-> |?]; [by left|by right]. }
  rewrite elem_of_cons. destruct (execute e _).
  - destruct (flush_list e t l) as [ss o]. intros [?|?]%Hu; [tauto|]. cbn [fst] in IH. specialize (IH H). tauto.
  - intros [?|?%elem_of_nil]%Hu; tauto.
  - intros [?|?%elem_of_nil]%Hu; tauto.
Qed.

Lemma batch_deletes_ids cs l id : id ∈ batch_deletes cs l -> id ∈ (fun p => EntityID (entry_at cs p)) <$> l.
Proof.
  induction l as [|p l IH]; [done|]. cbn [batch_deletes fmap list_fmap]. rewrite elem_of_cons.
  destruct (Data (entry_at cs p)); [auto|]. rewrite elem_of_cons. intros [?|?]; auto.
Qed.

Lemma batch_exec_within e cs t l : env_ok e -> typed cs t l -> within cs (batch_exec e cs t l).1 l.
Proof.
  intros He Ht x Hx.
  assert (x.1.1 = t /\ x.1.2 ∈ (fun p => EntityID (entry_at cs p)) <$> l) as [Ex (p & Ep & Hp)%list_elem_of_fmap].
  2: { apply list_elem_of_fmap. exists p. split; [|done]. unfold key_of. rewrite Ex, Ep.
       f_equal. symmetry. exact (proj1 (Forall_forall _ _) Ht p Hp). }
  assert (x ∈ all_touched (flushEntities e t (batch_updates cs l)).1 -> x.1.1 = t /\ x.1.2 ∈ (fun p => EntityID (entry_at cs p)) <$> l) as H1.
  { intros [E ([id d] & E' & Hin)%list_elem_of_fmap]%flush_list_within. split; [done|]. rewrite E'.
    apply (map_order_elem _ _ _ _ (eo_entity e He _)) in Hin. by apply (batch_updates_ids cs l id d). }
  assert (x ∈ all_touched (executeDeleteMulti e t (batch_deletes cs l)).1 -> x.1.1 = t /\ x.1.2 ∈ (fun p => EntityID (entry_at cs p)) <$> l) as H2.
  { unfold executeDeleteMulti. case_decide; [by intros ?%elem_of_nil|]. unfold all_touched. cbn [fst fmap list_fmap touched concat].
    rewrite app_nil_r. intros (id & -> & Hin)%list_elem_of_fmap. split; [done|]. by apply batch_deletes_ids. }
  assert (x ∉ all_touched []) as Hnil by by intros ?%elem_of_nil.
  revert Hx. unfold batch_exec. destruct (flushEntities _ _ _) as [ss1 o1], (executeDeleteMulti _ _ _) as [ss2 o2]. cbn [fst] in *.
  repeat case_decide; cbn [fst]; try destruct o1; cbn [fst]; rewrite ?all_touched_app, ?elem_of_app; tauto.
Qed.

Lemma flush_batches_within e cs t bs :
  env_ok e -> typed cs t (concat bs) ->
  within cs (flush_batches e cs t bs).1.1.2 (concat bs) /\
  exists gone, cleared cs (flush_batches e cs t bs).1.1.1 gone /\ gone ⊆ concat bs.
Proof.
  intros He. revert cs. induction bs as [|b bs IH]; intros cs Ht; cbn [flush_batches concat].
  { split; [by intros x ?%elem_of_nil|]. exists []. split; [apply cleared_nil|done]. }
  apply Forall_app in Ht as [Htb Hts].
  assert (within cs (flushBatch e cs t b).1.2 b /\ exists gone, cleared cs (flushBatch e cs t b).1.1 gone /\ gone ⊆ b) as [Hw (g & Hc & Hg)].
  { unfold flushBatch. case_decide; [split; [by intros x ?%elem_of_nil|]; exists []; split; [apply cleared_nil|set_solver]|].
    pose proof (batch_exec_within e cs t b He Htb) as Hw. destruct (batch_exec e cs t b) as [ss [u|err|]]; (split; [exact Hw|]);
      [exists b; split; [apply cleared_batch|done]|exists []; split; [apply cleared_nil|set_solver]..]. }
  destruct (flushBatch e cs t b) as [[cs1 ss1] o]. cbn [fst snd] in *. pose proof (proj1 Hc) as Ho.
  destruct (IH cs1) as (Hw' & g' & Hc' & Hg'); [by apply (typed_objects cs)|].
  destruct (flush_batches e cs1 t bs) as [[[cs2 ss2] errs] pn]. cbn [fst snd] in *.
  assert (within cs ss2 (concat bs)) as Hw2 by (intros x Hx; rewrite <- (key_of_list cs cs1) by done; by apply Hw').
  destruct o; cbn [fst snd]; (split; [by apply within_app || (intros x Hx; rewrite fmap_app, elem_of_app; left; by apply Hw)|]).
  1-2: exists (g ++ g'); split; [by eapply cleared_app|set_solver].
  exists g. split; [done|set_solver].
Qed.

Lemma batches_within size es bs : batches size es = Ret bs -> concat bs ⊆ es.
Proof.
  assert (forall n i bs, batch_loop size es i n = Ret bs -> concat bs ⊆ es) as H; [|unfold batches; destruct (panic_unless _); [apply H|done..]].
  clear bs. intros n. induction n as [|n IH]; intros i bs; [intros [= <-]; set_solver|]. cbn [batch_loop]. unfold slice_of. destruct (panic_unless _); [|done..].
  cbn [mbind outcome_bind]. destruct (batch_loop size es (i + 1) n) as [rest| |] eqn:E; [|done..]. intros [= <-]. cbn [concat].
  apply IH in E. intros p. rewrite elem_of_app. intros [Hp|?]; [|auto]. unfold sub in Hp. apply elem_of_take in Hp as (j & Hj & _).
  rewrite lookup_drop in Hj. by eapply list_elem_of_lookup_2.
Qed.

Lemma flush_types_within e size cs groups :
  env_ok e -> Forall (fun x => typed cs x.1 x.2) groups ->
  within cs (flush_types e size cs groups).1.1.2 (concat groups.*2) /\
  exists gone, cleared cs (flush_types e size cs groups).1.1.1 gone /\ gone ⊆ concat groups.*2.
Proof.
  intros He. revert cs. induction groups as [|[t es] groups IH]; intros cs Ht; cbn [flush_types fmap list_fmap concat snd].
  { split; [by intros x ?%elem_of_nil|]. exists []. split; [apply cleared_nil|done]. }
  apply Forall_cons in Ht as [Hte Hts]. cbn [fst snd] in Hte.
  destruct (batches size es) as [bs| |] eqn:Eb; [|split; [by intros x ?%elem_of_nil|]; exists []; split; [apply cleared_nil|set_solver]..].
  apply batches_within in Eb.
  assert (typed cs t (concat bs)) as Htb by (apply Forall_forall; intros p Hp; exact (proj1 (Forall_forall _ _) Hte p (Eb p Hp))).
  destruct (flush_batches_within e cs t bs He Htb) as (Hw & g & Hc & Hg).
  assert (forall ss, within cs ss (concat bs) -> within cs ss es) as Hmono.
  { intros ss Hs x Hx. apply Hs in Hx as (p & -> & Hp)%list_elem_of_fmap. apply list_elem_of_fmap. eauto. }
  destruct (flush_batches e cs t bs) as [[[cs1 ss1] errs1] pn]. cbn [fst snd] in *. pose proof (proj1 Hc) as Ho. destruct pn; cbn [fst snd].
  { split; [intros x Hx; rewrite fmap_app, elem_of_app; left; by apply (Hmono ss1)|]. exists g. split; [done|set_solver]. }
  destruct (IH cs1) as (Hw' & g' & Hc' & Hg'); [eapply Forall_impl; [exact Hts|]; intros x; by apply typed_objects|].
  destruct (flush_types e size cs1 groups) as [[[cs2 ss2] errs2] pn2]. cbn [fst snd] in *.
  split; [apply within_app; [by apply Hmono|intros x Hx; rewrite <- (key_of_list cs cs1) by done; by apply Hw']|].
  exists (g ++ g'). split; [by eapply cleared_app|set_solver].
Qed.

(** An entry of the table that no flush picks. *)
Definition frozen (k : string) (p : nat) (x : string * string * option EntityData) (cs : cacheSync) : Prop :=
  sync_ok cs /\ dirtyEntries cs !! k = Some p /\ is_new cs p = false /\ content cs p = x.

Lemma frozen_flush config e cs k p x :
  env_ok e -> frozen k p x cs ->
  frozen k p x (Flush config e cs).1.1 /\
  forall y, y ∈ all_touched (Flush config e cs).1.2 -> formatDirtyKey y.1.1 y.1.2 <> k.
Proof.
  intros He (Hok & Hk & Hn & Hx). pose proof (flush_ok config e cs He Hok) as Hok'. revert Hok'. unfold Flush.
  destruct (collect cs _) as [cs1 l] eqn:Hc. destruct (collect_table e cs cs1 l He Hok Hc) as (Hl & _ & Hd & _ & _ & Hcont & Hok1 & Hnew).
  assert (k ∉ key_of cs <$> l) as Hkl.
  { rewrite Hl, new_key by done. intros [q [Hq Hqn]%map_lookup_filter_Some]. cbn in Hqn. congruence. }
  case_decide; intros Hok'; cbn [fst snd] in *.
  { split; [|by intros y ?%elem_of_nil]. split_and!; [done|by rewrite Hd|apply (Hnew k); by rewrite Hd|by rewrite Hcont]. }
  destruct (type_groups e cs1 l He) as [Hg1 Hg2].
  destruct (flush_types_within e (BatchSize config) cs1 (type_order e (group cs1 l)) He Hg2) as (Hw & g & Hcl & Hg).
  destruct (flush_types _ _ _ _) as [[[cs2 ss] errs] pn]. cbn [fst snd] in *.
  assert (frozen k p x cs2) as (F1 & F2 & F3 & F4).
  { pose proof Hcl as (Ho & _ & _ & Hlook). split_and!.
    - by apply (cleared_ok cs1 cs2 g).
    - rewrite Hlook, decide_False, Hd; [done|]. rewrite (content_keys cs cs1) by done. intros Hin. apply Hkl. revert Hin.
      rewrite !list_elem_of_fmap. intros (q & Eq & Hq). exists q. split; [done|]. rewrite <- Hg1. by apply Hg.
    - unfold is_new. rewrite (entry_at_objects cs1) by done. apply (Hnew k). by rewrite Hd.
    - unfold content. rewrite (entry_at_objects cs1) by done. rewrite <- Hx, <- Hcont. done. }
  split; [destruct pn; by split_and!|]. intros y Hy Ey. apply Hkl. rewrite <- Ey, <- (content_keys cs cs1), <- Hg1 by done.
  apply Hw. by destruct pn.
Qed.

Lemma frozen_put k p x cs en :
  frozen k p x cs -> formatDirtyKey (EntityType en) (EntityID en) <> k -> frozen k p x (put_dirty cs en).
Proof.
  intros (Hok & Hk & Hn & Hx) Hne. destruct (Hok k p Hk) as [Hp _].
  assert (entry_at (put_dirty cs en) p = entry_at cs p) as E by (unfold entry_at; by rewrite put_dirty_fresh).
  split_and!; [by apply sync_ok_put|cbn; by rewrite lookup_insert_ne|unfold is_new; by rewrite E|unfold content; by rewrite E].
Qed.

Lemma frozen_puts k p x cs ens :
  frozen k p x cs -> Forall (fun en => formatDirtyKey (EntityType en) (EntityID en) <> k) ens -> frozen k p x (fold_left put_dirty ens cs).
Proof. intros Hf Hens. revert cs Hf. induction Hens as [|en ens Hen _ IH]; [done|]. intros cs Hf. by apply IH, frozen_put. Qed.

Lemma frozen_same k p x cs cs' :
  frozen k p x cs -> objects cs' = objects cs -> dirtyEntries cs' = dirtyEntries cs -> frozen k p x cs'.
Proof.
  intros (Hok & Hk & Hn & Hx) Eo Ed. split_and!.
  - intros k' q. rewrite Ed, Eo, (key_of_objects cs cs') by done. apply Hok.
  - by rewrite Ed.
  - unfold is_new. by rewrite (entry_at_objects cs cs').
  - unfold content. by rewrite (entry_at_objects cs cs').
Qed.

(** A write that comes between the statements of a flush and its cleanup is
    forgotten: the cleanup removes the key, although the entry under it is a
    newer one that no statement has written. *)
Theorem cs_flush_drops_write cs l p en
    (Hp : p ∈ l) (Hdom : forall q, q ∈ l -> is_Some (objects cs !! q))
    (Hkey : key_of cs p = formatDirtyKey (EntityType en) (EntityID en)) :
  dirty_entry (put_dirty cs en) (key_of cs p) = Some en /\
  dirty_entry (batch_clear (put_dirty cs en) l) (key_of cs p) = None.
Proof.
  split; [by rewrite Hkey, dirty_entry_put|]. unfold dirty_entry. rewrite batch_clear_lookup, decide_True; [done|].
  apply list_elem_of_fmap. exists p. split; [|done]. unfold key_of, entry_at. by rewrite put_dirty_fresh by by apply Hdom.
Qed.

(** ** Reads *)

Section reads.
Context {C : Type} `{HC : Cache C EntityData}.

(** What a read of an entity with dirty data returns, whatever happened to the
    cache in the meantime, as long as it holds nothing else. *)
Lemma get_dirty e (c : C) cs t id d :
  dirty_entry cs (formatDirtyKey t id) ≫= Data = Some d ->
  (cached c (formatCacheKey t id) = None \/ cached c (formatCacheKey t id) = Some (image d)) ->
  exists c' cs' d', Get e c cs t id = (c', cs', Ret d') /\ (d' = d \/ d' = image d).
Proof.
  intros Hd Hc. unfold Get. pose proof (cache_get_law c (formatCacheKey t id)) as [_ Hg].
  destruct (cache_Get c (formatCacheKey t id)) as [c1 [d1|]].
  - eexists _, _, _. split; [done|]. specialize (Hg d1 eq_refl). right. destruct Hc; congruence.
  - rewrite Hd. eexists _, _, _. split; [done|]. by left.
Qed.

(** A read returns the last write: after an accepted [Set], [Get] returns the
    data without asking the database, also if the cache has lost the entity, for
    as long as the entry is in the table. *)
Theorem cs_read_your_writes config e now c c' cs cs' t id d opts ss started
    (Hset : Set_ config e now c cs t id d opts = (c', cs', ss, started, Ret tt))
    (Hlater : Immediate (default no_options opts) = false) :
  ss = [] /\
  forall c1, cached c1 (formatCacheKey t id) = None \/
             cached c1 (formatCacheKey t id) = cached c' (formatCacheKey t id) ->
    exists c2 cs2 d', Get e c1 cs' t id = (c2, cs2, Ret d') /\ (d' = d \/ d' = image d).
Proof.
  unfold Set_ in Hset. pose proof (cache_set_law c (formatCacheKey t id) d) as [_ Hs].
  destruct (cache_Set c (formatCacheKey t id) d) as [c0 [|]]; [|done]. rewrite Hlater in Hset. simplify_eq.
  split; [done|]. intros c1 Hc1. simpl in Hs. apply get_dirty.
  - by rewrite (dirty_entry_put cs (MkDirtyEntry t id _ _ _ _ _)).
  - rewrite Hs in Hc1 by done. tauto.
Qed.

(** A delete that waits for its flush does not hide the entity: the next
    [Get] finds nothing in the cache, reads the row that is still there, returns
    it and caches it again. *)
Theorem cs_delete_visible e now c c' cs cs' t id opts ss started row rows
    (Hdel : Delete e now c cs t id opts = (c', cs', ss, started, Ret tt))
    (Hlater : Immediate (default no_options opts) = false)
    (Hgone : (cache_Delete c (formatCacheKey t id)).2 = true)
    (Hrow : query e t [id] = QueryRows (row :: rows)) :
  exists c2 cs2, Get e c' cs' t id = (c2, cs2, Ret (row_entity row)) /\
    exists c3, c2 = (cache_Set c3 (formatCacheKey t id) (row_entity row)).1.
Proof.
  unfold Delete in Hdel. pose proof (cache_delete_law c (formatCacheKey t id)) as [_ Hd].
  destruct (cache_Delete c (formatCacheKey t id)) as [c0 b]. rewrite Hlater in Hdel. simplify_eq. simpl in *.
  unfold Get. pose proof (cache_get_law c' (formatCacheKey t id)) as [_ Hg].
  destruct (cache_Get c' (formatCacheKey t id)) as [c1 [d1|]].
  { specialize (Hg d1 eq_refl). rewrite Hd in Hg by done. done. }
  rewrite (dirty_entry_put cs (MkDirtyEntry t id None now DirtyStatusNew _ _)). cbn [mbind option_bind Data].
  unfold query_one. rewrite Hrow. eexists _, _. split; [done|]. by eexists.
Qed.

(** The operations that change the table, each with the cache it finds. *)
Inductive sync_step (config : CacheSyncConfig) (e : environment) : cacheSync -> cacheSync -> Prop :=
  | StepSet now (c : C) cs t id d opts : sync_step config e cs (Set_ config e now c cs t id d opts).1.1.1.2
  | StepSetMulti now (c : C) cs t m opts : sync_step config e cs (SetMulti config e now c cs t m opts).1.1.1.2
  | StepDelete now (c : C) cs t id opts : sync_step config e cs (Delete e now c cs t id opts).1.1.1.2
  | StepDeleteMulti now (c : C) cs t ids opts : sync_step config e cs (DeleteMulti e now c cs t ids opts).1.1.1.2
  | StepGet (c : C) cs t id : sync_step config e cs (Get e c cs t id).1.2
  | StepGetMulti (c : C) cs t ids : sync_step config e cs (GetMulti e c cs t ids).1.1.2
  | StepFlush cs : sync_step config e cs (Flush config e cs).1.1
  | StepClose cs : sync_step config e cs (Close config e cs).1.1.

Lemma sync_step_ok config e cs cs' : env_ok e -> sync_step config e cs cs' -> sync_ok cs -> sync_ok cs'.
Proof.
  intros He [now c cs0 t id d opts|now c cs0 t m opts|now c cs0 t id opts|now c cs0 t ids opts|c cs0 t id|c cs0 t ids|cs0|cs0] Hok.
  - unfold Set_. destruct (cache_Set c _ _) as [c' [|]]; [|done]. destruct (Immediate _); [by destruct (flushEntry _ _)|].
    by apply sync_ok_put.
  - unfold SetMulti. case_decide; [done|]. destruct (cache_MSet c _) as [c' [|]]; [|done].
    destruct (Immediate _); [by destruct (flushEntities _ _ _)|]. simpl. rewrite put_entities_puts. by apply sync_ok_puts.
  - unfold Delete. destruct (cache_Delete c _) as [c' b]. destruct (Immediate _); [done|]. by apply sync_ok_put.
  - unfold DeleteMulti. case_decide; [done|]. destruct (Immediate _); [by destruct (executeDeleteMulti _ _ _)|]. simpl.
    clear -Hok. revert cs0 Hok. induction ids as [|id ids IH]; [done|]. intros cs0 Hok. by apply IH, sync_ok_put.
  - unfold Get. destruct (cache_Get c _) as [c' [d|]]; [by apply sync_ok_stats|].
    destruct (_ ≫= Data) as [d|]; [done|]. by destruct (query_one _ _ _); apply sync_ok_stats.
  - unfold GetMulti. case_decide; [done|]. destruct (cache_MGet c _) as [c' answers].
    destruct (match answers with Some l => _ | None => _ end) as [[result missing] s].
    destruct (dirty_scan _ _ _ _ _ _ _ _) as [[c2 result2] missing2]. case_decide; [by apply sync_ok_stats|].
    destruct (query _ _ _); [by apply sync_ok_stats..|]. destruct (merge_rows _ _ _ _). by apply sync_ok_stats.
  - by apply flush_ok.
  - unfold Close. destruct (isClosed cs0); [done|]. set (cs1 := MkCacheSync _ _ _ _).
    assert (sync_ok cs1) as Hok1 by apply Hok. apply (flush_ok config e cs1 He) in Hok1.
    by destruct (Flush config e cs1) as [[cs2 ss] [| |]].
Qed.

(** C31: in every state that the operations reach, whatever the cache and the
    database answer, each key of the table belongs to a live entry of the entity
    that the key names. *)
Theorem cs_table_invariant config e cs
    (He : env_ok e) (Hreach : rtc (sync_step config e) NewCacheSync cs) :
  sync_ok cs.
Proof.
  assert (forall a b, rtc (sync_step config e) a b -> sync_ok a -> sync_ok b) as H.
  { intros a b Hab. induction Hab as [|a a' b Hs _ IH]; [done|]. intros Ha. by eapply IH, sync_step_ok. }
  eapply H; [exact Hreach|apply sync_ok_new].
Qed.

(** The operations of any process on the table, with any configuration and environment, that do
    not write the entity of key [k] again through the table. *)
Definition other_key (k : string) (t id : string) (opts : option WriteOptions) : Prop :=
  Immediate (default no_options opts) = true \/ formatDirtyKey t id <> k.

Inductive other_step (k : string) : cacheSync -> cacheSync -> Prop :=
  | OtherSet config e now (c : C) cs t id d opts : other_key k t id opts -> other_step k cs (Set_ config e now c cs t id d opts).1.1.1.2
  | OtherSetMulti config e now (c : C) cs t m opts : env_ok e -> (forall id, is_Some (m !! id) -> other_key k t id opts) ->
      other_step k cs (SetMulti config e now c cs t m opts).1.1.1.2
  | OtherDelete e now (c : C) cs t id opts : other_key k t id opts -> other_step k cs (Delete e now c cs t id opts).1.1.1.2
  | OtherDeleteMulti e now (c : C) cs t ids opts : Forall (fun id => other_key k t id opts) ids ->
      other_step k cs (DeleteMulti e now c cs t ids opts).1.1.1.2
  | OtherGet e (c : C) cs t id : other_step k cs (Get e c cs t id).1.2
  | OtherGetMulti e (c : C) cs t ids : other_step k cs (GetMulti e c cs t ids).1.1.2
  | OtherFlush config e cs : env_ok e -> other_step k cs (Flush config e cs).1.1
  | OtherClose config e cs : env_ok e -> other_step k cs (Close config e cs).1.1.

Lemma frozen_other k p x cs cs' : other_step k cs cs' -> frozen k p x cs -> frozen k p x cs'.
Proof.
  intros [config e now c cs0 t id d opts Ho|config e now c cs0 t m opts He Ho|e now c cs0 t id opts Ho|e now c cs0 t ids opts Ho|e c cs0 t id|e c cs0 t ids|config e cs0 He|config e cs0 He] Hf.
  - unfold Set_. destruct (cache_Set c _ _) as [c' [|]]; [|done]. destruct (Immediate _) eqn:Ei; [by destruct (flushEntry _ _)|].
    apply frozen_put; [done|]. destruct Ho; [congruence|done].
  - unfold SetMulti. case_decide; [done|]. destruct (cache_MSet c _) as [c' [|]]; [|done].
    destruct (Immediate _) eqn:Ei; [by destruct (flushEntities _ _ _)|]. cbn [fst snd]. rewrite put_entities_puts.
    apply frozen_puts; [done|]. apply Forall_fmap, Forall_forall. intros [id d] Hin. apply (map_order_elem _ _ _ _ (eo_entity e He _)) in Hin.
    destruct (Ho id) as [?|?]; [by eexists|congruence|done].
  - unfold Delete. destruct (cache_Delete c _) as [c' b]. destruct (Immediate _) eqn:Ei; [done|]. apply frozen_put; [done|]. destruct Ho; [congruence|done].
  - unfold DeleteMulti. case_decide; [done|]. destruct (Immediate _) eqn:Ei; [by destruct (executeDeleteMulti _ _ _)|]. cbn [fst snd].
    clear H. revert cs0 Hf. induction Ho as [|id ids Hid _ IH]; [done|]. intros cs0 Hf. apply IH, frozen_put; [done|]. destruct Hid; [congruence|done].
  - unfold Get. destruct (cache_Get c _) as [c' [d|]]; [by apply (frozen_same k p x cs0)|].
    destruct (_ ≫= Data) as [d|]; [done|]. by destruct (query_one _ _ _); apply (frozen_same k p x cs0).
  - unfold GetMulti. case_decide; [done|]. destruct (cache_MGet c _) as [c' answers].
    destruct (match answers with Some l => _ | None => _ end) as [[result missing] s].
    destruct (dirty_scan _ _ _ _ _ _ _ _) as [[c2 result2] missing2]. case_decide; [by apply (frozen_same k p x cs0)|].
    destruct (query _ _ _); [by apply (frozen_same k p x cs0)..|]. destruct (merge_rows _ _ _ _). by apply (frozen_same k p x cs0).
  - by apply frozen_flush.
  - unfold Close. destruct (isClosed cs0); [done|]. set (cs1 := MkCacheSync _ _ _ _).
    assert (frozen k p x cs1) as Hf1 by by apply (frozen_same k p x cs0). apply (frozen_flush config e cs1 k p x He) in Hf1 as [Hf1 _].
    by destruct (Flush config e cs1) as [[cs2 ss] [| |]].
Qed.

(** C20: an entry whose flush failed is never written by a flush.  After a flush with a positive batch size that
    reported an error at least one entry it had picked is still in the table, all of
    them were counted as flushed, and the next flush executes nothing and reports success.  Each picked entry that is still
    there stays, as it was, through every sequence of operations, of any configuration and with any
    answers of cache and database, that does not put a new entry under its key; and no flush in between
    or afterwards executes a statement for an entity of that key. *)
Theorem cs_failed_never_retried config e cs cs' ss err
    (He : env_ok e) (Hok : sync_ok cs) (Hsize : 0 < BatchSize config)
    (Hlen : Z.of_nat (size (dirtyEntries cs)) + BatchSize config - 1 < 2 ^ 63)
    (Hf : Flush config e cs = (cs', ss, Fail err)) :
  (exists k p, dirtyEntries cs' !! k = Some p /\ new_entries cs !! k = Some p) /\
  FlushedEntries (stats cs') = FlushedEntries (stats cs) + Z.of_nat (size (new_entries cs)) /\
  (forall config' e', env_ok e' -> Flush config' e' cs' = (cs', [], Ret tt)) /\
  forall k p, new_entries cs !! k = Some p -> dirtyEntries cs' !! k = Some p -> forall cs'', rtc (other_step k) cs' cs'' ->
    dirtyEntries cs'' !! k = Some p /\ content cs'' p = content cs p /\
    forall config' e' t id x, env_ok e' -> (t, id, x) ∈ all_touched (Flush config' e' cs'').1.2 -> formatDirtyKey t id <> k.
Proof.
  pose proof (flush_ok config e cs He Hok) as Hok'. rewrite Hf in Hok'. cbn [fst] in Hok'.
  unfold Flush in Hf. destruct (collect cs _) as [cs1 l] eqn:Hc.
  destruct (collect_table e cs cs1 l He Hok Hc) as (Hl & Hnd & Hd & Hs & Hcl & Hcont & Hok1 & Hnew).
  assert (length l = size (new_entries cs)) as Hll by (by rewrite Hl, length_fmap, length_map_to_list).
  destruct (decide (length l = 0%nat)) as [|_]; [done|].
  destruct (type_groups e cs1 l He) as [Hg1 _].
  destruct (flush_types _ _ _ _) as [[[cs2 ss2] errs] [|]] eqn:Ht; [done|].
  destruct (flush_types_any e (BatchSize config) cs1 _ cs2 ss2 errs Ht Hsize) as (gone & kept & Hgk & Hcc & Hk).
  { rewrite Hg1, Hll. assert (size (new_entries cs) <= size (dirtyEntries cs))%nat; [|lia].
    apply map_subseteq_size, map_filter_subseteq. }
  destruct errs as [|err' errs]; [done|]. injection Hf as <- <- _. rewrite Hg1 in Hgk.
  assert (no_new (set_sync_stats cs2 (MkSyncStats (CacheHits (stats cs2)) (CacheMisses (stats cs2)) (FlushCount (stats cs2) + 1)
                  (FlushedEntries (stats cs2) + Z.of_nat (length l))))) as Hidle by by eapply no_new_cleared. split_and!.
  - apply (kept_key cs cs1 cs2 l gone kept); auto.
  - destruct Hcc as (_ & Hs2 & _). cbn [set_sync_stats stats FlushedEntries]. rewrite Hs2, Hs. lia.
  - intros config' e' He'. by apply flush_idle.
  - intros k p _ Hp cs'' Hrun. assert (frozen k p (content cs p) cs'') as Hfr.
    { assert (frozen k p (content cs p) (set_sync_stats cs2 (MkSyncStats (CacheHits (stats cs2)) (CacheMisses (stats cs2)) (FlushCount (stats cs2) + 1)
                  (FlushedEntries (stats cs2) + Z.of_nat (length l))))) as Hfr0.
      { split_and!; [done|done|by apply (Hidle k)|]. rewrite <- Hcont. destruct Hcc as (Ho & _). unfold content.
        by rewrite (entry_at_objects cs1). }
      clear -Hrun Hfr0. induction Hrun as [|a a' b Hst _ IH]; [done|]. apply IH. by eapply frozen_other. }
    split_and!; [apply Hfr..|]. intros config' e' t id x He' Hin. by apply (frozen_flush config' e' cs'' k p _ He' Hfr) in Hin.
Qed.

(** When the cache fails as a whole, [GetMulti] does not go on to the database: it
    returns nothing and no error. *)
Theorem cs_getmulti_cache_error e c c' cs t ids
    (Hids : ids <> []) (Herr : cache_MGet c (formatCacheKey t <$> ids) = (c', None)) :
  exists cs', GetMulti e c cs t ids = (c', cs', ∅, None).
Proof.
  unfold GetMulti. rewrite decide_False by by destruct ids. rewrite Herr. cbn [length dirty_scan take].
  eexists. by rewrite decide_True.
Qed.
End reads.

End cache_sync.

(** ** Examples *)

Abbreviation fields := (gmap string string).

(** A database that answers statements by [x] and queries by [q]. *)
Definition sample_env (x : stmt (value := string) -> exec_answer) (q : string -> list string -> query_answer) :
    environment :=
  {| dirty_order := map_to_list; type_order := map_to_list; entity_order := map_to_list;
     field_order := map_to_list; exec := x; query := q |}.

Lemma sample_env_ok x q : env_ok (sample_env x q).
Proof. split; intros m; apply map_order_default. Qed.

Definition hero (hp : string) : fields := {[ "hp"%string := hp ]}.

Definition write (cs : cacheSync (value := string)) (t id : string) (d : option fields) : cacheSync :=
  put_dirty cs (MkDirtyEntry t id d 0 DirtyStatusNew 0 []).

Definition sample_sync : cacheSync :=
  write (write (write NewCacheSync "player" "1" (Some (hero "7"))) "player" "2" None) "guild" "1" (Some (hero "9")).

Lemma sample_sync_ok : sync_ok sample_sync.
Proof. unfold sample_sync, write. repeat apply sync_ok_put. apply sync_ok_new. Qed.

Definition small : CacheSyncConfig := {| BatchSize := 1; MaxDirtySize := 3 |}.

Lemma cs_batches_chunks_witness :
  0 < 2 /\ batches 2 [4; 5; 6]%nat = Ret [[4; 5]; [6]]%nat.
Proof. split; [lia|]. apply (cs_batches_chunks 2 [4; 5; 6]%nat); [lia|by vm_compute]. Defined.

Lemma cs_flush_exact_witness :
  exists cs' ss, Flush small (sample_env (fun _ => ExecDone) (fun _ _ => QueryFailed)) sample_sync = (cs', ss, Ret tt) /\
    dirtyEntries cs' = filter (fun x => is_new sample_sync x.2 = false) (dirtyEntries sample_sync).
Proof.
  destruct (cs_flush_exact small (sample_env (fun _ => ExecDone) (fun _ _ => QueryFailed)) sample_sync)
    as (cs' & ss & H1 & _ & H2 & _);
    [apply sample_env_ok|done|apply sample_sync_ok|by vm_compute|by vm_compute|].
  exists cs', ss. exact (conj H1 H2).
Defined.

(** The three entries of the sample, in three statements. *)
Example flush_sample :
  (Flush small (sample_env (fun _ => ExecDone) (fun _ _ => QueryFailed)) sample_sync).1.2 =
  [Update "guild" "1" [("hp", "9")]; Update "player" "1" [("hp", "7")]; DeleteMany "player" ["2"]]%string
  \/ (Flush small (sample_env (fun _ => ExecDone) (fun _ _ => QueryFailed)) sample_sync).1.2 =
  [Update "player" "1" [("hp", "7")]; DeleteMany "player" ["2"]; Update "guild" "1" [("hp", "9")]]%string.
Proof. vm_compute. tauto. Qed.

(** A database that rejects the players' statements. *)
Definition no_players : environment :=
  sample_env (fun s => match s with Update "player" _ _ => ExecFailed | _ => ExecDone end) (fun _ _ => QueryFailed).

Lemma cs_table_invariant_witness :
  sync_ok (Set_ small no_players 5 (∅ : gmap string fields) NewCacheSync "player" "1" (hero "8") None).1.1.1.2.
Proof.
  apply (cs_table_invariant Some small no_players); [apply sample_env_ok|].
  apply rtc_once. exact (StepSet Some small no_players 5 ∅ NewCacheSync "player" "1" (hero "8") None).
Defined.

(** After the failure another player is written, and the database is well again. *)
Definition after_failure : cacheSync := (Flush small no_players sample_sync).1.1.
Definition after_write : cacheSync := (Set_ small no_players 5 (∅ : gmap string fields) after_failure "player" "9" (hero "8") None).1.1.1.2.

Lemma cs_failed_never_retried_witness :
  is_Some (dirtyEntries after_write !! "player:1"%string) /\
  (Flush small (sample_env (fun _ => ExecDone) (fun _ _ => QueryFailed)) after_write).1.2 = [Update "player" "9" [("hp"%string, "8"%string)]] /\
  forall config' e' t id x, env_ok e' -> (t, id, x) ∈ all_touched (Flush config' e' after_write).1.2 -> formatDirtyKey t id <> "player:1"%string.
Proof.
  destruct (cs_failed_never_retried (C := gmap string fields) Some small no_players sample_sync after_failure (Flush small no_players sample_sync).1.2 ErrExec)
    as (_ & _ & _ & H); [apply sample_env_ok|apply sample_sync_ok|by vm_compute..|].
  destruct (H "player:1"%string (default O (dirtyEntries sample_sync !! "player:1"%string))) with (cs'' := after_write) as (H1 & _ & H2);
    [vm_compute; reflexivity|vm_compute; reflexivity| |].
  - apply rtc_once. refine (OtherSet Some _ small no_players 5 (∅ : gmap string fields) after_failure "player" "9" (hero "8") None _). by right.
  - split_and!; [by eexists|vm_compute; reflexivity|exact H2].
Defined.

(** The state in which a flush has picked the player and written it, and the entry
    of a second write. *)
Definition picked : cacheSync * list nat :=
  collect (write NewCacheSync "player" "1" (Some (hero "7"))) [("player:1"%string, fresh (∅ : gset nat))].

Lemma cs_flush_drops_write_witness :
  batch_exec (sample_env (fun _ => ExecDone) (fun _ _ => QueryFailed)) picked.1 "player" picked.2 =
    ([Update "player" "1" [("hp"%string, "7"%string)]], Ret tt) /\
  dirty_entry (batch_clear (write picked.1 "player" "1" (Some (hero "8"))) picked.2) "player:1" = None.
Proof.
  split; [by vm_compute|].
  apply (cs_flush_drops_write picked.1 picked.2 (fresh (∅ : gset nat))
           (MkDirtyEntry "player" "1" (Some (hero "8")) 0 DirtyStatusNew 0 [])); [| |by vm_compute].
  - apply (bool_decide_unpack _). by vm_compute.
  - apply Forall_forall, (bool_decide_unpack _). by vm_compute.
Defined.

Lemma cs_read_your_writes_witness :
  exists c' cs' ss started,
    Set_ DefaultCacheSyncConfig no_players 5 (∅ : gmap string fields) NewCacheSync "player" "1" (hero "8") None
      = (c', cs', ss, started, Ret tt) /\
    exists c2 cs2 d', Get no_players (∅ : gmap string fields) cs' "player" "1" = (c2, cs2, Ret d') /\ (d' = hero "8" \/ d' = hero "8").
Proof.
  destruct (Set_ DefaultCacheSyncConfig no_players 5 (∅ : gmap string fields) NewCacheSync "player" "1" (hero "8") None)
    as [[[[c' cs'] ss] started] o] eqn:E. assert (o = Ret tt) as -> by (apply (f_equal snd) in E; by vm_compute in E).
  exists c', cs', ss, started. split; [exact eq_refl|].
  apply (cs_read_your_writes DefaultCacheSyncConfig no_players 5 ∅ c' NewCacheSync cs' "player" "1" (hero "8") None ss started E);
    [done|by left].
Defined.

Definition old_rows : environment :=
  sample_env (fun _ => ExecDone)
    (fun _ ids => QueryRows ((fun id => [("id", id); ("hp", "old")]%string) <$> ids)).

Lemma cs_delete_visible_witness :
  exists c' cs' ss started,
    Delete old_rows 5 {[ "entity:player:1"%string := hero "8" ]} NewCacheSync "player" "1" None
      = (c', cs', ss, started, Ret tt) /\
    exists c2 cs2, Get old_rows c' cs' "player" "1" = (c2, cs2, Ret (row_entity [("id", "1"); ("hp", "old")]%string)) /\
      exists c3, c2 = (cache_Set c3 (formatCacheKey "player" "1") (row_entity [("id", "1"); ("hp", "old")]%string)).1.
Proof.
  destruct (Delete old_rows 5 {[ "entity:player:1"%string := hero "8" ]} NewCacheSync "player" "1" None)
    as [[[[c' cs'] ss] started] o] eqn:E. assert (o = Ret tt) as -> by (apply (f_equal snd) in E; by vm_compute in E).
  exists c', cs', ss, started. split; [exact eq_refl|].
  apply (cs_delete_visible old_rows 5 _ c' NewCacheSync cs' "player" "1" None ss started _ [] E); by vm_compute.
Defined.

(** Of three entities that are dirty and not cached, [GetMulti] overlooks the
    second: the range skips the slot that the removal of the first refilled.  The
    row of the database, older than the write, is returned and cached. *)
Definition three_dirty : cacheSync :=
  write (write (write NewCacheSync "p" "1" (Some (hero "new"))) "p" "2" (Some (hero "new"))) "p" "3" (Some (hero "new")).

Theorem cs_getmulti_skips :
  let '(_, _, result, err) := GetMulti Some old_rows (∅ : gmap string fields) three_dirty "p" ["1"; "2"; "3"]%string in
  err = None /\ (result !! "1"%string ≫= (.!! "hp"%string)) = Some "new"%string /\
  (result !! "2"%string ≫= (.!! "hp"%string)) = Some "old"%string /\
  (Get old_rows (∅ : gmap string fields) three_dirty "p" "2").2 = Ret (hero "new").
Proof. by vm_compute. Qed.

(** An [Immediate] write does not take an older entry of the same entity out of
    the table: the next flush writes the older data over it. *)
Theorem cs_immediate_overwritten :
  let cs := write NewCacheSync "player" "1" (Some (hero "old")) in
  let e := sample_env (fun _ => ExecDone) (fun _ _ => QueryFailed) in
  let '(_, cs, ss, _, o) := Set_ DefaultCacheSyncConfig e 5 (∅ : gmap string fields) cs "player" "1" (hero "new")
                              (Some (MkWriteOptions true 0 [])) in
  o = Ret tt /\ ss = [Update "player" "1" [("hp", "new")]%string] /\
  (Flush DefaultCacheSyncConfig e cs).1.2 = [Update "player" "1" [("hp", "old")]%string].
Proof. by vm_compute. Qed.

(** The text of an update of two fields is not SQL: names and values are listed
    apart. *)
Example sql_two_fields :
  sql (Update (value := string) "player" "1" [("hp", "7"); ("mp", "3")]%string)
  = "UPDATE player SET hp, mp = $1, $2 WHERE id = $3"%string.
Proof. by vm_compute. Qed.
