(* ===== verification/Json.v ===== *)
(** * JSON ([encoding/json], as the converter uses it)

    The texts are byte lists.  UTF-8 and string literals come first, then the
    parser of values, which keeps the literals as they are written, and what
    [Unmarshal] and [Marshal] make of them: strings, the compact form of a raw
    message, the normal form of a value read without a type. *)

From stdpp Require Import base gmap strings pretty sorting numbers list.
From Stdlib Require Import ZArith Lia.
From S2P Require Import Prelude.

Local Open Scope Z_scope.

(** ** UTF-8 *)

Definition RuneError : Z := 0xFFFD.

Definition is_cont (b : byte) : bool := (0x80 <=? byte_val b) && (byte_val b <? 0xC0).

(** The bytes that may follow a lead byte of three or four bytes. *)
Definition second3 (b0 b1 : byte) : bool :=
  (if byte_val b0 =? 0xE0 then 0xA0 <=? byte_val b1 else true) &&
  (if byte_val b0 =? 0xED then byte_val b1 <? 0xA0 else true).

Definition second4 (b0 b1 : byte) : bool :=
  (if byte_val b0 =? 0xF0 then 0x90 <=? byte_val b1 else true) &&
  (if byte_val b0 =? 0xF4 then byte_val b1 <? 0x90 else true).

(** [utf8.DecodeRune]: the rune and the bytes it takes. *)
Definition decode_rune (l : list byte) : Z * nat :=
  match l with
  | [] => (RuneError, 0%nat)
  | b0 :: l =>
      let v := byte_val b0 in
      if v <? 0x80 then (v, 1%nat)
      else if (0xC2 <=? v) && (v <? 0xE0) then
        match l with
        | b1 :: _ => if is_cont b1 then ((v - 0xC0) * 64 + (byte_val b1 - 0x80), 2%nat) else (RuneError, 1%nat)
        | _ => (RuneError, 1%nat)
        end
      else if (0xE0 <=? v) && (v <? 0xF0) then
        match l with
        | b1 :: b2 :: _ =>
            if is_cont b1 && is_cont b2 && second3 b0 b1 then
              ((v - 0xE0) * 4096 + (byte_val b1 - 0x80) * 64 + (byte_val b2 - 0x80), 3%nat)
            else (RuneError, 1%nat)
        | _ => (RuneError, 1%nat)
        end
      else if (0xF0 <=? v) && (v <? 0xF5) then
        match l with
        | b1 :: b2 :: b3 :: _ =>
            if is_cont b1 && is_cont b2 && is_cont b3 && second4 b0 b1 then
              ((v - 0xF0) * 262144 + (byte_val b1 - 0x80) * 4096 + (byte_val b2 - 0x80) * 64
                 + (byte_val b3 - 0x80), 4%nat)
            else (RuneError, 1%nat)
        | _ => (RuneError, 1%nat)
        end
      else (RuneError, 1%nat)
  end.

Definition is_surrogate (r : Z) : bool := (0xD800 <=? r) && (r <? 0xE000).

(** [utf8.EncodeRune] *)
Definition encode_rune (r : Z) : list byte :=
  let r := if is_surrogate r || (r <? 0) || (0x10FFFF <? r) then RuneError else r in
  if r <? 0x80 then [byte_of r]
  else if r <? 0x800 then [byte_of (0xC0 + r / 64); byte_of (0x80 + r mod 64)]
  else if r <? 0x10000 then
    [byte_of (0xE0 + r / 4096); byte_of (0x80 + r / 64 mod 64); byte_of (0x80 + r mod 64)]
  else [byte_of (0xF0 + r / 262144); byte_of (0x80 + r / 4096 mod 64); byte_of (0x80 + r / 64 mod 64);
        byte_of (0x80 + r mod 64)].

(** [utf8.Valid]: no byte is an encoding error.  [skip] bytes belong to the rune
    before. *)
Fixpoint utf8_valid (skip : nat) (l : list byte) : bool :=
  match l with
  | [] => true
  | _ :: rest =>
      match skip with
      | S k => utf8_valid k rest
      | O =>
          let '(r, n) := decode_rune l in
          if (r =? RuneError) && (n =? 1)%nat then false else utf8_valid (n - 1) rest
      end
  end.

(** ** String literals *)

(** [0123456789abcdef] *)
Definition hex_digit (v : Z) : byte := byte_of (if v <? 10 then 48 + v else 87 + v).

Definition hex_val (b : byte) : option Z :=
  let v := byte_val b in
  if (48 <=? v) && (v <=? 57) then Some (v - 48)
  else if (97 <=? v) && (v <=? 102) then Some (v - 87)
  else if (65 <=? v) && (v <=? 70) then Some (v - 55)
  else None.

Abbreviation c_quote := Byte.x22.
Abbreviation c_backslash := Byte.x5c.
Abbreviation c_colon := Byte.x3a.

Definition escape_u (r : Z) : list byte :=
  [c_backslash; Byte.x75; hex_digit (r / 4096 mod 16); hex_digit (r / 256 mod 16); hex_digit (r / 16 mod 16);
   hex_digit (r mod 16)].

(** One ASCII character of [appendString], with the HTML escapes. *)
Definition encode_ascii (b : byte) : list byte :=
  let v := byte_val b in
  if (v =? 34) || (v =? 92) then [c_backslash; b]
  else if v =? 8 then [c_backslash; Byte.x62]
  else if v =? 12 then [c_backslash; Byte.x66]
  else if v =? 10 then [c_backslash; Byte.x6e]
  else if v =? 13 then [c_backslash; Byte.x72]
  else if v =? 9 then [c_backslash; Byte.x74]
  else if (v <? 32) || (v =? 60) || (v =? 62) || (v =? 38) then escape_u v
  else [b].

(** [appendString] without its quotes. *)
Fixpoint encode_string (skip : nat) (l : list byte) : list byte :=
  match l with
  | [] => []
  | b :: rest =>
      match skip with
      | S k => encode_string k rest
      | O =>
          if byte_val b <? 0x80 then encode_ascii b ++ encode_string 0 rest
          else
            let '(r, n) := decode_rune l in
            if (r =? RuneError) && (n =? 1)%nat then escape_u RuneError ++ encode_string 0 rest
            else if (r =? 0x2028) || (r =? 0x2029) then escape_u r ++ encode_string (n - 1) rest
            else take n l ++ encode_string (n - 1) rest
      end
  end.

Definition quoted (s : list byte) : list byte := c_quote :: encode_string 0 s ++ [c_quote].

(** The scanner on a string: the text up to the closing quote, and what follows. *)
Fixpoint scan_string (l : list byte) : option (list byte * list byte) :=
  match l with
  | [] => None
  | b :: rest =>
      if byte_val b =? 34 then Some ([], rest)
      else if byte_val b =? 92 then
        match rest with
        | e :: rest' =>
            if bool_decide (byte_val e ∈ [34; 92; 47; 98; 102; 110; 114; 116]) then
              '(s, r) ← scan_string rest'; Some (b :: e :: s, r)
            else if byte_val e =? 117 then
              match rest' with
              | h1 :: h2 :: h3 :: h4 :: rest'' =>
                  _ ← hex_val h1; _ ← hex_val h2; _ ← hex_val h3; _ ← hex_val h4;
                  '(s, r) ← scan_string rest''; Some (b :: e :: h1 :: h2 :: h3 :: h4 :: s, r)
              | _ => None
              end
            else None
        | [] => None
        end
      else if byte_val b <? 32 then None
      else '(s, r) ← scan_string rest; Some (b :: s, r)
  end.

(** [getu4]: the code unit of a [\uXXXX] at the front. *)
Definition getu4 (l : list byte) : option Z :=
  match l with
  | b :: u :: h1 :: h2 :: h3 :: h4 :: _ =>
      if (byte_val b =? 92) && (byte_val u =? 117) then
        a ← hex_val h1; b ← hex_val h2; c ← hex_val h3; d ← hex_val h4;
        Some (a * 4096 + b * 256 + c * 16 + d)
      else None
  | _ => None
  end.

(** [utf16.DecodeRune] *)
Definition utf16_pair (r1 : Z) (r2 : option Z) : option Z :=
  r2 ← r2;
  if (0xD800 <=? r1) && (r1 <? 0xDC00) && (0xDC00 <=? r2) && (r2 <? 0xE000)
  then Some ((r1 - 0xD800) * 1024 + (r2 - 0xDC00) + 0x10000) else None.

(** A short escape. *)
Definition unescape (e : byte) : byte :=
  let v := byte_val e in
  if v =? 98 then Byte.x08 else if v =? 102 then Byte.x0c else if v =? 110 then Byte.x0a
  else if v =? 114 then Byte.x0d else if v =? 116 then Byte.x09 else e.

(** What one step of [unquoteBytes] writes, and the bytes it consumes. *)
Definition unquote_step (l : list byte) : list byte * nat :=
  match l with
  | [] => ([], 1%nat)
  | b :: rest =>
      if byte_val b =? 92 then
        match getu4 l with
        | Some r =>
            if is_surrogate r then
              match utf16_pair r (getu4 (drop 6 l)) with
              | Some d => (encode_rune d, 12%nat)
              | None => (encode_rune RuneError, 6%nat)
              end
            else (encode_rune r, 6%nat)
        | None => match rest with e :: _ => ([unescape e], 2%nat) | [] => ([], 1%nat) end
        end
      else if byte_val b <? 0x80 then ([b], 1%nat)
      else let '(r, n) := decode_rune l in (encode_rune r, n)
  end.

(** [unquoteBytes] on the text of a literal that the scanner accepted. *)
Fixpoint unquote (skip : nat) (l : list byte) : list byte :=
  match l with
  | [] => []
  | _ :: rest =>
      match skip with
      | S k => unquote k rest
      | O => let '(w, n) := unquote_step l in w ++ unquote (n - 1) rest
      end
  end.

(** ** Values *)

(** The literals are kept as they are written; a member also keeps the text of
    its value. *)
#[local] Set Warnings "-register-all".
Inductive json :=
  | JNull
  | JBool (b : bool)
  | JNum (literal : list byte)
  | JStr (literal : list byte)
  | JArr (elements : list json)
  | JObj (members : list (list byte * list byte * json)).

Definition is_space (b : byte) : bool := bool_decide (byte_val b ∈ [32; 9; 13; 10]).

Fixpoint skip_space (l : list byte) : list byte :=
  match l with
  | [] => []
  | b :: rest => if is_space b then skip_space rest else l
  end.

Definition is_digit (b : byte) : bool := (48 <=? byte_val b) && (byte_val b <=? 57).

Fixpoint span_digits (l : list byte) : list byte * list byte :=
  match l with
  | [] => ([], [])
  | b :: rest => if is_digit b then let '(d, r) := span_digits rest in (b :: d, r) else ([], l)
  end.

(** One digit or more. *)
Definition digits1 (l : list byte) : option (list byte * list byte) :=
  let '(d, r) := span_digits l in match d with [] => None | _ => Some (d, r) end.

(** A zero or a number without leading zero. *)
Definition scan_int (l : list byte) : option (list byte * list byte) :=
  match l with
  | [] => None
  | b :: rest => if byte_val b =? 48 then Some ([b], rest) else digits1 l
  end.

Definition scan_frac (l : list byte) : option (list byte * list byte) :=
  match l with
  | b :: rest => if byte_val b =? 46 then '(d, r) ← digits1 rest; Some (b :: d, r) else Some ([], l)
  | [] => Some ([], [])
  end.

Definition scan_exp (l : list byte) : option (list byte * list byte) :=
  match l with
  | b :: rest =>
      if (byte_val b =? 101) || (byte_val b =? 69) then
        match rest with
        | s :: rest' =>
            if (byte_val s =? 43) || (byte_val s =? 45)
            then '(d, r) ← digits1 rest'; Some (b :: s :: d, r)
            else '(d, r) ← digits1 rest; Some (b :: d, r)
        | [] => None
        end
      else Some ([], l)
  | [] => Some ([], [])
  end.

Definition scan_number (l : list byte) : option (list byte * list byte) :=
  let '(sign, l) := match l with
                    | b :: rest => if byte_val b =? 45 then ([b], rest) else ([], l)
                    | [] => ([], l)
                    end in
  '(i, l) ← scan_int l; '(f, l) ← scan_frac l; '(e, l) ← scan_exp l;
  Some (sign ++ i ++ f ++ e, l).

(** A keyword at the front. *)
Definition scan_word (w : string) (v : json) (l : list byte) : option (json * list byte) :=
  if bool_decide (take (strlen w) l = str_bytes w) then Some (v, drop (strlen w) l) else None.

Definition maxNestingDepth : N := 10000.

(** The text of [l] up to [rest]. *)
Definition upto (l rest : list byte) : list byte := take (length l - length rest) l.

(** The parser, with fuel for one call per byte and per value.  [depth] is the
    number of open arrays and objects. *)
Fixpoint parse_value (fuel : nat) (depth : N) (l : list byte) : option (json * list byte) :=
  match fuel with
  | O => None
  | S fuel =>
      match l with
      | [] => None
      | b :: rest =>
          let v := byte_val b in
          if v =? 123 then
            if bool_decide (maxNestingDepth <= depth)%N then None
            else match skip_space rest with
                 | b' :: rest' => if byte_val b' =? 125 then Some (JObj [], rest')
                                  else '(ms, r) ← parse_members fuel (depth + 1) (b' :: rest'); Some (JObj ms, r)
                 | [] => None
                 end
          else if v =? 91 then
            if bool_decide (maxNestingDepth <= depth)%N then None
            else match skip_space rest with
                 | b' :: rest' => if byte_val b' =? 93 then Some (JArr [], rest')
                                  else '(es, r) ← parse_elements fuel (depth + 1) (b' :: rest'); Some (JArr es, r)
                 | [] => None
                 end
          else if v =? 34 then '(s, r) ← scan_string rest; Some (JStr s, r)
          else if v =? 116 then scan_word "true" (JBool true) l
          else if v =? 102 then scan_word "false" (JBool false) l
          else if v =? 110 then scan_word "null" JNull l
          else '(n, r) ← scan_number l; Some (JNum n, r)
      end
  end
with parse_elements (fuel : nat) (depth : N) (l : list byte) : option (list json * list byte) :=
  match fuel with
  | O => None
  | S fuel =>
      '(v, r) ← parse_value fuel depth (skip_space l);
      match skip_space r with
      | b :: r =>
          if byte_val b =? 93 then Some ([v], r)
          else if byte_val b =? 44 then '(es, r) ← parse_elements fuel depth r; Some (v :: es, r)
          else None
      | [] => None
      end
  end
with parse_members (fuel : nat) (depth : N) (l : list byte) :
    option (list (list byte * list byte * json) * list byte) :=
  match fuel with
  | O => None
  | S fuel =>
      match skip_space l with
      | q :: r =>
          if byte_val q =? 34 then
            '(k, r) ← scan_string r;
            match skip_space r with
            | c :: r =>
                if byte_val c =? 58 then
                  let l := skip_space r in
                  '(v, r) ← parse_value fuel depth l;
                  let raw := upto l r in
                  match skip_space r with
                  | b :: r =>
                      if byte_val b =? 125 then Some ([(k, raw, v)], r)
                      else if byte_val b =? 44 then '(ms, r) ← parse_members fuel depth r; Some ((k, raw, v) :: ms, r)
                      else None
                  | [] => None
                  end
                else None
            | [] => None
            end
          else None
      | [] => None
      end
  end.

Definition parse_fuel (l : list byte) : nat := S (2 * length l).

(** A whole text: a value between spaces ([checkValid]). *)
Definition parse (data : list byte) : option json :=
  '(v, r) ← parse_value (parse_fuel (skip_space data)) 0 (skip_space data);
  match skip_space r with [] => Some v | _ => None end.

(** ** Unmarshal and Marshal *)

(** [json.Unmarshal(data, &s)] for a string that is empty. *)
Definition unmarshal_string (data : list byte) : option (list byte) :=
  match parse data with
  | Some (JStr s) => Some (unquote 0 s)
  | Some JNull => Some []
  | _ => None
  end.

(** [appendCompact] with the HTML escapes, on the text of a literal. *)
Fixpoint escape_html (l : list byte) : list byte :=
  match l with
  | [] => []
  | b :: rest =>
      let v := byte_val b in
      match rest with
      | b1 :: b2 :: rest' =>
          if (v =? 0xE2) && (byte_val b1 =? 0x80) && ((byte_val b2 =? 0xA8) || (byte_val b2 =? 0xA9))
          then escape_u (0x2028 + (byte_val b2 - 0xA8)) ++ escape_html rest'
          else (if (v =? 60) || (v =? 62) || (v =? 38) then escape_u v else [b]) ++ escape_html rest
      | _ => (if (v =? 60) || (v =? 62) || (v =? 38) then escape_u v else [b]) ++ escape_html rest
      end
  end.

(** Texts separated by commas. *)
Fixpoint commas (l : list (list byte)) : list byte :=
  match l with
  | [] => []
  | [x] => x
  | x :: l => x ++ Byte.x2c :: commas l
  end.

Definition compact_string (s : list byte) : list byte := c_quote :: escape_html s ++ [c_quote].

Fixpoint compact (v : json) : list byte :=
  match v with
  | JNull => str_bytes "null"
  | JBool true => str_bytes "true"
  | JBool false => str_bytes "false"
  | JNum n => n
  | JStr s => compact_string s
  | JArr es => Byte.x5b :: commas (compact <$> es) ++ [Byte.x5d]
  | JObj ms => Byte.x7b :: commas ((fun m => compact_string m.1.1 ++ Byte.x3a :: compact m.2) <$> ms) ++ [Byte.x7d]
  end.

(** What [Marshal] writes for a struct: its names and the texts of its fields. *)
Definition object_text (fields : list (list byte * list byte)) : list byte :=
  Byte.x7b :: commas ((fun x => quoted x.1 ++ c_colon :: x.2) <$> fields) ++ [Byte.x7d].

(** What [Marshal] writes for a [RawMessage]: nothing valid is an error. *)
Definition marshal_raw (raw : list byte) : option (list byte) := compact <$> parse raw.

(** *** Values without a type *)

(** The order of [strings.Compare]. *)
Fixpoint bytes_le (a b : list byte) : bool :=
  match a, b with
  | [], _ => true
  | _ :: _, [] => false
  | x :: a, y :: b => if byte_val x =? byte_val y then bytes_le a b else byte_val x <? byte_val y
  end.

(** A map from keys to texts, kept in order. *)
Fixpoint put_sorted {A} (k : list byte) (x : A) (l : list (list byte * A)) : list (list byte * A) :=
  match l with
  | [] => [(k, x)]
  | (k', x') :: l' =>
      if bool_decide (k = k') then (k, x) :: l'
      else if bytes_le k k' then (k, x) :: l else (k', x') :: put_sorted k x l'
  end.

Section normal.
(** The text that [strconv] writes for the [float64] next to a number literal,
    [None] if the number is out of range. *)
Context (number_text : list byte -> option (list byte)).

(** [json.Marshal] of what [json.Unmarshal] makes of a value for an [interface{}]:
    the keys of an object are sorted, and the last of equal keys counts. *)
Fixpoint normal (v : json) : option (list byte) :=
  match v with
  | JNull => Some (str_bytes "null")
  | JBool true => Some (str_bytes "true")
  | JBool false => Some (str_bytes "false")
  | JNum n => number_text n
  | JStr s => Some (quoted (unquote 0 s))
  | JArr es =>
      (fun l => Byte.x5b :: commas l ++ [Byte.x5d]) <$>
      (fix all es := match es with
                     | [] => Some []
                     | e :: es => t ← normal e; ts ← all es; Some (t :: ts)
                     end) es
  | JObj ms =>
      (fun l => Byte.x7b :: commas ((fun x => quoted x.1 ++ Byte.x3a :: x.2) <$>
                  fold_left (fun acc x => put_sorted x.1 x.2 acc) l []) ++ [Byte.x7d]) <$>
      (fix all ms := match ms with
                     | [] => Some []
                     | (k, _, v) :: ms => t ← normal v; ts ← all ms; Some ((unquote 0 k, t) :: ts)
                     end) ms
  end.
End normal.

(** *** Numbers *)

Fixpoint dec_digits (fuel : nat) (n : Z) (acc : list byte) : list byte :=
  match fuel with
  | O => acc
  | S fuel =>
      let acc := byte_of (48 + n mod 10) :: acc in
      if n <? 10 then acc else dec_digits fuel (n / 10) acc
  end.

(** The decimal digits of an unsigned number of at most 64 bits. *)
Definition dec (n : Z) : list byte := dec_digits 20 n [].

(** The number that decimal digits denote. *)
Definition dec_val (l : list byte) : Z := fold_left (fun a b => 10 * a + (byte_val b - 48)) l 0.

(** [strconv.ParseUint(s, 10, bits)] *)
Definition ParseUint (bits : Z) (l : list byte) : option Z :=
  if bool_decide (l = []) || negb (forallb is_digit l) then None
  else if dec_val l <? 2 ^ bits then Some (dec_val l) else None.

(** *** Fields of structs *)

(** The field of a key, upper and lower case alike; two signs outside ASCII count
    as the letters S and K. *)
Fixpoint fold_key (l : list byte) : list byte :=
  match l with
  | [] => []
  | b :: l' =>
      let v := byte_val b in
      match l' with
      | b1 :: rest1 =>
          if (v =? 0xC5) && (byte_val b1 =? 0xBF) then Byte.x53 :: fold_key rest1
          else match rest1 with
               | b2 :: rest2 =>
                   if (v =? 0xE2) && (byte_val b1 =? 0x84) && (byte_val b2 =? 0xAA) then Byte.x4b :: fold_key rest2
                   else (if (97 <=? v) && (v <=? 122) then byte_of (v - 32) else b) :: fold_key l'
               | [] => (if (97 <=? v) && (v <=? 122) then byte_of (v - 32) else b) :: fold_key l'
               end
      | [] => [if (97 <=? v) && (v <=? 122) then byte_of (v - 32) else b]
      end
  end.

Definition decode_uint (bits old : Z) (v : json) : option Z :=
  match v with
  | JNum n => ParseUint bits n
  | JNull => Some old
  | _ => None
  end.

Definition decode_text (old : list byte) (v : json) : option (list byte) :=
  match v with
  | JStr s => Some (unquote 0 s)
  | JNull => Some old
  | _ => None
  end.

(** A signed integer of [bits] bits. *)
Definition ParseInt (bits : Z) (l : list byte) : option Z :=
  match l with
  | b :: r =>
      if byte_val b =? 45 then
        v ← ParseUint 64 r; if v <=? 2 ^ (bits - 1) then Some (- v) else None
      else v ← ParseUint 64 l; if v <? 2 ^ (bits - 1) then Some v else None
  | [] => None
  end.

Definition decode_int (bits old : Z) (v : json) : option Z :=
  match v with
  | JNum n => ParseInt bits n
  | JNull => Some old
  | _ => None
  end.

(** [Unmarshal] into a struct: [step] stores one member, and an error in any of
    them is an error of the whole; [null] leaves the struct as it is. *)
Fixpoint decode_all {A} (step : A -> list byte -> list byte -> json -> option A) (x : A)
    (l : list (list byte * list byte * json)) : option A :=
  match l with
  | [] => Some x
  | (k, raw, v) :: l => x ← step x (fold_key (unquote 0 k)) raw v; decode_all step x l
  end.

Definition decode_struct {A} (step : A -> list byte -> list byte -> json -> option A) (zero : A) (data : list byte) :
    option A :=
  match parse data with
  | Some (JObj ms) => decode_all step zero ms
  | Some JNull => Some zero
  | _ => None
  end.

(** ** Base64 *)

(** The character of six bits, and back. *)
Definition b64_char (v : Z) : byte :=
  byte_of (if v <? 26 then 65 + v else if v <? 52 then 71 + v else if v <? 62 then v - 4 else if v =? 62 then 43 else 47).

Definition b64_val (b : byte) : option Z :=
  let v := byte_val b in
  if (65 <=? v) && (v <=? 90) then Some (v - 65)
  else if (97 <=? v) && (v <=? 122) then Some (v - 71)
  else if (48 <=? v) && (v <=? 57) then Some (v + 4)
  else if v =? 43 then Some 62
  else if v =? 47 then Some 63
  else None.

Abbreviation c_pad := Byte.x3d.

(** [base64.StdEncoding.EncodeToString] *)
Fixpoint b64_encode (l : list byte) : list byte :=
  match l with
  | [] => []
  | [x] =>
      let a := byte_val x in
      [b64_char (a / 4); b64_char (a mod 4 * 16); c_pad; c_pad]
  | [x; y] =>
      let a := byte_val x in let b := byte_val y in
      [b64_char (a / 4); b64_char (a mod 4 * 16 + b / 16); b64_char (b mod 16 * 4); c_pad]
  | x :: y :: z :: l =>
      let a := byte_val x in let b := byte_val y in let c := byte_val z in
      b64_char (a / 4) :: b64_char (a mod 4 * 16 + b / 16) :: b64_char (b mod 16 * 4 + c / 64) :: b64_char (c mod 64)
        :: b64_encode l
  end.

(** Groups of four; padding only at the end.  The bits that padding leaves over
    are not checked. *)
Fixpoint b64_groups (l : list byte) : option (list byte) :=
  match l with
  | [] => Some []
  | c0 :: c1 :: c2 :: c3 :: l =>
      a ← b64_val c0; b ← b64_val c1;
      if bool_decide (c2 = c_pad) then
        if bool_decide (c3 = c_pad) && bool_decide (l = []) then Some [byte_of (a * 4 + b / 16)] else None
      else
        c ← b64_val c2;
        if bool_decide (c3 = c_pad) then
          if bool_decide (l = []) then Some [byte_of (a * 4 + b / 16); byte_of (b mod 16 * 16 + c / 4)] else None
        else
          d ← b64_val c3; rest ← b64_groups l;
          Some (byte_of (a * 4 + b / 16) :: byte_of (b mod 16 * 16 + c / 4) :: byte_of (c mod 4 * 64 + d) :: rest)
  | _ => None
  end.

(** [base64.StdEncoding.DecodeString], which ignores line breaks. *)
Definition b64_decode (l : list byte) : option (list byte) :=
  b64_groups (filter (fun b => byte_val b <> 10 /\ byte_val b <> 13) l).

(** A byte slice is read from base64, or from an array of numbers. *)
Definition decode_bytes (v : json) : option (list byte) :=
  match v with
  | JStr s => b64_decode (unquote 0 s)
  | JArr es => mapM (fun e => byte_of <$> decode_uint 8 0 e) es
  | JNull => Some []
  | _ => None
  end.

(** ** UTF-8, proved *)

Ltac byte_facts := repeat match goal with
  | b : byte |- _ => lazymatch goal with
                     | _ : 0 <= byte_val b < 256 |- _ => fail
                     | _ => pose proof (byte_val_range b)
                     end
  end.

(** Decide the comparisons of the goal by arithmetic. *)
Ltac decide_compares :=
  repeat (match goal with
  | |- context [?a <? ?b] => first [rewrite (proj2 (Z.ltb_lt a b)) by lia | rewrite (proj2 (Z.ltb_ge a b)) by lia]
  | |- context [?a <=? ?b] => first [rewrite (proj2 (Z.leb_le a b)) by lia | rewrite (proj2 (Z.leb_gt a b)) by lia]
  | |- context [?a =? ?b] => first [rewrite (proj2 (Z.eqb_eq a b)) by lia | rewrite (proj2 (Z.eqb_neq a b)) by lia]
  end; cbn [andb orb negb]).

(** Read off the comparisons of a guard. *)
Ltac guards := repeat match goal with
  | H : (_ && _) = true |- _ => apply andb_true_iff in H as [? ?]
  | H : (_ <=? _) = true |- _ => apply Z.leb_le in H
  | H : (_ <? _) = true |- _ => apply Z.ltb_lt in H
  | H : is_cont _ = true |- _ => unfold is_cont in H
  end.

Lemma byte_of_eq b z : z = byte_val b -> byte_of z = b.
Proof. intros ->. apply byte_of_val. Qed.

(** A rune that decodes is written back as the bytes it came from, which decode
    to it whatever follows. *)
Lemma decode_rune_spec l r n :
  decode_rune l = (r, n) -> l <> [] -> ~ (r = RuneError /\ n = 1%nat) ->
  (0 < n <= length l)%nat /\ encode_rune r = take n l /\ forall x, decode_rune (take n l ++ x) = (r, n).
Proof.
  intros H Hl Hne. destruct l as [|b0 l]; [done|]. clear Hl. unfold decode_rune in H. byte_facts.
  destruct (byte_val b0 <? 0x80) eqn:H1.
  { simplify_eq. split_and!; [simpl; lia..| |].
    - guards. unfold encode_rune, is_surrogate. decide_compares. simpl. f_equal. by apply byte_of_eq.
    - intros x. simpl. by rewrite H1. }
  destruct ((0xC2 <=? byte_val b0) && (byte_val b0 <? 0xE0)) eqn:H2.
  { destruct l as [|b1 l]; [naive_solver|]. destruct (is_cont b1) eqn:Hc; [|naive_solver]. simplify_eq. byte_facts.
    split_and!; [simpl; lia..| |intros x; simpl; by rewrite H1, H2, Hc].
    guards. unfold encode_rune, is_surrogate. decide_compares. simpl. repeat f_equal; apply byte_of_eq; Z.div_mod_to_equations; lia. }
  destruct ((0xE0 <=? byte_val b0) && (byte_val b0 <? 0xF0)) eqn:H3.
  { destruct l as [|b1 [|b2 l]]; [naive_solver..|]. destruct (is_cont b1 && is_cont b2 && second3 b0 b1) eqn:Hc; [|naive_solver].
    simplify_eq. byte_facts. split_and!; [simpl; lia..| |intros x; simpl; by rewrite H1, H2, H3, Hc].
    unfold second3 in Hc. guards.
    assert (0x800 <= (byte_val b0 - 0xE0) * 4096 + (byte_val b1 - 0x80) * 64 + (byte_val b2 - 0x80) < 0x10000) as Hr.
    { destruct (Z.eqb_spec (byte_val b0) 0xE0); guards; lia. }
    assert (~ (0xD800 <= (byte_val b0 - 0xE0) * 4096 + (byte_val b1 - 0x80) * 64 + (byte_val b2 - 0x80) < 0xE000)) as Hs.
    { destruct (Z.eqb_spec (byte_val b0) 0xED); guards; lia. }
    unfold encode_rune, is_surrogate. set (r := (_ + _)) in *.
    assert ((0xD800 <=? r) && (r <? 0xE000) = false) as ->.
    { apply andb_false_iff. rewrite Z.leb_gt, Z.ltb_ge. lia. }
    decide_compares. simpl. subst r. repeat f_equal; apply byte_of_eq; Z.div_mod_to_equations; lia. }
  destruct ((0xF0 <=? byte_val b0) && (byte_val b0 <? 0xF5)) eqn:H4; [|naive_solver].
  destruct l as [|b1 [|b2 [|b3 l]]]; [naive_solver..|].
  destruct (is_cont b1 && is_cont b2 && is_cont b3 && second4 b0 b1) eqn:Hc; [|naive_solver].
  simplify_eq. byte_facts. split_and!; [simpl; lia..| |intros x; simpl; by rewrite H1, H2, H3, H4, Hc].
  unfold second4 in Hc. guards. unfold encode_rune, is_surrogate. set (r := (_ + _)).
  assert (0x10000 <= r < 0x110000) as Hr.
  { destruct (Z.eqb_spec (byte_val b0) 0xF0), (Z.eqb_spec (byte_val b0) 0xF4); guards; lia. }
  decide_compares. simpl. subst r. repeat f_equal; apply byte_of_eq; Z.div_mod_to_equations; lia.
Qed.

(** ** String literals, proved *)

(** The text [p] of a literal: the scanner passes it and it stands for [w]. *)
Definition stands_for (p w : list byte) : Prop :=
  (forall tail s r, scan_string tail = Some (s, r) -> scan_string (p ++ tail) = Some (p ++ s, r)) /\
  (forall x, unquote 0 (p ++ x) = w ++ unquote 0 x).

Lemma stands_for_app p w p' w' : stands_for p w -> stands_for p' w' -> stands_for (p ++ p') (w ++ w').
Proof.
  intros [H1 H2] [H1' H2']. split.
  - intros tail s r Ht. rewrite <- !app_assoc. by apply H1, H1'.
  - intros x. by rewrite <- !app_assoc, H2, H2'.
Qed.

Lemma unquote_skip a l : unquote (length a) (a ++ l) = unquote 0 l.
Proof. induction a as [|b a IH]; [by destruct l|done]. Qed.

Lemma encode_string_skip a l : encode_string (length a) (a ++ l) = encode_string 0 l.
Proof. induction a as [|b a IH]; [by destruct l|done]. Qed.

Lemma utf8_valid_skip a l : utf8_valid (length a) (a ++ l) = utf8_valid 0 l.
Proof. induction a as [|b a IH]; [by destruct l|done]. Qed.

(** One step over a text of which the first bytes are [p]. *)
Lemma unquote_cons p x w :
  p <> [] -> unquote_step (p ++ x) = (w, length p) -> unquote 0 (p ++ x) = w ++ unquote 0 x.
Proof.
  intros Hp Hs. destruct p as [|b p]; [done|]. cbn [unquote app] in *. rewrite Hs. f_equal.
  replace (length (b :: p) - 1)%nat with (length p) by (simpl; lia). apply unquote_skip.
Qed.

Lemma hex_digit_val v : 0 <= v < 16 -> byte_val (hex_digit v) = if v <? 10 then 48 + v else 87 + v.
Proof. intros Hv. unfold hex_digit. rewrite byte_val_of, Z.mod_small; [done|]. destruct (v <? 10); lia. Qed.

Lemma hex_val_digit v : 0 <= v < 16 -> hex_val (hex_digit v) = Some v.
Proof.
  intros Hv. unfold hex_val. rewrite hex_digit_val by done. destruct (Z.ltb_spec v 10).
  - decide_compares. f_equal. lia.
  - decide_compares. f_equal. lia.
Qed.

Lemma getu4_escape r x : 0 <= r < 0x10000 -> getu4 (escape_u r ++ x) = Some r.
Proof.
  intros Hr. unfold escape_u. cbn [app getu4]. change (byte_val c_backslash =? 92) with true.
  change (byte_val Byte.x75 =? 117) with true. cbv iota. cbn [andb].
  rewrite !hex_val_digit by (apply Z.mod_pos_bound; lia). cbn [mbind option_bind]. f_equal.
  Z.div_mod_to_equations; lia.
Qed.

Lemma stands_for_u r : 0 <= r < 0x10000 -> is_surrogate r = false -> stands_for (escape_u r) (encode_rune r).
Proof.
  intros Hr Hs. split.
  - intros tail s r' Ht. unfold escape_u. cbn [app scan_string]. change (byte_val c_backslash =? 34) with false.
    change (byte_val c_backslash =? 92) with true. change (byte_val Byte.x75 =? 117) with true.
    rewrite bool_decide_eq_false_2 by (by vm_compute; intros; set_solver).
    rewrite !hex_val_digit by (apply Z.mod_pos_bound; lia). cbn [mbind option_bind]. by rewrite Ht.
  - intros x. apply unquote_cons; [done|]. unfold unquote_step. rewrite getu4_escape by done.
    unfold escape_u at 1. cbn [app]. change (byte_val c_backslash =? 92) with true. cbv iota. by rewrite Hs.
Qed.

(** A character that is not escaped. *)
Lemma stands_for_plain b :
  32 <= byte_val b < 128 -> byte_val b <> 34 -> byte_val b <> 92 -> stands_for [b] [b].
Proof.
  intros Hb H1 H2. split.
  - intros tail s r Ht. cbn [app scan_string]. decide_compares. by rewrite Ht.
  - intros x. apply (unquote_cons [b]); [done|]. cbn [app unquote_step]. decide_compares. done.
Qed.

(** A short escape. *)
Lemma stands_for_short e w :
  byte_val e ∈ [34; 92; 47; 98; 102; 110; 114; 116] -> unescape e = w -> stands_for [c_backslash; e] [w].
Proof.
  intros He Hw. split.
  - intros tail s r Ht. cbn [app scan_string]. change (byte_val c_backslash =? 34) with false.
    change (byte_val c_backslash =? 92) with true. cbv iota. rewrite bool_decide_eq_true_2 by done. by rewrite Ht.
  - intros x. apply (unquote_cons [c_backslash; e]); [done|]. cbn [app]. unfold unquote_step.
    change (byte_val c_backslash =? 92) with true. cbv iota.
    assert (getu4 (c_backslash :: e :: x) = None) as ->; [|by rewrite Hw].
    unfold getu4. do 4 (destruct x as [|? x]; [done|]). change (byte_val c_backslash =? 92) with true. cbn [andb].
    assert (byte_val e <> 117) as Hn%Z.eqb_neq by (intros E; rewrite E in He; set_solver). by rewrite Hn.
Qed.

Lemma stands_for_ascii b : byte_val b < 128 -> stands_for (encode_ascii b) [b].
Proof.
  intros Hb. byte_facts. unfold encode_ascii.
  destruct (Z.eqb_spec (byte_val b) 34) as [E|]; [apply stands_for_short; [rewrite E; set_solver|unfold unescape; by rewrite E]|].
  destruct (Z.eqb_spec (byte_val b) 92) as [E|]; [apply stands_for_short; [rewrite E; set_solver|unfold unescape; by rewrite E]|].
  cbn [orb].
  assert (forall z e w, byte_val b = z -> byte_val e ∈ [34; 92; 47; 98; 102; 110; 114; 116] -> unescape e = w -> byte_val w = z ->
            stands_for [c_backslash; e] [b]) as Hshort.
  { intros z e w Hz He Hu Hw. rewrite <- Hw in Hz. apply (inj byte_val) in Hz. subst b. by apply stands_for_short. }
  repeat match goal with
  | |- context [if byte_val b =? ?z then _ else _] =>
      destruct (Z.eqb_spec (byte_val b) z);
      [eapply Hshort; [eassumption|vm_compute; set_solver|reflexivity|reflexivity]|]
  end.
  destruct (_ || _) eqn:E.
  - replace [b] with (encode_rune (byte_val b)).
    + apply stands_for_u; [lia|]. unfold is_surrogate. decide_compares. done.
    + unfold encode_rune, is_surrogate. decide_compares. by rewrite byte_of_val.
  - apply stands_for_plain; [|done..]. rewrite !orb_false_iff in E. destruct E as [[[E _] _] _]. apply Z.ltb_ge in E. lia.
Qed.

(** Bytes that are not ASCII. *)
Lemma scan_high p tail s r :
  Forall (fun b => 128 <= byte_val b) p -> scan_string tail = Some (s, r) -> scan_string (p ++ tail) = Some (p ++ s, r).
Proof.
  intros Hp Ht. induction Hp as [|b p Hb _ IH]; [done|]. cbn [app scan_string]. decide_compares. by rewrite IH.
Qed.

Lemma rune_high l r n :
  decode_rune l = (r, n) -> (forall b l', l = b :: l' -> 128 <= byte_val b) ->
  Forall (fun b => 128 <= byte_val b) (take n l).
Proof.
  intros H Hl. destruct l as [|b0 l]; [by rewrite take_nil|]. specialize (Hl b0 l eq_refl). unfold decode_rune in H.
  revert H. decide_compares. intros H.
  repeat case_match; simplify_eq; guards; cbn [take]; rewrite ?take_0; repeat constructor; guards; lia.
Qed.

Lemma stands_for_rune l r n :
  decode_rune l = (r, n) -> (forall b l', l = b :: l' -> 128 <= byte_val b) -> l <> [] ->
  ~ (r = RuneError /\ n = 1%nat) -> stands_for (take n l) (take n l).
Proof.
  intros Hd Hh Hl Hne. destruct (decode_rune_spec l r n Hd Hl Hne) as (Hn & He & Hx).
  pose proof (rune_high l r n Hd Hh) as Hf. split.
  - intros tail s r' Ht. by apply scan_high.
  - intros x. apply unquote_cons; [intros E%(f_equal length); rewrite length_take in E; simpl in E; lia|].
    specialize (Hx x). destruct (take n l ++ x) as [|b y] eqn:E.
    { apply (f_equal length) in E. rewrite length_app, length_take in E. simpl in E. lia. }
    unfold unquote_step.
    assert (128 <= byte_val b) as Hb.
    { destruct l as [|b0 l]; [done|]. destruct n as [|n]; [lia|]. cbn [take app] in E. simplify_eq. by eapply Hh. }
    decide_compares. rewrite Hx, He, length_take. by rewrite Nat.min_l by lia.
Qed.

(** The text with the replacement character for every byte that is not UTF-8. *)
Fixpoint to_valid (skip : nat) (l : list byte) : list byte :=
  match l with
  | [] => []
  | _ :: rest =>
      match skip with
      | S k => to_valid k rest
      | O =>
          let '(r, n) := decode_rune l in
          if (r =? RuneError) && (n =? 1)%nat then encode_rune RuneError ++ to_valid 0 rest
          else take n l ++ to_valid (n - 1) rest
      end
  end.

Lemma to_valid_skip a l : to_valid (length a) (a ++ l) = to_valid 0 l.
Proof. induction a as [|b a IH]; [by destruct l|done]. Qed.

(** The rest of a text behind the first rune. *)
Lemma skip_rune {A} (f : nat -> list byte -> A) b l n :
  (forall a l, f (length a) (a ++ l) = f 0%nat l) -> (0 < n <= length (b :: l))%nat ->
  f (n - 1)%nat l = f 0%nat (drop n (b :: l)).
Proof.
  intros Hf Hn. destruct n as [|n]; [lia|]. cbn [drop]. rewrite Nat.sub_1_r. cbn [Nat.pred length] in *.
  rewrite <- (take_drop n l) at 1. rewrite <- (Hf (take n l)), length_take. by rewrite Nat.min_l by lia.
Qed.

Lemma to_valid_id l : utf8_valid 0 l = true -> to_valid 0 l = l.
Proof.
  remember (length l) as k eqn:Hk. revert l Hk. induction (lt_wf k) as [k _ IH]. intros l -> Hv.
  destruct l as [|b l]; [done|]. cbn [to_valid utf8_valid] in *. destruct (decode_rune (b :: l)) as [r n] eqn:Hd.
  destruct ((r =? RuneError) && (n =? 1)%nat) eqn:E; [done|].
  destruct (decode_rune_spec (b :: l) r n Hd) as (Hn & _ & _); [done| |].
  { intros [-> ->]. done. }
  rewrite (skip_rune to_valid b l n to_valid_skip Hn). rewrite (skip_rune utf8_valid b l n utf8_valid_skip Hn) in Hv.
  rewrite (IH (length (drop n (b :: l)))); [apply take_drop| |done|done]. rewrite length_drop. lia.
Qed.

Lemma ascii_rune b l : byte_val b < 128 -> decode_rune (b :: l) = (byte_val b, 1%nat).
Proof. intros Hb. cbn [decode_rune]. decide_compares. done. Qed.

(** What [Marshal] writes for a string is scanned as a whole and read back as the
    string, up to bytes that are not UTF-8. *)
Lemma encode_string_stands l : stands_for (encode_string 0 l) (to_valid 0 l).
Proof.
  remember (length l) as k eqn:Hk. revert l Hk. induction (lt_wf k) as [k _ IH]. intros l ->.
  destruct l as [|b l]; [split; [done|by intros x]|]. cbn [encode_string to_valid].
  assert (forall m, (0 < m)%nat -> (length (drop m (b :: l)) < length (b :: l))%nat) as Hlt
    by (intros m Hm; rewrite length_drop; simpl; lia).
  destruct (Z.ltb_spec (byte_val b) 128) as [Hb|Hb].
  - rewrite ascii_rune by done. byte_facts. unfold RuneError. rewrite (proj2 (Z.eqb_neq (byte_val b) _)) by lia.
    cbn [andb take]. rewrite take_0. apply stands_for_app; [by apply stands_for_ascii|].
    apply (IH (length l)); [simpl; lia|done].
  - destruct (decode_rune (b :: l)) as [r n] eqn:Hd. destruct ((r =? RuneError) && (n =? 1)%nat) eqn:E.
    { apply stands_for_app; [by apply stands_for_u|]. apply (IH (length l)); [simpl; lia|done]. }
    assert (~ (r = RuneError /\ n = 1%nat)) as Hne by (by intros [-> ->]).
    destruct (decode_rune_spec (b :: l) r n Hd) as (Hn & He & _); [done..|].
    rewrite (skip_rune encode_string b l n encode_string_skip Hn), (skip_rune to_valid b l n to_valid_skip Hn).
    assert (stands_for (encode_string 0 (drop n (b :: l))) (to_valid 0 (drop n (b :: l)))) as Hrest.
    { apply (IH (length (drop n (b :: l)))); [apply Hlt; lia|done]. }
    destruct ((r =? 0x2028) || (r =? 0x2029)) eqn:Hls; (apply stands_for_app; [|done]).
    + rewrite <- He. apply orb_true_iff in Hls. rewrite !Z.eqb_eq in Hls.
      apply stands_for_u; [lia|]. unfold is_surrogate. by destruct Hls as [-> | ->].
    + apply (stands_for_rune (b :: l) r n); [done| |done|done]. intros b' l' [= -> ->]. done.
Qed.

Lemma scan_quoted s rest :
  scan_string (encode_string 0 s ++ c_quote :: rest) = Some (encode_string 0 s, rest).
Proof. rewrite <- (app_nil_r (encode_string 0 s)) at 2. by apply encode_string_stands. Qed.

Lemma unquote_encode s : unquote 0 (encode_string 0 s) = to_valid 0 s.
Proof. rewrite <- (app_nil_r (encode_string 0 s)). rewrite (proj2 (encode_string_stands s)). apply app_nil_r. Qed.

(** ** Numbers, proved *)

Lemma digit_val n : 0 <= n < 10 -> byte_val (byte_of (48 + n)) = 48 + n.
Proof. intros Hn. rewrite byte_val_of, Z.mod_small; lia. Qed.

Lemma dec_val_snoc l b : dec_val (l ++ [b]) = 10 * dec_val l + (byte_val b - 48).
Proof. unfold dec_val. by rewrite fold_left_app. Qed.

(** The digits: not empty, no leading zero but for zero itself, and the value. *)
Lemma dec_digits_spec fuel n acc :
  0 <= n < 10 ^ Z.of_nat fuel -> (0 < fuel)%nat ->
  exists b ds, dec_digits fuel n acc = (b :: ds) ++ acc /\ Forall (fun b => is_digit b = true) (b :: ds) /\
    dec_val (b :: ds) = n /\ (byte_val b = 48 -> ds = []).
Proof.
  revert n acc. induction fuel as [|fuel IH]; intros n acc Hn Hf; [lia|].
  assert (forall m, 0 <= m < 10 -> is_digit (byte_of (48 + m)) = true) as Hdig.
  { intros m Hm. unfold is_digit. rewrite digit_val by done. decide_compares. done. }
  cbn [dec_digits]. destruct (Z.ltb_spec n 10) as [Hs|Hs].
  - exists (byte_of (48 + n mod 10)), []. rewrite Z.mod_small by lia. split_and!; [done| | |done].
    + constructor; [apply Hdig; lia|constructor].
    + unfold dec_val. cbn [fold_left]. rewrite digit_val by lia. lia.
  - destruct (IH (n / 10) (byte_of (48 + n mod 10) :: acc)) as (b & ds & -> & Hfa & Hv & Hz).
    { rewrite Nat2Z.inj_succ, Z.pow_succ_r in Hn by lia. split; [apply Z.div_pos; lia|]. apply Z.div_lt_upper_bound; lia. }
    { destruct fuel; [simpl in Hn; lia|lia]. }
    exists b, (ds ++ [byte_of (48 + n mod 10)]). split_and!.
    + cbn [app]. by rewrite <- app_assoc.
    + rewrite app_comm_cons. apply Forall_app. split; [done|]. constructor; [apply Hdig, Z.mod_pos_bound; lia|constructor].
    + rewrite app_comm_cons, dec_val_snoc, Hv, digit_val by (apply Z.mod_pos_bound; lia).
      pose proof (Z.div_mod n 10). lia.
    + intros Hb. exfalso. specialize (Hz Hb) as ->. unfold dec_val in Hv. cbn [fold_left] in Hv.
      assert (1 <= n / 10) by (apply Z.div_le_lower_bound; lia). lia.
Qed.

Lemma dec_spec n :
  0 <= n < 2 ^ 64 ->
  exists b ds, dec n = b :: ds /\ Forall (fun b => is_digit b = true) (b :: ds) /\
    dec_val (b :: ds) = n /\ (byte_val b = 48 -> ds = []).
Proof.
  intros Hn. unfold dec. destruct (dec_digits_spec 20 n []) as (b & ds & E & H); [simpl; lia|lia|].
  exists b, ds. by rewrite E, app_nil_r.
Qed.

Lemma ParseUint_dec bits n : 0 <= bits <= 64 -> 0 <= n < 2 ^ bits -> ParseUint bits (dec n) = Some n.
Proof.
  intros Hb Hn. assert (2 ^ bits <= 2 ^ 64) by (apply Z.pow_le_mono_r; lia).
  destruct (dec_spec n) as (b & ds & -> & Hf & Hv & _); [lia|]. unfold ParseUint. rewrite bool_decide_eq_false_2 by done.
  assert (forallb is_digit (b :: ds) = true) as ->.
  { apply forallb_forall. intros x Hx%list_elem_of_In. rewrite Forall_forall in Hf. by apply Hf. }
  cbn [negb orb]. rewrite Hv.
  decide_compares. done.
Qed.

(** What may follow a number. *)
Definition ends_number (rest : list byte) : Prop :=
  match rest with
  | [] => True
  | b :: _ => is_digit b = false /\ byte_val b <> 46 /\ byte_val b <> 101 /\ byte_val b <> 69
  end.

Lemma span_digits_app ds rest :
  Forall (fun b => is_digit b = true) ds -> ends_number rest -> span_digits (ds ++ rest) = (ds, rest).
Proof.
  intros Hd Hr. induction Hd as [|b ds Hb _ IH].
  - destruct rest as [|b rest]; [done|]. cbn [app span_digits]. by rewrite (proj1 Hr).
  - cbn [app span_digits]. by rewrite Hb, IH.
Qed.

Lemma scan_number_dec n rest : 0 <= n < 2 ^ 64 -> ends_number rest -> scan_number (dec n ++ rest) = Some (dec n, rest).
Proof.
  intros Hn Hr. destruct (dec_spec n Hn) as (b & ds & -> & Hf & _ & Hz). apply Forall_cons in Hf as Hfb. destruct Hfb as [Hb _].
  unfold is_digit in Hb. guards. unfold scan_number. cbn [app]. rewrite (proj2 (Z.eqb_neq _ 45)) by lia.
  assert (scan_int (b :: ds ++ rest) = Some (b :: ds, rest)) as ->.
  { unfold scan_int. destruct (Z.eqb_spec (byte_val b) 48) as [E|_]; [by rewrite (Hz E)|].
    unfold digits1. change (b :: ds ++ rest) with ((b :: ds) ++ rest). by rewrite span_digits_app. }
  cbn [mbind option_bind].
  assert (scan_frac rest = Some ([], rest)) as ->.
  { destruct rest as [|c rest]; [done|]. cbn. by rewrite (proj2 (Z.eqb_neq _ 46)) by apply Hr. }
  cbn [mbind option_bind].
  assert (scan_exp rest = Some ([], rest)) as ->.
  { destruct rest as [|c rest]; [done|]. cbn. destruct Hr as (_ & _ & H1 & H2).
    by rewrite (proj2 (Z.eqb_neq _ 101)), (proj2 (Z.eqb_neq _ 69)). }
  cbn [mbind option_bind app]. by rewrite app_nil_r.
Qed.

(** ** The parser, proved *)

Lemma parse_quoted fuel depth s rest :
  parse_value (S fuel) depth (quoted s ++ rest) = Some (JStr (encode_string 0 s), rest).
Proof.
  unfold quoted. cbn [app parse_value]. rewrite <- app_assoc. cbn [app]. change (byte_val c_quote) with 34. cbn.
  by rewrite scan_quoted.
Qed.

Lemma parse_dec fuel depth n rest :
  0 <= n < 2 ^ 64 -> ends_number rest -> parse_value (S fuel) depth (dec n ++ rest) = Some (JNum (dec n), rest).
Proof.
  intros Hn Hr. pose proof (scan_number_dec n rest Hn Hr) as Hs. destruct (dec_spec n Hn) as (b & ds & E & Hf & _).
  rewrite E in *. apply Forall_cons in Hf as [Hb _]. unfold is_digit in Hb. guards. cbn [app parse_value] in *.
  decide_compares. by rewrite Hs.
Qed.

(** *** The fuel is enough *)

Lemma skip_space_length l : (length (skip_space l) <= length l)%nat.
Proof. induction l as [|b l IH]; [done|]. simpl. destruct (is_space b); simpl; lia. Qed.

Lemma skip_space_cons l b r : skip_space l = b :: r -> (length r < length l)%nat.
Proof. intros E. pose proof (skip_space_length l). rewrite E in *. simpl in *. lia. Qed.

Lemma scan_string_length l s r : scan_string l = Some (s, r) -> (length r < length l)%nat.
Proof.
  remember (length l) as k eqn:Hk. revert l s r Hk. induction (lt_wf k) as [k _ IH]. intros l s r ->.
  destruct l as [|b l]; [done|]. cbn [scan_string]. destruct (byte_val b =? 34); [intros; simplify_eq; simpl; lia|].
  assert (forall l' s' r', (length l' < length (b :: l))%nat -> scan_string l' = Some (s', r') -> (length r' < length (b :: l))%nat) as H.
  { intros l' s' r' Hl Hs. pose proof (IH _ Hl l' s' r' eq_refl Hs). lia. }
  destruct (byte_val b =? 92).
  - destruct l as [|e l]; [done|]. case_bool_decide.
    + destruct (scan_string l) as [[s' r']|] eqn:E; intros; simplify_eq/=. eapply H; [|exact E]. simpl. lia.
    + destruct (byte_val e =? 117); [|done]. destruct l as [|h1 [|h2 [|h3 [|h4 l]]]]; try done.
      destruct (hex_val h1), (hex_val h2), (hex_val h3), (hex_val h4); cbn [mbind option_bind]; try done.
      destruct (scan_string l) as [[s' r']|] eqn:E; intros; simplify_eq/=. eapply H; [|exact E]. simpl. lia.
  - destruct (byte_val b <? 32); [done|]. destruct (scan_string l) as [[s' r']|] eqn:E; intros; simplify_eq/=.
    eapply H; [|exact E]. simpl. lia.
Qed.

Lemma span_digits_length l : (length (span_digits l).2 + length (span_digits l).1 = length l)%nat.
Proof. induction l as [|b l IH]; [done|]. simpl. destruct (is_digit b); [|done]. destruct (span_digits l). simpl in *. lia. Qed.

Lemma digits1_length l d r : digits1 l = Some (d, r) -> (length r < length l)%nat.
Proof.
  unfold digits1. pose proof (span_digits_length l) as H. destruct (span_digits l) as [[|x d'] r']; [done|].
  intros [= <- <-]. simpl in H. lia.
Qed.

Lemma scan_number_length l n r : scan_number l = Some (n, r) -> (length r < length l)%nat.
Proof.
  unfold scan_number. set (p := match l with [] => _ | _ => _ end).
  assert (length p.2 <= length l)%nat as Hp by (unfold p; destruct l as [|b l]; [done|destruct (_ =? _); simpl; lia]).
  clearbody p. destruct p as [sign l1]. simpl in Hp.
  destruct (scan_int l1) as [[i l2]|] eqn:E1; [|done]. cbn [mbind option_bind].
  assert (length l2 < length l1)%nat.
  { unfold scan_int in E1. destruct l1 as [|b l1]; [done|]. destruct (_ =? _); [simplify_eq; simpl; lia|by eapply digits1_length]. }
  destruct (scan_frac l2) as [[f l3]|] eqn:E2; [|done]. cbn [mbind option_bind].
  assert (length l3 <= length l2)%nat.
  { unfold scan_frac in E2. destruct l2 as [|b l2]; [by simplify_eq|]. destruct (_ =? _); [|by simplify_eq].
    destruct (digits1 l2) as [[d r']|] eqn:E; simplify_eq/=. apply digits1_length in E. lia. }
  destruct (scan_exp l3) as [[x l4]|] eqn:E3; [|done]. cbn [mbind option_bind]. intros. simplify_eq.
  assert (length r <= length l3)%nat; [|lia].
  unfold scan_exp in E3. destruct l3 as [|b l3]; [by simplify_eq|]. destruct (_ || _); [|by simplify_eq].
  destruct l3 as [|s l3]; [done|].
  destruct (_ || _); destruct (digits1 _) as [[d r']|] eqn:E; simplify_eq/=; apply digits1_length in E; simpl in *; lia.
Qed.

Lemma scan_word_length w v l x r : scan_word w v l = Some (x, r) -> w <> ""%string -> (length r < length l)%nat.
Proof.
  unfold scan_word. case_bool_decide as E; [|done]. intros [= <- <-] Hw. rewrite length_drop.
  assert (0 < strlen w)%nat by (unfold strlen; destruct w; [done|unfold str_bytes; simpl; lia]).
  apply (f_equal length) in E. rewrite length_take in E. unfold strlen in *. lia.
Qed.

(** What is parsed is not empty. *)
Lemma parse_shrinks fuel :
  (forall d l v r, parse_value fuel d l = Some (v, r) -> (length r < length l)%nat) /\
  (forall d l v r, parse_elements fuel d l = Some (v, r) -> (length r < length l)%nat) /\
  (forall d l v r, parse_members fuel d l = Some (v, r) -> (length r < length l)%nat).
Proof.
  induction fuel as [|fuel (IHv & IHe & IHm)]; [done|]. split_and!; intros d l v r.
  - cbn [parse_value]. destruct l as [|b l]; [done|]. destruct (_ =? 123).
    { case_bool_decide; [done|]. destruct (skip_space l) as [|b' l'] eqn:E; [done|]. apply skip_space_cons in E as Hl.
      destruct (_ =? 125); [intros; simplify_eq; simpl; lia|].
      destruct (parse_members _ _ _) as [[ms r']|] eqn:Em; intros; simplify_eq/=. apply IHm in Em. simpl in *. lia. }
    destruct (_ =? 91).
    { case_bool_decide; [done|]. destruct (skip_space l) as [|b' l'] eqn:E; [done|]. apply skip_space_cons in E as Hl.
      destruct (_ =? 93); [intros; simplify_eq; simpl; lia|].
      destruct (parse_elements _ _ _) as [[ms r']|] eqn:Em; intros; simplify_eq/=. apply IHe in Em. simpl in *. lia. }
    destruct (_ =? 34).
    { destruct (scan_string l) as [[s r']|] eqn:E; intros; simplify_eq/=. apply scan_string_length in E. lia. }
    repeat (destruct (_ =? _); [intros E; by apply scan_word_length in E|]).
    destruct (scan_number _) as [[n r']|] eqn:E; intros; simplify_eq/=. by apply scan_number_length in E.
  - cbn [parse_elements]. destruct (parse_value _ _ _) as [[v' r1]|] eqn:E; cbn [mbind option_bind]; [|done].
    apply IHv in E. pose proof (skip_space_length l). destruct (skip_space r1) as [|b r2] eqn:E2; [done|].
    apply skip_space_cons in E2. destruct (_ =? 93); [intros; simplify_eq; lia|]. destruct (_ =? 44); [|done].
    destruct (parse_elements _ _ r2) as [[es r3]|] eqn:E3; intros; simplify_eq/=. apply IHe in E3. lia.
  - cbn [parse_members]. destruct (skip_space l) as [|q l1] eqn:E1; [done|]. apply skip_space_cons in E1.
    destruct (_ =? 34); [|done]. destruct (scan_string l1) as [[k l2]|] eqn:E2; cbn [mbind option_bind]; [|done].
    apply scan_string_length in E2. destruct (skip_space l2) as [|c l3] eqn:E3; [done|]. apply skip_space_cons in E3.
    destruct (_ =? 58); [|done]. destruct (parse_value _ _ _) as [[v' r1]|] eqn:E4; cbn [mbind option_bind]; [|done].
    apply IHv in E4. pose proof (skip_space_length l3). destruct (skip_space r1) as [|b r2] eqn:E5; [done|].
    apply skip_space_cons in E5. destruct (_ =? 125); [intros; simplify_eq; lia|]. destruct (_ =? 44); [|done].
    destruct (parse_members _ _ r2) as [[ms r3]|] eqn:E6; intros; simplify_eq/=. apply IHm in E6. lia.
Qed.

Lemma parse_fuel_stable f1 :
  (forall f2 d l, (2 * length l < f1)%nat -> (2 * length l < f2)%nat -> parse_value f1 d l = parse_value f2 d l) /\
  (forall f2 d l, (2 * length l + 1 < f1)%nat -> (2 * length l + 1 < f2)%nat -> parse_elements f1 d l = parse_elements f2 d l) /\
  (forall f2 d l, (2 * length l + 1 < f1)%nat -> (2 * length l + 1 < f2)%nat -> parse_members f1 d l = parse_members f2 d l).
Proof.
  induction f1 as [|f1 (IHv & IHe & IHm)]; [split_and!; intros; lia|].
  split_and!; intros [|f2] d l H1 H2; try lia.
  - cbn [parse_value]. destruct l as [|b l]; [done|]. simpl in H1, H2.
    assert (forall b' l', skip_space l = b' :: l' -> parse_members f1 (d + 1) (b' :: l') = parse_members f2 (d + 1) (b' :: l')
              /\ parse_elements f1 (d + 1) (b' :: l') = parse_elements f2 (d + 1) (b' :: l')) as Hin.
    { intros b' l' E. apply skip_space_cons in E. split; [apply IHm|apply IHe]; simpl; lia. }
    destruct (skip_space l) as [|b' l']; [done|]. destruct (Hin b' l' eq_refl) as [-> ->]. done.
  - cbn [parse_elements]. pose proof (skip_space_length l). rewrite (IHv f2) by lia.
    destruct (parse_value f2 d (skip_space l)) as [[v r]|] eqn:E; cbn [mbind option_bind]; [|done].
    apply (proj1 (parse_shrinks f2)) in E. destruct (skip_space r) as [|b r'] eqn:E2; [done|]. apply skip_space_cons in E2.
    rewrite (IHe f2 d r') by lia. done.
  - cbn [parse_members]. destruct (skip_space l) as [|q l1] eqn:E1; [done|]. apply skip_space_cons in E1.
    destruct (_ =? 34); [|done]. destruct (scan_string l1) as [[k l2]|] eqn:E2; cbn [mbind option_bind]; [|done].
    apply scan_string_length in E2. destruct (skip_space l2) as [|c l3] eqn:E3; [done|]. apply skip_space_cons in E3.
    destruct (_ =? 58); [|done]. pose proof (skip_space_length l3). rewrite (IHv f2) by lia.
    destruct (parse_value f2 d (skip_space l3)) as [[v r]|] eqn:E4; cbn [mbind option_bind]; [|done].
    apply (proj1 (parse_shrinks f2)) in E4. destruct (skip_space r) as [|b r'] eqn:E5; [done|]. apply skip_space_cons in E5.
    rewrite (IHm f2 d r') by lia. done.
Qed.

(** The parser never runs out of fuel: with more of it the answer is the same. *)
Theorem json_fuel_enough fuel d l :
  (parse_fuel l <= fuel)%nat -> parse_value fuel d l = parse_value (parse_fuel l) d l.
Proof. intros Hf. unfold parse_fuel in *. apply parse_fuel_stable; lia. Qed.

(** A text that starts with a value and ends there. *)
Lemma parse_done fuel data v :
  skip_space data = data -> parse_value fuel 0 data = Some (v, []) -> (parse_fuel data <= fuel)%nat -> parse data = Some v.
Proof.
  intros Hs Hp Hf. unfold parse. rewrite Hs. rewrite <- (json_fuel_enough fuel) by done. by rewrite Hp.
Qed.

(** A string and what [Unmarshal] reads of it. *)
Lemma unmarshal_quoted s : unmarshal_string (quoted s) = Some (to_valid 0 s).
Proof.
  unfold unmarshal_string. rewrite (parse_done (parse_fuel (quoted s)) (quoted s) (JStr (encode_string 0 s))); [|done| |done].
  - by rewrite unquote_encode.
  - rewrite <- (app_nil_r (quoted s)) at 2. unfold parse_fuel. apply parse_quoted.
Qed.

(** *** Objects *)

(** A text that does not start with a space. *)
Definition starts (l : list byte) : Prop := match l with b :: _ => is_space b = false | [] => False end.

Lemma skip_starts l r : starts l -> skip_space (l ++ r) = l ++ r.
Proof. destruct l as [|b l]; [done|]. simpl. by intros ->. Qed.

Lemma starts_dec n : 0 <= n < 2 ^ 64 -> starts (dec n).
Proof.
  intros Hn. destruct (dec_spec n Hn) as (b & ds & -> & Hf & _). apply Forall_cons in Hf as [Hb _]. simpl.
  unfold is_digit in Hb. guards. apply bool_decide_eq_false_2. intros E. repeat (apply elem_of_cons in E as [E|E]; [lia|]).
  by apply not_elem_of_nil in E.
Qed.

(** One member of an object, before the closing brace or a comma. *)
Lemma parse_member f d k text v r b :
  starts text -> parse_value f d (text ++ b :: r) = Some (v, b :: r) -> is_space b = false ->
  parse_members (S f) d (quoted k ++ c_colon :: text ++ b :: r) =
  if byte_val b =? 125 then Some ([(encode_string 0 k, text, v)], r)
  else if byte_val b =? 44
       then '(ms, r) ← parse_members f d r; Some ((encode_string 0 k, text, v) :: ms, r) else None.
Proof.
  intros Hs Hp Hb. cbn [parse_members]. unfold quoted. cbn [app]. rewrite <- app_assoc. cbn [app].
  change (skip_space (c_quote :: ?x)) with (c_quote :: x). change (byte_val c_quote =? 34) with true. cbv iota.
  rewrite scan_quoted. cbn [mbind option_bind]. change (skip_space (c_colon :: ?x)) with (c_colon :: x). cbv iota.
  change (byte_val c_colon =? 58) with true. cbv iota zeta. rewrite skip_starts by done. rewrite Hp. cbn [mbind option_bind].
  assert (upto (text ++ b :: r) (b :: r) = text) as ->.
  { unfold upto. rewrite length_app. replace (length text + length (b :: r) - length (b :: r))%nat with (length text) by lia.
    by rewrite take_app_length. }
  cbn [skip_space]. rewrite Hb. done.
Qed.

(** A text that the parser takes as [v], before a comma or a brace. *)
Definition value_text (t : list byte) (v : json) : Prop :=
  starts t /\
  forall f d b r, b = Byte.x2c \/ b = Byte.x7d -> parse_value (S f) d (t ++ b :: r) = Some (v, b :: r).

Lemma value_quoted s : value_text (quoted s) (JStr (encode_string 0 s)).
Proof. split; [done|]. intros f d b r _. apply parse_quoted. Qed.

Lemma value_dec n : 0 <= n < 2 ^ 64 -> value_text (dec n) (JNum (dec n)).
Proof.
  intros Hn. split; [by apply starts_dec|]. intros f d b r Hb. apply parse_dec; [done|]. by destruct Hb as [-> | ->].
Qed.

(** The members that an object text stands for. *)
Definition members_of (fields : list (list byte * list byte)) (vs : list json) : list (list byte * list byte * json) :=
  zip_with (fun x v => (encode_string 0 x.1, x.2, v)) fields vs.

Lemma parse_fields fields vs n :
  Forall2 (fun x v => value_text x.2 v) fields vs -> fields <> [] ->
  parse_members (S n + length fields) 1 (commas ((fun x => quoted x.1 ++ c_colon :: x.2) <$> fields) ++ [Byte.x7d])
  = Some (members_of fields vs, []).
Proof.
  intros Hf. revert n. induction Hf as [|[k t] v fields vs [Hs Hp] Hf IH]; intros n Hne; [done|].
  cbn [fst snd] in *. rewrite fmap_cons. cbn [fst snd]. change (S n + length ((k, t) :: fields))%nat with (S (n + S (length fields))).
  rewrite Nat.add_succ_r. destruct fields as [|x fields].
  - inv Hf. cbn [fmap list_fmap commas]. rewrite <- app_assoc. cbn [app].
    rewrite (parse_member _ 1 k t v [] Byte.x7d); [done|done| |done]. apply Hp. auto.
  - set (rest := _ <$> x :: fields) in *.
    assert (commas ((quoted k ++ c_colon :: t) :: rest) = (quoted k ++ c_colon :: t) ++ Byte.x2c :: commas rest) as -> by done.
    clearbody rest. rewrite <- !app_assoc. cbn [app].
    rewrite (parse_member _ 1 k t v _ Byte.x2c); [|done| |done]; [|apply Hp; auto].
    change (byte_val Byte.x2c =? 125) with false. change (byte_val Byte.x2c =? 44) with true. cbv iota.
    specialize (IH n ltac:(done)). cbn [Nat.add] in IH. rewrite IH. done.
Qed.

Lemma parse_object fields vs :
  Forall2 (fun x v => value_text x.2 v) fields vs -> fields <> [] ->
  parse (object_text fields) = Some (JObj (members_of fields vs)).
Proof.
  intros Hf Hne. apply (parse_done (S (S (parse_fuel (object_text fields)) + length fields))); [done| |lia].
  generalize (parse_fuel (object_text fields)) as n. intros n. unfold object_text. cbn [parse_value].
  change (byte_val Byte.x7b =? 123) with true. cbv iota. rewrite bool_decide_eq_false_2 by (unfold maxNestingDepth; lia).
  pose proof (parse_fields fields vs n Hf Hne) as Hm. set (body := commas _ ++ _) in *.
  assert (exists x, body = c_quote :: x) as [x Hx].
  { subst body. destruct fields as [|[k t] [|y fields]]; [done| |]; by eexists. }
  rewrite Hx in *. change (skip_space (c_quote :: x)) with (c_quote :: x). cbv iota.
  change (byte_val c_quote =? 125) with false. cbv iota. change (0 + 1)%N with 1%N. by rewrite Hm.
Qed.

(** ** Base64, proved *)

Lemma b64_char_val v : 0 <= v < 64 -> b64_val (b64_char v) = Some v /\ b64_char v <> c_pad /\ b64_char v <> c_colon
  /\ byte_val (b64_char v) <> 10 /\ byte_val (b64_char v) <> 13.
Proof.
  intros Hv. assert (forall n, (n < 64)%nat -> let b := b64_char (Z.of_nat n) in
    bool_decide (b64_val b = Some (Z.of_nat n)) && bool_decide (b <> c_pad) && bool_decide (b <> c_colon)
      && bool_decide (byte_val b <> 10) && bool_decide (byte_val b <> 13) = true) as Hall.
  { intros n Hn. do 64 (destruct n as [|n]; [by vm_compute|]). lia. }
  specialize (Hall (Z.to_nat v) ltac:(lia)). rewrite Z2Nat.id in Hall by lia. cbv zeta in Hall.
  rewrite !andb_true_iff, !bool_decide_eq_true in Hall. tauto.
Qed.

(** Induction by groups of three. *)
Lemma group3_ind (P : list byte -> Prop) :
  P [] -> (forall x, P [x]) -> (forall x y, P [x; y]) -> (forall x y z l, P l -> P (x :: y :: z :: l)) -> forall l, P l.
Proof.
  intros H0 H1 H2 H3 l. remember (length l) as k eqn:Hk. revert l Hk. induction (lt_wf k) as [k _ IH]. intros l ->.
  destruct l as [|x [|y [|z l]]]; auto. apply H3. apply (IH (length l)); [simpl; lia|done].
Qed.

Ltac b64_sextets := repeat match goal with
  | |- context [b64_val (b64_char ?v)] =>
      let H := fresh in assert (0 <= v < 64) as H by (Z.div_mod_to_equations; lia);
      rewrite (proj1 (b64_char_val v H)); cbn [mbind option_bind]; clear H
  | |- context [bool_decide (b64_char ?v = c_pad)] =>
      let H := fresh in assert (0 <= v < 64) as H by (Z.div_mod_to_equations; lia);
      rewrite (bool_decide_eq_false_2 (b64_char v = c_pad)) by apply (b64_char_val v H); clear H
  end.

Lemma b64_groups_encode l : b64_groups (b64_encode l) = Some l.
Proof.
  induction l as [|x|x y|x y z l IH] using group3_ind; [done|..]; byte_facts; cbn [b64_encode b64_groups]; b64_sextets.
  - simpl. do 2 f_equal. apply byte_of_eq. Z.div_mod_to_equations; lia.
  - simpl. do 2 f_equal; [|f_equal]; apply byte_of_eq; Z.div_mod_to_equations; lia.
  - rewrite IH. cbn [mbind option_bind]. f_equal.
    f_equal; [|f_equal; [|f_equal]]; apply byte_of_eq; Z.div_mod_to_equations; lia.
Qed.

Lemma b64_encode_chars l : Forall (fun b => b <> c_colon /\ byte_val b <> 10 /\ byte_val b <> 13) (b64_encode l).
Proof.
  assert (forall v, 0 <= v < 64 -> b64_char v <> c_colon /\ byte_val (b64_char v) <> 10 /\ byte_val (b64_char v) <> 13) as Hc
    by (intros v Hv; pose proof (b64_char_val v Hv); tauto).
  induction l as [|x|x y|x y z l IH] using group3_ind; byte_facts; cbn [b64_encode];
    repeat constructor; try done; apply Hc; Z.div_mod_to_equations; lia.
Qed.

Lemma b64_roundtrip l : b64_decode (b64_encode l) = Some l.
Proof.
  unfold b64_decode. rewrite filter_all; [apply b64_groups_encode|]. intros b Hb.
  pose proof (b64_encode_chars l) as Hf. rewrite Forall_forall in Hf. by apply Hf.
Qed.

(** ASCII is UTF-8. *)
Lemma utf8_ascii l : Forall (fun b => byte_val b < 128) l -> utf8_valid 0 l = true.
Proof.
  induction 1 as [|b l Hb _ IH]; [done|]. cbn [utf8_valid]. rewrite ascii_rune by done. byte_facts. unfold RuneError.
  rewrite (proj2 (Z.eqb_neq (byte_val b) _)) by lia. done.
Qed.

Lemma b64_ascii l : Forall (fun b => byte_val b < 128) (b64_encode l).
Proof.
  assert (forall v, 0 <= v < 64 -> byte_val (b64_char v) < 128) as Hc.
  { intros v Hv. unfold b64_char. rewrite byte_val_of, Z.mod_small; repeat case_match; lia. }
  induction l as [|x|x y|x y z l IH] using group3_ind; byte_facts; cbn [b64_encode];
    repeat constructor; try done; apply Hc; Z.div_mod_to_equations; lia.
Qed.

(** A byte slice that was written in base64. *)
Lemma decode_bytes_quoted x : decode_bytes (JStr (encode_string 0 (b64_encode x))) = Some x.
Proof.
  cbn [decode_bytes]. rewrite unquote_encode, to_valid_id by apply utf8_ascii, b64_ascii. apply b64_roundtrip.
Qed.

Lemma ParseInt_dec bits n : 0 < bits <= 64 -> 0 <= n < 2 ^ (bits - 1) -> ParseInt bits (dec n) = Some n.
Proof.
  intros Hb Hn. assert (2 ^ (bits - 1) <= 2 ^ 63) by (apply Z.pow_le_mono_r; lia).
  pose proof (ParseUint_dec 64 n ltac:(lia) ltac:(lia)) as Hp.
  destruct (dec_spec n) as (b & ds & E & Hf & _); [lia|]. rewrite E in *. apply Forall_cons in Hf as [Hd _].
  unfold is_digit in Hd. guards. unfold ParseInt. rewrite (proj2 (Z.eqb_neq _ 45)) by lia. rewrite Hp. cbn [mbind option_bind].
  decide_compares. done.
Qed.

(** *** Lengths *)

Lemma encode_string_length skip l : (length (encode_string skip l) <= 6 * length l)%nat.
Proof.
  assert (forall b, (length (encode_ascii b) <= 6)%nat) as Ha.
  { intros b. unfold encode_ascii. repeat (destruct (_ || _) || destruct (_ =? _)); simpl; lia. }
  assert (forall l, ((decode_rune l).2 <= 4)%nat) as Hd.
  { intros l'. unfold decode_rune. repeat case_match; simpl; lia. }
  revert skip. induction l as [|b l IH]; intros skip; [simpl; lia|]. cbn [encode_string]. destruct skip as [|k].
  - destruct (byte_val b <? 128).
    + specialize (Ha b). specialize (IH 0%nat). rewrite length_app. simpl. lia.
    + specialize (Hd (b :: l)). destruct (decode_rune (b :: l)) as [r n]. simpl in Hd.
      pose proof (IH 0%nat). pose proof (IH (n - 1)%nat).
      repeat destruct (_ : bool); rewrite length_app, ?length_take; simpl; lia.
  - specialize (IH k). simpl. lia.
Qed.

Lemma quoted_length l : (length (quoted l) <= 6 * length l + 2)%nat.
Proof. unfold quoted. pose proof (encode_string_length 0 l). simpl. rewrite length_app. simpl. lia. Qed.

Lemma b64_length l : (length (b64_encode l) <= 2 * length l + 4)%nat.
Proof. induction l as [|x|x y|x y z l IH] using group3_ind; cbn [b64_encode length]; lia. Qed.

Lemma b64_length_exact l : length (b64_encode l) = (4 * ((length l + 2) / 3))%nat.
Proof.
  induction l as [|x|x y|x y z l IH] using group3_ind; [done..|]. cbn [b64_encode length]. rewrite IH.
  replace (S (S (S (length l))) + 2)%nat with (length l + 2 + 1 * 3)%nat by lia. rewrite Nat.div_add by lia. lia.
Qed.

Lemma dec_length n : (length (dec n) <= 20)%nat.
Proof.
  assert (forall f n acc, (length (dec_digits f n acc) <= f + length acc)%nat) as H.
  { intros f. induction f as [|f IH]; intros m acc; [simpl; lia|]. cbn [dec_digits]. destruct (m <? 10); [simpl; lia|].
    specialize (IH (m / 10) (byte_of (48 + m mod 10) :: acc)). simpl in *. lia. }
  exact (H 20%nat n []).
Qed.

(** The length of an object, of which [n] bounds the fields. *)
Lemma object_text_length fields n :
  Forall (fun x => (length (quoted x.1) + length x.2 <= n)%nat) fields ->
  (length (object_text fields) <= 2 + length fields * (n + 2))%nat.
Proof.
  intros Hf. unfold object_text. cbn [length]. rewrite length_app. cbn [length].
  assert (length (commas ((fun x => quoted x.1 ++ c_colon :: x.2) <$> fields)) <= length fields * (n + 2))%nat; [|lia].
  induction Hf as [|x fields Hx _ IH]; [simpl; lia|]. rewrite fmap_cons. destruct fields as [|y fields].
  - cbn [fmap list_fmap commas length]. rewrite length_app. cbn [length]. lia.
  - rewrite fmap_cons in *. set (rest := (quoted y.1 ++ _) :: _) in *. assert (commas ((quoted x.1 ++ c_colon :: x.2) :: rest) =
      (quoted x.1 ++ c_colon :: x.2) ++ Byte.x2c :: commas rest) as -> by done. clearbody rest.
    rewrite !length_app. cbn [length] in *. lia.
Qed.

(** *** Objects within objects *)

(** The end of a value: of the text, of a member or of an object. *)
Definition ends_value (r : list byte) : Prop :=
  match r with [] => True | b :: _ => b = Byte.x2c \/ b = Byte.x7d end.

(** A text that the parser takes as [v] with fuel [m], with room for [k] more open
    objects. *)
Definition nested (m : nat) (k : N) (t : list byte) (v : json) : Prop :=
  starts t /\
  forall f d r, (m <= f)%nat -> (d + k <= maxNestingDepth)%N -> ends_value r -> parse_value f d (t ++ r) = Some (v, r).

Lemma nested_quoted s k : nested 1 k (quoted s) (JStr (encode_string 0 s)).
Proof. split; [done|]. intros [|f] d r Hf _ _; [lia|]. apply parse_quoted. Qed.

Lemma nested_dec n k : 0 <= n < 2 ^ 64 -> nested 1 k (dec n) (JNum (dec n)).
Proof.
  intros Hn. split; [by apply starts_dec|]. intros [|f] d r Hf _ Hr; [lia|]. apply parse_dec; [done|].
  destruct r as [|b r]; [done|]. by destruct Hr as [-> | ->].
Qed.

Lemma nested_mono m m' k t v : (m <= m')%nat -> nested m k t v -> nested m' k t v.
Proof. intros Hm [Hs Hp]. split; [done|]. intros f d r Hf. apply Hp. lia. Qed.

Lemma parse_nested_fields m k d fields vs n rest :
  Forall2 (fun x v => nested m k x.2 v) fields vs -> fields <> [] -> (d + k <= maxNestingDepth)%N ->
  parse_members (S (m + n) + length fields) d
    (commas ((fun x => quoted x.1 ++ c_colon :: x.2) <$> fields) ++ Byte.x7d :: rest)
  = Some (members_of fields vs, rest).
Proof.
  intros Hf Hne Hd. induction Hf as [|[key t] v fields vs [Hs Hp] Hf IH]; [done|].
  cbn [fst snd] in *. rewrite fmap_cons. cbn [fst snd].
  change (S (m + n) + length ((key, t) :: fields))%nat with (S (m + n + S (length fields))).
  destruct fields as [|x fields].
  - inv Hf. cbn [fmap list_fmap commas]. rewrite <- app_assoc. cbn [app].
    rewrite (parse_member _ d key t v rest Byte.x7d); [done|done| |done]. apply Hp; [lia|done|by right].
  - set (more := _ <$> x :: fields) in *.
    assert (commas ((quoted key ++ c_colon :: t) :: more) = (quoted key ++ c_colon :: t) ++ Byte.x2c :: commas more) as -> by done.
    clearbody more. rewrite <- !app_assoc. cbn [app].
    rewrite (parse_member _ d key t v _ Byte.x2c); [|done| |done]; [|apply Hp; [lia|done|by left]].
    change (byte_val Byte.x2c =? 125) with false. change (byte_val Byte.x2c =? 44) with true. cbv iota.
    specialize (IH ltac:(done)).
    replace (m + n + S (length (x :: fields)))%nat with (S (m + n) + length (x :: fields))%nat by (cbn [length]; lia).
    by rewrite IH.
Qed.

Lemma nested_object m k fields vs :
  Forall2 (fun x v => nested m k x.2 v) fields vs -> fields <> [] ->
  nested (S (S m + length fields)) (k + 1) (object_text fields) (JObj (members_of fields vs)).
Proof.
  intros Hf Hne. split; [done|]. intros f d r Hfuel Hd _. unfold object_text.
  destruct f as [|f]; [lia|]. cbn [app parse_value]. change (byte_val Byte.x7b =? 123) with true. cbv iota.
  rewrite bool_decide_eq_false_2 by lia. rewrite <- app_assoc. cbn [app].
  replace f with (S (m + (f - S (m + length fields))) + length fields)%nat by lia.
  pose proof (parse_nested_fields m k (d + 1)%N fields vs (f - S (m + length fields)) r Hf Hne ltac:(lia)) as Hm.
  set (body := commas _ ++ _) in *.
  assert (exists x, body = c_quote :: x) as [x Hx].
  { subst body. destruct fields as [|[key t] [|y fields]]; [done| |]; by eexists. }
  rewrite Hx in *. change (skip_space (c_quote :: x)) with (c_quote :: x). cbv iota.
  change (byte_val c_quote =? 125) with false. cbv iota. by rewrite Hm.
Qed.

Lemma parse_nested m k t v : nested m k t v -> (k <= maxNestingDepth)%N -> parse t = Some v.
Proof.
  intros [Hs Hp] Hk. apply (parse_done (m + parse_fuel t)); [|rewrite <- (app_nil_r t) at 2; by apply Hp; [lia|..]|lia].
  rewrite <- (app_nil_r t). by apply skip_starts.
Qed.

(** *** Compact texts *)

(** A byte that [escape_html] leaves alone wherever it stands. *)
Definition plain_byte (b : byte) : Prop := byte_val b <> 60 /\ byte_val b <> 62 /\ byte_val b <> 38 /\ byte_val b <> 0xE2.

Lemma escape_html_plain p x : Forall plain_byte p -> escape_html (p ++ x) = p ++ escape_html x.
Proof.
  intros Hp. induction Hp as [|b p (H1 & H2 & H3 & H4) _ IH]; [done|]. cbn [app escape_html]. rewrite IH.
  rewrite (proj2 (Z.eqb_neq _ 60)), (proj2 (Z.eqb_neq _ 62)), (proj2 (Z.eqb_neq _ 38)), (proj2 (Z.eqb_neq _ 0xE2)) by done.
  cbn [andb orb]. by destruct (p ++ x) as [|b1 [|b2 y]].
Qed.

Lemma plain_ascii p : Forall (fun b => byte_val b < 128 /\ byte_val b <> 60 /\ byte_val b <> 62 /\ byte_val b <> 38) p -> Forall plain_byte p.
Proof. intros Hp. eapply Forall_impl; [exact Hp|]. intros b (? & ? & ? & ?). split_and!; lia. Qed.

Lemma hex_digit_plain v : 0 <= v < 16 -> plain_byte (hex_digit v).
Proof. intros Hv. unfold plain_byte. rewrite hex_digit_val by done. destruct (v <? 10) eqn:E; guards; lia. Qed.

Lemma escape_u_plain r : Forall plain_byte (escape_u r).
Proof.
  unfold escape_u. repeat (apply Forall_cons_2; [first [by vm_compute | apply hex_digit_plain, Z.mod_pos_bound; lia]|]). apply Forall_nil_2.
Qed.

Lemma encode_ascii_plain b : byte_val b < 128 -> Forall plain_byte (encode_ascii b).
Proof.
  intros Hb. unfold encode_ascii. repeat case_match; try apply escape_u_plain;
    repeat (apply Forall_cons_2; [|]); try apply Forall_nil_2; try (by vm_compute); unfold plain_byte;
    repeat match goal with H : (_ || _) = false |- _ => apply orb_false_iff in H as [? ?] end;
    repeat match goal with H : (_ || _) = true |- _ => apply orb_true_iff in H end;
    repeat match goal with H : (_ =? _) = false |- _ => apply Z.eqb_neq in H end;
    repeat match goal with H : (_ =? _) = true \/ _ |- _ => rewrite !Z.eqb_eq in H end; lia.
Qed.

(** A rune outside ASCII that is no line or paragraph separator. *)
Lemma escape_html_rune b l r n x :
  decode_rune (b :: l) = (r, n) -> 128 <= byte_val b -> ~ (r = RuneError /\ n = 1%nat) -> r <> 0x2028 -> r <> 0x2029 ->
  escape_html (take n (b :: l) ++ x) = take n (b :: l) ++ escape_html x.
Proof.
  intros Hd Hb Hne H1 H2. pose proof (rune_high (b :: l) r n Hd ltac:(by intros ? ? [= -> ->])) as Hhigh.
  destruct (Z.eq_dec (byte_val b) 0xE2) as [E|E].
  - unfold decode_rune in Hd. rewrite E in Hd. cbn in Hd.
    destruct l as [|b1 [|b2 l]]; [naive_solver..|]. destruct (is_cont b1 && is_cont b2 && second3 b b1) eqn:Hc; [|naive_solver].
    guards. injection Hd as <- <-. cbn [take app].
    assert (Forall plain_byte [b1; b2]) as Hp by (repeat constructor; lia).
    pose proof (escape_html_plain [b1; b2] x Hp) as Hx. cbn [app] in Hx. rewrite take_0 in *.
    cbn [app]. cbn [escape_html] in Hx |- *. rewrite E. cbn [Z.eqb Pos.eqb andb orb].
    replace ((byte_val b1 =? 128) && ((byte_val b2 =? 168) || (byte_val b2 =? 169))) with false.
    + cbn [app]. f_equal. exact Hx.
    + symmetry. apply andb_false_iff. rewrite orb_false_iff, !Z.eqb_neq. lia.
  - apply escape_html_plain. destruct n as [|n]; [constructor|]. cbn [take] in *. apply Forall_cons in Hhigh as [_ Hhigh].
    constructor; [split_and!; lia|]. clear -Hd Hb Hhigh. unfold decode_rune in Hd. revert Hd. decide_compares. intros Hd.
    repeat case_match; simplify_eq; guards; cbn [take]; rewrite ?take_0; repeat constructor; guards; lia.
Qed.

Lemma escape_html_encode l : escape_html (encode_string 0 l) = encode_string 0 l.
Proof.
  remember (length l) as k eqn:Hk. revert l Hk. induction (lt_wf k) as [k _ IH]. intros l ->.
  destruct l as [|b l]; [done|]. cbn [encode_string].
  assert (forall m, (0 < m)%nat -> (length (drop m (b :: l)) < length (b :: l))%nat) as Hlt
    by (intros m Hm; rewrite length_drop; simpl; lia).
  destruct (Z.ltb_spec (byte_val b) 128) as [Hb|Hb].
  - rewrite escape_html_plain by (by apply encode_ascii_plain). f_equal. apply (IH (length l)); [simpl; lia|done].
  - destruct (decode_rune (b :: l)) as [r n] eqn:Hd. destruct ((r =? RuneError) && (n =? 1)%nat) eqn:E.
    { rewrite escape_html_plain by apply escape_u_plain. f_equal. apply (IH (length l)); [simpl; lia|done]. }
    assert (~ (r = RuneError /\ n = 1%nat)) as Hne by (by intros [-> ->]).
    destruct (decode_rune_spec (b :: l) r n Hd) as (Hn & He & _); [done..|].
    rewrite (skip_rune encode_string b l n encode_string_skip Hn).
    assert (escape_html (encode_string 0 (drop n (b :: l))) = encode_string 0 (drop n (b :: l))) as Hrest.
    { apply (IH (length (drop n (b :: l)))); [apply Hlt; lia|done]. }
    destruct ((r =? 0x2028) || (r =? 0x2029)) eqn:Hls.
    + rewrite escape_html_plain by apply escape_u_plain. by f_equal.
    + apply orb_false_iff in Hls as [H1%Z.eqb_neq H2%Z.eqb_neq]. rewrite (escape_html_rune b l r n) by done. by f_equal.
Qed.

(** What [Marshal] writes for a raw text that is an object of compact values. *)
Lemma compact_object fields vs :
  Forall2 (fun x v => compact v = x.2) fields vs -> compact (JObj (members_of fields vs)) = object_text fields.
Proof.
  intros Hf. cbn [compact]. unfold object_text, members_of. do 3 f_equal. induction Hf as [|[k t] v fields vs Hx _ IH]; [done|].
  cbn [zip_with fmap list_fmap fst snd] in *. rewrite IH, Hx. f_equal. unfold compact_string, quoted. by rewrite escape_html_encode.
Qed.

Lemma compact_quoted s : compact (JStr (encode_string 0 s)) = quoted s.
Proof. cbn [compact]. unfold compact_string, quoted. by rewrite escape_html_encode. Qed.

(** *** Text made valid *)

Lemma utf8_valid_rune l r n x :
  decode_rune l = (r, n) -> l <> [] -> ~ (r = RuneError /\ n = 1%nat) -> utf8_valid 0 (take n l ++ x) = utf8_valid 0 x.
Proof.
  intros Hd Hl Hne. destruct (decode_rune_spec l r n Hd Hl Hne) as (Hn & _ & Hx). specialize (Hx x).
  assert (length (take n l) = n) as Hlen by (rewrite length_take; lia).
  destruct (take n l) as [|b p] eqn:E; [simpl in Hlen; lia|]. cbn [app utf8_valid] in *. rewrite Hx.
  destruct ((r =? RuneError) && (n =? 1)%nat) eqn:E'.
  { apply andb_true_iff in E' as [?%Z.eqb_eq ?%Nat.eqb_eq]. naive_solver. }
  replace (n - 1)%nat with (length p) by (simpl in Hlen; lia). apply utf8_valid_skip.
Qed.

Lemma to_valid_valid l : utf8_valid 0 (to_valid 0 l) = true.
Proof.
  remember (length l) as k eqn:Hk. revert l Hk. induction (lt_wf k) as [k _ IH]. intros l ->.
  destruct l as [|b l]; [done|]. cbn [to_valid]. destruct (decode_rune (b :: l)) as [r n] eqn:Hd.
  destruct ((r =? RuneError) && (n =? 1)%nat) eqn:E.
  { change (encode_rune RuneError) with (take 3 (encode_rune RuneError)).
    rewrite (utf8_valid_rune _ RuneError 3); [|done|done|by intros [_ ?]]. apply (IH (length l)); [simpl; lia|done]. }
  assert (~ (r = RuneError /\ n = 1%nat)) as Hne by (by intros [-> ->]).
  destruct (decode_rune_spec (b :: l) r n Hd) as (Hn & _ & _); [done..|].
  rewrite (utf8_valid_rune _ r n) by done. rewrite (skip_rune to_valid b l n to_valid_skip Hn).
  apply (IH (length (drop n (b :: l)))); [rewrite length_drop; simpl; lia|done].
Qed.

Lemma to_valid_idem l : to_valid 0 (to_valid 0 l) = to_valid 0 l.
Proof. apply to_valid_id, to_valid_valid. Qed.

(** *** More text behind a value *)

Lemma skip_space_app l b r x : skip_space l = b :: r -> skip_space (l ++ x) = b :: r ++ x.
Proof. induction l as [|a l IH]; [done|]. cbn [skip_space app]. destruct (is_space a); [done|]. by intros [= -> ->]. Qed.

Lemma scan_string_app l s r x : scan_string l = Some (s, r) -> scan_string (l ++ x) = Some (s, r ++ x).
Proof.
  remember (length l) as k eqn:Hk. revert l s r Hk. induction (lt_wf k) as [k _ IH]. intros l s r ->.
  assert (forall l' s' r', (length l' < length l)%nat -> scan_string l' = Some (s', r') -> scan_string (l' ++ x) = Some (s', r' ++ x)) as H.
  { intros l' s' r' Hl. by apply (IH (length l')). }
  clear IH. destruct l as [|b l]; [done|]. cbn [scan_string app]. destruct (byte_val b =? 34); [by intros [= <- <-]|].
  destruct (byte_val b =? 92).
  - destruct l as [|e l]; [done|]. cbn [app]. case_bool_decide.
    + destruct (scan_string l) as [[s' r']|] eqn:E; intros; simplify_eq/=. rewrite (H l s' r) by (done || simpl; lia). done.
    + destruct (byte_val e =? 117); [|done]. destruct l as [|h1 [|h2 [|h3 [|h4 l]]]]; try done. cbn [app].
      destruct (hex_val h1), (hex_val h2), (hex_val h3), (hex_val h4); cbn [mbind option_bind]; try done.
      destruct (scan_string l) as [[s' r']|] eqn:E; intros; simplify_eq/=. rewrite (H l s' r) by (done || simpl; lia). done.
  - destruct (byte_val b <? 32); [done|]. destruct (scan_string l) as [[s' r']|] eqn:E; intros; simplify_eq/=.
    rewrite (H l s' r) by (done || simpl; lia). done.
Qed.

Lemma digits1_app l d r x : digits1 l = Some (d, r) -> r <> [] -> digits1 (l ++ x) = Some (d, r ++ x).
Proof.
  intros Hd Hr. assert (forall d r, span_digits l = (d, r) -> r <> [] -> span_digits (l ++ x) = (d, r ++ x)) as H.
  { clear. induction l as [|b l IH]; intros d r E Hr; cbn [span_digits app] in *; [by simplify_eq|]. destruct (is_digit b); [|by simplify_eq].
    destruct (span_digits l) as [d' r'] eqn:Hs. simplify_eq. by rewrite (IH d' r). }
  unfold digits1 in *. destruct (span_digits l) as [d' r'] eqn:Hs. destruct d' as [|y d']; [done|]. injection Hd as <- <-.
  by rewrite (H (y :: d') r').
Qed.

Lemma scan_int_app l i r x : scan_int l = Some (i, r) -> r <> [] -> scan_int (l ++ x) = Some (i, r ++ x).
Proof.
  destruct l as [|b l]; [done|]. intros E Hr. pose proof (digits1_app (b :: l) i r x) as Hd. unfold scan_int in *. cbn [app] in *.
  destruct (_ =? _); [by simplify_eq|by apply Hd].
Qed.

Lemma scan_frac_app l f r x : scan_frac l = Some (f, r) -> r <> [] -> scan_frac (l ++ x) = Some (f, r ++ x).
Proof.
  destruct l as [|b l]; intros E Hr; unfold scan_frac in *; cbn [app] in *; [by simplify_eq|].
  destruct (_ =? _); [|by simplify_eq]. destruct (digits1 l) as [[d r']|] eqn:Hd; simplify_eq/=. by rewrite (digits1_app l d r).
Qed.

Lemma scan_exp_app l e r x : scan_exp l = Some (e, r) -> r <> [] -> scan_exp (l ++ x) = Some (e, r ++ x).
Proof.
  destruct l as [|b l]; intros E Hr; unfold scan_exp in *; cbn [app] in *; [by simplify_eq|].
  destruct (_ || _); [|by simplify_eq]. destruct l as [|s l]; [done|]. cbn [app].
  destruct (_ || _).
  - destruct (digits1 l) as [[d r']|] eqn:Hd; simplify_eq/=. by rewrite (digits1_app l d r).
  - destruct (digits1 (s :: l)) as [[d r']|] eqn:Hd; simplify_eq/=.
    pose proof (digits1_app (s :: l) d r x Hd Hr) as E. cbn [app] in E. by rewrite E.
Qed.

Lemma scan_number_app l n r x : scan_number l = Some (n, r) -> r <> [] -> scan_number (l ++ x) = Some (n, r ++ x).
Proof.
  unfold scan_number. intros E Hr.
  set (p := match l with [] => _ | _ => _ end) in E. set (q := match l ++ x with [] => _ | _ => _ end).
  assert (p.2 <> [] -> q = (p.1, p.2 ++ x)) as Hq.
  { unfold p, q. destruct l as [|b l]; [done|]. cbn [app]. by destruct (_ =? _). }
  clearbody p q. destruct p as [sign l1]. cbn [fst snd] in Hq.
  destruct (scan_int l1) as [[i l2]|] eqn:E1; [|done]. cbn [mbind option_bind] in E.
  destruct (scan_frac l2) as [[f l3]|] eqn:E2; [|done]. cbn [mbind option_bind] in E.
  destruct (scan_exp l3) as [[e l4]|] eqn:E3; [|done]. cbn [mbind option_bind] in E. simplify_eq.
  assert (l3 <> []) as H3 by (intros ->; simplify_eq/=).
  assert (l2 <> []) as H2 by (intros ->; simplify_eq/=).
  assert (l1 <> []) as H1 by (intros ->; simplify_eq/=).
  rewrite Hq, (scan_int_app l1 i l2) by done. cbn [mbind option_bind]. rewrite (scan_frac_app l2 f l3) by done.
  cbn [mbind option_bind]. by rewrite (scan_exp_app l3 e r).
Qed.

Lemma scan_word_app w v l y r x : scan_word w v l = Some (y, r) -> scan_word w v (l ++ x) = Some (y, r ++ x).
Proof.
  unfold scan_word. case_bool_decide as E; [|done]. intros [= <- <-].
  assert (strlen w <= length l)%nat as Hl.
  { apply (f_equal length) in E. rewrite length_take in E. unfold strlen in *. lia. }
  rewrite take_app_le, drop_app_le by done. by rewrite bool_decide_eq_true_2.
Qed.

Lemma upto_app l r x : (length r <= length l)%nat -> upto (l ++ x) (r ++ x) = upto l r.
Proof.
  intros Hr. unfold upto. rewrite !length_app. replace (length l + length x - (length r + length x))%nat with (length l - length r)%nat by lia.
  apply take_app_le. lia.
Qed.

(** A value that a byte or an opening bracket ends is parsed as before when more
    follows. *)
Lemma parse_app x fuel :
  (forall d l v r, parse_value fuel d l = Some (v, r) -> r <> [] \/ (exists l', l = Byte.x7b :: l') ->
     parse_value fuel d (l ++ x) = Some (v, r ++ x)) /\
  (forall d l v r, parse_elements fuel d l = Some (v, r) -> parse_elements fuel d (l ++ x) = Some (v, r ++ x)) /\
  (forall d l v r, parse_members fuel d l = Some (v, r) -> parse_members fuel d (l ++ x) = Some (v, r ++ x)).
Proof.
  induction fuel as [|fuel (IHv & IHe & IHm)]; [done|]. split_and!; intros d l v r.
  - cbn [parse_value]. destruct l as [|b l]; [done|]. cbn [app]. destruct (_ =? 123) eqn:Hb.
    { case_bool_decide; [done|]. destruct (skip_space l) as [|b' l'] eqn:E; [done|]. rewrite (skip_space_app _ _ _ x E).
      destruct (_ =? 125); [by intros [= <- <-]|]. intros Hm _.
      destruct (parse_members _ _ (b' :: l')) as [[ms r']|] eqn:Em; simplify_eq/=. apply IHm in Em. cbn [app] in Em. by rewrite Em. }
    intros Hv [Hr | [l' [= -> ->]]]; [|done]. revert Hv. clear Hb. destruct (_ =? 91).
    { case_bool_decide; [done|]. destruct (skip_space l) as [|b' l'] eqn:E; [done|]. rewrite (skip_space_app _ _ _ x E).
      destruct (_ =? 93); [by intros [= <- <-]|]. intros Hm.
      destruct (parse_elements _ _ (b' :: l')) as [[ms r']|] eqn:Em; simplify_eq/=. apply IHe in Em. cbn [app] in Em. by rewrite Em. }
    destruct (_ =? 34).
    { destruct (scan_string l) as [[s r']|] eqn:E; intros; simplify_eq/=. by rewrite (scan_string_app _ _ _ x E). }
    do 3 (destruct (_ =? _); [intros Hw; by apply (scan_word_app _ _ (b :: l))|]).
    destruct (scan_number _) as [[n r']|] eqn:E; intros; simplify_eq/=. pose proof (scan_number_app (b :: l) n r x E Hr) as Hn.
    cbn [app] in Hn. by rewrite Hn.
  - cbn [parse_elements]. destruct (parse_value _ _ _) as [[v' r1]|] eqn:E; cbn [mbind option_bind]; [|done].
    destruct (skip_space r1) as [|b r2] eqn:E2; [done|].
    destruct (skip_space l) as [|a l1] eqn:E1; [by destruct fuel|]. rewrite (skip_space_app _ _ _ x E1).
    change (a :: l1 ++ x) with ((a :: l1) ++ x). rewrite (IHv d (a :: l1) v' r1 E) by (left; by destruct r1). cbn [mbind option_bind]. rewrite (skip_space_app _ _ _ x E2).
    destruct (_ =? 93); [by intros [= <- <-]|]. destruct (_ =? 44); [|done].
    destruct (parse_elements _ _ r2) as [[es r3]|] eqn:E3; intros; simplify_eq/=. by rewrite (IHe _ _ _ _ E3).
  - cbn [parse_members]. destruct (skip_space l) as [|q l1] eqn:E1; [done|]. rewrite (skip_space_app _ _ _ x E1).
    destruct (_ =? 34); [|done]. destruct (scan_string l1) as [[k l2]|] eqn:E2; cbn [mbind option_bind]; [|done].
    rewrite (scan_string_app _ _ _ x E2). cbn [mbind option_bind].
    destruct (skip_space l2) as [|c l3] eqn:E3; [done|]. rewrite (skip_space_app _ _ _ x E3).
    destruct (_ =? 58); [|done]. destruct (parse_value _ _ _) as [[v' r1]|] eqn:E4; cbn [mbind option_bind]; [|done].
    destruct (skip_space r1) as [|b r2] eqn:E5; [done|].
    destruct (skip_space l3) as [|a l4] eqn:E6; [by destruct fuel|]. rewrite (skip_space_app _ _ _ x E6).
    change (a :: l4 ++ x) with ((a :: l4) ++ x).
    rewrite (IHv d (a :: l4) v' r1 E4) by (left; by destruct r1). cbn [mbind option_bind]. rewrite (skip_space_app _ _ _ x E5).
    apply parse_shrinks in E4. rewrite upto_app by lia.
    destruct (_ =? 125); [by intros [= <- <-]|]. destruct (_ =? 44); [|done].
    destruct (parse_members _ _ r2) as [[ms r3]|] eqn:E7; intros; simplify_eq/=. by rewrite (IHm _ _ _ _ E7).
Qed.

(** An object text that is cut off does not parse, nor does one with more than
    spaces behind it. *)
Lemma parse_cut l y v :
  parse ((Byte.x7b :: l) ++ y) = Some v -> skip_space y <> [] -> parse (Byte.x7b :: l) = None.
Proof.
  intros Hp Hy. destruct (parse (Byte.x7b :: l)) as [w|] eqn:Hq; [|done]. exfalso. unfold parse in *.
  change (skip_space ((Byte.x7b :: l) ++ y)) with ((Byte.x7b :: l) ++ y) in Hp.
  change (skip_space (Byte.x7b :: l)) with (Byte.x7b :: l) in Hq.
  set (f := parse_fuel ((Byte.x7b :: l) ++ y)) in *.
  destruct (parse_value (parse_fuel (Byte.x7b :: l)) 0 (Byte.x7b :: l)) as [[w' r]|] eqn:Hv; [|done]. cbn [mbind option_bind] in Hq.
  rewrite <- (json_fuel_enough f) in Hv by (unfold f, parse_fuel; rewrite length_app; lia).
  apply (parse_app y) in Hv; [|eauto]. rewrite Hv in Hp. cbn [mbind option_bind] in Hp.
  destruct (skip_space r) as [|b r'] eqn:Hr; [|done].
  assert (skip_space (r ++ y) = skip_space y) as E; [|rewrite E in Hp; by destruct (skip_space y)].
  clear -Hr. induction r as [|b r IH]; [done|]. cbn [skip_space app] in *. destruct (is_space b); [by apply IH|done].
Qed.

Lemma parse_two l v y :
  parse (Byte.x7b :: l) = Some v -> skip_space y <> [] -> parse ((Byte.x7b :: l) ++ y) = None.
Proof.
  intros Hp Hy. destruct (parse ((Byte.x7b :: l) ++ y)) as [w|] eqn:E; [|done]. by rewrite (parse_cut l y w E Hy) in Hp.
Qed.

Lemma skip_space_snoc y b : is_space b = false -> skip_space (y ++ [b]) <> [].
Proof. intros Hb. induction y as [|a y IH]; cbn [app skip_space]; [by rewrite Hb|]. by destruct (is_space a). Qed.

(** Compute which fields the keys of a struct name. *)
Ltac struct_keys :=
  repeat match goal with
  | |- context [fold_key (unquote 0 (encode_string 0 (str_bytes ?a)))] =>
      let t := eval vm_compute in (fold_key (unquote 0 (encode_string 0 (str_bytes a)))) in
      change (fold_key (unquote 0 (encode_string 0 (str_bytes a)))) with t
  end;
  repeat match goal with
  | |- context [bool_decide (?k = str_bytes ?b)] =>
      let t := eval vm_compute in (bool_decide (k = str_bytes b)) in
      change (bool_decide (k = str_bytes b)) with t
  end; cbv iota.
