(* ===== verification/Texts.v ===== *)
(** * The texts of the program

    What is only printed or handed on: the two descriptions of an internal message
    ([pkg/protocol/message.go]), the tokens of the Redis lock ([pkg/redis/lock.go]) and
    the nonces of the handshake ([pkg/gateway/secure_connection.go]). *)

From stdpp Require Import base strings numbers list.
From Stdlib Require Import ZArith Lia.
From S2P Require Import Prelude Message Json.

Local Open Scope Z_scope.

(** ** Messages *)

(** [fmt.Sprintf("%x")] of a number below 256. *)
Definition hex_text (v : Z) : list byte := if v <? 16 then [hex_digit v] else [hex_digit (v / 16); hex_digit (v mod 16)].

(** [fmt.Sprintf] of numbers and of bytes. *)
Definition message_String (m : Message) : list byte :=
  str_bytes "Message{Version:" ++ dec (Version m) ++ str_bytes ", Flags:0x" ++ hex_text (Flags m) ++
  str_bytes ", ServiceType:" ++ dec (ServiceType m) ++ str_bytes ", MessageType:" ++ dec (MessageType m) ++
  str_bytes ", SequenceID:" ++ dec (SequenceID m) ++ str_bytes ", Src:" ++ str_bytes (SourceService m) ++
  str_bytes ", Dst:" ++ str_bytes (DestinationService m) ++ str_bytes ", SessionID:" ++ str_bytes (SessionID m) ++
  str_bytes ", PayloadLen:" ++ dec (PayloadLength m) ++ str_bytes "}".

Definition payload_text (m : Message) : list byte := str_bytes "<" ++ dec (Z.of_nat (length (Payload m))) ++ str_bytes " bytes>".

(** A text field of the object, left out when it is empty. *)
Definition text_field (name : string) (s : list byte) : list (list byte * list byte) :=
  if bool_decide (s = []) then [] else [(str_bytes name, s)].

(** The text fields of [jsonMessage], in order. *)
Definition json_texts (m : Message) : list (list byte * list byte) :=
  text_field "source_service" (str_bytes (SourceService m)) ++ text_field "destination_service" (str_bytes (DestinationService m)) ++
  text_field "correlation_id" (str_bytes (CorrelationID m)) ++ text_field "session_id" (str_bytes (SessionID m)) ++
  text_field "payload" (payload_text m).

Definition json_numbers (m : Message) : list (list byte * Z) :=
  [(str_bytes "version", Version m); (str_bytes "flags", Flags m); (str_bytes "service_type", ServiceType m);
   (str_bytes "message_type", MessageType m); (str_bytes "sequence_id", SequenceID m); (str_bytes "timestamp", Timestamp m);
   (str_bytes "payload_length", PayloadLength m)].

(** [json.Marshal] of these fields cannot fail. *)
Definition message_ToJSON (m : Message) : list byte :=
  object_text (((fun x => (x.1, dec x.2)) <$> json_numbers m) ++ ((fun x => (x.1, quoted x.2)) <$> json_texts m)).

(** ** Random texts *)

(** [hex.EncodeToString] *)
Definition hex_encode (l : list byte) : list byte :=
  l ≫= fun b => [hex_digit (byte_val b / 16); hex_digit (byte_val b mod 16)].

(** [random]: the sixteen bytes of [crypto/rand], or its error. *)
Definition generateToken (random : option (list byte)) : option string := (fun b => bytes_str (hex_encode b)) <$> random.

(** [read]: the twelve bytes of the buffer after [io.ReadFull], which succeeded if
    [ok]; without random bytes the time is written over the first eight. *)
Definition generateNonce (read : list byte) (ok : bool) (nano : Z) : list byte :=
  b64_encode (if ok then read else be_put 8 (uwrap 64 nano) ++ drop 8 read).

(** ** Properties *)

Definition reads_number (x : list byte * Z) (member : list byte * list byte * json) : Prop :=
  member.1.1 = encode_string 0 x.1 /\ decode_uint 64 0 member.2 = Some x.2.

Definition reads_text (x : list byte * list byte) (member : list byte * list byte * json) : Prop :=
  member.1.1 = encode_string 0 x.1 /\ decode_text [] member.2 = Some (to_valid 0 x.2).

Lemma members_of_app f1 f2 v1 v2 : length f1 = length v1 -> members_of (f1 ++ f2) (v1 ++ v2) = members_of f1 v1 ++ members_of f2 v2.
Proof. intros Hl. unfold members_of. by rewrite zip_with_app. Qed.

Lemma number_members xs : Forall (fun x : list byte * Z => in_u 64 x.2) xs ->
  Forall2 (fun x v => value_text x.2 v) ((fun x => (x.1, dec x.2)) <$> xs) ((fun x => JNum (dec x.2)) <$> xs) /\
  Forall2 reads_number xs (members_of ((fun x => (x.1, dec x.2)) <$> xs) ((fun x => JNum (dec x.2)) <$> xs)).
Proof.
  induction 1 as [|[k n] xs Hn Hxs [IH1 IH2]]; [by split; constructor|]. unfold in_u in Hn. split; cbn [fmap list_fmap]; constructor; try done.
  - by apply value_dec.
  - split; [done|]. simpl. apply ParseUint_dec; simpl in *; lia.
Qed.

Lemma text_members xs :
  Forall2 (fun x v => value_text x.2 v) ((fun x => (x.1, quoted x.2)) <$> xs) ((fun x => JStr (encode_string 0 x.2)) <$> xs) /\
  Forall2 reads_text xs (members_of ((fun x => (x.1, quoted x.2)) <$> xs) ((fun x => JStr (encode_string 0 x.2)) <$> xs)).
Proof.
  induction xs as [|[k s] xs [IH1 IH2]]; [by split; constructor|]. split; cbn [fmap list_fmap]; constructor; try done.
  - apply value_quoted.
  - split; [done|]. simpl. by rewrite unquote_encode.
Qed.

(** The JSON text of a message is an object with the numbers and the non-empty texts
    of the message in order, each of which reads back, texts up to bytes that are not
    UTF-8; of the payload it has the length only. *)
Theorem message_json_reads m (Hm : message_typed m) :
  (exists ms ns ts, parse (message_ToJSON m) = Some (JObj ms) /\ ms = ns ++ ts /\
     Forall2 reads_number (json_numbers m) ns /\ Forall2 reads_text (json_texts m) ts) /\
  (forall p, length p = length (Payload m) ->
     message_ToJSON (MkMessage (Version m) (Flags m) (ServiceType m) (MessageType m) (SequenceID m) (Timestamp m) (PayloadLength m)
       (SourceService m) (DestinationService m) (CorrelationID m) (SessionID m) p) = message_ToJSON m).
Proof.
  split.
  - assert (Forall (fun x : list byte * Z => in_u 64 x.2) (json_numbers m)) as Hn.
    { destruct Hm. unfold in_u, json_numbers in *. repeat constructor; simpl; lia. }
    destruct (number_members _ Hn) as [Hv1 Hr1], (text_members (json_texts m)) as [Hv2 Hr2]. do 3 eexists. split.
    + unfold message_ToJSON. rewrite (parse_object _ (((fun x => JNum (dec x.2)) <$> json_numbers m) ++ ((fun x => JStr (encode_string 0 x.2)) <$> json_texts m))).
      * rewrite members_of_app by by rewrite !length_fmap. reflexivity.
      * by apply Forall2_app.
      * done.
    + split; [reflexivity|]. by split.
  - intros p Hp. unfold message_ToJSON, json_texts, payload_text. cbn [Payload SourceService DestinationService CorrelationID SessionID].
    by rewrite Hp.
Qed.

Lemma hex_pair_inj b c :
  hex_digit (byte_val b / 16) = hex_digit (byte_val c / 16) -> hex_digit (byte_val b mod 16) = hex_digit (byte_val c mod 16) -> b = c.
Proof.
  pose proof (byte_val_range b) as Hb. pose proof (byte_val_range c) as Hc.
  assert (forall v, 0 <= v < 256 -> 0 <= v / 16 < 16 /\ 0 <= v mod 16 < 16) as Hr.
  { intros v Hv. split; [split; [apply Z.div_pos; lia|apply Z.div_lt_upper_bound; lia]|apply Z.mod_pos_bound; lia]. }
  destruct (Hr _ Hb), (Hr _ Hc). intros E1%(f_equal hex_val) E2%(f_equal hex_val). rewrite !hex_val_digit in E1, E2 by done.
  injection E1 as E1. injection E2 as E2.
  rewrite <- (byte_of_eq b (16 * (byte_val b / 16) + byte_val b mod 16)), <- (byte_of_eq c (16 * (byte_val c / 16) + byte_val c mod 16));
    [by rewrite E1, E2|symmetry; apply Z.div_mod; lia..].
Qed.

Lemma hex_encode_cons b l : hex_encode (b :: l) = hex_digit (byte_val b / 16) :: hex_digit (byte_val b mod 16) :: hex_encode l.
Proof. done. Qed.

#[export] Instance hex_encode_inj : Inj (=) (=) hex_encode.
Proof.
  intros l. induction l as [|b l IH]; intros [|c l'] E; try done. rewrite !hex_encode_cons in E.
  injection E as E1 E2 E3. f_equal; [by apply hex_pair_inj|by apply IH].
Qed.

Lemma length_hex_encode l : length (hex_encode l) = (2 * length l)%nat.
Proof. induction l as [|b l IH]; [done|]. rewrite hex_encode_cons. simpl. lia. Qed.

(** Two tokens of the lock are equal only when the random bytes are, and a token of
    sixteen bytes has thirty-two characters. *)
Theorem token_distinct b1 b2 t :
  (generateToken (Some b1) = generateToken (Some b2) <-> b1 = b2) /\ generateToken None = None /\
  (generateToken (Some b1) = Some t -> strlen t = (2 * length b1)%nat).
Proof.
  split_and!; [|done|].
  - split; [|by intros ->]. unfold generateToken. simpl. intros [= E]. apply (f_equal str_bytes) in E. rewrite !str_bytes_str in E.
    by apply (inj hex_encode).
  - unfold generateToken. simpl. intros [= <-]. unfold strlen. by rewrite str_bytes_str, length_hex_encode.
Qed.

(** A nonce decodes to its bytes; without random bytes two nonces differ when the
    times do. *)
Theorem nonce_decodes read ok nano nano' :
  b64_decode (generateNonce read ok nano) = Some (if ok then read else be_put 8 (uwrap 64 nano) ++ drop 8 read) /\
  (generateNonce read false nano = generateNonce read false nano' <-> uwrap 64 nano = uwrap 64 nano').
Proof.
  split; [apply b64_roundtrip|]. split; [|by unfold generateNonce; intros ->]. unfold generateNonce. intros E%(f_equal b64_decode).
  rewrite !b64_roundtrip in E. apply (inj Some), (f_equal (take 8)) in E. rewrite !take_app_length' in E by by rewrite length_be_put.
  apply (f_equal be_get) in E. rewrite !be_get_put in E. change (256 ^ Z.of_nat 8) with (2 ^ 64) in E.
  unfold uwrap in *. by rewrite !Z.mod_mod in E.
Qed.

Lemma message_json_reads_witness :
  exists ms ns ts, parse (message_ToJSON (NewMessage 7 1 2 (str_bytes "hi"))) = Some (JObj ms) /\ ms = ns ++ ts /\
    Forall2 reads_number (json_numbers (NewMessage 7 1 2 (str_bytes "hi"))) ns /\
    Forall2 reads_text (json_texts (NewMessage 7 1 2 (str_bytes "hi"))) ts.
Proof. apply message_json_reads. constructor; vm_compute; split; congruence. Defined.

Example message_texts :
  message_String (NewMessage 7 1 2 (str_bytes "hi")) =
    str_bytes "Message{Version:1, Flags:0x0, ServiceType:1, MessageType:2, SequenceID:0, Src:, Dst:, SessionID:, PayloadLen:2}" /\
  (generateToken (Some [Byte.x00; Byte.xab])) = Some "00ab"%string.
Proof. split; vm_compute; reflexivity. Qed.
