(* ===== verification/Converter.v ===== *)
(** * Conversion between client formats and internal messages
      ([pkg/protocol/converter.go])

    The formats of WebSocket and QUIC clients (binary, JSON, text, protobuf), the
    table of processors and the registry of message types.  JSON and base64 are
    modelled byte by byte; the protobuf [Any] is used through an interface.  The
    converter is an instance of the interface that the gateway uses. *)

From stdpp Require Import base gmap strings numbers list.
From Stdlib Require Import ZArith Lia.
From S2P Require Import Prelude Message Router Session Gateway Json.

Local Open Scope Z_scope.

(** ** Strings *)

(** [strings.Split(s, sep)] for a separator of one byte. *)
Fixpoint split_on (sep : byte) (l : list byte) : list (list byte) :=
  match l with
  | [] => [[]]
  | b :: l =>
      if bool_decide (b = sep) then [] :: split_on sep l
      else match split_on sep l with
           | p :: ps => (b :: p) :: ps
           | [] => [[b]]
           end
  end.

(** ** The converter *)

Definition FormatTypeBinary : Z := 0.
Definition FormatTypeJSON : Z := 1.
Definition FormatTypeText : Z := 2.
Definition FormatTypeProtobuf : Z := 3.

(** [ErrCodec] is an error of the internal format. *)
Inductive ConvError :=
  | ErrUnsupportedFormat
  | ErrInvalidFormat
  | ErrJson
  | ErrProto
  | ErrCodec (e : MsgError).

(** [proto.Marshal] and [proto.Unmarshal] of an [anypb.Any]: a type URL and a
    value.  A URL that is UTF-8 comes back. *)
Class AnyCodec := {
  any_Marshal : string -> list byte -> option (list byte);
  any_Unmarshal : list byte -> option (string * list byte);
  any_law url value data :
    any_Marshal url value = Some data -> any_Unmarshal data = Some (url, value);
  any_total url value : utf8_valid 0 (str_bytes url) = true -> is_Some (any_Marshal url value)
}.

(** The JSON object of a message. *)
Record jsonMsg := MkJsonMsg {
  jm_ServiceType : Z;
  jm_MessageType : Z;
  jm_Flags : Z;
  jm_Payload : list byte;
  jm_SessionID : list byte
}.

Definition zero_jsonMsg : jsonMsg := MkJsonMsg 0 0 0 [] [].

(** One member of the object; others are ignored. *)
Definition decode_member (m : jsonMsg) (key raw : list byte) (v : json) : option jsonMsg :=
  if bool_decide (key = str_bytes "SERVICE_TYPE") then
    v ← decode_uint 16 (jm_ServiceType m) v;
    Some (MkJsonMsg v (jm_MessageType m) (jm_Flags m) (jm_Payload m) (jm_SessionID m))
  else if bool_decide (key = str_bytes "MESSAGE_TYPE") then
    v ← decode_uint 16 (jm_MessageType m) v;
    Some (MkJsonMsg (jm_ServiceType m) v (jm_Flags m) (jm_Payload m) (jm_SessionID m))
  else if bool_decide (key = str_bytes "FLAGS") then
    v ← decode_uint 8 (jm_Flags m) v;
    Some (MkJsonMsg (jm_ServiceType m) (jm_MessageType m) v (jm_Payload m) (jm_SessionID m))
  else if bool_decide (key = str_bytes "PAYLOAD") then
    Some (MkJsonMsg (jm_ServiceType m) (jm_MessageType m) (jm_Flags m) raw (jm_SessionID m))
  else if bool_decide (key = str_bytes "SESSION_ID") then
    v ← decode_text (jm_SessionID m) v;
    Some (MkJsonMsg (jm_ServiceType m) (jm_MessageType m) (jm_Flags m) (jm_Payload m) v)
  else Some m.

(** [json.Unmarshal(rawData, &jsonMsg)] *)
Definition unmarshal_msg (data : list byte) : option jsonMsg := decode_struct decode_member zero_jsonMsg data.

(** [json.Marshal(jsonMsg)] with the text of the payload; an empty session ID is
    left out. *)
Definition marshal_msg (m : jsonMsg) : list byte :=
  object_text ([(str_bytes "service_type", dec (jm_ServiceType m)); (str_bytes "message_type", dec (jm_MessageType m));
                (str_bytes "flags", dec (jm_Flags m)); (str_bytes "payload", jm_Payload m)]
               ++ (if bool_decide (jm_SessionID m = []) then [] else [(str_bytes "session_id", quoted (jm_SessionID m))])).

(** *** Names of types *)

(** [hashString], on 64-bit integers. *)
Definition hashString (s : list byte) : Z := fold_left (fun h b => int64 (31 * h + byte_val b)) s 0.

(** [uint16(hashString(name) % 65535)] *)
Definition hash16 (name : list byte) : Z := uwrap 16 (Z.rem (hashString name) 65535).

Definition serviceTypeToName (serviceType : Z) : string :=
  if serviceType =? 1 then "Gateway" else if serviceType =? 2 then "Chat" else if serviceType =? 3 then "Game"
  else if serviceType =? 4 then "Auth" else "Service" +:+ bytes_str (dec serviceType).

Definition messageTypeToName (messageType : Z) : string :=
  if messageType =? 1 then "Request" else if messageType =? 2 then "Response" else if messageType =? 3 then "Notification"
  else if messageType =? 4 then "Error" else "Message" +:+ bytes_str (dec messageType).

Section converter.
Context `{AnyCodec}.
(** The text of a number that was read without a type. *)
Context (number_text : list byte -> option (list byte)).
(** The time, the bytes behind the slice that is decoded, and whether an empty
    payload is a nil slice. *)
Context (now : Z) (spare : list byte) (nil_payload : bool).

(** *** From the client *)

(** The binary format of both connections: flags, service and message type, payload. *)
Definition binary_to_internal (rawData : list byte) : outcome ConvError Message :=
  fail_if (length rawData <? 5)%nat ErrInvalidFormat;;
  msgFlag ← get_uint 1 0 rawData;
  serviceType ← get_uint 2 1 rawData;
  messageType ← get_uint 2 3 rawData;
  payload ← Prelude.slice 5 (length rawData) rawData;
  Ret (set_flags (NewMessage now serviceType messageType payload) msgFlag).

(** The payload of a JSON message: the text of a string, and anything else as it
    is written. *)
Definition json_payload (raw : list byte) : list byte :=
  match raw with
  | [] => []
  | _ => match unmarshal_string raw with Some s => s | None => raw end
  end.

Definition set_session (m : Message) (id : string) : Message :=
  {| Version := Version m; Flags := Flags m; ServiceType := ServiceType m;
     MessageType := MessageType m; SequenceID := SequenceID m;
     Timestamp := Timestamp m; PayloadLength := PayloadLength m;
     SourceService := SourceService m; DestinationService := DestinationService m;
     CorrelationID := CorrelationID m; SessionID := id; Payload := Payload m |}.

Definition json_to_internal (e : ConvError) (rawData : list byte) : outcome ConvError Message :=
  match unmarshal_msg rawData with
  | None => Fail e
  | Some j =>
      Ret (set_session (set_flags (NewMessage now (jm_ServiceType j) (jm_MessageType j) (json_payload (jm_Payload j)))
             (jm_Flags j)) (bytes_str (jm_SessionID j)))
  end.

(** The types of a protobuf message are hashes of the names in its URL. *)
Definition proto_to_internal (e : ConvError) (rawData : list byte) : outcome ConvError Message :=
  match any_Unmarshal rawData with
  | None => Fail e
  | Some (typeURL, value) =>
      match split_on Byte.x2f (str_bytes typeURL) with
      | [_; typeName] =>
          match split_on Byte.x2e typeName with
          | [serviceName; messageName] => Ret (NewMessage now (hash16 serviceName) (hash16 messageName) value)
          | _ => Fail ErrInvalidFormat
          end
      | _ => Fail ErrInvalidFormat
      end
  end.

Definition text_to_internal (rawData : list byte) : outcome ConvError Message :=
  match split_on c_colon rawData with
  | [p0; p1; p2] =>
      match ParseUint 16 p0, ParseUint 16 p1, b64_decode p2 with
      | Some serviceTypeVal, Some messageTypeVal, Some payload =>
          Ret (NewMessage now serviceTypeVal messageTypeVal payload)
      | _, _, _ => Fail ErrInvalidFormat
      end
  | _ => Fail ErrInvalidFormat
  end.

Definition convertWebSocketToInternal (formatType : Z) (rawData : list byte) : outcome ConvError Message :=
  if formatType =? FormatTypeBinary then binary_to_internal rawData
  else if formatType =? FormatTypeJSON then json_to_internal ErrJson rawData
  else if formatType =? FormatTypeProtobuf then proto_to_internal ErrProto rawData
  else Fail ErrUnsupportedFormat.

Definition convertQUICToInternal (formatType : Z) (rawData : list byte) : outcome ConvError Message :=
  if formatType =? FormatTypeBinary then binary_to_internal rawData
  else if formatType =? FormatTypeJSON then json_to_internal ErrInvalidFormat rawData
  else if formatType =? FormatTypeProtobuf then proto_to_internal ErrInvalidFormat rawData
  else if formatType =? FormatTypeText then text_to_internal rawData
  else Fail ErrUnsupportedFormat.

Definition lift_codec {A} (o : outcome MsgError A) : outcome ConvError A :=
  match o with
  | Ret a => Ret a
  | Fail e => Fail (ErrCodec e)
  | Panic => Panic
  end.

Definition conv_ToInternal (connType : string) (formatType : Z) (rawData : list byte) : outcome ConvError Message :=
  if bool_decide (connType = ConnectionTypeWebSocket) then convertWebSocketToInternal formatType rawData
  else if bool_decide (connType = ConnectionTypeQUIC) then convertQUICToInternal formatType rawData
  else if bool_decide (connType = ConnectionTypeInternal) then lift_codec (Decode spare rawData)
  else Fail ErrUnsupportedFormat.

(** *** To the client *)

Definition internal_to_binary (msg : Message) : outcome ConvError (list byte) :=
  let result := replicate (5 + length (Payload msg)) Byte.x00 in
  result ← put_at 0 1 [byte_of (Flags msg)] result;
  result ← put_at 1 3 (be_put 2 (ServiceType msg)) result;
  result ← put_at 3 5 (be_put 2 (MessageType msg)) result;
  copy_from 5 (Payload msg) result.

(** A payload that is itself a JSON string is sent as that string. *)
Definition ws_payload (payload : list byte) : list byte :=
  match payload with
  | [] => []
  | _ => match unmarshal_string payload with Some s => s | None => payload end
  end.

Definition internal_to_ws_json (msg : Message) : list byte :=
  marshal_msg (MkJsonMsg (ServiceType msg) (MessageType msg) (Flags msg) (quoted (ws_payload (Payload msg)))
                 (str_bytes (SessionID msg))).

Definition proto_from (typeURL : string) (payload : list byte) : outcome ConvError (list byte) :=
  match any_Marshal typeURL payload with
  | Some data => Ret data
  | None => Fail ErrProto
  end.

Definition convertInternalToWebSocket (formatType : Z) (msg : Message) : outcome ConvError (list byte) :=
  if formatType =? FormatTypeBinary then internal_to_binary msg
  else if formatType =? FormatTypeJSON then Ret (internal_to_ws_json msg)
  else if formatType =? FormatTypeProtobuf then
    proto_from ("type.googleapis.com/service" +:+ bytes_str (dec (ServiceType msg)) +:+ ".message"
                +:+ bytes_str (dec (MessageType msg))) (Payload msg)
  else Fail ErrUnsupportedFormat.

(** The payload as a raw message: an object in its normal form, if it has one. *)
Definition quic_payload (payload : list byte) : list byte :=
  match payload with
  | b :: _ =>
      if (byte_val b =? 123) && bool_decide (last payload = Some Byte.x7d)
      then default payload (parse payload ≫= normal number_text)
      else payload
  | [] => payload
  end.

(** A raw message that is nil is [null], and one that is no JSON an error. *)
Definition internal_to_quic_json (msg : Message) : outcome ConvError (list byte) :=
  let text := if nil_payload && bool_decide (Payload msg = []) then Some (str_bytes "null")
              else marshal_raw (quic_payload (Payload msg)) in
  match text with
  | Some t => Ret (marshal_msg (MkJsonMsg (ServiceType msg) (MessageType msg) (Flags msg) t (str_bytes (SessionID msg))))
  | None => Fail ErrJson
  end.

Definition internal_to_text (msg : Message) : list byte :=
  dec (ServiceType msg) ++ c_colon :: dec (MessageType msg) ++ c_colon :: b64_encode (Payload msg).

Definition convertInternalToQUIC (formatType : Z) (msg : Message) : outcome ConvError (list byte) :=
  if formatType =? FormatTypeBinary then internal_to_binary msg
  else if formatType =? FormatTypeJSON then internal_to_quic_json msg
  else if formatType =? FormatTypeProtobuf then
    proto_from ("type.googleapis.com/" +:+ serviceTypeToName (ServiceType msg) +:+ "."
                +:+ messageTypeToName (MessageType msg)) (Payload msg)
  else if formatType =? FormatTypeText then Ret (internal_to_text msg)
  else Fail ErrUnsupportedFormat.

Definition conv_FromInternal (connType : string) (formatType : Z) (msg : Message) : outcome ConvError (list byte) :=
  if bool_decide (connType = ConnectionTypeWebSocket) then convertInternalToWebSocket formatType msg
  else if bool_decide (connType = ConnectionTypeQUIC) then convertInternalToQUIC formatType msg
  else if bool_decide (connType = ConnectionTypeInternal) then lift_codec (Encode msg)
  else Fail ErrUnsupportedFormat.

(** The converter of the gateway. *)
Definition DefaultProtocolConverter : ProtocolConverter ConvError :=
  {| ToInternal := conv_ToInternal; FromInternal := conv_FromInternal |}.

End converter.

(** ** Processors and message types *)

(** [(uint32(serviceType) << 16) | uint32(messageType)] *)
Definition makeProcessorKey (serviceType messageType : Z) : Z := Z.lor (uwrap 32 (Z.shiftl serviceType 16)) messageType.

(** The processors of the converter. *)
Definition RegisterProcessor {P} (processors : gmap Z P) (serviceType messageType : Z) (processor : P) : gmap Z P :=
  <[makeProcessorKey serviceType messageType := processor]> processors.

Definition GetProcessor {P} (processors : gmap Z P) (serviceType messageType : Z) : option P :=
  processors !! makeProcessorKey serviceType messageType.

Section message_types.
(** The reflected types. *)
Context {T : Type} `{Countable T}.

Record MessageTypeInfo := MkTypeInfo {
  info_ServiceType : Z;
  info_MessageType : Z;
  ServiceName : string;
  MessageName : string;
  RequestType : option T;
  ResponseType : option T;
  IsRequest : bool;
  CorrelationKey : string
}.

Record MessageRegistry := MkMessageRegistry {
  typeInfoByID : gmap Z MessageTypeInfo;
  typeInfoByName : gmap string MessageTypeInfo;
  typeInfoByReqType : gmap T MessageTypeInfo
}.

Definition NewMessageRegistry : MessageRegistry := MkMessageRegistry ∅ ∅ ∅.

Definition full_name (info : MessageTypeInfo) : string := ServiceName info +:+ "." +:+ MessageName info.

Definition RegisterMessageType (r : MessageRegistry) (info : MessageTypeInfo) : MessageRegistry :=
  {| typeInfoByID := <[makeProcessorKey (info_ServiceType info) (info_MessageType info) := info]> (typeInfoByID r);
     typeInfoByName := <[full_name info := info]> (typeInfoByName r);
     typeInfoByReqType := match RequestType info with
                          | Some t => <[t := info]> (typeInfoByReqType r)
                          | None => typeInfoByReqType r
                          end |}.

Definition GetTypeInfoByID (r : MessageRegistry) (serviceType messageType : Z) : option MessageTypeInfo :=
  typeInfoByID r !! makeProcessorKey serviceType messageType.

Definition GetTypeInfoByName (r : MessageRegistry) (fullName : string) : option MessageTypeInfo :=
  typeInfoByName r !! fullName.

Definition GetTypeInfoByRequestType (r : MessageRegistry) (reqType : T) : option MessageTypeInfo :=
  typeInfoByReqType r !! reqType.

(** The last registration that satisfies [p]. *)
Definition last_with (p : MessageTypeInfo -> bool) (l : list MessageTypeInfo) : option MessageTypeInfo :=
  fold_left (fun acc i => if p i then Some i else acc) l None.
End message_types.

(** ** Parsing what was written *)

Lemma split_on_app sep p l : sep ∉ p -> split_on sep (p ++ sep :: l) = p :: split_on sep l.
Proof.
  induction p as [|b p IH]; intros Hp; cbn [app split_on].
  - by rewrite bool_decide_eq_true_2.
  - apply not_elem_of_cons in Hp as [Hb Hp]. rewrite bool_decide_eq_false_2 by congruence. by rewrite IH.
Qed.

Lemma split_on_none sep p : sep ∉ p -> split_on sep p = [p].
Proof.
  induction p as [|b p IH]; intros Hp; cbn [split_on]; [done|].
  apply not_elem_of_cons in Hp as [Hb Hp]. rewrite bool_decide_eq_false_2 by congruence. by rewrite IH.
Qed.

Lemma dec_not_elem n b : 0 <= n < 2 ^ 64 -> is_digit b = false -> b ∉ dec n.
Proof.
  intros Hn Hb Hin. destruct (dec_spec n Hn) as (c & ds & E & Hf & _). rewrite E in Hin. rewrite Forall_forall in Hf.
  apply Hf in Hin. congruence.
Qed.

Record msg_typed (j : jsonMsg) : Prop := {
  jt_service : in_u 16 (jm_ServiceType j);
  jt_message : in_u 16 (jm_MessageType j);
  jt_flags : in_u 8 (jm_Flags j)
}.

Lemma unmarshal_marshal j v :
  msg_typed j -> value_text (jm_Payload j) v ->
  unmarshal_msg (marshal_msg j) =
  Some (MkJsonMsg (jm_ServiceType j) (jm_MessageType j) (jm_Flags j) (jm_Payload j) (to_valid 0 (jm_SessionID j))).
Proof.
  intros [H1 H2 H3] Hv. unfold in_u in *. unfold unmarshal_msg, decode_struct, marshal_msg.
  assert (forall n, 0 <= n < 2 ^ 16 -> value_text (dec n) (JNum (dec n))) as Hd by (intros n Hn; apply value_dec; lia).
  assert (forall m x bits, 0 <= bits <= 64 -> 0 <= x < 2 ^ bits -> decode_uint bits m (JNum (dec x)) = Some x) as Hu
    by (intros m x bits Hb Hx; by apply ParseUint_dec).
  set (nums := [JNum (dec (jm_ServiceType j)); JNum (dec (jm_MessageType j)); JNum (dec (jm_Flags j)); v]).
  case_bool_decide as E.
  - rewrite (parse_object _ nums); [|repeat constructor; try apply Hd; try apply Hv; lia|done].
    cbn [app members_of zip_with fst snd nums decode_all]. unfold decode_member. struct_keys.
    rewrite Hu by lia. cbn [mbind option_bind]. rewrite Hu by lia. cbn [mbind option_bind]. rewrite Hu by lia. by rewrite E.
  - rewrite (parse_object _ (nums ++ [JStr (encode_string 0 (jm_SessionID j))]));
      [|repeat constructor; try apply Hd; try apply Hv; try apply value_quoted; lia|done].
    cbn [app members_of zip_with fst snd nums decode_all]. unfold decode_member. struct_keys.
    rewrite Hu by lia. cbn [mbind option_bind]. rewrite Hu by lia. cbn [mbind option_bind]. rewrite Hu by lia.
    cbn [mbind option_bind decode_text]. by rewrite unquote_encode.
Qed.

(** ** Round trips *)

Section conversions.
Context `{AnyCodec}.
Context (number_text : list byte -> option (list byte)) (now : Z) (spare : list byte) (nil_payload : bool).

Abbreviation from_internal := (conv_FromInternal number_text nil_payload).
Abbreviation to_internal := (conv_ToInternal now spare).

(** The message that comes back: what the formats carry. *)
Definition returned (m : Message) (flags : Z) (session : string) (payload : list byte) : Message :=
  set_session (set_flags (NewMessage now (ServiceType m) (MessageType m) payload) flags) session.

(** The bytes of the binary format. *)
Lemma internal_to_binary_wire m :
  internal_to_binary m =
  Ret (byte_of (Flags m) :: be_put 2 (ServiceType m) ++ be_put 2 (MessageType m) ++ Payload m).
Proof.
  assert (forall z lo, take (lo + 2 - lo) (be_put 2 z) = be_put 2 z) as Ht
    by (intros; apply take_ge; rewrite length_be_put; lia).
  unfold internal_to_binary. rewrite (put_at_zeros 0 1 _ [] (5 + length (Payload m))) by (simpl; lia). gosimpl.
  rewrite put_at_zeros by (simpl; lia). gosimpl. rewrite (Ht _ 1%nat).
  rewrite put_at_zeros by (rewrite ?length_app, ?length_be_put; simpl; lia). gosimpl. rewrite (Ht _ 3%nat).
  rewrite copy_from_zeros by (rewrite ?length_app, ?length_be_put; simpl; lia). rewrite !length_be_put.
  replace (_ - length (Payload m))%nat with 0%nat by (simpl; lia). cbn [replicate]. by rewrite app_nil_r, <- !app_assoc.
Qed.

Lemma binary_roundtrip m :
  message_typed m -> exists data, internal_to_binary m = Ret data /\ length data = (5 + length (Payload m))%nat /\
    binary_to_internal now data = Ret (set_flags (NewMessage now (ServiceType m) (MessageType m) (Payload m)) (Flags m)).
Proof.
  intros Hm. rewrite internal_to_binary_wire. eexists. split; [done|].
  assert ([byte_of (Flags m)] = be_put 1 (Flags m)) as Hb.
  { unfold be_put. simpl. by rewrite Z.div_1_r. }
  rewrite (app_comm_cons _ _ (byte_of (Flags m))). change (byte_of (Flags m) :: be_put 2 (ServiceType m))
    with ([byte_of (Flags m)] ++ be_put 2 (ServiceType m)). rewrite Hb, <- app_assoc.
  split; [rewrite !length_app, !length_be_put; lia|]. unfold binary_to_internal.
  set (data := be_put 1 (Flags m) ++ _).
  assert (length data = 5 + length (Payload m))%nat as Hlen by (subst data; rewrite !length_app, !length_be_put; lia).
  rewrite (proj2 (Nat.ltb_ge _ _)) by lia. cbn [fail_if]. gosimpl. subst data.
  rewrite get_uint_head by apply Hm. gosimpl.
  rewrite (get_uint_at 2 1 (ServiceType m) (be_put 1 (Flags m))) by (rewrite ?length_be_put; try done; apply Hm). gosimpl.
  rewrite (app_assoc (be_put 1 _)), (get_uint_at 2 3 (MessageType m)) by (rewrite ?length_app, ?length_be_put; try done; apply Hm).
  gosimpl. rewrite (app_assoc (_ ++ _) (be_put 2 _)). rewrite <- (app_nil_r (Payload m)) at 2.
  rewrite (slice_at 5 _ _ (Payload m) []); [done|by rewrite !length_app, !length_be_put|].
  by rewrite !length_app, !length_be_put.
Qed.

(** A message sent in the binary format, over either connection, comes back
    with its types, flags and payload; the rest is not carried. *)
Theorem conv_binary_roundtrip m connType
    (Hm : message_typed m) (Hc : connType = ConnectionTypeWebSocket \/ connType = ConnectionTypeQUIC) :
  exists data, from_internal connType FormatTypeBinary m = Ret data /\
    to_internal connType FormatTypeBinary data = Ret (returned m (Flags m) "" (Payload m)).
Proof.
  destruct (binary_roundtrip m Hm) as (data & H1 & _ & H2). exists data. by destruct Hc as [-> | ->].
Qed.

(** The text format carries the types and the payload, whatever its bytes. *)
Theorem conv_text_roundtrip m (Hm : message_typed m) :
  exists data, from_internal ConnectionTypeQUIC FormatTypeText m = Ret data /\
    to_internal ConnectionTypeQUIC FormatTypeText data = Ret (returned m FlagNone "" (Payload m)).
Proof.
  exists (internal_to_text m). split; [done|]. destruct Hm as [_ _ Hs Ht _ _ _]. unfold in_u in *.
  change (to_internal _ _ _) with (text_to_internal now (internal_to_text m)). unfold text_to_internal, internal_to_text.
  rewrite split_on_app by (apply dec_not_elem; [lia|done]). rewrite split_on_app by (apply dec_not_elem; [lia|done]).
  rewrite split_on_none.
  - rewrite !ParseUint_dec by (try done; lia). by rewrite b64_roundtrip.
  - intros Hin. pose proof (b64_encode_chars (Payload m)) as Hf. rewrite Forall_forall in Hf. by apply Hf in Hin as [? _].
Qed.

Lemma ws_json_parse m :
  message_typed m ->
  unmarshal_msg (internal_to_ws_json m) =
  Some (MkJsonMsg (ServiceType m) (MessageType m) (Flags m) (quoted (ws_payload (Payload m))) (to_valid 0 (str_bytes (SessionID m)))).
Proof.
  intros Hm. unfold internal_to_ws_json. rewrite (unmarshal_marshal _ (JStr (encode_string 0 (ws_payload (Payload m))))); [done| |].
  - split; apply Hm.
  - apply value_quoted.
Qed.

Lemma ws_json_roundtrip m :
  message_typed m ->
  from_internal ConnectionTypeWebSocket FormatTypeJSON m = Ret (internal_to_ws_json m) /\
  to_internal ConnectionTypeWebSocket FormatTypeJSON (internal_to_ws_json m) =
    Ret (returned m (Flags m) (bytes_str (to_valid 0 (str_bytes (SessionID m)))) (to_valid 0 (ws_payload (Payload m)))).
Proof.
  intros Hm. split; [done|].
  change (to_internal _ _ _) with (json_to_internal now ErrJson (internal_to_ws_json m)). unfold json_to_internal.
  rewrite ws_json_parse by done. cbn [jm_ServiceType jm_MessageType jm_Flags jm_Payload jm_SessionID].
  unfold json_payload. change (quoted ?s) with (c_quote :: encode_string 0 s ++ [c_quote]) at 1. cbv iota.
  by rewrite unmarshal_quoted.
Qed.

(** What a client sees of a payload: the text of a JSON string, nothing of [null], and
    any other payload as it is; bytes that are not UTF-8 are replaced. *)
Lemma ws_payload_seen p :
  to_valid 0 (ws_payload p) =
  match parse p with Some (JStr lit) => to_valid 0 (unquote 0 lit) | Some JNull => [] | _ => to_valid 0 p end.
Proof. unfold ws_payload, unmarshal_string. destruct p as [|b p]; [done|]. by destruct (parse (b :: p)) as [[]|]. Qed.

(** C16: over WebSocket, JSON carries the types and the flags of every message, its session
    and its payload.  A session or payload that is not UTF-8 has its bad bytes replaced,
    and one that is comes back as it was, except that a payload which is itself a JSON string
    comes back as the text of that string, and the payload [null] comes back empty. *)
Theorem conv_ws_json_roundtrip m (Hm : message_typed m) :
  exists data m', from_internal ConnectionTypeWebSocket FormatTypeJSON m = Ret data /\
    to_internal ConnectionTypeWebSocket FormatTypeJSON data = Ret m' /\
    ServiceType m' = ServiceType m /\ MessageType m' = MessageType m /\ Flags m' = Flags m /\
    SessionID m' = bytes_str (to_valid 0 (str_bytes (SessionID m))) /\
    (utf8_valid 0 (str_bytes (SessionID m)) = true -> SessionID m' = SessionID m) /\
    Payload m' = match parse (Payload m) with
                 | Some (JStr lit) => to_valid 0 (unquote 0 lit)
                 | Some JNull => []
                 | _ => to_valid 0 (Payload m)
                 end /\
    (utf8_valid 0 (Payload m) = true -> parse (Payload m) <> Some JNull -> (forall lit, parse (Payload m) <> Some (JStr lit)) ->
     Payload m' = Payload m) /\
    (forall s, Payload m = quoted s -> utf8_valid 0 s = true -> Payload m' = s).
Proof.
  destruct (ws_json_roundtrip m Hm) as [H1 H2]. eexists _, _. split; [exact H1|]. split; [exact H2|].
  unfold returned. cbn [set_session set_flags NewMessage ServiceType MessageType Flags SessionID Payload]. split_and!; try done.
  - intros Hv. by rewrite to_valid_id, bytes_str_bytes.
  - apply ws_payload_seen.
  - intros Hv Hn Hs. rewrite ws_payload_seen. destruct (parse (Payload m)) as [[]|]; try (by apply to_valid_id); [done|by destruct (Hs literal)].
  - intros s -> Hv. unfold ws_payload. rewrite unmarshal_quoted, (to_valid_id s) by done. destruct (quoted s) eqn:E; [done|]. by apply to_valid_id.
Qed.

(** The URL of two names without a dot or a slash. *)
Lemma url_split (a b : list byte) :
  Byte.x2f ∉ a -> Byte.x2f ∉ b -> Byte.x2e ∉ a -> Byte.x2e ∉ b ->
  split_on Byte.x2f (str_bytes "type.googleapis.com" ++ Byte.x2f :: a ++ Byte.x2e :: b) =
    [str_bytes "type.googleapis.com"; a ++ Byte.x2e :: b] /\
  split_on Byte.x2e (a ++ Byte.x2e :: b) = [a; b].
Proof.
  intros Ha Hb Ha' Hb'. rewrite (split_on_app Byte.x2e), (split_on_none Byte.x2e) by done.
  rewrite split_on_app by (apply (bool_decide_unpack _); by vm_compute). rewrite split_on_none; [done|].
  rewrite elem_of_app, elem_of_cons. intros [?|[?|?]]; done.
Qed.

Lemma name_plain (p : string) n :
  0 <= n < 2 ^ 64 -> Byte.x2f ∉ str_bytes p -> Byte.x2e ∉ str_bytes p ->
  (Byte.x2f ∉ str_bytes p ++ dec n) /\ (Byte.x2e ∉ str_bytes p ++ dec n).
Proof.
  intros Hn H1 H2. split; rewrite elem_of_app; (intros [?|Hin]; [done|]); by eapply dec_not_elem in Hin.
Qed.

(** The protobuf format of WebSocket carries the payload, but the types that
    come back are hashes of the names made from the types. *)
Theorem conv_ws_protobuf m data
    (Hm : message_typed m) (Hd : from_internal ConnectionTypeWebSocket FormatTypeProtobuf m = Ret data) :
  to_internal ConnectionTypeWebSocket FormatTypeProtobuf data =
    Ret (NewMessage now (hash16 (str_bytes "service" ++ dec (ServiceType m)))
           (hash16 (str_bytes "message" ++ dec (MessageType m))) (Payload m)).
Proof.
  destruct Hm as [_ _ Hs Ht _ _ _]. unfold in_u in *.
  change (from_internal _ _ _) with (proto_from ("type.googleapis.com/service" +:+ bytes_str (dec (ServiceType m)) +:+ ".message"
                +:+ bytes_str (dec (MessageType m))) (Payload m)) in Hd.
  change (to_internal _ _ _) with (proto_to_internal now ErrProto data). unfold proto_from in Hd.
  destruct (any_Marshal _ _) as [d|] eqn:E; [|done]. simplify_eq. apply any_law in E. unfold proto_to_internal. rewrite E.
  rewrite !str_bytes_app, !str_bytes_str.
  destruct (name_plain "service" (ServiceType m)) as [Ha Ha'];
    [lia|apply (bool_decide_unpack _); by vm_compute|apply (bool_decide_unpack _); by vm_compute|].
  destruct (name_plain "message" (MessageType m)) as [Hb Hb'];
    [lia|apply (bool_decide_unpack _); by vm_compute|apply (bool_decide_unpack _); by vm_compute|].
  destruct (url_split _ _ Ha Hb Ha' Hb') as [E1 E2].
  match goal with |- context [split_on Byte.x2f ?u] =>
    replace u with (str_bytes "type.googleapis.com" ++ Byte.x2f :: (str_bytes "service" ++ dec (ServiceType m))
                    ++ Byte.x2e :: str_bytes "message" ++ dec (MessageType m)) by (cbn; by rewrite <- ?app_assoc) end.
  by rewrite E1, E2.
Qed.

(** No bytes of a client make the conversion panic, and no message does on the
    way back. *)
Theorem conv_never_panics connType formatType rawData m
    (Hc : connType <> ConnectionTypeInternal) :
  conv_ToInternal now spare connType formatType rawData <> Panic /\
  conv_FromInternal number_text nil_payload connType formatType m <> Panic.
Proof.
  assert (binary_to_internal now rawData <> Panic) as H1.
  { unfold binary_to_internal. destruct (Nat.ltb_spec (length rawData) 5) as [|Hl]; [done|]. cbn [fail_if]. gosimpl.
    apply outcome_bind_not_panic; [by apply get_uint_not_panic; lia|intros ? _].
    apply outcome_bind_not_panic; [by apply get_uint_not_panic; lia|intros ? _].
    apply outcome_bind_not_panic; [by apply get_uint_not_panic; lia|intros ? _].
    apply outcome_bind_not_panic; [by apply slice_not_panic; lia|done]. }
  assert (forall e, json_to_internal now e rawData <> Panic) as H2 by (intros e; unfold json_to_internal; by case_match).
  assert (forall e, proto_to_internal now e rawData <> Panic) as H3 by (intros e; unfold proto_to_internal; by repeat case_match).
  assert (text_to_internal now rawData <> Panic) as H4 by (unfold text_to_internal; by repeat case_match).
  assert (internal_to_binary m <> Panic) as H5 by (by rewrite internal_to_binary_wire).
  assert (forall u, proto_from u (Payload m) <> Panic) as H6 by (intros u; unfold proto_from; by case_match).
  assert (internal_to_quic_json number_text nil_payload m <> Panic) as H7 by (unfold internal_to_quic_json; by case_match).
  unfold conv_ToInternal, conv_FromInternal, convertWebSocketToInternal, convertQUICToInternal,
    convertInternalToWebSocket, convertInternalToQUIC.
  rewrite (bool_decide_eq_false_2 (connType = ConnectionTypeInternal)) by done.
  split; repeat case_match; done.
Qed.
End conversions.


(** The service types that the packages name do not survive protobuf. *)
Example hash_changes_types :
  ((fun t => hash16 (str_bytes "service" ++ dec t)) <$> [1; 2; 3; 4]) = [25927; 25928; 25929; 25930].
Proof. by vm_compute. Qed.

(** ** The converter in the gateway *)

(** What is read from JSON has values of the Go types. *)
Lemma ParseUint_range bits l v : 0 <= bits -> ParseUint bits l = Some v -> in_u bits v.
Proof.
  unfold ParseUint. intros Hb. destruct (bool_decide (l = []) || negb (forallb is_digit l)) eqn:E; [done|].
  destruct (Z.ltb_spec (dec_val l) (2 ^ bits)); intros [= <-]. split; [|done].
  apply orb_false_iff in E as [_ E]. apply negb_false_iff in E.
  assert (forall l a, 0 <= a -> forallb is_digit l = true -> 0 <= fold_left (fun a b => 10 * a + (byte_val b - 48)) l a) as Hd.
  { intros l'. induction l' as [|b l' IH]; intros a Ha Hf; [done|]. cbn [fold_left forallb] in *.
    apply andb_true_iff in Hf as [Hb' Hf]. apply IH; [|done]. unfold is_digit in Hb'. guards. lia. }
  by apply Hd.
Qed.

Lemma decode_member_typed j k raw v j' : msg_typed j -> decode_member j k raw v = Some j' -> msg_typed j'.
Proof.
  intros [H1 H2 H3]. unfold decode_member.
  assert (forall bits old v z, 0 <= bits -> in_u bits old -> decode_uint bits old v = Some z -> in_u bits z) as Hu.
  { intros bits old v' z Hb Ho. destruct v'; cbn [decode_uint]; try done; [by intros [= <-]|]. by apply ParseUint_range. }
  repeat case_bool_decide; try (intros [= <-]; by split).
  - destruct (decode_uint _ _ _) as [z|] eqn:E; [|done]. intros [= <-]. apply Hu in E; [|done..]. by split.
  - destruct (decode_uint _ _ _) as [z|] eqn:E; [|done]. intros [= <-]. apply Hu in E; [|done..]. by split.
  - destruct (decode_uint _ _ _) as [z|] eqn:E; [|done]. intros [= <-]. apply Hu in E; [|done..]. by split.
  - destruct (decode_text _ _) as [z|]; [|done]. intros [= <-]. by split.
Qed.

Lemma unmarshal_msg_typed data j : unmarshal_msg data = Some j -> msg_typed j.
Proof.
  assert (msg_typed zero_jsonMsg) as H0 by (split; split; by vm_compute).
  unfold unmarshal_msg, decode_struct. destruct (parse data) as [[]|]; try done; [by intros [= <-]|].
  generalize zero_jsonMsg H0. clear H0. intros m Hm. revert m Hm. induction members as [|[[k raw] v] l IH]; intros m Hm.
  - by intros [= <-].
  - cbn [decode_all]. destruct (decode_member m _ raw v) as [m'|] eqn:E; [|done]. intros E2. eapply IH; [|exact E2].
    by eapply decode_member_typed.
Qed.

Section gateway.
Context `{AnyCodec} {B : Type} `{LoadBalancer B}.
Context (number_text : list byte -> option (list byte)) (at_ : Z) (spare : list byte) (nil_payload : bool).
Context (ok : io -> bool) (sd : InMemoryServiceDiscovery).

Abbreviation handle := (handleMessage (H0 := DefaultProtocolConverter number_text at_ spare nil_payload) ok sd).

(** The gateway takes the frame type of a WebSocket for the format of the
    message.  A binary frame has type 2, which is the text format, which
    WebSocket does not have: every binary message is refused. *)
Theorem gateway_ws_binary_refused now r s data w
    (Hs : ConnectionType s = ConnectionTypeWebSocket) :
  handle now r s 2 data w = (r, s, [], Fail (ErrToInternal ErrUnsupportedFormat)).
Proof. unfold handleMessage. cbn [ToInternal DefaultProtocolConverter]. by rewrite Hs. Qed.

(** The reply of the router is not JSON. *)
Lemma placeholder_not_json : marshal_raw response_text = None /\ quic_payload number_text response_text = response_text.
Proof. by vm_compute. Qed.

(** Over QUIC a request in JSON is routed but never answered: the reply of the
    router is a text that is no JSON, and writing it as such fails. *)
Theorem gateway_quic_json_unanswered now r s data w r' s' es o
    (Hs : ConnectionType s = ConnectionTypeQUIC)
    (Hrun : handle now r s FormatTypeJSON data w = (r', s', es, o)) :
  es = [] /\ s' = s /\ o <> Ret tt.
Proof.
  unfold handleMessage in Hrun. cbn [ToInternal FromInternal DefaultProtocolConverter] in Hrun. rewrite Hs in Hrun.
  change (conv_ToInternal at_ spare ConnectionTypeQUIC FormatTypeJSON data) with (json_to_internal at_ ErrInvalidFormat data) in Hrun.
  destruct (json_to_internal at_ ErrInvalidFormat data) as [m|e|]; [|by simplify_eq|by simplify_eq].
  destruct (Route r sd (stamp m (ID s)) w) as [[r1 msg1] [[reply inst]|e|]] eqn:Hroute; [|by simplify_eq|by simplify_eq].
  apply route_reply in Hroute as (name & t & _ & ->).
  assert (conv_FromInternal number_text nil_payload ConnectionTypeQUIC FormatTypeJSON
            (response_to (fill_destination (stamp m (ID s)) name) name t) = Fail ErrJson) as E.
  { change (conv_FromInternal _ _ _ _ ?m) with (internal_to_quic_json number_text nil_payload m). unfold internal_to_quic_json.
    cbn [Payload response_to]. rewrite (proj2 placeholder_not_json), (proj1 placeholder_not_json).
    rewrite (bool_decide_eq_false_2 (response_text = [])) by done. by rewrite andb_false_r. }
  rewrite E in Hrun. by simplify_eq.
Qed.

(** C27: over WebSocket a request in JSON gets its answer in JSON: what the gateway
    writes decodes to a message with the types and flags of the request, the
    session of the gateway and the placeholder that the router answers with in place of every
    service. *)
Theorem gateway_ws_json_answered now r s data w r' s' es
    (Hs : ConnectionType s = ConnectionTypeWebSocket)
    (Hid : utf8_valid 0 (str_bytes (ID s)) = true)
    (Hrun : handle now r s FormatTypeJSON data w = (r', s', es, Ret tt)) :
  exists j d, unmarshal_msg data = Some j /\ (s', es) = (WriteMessage ok now s FormatTypeJSON d).1 /\
    unmarshal_msg d = Some (MkJsonMsg (jm_ServiceType j) (jm_MessageType j) (jm_Flags j) (quoted response_text) (str_bytes (ID s))).
Proof.
  unfold handleMessage in Hrun. cbn [ToInternal FromInternal DefaultProtocolConverter] in Hrun. rewrite Hs in Hrun.
  change (conv_ToInternal at_ spare ConnectionTypeWebSocket FormatTypeJSON data) with (json_to_internal at_ ErrJson data) in Hrun.
  unfold json_to_internal in Hrun. destruct (unmarshal_msg data) as [j|] eqn:Hj; [|done].
  apply unmarshal_msg_typed in Hj as Ht.
  set (m := set_session _ _) in Hrun. destruct (Route r sd (stamp m (ID s)) w) as [[r1 msg1] [[reply inst]|e|]] eqn:Hroute; [|done..].
  apply route_reply in Hroute as (name & t & _ & ->). set (reply := response_to _ _ _) in Hrun.
  change (conv_FromInternal _ _ _ _ reply) with (Ret (E := ConvError) (internal_to_ws_json reply)) in Hrun. cbv iota in Hrun.
  exists j, (internal_to_ws_json reply). split; [done|]. split.
  - destruct (WriteMessage ok now s FormatTypeJSON _) as [[s1 es1] [u|e|]]; by simplify_eq.
  - rewrite ws_json_parse.
    + unfold reply, fill_destination, m. case_decide; cbn [response_to ServiceType MessageType Flags SessionID stamp]; rewrite to_valid_id by done; done.
    + assert (in_u 8 1 /\ in_u 32 0) as [H8 H32] by (repeat split; by vm_compute).
      destruct Ht as [Ht1 Ht2 Ht3]. unfold reply, fill_destination, m.
      case_decide; split;
        cbn [Version Flags ServiceType MessageType SequenceID Timestamp PayloadLength response_to stamp set_destination
             set_session set_flags NewMessage]; try assumption; by apply uwrap_range.
Qed.
End gateway.

(** ** Processors and message types, proved *)

Lemma makeProcessorKey_inj s1 m1 s2 m2 :
  in_u 16 s1 -> in_u 16 m1 -> in_u 16 s2 -> in_u 16 m2 ->
  makeProcessorKey s1 m1 = makeProcessorKey s2 m2 -> s1 = s2 /\ m1 = m2.
Proof.
  assert (forall s m, in_u 16 s -> in_u 16 m -> Z.shiftr (makeProcessorKey s m) 16 = s /\ Z.land (makeProcessorKey s m) (Z.ones 16) = m) as Hk.
  { intros s m Hs Hm. unfold in_u in *. unfold makeProcessorKey. rewrite uwrap_small.
    - rewrite Z.shiftr_lor, Z.shiftr_shiftl_l, Z.land_lor_distr_l, !Z.land_ones, Z.shiftl_0_r by lia.
      rewrite (Z.shiftr_div_pow2 m), (Z.div_small m), Z.lor_0_r, (Z.mod_small m) by lia. split; [done|].
      rewrite Z.shiftl_mul_pow2 by lia. by rewrite Z.mod_mul by lia.
    - unfold in_u. rewrite Z.shiftl_mul_pow2 by lia. lia. }
  intros H1 H2 H3 H4 E. destruct (Hk s1 m1 H1 H2) as [A1 B1], (Hk s2 m2 H3 H4) as [A2 B2].
  rewrite E in A1, B1. split; congruence.
Qed.

Section registry_proofs.
Context {T : Type} `{Countable T}.
Implicit Types (l : list (MessageTypeInfo (T := T))).

(** An insertion per element: a lookup finds the last element of the key. *)
Lemma fold_insert_last {K V} `{Countable K} (key : MessageTypeInfo (T := T) -> option K) (k : K)
    (ins : gmap K V -> MessageTypeInfo (T := T) -> gmap K V) (v : MessageTypeInfo (T := T) -> V) l (m : gmap K V) acc :
  (forall m i, ins m i = match key i with Some k => <[k := v i]> m | None => m end) ->
  m !! k = v <$> acc ->
  fold_left ins l m !! k =
  v <$> fold_left (fun acc i => if bool_decide (key i = Some k) then Some i else acc) l acc.
Proof.
  intros Hins. revert m acc. induction l as [|i l IH]; intros m acc Hm; [done|]. cbn [fold_left]. apply IH. rewrite Hins.
  destruct (key i) as [k'|] eqn:E.
  - destruct (decide (k' = k)) as [->|Hne].
    + by rewrite lookup_insert_eq, bool_decide_eq_true_2.
    + rewrite lookup_insert_ne, bool_decide_eq_false_2 by congruence. done.
  - by rewrite bool_decide_eq_false_2.
Qed.

Definition registered l : MessageRegistry (T := T) := fold_left RegisterMessageType l NewMessageRegistry.

Definition info_typed (i : MessageTypeInfo (T := T)) : Prop := in_u 16 (info_ServiceType i) /\ in_u 16 (info_MessageType i).

Lemma registered_tables l r :
  typeInfoByID (fold_left RegisterMessageType l r) =
    fold_left (fun m i => <[makeProcessorKey (info_ServiceType i) (info_MessageType i) := i]> m) l (typeInfoByID r) /\
  typeInfoByName (fold_left RegisterMessageType l r) =
    fold_left (fun m i => <[full_name i := i]> m) l (typeInfoByName r) /\
  typeInfoByReqType (fold_left RegisterMessageType l r) =
    fold_left (fun m i => match RequestType i with Some t => <[t := i]> m | None => m end) l (typeInfoByReqType r).
Proof. revert r. induction l as [|i l IH]; intros r; [done|]. apply IH. Qed.

Lemma option_fmap_id' {A} (o : option A) : (fun x => x) <$> o = o.
Proof. by destruct o. Qed.

Lemma fold_ext {A B} (f g : A -> B -> A) (l : list B) a :
  (forall a x, x ∈ l -> f a x = g a x) -> fold_left f l a = fold_left g l a.
Proof.
  revert a. induction l as [|x l IH]; intros a Hfg; [done|]. cbn [fold_left].
  rewrite Hfg by apply list_elem_of_here. apply IH. intros. apply Hfg. by apply list_elem_of_further.
Qed.

(** Each of the three lookups of the message registry finds the last
    registration with that pair of types, that full name or that request type;
    no two pairs share a key. *)
Theorem registry_finds_last l st mt name t
    (Hl : Forall info_typed l) (Hst : in_u 16 st) (Hmt : in_u 16 mt) :
  GetTypeInfoByID (registered l) st mt =
    last_with (fun i => bool_decide (info_ServiceType i = st) && bool_decide (info_MessageType i = mt)) l /\
  GetTypeInfoByName (registered l) name = last_with (fun i => bool_decide (full_name i = name)) l /\
  GetTypeInfoByRequestType (registered l) t = last_with (fun i => bool_decide (RequestType i = Some t)) l.
Proof.
  destruct (registered_tables l NewMessageRegistry) as (H1 & H2 & H3).
  unfold GetTypeInfoByID, GetTypeInfoByName, GetTypeInfoByRequestType, registered, last_with. rewrite H1, H2, H3. split_and!.
  - rewrite (fold_insert_last (fun i => Some (makeProcessorKey (info_ServiceType i) (info_MessageType i))) _ _ (fun i => i) _ _ None);
      [|done|apply lookup_empty]. rewrite option_fmap_id'. apply fold_ext. intros acc i Hi.
    rewrite Forall_forall in Hl. apply Hl in Hi as [Hi1 Hi2].
    assert (bool_decide (Some (makeProcessorKey (info_ServiceType i) (info_MessageType i)) = Some (makeProcessorKey st mt)) =
            bool_decide (info_ServiceType i = st) && bool_decide (info_MessageType i = mt)) as ->; [|done].
    rewrite <- bool_decide_and. apply bool_decide_ext. split; [|by intros [-> ->]].
    intros [= E]. by apply makeProcessorKey_inj in E.
  - rewrite (fold_insert_last (fun i => Some (full_name i)) _ _ (fun i => i) _ _ None); [|done|apply lookup_empty].
    rewrite option_fmap_id'. apply fold_ext. intros acc i _.
    by rewrite (bool_decide_ext (Some (full_name i) = Some name) (full_name i = name)) by naive_solver.
  - rewrite (fold_insert_last (fun i => RequestType i) _ _ (fun i => i) _ _ None); [|done|apply lookup_empty].
    by rewrite option_fmap_id'.
Qed.
End registry_proofs.

(** ** Examples *)

(** A codec: the URL byte by byte, each behind a mark, then the value. *)
Fixpoint marked (l : list byte) : list byte :=
  match l with
  | [] => [Byte.x00]
  | b :: l => Byte.x01 :: b :: marked l
  end.

Fixpoint unmark (l : list byte) : option (list byte * list byte) :=
  match l with
  | [] => None
  | mark :: l =>
      if bool_decide (mark = Byte.x00) then Some ([], l)
      else match l with
           | b :: l => '(u, v) ← unmark l; Some (b :: u, v)
           | [] => None
           end
  end.

Lemma unmark_marked u v : unmark (marked u ++ v) = Some (u, v).
Proof. induction u as [|b u IH]; [done|]. cbn [marked app unmark]. rewrite bool_decide_eq_false_2 by done. by rewrite IH. Qed.

#[export, refine]
Instance marked_any : AnyCodec := {
  any_Marshal url value := Some (marked (str_bytes url) ++ value);
  any_Unmarshal data := '(u, v) ← unmark data; Some (bytes_str u, v)
}.
Proof.
  - intros url value data. simpl. intros [= <-]. rewrite unmark_marked. cbn [mbind option_bind]. by rewrite bytes_str_bytes.
  - intros url value _. simpl. by eexists.
Defined.

(** Numbers are written as they are read. *)
Definition same_number (n : list byte) : option (list byte) := Some n.

Definition greeting : Message :=
  set_session (set_flags (NewMessage 0 ServiceTypeChat 7 (str_bytes "hi <there>")) 4) "s1".

Lemma greeting_typed : message_typed greeting.
Proof. split; split; by vm_compute. Qed.

Lemma conv_binary_roundtrip_witness :
  exists data, conv_FromInternal same_number false ConnectionTypeQUIC FormatTypeBinary greeting = Ret data /\
    conv_ToInternal 9 [] ConnectionTypeQUIC FormatTypeBinary data = Ret (returned 9 greeting 4 "" (str_bytes "hi <there>")).
Proof. exact (conv_binary_roundtrip same_number 9 [] false greeting ConnectionTypeQUIC greeting_typed (or_intror eq_refl)). Defined.

Lemma conv_text_roundtrip_witness :
  exists data, conv_FromInternal same_number false ConnectionTypeQUIC FormatTypeText greeting = Ret data /\
    conv_ToInternal 9 [] ConnectionTypeQUIC FormatTypeText data = Ret (returned 9 greeting FlagNone "" (str_bytes "hi <there>")).
Proof. exact (conv_text_roundtrip same_number 9 [] false greeting greeting_typed). Defined.

Lemma conv_ws_json_roundtrip_witness :
  exists data m', conv_FromInternal same_number false ConnectionTypeWebSocket FormatTypeJSON greeting = Ret data /\
    conv_ToInternal 9 [] ConnectionTypeWebSocket FormatTypeJSON data = Ret m' /\
    Flags m' = 4 /\ SessionID m' = "s1"%string /\ Payload m' = str_bytes "hi <there>".
Proof.
  destruct (conv_ws_json_roundtrip same_number 9 [] false greeting greeting_typed) as (data & m' & H1 & H2 & _ & _ & H3 & _ & H4 & _ & H5 & _).
  exists data, m'. split_and!; [exact H1|exact H2|exact H3|apply H4; vm_compute; reflexivity|].
  apply H5; [vm_compute; reflexivity|vm_compute; discriminate|intros lit; vm_compute; discriminate].
Defined.

(** The texts of the sample in the two readable formats. *)
Example greeting_texts :
  internal_to_text greeting = str_bytes "2:7:aGkgPHRoZXJlPg==" /\
  bytes_str (filter (fun b => b <> c_quote) (internal_to_ws_json greeting)) =
    "{service_type:2,message_type:7,flags:4,payload:hi \u003cthere\u003e,session_id:s1}"%string.
Proof. by vm_compute. Qed.

(** Payloads that WebSocket's JSON changes: a JSON string loses its quotes, and
    [null] becomes empty. *)
Example ws_json_loses :
  ws_payload (quoted (str_bytes "abc")) = str_bytes "abc" /\ ws_payload (str_bytes "null") = [].
Proof. by vm_compute. Qed.

Lemma conv_ws_protobuf_witness :
  exists data, conv_FromInternal same_number false ConnectionTypeWebSocket FormatTypeProtobuf greeting = Ret data /\
    conv_ToInternal 9 [] ConnectionTypeWebSocket FormatTypeProtobuf data =
      Ret (NewMessage 9 (hash16 (str_bytes "service" ++ dec 2)) (hash16 (str_bytes "message" ++ dec 7)) (str_bytes "hi <there>")).
Proof. eexists. split; [reflexivity|]. apply (conv_ws_protobuf same_number 9 [] false greeting _ greeting_typed). reflexivity. Defined.

Lemma conv_never_panics_witness :
  ConnectionTypeQUIC <> ConnectionTypeInternal /\ conv_ToInternal 0 [] ConnectionTypeQUIC FormatTypeText [] <> Panic.
Proof. split; [done|]. apply (conv_never_panics same_number 0 [] false ConnectionTypeQUIC FormatTypeText [] greeting). done. Defined.

Definition quic_session : Session := MkSession "q1" "" ConnectionTypeQUIC 0 None None (Some 8%nat) (Some 9%nat) false.

Lemma gateway_ws_binary_refused_witness :
  ConnectionType sample_session = ConnectionTypeWebSocket /\
  handleMessage (H0 := DefaultProtocolConverter same_number 0 [] false) (fun _ => true) sample_sd 3 chat_router
      sample_session 2 [] TimedOut = (chat_router, sample_session, [], Fail (ErrToInternal ErrUnsupportedFormat)).
Proof.
  split; [done|].
  apply (gateway_ws_binary_refused same_number 0 [] false (fun _ => true) sample_sd 3 chat_router sample_session [] TimedOut). done.
Defined.

(** A request in JSON. *)
Definition json_request : list byte := internal_to_ws_json greeting.

Lemma gateway_quic_json_unanswered_witness :
  exists r' s' es o,
    handleMessage (H0 := DefaultProtocolConverter same_number 0 [] false) (fun _ => true) sample_sd 3 chat_router
      quic_session FormatTypeJSON json_request (Responded 5) = (r', s', es, o) /\ es = [] /\ o <> Ret tt.
Proof.
  destruct (handleMessage (H0 := DefaultProtocolConverter same_number 0 [] false) (fun _ => true) sample_sd 3 chat_router
      quic_session FormatTypeJSON json_request (Responded 5)) as [[[r' s'] es] o] eqn:E.
  exists r', s', es, o. split; [exact eq_refl|].
  destruct (gateway_quic_json_unanswered same_number 0 [] false (fun _ => true) sample_sd 3 chat_router quic_session
    json_request (Responded 5) r' s' es o eq_refl E) as (H1 & _ & H2). exact (conj H1 H2).
Defined.

Lemma gateway_ws_json_answered_witness :
  exists r' s' es, handleMessage (H0 := DefaultProtocolConverter same_number 0 [] false) (fun _ => true) sample_sd 3 chat_router
      sample_session FormatTypeJSON json_request (Responded 5) = (r', s', es, Ret tt) /\
    exists j d, unmarshal_msg json_request = Some j /\ (s', es) = (WriteMessage (fun _ => true) 3 sample_session FormatTypeJSON d).1 /\
      unmarshal_msg d = Some (MkJsonMsg (jm_ServiceType j) (jm_MessageType j) (jm_Flags j) (quoted response_text) (str_bytes "s1")).
Proof.
  destruct (handleMessage (H0 := DefaultProtocolConverter same_number 0 [] false) (fun _ => true) sample_sd 3 chat_router
      sample_session FormatTypeJSON json_request (Responded 5)) as [[[r' s'] es] o] eqn:E.
  assert (o = Ret tt) as -> by (apply (f_equal snd) in E; vm_compute in E; by rewrite <- E).
  exists r', s', es. split; [exact eq_refl|].
  apply (gateway_ws_json_answered same_number 0 [] false (fun _ => true) sample_sd 3 chat_router sample_session
    json_request (Responded 5) r' s' es); [reflexivity|by vm_compute|exact E].
Defined.

(** A type that is registered again under another name is still found under the
    old one. *)
Definition chat_type (name : string) : MessageTypeInfo (T := nat) := MkTypeInfo 2 1 "chat" name (Some 5%nat) None true "".

Lemma registry_finds_last_witness :
  GetTypeInfoByID (registered [chat_type "old"; chat_type "new"]) 2 1 = Some (chat_type "new") /\
  GetTypeInfoByName (registered [chat_type "old"; chat_type "new"]) "chat.old" = Some (chat_type "old").
Proof.
  assert (Forall (info_typed (T := nat)) [chat_type "old"; chat_type "new"]) as Hf.
  { repeat constructor; by vm_compute. }
  assert (in_u 16 2 /\ in_u 16 1) as [H2 H1] by (repeat split; by vm_compute).
  destruct (registry_finds_last [chat_type "old"; chat_type "new"] 2 1 "chat.old" 5%nat Hf H2 H1) as (E1 & E2 & _).
  split; [rewrite E1; reflexivity|rewrite E2; reflexivity].
Defined.
