(* ===== verification/ProtocolTest.v ===== *)
(** * The test of the protocol package ([cmd/protocol_test/main.go])

    The program builds one message, sends it through the internal encoding and the
    JSON of WebSocket, and routes it to a service with a registered handler.  It puts
    [Message.v], [Converter.v], [Registry.v] and [Router.v] together.  The clock, the
    bytes behind the decoded slice and how the wait for the response ends are
    arguments. *)

From stdpp Require Import base gmap strings list.
From Stdlib Require Import ZArith Lia.
From S2P Require Import Prelude Message Registry Router Session Gateway Json Converter.

Local Open Scope Z_scope.

(** A JSON text of the program, with its double quotes written as single ones. *)
Definition json_literal (s : string) : list byte :=
  (fun b => if bool_decide (b = Byte.x27) then Byte.x22 else b) <$> str_bytes s.

(** [response.SourceService, response.DestinationService = msg.DestinationService, msg.SourceService] *)
Definition swap_services (response msg : Message) : Message :=
  {| Version := Version response; Flags := Flags response; ServiceType := ServiceType response;
     MessageType := MessageType response; SequenceID := SequenceID response; Timestamp := Timestamp response;
     PayloadLength := PayloadLength response; SourceService := DestinationService msg; DestinationService := SourceService msg;
     CorrelationID := CorrelationID response; SessionID := SessionID response; Payload := Payload response |}.

Definition set_time (m : Message) (t : Z) : Message :=
  {| Version := Version m; Flags := Flags m; ServiceType := ServiceType m; MessageType := MessageType m; SequenceID := SequenceID m;
     Timestamp := uwrap 64 t; PayloadLength := PayloadLength m; SourceService := SourceService m; DestinationService := DestinationService m;
     CorrelationID := CorrelationID m; SessionID := SessionID m; Payload := Payload m |}.

Definition set_payload (m : Message) (p : list byte) : Message :=
  {| Version := Version m; Flags := Flags m; ServiceType := ServiceType m; MessageType := MessageType m; SequenceID := SequenceID m;
     Timestamp := Timestamp m; PayloadLength := PayloadLength m; SourceService := SourceService m; DestinationService := DestinationService m;
     CorrelationID := CorrelationID m; SessionID := SessionID m; Payload := p |}.

(** [EchoProcessor.ProcessMessage] *)
Definition echo_ProcessMessage (now : Z) (msg : Message) : Message := swap_services (set_time (Clone msg) now) msg.

Definition hello_payload : list byte := json_literal "{'content':'Hello, World!', 'from':'user1', 'to':'all'}".

(** The message of [main]. *)
Definition test_message (now : Z) : Message :=
  let m := NewMessage now ServiceTypeChat 1 hello_payload in
  {| Version := Version m; Flags := Flags m; ServiceType := ServiceType m; MessageType := MessageType m; SequenceID := SequenceID m;
     Timestamp := Timestamp m; PayloadLength := PayloadLength m; SourceService := "client"; DestinationService := "chat-service";
     CorrelationID := CorrelationID m; SessionID := "test-session-123"; Payload := Payload m |}.

Section program.
Context `{AnyCodec} (number_text : list byte -> option (list byte)).

(** The results that are printed: the binary message, what is decoded from it, the
    JSON message and what is read back from it.  An error ends the program. *)
Definition testFormatConversion (now : Z) (spare : list byte) (nil_payload : bool) (msg : Message) :
    outcome ConvError (list byte * Message * list byte * Message) :=
  binaryData ← lift_codec (Encode msg);
  decodedMsg ← lift_codec (Decode spare binaryData);
  jsonData ← conv_FromInternal number_text nil_payload ConnectionTypeWebSocket FormatTypeJSON msg;
  internalMsgFromJSON ← conv_ToInternal now spare ConnectionTypeWebSocket FormatTypeJSON jsonData;
  Ret (binaryData, decodedMsg, jsonData, internalMsgFromJSON).
End program.

(** The handler that is registered for the message. *)
Definition status_payload : list byte := json_literal "{'status':'ok', 'message':'Message received'}".

Definition chat_handler (m : Message) : Message := set_payload (swap_services (Clone m) m) status_payload.

Definition test_registry : HandlerRegistry (Message -> Message) :=
  (RegisterHandler NewHandlerRegistry ServiceTypeChat 1 chat_handler).1.

Section routing_test.
Context (grow : nat -> nat).

Definition test_discovery (now : Z) : InMemoryServiceDiscovery :=
  (RegisterServiceInstance grow NewInMemoryServiceDiscovery
     (MkServiceInstance "chat-service-1" "chat-service" "localhost:8080" 100 "up" now ∅)).1.

Definition test_router : MessageRouter RoundRobinLoadBalancer :=
  RegisterServiceType {| loadBalancer := NewRoundRobinLoadBalancer; serviceMap := ∅ |} ServiceTypeChat "chat-service".

(** The response, with the instance; an error ends the program. *)
Definition testMessageRouting (now : Z) (msg : Message) (w : route_wait) : outcome RouteError (Message * ServiceInstance) :=
  (Route test_router (test_discovery now) msg w).2.
End routing_test.

(** ** What the program shows *)

(** The echo: a copy with a new time that goes back where the message came from. *)
Theorem protocol_echo now msg :
  echo_ProcessMessage now msg = swap_services (set_time msg now) msg /\
  echo_ProcessMessage now (echo_ProcessMessage now msg) = set_time msg now.
Proof.
  assert (forall m, Clone m = m) as Hc.
  { intros m. destruct m as [v f s t q ti n src dst c se p]. unfold Clone. cbn [Payload Version Flags ServiceType MessageType SequenceID Timestamp
      PayloadLength SourceService DestinationService CorrelationID SessionID].
    assert (blit 0 p (replicate (length p) Byte.x00) = p) as ->; [|done].
    pose proof (blit_zeros 0 (length p) p [] Byte.x00 eq_refl (Nat.le_refl _)) as Hb. cbn [app] in Hb. by rewrite Hb, Nat.sub_diag, app_nil_r. }
  unfold echo_ProcessMessage. rewrite !Hc. split; [done|]. by destruct msg.
Qed.

Section outcome.
Context `{AnyCodec} (number_text : list byte -> option (list byte)).

Lemma test_message_typed now : in_u 64 now -> message_typed (test_message now) /\ encodable (test_message now).
Proof.
  intros Hn. split; [|by vm_compute]. split; cbn -[Z.pow]; try done; unfold in_u; cbn; lia.
Qed.

(** The conversions of the test program succeed whenever it runs, and their
    results are not what was put in: the binary form brings back only the first six
    bytes of the payload, as many as the name of the source has; JSON brings back
    the payload and the session, and neither service. *)
Theorem protocol_conversion_truncates now now' spare nil_payload (Hnow : in_u 64 now) :
  exists binary decoded json internal,
    testFormatConversion number_text now' spare nil_payload (test_message now) = Ret (binary, decoded, json, internal) /\
    length hello_payload = 55%nat /\ Payload decoded = take 6 hello_payload /\ PayloadLength decoded = 6 /\
    SourceService decoded = "client"%string /\ SessionID decoded = "test-session-123"%string /\
    Payload internal = hello_payload /\ SessionID internal = "test-session-123"%string /\ SourceService internal = ""%string.
Proof.
  destruct (test_message_typed now Hnow) as [Ht He]. unfold testFormatConversion. rewrite encode_wire by done. cbn [lift_codec mbind outcome_bind].
  rewrite decode_wire by done.
  assert (decoded_length (test_message now) = 6) as Hd by (by vm_compute).
  assert (length (Payload (test_message now)) = 55%nat) as Hp by (by vm_compute). rewrite Hd, Hp. cbn [Z.ltb Z.compare lift_codec mbind outcome_bind].
  change (Z.of_nat 55 <? 6) with false. cbn iota. cbn [lift_codec mbind outcome_bind].
  destruct (ws_json_roundtrip number_text now' spare nil_payload (test_message now) Ht) as [-> Hj]. cbn [mbind outcome_bind]. rewrite Hj. cbn [mbind outcome_bind].
  eexists _, _, _, _. split; [reflexivity|]. split; [done|]. unfold decoded. cbn [Payload PayloadLength SourceService SessionID]. rewrite Hd.
  split_and!; try done; by vm_compute.
Qed.
End outcome.

(** The routing of the test program: the message reaches the instance and is
    answered, but not by the registered handler, which the router never asks: the
    response is the router's placeholder. *)
Theorem protocol_handler_unused grow now sent t :
  GetHandler test_registry ServiceTypeChat 1 = Ret chat_handler /\
  exists response inst,
    testMessageRouting grow now (test_message sent) (Responded t) = Ret (response, inst) /\
    Router.ID inst = "chat-service-1"%string /\ DestinationService response = "client"%string /\ SourceService response = "chat-service"%string /\
    Payload response = response_text /\ Payload (chat_handler (test_message sent)) = status_payload /\ response_text <> status_payload.
Proof.
  split; [done|]. unfold testMessageRouting.
  set (i := MkServiceInstance "chat-service-1" "chat-service" "localhost:8080" 100 "up" now ∅).
  assert (view (test_discovery grow now) !! "chat-service"%string = Some [i]) as Hv.
  { rewrite view_lookup. unfold test_discovery, RegisterServiceInstance. cbn [ServiceName fst NewInMemoryServiceDiscovery instances].
    rewrite lookup_empty. cbn [set_array instances]. rewrite lookup_insert_eq. cbn [fmap option_fmap option_map]. unfold contents. cbn [arr slen arrays set_array].
    rewrite lookup_insert_eq. done. }
  pose proof (route_spec test_router (test_discovery grow now) (test_message sent) (Responded t)) as Hr.
  change (serviceMap test_router !! ServiceType (test_message sent)) with (Some "chat-service"%string) in Hr. cbv zeta iota in Hr.
  rewrite Hv in Hr. rewrite decide_False in Hr by done.
  destruct Hr as (r' & inst & Hin & _ & _ & ->).
  { intros name l [= <-] Hl. rewrite Hv in Hl. injection Hl as <-. by vm_compute. }
  apply list_elem_of_singleton in Hin as ->. eexists _, _. split; [reflexivity|]. split_and!; done.
Qed.

(** ** Examples *)

Lemma protocol_conversion_truncates_witness :
  exists binary decoded json internal,
    testFormatConversion same_number 0 [] false (test_message 0) = Ret (binary, decoded, json, internal) /\ PayloadLength decoded = 6.
Proof.
  destruct (protocol_conversion_truncates same_number 0 0 [] false) as (b & d & j & i & Hr & _ & _ & Hl & _); [by vm_compute|].
  exists b, d, j, i. exact (conj Hr Hl).
Defined.
