(* ===== verification/Security.v ===== *)
(** * Encrypted connections ([pkg/security/crypto.go],
      [pkg/gateway/secure_connection.go], [tools/secure_ws_client.go])

    The key store and its messages, the server's side of an encrypted WebSocket
    and the client that the repository ships for it.  The cipher, the curve and
    the hash are used through an interface with their laws.  Frames, lengths and
    JSON are modelled to the byte; what a connection reads is an argument, what it
    writes a result. *)

From stdpp Require Import base gmap strings numbers list.
From Stdlib Require Import ZArith Lia.
From S2P Require Import Prelude Json.

Local Open Scope Z_scope.

(** ** Cryptography *)

(** AES-GCM with 12-byte nonces; the P-256 curve, whose points are written on 65
    bytes; the key that SHA-256 makes of a shared point.  [Agree] is
    [elliptic.Unmarshal], [ScalarMult] and the hash: it fails for bytes that are no
    point. *)
Class Crypto (PrivateKey : Type) := {
  Seal : list byte -> list byte -> list byte -> list byte;
  Open : list byte -> list byte -> list byte -> option (list byte);
  PublicKey : PrivateKey -> list byte;
  Agree : PrivateKey -> list byte -> option (list byte);
  open_seal key nonce p : Open key nonce (Seal key nonce p) = Some p;
  open_sealed key nonce c p : Open key nonce c = Some p -> c = Seal key nonce p;
  seal_length key nonce p : length (Seal key nonce p) = (length p + 16)%nat;
  public_length k : length (PublicKey k) = 65%nat;
  agree_length k bytes key : Agree k bytes = Some key -> length bytes = 65%nat /\ length key = 32%nat;
  agree_both a b : exists key, Agree a (PublicKey b) = Some key /\ Agree b (PublicKey a) = Some key
}.

Inductive CryptoError :=
  | ErrRandom
  | ErrPayloadTooLarge
  | ErrKeyNotFound
  | ErrCipherKey
  | ErrInvalidNonceSize
  | ErrOpen
  | ErrInvalidPublicKey
  | ErrTimestampFormat
  | ErrExpired
  | ErrTimestamp.

Definition NonceSize : nat := 12.
Definition KeySize : nat := 32.
Definition MaxPayloadSize : Z := 16 * 1024 * 1024.
Definition second : Z := 1000000000.
Definition DefaultKeyRotationInterval : Z := 24 * 3600 * second.

Record EncryptedMessage := MkEncrypted {
  Nonce : list byte;
  Ciphertext : list byte;
  em_SessionID : string
}.

Section security.
Context {PrivateKey : Type} `{Crypto PrivateKey}.

(** ** The key store *)

(** Times are nanoseconds. *)
Record CryptoManager := MkCryptoManager {
  sessionKeys : gmap string (list byte);
  privateKey : PrivateKey;
  keyExpiration : Z;
  rotationPeriod : Z
}.

Definition set_keys (cm : CryptoManager) (keys : gmap string (list byte)) : CryptoManager :=
  MkCryptoManager keys (privateKey cm) (keyExpiration cm) (rotationPeriod cm).

(** The configured interval in seconds, on 64 bits. *)
Definition rotation_period (interval : option Z) : Z :=
  match interval with
  | Some i => if 0 <? i then int64 (i * second) else DefaultKeyRotationInterval
  | None => DefaultKeyRotationInterval
  end.

(** [random] is what the generator of key pairs returns. *)
Definition NewCryptoManager (interval : option Z) (now : Z) (random : option PrivateKey) : outcome CryptoError CryptoManager :=
  match random with
  | None => Fail ErrRandom
  | Some k => Ret (MkCryptoManager ∅ k (now + rotation_period interval) (rotation_period interval))
  end.

Definition GenerateSessionKey (cm : CryptoManager) (sessionID : string) (random : option (list byte)) :
    CryptoManager * outcome CryptoError (list byte) :=
  match random with
  | None => (cm, Fail ErrRandom)
  | Some key => (set_keys cm (<[sessionID := key]> (sessionKeys cm)), Ret key)
  end.

Definition RotateKeys (cm : CryptoManager) (now : Z) (random : option PrivateKey) : CryptoManager * outcome CryptoError unit :=
  match random with
  | None => (cm, Fail ErrRandom)
  | Some k => (MkCryptoManager (sessionKeys cm) k (now + rotationPeriod cm) (rotationPeriod cm), Ret tt)
  end.

Definition DeriveSharedKey (cm : CryptoManager) (now : Z) (random : option PrivateKey) (sessionID : string)
    (peerPublicKeyBytes : list byte) : CryptoManager * outcome CryptoError (list byte) :=
  let '(cm, o) := if now >? keyExpiration cm then RotateKeys cm now random else (cm, Ret tt) in
  match o with
  | Ret _ =>
      match Agree (privateKey cm) peerPublicKeyBytes with
      | None => (cm, Fail ErrInvalidPublicKey)
      | Some key => (set_keys cm (<[sessionID := key]> (sessionKeys cm)), Ret key)
      end
  | Fail e => (cm, Fail e)
  | Panic => (cm, Panic)
  end.

Definition GetPublicKeyBytes (cm : CryptoManager) : list byte := PublicKey (privateKey cm).

Definition GetSessionKey (cm : CryptoManager) (sessionID : string) : option (list byte) := sessionKeys cm !! sessionID.

Definition RemoveSessionKey (cm : CryptoManager) (sessionID : string) : CryptoManager :=
  set_keys cm (delete sessionID (sessionKeys cm)).

(** [aes.NewCipher] takes keys of 16, 24 and 32 bytes. *)
Definition cipher_key (key : list byte) : bool :=
  ((length key =? 16) || (length key =? 24) || (length key =? 32))%nat.

Definition Encrypt (cm : CryptoManager) (random : option (list byte)) (plaintext : list byte) (sessionID : string) :
    outcome CryptoError EncryptedMessage :=
  fail_if (Z.of_nat (length plaintext) >? MaxPayloadSize) ErrPayloadTooLarge;;
  match sessionKeys cm !! sessionID with
  | None => Fail ErrKeyNotFound
  | Some key =>
      fail_if (negb (cipher_key key)) ErrCipherKey;;
      match random with
      | None => Fail ErrRandom
      | Some nonce => Ret (MkEncrypted nonce (Seal key nonce plaintext) sessionID)
      end
  end.

Definition Decrypt (cm : CryptoManager) (em : EncryptedMessage) : outcome CryptoError (list byte) :=
  match sessionKeys cm !! em_SessionID em with
  | None => Fail ErrKeyNotFound
  | Some key =>
      fail_if (negb (cipher_key key)) ErrCipherKey;;
      fail_if (negb (length (Nonce em) =? NonceSize)%nat) ErrInvalidNonceSize;;
      match Open key (Nonce em) (Ciphertext em) with
      | None => Fail ErrOpen
      | Some plaintext => Ret plaintext
      end
  end.

(** [now] is in seconds. *)
Definition EncryptWithTimestamp (cm : CryptoManager) (now : Z) (random : option (list byte)) (plaintext : list byte)
    (sessionID : string) (ttlSeconds : Z) : outcome CryptoError EncryptedMessage :=
  Encrypt cm random (be_put 8 (uwrap 64 now) ++ be_put 4 (uwrap 32 ttlSeconds) ++ plaintext) sessionID.

Definition DecryptWithTimestamp (cm : CryptoManager) (now : Z) (em : EncryptedMessage) : outcome CryptoError (list byte) :=
  plaintext ← Decrypt cm em;
  fail_if (length plaintext <? 12)%nat ErrTimestampFormat;;
  timestamp ← get_uint 8 0 plaintext;
  ttl ← get_uint 4 8 plaintext;
  let timestamp := int64 timestamp in
  fail_if (now >? int64 (timestamp + ttl)) ErrExpired;;
  fail_if ((now <? timestamp) || (now >? int64 (timestamp + ttl))) ErrTimestamp;;
  slice 12 (length plaintext) plaintext.

(** ** The server's connection *)

Definition MessageTypeHandshake : Z := 1.
Definition MessageTypeData : Z := 2.
Definition MessageTypePing : Z := 3.
Definition MessageTypePong : Z := 4.
Definition MessageTypeClose : Z := 5.
Definition MessageTypeHandshakeRequest : Z := 1.
Definition MessageTypeHandshakeResponse : Z := 2.

Inductive ConnError :=
  | ErrReadHandshake
  | ErrHandshakeFormat
  | ErrUnexpectedType
  | ErrHandshakeShort
  | ErrHandshakeJson
  | ErrSessionMismatch
  | ErrDerive (e : CryptoError)
  | ErrWriteHandshake
  | ErrNotEncrypted
  | ErrEncrypt (e : CryptoError)
  | ErrWrite
  | ErrRead
  | ErrShort
  | ErrContentShort
  | ErrDataJson
  | ErrDecrypt (e : CryptoError)
  | ErrWritePong
  | ErrEOF
  | ErrUnknownType (t : Z).

Record HandshakeMessage := MkHandshake {
  hs_Type : Z;
  hs_PublicKey : list byte;
  hs_SessionID : list byte;
  hs_Timestamp : Z;
  hs_TTL : Z;
  hs_Nonce : list byte
}.

Definition decode_handshake (m : HandshakeMessage) (key raw : list byte) (v : json) : option HandshakeMessage :=
  if bool_decide (key = str_bytes "TYPE") then
    x ← decode_int 64 (hs_Type m) v;
    Some (MkHandshake x (hs_PublicKey m) (hs_SessionID m) (hs_Timestamp m) (hs_TTL m) (hs_Nonce m))
  else if bool_decide (key = str_bytes "PUBLIC_KEY") then
    x ← decode_text (hs_PublicKey m) v;
    Some (MkHandshake (hs_Type m) x (hs_SessionID m) (hs_Timestamp m) (hs_TTL m) (hs_Nonce m))
  else if bool_decide (key = str_bytes "SESSION_ID") then
    x ← decode_text (hs_SessionID m) v;
    Some (MkHandshake (hs_Type m) (hs_PublicKey m) x (hs_Timestamp m) (hs_TTL m) (hs_Nonce m))
  else if bool_decide (key = str_bytes "TIMESTAMP") then
    x ← decode_int 64 (hs_Timestamp m) v;
    Some (MkHandshake (hs_Type m) (hs_PublicKey m) (hs_SessionID m) x (hs_TTL m) (hs_Nonce m))
  else if bool_decide (key = str_bytes "TTL") then
    x ← decode_int 64 (hs_TTL m) v;
    Some (MkHandshake (hs_Type m) (hs_PublicKey m) (hs_SessionID m) (hs_Timestamp m) x (hs_Nonce m))
  else if bool_decide (key = str_bytes "NONCE") then
    x ← decode_text (hs_Nonce m) v;
    Some (MkHandshake (hs_Type m) (hs_PublicKey m) (hs_SessionID m) (hs_Timestamp m) (hs_TTL m) x)
  else Some m.

Definition unmarshal_handshake (data : list byte) : option HandshakeMessage :=
  decode_struct decode_handshake (MkHandshake 0 [] [] 0 0 []) data.

(** A text field that is left out when it is empty. *)
Definition omitempty (name : string) (s : list byte) : list (list byte * list byte) :=
  if bool_decide (s = []) then [] else [(str_bytes name, quoted s)].

Definition marshal_handshake (m : HandshakeMessage) : list byte :=
  object_text ((str_bytes "type", dec (hs_Type m)) :: omitempty "public_key" (hs_PublicKey m)
    ++ omitempty "session_id" (hs_SessionID m)
    ++ [(str_bytes "timestamp", dec (hs_Timestamp m)); (str_bytes "ttl", dec (hs_TTL m))]
    ++ omitempty "nonce" (hs_Nonce m)).

Definition decode_encrypted (m : EncryptedMessage) (key raw : list byte) (v : json) : option EncryptedMessage :=
  if bool_decide (key = str_bytes "NONCE") then
    x ← decode_bytes v; Some (MkEncrypted x (Ciphertext m) (em_SessionID m))
  else if bool_decide (key = str_bytes "CIPHERTEXT") then
    x ← decode_bytes v; Some (MkEncrypted (Nonce m) x (em_SessionID m))
  else if bool_decide (key = str_bytes "SESSIONID") then
    x ← decode_text (str_bytes (em_SessionID m)) v; Some (MkEncrypted (Nonce m) (Ciphertext m) (bytes_str x))
  else Some m.

Definition unmarshal_encrypted (data : list byte) : option EncryptedMessage :=
  decode_struct decode_encrypted (MkEncrypted [] [] "") data.

Definition marshal_encrypted (m : EncryptedMessage) : list byte :=
  object_text [(str_bytes "Nonce", quoted (b64_encode (Nonce m))); (str_bytes "Ciphertext", quoted (b64_encode (Ciphertext m)));
               (str_bytes "SessionID", quoted (str_bytes (em_SessionID m)))].

Record SecureWebSocketConnection := MkSecure {
  sessionID : string;
  isEncrypted : bool;
  handshakeDone : bool
}.

Definition NewSecureWebSocketConnection (id : string) : SecureWebSocketConnection := MkSecure id false false.

(** The body of a handshake message: the length is added to the header's on 32
    bits before it is compared. *)
Definition handshake_body (expected : Z) (message : list byte) : outcome ConnError (list byte) :=
  fail_if (length message <? 6)%nat ErrHandshakeFormat;;
  msgType ← get_uint 1 0 message;
  handshakeType ← get_uint 1 1 message;
  handshakeMsgLen ← get_uint 4 2 message;
  fail_if (negb (msgType =? MessageTypeHandshake) || negb (handshakeType =? expected)) ErrUnexpectedType;;
  let end_ := uwrap 32 (6 + handshakeMsgLen) in
  fail_if (Z.of_nat (length message) <? end_) ErrHandshakeShort;;
  slice 6 (Z.to_nat end_) message.

(** Type, handshake type, length and body; the buffer's size is computed on 32
    bits. *)
Definition handshake_frame (handshakeType : Z) (body : list byte) : outcome ConnError (list byte) :=
  let responseLen := uwrap 32 (Z.of_nat (length body)) in
  let response := replicate (Z.to_nat (uwrap 32 (6 + responseLen))) Byte.x00 in
  response ← put_at 0 1 [byte_of MessageTypeHandshake] response;
  response ← put_at 1 2 [byte_of handshakeType] response;
  response ← put_at 2 6 (be_put 4 responseLen) response;
  copy_from 6 body response.

(** [message] is what the connection reads, [nonce] what [generateNonce] returns
    and [write_ok] whether the response goes out. *)
Definition Handshake (cm : CryptoManager) (sc : SecureWebSocketConnection) (now : Z) (random : option PrivateKey)
    (nonce : list byte) (message : option (list byte)) (write_ok : bool) :
    CryptoManager * SecureWebSocketConnection * list (list byte) * outcome ConnError unit :=
  if handshakeDone sc then (cm, sc, [], Ret tt)
  else match message with
  | None => (cm, sc, [], Fail ErrReadHandshake)
  | Some message =>
      match handshake_body MessageTypeHandshakeRequest message with
      | Panic => (cm, sc, [], Panic)
      | Fail e => (cm, sc, [], Fail e)
      | Ret body =>
          match unmarshal_handshake body with
          | None => (cm, sc, [], Fail ErrHandshakeJson)
          | Some hsRequest =>
              if negb (bool_decide (hs_SessionID hsRequest = str_bytes (sessionID sc))) then (cm, sc, [], Fail ErrSessionMismatch)
              else match DeriveSharedKey cm now random (sessionID sc) (hs_PublicKey hsRequest) with
              | (cm, Panic) => (cm, sc, [], Panic)
              | (cm, Fail e) => (cm, sc, [], Fail (ErrDerive e))
              | (cm, Ret _) =>
                  let hsResponse := MkHandshake MessageTypeHandshakeResponse (b64_encode (GetPublicKeyBytes cm))
                                      (str_bytes (sessionID sc)) (now / second) 60 (b64_encode nonce) in
                  match handshake_frame MessageTypeHandshakeResponse (marshal_handshake hsResponse) with
                  | Panic => (cm, sc, [], Panic)
                  | Fail e => (cm, sc, [], Fail e)
                  | Ret response =>
                      if write_ok then (cm, MkSecure (sessionID sc) true true, [response], Ret tt)
                      else (cm, sc, [], Fail ErrWriteHandshake)
                  end
              end
          end
      end
  end.

(** Type, length and body. *)
Definition data_frame (body : list byte) : outcome ConnError (list byte) :=
  let msgLen := uwrap 32 (Z.of_nat (length body)) in
  let message := replicate (Z.to_nat (uwrap 32 (5 + msgLen))) Byte.x00 in
  message ← put_at 0 1 [byte_of MessageTypeData] message;
  message ← put_at 1 5 (be_put 4 msgLen) message;
  copy_from 5 body message.

Definition Send (cm : CryptoManager) (sc : SecureWebSocketConnection) (now : Z) (random : option (list byte))
    (data : list byte) (write_ok : bool) : list (list byte) * outcome ConnError unit :=
  if negb (isEncrypted sc) then ([], Fail ErrNotEncrypted)
  else match EncryptWithTimestamp cm now random data (sessionID sc) 60 with
  | Panic => ([], Panic)
  | Fail e => ([], Fail (ErrEncrypt e))
  | Ret em =>
      match data_frame (marshal_encrypted em) with
      | Panic => ([], Panic)
      | Fail e => ([], Fail e)
      | Ret message => if write_ok then ([message], Ret tt) else ([], Fail ErrWrite)
      end
  end.

(** The type and the end of the body of a frame. *)
Definition frame_head (message : list byte) : outcome ConnError (Z * Z) :=
  fail_if (length message <? 5)%nat ErrShort;;
  msgType ← get_uint 1 0 message;
  msgLen ← get_uint 4 1 message;
  let end_ := uwrap 32 (5 + msgLen) in
  fail_if (Z.of_nat (length message) <? end_) ErrContentShort;;
  Ret (msgType, end_).

Definition receive_data (cm : CryptoManager) (now : Z) (message : list byte) (end_ : Z) : outcome ConnError (list byte) :=
  body ← slice 5 (Z.to_nat end_) message;
  match unmarshal_encrypted body with
  | None => Fail ErrDataJson
  | Some em =>
      match DecryptWithTimestamp cm now em with
      | Ret data => Ret data
      | Fail e => Fail (ErrDecrypt e)
      | Panic => Panic
      end
  end.

Definition pong : list byte := byte_of MessageTypePong :: be_put 4 0.

(** What the connection reads, with the time in seconds; [ok] tells whether a
    pong goes out after those already written.  No result means that the call
    still waits. *)
Fixpoint Receive (ok : nat -> bool) (cm : CryptoManager) (sc : SecureWebSocketConnection) (reads : list (Z * option (list byte)))
    (pongs : nat) : nat * list (Z * option (list byte)) * option (outcome ConnError (list byte)) :=
  if negb (isEncrypted sc) then (pongs, reads, Some (Fail ErrNotEncrypted))
  else match reads with
  | [] => (pongs, [], None)
  | (_, None) :: rest => (pongs, rest, Some (Fail ErrRead))
  | (now, Some message) :: rest =>
      match frame_head message with
      | Panic => (pongs, rest, Some Panic)
      | Fail e => (pongs, rest, Some (Fail e))
      | Ret (msgType, end_) =>
          if msgType =? MessageTypeData then (pongs, rest, Some (receive_data cm now message end_))
          else if msgType =? MessageTypePing then
            if ok pongs then Receive ok cm sc rest (S pongs) else (pongs, rest, Some (Fail ErrWritePong))
          else if msgType =? MessageTypeClose then (pongs, rest, Some (Fail ErrEOF))
          else (pongs, rest, Some (Fail (ErrUnknownType msgType)))
      end
  end.

(** The frame of the close, if the connection is encrypted. *)
Definition Close (cm : CryptoManager) (sc : SecureWebSocketConnection) : CryptoManager * list (list byte) :=
  (RemoveSessionKey cm (sessionID sc),
   if isEncrypted sc then [byte_of MessageTypeClose :: be_put 4 0] else []).

(** ** The client *)

Record SecureClient := MkClient {
  c_privateKey : PrivateKey;
  c_publicKey : list byte;
  c_sharedKey : list byte;
  c_sessionID : string;
  isSecure : bool
}.

(** The client makes up its session ID from the time. *)
Definition NewSecureClient (now : Z) (k : PrivateKey) : SecureClient :=
  MkClient k (PublicKey k) [] ("client-" +:+ bytes_str (dec now)) false.

(** The key is a byte slice, which JSON carries in base64. *)
Definition client_hello (c : SecureClient) : list byte :=
  object_text [(str_bytes "type", dec MessageTypeHandshakeRequest);
               (str_bytes "public_key", quoted (b64_encode (c_publicKey c)));
               (str_bytes "session_id", quoted (str_bytes (c_sessionID c)));
               (str_bytes "version", quoted (str_bytes "1.0"))].

Definition client_request (c : SecureClient) : outcome ConnError (list byte) :=
  handshake_frame MessageTypeHandshakeRequest (client_hello c).

Definition decode_client_handshake (m : list byte * string) (key raw : list byte) (v : json) : option (list byte * string) :=
  if bool_decide (key = str_bytes "TYPE") then _ ← decode_uint 8 0 v; Some m
  else if bool_decide (key = str_bytes "PUBLIC_KEY") then x ← decode_bytes v; Some (x, m.2)
  else if bool_decide (key = str_bytes "SESSION_ID") then x ← decode_text (str_bytes m.2) v; Some (m.1, bytes_str x)
  else if bool_decide (key = str_bytes "VERSION") then _ ← decode_text [] v; Some m
  else Some m.

(** The second half of the client's handshake, on what it reads. *)
Definition client_response (c : SecureClient) (response : option (list byte)) : SecureClient * outcome ConnError unit :=
  match response with
  | None => (c, Fail ErrReadHandshake)
  | Some response =>
      match handshake_body MessageTypeHandshakeResponse response with
      | Panic => (c, Panic)
      | Fail e => (c, Fail e)
      | Ret body =>
          match decode_struct decode_client_handshake ([], ""%string) body with
          | None => (c, Fail ErrHandshakeJson)
          | Some (key, id) =>
              if negb (bool_decide (id = c_sessionID c)) then (c, Fail ErrSessionMismatch)
              else match Agree (c_privateKey c) key with
              | None => (c, Fail (ErrDerive ErrInvalidPublicKey))
              | Some shared => (MkClient (c_privateKey c) (c_publicKey c) shared (c_sessionID c) true, Ret tt)
              end
          end
      end
  end.

(** The whole handshake: the request, whether it goes out, and what comes back. *)
Definition client_Handshake (c : SecureClient) (write_ok : bool) (response : option (list byte)) :
    SecureClient * list (list byte) * outcome ConnError unit :=
  if isSecure c then (c, [], Ret tt)
  else match client_request c with
  | Panic => (c, [], Panic)
  | Fail e => (c, [], Fail e)
  | Ret request =>
      if write_ok then let '(c, o) := client_response c response in (c, [request], o)
      else (c, [], Fail ErrWriteHandshake)
  end.

(** The client sends its data as they are. *)
Definition client_Send (c : SecureClient) (data : list byte) : outcome ConnError (list byte) :=
  if negb (isSecure c) then Fail ErrNotEncrypted else data_frame data.

(** The client takes the body of a frame as it is. *)
Fixpoint client_Receive (ok : nat -> bool) (c : SecureClient) (reads : list (option (list byte))) (pongs : nat) :
    nat * list (option (list byte)) * option (outcome ConnError (list byte)) :=
  if negb (isSecure c) then (pongs, reads, Some (Fail ErrNotEncrypted))
  else match reads with
  | [] => (pongs, [], None)
  | None :: rest => (pongs, rest, Some (Fail ErrRead))
  | Some message :: rest =>
      match frame_head message with
      | Panic => (pongs, rest, Some Panic)
      | Fail e => (pongs, rest, Some (Fail e))
      | Ret (msgType, end_) =>
          if msgType =? MessageTypeData then (pongs, rest, Some (slice 5 (Z.to_nat end_) message))
          else if msgType =? MessageTypePing then
            if ok pongs then client_Receive ok c rest (S pongs) else (pongs, rest, Some (Fail ErrWritePong))
          else if msgType =? MessageTypeClose then (pongs, rest, Some (Fail ErrEOF))
          else (pongs, rest, Some (Fail (ErrUnknownType msgType)))
      end
  end.

End security.

(** ** Frames and their JSON, proved *)

Lemma data_frame_wire body :
  Z.of_nat (length body) < 2 ^ 32 - 5 ->
  data_frame body = Ret (byte_of MessageTypeData :: be_put 4 (Z.of_nat (length body)) ++ body).
Proof.
  intros Hl. unfold data_frame. rewrite (uwrap_small 32 (Z.of_nat (length body))) by (unfold in_u; lia).
  rewrite uwrap_small by (unfold in_u; lia). replace (Z.to_nat (5 + Z.of_nat (length body))) with (5 + length body)%nat by lia.
  rewrite (put_at_zeros 0 1 _ [] (5 + length body)) by (simpl; lia). gosimpl.
  rewrite put_at_zeros by (simpl; lia). gosimpl. rewrite (take_ge (be_put 4 _)) by (rewrite length_be_put; lia).
  rewrite copy_from_zeros by (rewrite ?length_app, ?length_be_put; simpl; lia). rewrite !length_be_put.
  replace (_ - length body)%nat with 0%nat by (simpl; lia). cbn [replicate]. by rewrite app_nil_r, <- !app_assoc.
Qed.

Lemma handshake_frame_wire t body :
  Z.of_nat (length body) < 2 ^ 32 - 6 ->
  handshake_frame t body = Ret (byte_of MessageTypeHandshake :: byte_of t :: be_put 4 (Z.of_nat (length body)) ++ body).
Proof.
  intros Hl. unfold handshake_frame. rewrite (uwrap_small 32 (Z.of_nat (length body))) by (unfold in_u; lia).
  rewrite uwrap_small by (unfold in_u; lia). replace (Z.to_nat (6 + Z.of_nat (length body))) with (6 + length body)%nat by lia.
  rewrite (put_at_zeros 0 1 _ [] (6 + length body)) by (simpl; lia). gosimpl.
  rewrite put_at_zeros by (simpl; lia). gosimpl.
  rewrite put_at_zeros by (rewrite ?length_app; simpl; lia). gosimpl. rewrite (take_ge (be_put 4 _)) by (rewrite length_be_put; lia).
  rewrite copy_from_zeros by (rewrite ?length_app, ?length_be_put; simpl; lia). rewrite !length_be_put.
  replace (_ - length body)%nat with 0%nat by (simpl; lia). cbn [replicate]. by rewrite app_nil_r, <- !app_assoc.
Qed.

Lemma byte_of_head z : 0 <= z < 256 -> [byte_of z] = be_put 1 z.
Proof. intros Hz. unfold be_put. simpl. by rewrite Z.div_1_r. Qed.

Lemma slice_end {E} lo hi pre body :
  length pre = lo -> hi = (lo + length body)%nat -> slice (E := E) lo hi (pre ++ body) = Ret body.
Proof. intros Hp Hh. rewrite <- (app_nil_r body) at 1. by apply slice_at. Qed.

(** A frame and its head. *)
Lemma frame_head_wire t body :
  0 <= t < 256 -> Z.of_nat (length body) < 2 ^ 32 - 5 ->
  frame_head (byte_of t :: be_put 4 (Z.of_nat (length body)) ++ body) = Ret (t, 5 + Z.of_nat (length body)).
Proof.
  intros Ht Hl. change (byte_of t :: ?x) with ([byte_of t] ++ x). rewrite byte_of_head by done. unfold frame_head.
  assert (length (be_put 1 t ++ be_put 4 (Z.of_nat (length body)) ++ body) = 5 + length body)%nat as Hlen
    by (rewrite !length_app, !length_be_put; lia).
  rewrite (proj2 (Nat.ltb_ge _ _)) by lia. cbn [fail_if]. gosimpl. rewrite get_uint_head by (unfold in_u; lia). gosimpl.
  rewrite (get_uint_at 4 1) by (rewrite ?length_be_put; unfold in_u; lia). gosimpl.
  rewrite uwrap_small by (unfold in_u; lia). rewrite Hlen. rewrite (proj2 (Z.ltb_ge _ _)) by lia. done.
Qed.

Lemma handshake_body_wire t body :
  0 <= t < 256 -> Z.of_nat (length body) < 2 ^ 32 - 6 ->
  handshake_body t (byte_of MessageTypeHandshake :: byte_of t :: be_put 4 (Z.of_nat (length body)) ++ body) = Ret body.
Proof.
  intros Ht Hl. change (byte_of MessageTypeHandshake :: byte_of t :: ?x) with ([byte_of MessageTypeHandshake] ++ [byte_of t] ++ x).
  rewrite !byte_of_head by (unfold MessageTypeHandshake; lia). unfold handshake_body.
  set (message := be_put 1 _ ++ _).
  assert (length message = 6 + length body)%nat as Hlen by (subst message; rewrite !length_app, !length_be_put; lia).
  rewrite (proj2 (Nat.ltb_ge _ _)) by lia. cbn [fail_if]. gosimpl. subst message.
  rewrite get_uint_head by (unfold in_u, MessageTypeHandshake; lia). gosimpl.
  rewrite (get_uint_at 1 1) by (rewrite ?length_be_put; unfold in_u; lia). gosimpl.
  rewrite (app_assoc (be_put 1 _)), (get_uint_at 4 2) by (rewrite ?length_app, ?length_be_put; unfold in_u; lia). gosimpl.
  rewrite !Z.eqb_refl. cbn [negb orb fail_if]. gosimpl. rewrite uwrap_small by (unfold in_u; lia).
  rewrite <- app_assoc, Hlen. rewrite (proj2 (Z.ltb_ge _ _)) by lia. cbn [fail_if]. gosimpl.
  rewrite (app_assoc (be_put 1 _)), (app_assoc (_ ++ _)).
  apply slice_end; [by rewrite !length_app, !length_be_put|lia].
Qed.

Lemma unmarshal_marshal_encrypted em :
  utf8_valid 0 (str_bytes (em_SessionID em)) = true -> unmarshal_encrypted (marshal_encrypted em) = Some em.
Proof.
  intros Hv. unfold unmarshal_encrypted, decode_struct, marshal_encrypted.
  rewrite (parse_object _ [JStr (encode_string 0 (b64_encode (Nonce em))); JStr (encode_string 0 (b64_encode (Ciphertext em)));
    JStr (encode_string 0 (str_bytes (em_SessionID em)))]); [|repeat constructor; apply value_quoted|done].
  cbn [members_of zip_with fst snd decode_all]. unfold decode_encrypted. struct_keys. rewrite decode_bytes_quoted.
  cbn [mbind option_bind]. rewrite decode_bytes_quoted. cbn [mbind option_bind decode_text].
  rewrite unquote_encode, to_valid_id by done. cbn [mbind option_bind]. rewrite bytes_str_bytes. by destruct em.
Qed.

Section proofs.
Context {PrivateKey : Type} `{HC : Crypto PrivateKey}.
Implicit Types (cm : CryptoManager (PrivateKey := PrivateKey)).

(** The store holds a key of a good length for the session. *)
Definition has_key cm (id : string) : Prop := exists key, sessionKeys cm !! id = Some key /\ length key = KeySize.

Lemma encrypt_decrypt cm id nonce p :
  has_key cm id -> length nonce = NonceSize -> Z.of_nat (length p) <= MaxPayloadSize ->
  exists em, Encrypt cm (Some nonce) p id = Ret em /\ em_SessionID em = id /\ Nonce em = nonce /\ Decrypt cm em = Ret p.
Proof.
  intros (key & Hk & Hl) Hn Hp. unfold Encrypt, Decrypt. rewrite Hk.
  assert (cipher_key key = true) as Hc by (unfold cipher_key; by rewrite Hl).
  rewrite Z.gtb_ltb, (proj2 (Z.ltb_ge _ _)) by lia. rewrite Hc. cbn [fail_if negb]. gosimpl. eexists. split_and!; try done.
  cbn [em_SessionID Nonce Ciphertext]. rewrite Hk, Hc, Hn. cbn [fail_if negb]. gosimpl. by rewrite open_seal.
Qed.

(** What the timestamp check makes of a decrypted text. *)
Lemma decrypt_timestamp cm em t0 ttl p t1 :
  in_u 63 t0 -> in_u 32 ttl -> t0 + ttl < 2 ^ 63 ->
  Decrypt cm em = Ret (be_put 8 (uwrap 64 t0) ++ be_put 4 (uwrap 32 ttl) ++ p) ->
  DecryptWithTimestamp cm t1 em =
  if t0 + ttl <? t1 then Fail ErrExpired else if t1 <? t0 then Fail ErrTimestamp else Ret p.
Proof.
  intros Ht0 Httl Hsum Hd. unfold in_u in *. unfold DecryptWithTimestamp. rewrite Hd. gosimpl.
  rewrite !uwrap_small by (unfold in_u; lia).
  assert (length (be_put 8 t0 ++ be_put 4 ttl ++ p) = 12 + length p)%nat as Hlen by (rewrite !length_app, !length_be_put; lia).
  rewrite (proj2 (Nat.ltb_ge _ _)) by lia. cbn [fail_if]. gosimpl. rewrite get_uint_head by (unfold in_u; lia). gosimpl.
  rewrite (get_uint_at 4 8) by (rewrite ?length_be_put; unfold in_u; lia). gosimpl. rewrite (int64_small t0) by lia.
  rewrite int64_small by lia. rewrite Z.gtb_ltb. destruct (Z.ltb_spec (t0 + ttl) t1); [done|]. cbn [fail_if]. gosimpl.
  rewrite orb_false_r. destruct (t1 <? t0); [done|]. cbn [fail_if]. gosimpl. rewrite Hlen, (app_assoc (be_put 8 _)).
  apply slice_end; [by rewrite length_app, !length_be_put|done].
Qed.

Lemma sec_window cm id nonce p t0 ttl
    (Hkey : has_key cm id) (Hn : length nonce = NonceSize) (Hp : Z.of_nat (length p) + 12 <= MaxPayloadSize)
    (Ht0 : in_u 63 t0) (Httl : in_u 32 ttl) (Hsum : t0 + ttl < 2 ^ 63) :
  exists em, EncryptWithTimestamp cm t0 (Some nonce) p id ttl = Ret em /\
    forall t1, DecryptWithTimestamp cm t1 em =
      if t0 + ttl <? t1 then Fail ErrExpired else if t1 <? t0 then Fail ErrTimestamp else Ret p.
Proof.
  destruct (encrypt_decrypt cm id nonce (be_put 8 (uwrap 64 t0) ++ be_put 4 (uwrap 32 ttl) ++ p) Hkey Hn) as (em & He & _ & _ & Hd).
  { rewrite !length_app, !length_be_put. lia. }
  exists em. split; [done|]. intros t1. by apply decrypt_timestamp.
Qed.

(** A message that is encrypted with a timestamp decrypts to its text exactly
    from the second it was made until its time to live has passed, and fails
    before and after. *)
Theorem sec_timestamp_window cm id nonce p t0 ttl
    (Hkey : has_key cm id) (Hn : length nonce = NonceSize) (Hp : Z.of_nat (length p) + 12 <= MaxPayloadSize)
    (Ht0 : in_u 63 t0) (Httl : in_u 32 ttl) (Hsum : t0 + ttl < 2 ^ 63) :
  exists em, EncryptWithTimestamp cm t0 (Some nonce) p id ttl = Ret em /\
    forall t1, DecryptWithTimestamp cm t1 em =
      if t0 + ttl <? t1 then Fail ErrExpired else if t1 <? t0 then Fail ErrTimestamp else Ret p.
Proof. by apply sec_window. Qed.

Lemma marshal_encrypted_length em :
  (length (marshal_encrypted em) <= 100 + 12 * length (Nonce em) + 12 * length (Ciphertext em) + 6 * strlen (em_SessionID em) + 60)%nat.
Proof.
  unfold marshal_encrypted, object_text. cbn [fmap list_fmap commas fst snd].
  pose proof (quoted_length (b64_encode (Nonce em))) as H1. pose proof (b64_length (Nonce em)) as H2.
  pose proof (quoted_length (b64_encode (Ciphertext em))) as H3. pose proof (b64_length (Ciphertext em)) as H4.
  pose proof (quoted_length (str_bytes (em_SessionID em))) as H5. unfold strlen.
  change (length (Byte.x7b :: ?x)) with (S (length x)). rewrite !length_app. cbn [length]. rewrite !length_app. cbn [length].
  rewrite !length_app. cbn [length].
  change (length (quoted (str_bytes "Nonce"))) with 7%nat. change (length (quoted (str_bytes "Ciphertext"))) with 12%nat.
  change (length (quoted (str_bytes "SessionID"))) with 11%nat. lia.
Qed.

Lemma encrypt_length cm nonce p id em :
  Encrypt cm (Some nonce) p id = Ret em ->
  em_SessionID em = id /\ Nonce em = nonce /\ length (Ciphertext em) = (16 + length p)%nat.
Proof.
  unfold Encrypt, fail_if. destruct (_ >? _); [done|]. gosimpl. destruct (sessionKeys cm !! id) as [key|]; [|done].
  destruct (negb _); [done|]. gosimpl. intros [= <-]. cbn [em_SessionID Nonce Ciphertext]. rewrite seal_length.
  split_and!; [done|done|lia].
Qed.

Lemma encrypt_with_timestamp_text cm now random p id ttl :
  EncryptWithTimestamp cm now random p id ttl =
  Encrypt cm random (be_put 8 (uwrap 64 now) ++ be_put 4 (uwrap 32 ttl) ++ p) id.
Proof. reflexivity. Qed.

(** The frame of an encrypted message. *)
Lemma receive_data_frame cm t1 em data :
  utf8_valid 0 (str_bytes (em_SessionID em)) = true -> Z.of_nat (length (marshal_encrypted em)) < 2 ^ 32 - 5 ->
  DecryptWithTimestamp cm t1 em = Ret data ->
  exists message end_, data_frame (marshal_encrypted em) = Ret message /\
    frame_head message = Ret (MessageTypeData, end_) /\ receive_data cm t1 message end_ = Ret data.
Proof.
  intros Hid Hlen Hd. pose proof (unmarshal_marshal_encrypted em Hid) as Hu.
  revert Hlen Hu. generalize (marshal_encrypted em) as body. intros body Hlen Hu.
  exists (byte_of MessageTypeData :: be_put 4 (Z.of_nat (length body)) ++ body), (5 + Z.of_nat (length body)).
  split_and!; [by apply data_frame_wire|by apply frame_head_wire|]. unfold receive_data.
  change (byte_of MessageTypeData :: ?x) with ([byte_of MessageTypeData] ++ x). rewrite app_assoc.
  rewrite slice_end by (rewrite ?length_app, ?length_be_put; simpl; lia). gosimpl. by rewrite Hu, Hd.
Qed.

(** A frame that a connection sent, as another receives it. *)
Lemma receive_sent cm id nonce data t0 t1 em :
  has_key cm id -> length nonce = NonceSize -> Z.of_nat (length data) + 12 <= MaxPayloadSize ->
  in_u 62 t0 -> utf8_valid 0 (str_bytes id) = true -> Z.of_nat (strlen id) <= 1000000 ->
  EncryptWithTimestamp cm t0 (Some nonce) data id 60 = Ret em -> t0 <= t1 <= t0 + 60 ->
  exists message end_, data_frame (marshal_encrypted em) = Ret message /\
    frame_head message = Ret (MessageTypeData, end_) /\ receive_data cm t1 message end_ = Ret data.
Proof.
  intros Hk Hn Hp Ht Hid Hlen He Ht1. unfold in_u in Ht. assert (He0 := He).
  rewrite encrypt_with_timestamp_text in He0. apply encrypt_length in He0 as (Hid' & Hn' & Hcl).
  rewrite !length_app, !length_be_put in Hcl.
  destruct (sec_window cm id nonce data t0 60 Hk Hn Hp) as (em' & He' & Hd'); [unfold in_u; lia..|].
  rewrite He' in He. apply Ret_inj in He. subst em'. apply receive_data_frame.
  - by rewrite Hid'.
  - pose proof (marshal_encrypted_length em) as Hml. rewrite Hn', Hcl, Hid', Hn in Hml. unfold NonceSize, MaxPayloadSize in *. lia.
  - rewrite Hd', (proj2 (Z.ltb_ge _ _)), (proj2 (Z.ltb_ge _ _)) by lia. done.
Qed.

Definition ping : list byte := byte_of MessageTypePing :: be_put 4 0.

(** C17: what one encrypted connection sends, another receives within the minute of
    its life, after answering the pings that come before.  The two connections
    may belong to different sessions: the receiver uses the key of the session
    that the message names and does not compare it with its own. *)
Theorem secure_send_receive cm sc sc' nonce data t0 t1 message pings ok
    (Hk : has_key cm (sessionID sc)) (Hn : length nonce = NonceSize) (Hp : Z.of_nat (length data) + 12 <= MaxPayloadSize)
    (Ht : in_u 62 t0) (Hid : utf8_valid 0 (str_bytes (sessionID sc)) = true) (Hlen : Z.of_nat (strlen (sessionID sc)) <= 1000000)
    (Hsend : Send cm sc t0 (Some nonce) data true = ([message], Ret tt))
    (Hrecv : isEncrypted sc' = true) (Ht1 : t0 <= t1 <= t0 + 60) (Hok : forall n, ok n = true) :
  Receive ok cm sc' (((fun t => (t, Some ping)) <$> pings) ++ [(t1, Some message)]) 0 = (length pings, [], Some (Ret data)).
Proof.
  unfold Send in Hsend. destruct (negb (isEncrypted sc)); [done|].
  destruct (EncryptWithTimestamp cm t0 (Some nonce) data (sessionID sc) 60) as [em|e|] eqn:He; [|done..].
  destruct (receive_sent cm (sessionID sc) nonce data t0 t1 em) as (message' & end_ & Hf & Hh & Hd); [done..|].
  rewrite Hf in Hsend. assert (message' = message) as -> by congruence.
  assert (forall k, Receive ok cm sc' (((fun t => (t, Some ping)) <$> pings) ++ [(t1, Some message)]) k
            = ((k + length pings)%nat, [], Some (Ret data))) as H; [|by apply (H 0%nat)].
  assert (frame_head ping = Ret (MessageTypePing, 5)) as Hping by (apply (frame_head_wire MessageTypePing []); by vm_compute).
  clear -Hrecv Hok Hh Hd Hping. induction pings as [|t pings IH]; intros k; cbn [fmap list_fmap app Receive]; rewrite Hrecv; cbn [negb].
  - rewrite Hh. change (MessageTypeData =? MessageTypeData) with true. cbv iota. by rewrite Hd, Nat.add_0_r.
  - rewrite Hping. change (MessageTypePing =? MessageTypeData) with false. change (MessageTypePing =? MessageTypePing) with true.
    cbv iota. rewrite Hok, IH. simpl. by rewrite Nat.add_succ_r.
Qed.

Lemma decrypt_not_panic cm em : Decrypt cm em <> Panic.
Proof. unfold Decrypt, fail_if. by repeat case_match. Qed.

Lemma decrypt_timestamp_not_panic cm t em : DecryptWithTimestamp cm t em <> Panic.
Proof.
  unfold DecryptWithTimestamp. apply outcome_bind_not_panic; [apply decrypt_not_panic|]. intros p _. unfold fail_if.
  destruct (Nat.ltb_spec (length p) 12) as [|Hl]; [done|]. gosimpl.
  apply outcome_bind_not_panic; [apply get_uint_not_panic; lia|intros ts _].
  apply outcome_bind_not_panic; [apply get_uint_not_panic; lia|intros ttl _]. cbv zeta.
  destruct (_ >? _); [done|]. gosimpl. destruct (_ || _); [done|]. gosimpl. apply slice_not_panic; lia.
Qed.

Lemma slice_panic_iff {E} lo hi (data : list byte) : slice (E := E) lo hi data = Panic <-> ~ (lo <= hi <= length data)%nat.
Proof.
  unfold slice, panic_unless. destruct (Nat.leb_spec lo hi), (Nat.leb_spec hi (length data)); cbn; split; try done; lia.
Qed.

(** The number that a frame of [n] bytes announces at [lo]. *)
Lemma get_uint_here {E} n lo (data : list byte) : (lo + n <= length data)%nat -> get_uint (E := E) n lo data = Ret (be_get (sub lo n data)).
Proof. intros Hl. unfold get_uint, panic_unless. by rewrite (proj2 (Nat.leb_le _ _)). Qed.

Lemma be_get_range_at n lo (data : list byte) : (lo + n <= length data)%nat -> 0 <= be_get (sub lo n data) < 256 ^ Z.of_nat n.
Proof. intros Hl. rewrite <- (length_sub lo n data) at 3 by done. apply be_get_range. Qed.

(** The sum of a header's length and a length of 32 bits, on 32 bits. *)
Lemma wrap_end k n : 0 <= n < 2 ^ 32 -> 0 <= k < 2 ^ 32 ->
  (uwrap 32 (k + n) < k <-> 2 ^ 32 - k <= n) /\ 0 <= uwrap 32 (k + n).
Proof.
  intros Hn Hk. unfold uwrap. destruct (Z.lt_ge_cases (k + n) (2 ^ 32)).
  - rewrite Z.mod_small by lia. lia.
  - replace (k + n) with (k + n - 2 ^ 32 + 1 * 2 ^ 32) by lia. rewrite Z.mod_add, Z.mod_small by lia. lia.
Qed.

Lemma handshake_panics_iff t message :
  handshake_body t message = Panic <->
  (6 <= length message)%nat /\ be_get (sub 0 1 message) = MessageTypeHandshake /\ be_get (sub 1 1 message) = t /\
  2 ^ 32 - 6 <= be_get (sub 2 4 message).
Proof.
  unfold handshake_body, fail_if. destruct (Nat.ltb_spec (length message) 6) as [Hl|Hl]; gosimpl; [split; [done|lia]|].
  rewrite !get_uint_here by lia. gosimpl. pose proof (be_get_range_at 4 2 message ltac:(lia)) as Hr.
  change (256 ^ Z.of_nat 4) with (2 ^ 32) in Hr.
  destruct (wrap_end 6 (be_get (sub 2 4 message)) Hr) as [Hw H0]; [lia|].
  destruct (Z.eqb_spec (be_get (sub 0 1 message)) MessageTypeHandshake), (Z.eqb_spec (be_get (sub 1 1 message)) t);
    cbn [negb orb]; gosimpl; try (split; [done|tauto]).
  destruct (Z.ltb_spec (Z.of_nat (length message)) (uwrap 32 (6 + be_get (sub 2 4 message)))); gosimpl.
  - split; [done|]. intros (_ & _ & _ & Hbig). apply Hw in Hbig. lia.
  - rewrite slice_panic_iff. split.
    + intros Hn. split_and!; try done. apply Hw. lia.
    + intros (_ & _ & _ & Hbig). apply Hw in Hbig. lia.
Qed.

(** C35: a client can make the server panic, before it has proved anything: the
    length in a frame is added to the size of the header on 32 bits, so that a
    length of almost 2^32 passes the check and the slice ends before it starts.  On an
    encrypted connection the frames on which [Receive] panics are exactly those of at least five bytes and of the data
    type whose length field is at least 2^32 - 5; frames of other types, pings and closes among them,
    do not panic whatever their length field.  Of the frames that the handshake awaits, those of at least six bytes
    with the handshake type and the expected kind whose length field is at least 2^32 - 6 panic, and no other. *)
Theorem secure_panics_iff ok cm sc now message t
    (Henc : isEncrypted sc = true) :
  ((Receive ok cm sc [(now, Some message)] 0).2 = Some Panic <->
   (5 <= length message)%nat /\ be_get (sub 0 1 message) = MessageTypeData /\ 2 ^ 32 - 5 <= be_get (sub 1 4 message)) /\
  (handshake_body t message = Panic <->
   (6 <= length message)%nat /\ be_get (sub 0 1 message) = MessageTypeHandshake /\ be_get (sub 1 1 message) = t /\
   2 ^ 32 - 6 <= be_get (sub 2 4 message)).
Proof.
  split; [|apply handshake_panics_iff]. cbn [Receive]. rewrite Henc. cbn [negb]. unfold frame_head, fail_if.
  destruct (Nat.ltb_spec (length message) 5) as [Hl|Hl]; gosimpl; [split; [done|lia]|].
  rewrite !get_uint_here by lia. gosimpl. pose proof (be_get_range_at 4 1 message ltac:(lia)) as Hr.
  change (256 ^ Z.of_nat 4) with (2 ^ 32) in Hr. destruct (wrap_end 5 (be_get (sub 1 4 message)) Hr) as [Hw H0]; [lia|].
  destruct (Z.ltb_spec (Z.of_nat (length message)) (uwrap 32 (5 + be_get (sub 1 4 message)))); gosimpl.
  { split; [done|]. intros (_ & _ & Hbig). apply Hw in Hbig. lia. }
  destruct (Z.eqb_spec (be_get (sub 0 1 message)) MessageTypeData) as [Ht|Ht].
  - cbn [snd]. unfold receive_data. split.
    + intros Hp. split_and!; [done|done|]. apply Hw. destruct (slice (E := ConnError) 5 _ message) as [body|e|] eqn:Hs.
      * exfalso. gosimpl. cbn in Hp. destruct (unmarshal_encrypted body) as [em|]; [|done].
        pose proof (decrypt_timestamp_not_panic cm now em). by destruct (DecryptWithTimestamp cm now em).
      * unfold slice, panic_unless in Hs. by destruct (_ && _).
      * apply slice_panic_iff in Hs. lia.
    + intros (_ & _ & Hbig). apply Hw in Hbig. assert (slice (E := ConnError) 5 (Z.to_nat (uwrap 32 (5 + be_get (sub 1 4 message)))) message = Panic) as ->; [|done].
      apply slice_panic_iff. lia.
  - split; [|tauto]. repeat case_match; try done.
Qed.

(** *** Handshakes *)

(** What the server reads of the client's request: the text of the key, as it is
    written in base64. *)
Lemma client_request_parse (c : SecureClient (PrivateKey := PrivateKey)) :
  utf8_valid 0 (str_bytes (c_sessionID c)) = true ->
  unmarshal_handshake (client_hello c) =
  Some (MkHandshake 1 (b64_encode (c_publicKey c)) (str_bytes (c_sessionID c)) 0 0 []).
Proof.
  intros Hv. unfold unmarshal_handshake, decode_struct, client_hello.
  rewrite (parse_object _ [JNum (dec MessageTypeHandshakeRequest); JStr (encode_string 0 (b64_encode (c_publicKey c)));
    JStr (encode_string 0 (str_bytes (c_sessionID c))); JStr (encode_string 0 (str_bytes "1.0"))]);
    [|repeat constructor; try apply value_quoted; apply value_dec; by vm_compute|done].
  cbn [members_of zip_with fst snd decode_all]. unfold decode_handshake. struct_keys.
  change (decode_int 64 _ (JNum (dec MessageTypeHandshakeRequest))) with (Some 1).
  cbn [mbind option_bind decode_text hs_Type hs_PublicKey hs_SessionID hs_Timestamp hs_TTL hs_Nonce].
  rewrite !unquote_encode, !to_valid_id by (try done; apply utf8_ascii, b64_ascii). done.
Qed.

Lemma client_hello_length (c : SecureClient (PrivateKey := PrivateKey)) :
  length (c_publicKey c) = 65%nat -> Z.of_nat (strlen (c_sessionID c)) <= 1000000 ->
  Z.of_nat (length (client_hello c)) < 2 ^ 32 - 6.
Proof.
  intros Hkey Hlen. unfold strlen in Hlen. pose proof (quoted_length (b64_encode (c_publicKey c))) as H1.
  rewrite b64_length_exact, Hkey in H1. change (4 * ((65 + 2) / 3))%nat with 88%nat in H1.
  pose proof (quoted_length (str_bytes (c_sessionID c))) as H2.
  assert (length (client_hello c) <= 2 + 4 * (600 + 6 * length (str_bytes (c_sessionID c)) + 2))%nat; [|lia].
  apply object_text_length. repeat (apply Forall_cons; split); [..|by apply Forall_nil]; cbn [fst snd].
  - change (length (quoted (str_bytes "type")) + length (dec MessageTypeHandshakeRequest))%nat with 7%nat. lia.
  - change (length (quoted (str_bytes "public_key"))) with 12%nat. lia.
  - change (length (quoted (str_bytes "session_id"))) with 12%nat. lia.
  - change (length (quoted (str_bytes "version")) + length (quoted (str_bytes "1.0")))%nat with 14%nat. lia.
Qed.

(** The client of the repository cannot connect.  The server takes the base64
    text of its key for the key itself, and expects a session ID that it has made
    up and not sent: every handshake with this client fails. *)
Theorem secure_client_refused cm sc (c : SecureClient (PrivateKey := PrivateKey)) now random nonce request write_ok
    (Hnew : handshakeDone sc = false) (Hkey : length (c_publicKey c) = 65%nat)
    (Hid : utf8_valid 0 (str_bytes (c_sessionID c)) = true) (Hlen : Z.of_nat (strlen (c_sessionID c)) <= 1000000)
    (Hreq : client_request c = Ret request) :
  exists cm' e, Handshake cm sc now random nonce (Some request) write_ok = (cm', sc, [], Fail e) /\
    (e = ErrSessionMismatch \/ exists e', e = ErrDerive e').
Proof.
  unfold client_request in Hreq. pose proof (client_hello_length c Hkey Hlen) as Hbody.
  rewrite handshake_frame_wire in Hreq by done. apply Ret_inj in Hreq. subst request.
  unfold Handshake. rewrite Hnew, handshake_body_wire by (done || by vm_compute).
  rewrite client_request_parse by done. cbn [hs_SessionID hs_PublicKey].
  destruct (negb _); [eexists _, _; split; [done|by left]|]. unfold DeriveSharedKey.
  assert (forall k, Agree k (b64_encode (c_publicKey c)) = None) as Hno.
  { intros k. destruct (Agree k _) as [key|] eqn:E; [|done]. apply agree_length in E as [E _].
    rewrite b64_length_exact, Hkey in E. done. }
  destruct (now >? keyExpiration cm); [destruct random as [k|]|]; cbn [RotateKeys]; rewrite ?Hno; eexists _, _; split; eauto.
Qed.

(** What the client sends is not what the server expects: its data are refused,
    except by chance when they are themselves the JSON of an encrypted message. *)
Theorem secure_client_data_refused ok cm sc (c : SecureClient (PrivateKey := PrivateKey)) now data message
    (Henc : isEncrypted sc = true) (Hlen : Z.of_nat (length data) < 2 ^ 32 - 5)
    (Hjson : unmarshal_encrypted data = None) (Hsend : client_Send c data = Ret message) :
  Receive ok cm sc [(now, Some message)] 0 = (0%nat, [], Some (Fail ErrDataJson)).
Proof.
  unfold client_Send in Hsend. destruct (negb (isSecure c)); [done|]. rewrite data_frame_wire in Hsend by done.
  apply Ret_inj in Hsend. subst message. cbn [Receive]. rewrite Henc. cbn [negb].
  rewrite frame_head_wire by (done || by vm_compute). change (MessageTypeData =? MessageTypeData) with true. cbv iota.
  unfold receive_data. change (byte_of MessageTypeData :: ?x) with ([byte_of MessageTypeData] ++ x). rewrite app_assoc.
  rewrite slice_end by (rewrite ?length_app, ?length_be_put; simpl; lia). gosimpl. by rewrite Hjson.
Qed.

(** A request that carries the bytes of the key themselves. *)
Definition raw_hello (key id : list byte) (t ttl : Z) : list byte :=
  marshal_handshake (MkHandshake MessageTypeHandshakeRequest key id t ttl []).

Lemma raw_hello_parse key id t ttl :
  key <> [] -> id <> [] -> utf8_valid 0 key = true -> utf8_valid 0 id = true -> in_u 63 t -> in_u 63 ttl ->
  unmarshal_handshake (raw_hello key id t ttl) = Some (MkHandshake 1 key id t ttl []).
Proof.
  intros Hk Hi Hkv Hiv Ht Httl. unfold in_u in *. unfold unmarshal_handshake, decode_struct, raw_hello, marshal_handshake, omitempty.
  cbn [hs_Type hs_PublicKey hs_SessionID hs_Timestamp hs_TTL hs_Nonce].
  rewrite (bool_decide_eq_false_2 (key = [])), (bool_decide_eq_false_2 (id = [])), (bool_decide_eq_true_2 ([] = [])) by done.
  rewrite (parse_object _ [JNum (dec 1); JStr (encode_string 0 key); JStr (encode_string 0 id); JNum (dec t); JNum (dec ttl)]);
    [|cbn [app]; repeat constructor; try apply value_quoted; apply value_dec; lia|done].
  cbn [app members_of zip_with fst snd decode_all]. unfold decode_handshake. struct_keys.
  change (decode_int 64 _ (JNum (dec MessageTypeHandshakeRequest))) with (Some 1).
  cbn [mbind option_bind decode_text decode_int hs_Type hs_PublicKey hs_SessionID hs_Timestamp hs_TTL hs_Nonce].
  rewrite !unquote_encode, !to_valid_id by done. rewrite !ParseInt_dec by lia. done.
Qed.

(** The client's view of the server's response. *)
Definition hello_back (key id nonce : list byte) (t : Z) : list byte :=
  marshal_handshake (MkHandshake MessageTypeHandshakeResponse (b64_encode key) id t 60 (b64_encode nonce)).

Lemma b64_nonempty l : l <> [] -> b64_encode l <> [].
Proof. by destruct l as [|x [|y [|z l]]]. Qed.

Lemma hello_back_parse key id nonce t :
  key <> [] -> str_bytes id <> [] -> nonce <> [] -> utf8_valid 0 (str_bytes id) = true -> in_u 63 t ->
  decode_struct decode_client_handshake ([], ""%string) (hello_back key (str_bytes id) nonce t) = Some (key, id).
Proof.
  intros Hk Hi Hn Hiv Ht. unfold in_u in *. unfold decode_struct, hello_back, marshal_handshake, omitempty.
  cbn [hs_Type hs_PublicKey hs_SessionID hs_Timestamp hs_TTL hs_Nonce].
  rewrite (bool_decide_eq_false_2 (b64_encode key = [])) by by apply b64_nonempty.
  rewrite (bool_decide_eq_false_2 (str_bytes id = [])) by done.
  rewrite (bool_decide_eq_false_2 (b64_encode nonce = [])) by by apply b64_nonempty.
  rewrite (parse_object _ [JNum (dec 2); JStr (encode_string 0 (b64_encode key)); JStr (encode_string 0 (str_bytes id));
    JNum (dec t); JNum (dec 60); JStr (encode_string 0 (b64_encode nonce))]);
    [|cbn [app]; repeat constructor; try apply value_quoted; apply value_dec; lia|done].
  cbn [app members_of zip_with fst snd decode_all]. unfold decode_client_handshake. struct_keys.
  change (decode_uint 8 0 (JNum (dec 2))) with (Some 2). cbn [mbind option_bind]. rewrite decode_bytes_quoted.
  cbn [mbind option_bind decode_text fst snd]. rewrite unquote_encode, to_valid_id by done. by rewrite bytes_str_bytes.
Qed.

Lemma marshal_handshake_length m :
  (length (marshal_handshake m) <= 2 + 6 * (100 + 6 * length (hs_PublicKey m) + 6 * length (hs_SessionID m) + 6 * length (hs_Nonce m)))%nat.
Proof.
  pose proof (quoted_length (hs_PublicKey m)) as H1. pose proof (quoted_length (hs_SessionID m)) as H2.
  pose proof (quoted_length (hs_Nonce m)) as H3. pose proof (dec_length (hs_Type m)) as H4.
  pose proof (dec_length (hs_Timestamp m)) as H5. pose proof (dec_length (hs_TTL m)) as H6.
  set (n := (98 + 6 * length (hs_PublicKey m) + 6 * length (hs_SessionID m) + 6 * length (hs_Nonce m))%nat).
  assert (forall name s, (length (omitempty name s) <= 1)%nat) as Ho by (intros; unfold omitempty; case_bool_decide; simpl; lia).
  unfold marshal_handshake. set (fields := (_, _) :: _).
  assert (length fields <= 6)%nat as Hf.
  { subst fields. cbn [length]. rewrite !length_app. cbn [length].
    pose proof (Ho "public_key"%string (hs_PublicKey m)). pose proof (Ho "session_id"%string (hs_SessionID m)).
    pose proof (Ho "nonce"%string (hs_Nonce m)). lia. }
  assert (Forall (fun x => (length (quoted x.1) + length x.2 <= n)%nat) fields) as Hall.
  { subst fields n. unfold omitempty.
    assert (length (quoted (str_bytes "type")) = 6 /\ length (quoted (str_bytes "public_key")) = 12 /\
      length (quoted (str_bytes "session_id")) = 12 /\ length (quoted (str_bytes "timestamp")) = 11 /\
      length (quoted (str_bytes "ttl")) = 5 /\ length (quoted (str_bytes "nonce")) = 7)%nat as (L1 & L2 & L3 & L4 & L5 & L6)
      by (repeat split; by vm_compute).
    repeat first [apply Forall_cons; split | apply Forall_app; split | case_bool_decide | by apply Forall_nil];
      cbn [fst snd]; lia. }
  pose proof (object_text_length fields n Hall). nia.
Qed.

Lemma raw_hello_length key id t ttl :
  length key = 65%nat -> Z.of_nat (length id) <= 1000000 -> Z.of_nat (length (raw_hello key id t ttl)) < 2 ^ 32 - 6.
Proof.
  intros Hk Hi. pose proof (marshal_handshake_length (MkHandshake MessageTypeHandshakeRequest key id t ttl [])) as Hm.
  cbn [hs_PublicKey hs_SessionID hs_Nonce length] in Hm. unfold raw_hello. lia.
Qed.

Lemma hello_back_length key id nonce t :
  length key = 65%nat -> length nonce = NonceSize -> Z.of_nat (length id) <= 1000000 ->
  Z.of_nat (length (hello_back key id nonce t)) < 2 ^ 32 - 6.
Proof.
  intros Hk Hn Hi. unfold hello_back. set (m := MkHandshake _ _ _ _ _ _). pose proof (marshal_handshake_length m) as Hm.
  revert Hm. generalize (length (marshal_handshake m)) as n. intros n Hm. subst m. cbn [hs_PublicKey hs_SessionID hs_Nonce] in Hm.
  rewrite !b64_length_exact, Hk, Hn in Hm.
  change (4 * ((65 + 2) / 3))%nat with 88%nat in Hm. change (4 * ((NonceSize + 2) / 3))%nat with 16%nat in Hm. lia.
Qed.

(** A client that sends the bytes of its key, where they are UTF-8, under the
    session ID of the server agrees with it on a key: the server stores under the
    session the key that the client derives from the response. *)
Theorem secure_handshake_agrees cm sc a now random nonce t ttl request
    (Hnew : handshakeDone sc = false) (Hid : str_bytes (sessionID sc) <> [])
    (Hidv : utf8_valid 0 (str_bytes (sessionID sc)) = true) (Hlen : Z.of_nat (strlen (sessionID sc)) <= 1000000)
    (Hkv : utf8_valid 0 (PublicKey a) = true) (Ht : in_u 63 t) (Httl : in_u 63 ttl) (Hnow : in_u 62 now)
    (Hnonce : length nonce = NonceSize) (Hrot : now <= keyExpiration cm \/ is_Some random)
    (Hreq : handshake_frame MessageTypeHandshakeRequest (raw_hello (PublicKey a) (str_bytes (sessionID sc)) t ttl) = Ret request) :
  exists cm' response key,
    Handshake cm sc now random nonce (Some request) true = (cm', MkSecure (sessionID sc) true true, [response], Ret tt) /\
    sessionKeys cm' !! sessionID sc = Some key /\ length key = KeySize /\
    client_response (MkClient a (PublicKey a) [] (sessionID sc) false) (Some response)
      = (MkClient a (PublicKey a) key (sessionID sc) true, Ret tt).
Proof.
  pose proof (public_length a) as Hpl. assert (PublicKey a <> []) as Hpa by (by intros E; rewrite E in Hpl).
  pose proof (raw_hello_length (PublicKey a) (str_bytes (sessionID sc)) t ttl Hpl Hlen) as Hbl.
  pose proof (raw_hello_parse (PublicKey a) (str_bytes (sessionID sc)) t ttl Hpa Hid Hkv Hidv Ht Httl) as Hparse.
  revert Hreq Hparse Hbl. generalize (raw_hello (PublicKey a) (str_bytes (sessionID sc)) t ttl) as body.
  intros body Hreq Hparse Hbl. rewrite handshake_frame_wire in Hreq by done. apply Ret_inj in Hreq. subst request.
  unfold Handshake. rewrite Hnew, handshake_body_wire by (done || by vm_compute). rewrite Hparse. cbn [hs_SessionID hs_PublicKey].
  rewrite (bool_decide_eq_true_2 (str_bytes (sessionID sc) = _)) by done. cbn [negb]. unfold DeriveSharedKey.
  set (rot := if now >? keyExpiration cm then _ else _).
  assert (exists cm1, rot = (cm1, Ret tt)) as [cm1 Hrot1].
  { subst rot. rewrite Z.gtb_ltb. destruct (Z.ltb_spec (keyExpiration cm) now); [|by eexists].
    destruct Hrot as [?|[k ->]]; [lia|]. by eexists. }
  rewrite Hrot1. destruct (agree_both (privateKey cm1) a) as (key & Hk1 & Hk2). rewrite Hk1.
  apply agree_length in Hk1 as [_ Hkl]. set (cm2 := set_keys cm1 _). pose proof (public_length (privateKey cm2)) as Hpl2.
  assert (PublicKey (privateKey cm2) <> []) as Hpne by (by intros E; rewrite E in Hpl2).
  assert (nonce <> []) as Hnn by (by intros ->).
  assert (in_u 63 (now / second)) as Hsec.
  { unfold in_u, second in *. split; [apply Z.div_pos; lia|]. apply Z.div_lt_upper_bound; lia. }
  pose proof (hello_back_parse (PublicKey (privateKey cm2)) (sessionID sc) nonce (now / second) Hpne Hid Hnn Hidv Hsec) as Hback.
  unfold GetPublicKeyBytes. fold (hello_back (PublicKey (privateKey cm2)) (str_bytes (sessionID sc)) nonce (now / second)).
  pose proof (hello_back_length (PublicKey (privateKey cm2)) (str_bytes (sessionID sc)) nonce (now / second) Hpl2 Hnonce Hlen) as Hrl.
  revert Hrl Hback. generalize (hello_back (PublicKey (privateKey cm2)) (str_bytes (sessionID sc)) nonce (now / second)) as back.
  intros back Hrl Hback. rewrite handshake_frame_wire by done. eexists _, _, key. split_and!; [done| |done|].
  - subst cm2. cbn [set_keys sessionKeys]. apply lookup_insert_eq.
  - unfold client_response. rewrite handshake_body_wire by (done || by vm_compute). rewrite Hback. cbn [c_sessionID c_privateKey c_publicKey].
    rewrite bool_decide_eq_true_2 by done. cbn [negb]. subst cm2. cbn [set_keys privateKey]. by rewrite Hk2.
Qed.
End proofs.

(** ** Examples *)

(** A cipher that puts the start of the key before the text, and keys of one
    byte. *)
Definition key_tag (key : list byte) : list byte := take 16 (key ++ replicate 16 Byte.x00).

#[export, refine]
Instance toy_crypto : Crypto byte := {
  Seal key _ p := key_tag key ++ p;
  Open key _ c := if bool_decide (take 16 c = key_tag key) then Some (drop 16 c) else None;
  PublicKey k := replicate 65 k;
  Agree k bytes := if bool_decide (length bytes = 65%nat)
                   then Some (replicate 32 (byte_of (byte_val k + byte_val (default Byte.x00 (head bytes))))) else None
}.
Proof.
  all: assert (forall key, length (key_tag key) = 16%nat) as Ht
         by (intros key; unfold key_tag; rewrite length_take, length_app, length_replicate; lia).
  - intros key _ p. rewrite take_app_length' by done. rewrite bool_decide_eq_true_2 by done.
    by rewrite drop_app_length' by done.
  - intros key _ c p. case_bool_decide as E; [|done]. intros [= <-]. rewrite <- E. by rewrite take_drop.
  - intros key _ p. rewrite length_app, Ht. lia.
  - intros k. by rewrite length_replicate.
  - intros k bytes key. case_bool_decide; [|done]. intros [= <-]. done.
  - intros a b. eexists. rewrite !bool_decide_eq_true_2 by by rewrite length_replicate.
    split; [done|]. cbn [replicate head default]. by rewrite Z.add_comm.
Defined.

Definition toy_manager : CryptoManager := MkCryptoManager {[ "s1"%string := replicate 32 Byte.x41 ]} Byte.x11 1000 5.
Definition toy_nonce : list byte := replicate 12 Byte.x07.
Definition open_connection (id : string) : SecureWebSocketConnection := MkSecure id true true.

Lemma toy_has_key : has_key toy_manager "s1".
Proof. by exists (replicate 32 Byte.x41). Qed.

Lemma sec_timestamp_window_witness :
  exists em, EncryptWithTimestamp toy_manager 100 (Some toy_nonce) (str_bytes "hi") "s1" 60 = Ret em /\
    DecryptWithTimestamp toy_manager 160 em = Ret (str_bytes "hi") /\ DecryptWithTimestamp toy_manager 161 em = Fail ErrExpired.
Proof.
  destruct (sec_timestamp_window toy_manager "s1" toy_nonce (str_bytes "hi") 100 60) as (em & He & Hd);
    [apply toy_has_key|done|by vm_compute|split; by vm_compute|split; by vm_compute|by vm_compute|].
  exists em. split; [exact He|]. split; [rewrite (Hd 160); reflexivity|rewrite (Hd 161); reflexivity].
Defined.

Lemma secure_send_receive_witness :
  exists message, Send toy_manager (open_connection "s1") 100 (Some toy_nonce) (str_bytes "hi") true = ([message], Ret tt) /\
    Receive (fun _ => true) toy_manager (open_connection "other") (((fun t => (t, Some ping)) <$> [101; 102]) ++ [(130, Some message)]) 0
      = (2%nat, [], Some (Ret (str_bytes "hi"))).
Proof.
  destruct (Send toy_manager (open_connection "s1") 100 (Some toy_nonce) (str_bytes "hi") true) as [[|message []] o] eqn:E;
    [by vm_compute in E| |by vm_compute in E].
  assert (o = Ret tt) as -> by (apply (f_equal snd) in E; vm_compute in E; by rewrite <- E).
  exists message. split; [exact eq_refl|].
  apply (secure_send_receive toy_manager (open_connection "s1") (open_connection "other") toy_nonce (str_bytes "hi") 100 130 message
    [101; 102] (fun _ => true)); [apply toy_has_key|done|by vm_compute|split; by vm_compute|by vm_compute|by vm_compute|exact E|done|lia|done].
Defined.

(** A frame of five bytes that makes the server panic. *)
Lemma secure_panics_iff_witness :
  (Receive (fun _ => true) toy_manager (open_connection "s1") [(0, Some [Byte.x02; Byte.xff; Byte.xff; Byte.xff; Byte.xff])] 0).2
    = Some Panic.
Proof.
  apply (secure_panics_iff (fun _ => true) toy_manager (open_connection "s1") 0 [Byte.x02; Byte.xff; Byte.xff; Byte.xff; Byte.xff] 1);
    [done|]. split_and!; by vm_compute.
Defined.

Lemma secure_client_refused_witness :
  exists cm' e, Handshake toy_manager (NewSecureWebSocketConnection "s1") 5 None toy_nonce
      (match client_request (NewSecureClient 77 Byte.x22) with Ret r => Some r | _ => None end) true
    = (cm', NewSecureWebSocketConnection "s1", [], Fail e).
Proof.
  destruct (client_request (NewSecureClient 77 Byte.x22)) as [request|e|] eqn:E; [|by vm_compute in E..].
  destruct (secure_client_refused toy_manager (NewSecureWebSocketConnection "s1") (NewSecureClient 77 Byte.x22) 5 None toy_nonce
    request true) as (cm' & e & H & _); [done|done|by vm_compute|by vm_compute|exact E|]. exists cm', e. exact H.
Defined.

Lemma secure_handshake_agrees_witness :
  exists request cm' response key,
    handshake_frame MessageTypeHandshakeRequest (raw_hello (PublicKey Byte.x22) (str_bytes "s1") 3 60) = Ret request /\
    Handshake toy_manager (NewSecureWebSocketConnection "s1") 5 None toy_nonce (Some request) true
      = (cm', MkSecure "s1" true true, [response], Ret tt) /\
    sessionKeys cm' !! "s1"%string = Some key /\ length key = KeySize.
Proof.
  destruct (handshake_frame MessageTypeHandshakeRequest (raw_hello (PublicKey Byte.x22) (str_bytes "s1") 3 60)) as [request|e|] eqn:E;
    [|by vm_compute in E..].
  destruct (secure_handshake_agrees toy_manager (NewSecureWebSocketConnection "s1") Byte.x22 5 None toy_nonce 3 60 request)
    as (cm' & response & key & H1 & H2 & H3 & _);
    [done|done|by vm_compute|by vm_compute|by vm_compute|split; by vm_compute|split; by vm_compute|split; by vm_compute|done
    |left; by vm_compute|exact E|].
  exists request, cm', response, key. exact (conj eq_refl (conj H1 (conj H2 H3))).
Defined.
