(* ===== verification/QuicStream.v ===== *)
(** * The streams of a QUIC connection ([pkg/gateway/quic_stream_handler.go])

    A connection's handler: its session, the authentication of the first stream,
    the loop that reads framed messages, and the responses.  The converter and the
    message handler are used through their interfaces; a stream is the list of
    bytes that arrive on it. *)

From stdpp Require Import base gmap strings numbers list.
From Stdlib Require Import ZArith Lia.
From S2P Require Import Prelude Message Router Session Gateway Json Converter.

Local Open Scope Z_scope.

(** [bufferSize] is the configured size of the buffers. *)
Record QUICStreamHandler := MkHandler {
  h_conn : nat;
  h_streams : gset nat;
  h_sessionID : string;
  h_authenticated : bool;
  h_bufferSize : Z
}.

Definition NewQUICStreamHandler (conn : nat) (bufferSize : Z) : QUICStreamHandler :=
  MkHandler conn ∅ "" false bufferSize.

Definition set_handler_session (h : QUICStreamHandler) (id : string) : QUICStreamHandler :=
  MkHandler (h_conn h) (h_streams h) id (h_authenticated h) (h_bufferSize h).

Definition set_streams (h : QUICStreamHandler) (s : gset nat) : QUICStreamHandler :=
  MkHandler (h_conn h) s (h_sessionID h) (h_authenticated h) (h_bufferSize h).

Definition setAuthenticated (h : QUICStreamHandler) (b : bool) : QUICStreamHandler :=
  MkHandler (h_conn h) (h_streams h) (h_sessionID h) b (h_bufferSize h).

(** The sessions, their manager and the handler. *)
Record world := MkWorld {
  w_heap : heap;
  w_manager : SessionManager;
  w_handler : QUICStreamHandler
}.

Definition set_handler (w : world) (h : QUICStreamHandler) : world := MkWorld (w_heap w) (w_manager w) h.

(** The start of [Handle]: a session of the connection.  That the manager may
    already have the ID is ignored. *)
Definition Handle_start (w : world) (id : string) (now : Z) : world :=
  let h := set_handler_session (w_handler w) id in
  let a := fresh (dom (w_heap w)) in
  let heap := <[a := NewSessionWithQUIC id ConnectionTypeQUIC (h_conn h) now]> (w_heap w) in
  MkWorld heap (AddSession heap (w_manager w) a).1 h.

(** A stream that was accepted. *)
Definition accept_stream (w : world) (stream : nat) : world :=
  set_handler w (set_streams (w_handler w) ({[ stream ]} ∪ h_streams (w_handler w))).

Inductive StreamError :=
  | ErrAuthRead
  | ErrAuthParse
  | ErrAuthResponse
  | ErrWriteLength
  | ErrWriteContent.

Section handler.
Context {ConvErr : Type} `{ProtocolConverter ConvErr}.

(** A write of the length and of the message; [ok] tells which writes succeed,
    counted from the first of the stream.  The bytes of the length are the low
    four. *)
Definition write_framed (ok : nat -> bool) (written : list (list byte)) (body : list byte) :
    list (list byte) * outcome StreamError unit :=
  let lenBuf := be_put 4 (Z.of_nat (length body)) in
  if ok (length written) then
    if ok (S (length written)) then (written ++ [lenBuf; body], Ret tt)
    else (written ++ [lenBuf], Fail ErrWriteContent)
  else (written, Fail ErrWriteLength).

Definition auth_response (sessionID : string) : Message :=
  {| Version := 0; Flags := 0; ServiceType := 1; MessageType := 2; SequenceID := 0; Timestamp := 0; PayloadLength := 0;
     SourceService := ""; DestinationService := ""; CorrelationID := ""; SessionID := sessionID;
     Payload := object_text [(str_bytes "status", quoted (str_bytes "authenticated"))] |}.

(** [performAuthentication] in its parts, between which other streams can run; each
    reads [sessionID] of the handler anew.  First the session ID of the message is stored,
    also when it is empty; [data] is what one [Read] of the stream gives, or an error. *)
Definition auth_begin (w : world) (data : option (list byte)) : world * outcome StreamError unit :=
  match data with
  | None => (w, Fail ErrAuthRead)
  | Some data =>
      match ToInternal ConnectionTypeQUIC FormatTypeBinary data with
      | Panic => (w, Panic)
      | Fail _ => (w, Fail ErrAuthParse)
      | Ret authMsg => (set_handler w (set_handler_session (w_handler w) (SessionID authMsg)), Ret tt)
      end
  end.

(** The check for an empty ID, and the ID that is generated then. *)
Definition auth_unnamed (w : world) : bool := bool_decide (h_sessionID (w_handler w) = ""%string).

Definition auth_name (w : world) (newID : string) : world := set_handler w (set_handler_session (w_handler w) newID).

Definition auth_session (w : world) (now : Z) : world :=
  let '(heap, sm, _) := GetOrCreate (w_heap w) (w_manager w) (h_sessionID (w_handler w)) now in MkWorld heap sm (w_handler w).

Definition auth_respond (ok : nat -> bool) (w : world) (written : list (list byte)) : list (list byte) * outcome StreamError unit :=
  match FromInternal ConnectionTypeQUIC FormatTypeBinary (auth_response (h_sessionID (w_handler w))) with
  | Panic => (written, Panic)
  | Fail _ => (written, Fail ErrAuthResponse)
  | Ret binary => write_framed ok written binary
  end.

(** The parts without another stream in between; [newID] is a generated session ID. *)
Definition performAuthentication (ok : nat -> bool) (w : world) (data : option (list byte)) (newID : string) (now : Z)
    (written : list (list byte)) : world * list (list byte) * outcome StreamError unit :=
  match auth_begin w data with
  | (w, Ret _) =>
      let w := if auth_unnamed w then auth_name w newID else w in
      let w := auth_session w now in
      let '(written, o) := auth_respond ok w written in (w, written, o)
  | (w, o) => (w, written, o)
  end.

(** What the reading of a message meets. *)
Inductive next_message :=
  | NoMessage
  | TooLarge (n : Z)
  | Truncated
  | GotMessage (body rest : list byte).

(** [io.ReadFull] of the length and of the message. *)
Definition read_message (bufferSize : Z) (stream : list byte) : next_message :=
  if (length stream <? 4)%nat then NoMessage
  else
    let msgLen := be_get (take 4 stream) in
    if uwrap 32 bufferSize <? msgLen then TooLarge msgLen
    else if Z.of_nat (length (drop 4 stream)) <? msgLen then Truncated
    else GotMessage (take (Z.to_nat msgLen) (drop 4 stream)) (drop (Z.to_nat msgLen) (drop 4 stream)).

Section messages.
(** The message handler, with its state. *)
Context {S : Type} (HandleMessage : S -> Message -> S * outcome unit (option Message)).

Definition sendResponse (ok : nat -> bool) (written : list (list byte)) (response : Message) :
    list (list byte) * outcome StreamError unit :=
  match FromInternal ConnectionTypeQUIC FormatTypeBinary response with
  | Panic => (written, Panic)
  | Fail _ => (written, Fail ErrAuthResponse)
  | Ret binary => write_framed ok written binary
  end.

(** A message in its parts.  The session is looked up when the message is read. *)
Definition lookup_session (w : world) : option nat := GetSession (w_manager w) (h_sessionID (w_handler w)).

(** The session that was found is marked active. *)
Definition touch (w : world) (session : option nat) (now : Z) : world :=
  MkWorld (match session with Some a => alter (fun s => UpdateLastActiveTime s now) a (w_heap w) | None => w_heap w end)
    (w_manager w) (w_handler w).

(** The call of the handler and the response; errors are logged.  The last
    component tells whether the goroutine goes on. *)
Definition respond (ok : nat -> bool) (s : S) (msg : Message) (written : list (list byte)) : S * list (list byte) * bool :=
  match HandleMessage s msg with
  | (s, Panic) => (s, written, false)
  | (s, Fail _) => (s, written, true)
  | (s, Ret None) => (s, written, true)
  | (s, Ret (Some response)) =>
      match sendResponse ok written response with
      | (written, Panic) => (s, written, false)
      | (written, _) => (s, written, true)
      end
  end.

(** One message without another stream in between; an error of the conversion is
    logged. *)
Definition handle_body (ok : nat -> bool) (w : world) (s : S) (body : list byte) (now : Z) (written : list (list byte)) :
    world * S * list (list byte) * bool :=
  let session := lookup_session w in
  match ToInternal ConnectionTypeQUIC FormatTypeBinary body with
  | Panic => (w, s, written, false)
  | Fail _ => (w, s, written, true)
  | Ret msg =>
      let '(s, written, more) := respond ok s (set_session msg (h_sessionID (w_handler w))) written in
      (touch w session now, s, written, more)
  end.

(** The loop of [handleStream] over what arrives on the stream. *)
Fixpoint stream_loop (fuel : nat) (ok : nat -> bool) (w : world) (s : S) (stream : list byte) (now : Z)
    (written : list (list byte)) : world * S * list (list byte) * list byte :=
  match fuel with
  | O => (w, s, written, stream)
  | Datatypes.S fuel =>
      match read_message (h_bufferSize (w_handler w)) stream with
      | GotMessage body rest =>
          match handle_body ok w s body now written with
          | (w, s, written, true) => stream_loop fuel ok w s rest now written
          | (w, s, written, false) => (w, s, written, rest)
          end
      | _ => (w, s, written, stream)
      end
  end.

Definition stream_fuel (stream : list byte) : nat := Datatypes.S (length stream).

(** [handleStream]: authentication with what the first [Read] gives, then the
    messages; at the end the stream leaves the map. *)
Definition handleStream (ok : nat -> bool) (w : world) (s : S) (id : nat) (first : option (list byte)) (stream : list byte)
    (newID : string) (now : Z) : world * S * list (list byte) :=
  let done w := set_handler w (set_streams (w_handler w) (h_streams (w_handler w) ∖ {[ id ]})) in
  if h_authenticated (w_handler w) then
    let '(w, s, written, _) := stream_loop (stream_fuel stream) ok w s stream now [] in (done w, s, written)
  else
    match performAuthentication ok w first newID now [] with
    | (w, written, Ret _) =>
        let w := set_handler w (setAuthenticated (w_handler w) true) in
        let '(w, s, written, _) := stream_loop (stream_fuel stream) ok w s stream now written in (done w, s, written)
    | (w, written, _) => (done w, s, written)
    end.
End messages.

(** [Close]: the streams are closed and the session of the handler removed. *)
Definition handler_Close (w : world) : world :=
  let h := w_handler w in
  if decide (h_sessionID h = ""%string) then set_handler w (set_streams h ∅)
  else
    let '(heap, sm, _) := RemoveSession (w_heap w) (w_manager w) (h_sessionID h) in
    MkWorld heap sm (set_streams h ∅).
End handler.

(** ** Frames *)

Definition framed (body : list byte) : list byte := be_put 4 (Z.of_nat (length body)) ++ body.

Definition fits (bufferSize : Z) (body : list byte) : Prop := Z.of_nat (length body) <= uwrap 32 bufferSize.

Lemma read_framed bufferSize body rest :
  fits bufferSize body -> read_message bufferSize (framed body ++ rest) = GotMessage body rest.
Proof.
  intros Hf. unfold fits in Hf. pose proof (uwrap_range 32 bufferSize ltac:(lia)) as Hr. unfold in_u in Hr.
  unfold read_message, framed. rewrite <- app_assoc. set (len := be_put 4 _).
  assert (length len = 4%nat) as Hl by apply length_be_put.
  rewrite (proj2 (Nat.ltb_ge _ _)) by (rewrite length_app; lia). rewrite take_app_length', drop_app_length' by done.
  assert (be_get len = Z.of_nat (length body)) as ->.
  { subst len. rewrite be_get_put. apply Z.mod_small. change (256 ^ Z.of_nat 4) with (2 ^ 32). lia. }
  rewrite (proj2 (Z.ltb_ge _ _)), (proj2 (Z.ltb_ge _ _)) by (rewrite ?length_app; lia).
  rewrite Nat2Z.id. by rewrite take_app_length, drop_app_length.
Qed.

Lemma read_message_shrinks bufferSize stream body rest :
  read_message bufferSize stream = GotMessage body rest -> (length rest < length stream)%nat.
Proof.
  unfold read_message. destruct (Nat.ltb_spec (length stream) 4); [done|]. destruct (_ <? _); [done|].
  destruct (_ <? _); [done|]. intros [= _ <-]. rewrite !length_drop. lia.
Qed.

(** Conversely, what is read is the frame at the front of the stream. *)
Lemma read_message_framed bufferSize stream body rest :
  read_message bufferSize stream = GotMessage body rest -> stream = framed body ++ rest /\ fits bufferSize body.
Proof.
  unfold read_message. destruct (Nat.ltb_spec (length stream) 4) as [|Hl]; [done|].
  destruct (Z.ltb_spec (uwrap 32 bufferSize) (be_get (take 4 stream))) as [|Hf]; [done|].
  destruct (Z.ltb_spec (Z.of_nat (length (drop 4 stream))) (be_get (take 4 stream))) as [|Hd]; [done|]. intros [= <- <-].
  assert (length (take 4 stream) = 4%nat) as H4 by (rewrite length_take; lia).
  pose proof (be_get_range (take 4 stream)) as Hr.
  assert (Z.of_nat (length (take (Z.to_nat (be_get (take 4 stream))) (drop 4 stream))) = be_get (take 4 stream)) as Hb
    by (rewrite length_take; lia).
  unfold framed, fits. rewrite Hb. split; [|lia]. rewrite <- H4 at 1. rewrite be_put_get, <- app_assoc, take_drop. by rewrite take_drop.
Qed.

(** The messages on a stream: as many as can be read. *)
Fixpoint bodies (fuel : nat) (bufferSize : Z) (stream : list byte) : list (list byte) :=
  match fuel with
  | O => []
  | S fuel => match read_message bufferSize stream with
              | GotMessage body rest => body :: bodies fuel bufferSize rest
              | _ => []
              end
  end.

Lemma bodies_fuel f1 f2 bufferSize stream :
  (length stream < f1)%nat -> (length stream < f2)%nat -> bodies f1 bufferSize stream = bodies f2 bufferSize stream.
Proof.
  revert f2 stream. induction f1 as [|f1 IH]; intros f2 stream H1 H2; [lia|]. destruct f2 as [|f2]; [lia|]. cbn [bodies].
  destruct (read_message bufferSize stream) as [| | |body rest] eqn:E; [done..|]. apply read_message_shrinks in E. f_equal.
  apply IH; lia.
Qed.

Lemma bodies_framed bufferSize bs :
  Forall (fits bufferSize) bs ->
  bodies (stream_fuel (concat (framed <$> bs))) bufferSize (concat (framed <$> bs)) = bs.
Proof.
  assert (forall bs n, Forall (fits bufferSize) bs -> (length bs <= n)%nat -> bodies n bufferSize (concat (framed <$> bs)) = bs) as H.
  { intros l n Hl. revert n. induction Hl as [|b l Hb _ IH]; intros n Hn.
    - destruct n; [done|]. done.
    - destruct n as [|n]; [simpl in Hn; lia|]. cbn [fmap list_fmap concat bodies]. rewrite read_framed by done.
      f_equal. apply IH. simpl in Hn. lia. }
  intros Hbs. apply H; [done|]. unfold stream_fuel. clear. induction bs as [|b bs IH]; [simpl; lia|].
  cbn [fmap list_fmap concat length]. unfold framed at 1. rewrite !length_app, length_be_put. lia.
Qed.

(** What the messages of a stream leave alone: the table of sessions, the handler
    and every session but the handler's, which is marked active. *)
Definition same_but_current (w w' : world) : Prop :=
  w_manager w' = w_manager w /\ w_handler w' = w_handler w /\
  forall a, w_heap w' !! a = w_heap w !! a \/
    (GetSession (w_manager w) (h_sessionID (w_handler w)) = Some a /\
     exists t, w_heap w' !! a = (fun s => UpdateLastActiveTime s t) <$> w_heap w !! a).

#[export]
Instance same_but_current_preorder : PreOrder same_but_current.
Proof.
  split; [intros w; split_and!; [done..|]; by left|].
  intros w1 w2 w3 (Hm & Hh & Hs) (Hm' & Hh' & Hs'). split_and!; [congruence..|]. rewrite Hm, Hh in Hs'.
  intros a. destruct (Hs' a) as [-> |(Ha & t & Ht)]; [apply Hs|]. right. split; [done|]. exists t. rewrite Ht.
  destruct (Hs a) as [-> |(_ & t' & ->)]; [done|]. by destruct (w_heap w1 !! a).
Qed.

Section loops.
Context {ConvErr : Type} `{ProtocolConverter ConvErr}.
Context {S : Type} (HandleMessage : S -> Message -> S * outcome unit (option Message)).

(** The reference: the messages one after the other, until one ends the
    goroutine. *)
Fixpoint serve (ok : nat -> bool) (w : world) (s : S) (bs : list (list byte)) (now : Z) (written : list (list byte)) :
    world * S * list (list byte) :=
  match bs with
  | [] => (w, s, written)
  | b :: bs => match handle_body HandleMessage ok w s b now written with
               | (w, s, written, true) => serve ok w s bs now written
               | (w, s, written, false) => (w, s, written)
               end
  end.

Lemma handle_body_handler ok w s b now written :
  w_handler (handle_body HandleMessage ok w s b now written).1.1.1 = w_handler w /\
  w_manager (handle_body HandleMessage ok w s b now written).1.1.1 = w_manager w.
Proof.
  unfold handle_body. destruct (ToInternal _ _ _) as [m|e|]; [|done..]. by destruct (respond _ _ _ _ _) as [[s' wr'] more].
Qed.

Lemma loop_serves fuel ok w s stream now written
    (Hfuel : (length stream < fuel)%nat) :
  (stream_loop HandleMessage fuel ok w s stream now written).1 =
  serve ok w s (bodies (stream_fuel stream) (h_bufferSize (w_handler w)) stream) now written.
Proof.
  rewrite (bodies_fuel _ fuel) by (unfold stream_fuel; lia).
  revert w s stream written Hfuel. induction fuel as [|fuel IH]; intros w s stream written Hfuel; [lia|].
  cbn [stream_loop bodies]. destruct (read_message _ stream) as [| | |body rest] eqn:E; [done..|].
  apply read_message_shrinks in E. cbn [serve]. pose proof (handle_body_handler ok w s body now written) as [Hh _].
  destruct (handle_body HandleMessage ok w s body now written) as [[[w1 s1] wr1] [|]]; [|done]. simpl in Hh.
  rewrite IH by lia. by rewrite Hh.
Qed.

Lemma handle_body_same ok w s b now written :
  same_but_current w (handle_body HandleMessage ok w s b now written).1.1.1.
Proof.
  assert (same_but_current w (touch w (lookup_session w) now)) as Hw.
  { split_and!; [done..|]. intros a. unfold lookup_session. simpl. destruct (GetSession _ _) as [c|]; [|by left].
    destruct (decide (a = c)) as [-> |Hac]; [|left; by apply lookup_alter_ne].
    right. split; [done|]. exists now. apply lookup_alter_eq. }
  unfold handle_body. destruct (ToInternal _ _ _) as [m|e|]; [|reflexivity..].
  destruct (respond _ _ _ _ _) as [[s' wr'] more]. apply Hw.
Qed.

Lemma serve_same ok w s bs now written : same_but_current w (serve ok w s bs now written).1.1.
Proof.
  revert w s written. induction bs as [|b bs IH]; intros w s written; [reflexivity|]. cbn [serve].
  pose proof (handle_body_same ok w s b now written) as Hb.
  destruct (handle_body HandleMessage ok w s b now written) as [[[w1 s1] wr1] [|]]; simpl in Hb; [|done].
  etrans; [exact Hb|apply IH].
Qed.

Lemma stream_loop_same ok w s stream now written :
  same_but_current w (stream_loop HandleMessage (stream_fuel stream) ok w s stream now written).1.1.1.
Proof. rewrite loop_serves by (unfold stream_fuel; lia). apply serve_same. Qed.
End loops.

(** ** With the converter of the package *)

Section default.
Context `{AnyCodec} (number_text : list byte -> option (list byte)) (at_ : Z) (spare : list byte) (nil_payload : bool).

#[local] Instance default_conv : ProtocolConverter ConvError := DefaultProtocolConverter number_text at_ spare nil_payload.

(** The bytes of a message on the stream. *)
Definition wire_of (m : Message) : list byte :=
  byte_of (Flags m) :: be_put 2 (ServiceType m) ++ be_put 2 (MessageType m) ++ Payload m.

Lemma from_internal_wire m : FromInternal ConnectionTypeQUIC FormatTypeBinary m = Ret (wire_of m).
Proof. apply internal_to_binary_wire. Qed.

Lemma to_internal_wire m :
  message_typed m ->
  ToInternal ConnectionTypeQUIC FormatTypeBinary (wire_of m) =
  Ret (set_flags (NewMessage at_ (ServiceType m) (MessageType m) (Payload m)) (Flags m)).
Proof.
  intros Hm. destruct (binary_roundtrip at_ m Hm) as (data & H1 & _ & H2). rewrite internal_to_binary_wire in H1.
  apply Ret_inj in H1. by subst data.
Qed.

(** A handler that remembers the messages it is given and answers as [f] says. *)
Definition recording (f : list Message -> Message -> outcome unit (option Message)) (log : list Message) (m : Message) :
    list Message * outcome unit (option Message) := (log ++ [m], f log m).

(** What the bytes of a message say: its flags, its two types and its payload.  Less
    than five bytes are no message. *)
Definition body_fields (b : list byte) : option (Z * Z * Z * list byte) :=
  match b with
  | fl :: s1 :: s0 :: t1 :: t0 :: payload =>
      Some (byte_val fl, 256 * byte_val s1 + byte_val s0, 256 * byte_val t1 + byte_val t0, payload)
  | _ => None
  end.

Definition seen (m : Message) : Z * Z * Z * list byte := (Flags m, ServiceType m, MessageType m, Payload m).

Lemma to_internal_fields b :
  match body_fields b with
  | Some x => exists m, ToInternal ConnectionTypeQUIC FormatTypeBinary b = Ret m /\ seen m = x /\ SessionID m = ""%string
  | None => exists e, ToInternal ConnectionTypeQUIC FormatTypeBinary b = Fail e
  end.
Proof.
  change (ToInternal ConnectionTypeQUIC FormatTypeBinary b) with (binary_to_internal at_ b).
  destruct b as [|fl [|s1 [|s0 [|t1 [|t0 payload]]]]]; try (eexists; reflexivity).
  cbn [body_fields]. unfold binary_to_internal. cbn [length Nat.ltb Nat.leb fail_if]. gosimpl. unfold get_uint, Prelude.slice.
  cbn [length Nat.leb Nat.add panic_unless andb]. rewrite Nat.leb_refl. cbn [panic_unless]. gosimpl. eexists. split; [reflexivity|].
  split; [|done]. unfold seen, sub. cbn [set_flags NewMessage Flags ServiceType MessageType Payload drop take be_get length Nat.sub].
  rewrite drop_0, take_0, take_ge by lia.
  assert (forall x y, be_get [x; y] = 256 * byte_val x + byte_val y) as H2 by (intros x y; change (be_get [x; y]) with (byte_val x * 256 + (byte_val y * 1 + 0)); lia).
  rewrite !H2. change (be_get [fl]) with (byte_val fl * 1 + 0). by rewrite Z.mul_1_r, Z.add_0_r.
Qed.

(** What the handler is given of a message of a client. *)
Definition received (id : string) (m : Message) : Message :=
  set_session (set_flags (NewMessage at_ (ServiceType m) (MessageType m) (Payload m)) (Flags m)) id.

Lemma serve_replies (f : Message -> Message) w ms now written :
  Forall message_typed ms ->
  exists w', serve (fun (_ : unit) m => (tt, Ret (Some (f m)))) (fun _ => true) w tt (wire_of <$> ms) now written =
    (w', tt, written ++ concat ((fun m => let b := wire_of (f (received (h_sessionID (w_handler w)) m)) in
                                        [be_put 4 (Z.of_nat (length b)); b]) <$> ms)).
Proof.
  intros Hms. revert w written. induction Hms as [|m ms Hm _ IH]; intros w written; cbn [fmap list_fmap serve concat].
  - exists w. by rewrite app_nil_r.
  - pose proof (handle_body_handler (fun (_ : unit) m => (tt, Ret (Some (f m)))) (fun _ => true) w tt (wire_of m) now written) as [Hh _].
    assert (exists w1, handle_body (fun (_ : unit) m => (tt, Ret (Some (f m)))) (fun _ => true) w tt (wire_of m) now written =
      (w1, tt, written ++ [be_put 4 (Z.of_nat (length (wire_of (f (received (h_sessionID (w_handler w)) m)))));
                           wire_of (f (received (h_sessionID (w_handler w)) m))], true)) as [w1 Hw1].
    { unfold handle_body. rewrite to_internal_wire by done. cbv zeta. unfold respond, sendResponse. rewrite from_internal_wire.
      eexists. unfold write_framed. cbv zeta iota beta. reflexivity. }
    rewrite Hw1 in *. simpl in Hh. destruct (IH w1 (written ++ [be_put 4 (Z.of_nat (length (wire_of (f (received (h_sessionID (w_handler w)) m)))));
                           wire_of (f (received (h_sessionID (w_handler w)) m))])) as [w' Hw'].
    exists w'. rewrite Hw', Hh. by rewrite <- app_assoc.
Qed.

(** One message of a stream: what the handler is given of it, if anything. *)
Lemma handle_body_records f ok w log b now written :
  (forall log m, f log m <> Panic) ->
  exists ms w' written', handle_body (recording f) ok w log b now written = (w', log ++ ms, written', true) /\
    w_handler w' = w_handler w /\ seen <$> ms = option_list (body_fields b) /\ Forall (fun m => SessionID m = h_sessionID (w_handler w)) ms.
Proof.
  intros Hf. unfold handle_body. pose proof (to_internal_fields b) as Hb. destruct (body_fields b) as [x|].
  - destruct Hb as (m & -> & Hs & _). set (msg := set_session m (h_sessionID (w_handler w))).
    assert (exists written', respond (recording f) ok log msg written = (log ++ [msg], written', true)) as [written' ->].
    { unfold respond, recording. destruct (f log msg) as [[response|]|e|] eqn:E; [|by eexists..|by destruct (Hf log msg)].
      unfold sendResponse. rewrite from_internal_wire. unfold write_framed. destruct (ok _); [|by eexists]. destruct (ok _); by eexists. }
    exists [msg], (touch w (lookup_session w) now), written'. split_and!; [done|done|by rewrite <- Hs|by apply Forall_singleton].
  - destruct Hb as [e ->]. exists [], w, written. rewrite app_nil_r. by split_and!.
Qed.


(** C19: with a handler that answers every message and writes that succeed, a client that is
    authenticated and sends messages that fit gets, in order, one framed reply to each; the handler sees each
    with its types, flags and payload and the session of the connection. *)
Theorem qs_request_response (f : Message -> Message) w ms id first newID now
    (Hauth : h_authenticated (w_handler w) = true)
    (Hms : Forall message_typed ms)
    (Hfit : Forall (fun m => fits (h_bufferSize (w_handler w)) (wire_of m)) ms) :
  exists w' writes,
    handleStream (fun (_ : unit) m => (tt, Ret (Some (f m)))) (fun _ => true) w tt id first
      (concat ((fun m => framed (wire_of m)) <$> ms)) newID now = (w', tt, writes) /\
    concat writes = concat ((fun m => framed (wire_of (f (received (h_sessionID (w_handler w)) m)))) <$> ms).
Proof.
  rewrite (list_fmap_compose wire_of framed). unfold handleStream. rewrite Hauth.
  destruct (serve_replies f w ms now [] Hms) as [w' Hw'].
  pose proof (loop_serves (fun (_ : unit) m => (tt, Ret (Some (f m)))) _ (fun _ => true) w tt _ now []
    (Nat.lt_succ_diag_r (length (concat (framed <$> (wire_of <$> ms)))))) as Hl. fold (stream_fuel (concat (framed <$> (wire_of <$> ms)))) in Hl.
  rewrite (bodies_framed _ (wire_of <$> ms)) in Hl by by apply Forall_fmap. rewrite Hw' in Hl.
  destruct (stream_loop _ _ _ _ _ _ _ _) as [[[w1 s1] wr1] rest]. simpl in Hl. injection Hl as -> -> ->.
  eexists _, _. split; [done|]. clear. induction ms as [|m ms IH]; [done|]. cbn [fmap list_fmap concat app] in *.
  rewrite IH. unfold framed. by rewrite app_assoc.
Qed.

Lemma binary_no_session data m :
  ToInternal ConnectionTypeQUIC FormatTypeBinary data = Ret m -> SessionID m = ""%string.
Proof.
  change (ToInternal _ _ _) with (binary_to_internal at_ data). unfold binary_to_internal.
  intros Hm. repeat (apply outcome_bind_ret in Hm as (? & _ & Hm)). by injection Hm as <-.
Qed.

Lemma binary_accepts data :
  (5 <= length data)%nat -> exists m, ToInternal ConnectionTypeQUIC FormatTypeBinary data = Ret m.
Proof.
  intros Hl. change (ToInternal _ _ _) with (binary_to_internal at_ data). unfold binary_to_internal.
  rewrite (proj2 (Nat.ltb_ge _ _)) by lia. cbn [fail_if]. gosimpl. unfold get_uint, Prelude.slice.
  rewrite !(proj2 (Nat.leb_le _ _)) by lia. gosimpl. cbn [panic_unless andb]. gosimpl. eauto.
Qed.
(** After the authentication: the handler has the new session, which is added
    to the table without a connection. *)
Lemma authenticated_world ok w data newID now written :
  (5 <= length data)%nat -> GetSession (w_manager w) newID = None ->
  (performAuthentication ok w (Some data) newID now written).1.1 =
  MkWorld (<[fresh (dom (w_heap w)) := MkSession newID "" ConnectionTypeQUIC now None None None None false]> (w_heap w))
    (set_sessions (w_manager w) (<[newID := fresh (dom (w_heap w))]> (sessions (w_manager w))))
    (set_handler_session (w_handler w) newID).
Proof.
  intros Hl Hnew. unfold performAuthentication, auth_begin. destruct (binary_accepts data Hl) as [m Hm]. rewrite Hm.
  rewrite (binary_no_session _ _ Hm). unfold auth_unnamed. cbn [w_handler set_handler h_sessionID set_handler_session].
  rewrite bool_decide_eq_true_2 by done. unfold auth_respond. rewrite from_internal_wire. unfold auth_session, auth_name, GetOrCreate.
  cbn [w_handler set_handler h_sessionID set_handler_session w_manager w_heap]. unfold GetSession in Hnew. rewrite Hnew.
  by destruct (write_framed _ _ _).
Qed.

Section streams.
Context {S : Type} (HandleMessage : S -> Message -> S * outcome unit (option Message)).

(** A first stream, from the authentication to its end. *)
Lemma first_stream_same ok w s id data stream newID now :
  h_authenticated (w_handler w) = false ->
  exists w2, same_but_current (performAuthentication ok w (Some data) newID now []).1.1 w2 /\
    w_manager (handleStream HandleMessage ok w s id (Some data) stream newID now).1.1 = w_manager w2 /\
    w_heap (handleStream HandleMessage ok w s id (Some data) stream newID now).1.1 = w_heap w2 /\
    h_sessionID (w_handler (handleStream HandleMessage ok w s id (Some data) stream newID now).1.1) = h_sessionID (w_handler w2).
Proof.
  intros Hna. unfold handleStream. rewrite Hna.
  destruct (performAuthentication _ _ _ _ _ _) as [[w1 wr1] [u|e|]]; [|exists w1; split_and!; reflexivity..].
  pose proof (stream_loop_same HandleMessage ok (set_handler w1 (setAuthenticated (w_handler w1) true)) s stream now wr1)
    as (Hm & Hh & Hs).
  destruct (stream_loop _ _ _ _ _ _ _ _) as [[[w2 s2] wr2] rest]. simpl in *.
  exists (MkWorld (w_heap w2) (w_manager w1) (w_handler w1)). simpl. rewrite Hm, Hh. done.
Qed.

Lemma after_first_stream ok w s n data stream newID now :
  h_authenticated (w_handler w) = false -> GetSession (w_manager w) newID = None -> (5 <= length data)%nat ->
  let w2 := (handleStream HandleMessage ok w s n (Some data) stream newID now).1.1 in
  let b := fresh (dom (w_heap w)) in
  h_sessionID (w_handler w2) = newID /\
  w_manager w2 = set_sessions (w_manager w) (<[newID := b]> (sessions (w_manager w))) /\
  (forall a, a <> b -> w_heap w2 !! a = w_heap w !! a) /\
  exists t, w_heap w2 !! b = Some (MkSession newID "" ConnectionTypeQUIC t None None None None false).
Proof.
  intros Hna Hnew Hd w2 b.
  destruct (first_stream_same ok w s n data stream newID now Hna) as (w3 & (Hm & Hh & Hs) & Hm2 & Hh2 & Hi2).
  rewrite authenticated_world in Hm, Hh, Hs by done. fold w2 b in Hm, Hh, Hs, Hm2, Hh2, Hi2.
  split_and!; [by rewrite Hi2, Hh|by rewrite Hm2, Hm|..].
  - intros a Ha. rewrite Hh2. destruct (Hs a) as [-> |(Hg & _)]; [by apply lookup_insert_ne|].
    unfold GetSession in Hg. simpl in Hg. rewrite lookup_insert_eq in Hg. congruence.
  - rewrite Hh2. destruct (Hs b) as [-> |(_ & t & ->)]; simpl; rewrite lookup_insert_eq; by eexists.
Qed.

(** The binary format carries no session ID, so the first stream of a
    connection always moves the handler to a new session, which has no connection.
    The session that has the connection stays in the table for good: no message
    of the stream marks it active, and [Close] removes the other one. *)
Theorem qs_auth_orphans_session ok heap sm conn size id t1 s n data stream newID t2
    (Hid : sessions sm !! id = None) (Hnew : sessions sm !! newID = None) (Hne : id <> newID)
    (Hdata : (5 <= length data)%nat) :
  let w1 := accept_stream (Handle_start (MkWorld heap sm (NewQUICStreamHandler conn size)) id t1) n in
  let w2 := (handleStream HandleMessage ok w1 s n (Some data) stream newID t2).1.1 in
  h_sessionID (w_handler w2) = newID /\
  (exists b sb, GetSession (w_manager w2) newID = Some b /\ w_heap w2 !! b = Some sb /\
     wsConn sb = None /\ secureConn sb = None /\ quicConn sb = None /\ quicStream sb = None) /\
  exists a, GetSession (w_manager (handler_Close w2)) id = Some a /\
    w_heap (handler_Close w2) !! a = Some (NewSessionWithQUIC id ConnectionTypeQUIC conn t1).
Proof.
  intros w1 w2. set (a := fresh (dom heap)).
  assert (w_heap w1 = <[a := NewSessionWithQUIC id ConnectionTypeQUIC conn t1]> heap /\
    w_manager w1 = set_sessions sm (<[id := a]> (sessions sm))) as [Hh1 Hm1].
  { subst w1 a. unfold accept_stream, Handle_start, AddSession. simpl. rewrite lookup_insert_eq. simpl. by rewrite Hid. }
  destruct (after_first_stream ok w1 s n data stream newID t2 eq_refl) as (Hi & Hm & Ha & t & Hb); [|done|].
  { unfold GetSession. rewrite Hm1. simpl. by rewrite lookup_insert_ne. }
  fold w2 in Hi, Hm, Ha, Hb. rewrite Hm1 in Hm. set (b := fresh (dom (w_heap w1))) in *.
  assert (a <> b) as Hab.
  { intros Hab. apply (is_fresh (dom (w_heap w1))). fold b. rewrite <- Hab, Hh1, dom_insert. set_solver. }
  unfold handler_Close, RemoveSession, GetSession. rewrite Hi, Hm. simpl. rewrite lookup_insert_eq.
  split_and!; [done|by exists b, (MkSession newID "" ConnectionTypeQUIC t None None None None false)|].
  exists a. destruct (decide (newID = ""%string)); simpl.
  - rewrite Hm. simpl. rewrite lookup_insert_ne, lookup_insert_eq by done. split; [done|]. by rewrite Ha, Hh1, lookup_insert_eq.
  - rewrite lookup_delete_ne, lookup_insert_ne, lookup_insert_eq by done. split; [done|].
    by rewrite lookup_alter_ne, Ha, Hh1, lookup_insert_eq.
Qed.
End streams.
End default.

(** ** Witnesses *)

Definition sample_world : world :=
  MkWorld ∅ (NewSessionManager 30) (MkHandler 1 ∅ "s" true 64).

Definition no_reply (s : unit) (m : Message) : unit * outcome unit (option Message) := (s, Ret None).


Lemma qs_request_response_witness :
  exists w' writes,
    @handleStream _ (DefaultProtocolConverter same_number 9 [] false) _ (fun (_ : unit) m => (tt, Ret (Some m))) (fun _ => true)
      sample_world tt 4 None (framed (wire_of greeting) ++ framed (wire_of greeting)) "" 0 = (w', tt, writes) /\
    concat writes = framed (wire_of greeting) ++ framed (wire_of greeting).
Proof.
  destruct (qs_request_response same_number 9 [] false (fun m => m) sample_world [greeting; greeting] 4 None "" 0)
    as (w' & writes & H1 & H2); [reflexivity|repeat apply Forall_cons_2; try apply greeting_typed; constructor| |].
  { repeat apply Forall_cons_2; try constructor; vm_compute; discriminate. }
  exists w', writes. split; [exact H1|exact H2].
Defined.

Lemma qs_auth_orphans_session_witness :
  exists w2, (@handleStream _ (DefaultProtocolConverter same_number 9 [] false) _ no_reply (fun _ => true)
      (accept_stream (Handle_start (MkWorld ∅ (NewSessionManager 30) (NewQUICStreamHandler 1 64)) "a" 5) 4) tt 4
      (Some (wire_of greeting)) [] "b" 7).1.1 = w2 /\
    exists a, GetSession (w_manager (handler_Close w2)) "a" = Some a /\
      w_heap (handler_Close w2) !! a = Some (NewSessionWithQUIC "a" ConnectionTypeQUIC 1 5).
Proof.
  eexists. split; [reflexivity|].
  apply (qs_auth_orphans_session same_number 9 [] false no_reply (fun _ => true) ∅ (NewSessionManager 30) 1 64 "a" 5 tt 4
    (wire_of greeting) [] "b" 7); [reflexivity|reflexivity|discriminate|vm_compute; lia].
Defined.
