(* ===== verification/QuicConn.v ===== *)
(** * The streams of a QUIC connection, side by side ([pkg/gateway/quic_stream_handler.go])

    [Handle] accepts streams and starts a goroutine for each; the goroutines share
    the handler: its session ID, whether the client is authenticated, and the map of
    streams.  A goroutine is cut wherever it reads or writes what is shared: the check of
    the authentication, the parts of [performAuthentication], the mark, and for each
    message its reading, its stamping with the session ID and the call of the handler.
    What happens inside these is that of [QuicStream.v]; a read or write of the session ID
    or of the mark is one step.

    The theorems are about the handler's own record of the messages it was given
    ([recording]), not about one that the model keeps beside it. *)

From stdpp Require Import base gmap strings numbers list.
From Stdlib Require Import ZArith Lia.
From S2P Require Import Prelude Message Router Session Gateway Json Converter QuicStream.

Local Open Scope Z_scope.

(** Where a goroutine is.  [Reading]: before the [Read] of [performAuthentication];
    [Began]: the session ID of the message is stored; [Naming]: it was found empty;
    [Named]: before [GetOrCreate]; [Responding]: before the response; [Authenticated]:
    before the mark.  [Serving]: at the top of the loop; [Holding]: with a message and the
    session that was looked up; [Stamped]: before the call of the handler. *)
Inductive stage :=
  | Checking
  | Reading
  | Began
  | Naming
  | Named
  | Responding
  | Authenticated
  | Serving
  | Holding (body : list byte) (session : option nat)
  | Stamped (body : list byte) (msg : Message).

(** [g_rest]: what has arrived on the stream and was not read. *)
Record goroutine := MkGo {
  g_stage : stage;
  g_rest : list byte;
  g_written : list (list byte)
}.

(** [c_app]: the state of the message handler.  [c_accepting]: [Handle] has not returned.
    [c_closed]: [Close] was called.  [c_accepted]: the streams of the connection, with what
    arrives on them. *)
Record connection (S : Type) := MkConn {
  c_world : world;
  c_app : S;
  c_go : gmap nat goroutine;
  c_accepting : bool;
  c_closed : bool;
  c_accepted : gmap nat (list byte)
}.
Arguments MkConn {S}. Arguments c_world {S}. Arguments c_app {S}. Arguments c_go {S}. Arguments c_accepting {S}. Arguments c_closed {S}.
Arguments c_accepted {S}.

(** The steps, with what the environment decides: what is read, which writes succeed,
    the generated IDs and the times. *)
Inductive conn_action :=
  | CAccept (id : nat) (bytes : list byte)
  | CAcceptError (cancelled : bool)
  | CCheck (id : nat)
  | CBegin (id : nat) (n : option nat)
  | CUnnamed (id : nat)
  | CName (id : nat) (newID : string)
  | CSession (id : nat) (now : Z)
  | CRespond (id : nat) (ok : nat -> bool)
  | CMark (id : nat)
  | CRead (id : nat)
  | CStamp (id : nat) (now : Z)
  | CHandle (id : nat) (ok : nat -> bool)
  | CEnd (id : nat)
  | CClose.

(** [isTemporaryError] *)
Definition isTemporaryError : bool := false.

Section connection.
Context {ConvErr : Type} `{ProtocolConverter ConvErr}.
Context {S : Type} (HandleMessage : S -> Message -> S * outcome unit (option Message)).
Implicit Types c : connection S.

(** [Handle] up to its loop. *)
Definition Handle_conn (w : world) (app : S) (id : string) (now : Z) : connection S :=
  MkConn (Handle_start w id now) app ∅ true false ∅.

Definition set_go c (w : world) (id : nat) (g : goroutine) : connection S :=
  MkConn w (c_app c) (<[id := g]> (c_go c)) (c_accepting c) (c_closed c) (c_accepted c).

(** The end of a goroutine: the stream leaves the map. *)
Definition end_go c (w : world) (id : nat) : connection S :=
  MkConn (set_handler w (set_streams (w_handler w) (h_streams (w_handler w) ∖ {[ id ]}))) (c_app c) (delete id (c_go c))
    (c_accepting c) (c_closed c) (c_accepted c).

Definition set_accepting c (b : bool) : connection S :=
  MkConn (c_world c) (c_app c) (c_go c) b (c_closed c) (c_accepted c).

Definition set_app c (app : S) : connection S :=
  MkConn (c_world c) app (c_go c) (c_accepting c) (c_closed c) (c_accepted c).

Definition h_buffer c : Z := h_bufferSize (w_handler (c_world c)).

(** What one [Read] into the buffer gives. *)
Definition first_read c (rest : list byte) (n : option nat) : option (option (list byte) * list byte) :=
  match n with
  | None => Some (None, rest)
  | Some k =>
      if (k <=? length rest)%nat && (Z.of_nat k <=? h_buffer c) then Some (Some (take k rest), drop k rest)
      else None
  end.

(** [None] when the action is not possible, or ends the program. *)
Definition conn_step c (act : conn_action) : option (connection S) :=
  let w := c_world c in
  match act with
  | CAccept id bytes =>
      match c_accepting c, c_accepted c !! id with
      | true, None =>
          Some (MkConn (accept_stream w id) (c_app c) (<[id := MkGo Checking bytes []]> (c_go c)) true (c_closed c)
                  (<[id := bytes]> (c_accepted c)))
      | _, _ => None
      end
  | CAcceptError cancelled =>
      if c_accepting c then
        if cancelled then Some (set_accepting c false) else if isTemporaryError then Some c else Some (set_accepting c false)
      else None
  | CCheck id =>
      match c_go c !! id with
      | Some (MkGo Checking rest wr) => Some (set_go c w id (MkGo (if h_authenticated (w_handler w) then Serving else Reading) rest wr))
      | _ => None
      end
  | CBegin id n =>
      match c_go c !! id with
      | Some (MkGo Reading rest wr) =>
          match first_read c rest n with
          | Some (data, rest) =>
              match auth_begin w data with
              | (_, Panic) => None
              | (w, Ret _) => Some (set_go c w id (MkGo Began rest wr))
              | (w, Fail _) => Some (end_go c w id)
              end
          | None => None
          end
      | _ => None
      end
  | CUnnamed id =>
      match c_go c !! id with
      | Some (MkGo Began rest wr) => Some (set_go c w id (MkGo (if auth_unnamed w then Naming else Named) rest wr))
      | _ => None
      end
  | CName id newID =>
      match c_go c !! id with
      | Some (MkGo Naming rest wr) => Some (set_go c (auth_name w newID) id (MkGo Named rest wr))
      | _ => None
      end
  | CSession id now =>
      match c_go c !! id with
      | Some (MkGo Named rest wr) => Some (set_go c (auth_session w now) id (MkGo Responding rest wr))
      | _ => None
      end
  | CRespond id ok =>
      match c_go c !! id with
      | Some (MkGo Responding rest wr) =>
          match auth_respond ok w wr with
          | (_, Panic) => None
          | (wr, Ret _) => Some (set_go c w id (MkGo Authenticated rest wr))
          | (_, Fail _) => Some (end_go c w id)
          end
      | _ => None
      end
  | CMark id =>
      match c_go c !! id with
      | Some (MkGo Authenticated rest wr) =>
          Some (set_go c (set_handler w (setAuthenticated (w_handler w) true)) id (MkGo Serving rest wr))
      | _ => None
      end
  | CRead id =>
      match c_go c !! id with
      | Some (MkGo Serving rest wr) =>
          match read_message (h_buffer c) rest with
          | GotMessage body rest => Some (set_go c w id (MkGo (Holding body (lookup_session w)) rest wr))
          | _ => None
          end
      | _ => None
      end
  | CStamp id now =>
      match c_go c !! id with
      | Some (MkGo (Holding body session) rest wr) =>
          match ToInternal ConnectionTypeQUIC FormatTypeBinary body with
          | Panic => None
          | Fail _ => Some (set_go c w id (MkGo Serving rest wr))
          | Ret msg =>
              Some (set_go c (touch w session now) id (MkGo (Stamped body (set_session msg (h_sessionID (w_handler w)))) rest wr))
          end
      | _ => None
      end
  | CHandle id ok =>
      match c_go c !! id with
      | Some (MkGo (Stamped _ msg) rest wr) =>
          match respond HandleMessage ok (c_app c) msg wr with
          | (app, wr, true) => Some (set_app (set_go c w id (MkGo Serving rest wr)) app)
          | (_, _, false) => None
          end
      | _ => None
      end
  | CEnd id =>
      match c_go c !! id with
      | Some (MkGo Serving _ _) => Some (end_go c w id)
      | _ => None
      end
  | CClose => Some (MkConn (handler_Close w) (c_app c) (c_go c) (c_accepting c) true (c_accepted c))
  end.

(** A run of actions. *)
Definition conn_run c (acts : list conn_action) : option (connection S) :=
  foldl (fun oc act => oc ≫= fun c => conn_step c act) (Some c) acts.

Lemma conn_run_snoc c acts act c' :
  conn_run c (acts ++ [act]) = Some c' -> exists c1, conn_run c acts = Some c1 /\ conn_step c1 act = Some c'.
Proof. unfold conn_run. rewrite foldl_snoc. destruct (foldl _ _ acts) as [c1|]; [|done]. by exists c1. Qed.

(** An invariant of runs that may speak of the actions so far. *)
Lemma conn_run_inv (P : list conn_action -> connection S -> Prop) c0 :
  P [] c0 -> (forall acts act c c', P acts c -> conn_step c act = Some c' -> P (acts ++ [act]) c') ->
  forall acts c, conn_run c0 acts = Some c -> P acts c.
Proof.
  intros H0 Hs acts. induction acts as [|act acts IH] using rev_ind; intros c Hc; [by injection Hc as <-|].
  apply conn_run_snoc in Hc as (c1 & Hr & Hst). eauto.
Qed.

(** A step of one goroutine, [None] for its end. *)
Definition go_update c c' (id : nat) (g : option goroutine) : Prop := c_go c' = partial_alter (fun _ => g) id (c_go c).

Definition new_connection (heap : heap) (sm : SessionManager) (conn : nat) (size : Z) (app : S) (id : string) (now : Z) : connection S :=
  Handle_conn (MkWorld heap sm (NewQUICStreamHandler conn size)) app id now.
End connection.

(** ** Sessions *)

(** What a run has done: the session IDs it generated, the streams whose authentication
    message was read, and those that came past the naming of the session. *)
Definition given (acts : list conn_action) : list string := omap (fun a => match a with CName _ newID => Some newID | _ => None end) acts.
Definition begun (acts : list conn_action) : list nat := omap (fun a => match a with CBegin id _ => Some id | _ => None end) acts.
Definition settled (acts : list conn_action) : list nat := omap (fun a => match a with CSession id _ => Some id | _ => None end) acts.

(** The session ID of a message: a generated one, or the empty one, which takes two
    streams that authenticate. *)
Definition session_ok (acts : list conn_action) (s : string) : Prop :=
  s ∈ given acts \/ (s = ""%string /\ exists i j, i <> j /\ i ∈ begun acts /\ j ∈ begun acts).

Definition unsettled (st : stage) : Prop := st = Began \/ st = Naming \/ st = Named.

Section sessions.
Context `{AnyCodec} (number_text : list byte -> option (list byte)) (at_ : Z) (spare : list byte) (nil_payload : bool).
#[local] Instance conn_conv : ProtocolConverter ConvError := DefaultProtocolConverter number_text at_ spare nil_payload.

Context (f : list Message -> Message -> outcome unit (option Message)).
Implicit Types c : connection (list Message).

Definition authenticated c : bool := h_authenticated (w_handler (c_world c)).
Definition session_of c : string := h_sessionID (w_handler (c_world c)).

Definition stage_ok (acts : list conn_action) c (id : nat) (st : stage) : Prop :=
  match st with
  | Checking | Reading => id ∉ settled acts
  | Began | Naming | Named => id ∈ begun acts /\ id ∉ settled acts
  | Responding | Authenticated => id ∈ settled acts
  | Serving | Holding _ _ => authenticated c = true
  | Stamped _ m => authenticated c = true /\ session_ok acts (SessionID m)
  end.

Record sess_inv (acts : list conn_action) c : Prop := {
  si_auth : authenticated c = true -> settled acts <> [];
  si_go id g : c_go c !! id = Some g -> is_Some (c_accepted c !! id) /\ stage_ok acts c id (g_stage g);
  si_empty : session_of c = ""%string -> exists j g, c_go c !! j = Some g /\ (g_stage g = Began \/ g_stage g = Naming);
  si_given : settled acts <> [] \/ (exists j g, c_go c !! j = Some g /\ unsettled (g_stage g)) -> session_of c = ""%string \/ session_of c ∈ given acts;
  si_settled i : i ∈ settled acts -> i ∈ begun acts /\ is_Some (c_accepted c !! i)
}.

Lemma stage_ok_mono acts acts' c c' id st :
  stage_ok acts c id st -> given acts ⊆ given acts' -> begun acts ⊆ begun acts' -> (id ∈ settled acts' <-> id ∈ settled acts) ->
  (authenticated c = true -> authenticated c' = true) -> stage_ok acts' c' id st.
Proof.
  intros Hs Hg Hb Hi Ha. destruct st; cbn in *; rewrite ?Hi; try naive_solver.
  destruct Hs as [H1 [H2|(H2 & i & j & H3 & H4 & H5)]]; (split; [auto|]); [left; auto|right; split; [done|]; exists i, j; auto].
Qed.

(** A step of the goroutine of one stream. *)
Lemma sess_move acts acts' c c' id g g' :
  sess_inv acts c -> c_go c !! id = Some g -> go_update c c' id g' -> c_accepted c' = c_accepted c ->
  given acts ⊆ given acts' -> begun acts ⊆ begun acts' ->
  (settled acts' = settled acts \/ (settled acts' = settled acts ++ [id] /\ g_stage g = Named /\ exists r wr, g' = Some (MkGo Responding r wr))) ->
  (authenticated c = true -> authenticated c' = true) -> (authenticated c' = true -> authenticated c = true \/ id ∈ settled acts) ->
  (forall x, g' = Some x -> stage_ok acts' c' id (g_stage x)) ->
  (session_of c' = session_of c \/ (session_of c' = ""%string /\ exists x, g' = Some x /\ g_stage x = Began) \/
     (session_of c' <> ""%string /\ session_of c' ∈ given acts')) ->
  (session_of c' = ""%string -> g_stage g = Began \/ g_stage g = Naming -> exists x, g' = Some x /\ (g_stage x = Began \/ g_stage x = Naming)) ->
  (forall x, g' = Some x -> unsettled (g_stage x) -> unsettled (g_stage g) \/ session_of c' = ""%string) ->
  sess_inv acts' c'.
Proof.
  intros [S1 S2 S3 S4 S5] Hg Hu Ea Hgi Hbe Hset Ham Ha' Hok Hid Hleave Hstart. unfold go_update in Hu.
  assert (forall i, i ∈ settled acts -> i ∈ settled acts') as Hsub by (destruct Hset as [-> |(-> & _)]; set_solver).
  assert (forall j, j <> id -> j ∈ settled acts' <-> j ∈ settled acts) as Hne.
  { intros j Hj. destruct Hset as [-> |(-> & _)]; [done|]. rewrite elem_of_app, list_elem_of_singleton. naive_solver. }
  assert (forall j x, c_go c' !! j = Some x -> (j = id /\ g' = Some x) \/ (j <> id /\ c_go c !! j = Some x)) as Hlook.
  { intros j x. rewrite Hu. destruct (decide (j = id)) as [-> |Hj]; [rewrite lookup_partial_alter_eq; by left|rewrite lookup_partial_alter_ne by done; by right]. }
  destruct (S2 _ _ Hg) as [Hacc Hst].
  split.
  - intros Ht. destruct (Ha' Ht) as [Hc|Hin].
    + specialize (S1 Hc). destruct (settled acts) as [|i l] eqn:E; [done|]. specialize (Hsub i (list_elem_of_here _ _)). by intros E'; rewrite E' in Hsub; apply elem_of_nil in Hsub.
    + specialize (Hsub _ Hin). by intros E'; rewrite E' in Hsub; apply elem_of_nil in Hsub.
  - intros j x Hx. rewrite Ea. destruct (Hlook j x Hx) as [[-> Ex]|[Hj Hx']]; [split; [done|by apply Hok]|].
    destruct (S2 j x Hx') as [H1 H2]. split; [done|]. eapply stage_ok_mono; eauto.
  - intros He. destruct Hid as [Es|[(_ & x & Ex & Hx)|[Hn _]]]; [|exists id, x; rewrite Hu, lookup_partial_alter_eq; auto|done].
    rewrite Es in He. destruct (S3 He) as (j & x & Hx & Hs). destruct (decide (j = id)) as [-> |Hj].
    + assert (x = g) as -> by congruence. rewrite <- Es in He. destruct (Hleave He Hs) as (y & Ey & Hy). exists id, y. by rewrite Hu, lookup_partial_alter_eq.
    + exists j, x. by rewrite Hu, lookup_partial_alter_ne.
  - intros Hpre. destruct Hid as [Es|[[Es _]|[_ Es]]]; [|by left|by right].
    assert (session_of c' = ""%string \/ settled acts <> [] \/ exists j y, c_go c !! j = Some y /\ unsettled (g_stage y)) as [?|Hs]; [|by left|].
    { destruct Hpre as [Hpre|(j & y & Hy & Hs)].
      - destruct Hset as [E|(_ & E & _)]; [rewrite E in Hpre; auto|]. right. right. exists id, g. unfold unsettled. auto.
      - destruct (Hlook j y Hy) as [[-> Ey]|[Hj Hy']]; [|eauto 10]. destruct (Hstart y Ey Hs) as [H1|H1]; [eauto 10|by left]. }
    rewrite Es. destruct (S4 Hs) as [?|?]; [by left|right; auto].
  - intros i Hi. rewrite Ea. destruct (decide (i = id)) as [-> |Hi'].
    + split; [|done]. destruct Hset as [E|(_ & E & _)]; [rewrite E in Hi; apply Hbe; by apply S5|]. rewrite E in Hst. apply Hbe, Hst.
    + apply Hne in Hi; [|done]. destruct (S5 i Hi). auto.
Qed.

(** A step that touches no goroutine and not the session. *)
Lemma sess_same acts acts' c c' :
  sess_inv acts c -> c_go c' = c_go c -> c_accepted c' = c_accepted c -> authenticated c' = authenticated c -> session_of c' = session_of c ->
  given acts' = given acts -> begun acts' = begun acts -> settled acts' = settled acts -> sess_inv acts' c'.
Proof.
  intros [S1 S2 S3 S4 S5] E1 E2 E3 E4 E5 E6 E7. split; rewrite ?E1, ?E2, ?E3, ?E4, ?E5, ?E6, ?E7; try done.
  intros id g Hg. destruct (S2 id g Hg) as [H1 H2]. split; [done|]. eapply stage_ok_mono; [exact H2|rewrite ?E5, ?E6, ?E7, ?E3; done..].
Qed.

(** The session ID that a message is stamped with. *)
Lemma stamp_ok acts c :
  sess_inv acts c -> authenticated c = true -> session_ok acts (session_of c).
Proof.
  intros [S1 S2 S3 S4 S5] Ha. specialize (S1 Ha). destruct (S4 (or_introl S1)) as [He|Hg]; [|by left]. right. split; [done|].
  destruct (S3 He) as (j & g & Hg & Hs). destruct (S2 j g Hg) as [_ Hok].
  assert (j ∈ begun acts /\ j ∉ settled acts) as [Hj Hn] by (destruct Hs as [E|E]; by rewrite E in Hok).
  destruct (settled acts) as [|i l] eqn:E; [done|]. destruct (S5 i (list_elem_of_here _ _)) as [Hi _].
  exists i, j. split_and!; [intros ->; apply Hn; left|done..].
Qed.

Lemma sess_accept acts id bytes c :
  sess_inv acts c -> c_accepted c !! id = None ->
  sess_inv acts (MkConn (accept_stream (c_world c) id) (c_app c) (<[id := MkGo Checking bytes []]> (c_go c)) true (c_closed c)
                  (<[id := bytes]> (c_accepted c))).
Proof.
  intros [S1 S2 S3 S4 S5] Hnew.
  assert (c_go c !! id = None) as Hgo.
  { destruct (c_go c !! id) as [g|] eqn:E; [|done]. destruct (S2 id g E) as [[x Hx] _]. congruence. }
  split; cbn [c_go c_accepted]; unfold authenticated, session_of; cbn [c_world accept_stream set_handler w_handler h_authenticated h_sessionID set_streams].
  - done.
  - intros j g [[<- <-]|[Hj Hg]]%lookup_insert_Some.
    + split; [by rewrite lookup_insert_eq|]. intros Hi. destruct (S5 id Hi) as [_ [x Hx]]. congruence.
    + destruct (S2 j g Hg). by rewrite lookup_insert_ne.
  - intros He. destruct (S3 He) as (j & g & Hg & Hs). exists j, g. split; [|done]. rewrite lookup_insert_ne; [done|congruence].
  - intros [Hs|(j & g & Hg & Hu)]; apply S4; [by left|]. right. exists j, g. split; [|done]. apply lookup_insert_Some in Hg as [[<- <-]|[_ Hg]]; [|done].
    by destruct Hu as [?|[?|?]].
  - intros i Hi. destruct (S5 i Hi) as [H1 [x H2]]. split; [done|]. rewrite lookup_insert_ne; [by eexists|congruence].
Qed.

Lemma runs_snoc acts act :
  given (acts ++ [act]) = given acts ++ given [act] /\ begun (acts ++ [act]) = begun acts ++ begun [act] /\
  settled (acts ++ [act]) = settled acts ++ settled [act].
Proof. unfold given, begun, settled. by rewrite !omap_app. Qed.

(** A step of a goroutine that leaves the session, the mark and the naming alone. *)
Lemma sess_plain acts acts' c c' id g g' :
  sess_inv acts c -> c_go c !! id = Some g -> go_update c c' id g' -> c_accepted c' = c_accepted c ->
  given acts' = given acts -> begun acts ⊆ begun acts' -> settled acts' = settled acts ->
  authenticated c' = authenticated c -> session_of c' = session_of c -> ~ unsettled (g_stage g) ->
  (forall x, g' = Some x -> stage_ok acts' c' id (g_stage x) /\ ~ unsettled (g_stage x)) -> sess_inv acts' c'.
Proof.
  intros Hi Hg Hu Ea Eg Eb Es Et Ei Hn Hx. unfold unsettled in Hn.
  eapply (sess_move acts acts' c c' id g g' Hi Hg Hu Ea); rewrite ?Eg, ?Et, ?Ei; try by auto.
  - intros x Ex. apply (Hx x Ex).
  - naive_solver.
  - intros x Ex Hs. by destruct (Hx x Ex).
Qed.

Lemma sess_begin acts id n c c' :
  sess_inv acts c -> conn_step (recording f) c (CBegin id n) = Some c' -> sess_inv (acts ++ [CBegin id n]) c'.
Proof.
  intros Hi Hst. destruct (runs_snoc acts (CBegin id n)) as (Eg & Eb & Es).
  cbn [given begun settled omap list_omap] in Eg, Eb, Es. rewrite app_nil_r in Eg. rewrite app_nil_r in Es. cbn [conn_step] in Hst.
  destruct (c_go c !! id) as [[[] rest wr]|] eqn:Hg; try done. destruct (si_go _ _ Hi id _ Hg) as [_ Hok]. cbn [g_stage stage_ok] in Hok.
  destruct (first_read c rest n) as [[data rest']|]; [|done].
  destruct (auth_begin (c_world c) data) as [w [u|e|]] eqn:Ew; [| |done]; injection Hst as <-.
  - assert (authenticated (set_go c w id (MkGo Began rest' wr)) = authenticated c /\ session_of (set_go c w id (MkGo Began rest' wr)) = ""%string) as [Ea Ei].
    { unfold auth_begin in Ew. destruct data as [data|]; [|done]. destruct (ToInternal _ _ data) as [m|e|] eqn:Em; [|done..].
      injection Ew as <-. split; [done|]. unfold session_of. cbn. eapply (binary_no_session number_text at_ spare nil_payload), Em. }
    eapply (sess_move _ _ _ _ _ _ _ Hi Hg); rewrite ?Ei, ?Ea, ?Eg, ?Eb, ?Es; try done; try by auto.
    + set_solver.
    + intros x [= <-]. cbn [g_stage stage_ok]. rewrite Eb, Es. set_solver.
    + right. left. eauto.
    + intros _ [?|?]; done.
  - assert (w = c_world c) as ->.
    { unfold auth_begin in Ew. destruct data as [data|]; [|by injection Ew]. destruct (ToInternal _ _ data); [done|by injection Ew|done]. }
    eapply (sess_plain _ _ _ _ _ _ _ Hi Hg); try done; [rewrite Eb; set_solver|by intros [?|[?|?]]].
Qed.

Lemma sess_step acts act c c' :
  Forall (fun s => s <> ""%string) (given (acts ++ [act])) -> sess_inv acts c -> conn_step (recording f) c act = Some c' ->
  sess_inv (acts ++ [act]) c'.
Proof.
  intros Hne Hi Hst. destruct (runs_snoc acts act) as (Eg & Eb & Es).
  assert (forall id g, c_go c !! id = Some g -> stage_ok acts c id (g_stage g)) as Hok by (intros id g Hg; by apply Hi).
  destruct act as [id bytes|b|id|id n|id|id newID|id now|id ok|id|id|id now|id ok|id|]; cbn [given begun settled omap list_omap] in Eg, Eb, Es;
    rewrite ?app_nil_r in Eg; rewrite ?app_nil_r in Eb; rewrite ?app_nil_r in Es; cbn [conn_step] in Hst.
  4: by apply (sess_begin acts id n c c' Hi).
  1: { destruct (c_accepting c); [|done]. destruct (c_accepted c !! id) eqn:E; [done|]. injection Hst as <-.
       eapply sess_same; [by apply (sess_accept acts id bytes c Hi)|try reflexivity; done..]. }
  1: { destruct (c_accepting c); [|done]. destruct b; injection Hst as <-; eapply (sess_same _ _ _ _ Hi); try reflexivity; done. }
  11: { injection Hst as <-. eapply (sess_same _ _ _ _ Hi); try done; unfold authenticated, session_of; cbn [c_world];
        unfold handler_Close; destruct (decide _); try reflexivity; by destruct (RemoveSession _ _ _) as [[??]?]. }
  all: destruct (c_go c !! id) as [[[] rest wr]|] eqn:Hg; try done; specialize (Hok id _ Hg); cbn [g_stage stage_ok] in Hok.
  - (* CCheck *) injection Hst as <-. eapply (sess_plain _ _ _ _ _ _ _ Hi Hg); try done; [by rewrite Eb|by intros [?|[?|?]]|].
    intros x [= <-]. cbn [g_stage]. unfold authenticated. cbn. destruct (h_authenticated _) eqn:Ea; cbn [stage_ok]; rewrite ?Es; (split; [done|by intros [?|[?|?]]]).
  - (* CUnnamed *) injection Hst as <-. eapply (sess_move _ _ _ _ _ _ _ Hi Hg); rewrite ?Eg, ?Eb, ?Es; try done; try by auto.
    + intros x [= <-]. cbn [g_stage]. destruct (auth_unnamed _); cbn [stage_ok]; by rewrite Eb, Es.
    + intros He _. eexists. split; [done|]. cbn [g_stage]. unfold auth_unnamed. unfold session_of in He. cbn in He. rewrite He. by right.
    + intros x _ _. left. by left.
  - (* CName *) injection Hst as <-. eapply (sess_move _ _ _ _ _ _ _ Hi Hg); rewrite ?Eg, ?Eb, ?Es; try done; try by auto; try set_solver.
    + intros x [= <-]. cbn [g_stage stage_ok]. by rewrite Eb, Es.
    + rewrite Eg, Forall_app, Forall_singleton in Hne. right. right. split; [apply Hne|set_solver].
    + rewrite Eg, Forall_app, Forall_singleton in Hne. intros He. by destruct Hne as [_ Hne].
    + intros x _ _. left. right. by left.
  - (* CSession *) injection Hst as <-. unfold auth_session. destruct (GetOrCreate _ _ _ _) as [[heap sm] a].
    eapply (sess_move _ _ _ _ _ _ _ Hi Hg); rewrite ?Eg, ?Eb, ?Es; try done; try by auto; try set_solver.
    + intros x [= <-]. cbn [g_stage stage_ok]. rewrite Es. set_solver.
    + intros x [= <-] [?|[?|?]]; done.
  - (* CRespond *) destruct (auth_respond ok (c_world c) wr) as [wr' [u|e|]]; [| |done]; injection Hst as <-;
      (eapply (sess_plain _ _ _ _ _ _ _ Hi Hg); try done; [by rewrite Eb|by intros [?|[?|?]]|..]); intros x [= <-]. cbn [g_stage stage_ok].
    rewrite Es. split; [done|by intros [?|[?|?]]].
  - (* CMark *) injection Hst as <-. eapply (sess_move _ _ _ _ _ _ _ Hi Hg); rewrite ?Eg, ?Eb, ?Es; try done; try by auto.
    + by intros x [= <-].
    + intros _ [?|?]; done.
    + intros x [= <-] [?|[?|?]]; done.
  - (* CRead *) destruct (read_message _ _) as [| | |body rest']; [done..|]. injection Hst as <-.
    eapply (sess_plain _ _ _ _ _ _ _ Hi Hg); try done; [by rewrite Eb|by intros [?|[?|?]]|]. intros x [= <-]. split; [done|by intros [?|[?|?]]].
  - (* CStamp *) destruct (ToInternal _ _ body) as [m|e|]; [| |done]; injection Hst as <-;
      (eapply (sess_plain _ _ _ _ _ _ _ Hi Hg); try done; [by rewrite Eb|by intros [?|[?|?]]|]); intros x [= <-]; (split; [|by intros [?|[?|?]]]); [|done].
    split; [done|]. cbn [set_session SessionID]. pose proof (stamp_ok _ _ Hi Hok) as Hs. unfold session_ok in *. by rewrite Eg, Eb.
  - (* CHandle *) destruct (respond _ _ _ _ _) as [[app wr'] [|]]; [|done]. injection Hst as <-.
    eapply (sess_plain _ _ _ _ _ _ _ Hi Hg); try done; [by rewrite Eb|by intros [?|[?|?]]|]. intros x [= <-]. split; [apply Hok|by intros [?|[?|?]]].
  - (* CEnd *) injection Hst as <-. eapply (sess_plain _ _ _ _ _ _ _ Hi Hg); try done; [by rewrite Eb|by intros [?|[?|?]]].
Qed.

Lemma sess_reach heap sm conn size log id now acts c :
  id <> ""%string -> Forall (fun s => s <> ""%string) (given acts) ->
  conn_run (recording f) (new_connection heap sm conn size log id now) acts = Some c -> sess_inv acts c.
Proof.
  intros Hid Hne Hr. revert Hne.
  refine (conn_run_inv (recording f) (fun acts c => Forall (fun s => s <> ""%string) (given acts) -> sess_inv acts c) _ _ _ acts c Hr).
  - intros _. split; try done.
    + intros [?|(j & g & Hg & _)]; done.
    + intros i []%elem_of_nil.
  - intros acts' act c1 c2 IH Hst Hne. eapply sess_step; [done| |done]. apply IH. destruct (runs_snoc acts' act) as [Eg _].
    rewrite Eg, Forall_app in Hne. apply Hne.
Qed.

Lemma respond_records ok log m wr app wr' :
  respond (recording f) ok log m wr = (app, wr', true) -> app = log ++ [m].
Proof.
  unfold respond, recording. destruct (f log m) as [[r|]|e|]; [|by intros [= <- _]..|done].
  destruct (sendResponse _ _ _) as [wr1 [u|e|]]; [by intros [= <- _]..|done].
Qed.

(** What the handler remembers of a step: nothing, or the message of a goroutine. *)
Lemma step_records c act c' :
  conn_step (recording f) c act = Some c' ->
  c_app c' = c_app c \/ exists id ok b m rest wr, act = CHandle id ok /\ c_go c !! id = Some (MkGo (Stamped b m) rest wr) /\ c_app c' = c_app c ++ [m].
Proof.
  intros Hst. destruct act as [id bytes|b|id|id n|id|id newID|id now|id ok|id|id|id now|id ok|id|]; cbn [conn_step] in Hst.
  12: { destruct (c_go c !! id) as [[[] rest wr]|] eqn:Hg; try done. destruct (respond _ _ _ _ _) as [[app wr'] [|]] eqn:Er; [|done].
        injection Hst as <-. apply respond_records in Er. right. eauto 10. }
  all: left; repeat case_match; simplify_eq/=; done.
Qed.

(** C18: a message reaches the handler only after the connection is authenticated, and
    with a session ID that the authentication of a stream generated; or with the empty
    one, but then two different streams have begun to authenticate.  This holds in every
    interleaving of the goroutines, for a handler that remembers what it is given and answers
    as it likes, where generated session IDs are not empty. *)
Theorem qc_sessions heap sm conn size id now acts c act c'
    (Hid : id <> ""%string) (Hne : Forall (fun s => s <> ""%string) (given acts))
    (Hrun : conn_run (recording f) (new_connection heap sm conn size [] id now) acts = Some c)
    (Hstep : conn_step (recording f) c act = Some c') :
  c_app c' = c_app c \/
  exists m, c_app c' = c_app c ++ [m] /\ authenticated c = true /\ session_ok acts (SessionID m).
Proof.
  destruct (step_records _ _ _ Hstep) as [->|(i & ok & b & m & rest & wr & -> & Hg & ->)]; [by left|right].
  pose proof (sess_reach _ _ _ _ _ _ _ _ _ Hid Hne Hrun) as Hi. destruct (si_go _ _ Hi i _ Hg) as [_ Hok]. exists m. split; [done|apply Hok].
Qed.
End sessions.

(** ** The order of the messages *)

(** What the [Read] for the authentication of a stream took. *)
Definition auth_reads (j : nat) (acts : list conn_action) : list nat :=
  omap (fun a => match a with CBegin i (Some n) => if decide (i = j) then Some n else None | _ => None end) acts.
Definition auth_taken (j : nat) (acts : list conn_action) : nat := default O (head (auth_reads j acts)).

(** The messages of stream [j] in a list of messages with the streams they are from. *)
Definition of_stream (j : nat) (l : list (nat * Message)) : list Message := (filter (fun x => x.1 = j) l).*2.

(** The frame that was read and is not handled yet. *)
Definition pending (st : stage) : list byte :=
  match st with Holding b _ | Stamped b _ => framed b | _ => [] end.

Lemma of_stream_snoc j l i m : of_stream j (l ++ [(i, m)]) = of_stream j l ++ (if decide (i = j) then [m] else []).
Proof. unfold of_stream. rewrite filter_app, fmap_app. f_equal. rewrite filter_cons. cbn. by destruct (decide (i = j)). Qed.

Section order.
Context `{AnyCodec} (number_text : list byte -> option (list byte)) (at_ : Z) (spare : list byte) (nil_payload : bool).
#[local] Instance order_conv : ProtocolConverter ConvError := DefaultProtocolConverter number_text at_ spare nil_payload.

Context (f : list Message -> Message -> outcome unit (option Message)) (size : Z).
Implicit Types c : connection (list Message).

Definition stage_in (acts : list conn_action) (j : nat) (bs : list (list byte)) (st : stage) : Prop :=
  match st with
  | Checking | Reading => auth_reads j acts = [] /\ bs = []
  | Holding b _ => fits size b
  | Stamped b m => fits size b /\ body_fields b = Some (seen m)
  | _ => True
  end.

Definition stream_ok (acts : list conn_action) (l : list (nat * Message)) (go : option goroutine) (j : nat) (bytes : list byte) : Prop :=
  exists bs rest, (auth_taken j acts <= length bytes)%nat /\ drop (auth_taken j acts) bytes = concat (framed <$> bs) ++ rest /\
    Forall (fits size) bs /\ seen <$> of_stream j l = omap body_fields bs /\
    forall g, go = Some g -> rest = pending (g_stage g) ++ g_rest g /\ stage_in acts j bs (g_stage g).

Record order_inv (acts : list conn_action) (l : list (nat * Message)) c : Prop := {
  oi_app : l.*2 = c_app c;
  oi_size : h_buffer c = size;
  oi_stream j bytes : c_accepted c !! j = Some bytes -> stream_ok acts l (c_go c !! j) j bytes;
  oi_none j : c_accepted c !! j = None -> of_stream j l = [] /\ auth_reads j acts = [] /\ c_go c !! j = None;
  oi_map : h_streams (w_handler (c_world c)) ⊆ dom (c_go c);
  oi_open : c_closed c = false -> h_streams (w_handler (c_world c)) = dom (c_go c)
}.

(** A step of the goroutine of stream [id]; [ms] is what the handler is given. *)
Lemma order_move acts acts' l c c' id g g' ms :
  order_inv acts l c -> c_go c !! id = Some g -> go_update c c' id g' -> c_accepted c' = c_accepted c -> c_closed c' = c_closed c ->
  c_app c' = c_app c ++ ms -> h_buffer c' = h_buffer c ->
  h_streams (w_handler (c_world c')) = match g' with Some _ => h_streams (w_handler (c_world c)) | None => h_streams (w_handler (c_world c)) ∖ {[ id ]} end ->
  (forall j, j <> id -> auth_reads j acts' = auth_reads j acts) ->
  (forall bytes, stream_ok acts l (Some g) id bytes -> stream_ok acts' (l ++ ((fun m => (id, m)) <$> ms)) g' id bytes) ->
  order_inv acts' (l ++ ((fun m => (id, m)) <$> ms)) c'.
Proof.
  intros [O1 O2 O3 O4 O5 O6] Hg Hu Ea Ec Eap Eb Es Hr Hst. unfold go_update in Hu.
  assert (forall j, j <> id -> of_stream j (l ++ ((fun m => (id, m)) <$> ms)) = of_stream j l) as Hof.
  { intros j Hj. clear Eap Hst. induction ms as [|m ms IH] using rev_ind; [by rewrite app_nil_r|].
    rewrite fmap_app. simpl. rewrite app_assoc, of_stream_snoc, decide_False by done. by rewrite app_nil_r. }
  assert (forall j, j <> id -> c_go c' !! j = c_go c !! j) as Hgo by (intros j Hj; by rewrite Hu, lookup_partial_alter_ne).
  assert (c_go c' !! id = g') as Hgid by (by rewrite Hu, lookup_partial_alter_eq).
  assert (is_Some (c_accepted c !! id)) as [bid Hbid].
  { destruct (c_accepted c !! id) eqn:E; [by eexists|]. destruct (O4 id E) as (_ & _ & ?). congruence. }
  assert (dom (c_go c') = match g' with Some _ => dom (c_go c) | None => dom (c_go c) ∖ {[ id ]} end) as Hdom.
  { apply set_eq. intros j. rewrite elem_of_dom. destruct (decide (j = id)) as [->|Hj].
    - rewrite Hgid. destruct g'; [|set_solver]. rewrite elem_of_dom, Hg. by split; intros; eexists.
    - rewrite Hgo by done. destruct g'; rewrite ?elem_of_difference, elem_of_dom; set_solver. }
  split.
  - rewrite fmap_app, O1, Eap, <- list_fmap_compose. f_equal. by rewrite (list_fmap_id ms : (snd ∘ (fun m => (id, m))) <$> ms = ms).
  - congruence.
  - intros j bytes. rewrite Ea. intros Hb. destruct (decide (j = id)) as [->|Hj].
    + rewrite Hgid. apply Hst. rewrite <- Hg. auto.
    + destruct (O3 j bytes Hb) as (bs & rest & H1 & H2 & H3 & H4 & H5). unfold stream_ok, auth_taken in *. exists bs, rest.
      rewrite Hof, Hr, Hgo by done. split_and!; try done. intros x Hx. destruct (H5 x Hx) as [H6 H7]. split; [done|].
      destruct (g_stage x); cbn in *; rewrite ?Hr by done; done.
  - intros j. rewrite Ea. intros Hb. assert (j <> id) as Hj by congruence. rewrite Hof, Hr, Hgo by done. auto.
  - rewrite Es, Hdom. destruct g'; set_solver.
  - rewrite Ec, Es, Hdom. intros Hc. rewrite (O6 Hc). done.
Qed.

(** A step of a goroutine that reads nothing for good and calls no handler. *)
Lemma order_stay acts acts' l c c' id g g' :
  order_inv acts l c -> c_go c !! id = Some g -> go_update c c' id g' -> c_accepted c' = c_accepted c -> c_closed c' = c_closed c ->
  c_app c' = c_app c -> h_buffer c' = h_buffer c ->
  h_streams (w_handler (c_world c')) = match g' with Some _ => h_streams (w_handler (c_world c)) | None => h_streams (w_handler (c_world c)) ∖ {[ id ]} end ->
  (forall j, auth_reads j acts' = auth_reads j acts) ->
  (forall x, g' = Some x -> pending (g_stage x) ++ g_rest x = pending (g_stage g) ++ g_rest g /\
     forall bs, stage_in acts id bs (g_stage g) -> stage_in acts id bs (g_stage x)) ->
  order_inv acts' l c'.
Proof.
  intros Hi Hg Hu Ea Ec Eap Eb Es Hr Hx. rewrite <- (app_nil_r l).
  apply (order_move acts acts' l c c' id g g' [] Hi Hg Hu Ea Ec); rewrite ?app_nil_r; try done.
  intros bytes (bs & rest & H1 & H2 & H3 & H4 & H5). destruct (H5 g eq_refl) as [-> H6]. unfold stream_ok, auth_taken in *. rewrite ?app_nil_r, Hr.
  exists bs, (pending (g_stage g) ++ g_rest g). split_and!; try done. intros x Ex. destruct (Hx x Ex) as [E1 E2]. split; [done|].
  specialize (E2 _ H6). destruct (g_stage x); cbn in *; by rewrite ?Hr.
Qed.

Lemma order_accept acts acts' l c id bytes :
  order_inv acts l c -> c_accepted c !! id = None -> (forall j, auth_reads j acts' = auth_reads j acts) ->
  order_inv acts' l (MkConn (accept_stream (c_world c) id) (c_app c) (<[id := MkGo Checking bytes []]> (c_go c)) true (c_closed c)
                  (<[id := bytes]> (c_accepted c))).
Proof.
  intros [O1 O2 O3 O4 O5 O6] Hnew Hr. destruct (O4 id Hnew) as (Hl & Hn & Hgo). unfold stream_ok, auth_taken in *.
  split; cbn [c_app c_go c_accepted c_closed c_world accept_stream set_handler w_handler h_streams set_streams]; try done.
  - intros j bs. unfold stream_ok, auth_taken. rewrite Hr. intros [[<- <-]|[Hj Hb]]%lookup_insert_Some.
    + rewrite Hn, Hl, lookup_insert_eq. exists [], bytes. cbn. rewrite drop_0. split_and!; [lia|done..|]. intros g [= <-]. cbn. by rewrite Hr.
    + destruct (O3 j bs Hb) as (fs & rest & H1 & H2 & H3 & H4 & H5). rewrite lookup_insert_ne by done. exists fs, rest. split_and!; try done.
      intros g Hg. destruct (H5 g Hg) as [H6 H7]. split; [done|]. destruct (g_stage g); cbn in *; by rewrite ?Hr.
  - intros j [Hj1 Hj2]%lookup_insert_None. rewrite Hr, lookup_insert_ne by done. auto.
  - rewrite dom_insert. set_solver.
  - intros Hc. rewrite dom_insert_L, (O6 Hc). done.
Qed.

Lemma order_same acts acts' l c c' :
  order_inv acts l c -> c_go c' = c_go c -> c_accepted c' = c_accepted c -> c_app c' = c_app c -> h_buffer c' = h_buffer c ->
  (c_closed c' = c_closed c /\ h_streams (w_handler (c_world c')) = h_streams (w_handler (c_world c)) \/
   c_closed c' = true /\ h_streams (w_handler (c_world c')) = ∅) ->
  (forall j, auth_reads j acts' = auth_reads j acts) -> order_inv acts' l c'.
Proof.
  intros [O1 O2 O3 O4 O5 O6] E1 E2 E3 E4 E5 Hr. split; rewrite ?E1, ?E2, ?E3, ?E4; try done.
  - intros j bytes Hb. destruct (O3 j bytes Hb) as (bs & rest & H1 & H2 & H3 & H4 & H5). unfold stream_ok, auth_taken in *. rewrite Hr.
    exists bs, rest. split_and!; try done. intros g Hg. destruct (H5 g Hg) as [H6 H7]. split; [done|]. destruct (g_stage g); cbn in *; by rewrite ?Hr.
  - intros j. rewrite Hr. apply O4.
  - destruct E5 as [[_ ->]|[_ ->]]; [done|set_solver].
  - destruct E5 as [[-> ->]|[-> _]]; done.
Qed.

Lemma auth_reads_snoc j acts act : auth_reads j (acts ++ [act]) = auth_reads j acts ++ auth_reads j [act].
Proof. apply omap_app. Qed.

(** The parts of the authentication leave the map and the buffer alone. *)
Definition stable (w w' : world) : Prop :=
  h_streams (w_handler w') = h_streams (w_handler w) /\ h_bufferSize (w_handler w') = h_bufferSize (w_handler w).

Lemma auth_begin_stable w data : stable w (auth_begin w data).1.
Proof. unfold auth_begin. destruct data as [d|]; [|done]. by destruct (ToInternal _ _ d). Qed.

Lemma auth_session_stable w now : stable w (auth_session w now).
Proof. unfold auth_session. by destruct (GetOrCreate _ _ _ _) as [[??]?]. Qed.

Lemma close_stable w :
  h_streams (w_handler (handler_Close w)) = ∅ /\ h_bufferSize (w_handler (handler_Close w)) = h_bufferSize (w_handler w).
Proof. unfold handler_Close. destruct (decide _); [done|]. by destruct (RemoveSession _ _ _) as [[??]?]. Qed.

(** The [Read] for the authentication. *)
Lemma order_begin acts l id n c c' :
  order_inv acts l c -> conn_step (recording f) c (CBegin id n) = Some c' -> order_inv (acts ++ [CBegin id n]) l c'.
Proof.
  intros Hi Hst. cbn [conn_step] in Hst. destruct (c_go c !! id) as [[[] rest wr]|] eqn:Hg; try done.
  destruct (first_read c rest n) as [[data rest']|] eqn:Hf; [|done]. pose proof (auth_begin_stable (c_world c) data) as [Hs1 Hs2].
  destruct (auth_begin (c_world c) data) as [w o]. cbn [fst] in *.
  assert (exists g', go_update c c' id g' /\ (g' = Some (MkGo Began rest' wr) \/ g' = None) /\ c_accepted c' = c_accepted c /\ c_closed c' = c_closed c /\
    c_app c' = c_app c /\ h_buffer c' = h_buffer c /\
    h_streams (w_handler (c_world c')) = match g' with Some _ => h_streams (w_handler (c_world c)) | None => h_streams (w_handler (c_world c)) ∖ {[ id ]} end)
    as (g' & Hu & Hg' & Ea & Ec & Eap & Eb & Es).
  { destruct o; [| |done]; injection Hst as <-; [exists (Some (MkGo Began rest' wr))|exists None]; unfold h_buffer; cbn; rewrite Hs1; split_and!; auto; reflexivity. }
  rewrite <- (app_nil_r l). apply (order_move acts _ l c c' id _ g' [] Hi Hg Hu Ea Ec); rewrite ?app_nil_r; try done.
  - intros j Hj. rewrite auth_reads_snoc. cbn. destruct n; [rewrite decide_False by done|]; by rewrite app_nil_r.
  - intros bytes (bs & r & H1 & H2 & H3 & H4 & H5). destruct (H5 _ eq_refl) as (-> & H6 & ->). cbn in H2, H6. unfold auth_taken in H1, H2.
    rewrite H6 in H1, H2. cbn in H2. rewrite drop_0 in H2. subst bytes. unfold stream_ok, auth_taken. rewrite auth_reads_snoc, H6, ?app_nil_r. cbn.
    exists [], rest'. destruct n as [k|]; cbn.
    + rewrite decide_True by done. cbn. cbn [first_read] in Hf. destruct (k <=? length rest)%nat eqn:Hk; [|done]. apply Nat.leb_le in Hk.
      destruct (_ <=? _); [|done]. injection Hf as _ <-. split_and!; try done. destruct Hg' as [-> | ->]; [|done]. by intros g [= <-].
    + injection Hf as _ <-. rewrite drop_0. split_and!; try (done || lia). destruct Hg' as [-> | ->]; [|done]. by intros g [= <-].
Qed.

(** The end of a message: it was given to the handler, or it is none. *)
Lemma order_done acts acts' l c c' id b st rest wr wr' ms :
  order_inv acts l c -> c_go c !! id = Some (MkGo st rest wr) -> pending st = framed b ->
  (forall bs, stage_in acts id bs st -> fits size b /\ seen <$> ms = option_list (body_fields b)) ->
  go_update c c' id (Some (MkGo Serving rest wr')) -> c_accepted c' = c_accepted c -> c_closed c' = c_closed c ->
  c_app c' = c_app c ++ ms -> h_buffer c' = h_buffer c -> h_streams (w_handler (c_world c')) = h_streams (w_handler (c_world c)) ->
  (forall j, auth_reads j acts' = auth_reads j acts) -> order_inv acts' (l ++ ((fun m => (id, m)) <$> ms)) c'.
Proof.
  intros Hi Hg Hp Hst Hu Ea Ec Eap Eb Es Hr. eapply (order_move _ _ _ _ _ _ _ _ ms Hi Hg Hu); try done.
  intros bytes (bs & r & H1 & H2 & H3 & H4 & H5). destruct (H5 _ eq_refl) as (-> & H6). cbn in H2, H6. destruct (Hst _ H6) as [Hfit Hms].
  unfold stream_ok, auth_taken in *. rewrite Hr. exists (bs ++ [b]), rest. rewrite fmap_app, concat_app, omap_app, H2, Hp. cbn. rewrite app_nil_r, app_assoc.
  split_and!; try done; [by apply Forall_app_2; [|apply Forall_singleton]| |by intros x [= <-]].
  assert (of_stream id (l ++ ((fun m => (id, m)) <$> ms)) = of_stream id l ++ ms) as ->.
  { clear. induction ms as [|m ms IH] using rev_ind; [by rewrite !app_nil_r|]. rewrite fmap_app. simpl.
    rewrite app_assoc, of_stream_snoc, IH, decide_True by done. by rewrite app_assoc. }
  rewrite fmap_app, H4, Hms. by destruct (body_fields b).
Qed.

Lemma order_step acts l act c c' :
  order_inv acts l c -> conn_step (recording f) c act = Some c' -> exists l', order_inv (acts ++ [act]) l' c'.
Proof.
  intros Hi Hst. destruct act as [id bytes|b|id|id n|id|id newID|id now|id ok|id|id|id now|id ok|id|]; cbn [conn_step] in Hst.
  4: { exists l. by apply (order_begin acts l id n c c' Hi). }
  all: match goal with |- exists l', order_inv (?acts' ++ [?a]) l' _ =>
         assert (forall j, auth_reads j (acts' ++ [a]) = auth_reads j acts') as Hr by (intros j; rewrite auth_reads_snoc; apply app_nil_r) end.
  1: { destruct (c_accepting c); [|done]. destruct (c_accepted c !! id) eqn:E; [done|]. injection Hst as <-. exists l. by apply (order_accept acts). }
  1: { destruct (c_accepting c); [|done]. exists l. destruct b; injection Hst as <-; apply (order_same _ _ _ _ _ Hi); auto. }
  11: { injection Hst as <-. exists l. pose proof (close_stable (c_world c)) as [H1 H2]. apply (order_same _ _ _ _ _ Hi); unfold h_buffer; cbn; auto. }
  all: destruct (c_go c !! id) as [[[] rest wr]|] eqn:Hg; try done.
  - injection Hst as <-. exists l. eapply (order_stay _ _ _ _ _ _ _ _ Hi Hg); try done. intros x [= <-]. cbn. by destruct (h_authenticated _).
  - injection Hst as <-. exists l. eapply (order_stay _ _ _ _ _ _ _ _ Hi Hg); try done. intros x [= <-]. cbn. by destruct (auth_unnamed _).
  - injection Hst as <-. exists l. eapply (order_stay _ _ _ _ _ _ _ _ Hi Hg); try done. by intros x [= <-].
  - injection Hst as <-. exists l. pose proof (auth_session_stable (c_world c) now) as [H1 H2].
    eapply (order_stay _ _ _ _ _ _ _ _ Hi Hg); try done. by intros x [= <-].
  - destruct (auth_respond ok (c_world c) wr) as [wr' [u|e|]]; [| |done]; injection Hst as <-; exists l;
      eapply (order_stay _ _ _ _ _ _ _ _ Hi Hg); try done. by intros x [= <-].
  - injection Hst as <-. exists l. eapply (order_stay _ _ _ _ _ _ _ _ Hi Hg); try done. by intros x [= <-].
  - destruct (read_message _ _) as [| | |body rest'] eqn:Er; [done..|]. injection Hst as <-. apply read_message_framed in Er as [-> Hfit].
    rewrite (oi_size _ _ _ Hi) in Hfit. exists l. eapply (order_stay _ _ _ _ _ _ _ _ Hi Hg); try done. by intros x [= <-].
  - pose proof (to_internal_fields number_text at_ spare nil_payload body) as Hb.
    destruct (body_fields body) as [y|] eqn:Ey.
    + destruct Hb as (m & Em & Hs & _). change (ToInternal ConnectionTypeQUIC FormatTypeBinary body = Ret m) in Em. rewrite Em in Hst.
      injection Hst as <-. exists l. eapply (order_stay _ _ _ _ _ _ _ _ Hi Hg); try done. intros x [= <-]. cbn. split; [done|].
      intros bs Hfit. split; [done|]. by rewrite Ey, <- Hs.
    + destruct Hb as [e Em]. change (ToInternal ConnectionTypeQUIC FormatTypeBinary body = Fail e) in Em. rewrite Em in Hst. injection Hst as <-.
      exists (l ++ ((fun m => (id, m)) <$> [])). eapply (order_done _ _ _ _ _ _ body _ _ _ _ [] Hi Hg); cbn; rewrite ?app_nil_r; try done. by rewrite Ey.
  - destruct (respond _ _ _ _ _) as [[app wr'] [|]] eqn:Er; [|done]. injection Hst as <-. apply respond_records in Er. subst app.
    exists (l ++ ((fun m => (id, m)) <$> [msg])). eapply (order_done _ _ _ _ _ _ body _ _ _ _ [msg] Hi Hg); try done. by intros bs [Hfit ->].
  - injection Hst as <-. exists l. eapply (order_stay _ _ _ _ _ _ _ _ Hi Hg); done.
Qed.

(** C10: in every interleaving of the streams of a connection, the handler is given the
    messages of each stream in the order in which they are on it, each once, and none
    that is made of bytes of another stream.  The messages the handler was given can be assigned
    to the streams so that for every stream, what arrives on it is what the [Read] of its
    authentication took, then frames that fit the buffer, then a rest: the messages of the stream
    are exactly those that the frames of five bytes and more say, and while its goroutine lives
    the rest is what it has still to handle.  The map of streams holds the goroutines that
    live until [Close] empties it. *)
Theorem qc_stream_order heap sm conn id now acts c
    (Hrun : conn_run (recording f) (new_connection heap sm conn size [] id now) acts = Some c) :
  (exists l, l.*2 = c_app c /\ (forall j, c_accepted c !! j = None -> of_stream j l = []) /\
     forall j bytes, c_accepted c !! j = Some bytes -> exists bs rest,
       (auth_taken j acts <= length bytes)%nat /\ drop (auth_taken j acts) bytes = concat (framed <$> bs) ++ rest /\
       Forall (fits size) bs /\ seen <$> of_stream j l = omap body_fields bs /\
       forall g, c_go c !! j = Some g -> rest = pending (g_stage g) ++ g_rest g) /\
  h_streams (w_handler (c_world c)) ⊆ dom (c_go c) /\
  (c_closed c = false -> h_streams (w_handler (c_world c)) = dom (c_go c)).
Proof.
  assert (exists l, order_inv acts l c) as [l [O1 O2 O3 O4 O5 O6]].
  { refine (conn_run_inv (recording f) (fun acts c => exists l, order_inv acts l c) _ _ _ acts c Hrun).
    - exists []. by split.
    - intros acts' act c1 c2 [l Hl] Hst. by eapply order_step. }
  split_and!; [|done..]. exists l. split_and!; [done|by apply O4|]. intros j bytes Hb.
  destruct (O3 j bytes Hb) as (bs & rest & H1 & H2 & H3 & H4 & H5). exists bs, rest. split_and!; try done. intros g Hg. by apply H5.
Qed.
End order.

(** ** Runs of two streams *)

Definition hello : list byte := wire_of greeting.

Definition fresh_connection : connection (list Message) := new_connection ∅ (NewSessionManager 30) 1 64 [] "s0" 5.

(** A handler that answers nothing. *)
Definition silent (log : list Message) (m : Message) : outcome unit (option Message) := Ret None.

Definition at9 : ProtocolConverter ConvError := DefaultProtocolConverter same_number 9 [] false.

Definition conn_after (acts : list conn_action) : connection (list Message) :=
  default fresh_connection (@conn_run _ at9 _ (recording silent) fresh_connection acts).

Definition serve_one (id : nat) : list conn_action := [CRead id; CStamp id 7; CHandle id (fun _ => true)].

(** Both streams find the client not authenticated; the first is served. *)
Definition both_check : list conn_action :=
  [CAccept 0 (hello ++ framed hello ++ framed hello ++ framed hello); CAccept 4 (hello ++ framed hello); CCheck 0; CCheck 4;
   CBegin 0 (Some (length hello)); CUnnamed 0; CName 0 "s1"; CSession 0 6; CRespond 0 (fun _ => true); CMark 0] ++ serve_one 0.

(** The second begins to authenticate, and is named. *)
Definition second_begins : list conn_action := both_check ++ [CBegin 4 (Some (length hello)); CUnnamed 4].
Definition second_named : list conn_action := second_begins ++ serve_one 0 ++ [CName 4 "s2"].

(** The streams of a connection share its session ID: when a second stream
    authenticates, the messages of the first, which was served with its own session, are handled with the
    empty session ID and then with the session of the second. *)
Theorem qc_session_switch :
  is_Some (@conn_run _ at9 _ (recording silent) fresh_connection (second_named ++ serve_one 0)) /\
  SessionID <$> c_app (conn_after (second_named ++ serve_one 0)) = ["s1"; ""; "s2"]%string /\
  seen <$> c_app (conn_after (second_named ++ serve_one 0)) = [seen greeting; seen greeting; seen greeting].
Proof. split_and!; [vm_compute; by eexists|vm_compute; reflexivity..]. Qed.

(** ** Witnesses *)

(** The step that hands the handler a message with the empty session ID. *)
Lemma qc_sessions_witness :
  exists m, c_app (conn_after (second_begins ++ serve_one 0)) = c_app (conn_after (second_begins ++ [CRead 0; CStamp 0 7])) ++ [m] /\
    authenticated (conn_after (second_begins ++ [CRead 0; CStamp 0 7])) = true /\
    session_ok (second_begins ++ [CRead 0; CStamp 0 7]) (SessionID m) /\ SessionID m = ""%string.
Proof.
  destruct (qc_sessions same_number 9 [] false silent ∅ (NewSessionManager 30) 1 64 "s0" 5 (second_begins ++ [CRead 0; CStamp 0 7])
    (conn_after (second_begins ++ [CRead 0; CStamp 0 7])) (CHandle 0 (fun _ => true)) (conn_after (second_begins ++ serve_one 0)))
    as [H|(m & H1 & H2 & H3)]; [discriminate|apply (bool_decide_unpack _); vm_compute; exact I|vm_compute; reflexivity..| |].
  - exfalso. vm_compute in H. discriminate H.
  - exists m. split_and!; [exact H1|exact H2|exact H3|]. vm_compute in H1. injection H1 as <-. reflexivity.
Defined.

(** Two messages of the first stream are handled, one is left. *)
Lemma qc_stream_order_witness :
  exists l bs rest, l.*2 = c_app (conn_after (second_begins ++ serve_one 0)) /\
    framed hello ++ framed hello ++ framed hello = concat (framed <$> bs) ++ rest /\
    seen <$> of_stream 0 l = omap body_fields bs /\ rest = framed hello.
Proof.
  destruct (qc_stream_order same_number 9 [] false silent 64 ∅ (NewSessionManager 30) 1 "s0" 5 (second_begins ++ serve_one 0)
    (conn_after (second_begins ++ serve_one 0))) as [(l & H1 & _ & H2) _]; [vm_compute; reflexivity|].
  destruct (H2 0%nat (hello ++ framed hello ++ framed hello ++ framed hello)) as (bs & rest & _ & H3 & _ & H4 & H5); [vm_compute; reflexivity|].
  exists l, bs, rest. split_and!; [exact H1|exact H3|exact H4|]. apply (H5 (MkGo Serving (framed hello) (g_written (default (MkGo Checking [] []) (c_go (conn_after (second_begins ++ serve_one 0)) !! 0%nat))))).
  vm_compute. reflexivity.
Defined.
