(* ===== verification/ConnManager.v ===== *)
(** * The gRPC connections of a client ([pkg/rpc/conn_manager.go])

    One manager, shared by any number of goroutines.  [GetConnection] takes and
    releases the manager's lock several times, and waits in between, with and
    without the lock; it is cut into the parts that run without interruption, and
    the parts of different calls are interleaved.  The connections of gRPC are
    numbers; what gRPC answers ([GetState], [DialContext]) and what happens in time
    are choices of the steps.  A run ends when the program does: with an unlock of a
    mutex that is not locked, with a channel closed twice, or with a call on a nil
    pointer. *)

From stdpp Require Import base gmap strings numbers list.
From Stdlib Require Import ZArith Lia.
From S2P Require Import Prelude.

Local Open Scope Z_scope.

(** The clients of the services are made from the connection and are there when
    it is.  [completed]: [creationComplete] is closed. *)
Record ClientConn := MkClientConn {
  Conn : option nat;
  LastUsed : Z;
  Creating : bool;
  completed : bool
}.

Definition set_LastUsed (c : ClientConn) (now : Z) : ClientConn := MkClientConn (Conn c) now (Creating c) (completed c).

Inductive ConnErr := ErrWaitTimeout | ErrConnect.

Inductive crash := UnlockOfUnlocked | CloseOfClosed | NilPointer.

(** Where a call of [GetConnection] is.  Its result is a pointer, [None] for nil,
    or an error. *)
Inductive pc :=
  | AtStart
  | WaitCreated (a : nat)
  | WantLock
  | Locked
  | WaitLocked (a : nat)
  | UnlockAgain (r : outcome ConnErr (option nat))
  | Dialing (a : nat)
  | WantLockDialed (a : nat) (conn : option nat)
  | LockedDialed (a : nat) (conn : option nat)
  | Returned (r : outcome ConnErr (option nat)).

(** [locked]: the write lock is held; a part under the read lock is one step.
    [closed]: the connections that were closed, the last one first. *)
Record ConnManager := MkConnManager {
  connections : gmap string nat;
  objects : gmap nat ClientConn;
  locked : bool;
  stopped : bool;
  closed : list nat;
  threads : gmap nat (string * pc);
  crashed : option crash
}.

Definition idleTimeout : Z := 10 * 60 * 1000000000.

Definition NewConnManager : ConnManager := MkConnManager ∅ ∅ false false [] ∅ None.

Definition set_connections (m : ConnManager) (cs : gmap string nat) : ConnManager :=
  MkConnManager cs (objects m) (locked m) (stopped m) (closed m) (threads m) (crashed m).
Definition set_objects (m : ConnManager) (os : gmap nat ClientConn) : ConnManager :=
  MkConnManager (connections m) os (locked m) (stopped m) (closed m) (threads m) (crashed m).
Definition set_locked (m : ConnManager) (b : bool) : ConnManager :=
  MkConnManager (connections m) (objects m) b (stopped m) (closed m) (threads m) (crashed m).
Definition set_stopped (m : ConnManager) : ConnManager :=
  MkConnManager (connections m) (objects m) (locked m) true (closed m) (threads m) (crashed m).
Definition set_crashed (m : ConnManager) (c : crash) : ConnManager :=
  MkConnManager (connections m) (objects m) (locked m) (stopped m) (closed m) (threads m) (Some c).
Definition close_conn (m : ConnManager) (k : nat) : ConnManager :=
  MkConnManager (connections m) (objects m) (locked m) (stopped m) (k :: closed m) (threads m) (crashed m).
Definition set_pc (m : ConnManager) (t : nat) (ep : string) (p : pc) : ConnManager :=
  MkConnManager (connections m) (objects m) (locked m) (stopped m) (closed m) (<[t := (ep, p)]> (threads m)) (crashed m).

(** [m.mu.Unlock()] *)
Definition Unlock (m : ConnManager) : ConnManager :=
  if locked m then set_locked m false else set_crashed m UnlockOfUnlocked.

(** ** [GetConnection] *)

(** The check under the read lock.  [usable]: the connection is neither shut down
    nor failed. *)
Definition read_check (m : ConnManager) (t : nat) (ep : string) (now : Z) (usable : bool) : ConnManager :=
  match connections m !! ep with
  | None => set_pc m t ep WantLock
  | Some a =>
      match objects m !! a with
      | None => set_crashed m NilPointer
      | Some c =>
          if Creating c then set_pc m t ep (WaitCreated a)
          else match Conn c with
               | None => set_crashed m NilPointer
               | Some _ =>
                   if usable then set_pc (set_objects m (<[a := set_LastUsed c now]> (objects m))) t ep (Returned (Ret (Some a)))
                   else set_pc m t ep WantLock
               end
      end
  end.

(** An entry that says it is being made, and the lock released to dial. *)
Definition start_dial (m : ConnManager) (t : nat) (ep : string) (now : Z) : ConnManager :=
  let a := fresh (dom (objects m)) in
  let m := set_objects m (<[a := MkClientConn None now true false]> (objects m)) in
  let m := set_connections m (<[ep := a]> (connections m)) in
  set_pc (Unlock m) t ep (Dialing a).

(** The second check, under the lock; a call that finds a connection being made
    waits with the lock. *)
Definition locked_check (m : ConnManager) (t : nat) (ep : string) (now : Z) (usable : bool) : ConnManager :=
  match connections m !! ep with
  | None => start_dial m t ep now
  | Some a =>
      match objects m !! a with
      | None => set_crashed m NilPointer
      | Some c =>
          if Creating c then set_pc m t ep (WaitLocked a)
          else match Conn c with
               | None => set_crashed m NilPointer
               | Some k =>
                   if usable then
                     set_pc (Unlock (set_objects m (<[a := set_LastUsed c now]> (objects m)))) t ep (Returned (Ret (Some a)))
                   else
                     let m := close_conn m k in
                     let m := set_connections m (delete ep (connections m)) in
                     start_dial m t ep now
               end
      end
  end.

(** [close(creationComplete)] *)
Definition complete (m : ConnManager) (a : nat) (c : ClientConn) : ConnManager :=
  if completed c then set_crashed m CloseOfClosed
  else set_objects m (<[a := MkClientConn (Conn c) (LastUsed c) (Creating c) true]> (objects m)).

(** After the dial, with the lock. *)
Definition dial_finish (m : ConnManager) (t : nat) (ep : string) (a : nat) (conn : option nat) : ConnManager :=
  match objects m !! a with
  | None => set_crashed m NilPointer
  | Some c =>
      match conn with
      | None => set_pc (Unlock (complete (set_connections m (delete ep (connections m))) a c)) t ep (Returned (Fail ErrConnect))
      | Some k =>
          set_pc (Unlock (complete m a (MkClientConn (Some k) (LastUsed c) false (completed c)))) t ep (Returned (Ret (Some a)))
      end
  end.

(** ** The other operations *)

Definition Close (m : ConnManager) (ep : string) : ConnManager :=
  match connections m !! ep with
  | None => m
  | Some a =>
      match objects m !! a with
      | Some {| Conn := Some k |} => set_connections (close_conn m k) (delete ep (connections m))
      | _ => set_crashed m NilPointer
      end
  end.

(** The loop of [CloseAll], over the entries in the order of the map. *)
Fixpoint close_entries (m : ConnManager) (order : list (string * nat)) : ConnManager :=
  match order with
  | [] => m
  | (ep, a) :: rest =>
      match objects m !! a with
      | Some {| Conn := Some k |} => close_entries (set_connections (close_conn m k) (delete ep (connections m))) rest
      | _ => set_crashed m NilPointer
      end
  end.

Definition CloseAll (m : ConnManager) (order : list (string * nat)) : ConnManager :=
  if stopped m then set_crashed m CloseOfClosed else close_entries (set_stopped m) order.

Fixpoint cleanupIdleConnections (m : ConnManager) (now : Z) (order : list (string * nat)) : ConnManager :=
  match order with
  | [] => m
  | (ep, a) :: rest =>
      match objects m !! a with
      | None => set_crashed m NilPointer
      | Some c =>
          if idleTimeout <? now - LastUsed c then
            match Conn c with
            | Some k => cleanupIdleConnections (set_connections (close_conn m k) (delete ep (connections m))) now rest
            | None => set_crashed m NilPointer
            end
          else cleanupIdleConnections m now rest
      end
  end.

(** ** Runs *)

Inductive action :=
  | ActCall (t : nat) (ep : string)
  | ActCheck (t : nat) (now : Z) (usable : bool)
  | ActSignal (t : nat)
  | ActTimeout (t : nat)
  | ActLock (t : nat)
  | ActLocked (t : nat) (now : Z) (usable : bool)
  | ActDial (t : nat) (conn : option nat)
  | ActDialed (t : nat)
  | ActUnlockAgain (t : nat)
  | ActClose (ep : string)
  | ActCloseAll (order : list (string * nat))
  | ActCleanup (now : Z) (order : list (string * nat)).

#[export]
Instance map_order_dec {A} `{EqDecision A} (m : gmap string A) l : Decision (map_order m l).
Proof. unfold map_order. apply _. Defined.

Definition is_completed (m : ConnManager) (a : nat) : bool :=
  match objects m !! a with Some c => completed c | None => false end.

(** What a call does next; [None] when it cannot: it waits for the lock or for
    the signal. *)
Definition thread_step (m : ConnManager) (act : action) (t : nat) (ep : string) (p : pc) : option ConnManager :=
  match act, p with
  | ActCheck _ now usable, AtStart => if locked m then None else Some (read_check m t ep now usable)
  | ActSignal _, WaitCreated a =>
      if is_completed m a && negb (locked m) then Some (set_pc m t ep (Returned (Ret (connections m !! ep)))) else None
  | ActTimeout _, WaitCreated _ => Some (set_pc m t ep (Returned (Fail ErrWaitTimeout)))
  | ActLock _, WantLock => if locked m then None else Some (set_pc (set_locked m true) t ep Locked)
  | ActLocked _ now usable, Locked => Some (locked_check m t ep now usable)
  | ActSignal _, WaitLocked a =>
      if is_completed m a then Some (set_pc (Unlock m) t ep (UnlockAgain (Ret (connections m !! ep)))) else None
  | ActTimeout _, WaitLocked _ => Some (set_pc (Unlock m) t ep (UnlockAgain (Fail ErrWaitTimeout)))
  | ActUnlockAgain _, UnlockAgain r => Some (set_pc (Unlock m) t ep (Returned r))
  | ActDial _ conn, Dialing a => Some (set_pc m t ep (WantLockDialed a conn))
  | ActLock _, WantLockDialed a conn => if locked m then None else Some (set_pc (set_locked m true) t ep (LockedDialed a conn))
  | ActDialed _, LockedDialed a conn => Some (dial_finish m t ep a conn)
  | _, _ => None
  end.

Definition step (m : ConnManager) (act : action) : option ConnManager :=
  match crashed m with
  | Some _ => None
  | None =>
      match act with
      | ActCall t ep => match threads m !! t with None => Some (set_pc m t ep AtStart) | Some _ => None end
      | ActClose ep => if locked m then None else Some (Close m ep)
      | ActCloseAll order =>
          if locked m || negb (bool_decide (map_order (connections m) order)) then None else Some (CloseAll m order)
      | ActCleanup now order =>
          if locked m || negb (bool_decide (map_order (connections m) order)) then None
          else Some (cleanupIdleConnections m now order)
      | ActCheck t _ _ | ActSignal t | ActTimeout t | ActLock t | ActLocked t _ _ | ActDial t _ | ActDialed t | ActUnlockAgain t =>
          match threads m !! t with Some (ep, p) => thread_step m act t ep p | None => None end
      end
  end.

Fixpoint run (m : ConnManager) (acts : list action) : option ConnManager :=
  match acts with
  | [] => Some m
  | act :: rest => match step m act with Some m => run m rest | None => None end
  end.

(** The clients of the services: a field of what [GetConnection] returned. *)
Definition GetPlayerServiceClient (m : ConnManager) (r : outcome ConnErr (option nat)) : outcome ConnErr (option nat) :=
  match r with
  | Ret (Some a) => match objects m !! a with Some c => Ret (Conn c) | None => Panic end
  | Ret None => Panic
  | Fail e => Fail e
  | Panic => Panic
  end.

(** ** The invariant *)

Definition holds (p : pc) : bool :=
  match p with Locked | WaitLocked _ | LockedDialed _ _ => true | _ => false end.

(** The entry a call is making. *)
Definition dials (p : pc) : option nat :=
  match p with Dialing a | WantLockDialed a _ | LockedDialed a _ => Some a | _ => None end.

(** The entry a call needs to be in the table and not complete. *)
Definition needs (p : pc) : option nat :=
  match p with WaitLocked a => Some a | _ => dials p end.

Record lock_inv (m : ConnManager) : Prop := {
  lock_held : locked m = true -> exists t ep p, threads m !! t = Some (ep, p) /\ holds p = true;
  lock_free t ep p : threads m !! t = Some (ep, p) -> holds p = true -> locked m = true;
  lock_one t1 t2 ep1 ep2 p1 p2 :
    threads m !! t1 = Some (ep1, p1) -> threads m !! t2 = Some (ep2, p2) -> holds p1 = true -> holds p2 = true -> t1 = t2
}.

(** An entry in the table is made, or it is being made by one call. *)
Record entry_inv (m : ConnManager) : Prop := {
  entry_ok ep a : connections m !! ep = Some a -> exists c, objects m !! a = Some c /\
    if Creating c
    then Conn c = None /\ completed c = false /\ exists t p, threads m !! t = Some (ep, p) /\ dials p = Some a
    else is_Some (Conn c) /\ completed c = true;
  entry_inj ep1 ep2 a : connections m !! ep1 = Some a -> connections m !! ep2 = Some a -> ep1 = ep2;
  entry_needed t ep p a : threads m !! t = Some (ep, p) -> needs p = Some a ->
    connections m !! ep = Some a /\ exists c, objects m !! a = Some c /\ Creating c = true;
  entry_dialer t1 t2 ep1 ep2 p1 p2 a :
    threads m !! t1 = Some (ep1, p1) -> threads m !! t2 = Some (ep2, p2) -> dials p1 = Some a -> dials p2 = Some a -> t1 = t2
}.

Definition cm_inv (m : ConnManager) : Prop := lock_inv m /\ entry_inv m.

Lemma dials_needs p a : dials p = Some a -> needs p = Some a.
Proof. by destruct p. Qed.

(** A call moves on and keeps, takes or gives back the lock. *)
Inductive lock_move : bool -> bool -> bool -> bool -> Prop :=
  | LockKept b l : lock_move b b l l
  | LockTaken : lock_move false true false true
  | LockReleased : lock_move true false true false.

Lemma lock_inv_move m m' t ep p p' :
  lock_inv m -> threads m' = <[t := (ep, p')]> (threads m) ->
  (threads m !! t = Some (ep, p) \/ (threads m !! t = None /\ holds p = false)) ->
  lock_move (holds p) (holds p') (locked m) (locked m') -> lock_inv m'.
Proof.
  intros [Hh Hf Ho] Ht Hp Hl.
  assert (forall u e q, threads m' !! u = Some (e, q) -> (u = t /\ q = p') \/ (u <> t /\ threads m !! u = Some (e, q))) as Hu.
  { intros u e q Hu. rewrite Ht, lookup_insert_Some in Hu. naive_solver. }
  assert (holds p = true -> threads m !! t = Some (ep, p)) as Hp' by (destruct Hp as [|[_ ->]]; naive_solver).
  assert (holds p' = true -> locked m' = true -> exists t0 ep0 p0, threads m' !! t0 = Some (ep0, p0) /\ holds p0 = true) as Hw.
  { intros H1 _. exists t, ep, p'. by rewrite Ht, lookup_insert_eq. }
  remember (holds p) as b eqn:Eb. remember (holds p') as b' eqn:Eb'. remember (locked m) as l. remember (locked m') as l'.
  destruct Hl as [b l| |]; subst; split; subst.
  - intros Hl. destruct (Hh ltac:(congruence)) as (u & e & q & Hq & Hhq). destruct (decide (u = t)) as [-> |Hut].
    + exists t, ep, p'. rewrite Ht, lookup_insert_eq. split; [done|]. rewrite <- Eb'.
      destruct Hp as [Hp|[Hp _]]; rewrite Hq in Hp; naive_solver.
    + exists u, e, q. by rewrite Ht, lookup_insert_ne.
  - intros u e q [[-> ->]|[_ Hq]]%Hu Hhq; rewrite <- Heql'; [|by eapply Hf]. eapply Hf; [by apply Hp'; congruence|congruence].
  - intros u1 u2 e1 e2 q1 q2 [[-> ->]|[H1 Hq1]]%Hu [[-> ->]|[H2 Hq2]]%Hu Hh1 Hh2; try done.
    + eapply (Ho t u2); [apply Hp'; congruence|done|congruence|done].
    + eapply (Ho u1 t); [done|apply Hp'; congruence|done|congruence].
    + by eapply Ho.
  - intros _. apply Hw; congruence.
  - congruence.
  - intros u1 u2 e1 e2 q1 q2 [[-> ->]|[H1 Hq1]]%Hu [[-> ->]|[H2 Hq2]]%Hu Hh1 Hh2; try done;
      [pose proof (Hf _ _ _ Hq2 Hh2)|pose proof (Hf _ _ _ Hq1 Hh1)|pose proof (Hf _ _ _ Hq1 Hh1)]; congruence.
  - congruence.
  - intros u e q [[-> ->]|[H1 Hq]]%Hu Hhq; [congruence|]. destruct H1. eapply Ho; [done|apply Hp'; congruence|done|congruence].
  - intros u1 u2 e1 e2 q1 q2 [[-> ->]|[H1 Hq1]]%Hu [[-> ->]|[H2 Hq2]]%Hu Hh1 Hh2; try congruence. by eapply Ho.
Qed.

(** The objects but for the times of use. *)
Definition same_objects (o o' : gmap nat ClientConn) : Prop :=
  forall a c, o !! a = Some c -> exists c', o' !! a = Some c' /\
    Conn c' = Conn c /\ Creating c' = Creating c /\ completed c' = completed c.

Lemma same_objects_refl o : same_objects o o.
Proof. intros a c Hc. by exists c. Qed.

Lemma same_objects_touch o a c now : o !! a = Some c -> same_objects o (<[a := set_LastUsed c now]> o).
Proof.
  intros Hc b d Hd. destruct (decide (a = b)) as [-> |Hab].
  - exists (set_LastUsed c now). rewrite lookup_insert_eq. by simplify_eq.
  - exists d. by rewrite lookup_insert_ne.
Qed.

#[local] Hint Resolve same_objects_refl same_objects_touch : core.

(** A call moves on and leaves the entries alone. *)
Lemma entry_inv_move m m' t ep p p' :
  entry_inv m -> connections m' = connections m -> same_objects (objects m) (objects m') ->
  threads m' = <[t := (ep, p')]> (threads m) ->
  (threads m !! t = Some (ep, p) \/ (threads m !! t = None /\ needs p = None)) ->
  dials p' = dials p ->
  (forall a, needs p' = Some a -> needs p = Some a \/
     (connections m !! ep = Some a /\ exists c, objects m !! a = Some c /\ Creating c = true)) ->
  entry_inv m'.
Proof.
  intros [Ho Hi Hn Hd] Hc Hs Ht Hp Hdp Hnp.
  assert (forall u e q, threads m' !! u = Some (e, q) -> (u = t /\ e = ep /\ q = p') \/ (u <> t /\ threads m !! u = Some (e, q))) as Hu.
  { intros u e q Hu. rewrite Ht, lookup_insert_Some in Hu. naive_solver. }
  split; rewrite ?Hc.
  - intros e a (c & Hac & Hcc)%Ho. destruct (Hs _ _ Hac) as (c' & Hc' & E1 & E2 & E3).
    exists c'. split; [done|]. rewrite E1, E2, E3. destruct (Creating c); [|done].
    destruct Hcc as (? & ? & u & q & Huq & Hdq). split_and!; [done..|]. destruct (decide (u = t)) as [-> |Hut].
    + exists t, p'. rewrite Ht, lookup_insert_eq. destruct Hp as [Hp|[Hp _]]; rewrite Huq in Hp; [|done].
      simplify_eq. split; [done|congruence].
    + exists u, q. by rewrite Ht, lookup_insert_ne.
  - done.
  - assert (forall e a, connections m !! e = Some a /\ (exists c, objects m !! a = Some c /\ Creating c = true) ->
      connections m !! e = Some a /\ (exists c, objects m' !! a = Some c /\ Creating c = true)) as Hup.
    { intros e a (? & c & Hac & Hcr). split; [done|]. destruct (Hs _ _ Hac) as (c' & ? & _ & E & _). exists c'. by rewrite E. }
    intros u e q a [(-> & -> & ->)|[_ Huq]]%Hu Hq; [|by apply Hup; eapply Hn]. apply Hup.
    destruct (Hnp _ Hq) as [Hq'|]; [|done]. destruct Hp as [Hp|[_ Hp]]; [by eapply Hn|congruence].
  - assert (forall a, dials p = Some a -> threads m !! t = Some (ep, p)) as Hpt.
    { intros a Ha%dials_needs. destruct Hp as [|[_ Hp]]; [done|congruence]. }
    intros u1 u2 e1 e2 q1 q2 a [(-> & -> & ->)|[H1 Hq1]]%Hu [(-> & -> & ->)|[H2 Hq2]]%Hu Ha1 Ha2; try done.
    + rewrite Hdp in Ha1. eapply (Hd t u2); [by eapply Hpt|done..].
    + rewrite Hdp in Ha2. eapply (Hd u1 t); [done|by eapply Hpt|done..].
    + by eapply Hd.
Qed.

(** A finished entry leaves the table. *)
Lemma entry_inv_delete m m' ep a c k :
  entry_inv m -> connections m !! ep = Some a -> objects m !! a = Some c -> Conn c = Some k ->
  connections m' = delete ep (connections m) -> objects m' = objects m -> threads m' = threads m -> entry_inv m'.
Proof.
  intros [Ho Hi Hn Hd] Hep Hc Hk E1 E2 E3. split; rewrite ?E1, ?E2, ?E3.
  - intros e b [_ He]%lookup_delete_Some. by apply Ho.
  - intros e1 e2 b [_ H1]%lookup_delete_Some [_ H2]%lookup_delete_Some. by eapply Hi.
  - intros t e p b Hp Hb. destruct (Hn _ _ _ _ Hp Hb) as (He & d & Hd' & Hcr). split; [|by exists d].
    apply lookup_delete_Some. split; [|done]. intros <-. destruct (Ho _ _ He) as (d' & E & Hx). simplify_eq.
    rewrite Hcr in Hx. destruct Hx. congruence.
  - done.
Qed.

(** A new entry for an endpoint that has none. *)
Lemma entry_inv_start m m' t ep a now :
  entry_inv m -> connections m !! ep = None -> objects m !! a = None -> (forall e, connections m !! e <> Some a) ->
  threads m !! t = Some (ep, Locked) ->
  connections m' = <[ep := a]> (connections m) -> objects m' = <[a := MkClientConn None now true false]> (objects m) ->
  threads m' = <[t := (ep, Dialing a)]> (threads m) -> entry_inv m'.
Proof.
  intros [Ho Hi Hn Hd] Hep Ha Hfa Ht E1 E2 E3.
  assert (forall u e q b, threads m' !! u = Some (e, q) -> needs q = Some b ->
    (u = t /\ e = ep /\ b = a) \/ (threads m !! u = Some (e, q) /\ b <> a /\ e <> ep)) as Hu.
  { intros u e q b Hu Hb. rewrite E3, lookup_insert_Some in Hu. destruct Hu as [[<- [= <- <-]]|[? Hu]]; simpl in Hb; [by left; simplify_eq|].
    right. destruct (Hn _ _ _ _ Hu Hb) as (He & c & Hc & _). split_and!; [done|congruence..]. }
  split; rewrite ?E1, ?E2.
  - intros e b [[<- <-]|[Hne He]]%lookup_insert_Some.
    + eexists. rewrite lookup_insert_eq. split; [done|]. simpl. split_and!; [done..|]. exists t, (Dialing a). by rewrite E3, lookup_insert_eq.
    + destruct (Ho _ _ He) as (c & Hc & Hx). exists c. rewrite lookup_insert_ne by congruence. split; [done|].
      destruct (Creating c); [|done]. destruct Hx as (? & ? & u & q & Huq & Hdq). split_and!; [done..|]. exists u, q.
      rewrite E3, lookup_insert_ne; [done|]. intros <-. rewrite Ht in Huq. by simplify_eq.
  - intros e1 e2 b [[<- <-]|[H1 H1']]%lookup_insert_Some [[<- H2]|[H2 H2']]%lookup_insert_Some; try done.
    + by destruct (Hfa e2).
    + subst b. by destruct (Hfa e1).
    + by eapply Hi.
  - intros u e q b Huq Hb. destruct (Hu _ _ _ _ Huq Hb) as [(-> & -> & ->)|(Huq' & Hba & Hne)].
    + split; [apply lookup_insert_eq|]. eexists. by rewrite lookup_insert_eq.
    + destruct (Hn _ _ _ _ Huq' Hb) as (He & c & Hc & Hcr). rewrite !lookup_insert_ne by done. eauto.
  - intros u1 u2 e1 e2 q1 q2 b Hq1 Hq2 Hb1 Hb2.
    destruct (Hu _ _ _ _ Hq1 (dials_needs _ _ Hb1)) as [(-> & -> & ->)|(Hq1' & Hba1 & _)],
      (Hu _ _ _ _ Hq2 (dials_needs _ _ Hb2)) as [(-> & -> & E)|(Hq2' & Hba2 & _)]; try congruence. by eapply Hd.
Qed.

(** The call that makes an entry is done with it: the entry is finished or gone. *)
Lemma entry_inv_finish m m' t ep a conn r c' :
  lock_inv m -> entry_inv m -> threads m !! t = Some (ep, LockedDialed a conn) ->
  objects m' = <[a := c']> (objects m) -> threads m' = <[t := (ep, Returned r)]> (threads m) ->
  (connections m' = delete ep (connections m) \/
   (connections m' = connections m /\ Creating c' = false /\ is_Some (Conn c') /\ completed c' = true)) ->
  entry_inv m'.
Proof.
  intros Hl [Ho Hi Hn Hd] Ht E2 E3 E1.
  destruct (Hn _ _ _ _ Ht eq_refl) as (Hep & c & Hc & Hcr).
  assert (forall u e q b, threads m' !! u = Some (e, q) -> needs q = Some b ->
    threads m !! u = Some (e, q) /\ b <> a /\ e <> ep) as Hu.
  { intros u e q b Hu Hb. rewrite E3, lookup_insert_Some in Hu. destruct Hu as [[<- [= <- <-]]|[Hut Hu]]; [done|].
    destruct (Hn _ _ _ _ Hu Hb) as (He & _). assert (b <> a) as Hba.
    { intros ->. destruct (dials q) as [d|] eqn:Ed.
      - apply Hut. symmetry. apply (Hd u t e ep q (LockedDialed a conn) a); [done..| |done].
        pose proof (dials_needs _ _ Ed). congruence.
      - destruct q; try done. apply Hut. symmetry. by eapply (lock_one m Hl u t). }
    split_and!; [done..|]. congruence. }
  assert (forall e b, connections m' !! e = Some b -> connections m !! e = Some b) as Hsub.
  { intros e b. destruct E1 as [-> |[-> _]]; [|done]. by intros [_ ?]%lookup_delete_Some. }
  assert (forall e b, connections m !! e = Some b -> e <> ep -> connections m' !! e = Some b) as Hsup.
  { intros e b He Hne. destruct E1 as [-> |[-> _]]; [|done]. by rewrite lookup_delete_ne. }
  split; rewrite ?E2.
  - intros e b He. pose proof (Hsub _ _ He) as He'. destruct (decide (b = a)) as [-> |Hba].
    + assert (e = ep) as -> by by eapply Hi. destruct E1 as [E1|(_ & Hx & Hy & Hz)]; [by rewrite E1, lookup_delete_eq in He|].
      exists c'. rewrite lookup_insert_eq, Hx. done.
    + destruct (Ho _ _ He') as (d & Hb & Hx). exists d. rewrite lookup_insert_ne by done. split; [done|].
      destruct (Creating d); [|done]. destruct Hx as (? & ? & u & q & Huq & Hdq). split_and!; [done..|]. exists u, q.
      rewrite E3, lookup_insert_ne; [done|]. intros <-. rewrite Ht in Huq. injection Huq as <- <-. simpl in Hdq. congruence.
  - intros e1 e2 b H1%Hsub H2%Hsub. by eapply Hi.
  - intros u e q b Huq Hb. destruct (Hu _ _ _ _ Huq Hb) as (Huq' & Hba & Hne).
    destruct (Hn _ _ _ _ Huq' Hb) as (He & d & Hd' & ?). split; [by apply Hsup|]. exists d. by rewrite lookup_insert_ne.
  - intros u1 u2 e1 e2 q1 q2 b H1 H2 Hb1 Hb2.
    destruct (Hu _ _ _ _ H1 (dials_needs _ _ Hb1)) as (H1' & _), (Hu _ _ _ _ H2 (dials_needs _ _ Hb2)) as (H2' & _).
    by eapply Hd.
Qed.

(** *** Every step *)

Lemma cm_inv_move m m' t ep p p' :
  cm_inv m -> connections m' = connections m -> same_objects (objects m) (objects m') ->
  threads m' = <[t := (ep, p')]> (threads m) -> threads m !! t = Some (ep, p) ->
  lock_move (holds p) (holds p') (locked m) (locked m') -> dials p' = dials p ->
  (forall a, needs p' = Some a -> needs p = Some a \/
     (connections m !! ep = Some a /\ exists c, objects m !! a = Some c /\ Creating c = true)) ->
  cm_inv m'.
Proof.
  intros [Hl He] Hc Ho Ht Hp Hm Hd Hn. split.
  - eapply lock_inv_move; eauto.
  - eapply entry_inv_move; eauto.
Qed.

Lemma holder_locked m t ep p : cm_inv m -> threads m !! t = Some (ep, p) -> holds p = true -> locked m = true.
Proof. intros [Hl _]. by apply lock_free. Qed.

Lemma read_check_inv m t ep now usable :
  cm_inv m -> threads m !! t = Some (ep, AtStart) -> crashed (read_check m t ep now usable) = None ->
  cm_inv (read_check m t ep now usable).
Proof.
  intros Hi Ht. unfold read_check. destruct (connections m !! ep) as [a|] eqn:Ea; [destruct (objects m !! a) as [c|] eqn:Ec; [|done];
    destruct (Creating c); [|destruct (Conn c); [destruct usable|done]]|];
    intros _; eapply cm_inv_move; simpl; eauto; try constructor; try done; by apply same_objects_refl.
Qed.

Lemma start_dial_inv m t ep now :
  cm_inv m -> threads m !! t = Some (ep, Locked) -> connections m !! ep = None -> cm_inv (start_dial m t ep now).
Proof.
  intros Hi Ht Hep. pose proof (holder_locked _ _ _ _ Hi Ht eq_refl) as Hlk. destruct Hi as [Hl He].
  unfold start_dial, Unlock. simpl. rewrite Hlk. split.
  - eapply (lock_inv_move m _ t ep Locked); simpl; eauto. rewrite Hlk. constructor.
  - eapply (entry_inv_start m); simpl; eauto; [apply not_elem_of_dom, is_fresh|].
    intros e Hf. destruct (entry_ok m He _ _ Hf) as (c & Hc & _). apply elem_of_dom_2 in Hc. by apply is_fresh in Hc.
Qed.

Lemma cm_inv_delete m m' ep a c k :
  cm_inv m -> connections m !! ep = Some a -> objects m !! a = Some c -> Conn c = Some k ->
  connections m' = delete ep (connections m) -> objects m' = objects m -> threads m' = threads m -> locked m' = locked m -> cm_inv m'.
Proof.
  intros [[Hh Hf Ho] He] Hep Hc Hk E1 E2 E3 E4. split; [|by eapply entry_inv_delete].
  split; rewrite ?E3, ?E4; eauto.
Qed.

Lemma locked_check_inv m t ep now usable :
  cm_inv m -> threads m !! t = Some (ep, Locked) -> crashed (locked_check m t ep now usable) = None ->
  cm_inv (locked_check m t ep now usable).
Proof.
  intros Hi Ht. unfold locked_check. destruct (connections m !! ep) as [a|] eqn:Ea; [|by intros _; apply start_dial_inv].
  destruct (objects m !! a) as [c|] eqn:Ec; [|done]. destruct (Creating c) eqn:Ecr.
  - intros _. eapply (cm_inv_move m _ t ep Locked (WaitLocked a)); simpl; eauto; [apply LockKept|]. intros b [= <-]. right. eauto.
  - destruct (Conn c) as [k|] eqn:Ek; [|done]. intros _. destruct usable.
    + pose proof (holder_locked _ _ _ _ Hi Ht eq_refl) as Hlk. unfold Unlock. simpl. rewrite Hlk.
      eapply cm_inv_move; simpl; eauto; try done. rewrite Hlk. constructor.
    + apply start_dial_inv; [|done|simpl; apply lookup_delete_eq]. by eapply (cm_inv_delete m).
Qed.

Lemma dial_finish_inv m t ep a conn :
  cm_inv m -> threads m !! t = Some (ep, LockedDialed a conn) -> crashed (dial_finish m t ep a conn) = None ->
  cm_inv (dial_finish m t ep a conn).
Proof.
  intros Hi Ht. pose proof (holder_locked _ _ _ _ Hi Ht eq_refl) as Hlk. destruct Hi as [Hl He].
  unfold dial_finish. destruct (objects m !! a) as [c|] eqn:Ec; [|done].
  destruct conn as [k|]; unfold complete; simpl; destruct (completed c) eqn:Ecomp; unfold Unlock; simpl; rewrite Hlk; simpl; try done; intros _.
  all: split; [eapply (lock_inv_move m); simpl; eauto; rewrite Hlk; constructor|].
  all: eapply (entry_inv_finish m); simpl; eauto.
Qed.

Lemma thread_step_inv m act t ep p m' :
  cm_inv m -> threads m !! t = Some (ep, p) -> (forall u, act <> ActUnlockAgain u) ->
  thread_step m act t ep p = Some m' -> crashed m' = None -> cm_inv m'.
Proof.
  intros Hi Ht Hact. pose proof (holder_locked _ _ _ _ Hi Ht) as Hlk.
  destruct act; try done; destruct p; simpl in *; try done;
    try (by specialize (Hact t0)); try rewrite (Hlk eq_refl); unfold Unlock; try rewrite (Hlk eq_refl);
    repeat match goal with |- context [if ?b then _ else _] => destruct b eqn:? end; try done; intros [= <-] Hc;
    try (by apply read_check_inv); try (by apply locked_check_inv); try (by apply dial_finish_inv);
    (eapply (cm_inv_move m); simpl; eauto;
      try first [apply LockKept | rewrite ?Hlk by done; apply LockReleased | match goal with E : locked m = _ |- _ => rewrite E; apply LockTaken end]; done).
Qed.

(** The entries that are still to be visited when the first has gone. *)
Lemma rest_entries (cs : gmap string nat) ep a order :
  NoDup ((ep, a) :: order).*1 -> (forall e b, (e, b) ∈ (ep, a) :: order -> cs !! e = Some b) ->
  cs !! ep = Some a /\ NoDup order.*1 /\ (forall e b, (e, b) ∈ order -> cs !! e = Some b /\ delete ep cs !! e = Some b).
Proof.
  intros [Hep Hnd]%NoDup_cons Hin. split_and!; [apply Hin; left|done|]. intros e b He.
  assert (cs !! e = Some b) as Hb by (apply Hin; by right). split; [done|]. rewrite lookup_delete_ne; [done|].
  intros ->. apply Hep. apply list_elem_of_fmap. by exists (e, b).
Qed.

Lemma close_entries_inv m order :
  cm_inv m -> NoDup order.*1 -> (forall ep a, (ep, a) ∈ order -> connections m !! ep = Some a) ->
  crashed (close_entries m order) = None -> cm_inv (close_entries m order).
Proof.
  revert m. induction order as [|[ep a] order IH]; intros m Hi Hnd Hin; [done|].
  destruct (rest_entries _ _ _ _ Hnd Hin) as (Ha & Hnd' & Hin'). cbn [close_entries].
  destruct (objects m !! a) as [[[k|] lu cr co]|] eqn:Ea; try done.
  apply IH; [by eapply (cm_inv_delete m)|done|]. by intros e b [_ ?]%Hin'.
Qed.

Lemma cleanup_inv m now order :
  cm_inv m -> NoDup order.*1 -> (forall ep a, (ep, a) ∈ order -> connections m !! ep = Some a) ->
  crashed (cleanupIdleConnections m now order) = None -> cm_inv (cleanupIdleConnections m now order).
Proof.
  revert m. induction order as [|[ep a] order IH]; intros m Hi Hnd Hin; [done|].
  destruct (rest_entries _ _ _ _ Hnd Hin) as (Ha & Hnd' & Hin'). cbn [cleanupIdleConnections].
  destruct (objects m !! a) as [c|] eqn:Ea; [|done].
  destruct (_ <? _); [|apply IH; [done..|]; by intros e b [? _]%Hin']. destruct (Conn c) as [k|] eqn:Ek; [|done].
  apply IH; [by eapply (cm_inv_delete m)|done|]. by intros e b [_ ?]%Hin'.
Qed.

Lemma order_entries {A} (cs : gmap string A) order :
  map_order cs order -> NoDup order.*1 /\ forall ep a, (ep, a) ∈ order -> cs !! ep = Some a.
Proof. intros Ho. split; [by eapply map_order_nodup|]. intros ep a. by apply map_order_elem. Qed.

(** The unlock that follows another is the only step that breaks the invariant. *)
Definition balanced (act : action) : Prop := forall t, act <> ActUnlockAgain t.

Lemma step_inv m act m' : cm_inv m -> balanced act -> step m act = Some m' -> crashed m' = None -> cm_inv m'.
Proof.
  intros Hi Hb. unfold step. destruct (crashed m) eqn:Hc; [done|].
  destruct act as [t ep| | | | | | | | |ep|order|now order];
    try (by destruct (threads m !! _) as [[e p]|] eqn:Ht; [|done]; intros Hs Hc'; eapply thread_step_inv).
  - destruct (threads m !! t) eqn:Ht; [done|]. intros [= <-] _. destruct Hi as [Hl He]. split.
    + eapply (lock_inv_move m _ t ep AtStart AtStart); simpl; eauto. apply LockKept.
    + eapply (entry_inv_move m _ t ep AtStart AtStart); simpl; eauto; done.
  - destruct (locked m); [done|]. unfold Close. intros [= <-]. destruct (connections m !! ep) as [a|] eqn:Ea; [|done].
    destruct (objects m !! a) as [[[k|] ? ? ?]|] eqn:Eo; try done. intros _. by eapply (cm_inv_delete m).
  - destruct (locked m); [done|]. case_bool_decide as Ho; [|done]. intros [= <-]. unfold CloseAll. destruct (stopped m); [done|].
    destruct (order_entries _ _ Ho). apply close_entries_inv; [by destruct Hi as [[] []]|done..].
  - destruct (locked m); [done|]. case_bool_decide as Ho; [|done]. intros [= <-]. destruct (order_entries _ _ Ho). by apply cleanup_inv.
Qed.

Lemma step_running m act m' : step m act = Some m' -> crashed m = None.
Proof. unfold step. by destruct (crashed m). Qed.

Lemma run_inv m acts m' :
  cm_inv m -> Forall balanced acts -> run m acts = Some m' -> crashed m' = None -> cm_inv m'.
Proof.
  intros Hi Hb. revert m Hi. induction Hb as [|act acts Ha _ IH]; intros m Hi; cbn [run]; [by intros [= <-]|].
  destruct (step m act) as [m1|] eqn:Hs; [|done]. intros Hr Hc. eapply IH; [|done..]. eapply step_inv; [done..|].
  destruct acts as [|act' acts]; cbn [run] in Hr; [by simplify_eq|]. destruct (step m1 act') eqn:Hs'; [|done]. by eapply step_running.
Qed.

Lemma cm_inv_new : cm_inv NewConnManager.
Proof. by split; split. Qed.

(** C9: in every run, up to the point where a mutex is unlocked a second time,
    the lock is held by the one call that is in a locked part; and each entry of
    the table has its connection, or is being made by exactly one call, which
    will find it there. *)
Theorem cm_run_invariant acts m
    (Hrun : run NewConnManager acts = Some m) (Hacts : Forall balanced acts) (Hok : crashed m = None) :
  (locked m = true <-> exists t ep p, threads m !! t = Some (ep, p) /\ holds p = true) /\
  (forall t1 t2 ep1 ep2 p1 p2, threads m !! t1 = Some (ep1, p1) -> threads m !! t2 = Some (ep2, p2) ->
     holds p1 = true -> holds p2 = true -> t1 = t2) /\
  forall ep a, connections m !! ep = Some a -> exists c, objects m !! a = Some c /\
    ((Creating c = false /\ is_Some (Conn c)) \/
     (Creating c = true /\ exists t p, threads m !! t = Some (ep, p) /\ dials p = Some a /\
        forall t' ep' p', threads m !! t' = Some (ep', p') -> dials p' = Some a -> t' = t)).
Proof.
  destruct (run_inv _ _ _ cm_inv_new Hacts Hrun Hok) as [[Hh Hf Ho] He]. split_and!; [|done|].
  - split; [done|]. intros (t & ep & p & Ht & Hp). by eapply Hf.
  - intros ep a Ha. destruct (entry_ok m He _ _ Ha) as (c & Hc & Hx). exists c. split; [done|].
    destruct (Creating c); [right|left; by destruct Hx]. split; [done|]. destruct Hx as (_ & _ & t & p & Ht & Hp).
    exists t, p. split_and!; [done..|]. intros t' ep' p' Ht' Hp'. by eapply (entry_dialer m He t' t).
Qed.

(** ** Waiting with the lock *)

(** The state of a call that waits with the lock. *)
Definition waits (m : ConnManager) (t : nat) (ep : string) (a : nat) : Prop :=
  cm_inv m /\ crashed m = None /\ threads m !! t = Some (ep, WaitLocked a).

Lemma waits_facts m t ep a :
  waits m t ep a -> locked m = true /\ is_completed m a = false /\
    forall u e p, threads m !! u = Some (e, p) -> u <> t -> holds p = false.
Proof.
  intros (Hi & _ & Ht). split_and!; [by eapply holder_locked| |].
  - destruct Hi as [_ He]. destruct (entry_needed m He _ _ _ _ Ht eq_refl) as (Hep & c & Hc & Hcr).
    destruct (entry_ok m He _ _ Hep) as (c' & Hc' & Hx). simplify_eq. rewrite Hcr in Hx. destruct Hx as (_ & Hx & _).
    unfold is_completed. by rewrite Hc.
  - intros u e p Hu Hut. destruct (holds p) eqn:Hp; [|done]. destruct Hut. destruct Hi as [Hl _]. by eapply (lock_one m Hl u t).
Qed.

(** Meanwhile the others can only start, dial and time out. *)
Lemma waits_step m t ep a act m' :
  waits m t ep a -> act <> ActTimeout t -> balanced act -> step m act = Some m' ->
  waits m' t ep a /\ connections m' = connections m /\ objects m' = objects m.
Proof.
  intros Hw Hact Hb Hs. pose proof Hw as (Hi & Hc & Ht). destruct (waits_facts _ _ _ _ Hw) as (Hlk & Hco & Hno).
  assert (crashed m' = None /\ threads m' !! t = Some (ep, WaitLocked a) /\ connections m' = connections m /\ objects m' = objects m)
    as (Hc' & Ht' & E1 & E2).
  { unfold step in Hs. rewrite Hc, ?Hlk in Hs.
    destruct act as [u e|u now us|u|u|u|u now us|u k|u|u|e|o|now o]; simpl in Hs; try done;
      (destruct (threads m !! u) as [[e' p]|] eqn:Hu; try done); simplify_eq; simpl;
      try (rewrite lookup_insert_ne by congruence; done);
      try (by destruct (Hb u));
      (destruct (decide (u = t)) as [-> |Hut]; [rewrite Ht in Hu; injection Hu as <- <-; simpl in Hs; rewrite ?Hco in Hs; try done; by destruct Hact|];
       try pose proof (Hno _ _ _ Hu Hut);
       destruct p; simpl in *; rewrite ?Hlk, ?andb_false_r in Hs; try done; simplify_eq; simpl; by rewrite lookup_insert_ne). }
  split; [|done]. split_and!; [|done..]. by eapply step_inv.
Qed.

Lemma waits_run m t ep a acts m' :
  waits m t ep a -> ActTimeout t ∉ acts -> Forall balanced acts -> run m acts = Some m' ->
  waits m' t ep a /\ connections m' = connections m /\ objects m' = objects m.
Proof.
  intros Hw Hn Hb. revert m Hw. induction Hb as [|act acts Ha _ IH]; intros m Hw; cbn [run]; [by intros [= <-]|].
  destruct (step m act) as [m1|] eqn:Hs; [|done]. intros Hr. apply not_elem_of_cons in Hn as [Hn1 Hn2].
  destruct (waits_step _ _ _ _ _ _ Hw (not_eq_sym Hn1) Ha Hs) as (Hw1 & <- & <-). by apply IH.
Qed.

(** C22: a call that finds, with the lock taken, that the connection is being made
    waits in vain: until its time is up nobody gets the lock, the connection that
    is being made is not finished, and no table entry changes.  Then it unlocks
    twice: if no other call has taken the lock in between, the program ends with a
    fatal error, and if one has, that call goes on without the lock. *)
Theorem cm_locked_wait acts0 m t ep a acts m'
    (Hreach : run NewConnManager acts0 = Some m) (Hacts0 : Forall balanced acts0) (Hok : crashed m = None)
    (Hwait : threads m !! t = Some (ep, WaitLocked a))
    (Hrun : run m acts = Some m') (Hacts : Forall balanced acts) (Hno : ActTimeout t ∉ acts) :
  connections m' = connections m /\ objects m' = objects m /\ locked m' = true /\
  threads m' !! t = Some (ep, WaitLocked a) /\
  (exists m2, run m' [ActTimeout t; ActUnlockAgain t] = Some m2 /\ crashed m2 = Some UnlockOfUnlocked) /\
  forall u e, u <> t -> threads m' !! u = Some (e, WantLock) ->
    exists m2, run m' [ActTimeout t; ActLock u; ActUnlockAgain t] = Some m2 /\ crashed m2 = None /\
      threads m2 !! u = Some (e, Locked) /\ locked m2 = false.
Proof.
  assert (waits m t ep a) as Hw by (split_and!; [by eapply (run_inv _ acts0 _ cm_inv_new)|done..]).
  destruct (waits_run _ _ _ _ _ _ Hw Hno Hacts Hrun) as (Hw' & E1 & E2). destruct (waits_facts _ _ _ _ Hw') as (Hlk & _ & _).
  destruct Hw' as (_ & Hc & Ht).
  assert (step m' (ActTimeout t) = Some (set_pc (set_locked m' false) t ep (UnlockAgain (Fail ErrWaitTimeout)))) as Hs.
  { unfold step. rewrite Hc, Ht. cbn [thread_step]. unfold Unlock. by rewrite Hlk. }
  cbn [run]. rewrite Hs. split_and!; [done..| |].
  - unfold step. simpl. rewrite Hc, lookup_insert_eq. simpl. by eexists.
  - intros u e Hut Hu. unfold step. simpl. rewrite Hc, lookup_insert_ne, Hu by done. simpl.
    rewrite Hc, lookup_insert_ne, lookup_insert_eq by done. simpl. eexists. split; [done|]. simpl.
    by rewrite lookup_insert_ne, lookup_insert_eq by done.
Qed.

(** ** Results *)

(** When a dial fails, a call that waited for it without the lock returns no
    connection and no error, and the service clients made from it dereference nil. *)
Theorem cm_failed_dial_nil acts m t u ep a
    (Hreach : run NewConnManager acts = Some m) (Hacts : Forall balanced acts) (Hok : crashed m = None)
    (Hdial : threads m !! u = Some (ep, LockedDialed a None)) (Hwait : threads m !! t = Some (ep, WaitCreated a)) :
  exists m', run m [ActDialed u; ActSignal t] = Some m' /\ crashed m' = None /\
    threads m' !! u = Some (ep, Returned (Fail ErrConnect)) /\ threads m' !! t = Some (ep, Returned (Ret None)) /\
    GetPlayerServiceClient m' (Ret None) = Panic.
Proof.
  destruct (run_inv _ _ _ cm_inv_new Hacts Hreach Hok) as [Hl He]. assert (u <> t) as Hut by (intros ->; simplify_eq).
  pose proof (lock_free m Hl _ _ _ Hdial eq_refl) as Hlk.
  destruct (entry_needed m He _ _ _ _ Hdial eq_refl) as (Hep & c & Hc & Hcr).
  destruct (entry_ok m He _ _ Hep) as (c' & Hc' & Hx). simplify_eq. rewrite Hcr in Hx. destruct Hx as (_ & Hco & _).
  assert (step m (ActDialed u) = Some (set_pc (set_locked (set_objects (set_connections m (delete ep (connections m)))
    (<[a := MkClientConn (Conn c) (LastUsed c) (Creating c) true]> (objects m))) false) u ep (Returned (Fail ErrConnect)))) as Hs.
  { unfold step. rewrite Hok, Hdial. cbn [thread_step]. unfold dial_finish. rewrite Hc. unfold complete. rewrite Hco.
    unfold Unlock. simpl. by rewrite Hlk. }
  cbn [run]. rewrite Hs. unfold step. simpl. rewrite Hok, lookup_insert_ne, Hwait by done. cbn [thread_step].
  unfold is_completed. simpl. rewrite lookup_insert_eq. simpl. eexists. split; [done|]. simpl.
  rewrite lookup_delete_eq, lookup_insert_eq, lookup_insert_ne, lookup_insert_eq by done. done.
Qed.

(** The connection that an entry has. *)
Definition conn_of (m : ConnManager) (ep : string) : option nat :=
  a ← connections m !! ep; c ← objects m !! a; Conn c.

(** A call that is not interrupted, without a usable connection. *)
Definition dial_run (t : nat) (ep : string) (now : Z) (conn : option nat) : list action :=
  [ActCall t ep; ActCheck t now false; ActLock t; ActLocked t now false; ActDial t conn; ActLock t; ActDialed t].

Lemma run_app m acts1 acts2 m1 : run m acts1 = Some m1 -> run m (acts1 ++ acts2) = run m1 acts2.
Proof.
  revert m. induction acts1 as [|act acts1 IH]; intros m; cbn [app run]; [by intros [= ->]|]. destruct (step m act); [apply IH|done].
Qed.

(** Up to the locked part nothing but the lock and the call changes. *)
Lemma run_to_lock m t ep now :
  crashed m = None -> locked m = false -> threads m !! t = None ->
  (forall a, connections m !! ep = Some a -> exists c k, objects m !! a = Some c /\ Creating c = false /\ Conn c = Some k) ->
  exists ths, ths !! t = Some (ep, Locked) /\
    run m [ActCall t ep; ActCheck t now false; ActLock t] =
    Some (MkConnManager (connections m) (objects m) true (stopped m) (closed m) ths None).
Proof.
  intros Hc Hl Ht Hr. exists (<[t := (ep, Locked)]> (<[t := (ep, WantLock)]> (<[t := (ep, AtStart)]> (threads m)))).
  split; [apply lookup_insert_eq|]. cbn [run].
  assert (step m (ActCall t ep) = Some (set_pc m t ep AtStart)) as -> by (unfold step; by rewrite Hc, Ht).
  assert (step (set_pc m t ep AtStart) (ActCheck t now false) = Some (set_pc (set_pc m t ep AtStart) t ep WantLock)) as ->.
  { unfold step. cbn [crashed set_pc threads]. rewrite Hc, lookup_insert_eq. cbn [thread_step locked set_pc]. rewrite Hl. unfold read_check.
    cbn [connections objects set_pc]. destruct (connections m !! ep) as [a|]; [|done]. by destruct (Hr a eq_refl) as (c & k & -> & -> & ->). }
  unfold step. cbn [crashed set_pc threads]. rewrite Hc, lookup_insert_eq. cbn [thread_step locked set_pc]. rewrite Hl.
  unfold set_pc, set_locked. cbn [connections objects stopped closed threads crashed]. by rewrite Hc.
Qed.

(** What the locked part leaves: the failed connection is closed and a new entry
    is being made. *)
Lemma run_locked cs os st cl ths t ep now :
  ths !! t = Some (ep, Locked) ->
  (forall a, cs !! ep = Some a -> exists c k, os !! a = Some c /\ Creating c = false /\ Conn c = Some k) ->
  let m := MkConnManager cs os true st cl ths None in
  let a := fresh (dom os) in
  step m (ActLocked t now false) =
  Some (MkConnManager (<[ep := a]> cs) (<[a := MkClientConn None now true false]> os) false st
          (match conn_of m ep with Some k => k :: cl | None => cl end) (<[t := (ep, Dialing a)]> ths) None).
Proof.
  intros Ht Hr m a. unfold step, conn_of. cbn [m crashed threads connections objects]. rewrite Ht. cbn [thread_step].
  unfold locked_check. cbn [m connections objects]. destruct (cs !! ep) as [b|]; [|reflexivity].
  destruct (Hr b eq_refl) as (c & k & Hb & Hcr & Hk). cbn [mbind option_bind]. rewrite Hb. cbn [mbind option_bind]. rewrite Hcr, Hk.
  unfold start_dial, Unlock. cbn [set_pc set_objects set_connections close_conn connections objects locked]. unfold set_pc, set_locked.
  cbn [connections objects locked stopped closed threads crashed]. by rewrite insert_delete_eq.
Qed.

(** From the dial to the end. *)
Lemma run_dialed cs os st cl ths t ep a c conn :
  ths !! t = Some (ep, Dialing a) -> os !! a = Some c -> completed c = false ->
  exists ths', ths' !! t = Some (ep, Returned (match conn with Some _ => Ret (Some a) | None => Fail ErrConnect end)) /\
  run (MkConnManager cs os false st cl ths None) [ActDial t conn; ActLock t; ActDialed t] =
  Some (MkConnManager (match conn with Some _ => cs | None => delete ep cs end)
          (<[a := MkClientConn (match conn with Some k => Some k | None => Conn c end) (LastUsed c)
                    (match conn with Some _ => false | None => Creating c end) true]> os) false st cl ths' None).
Proof.
  intros Ht Hc Hco. eexists (<[t := (ep, Returned _)]> (<[t := (ep, LockedDialed a conn)]> (<[t := (ep, WantLockDialed a conn)]> ths))).
  split; [apply lookup_insert_eq|]. cbn [run]. unfold step at 1. cbn [crashed threads]. rewrite Ht. cbn [thread_step].
  unfold step at 1. cbn [crashed threads set_pc]. rewrite lookup_insert_eq. cbn [thread_step locked set_pc].
  unfold step at 1. cbn [crashed threads set_pc set_locked]. rewrite lookup_insert_eq. cbn [thread_step locked].
  unfold dial_finish. cbn [objects set_pc set_locked]. rewrite Hc. by destruct conn; unfold complete; cbn [completed]; rewrite Hco.
Qed.

(** A call that is not interrupted.  A usable connection is returned as it is,
    and marked used.  Otherwise the endpoint is dialled: an old connection is
    closed first; success puts a new entry into the table in place of the old one,
    failure takes the entry out and is reported; the lock is free again. *)
Theorem cm_get_connection acts m t ep now
    (Hreach : run NewConnManager acts = Some m) (Hacts : Forall balanced acts) (Hok : crashed m = None)
    (Hfree : locked m = false) (Ht : threads m !! t = None)
    (Hready : forall a c, connections m !! ep = Some a -> objects m !! a = Some c -> Creating c = false) :
  (forall a, connections m !! ep = Some a -> exists m' c,
     run m [ActCall t ep; ActCheck t now true] = Some m' /\ threads m' !! t = Some (ep, Returned (Ret (Some a))) /\
     connections m' = connections m /\ closed m' = closed m /\ objects m' !! a = Some c /\ is_Some (Conn c) /\ LastUsed c = now) /\
  forall conn, exists m', run m (dial_run t ep now conn) = Some m' /\ locked m' = false /\ crashed m' = None /\
    closed m' = match conn_of m ep with Some k => k :: closed m | None => closed m end /\
    match conn with
    | Some k => exists a c, threads m' !! t = Some (ep, Returned (Ret (Some a))) /\
        connections m' = <[ep := a]> (connections m) /\ objects m' !! a = Some c /\ Conn c = Some k /\ Creating c = false
    | None => threads m' !! t = Some (ep, Returned (Fail ErrConnect)) /\ connections m' = delete ep (connections m)
    end.
Proof.
  assert (forall a, connections m !! ep = Some a -> exists c k, objects m !! a = Some c /\ Creating c = false /\ Conn c = Some k) as Hr.
  { destruct (run_inv _ _ _ cm_inv_new Hacts Hreach Hok) as [_ He]. intros a Ha.
    destruct (entry_ok m He _ _ Ha) as (c & Hc & Hx). rewrite (Hready a c Ha Hc) in Hx. destruct Hx as [[k Hk] _].
    exists c, k. eauto. }
  split.
  - intros a Ha. destruct (Hr a Ha) as (c & k & Hc & Hcr & Hk). cbn [run]. unfold step at 1. rewrite Hok, Ht.
    unfold step. cbn [crashed threads set_pc]. rewrite Hok, lookup_insert_eq. cbn [thread_step locked set_pc]. rewrite Hfree.
    unfold read_check. cbn [connections objects set_pc]. rewrite Ha, Hc, Hcr, Hk. eexists _, (set_LastUsed c now). split; [done|].
    cbn [threads connections closed objects set_pc set_objects set_LastUsed Conn LastUsed]. rewrite !lookup_insert_eq, Hk. eauto 10.
  - intros conn. destruct (run_to_lock m t ep now Hok Hfree Ht Hr) as (ths & Hths & H1).
    pose proof (run_locked _ _ (stopped m) (closed m) _ t ep now Hths Hr) as H2. set (a := fresh (dom (objects m))) in *.
    destruct (run_dialed (<[ep := a]> (connections m)) (<[a := MkClientConn None now true false]> (objects m)) (stopped m)
      (match conn_of m ep with Some k => k :: closed m | None => closed m end) (<[t := (ep, Dialing a)]> ths) t ep a
      (MkClientConn None now true false) conn) as (ths' & Hths' & H3); [apply lookup_insert_eq..|done|].
    eexists. unfold dial_run.
    change ([?x1; ?x2; ?x3; ?x4; ?x5; ?x6; ?x7]) with ([x1; x2; x3] ++ [x4] ++ [x5; x6; x7]).
    rewrite (run_app _ _ _ _ H1). cbn [app]. cbn [run]. rewrite H2. split; [exact H3|].
    destruct conn as [k|]; cbn [locked crashed closed threads connections objects]; split_and!; try done; [|by rewrite delete_insert_eq].
    eexists a, _. rewrite lookup_insert_eq. eauto.
Qed.

(** ** Closing everything *)

Lemma close_entries_spec m order :
  crashed m = None -> NoDup order.*1 -> (forall ep a, (ep, a) ∈ order -> connections m !! ep = Some a) ->
  (crashed (close_entries m order) = None <->
     forall ep a, (ep, a) ∈ order -> exists c, objects m !! a = Some c /\ is_Some (Conn c)) /\
  (crashed (close_entries m order) = None ->
     stopped (close_entries m order) = stopped m /\
     forall ep, connections (close_entries m order) !! ep = if decide (ep ∈ order.*1) then None else connections m !! ep).
Proof.
  revert m. induction order as [|[ep a] order IH]; intros m Hc Hnd Hin.
  { split; [split; [by intros _ ? ? ?%elem_of_nil|done]|done]. }
  destruct (rest_entries _ _ _ _ Hnd Hin) as (Ha & Hnd' & Hin'). cbn [close_entries].
  destruct (objects m !! a) as [[[k|] lu cr co]|] eqn:Ea; cycle 1;
    [split; [|done]; split; [done|]; intros Hall; destruct (Hall ep a) as (c & Hc' & [k Hk]); [left|simplify_eq/=]..|].
  destruct (IH (set_connections (close_conn m k) (delete ep (connections m)))) as [H1 H2]; [done..|by intros e b [_ ?]%Hin'|].
  split.
  - rewrite H1. cbn [objects set_connections close_conn]. split.
    + intros Hall e b [[= -> ->]|He]%elem_of_cons; [eexists; split; [done|]; by eexists|by eapply Hall].
    + intros Hall e b He. apply (Hall e b). by right.
  - intros Hok. destruct (H2 Hok) as [E Hl]. split; [done|]. intros e. rewrite Hl. cbn [connections set_connections close_conn fmap list_fmap fst].
    destruct (decide (e ∈ order.*1)) as [He|He], (decide (e ∈ ep :: order.*1)) as [He'|He']; try done.
    + destruct He'. by right.
    + apply elem_of_cons in He' as [-> |]; [apply lookup_delete_eq|done].
    + rewrite lookup_delete_ne; [done|]. intros ->. apply He'. left.
Qed.

(** [CloseAll] ends the program exactly when it was called before or while a
    connection is being made; otherwise it empties the table, and the next call
    ends the program. *)
Theorem cm_close_all acts m order
    (Hreach : run NewConnManager acts = Some m) (Hacts : Forall balanced acts) (Hok : crashed m = None)
    (Horder : map_order (connections m) order) :
  (crashed (CloseAll m order) = None <->
     stopped m = false /\ forall ep a c, connections m !! ep = Some a -> objects m !! a = Some c -> Creating c = false) /\
  (crashed (CloseAll m order) = None ->
     connections (CloseAll m order) = ∅ /\
     forall order', crashed (CloseAll (CloseAll m order) order') = Some CloseOfClosed).
Proof.
  destruct (run_inv _ _ _ cm_inv_new Hacts Hreach Hok) as [_ He]. destruct (order_entries _ _ Horder) as [Hnd Hin].
  unfold CloseAll at 1 2 3. destruct (stopped m) eqn:Hst; [split; [split; [done|by intros []]|done]|].
  destruct (close_entries_spec (set_stopped m) order Hok Hnd Hin) as [H1 H2]. split.
  - rewrite H1. split.
    + intros Hall. split; [done|]. intros ep a c Ha Hc. destruct (Hall ep a) as (c' & Hc' & [k Hk]); [by eapply map_order_elem|].
      simpl in Hc'. rewrite Hc in Hc'. injection Hc' as <-. destruct (entry_ok m He _ _ Ha) as (d & Hd & Hx). rewrite Hc in Hd. injection Hd as <-.
      destruct (Creating c); [|done]. destruct Hx. congruence.
    + intros [_ Hall] ep a Ha%Hin. destruct (entry_ok m He _ _ Ha) as (c & Hc & Hx). exists c. split; [done|].
      rewrite (Hall ep a c) in Hx by done. by destruct Hx.
  - intros Hcr. destruct (H2 Hcr) as [Hs Hl]. split.
    + apply map_eq. intros ep. rewrite Hl, lookup_empty. destruct (decide _) as [|Hep]; [done|]. simpl.
      apply eq_None_not_Some. intros [a Ha]. apply Hep. apply list_elem_of_fmap. exists (ep, a). split; [done|]. by eapply map_order_elem.
    + intros order'. unfold CloseAll. rewrite Hst, Hs. done.
Qed.

(** ** Witnesses *)

(** Two calls for the same endpoint, the second in the gap between the check and
    the entry of the first. *)
Definition two_calls : list action :=
  [ActCall 1 "e"; ActCall 2 "e"; ActCheck 1 0 true; ActCheck 2 0 true; ActLock 1; ActLocked 1 0 true; ActLock 2; ActLocked 2 0 true].

Lemma two_calls_balanced : Forall balanced two_calls.
Proof. repeat constructor; by intros t. Qed.

Definition after (acts : list action) : ConnManager := default NewConnManager (run NewConnManager acts).

Lemma cm_run_invariant_witness :
  exists m, run NewConnManager two_calls = Some m /\
    forall t1 t2 ep1 ep2 p1 p2, threads m !! t1 = Some (ep1, p1) -> threads m !! t2 = Some (ep2, p2) ->
      holds p1 = true -> holds p2 = true -> t1 = t2.
Proof.
  exists (after two_calls). split; [vm_compute; reflexivity|].
  apply (cm_run_invariant two_calls); [vm_compute; reflexivity|exact two_calls_balanced|vm_compute; reflexivity].
Defined.

Lemma cm_locked_wait_witness :
  exists m m2, run NewConnManager two_calls = Some m /\ threads m !! 2%nat = Some ("e"%string, WaitLocked 0) /\
    run m [ActDial 1 (Some 7%nat); ActTimeout 2; ActUnlockAgain 2] = Some m2 /\ crashed m2 = Some UnlockOfUnlocked.
Proof.
  exists (after two_calls).
  destruct (cm_locked_wait two_calls (after two_calls) 2 "e" 0 [ActDial 1 (Some 7%nat)] (after (two_calls ++ [ActDial 1 (Some 7%nat)])))
    as (_ & _ & _ & _ & (m2 & H1 & H2) & _).
  - vm_compute; reflexivity.
  - exact two_calls_balanced.
  - vm_compute; reflexivity.
  - vm_compute; reflexivity.
  - vm_compute; reflexivity.
  - repeat constructor; by intros t.
  - intros H. apply elem_of_cons in H as [H|H]; [discriminate|]. by apply elem_of_nil in H.
  - exists m2. split; [vm_compute; reflexivity|]. split; [vm_compute; reflexivity|]. split; [|exact H2].
    change [ActDial 1 (Some 7%nat); ActTimeout 2; ActUnlockAgain 2] with ([ActDial 1 (Some 7%nat)] ++ [ActTimeout 2; ActUnlockAgain 2]).
    rewrite (run_app _ _ _ (after (two_calls ++ [ActDial 1 (Some 7%nat)]))); [exact H1|vm_compute; reflexivity].
Defined.

Definition failing_dial : list action :=
  [ActCall 1 "e"; ActCheck 1 0 true; ActLock 1; ActLocked 1 0 true; ActCall 2 "e"; ActCheck 2 0 true; ActDial 1 None; ActLock 1].

Lemma cm_failed_dial_nil_witness :
  exists m', run (after failing_dial) [ActDialed 1; ActSignal 2] = Some m' /\
    threads m' !! 2%nat = Some ("e"%string, Returned (Ret None)).
Proof.
  destruct (cm_failed_dial_nil failing_dial (after failing_dial) 2 1 "e" 0) as (m' & H1 & _ & _ & H2 & _).
  - vm_compute; reflexivity.
  - repeat constructor; by intros t.
  - vm_compute; reflexivity.
  - vm_compute; reflexivity.
  - vm_compute; reflexivity.
  - exists m'. split; [exact H1|exact H2].
Defined.

Definition dialled : list action := dial_run 1 "e" 0 (Some 7%nat).

Lemma cm_get_connection_witness :
  exists m', run (after dialled) (dial_run 2 "e" 5 (Some 8%nat)) = Some m' /\ closed m' = [7%nat].
Proof.
  destruct (cm_get_connection dialled (after dialled) 2 "e" 5) as [_ H].
  - vm_compute; reflexivity.
  - repeat constructor; by intros t.
  - vm_compute; reflexivity.
  - vm_compute; reflexivity.
  - vm_compute; reflexivity.
  - intros a c Ha Hc. vm_compute in Ha. injection Ha as <-. vm_compute in Hc. by injection Hc as <-.
  - destruct (H (Some 8%nat)) as (m' & H1 & _ & _ & H2 & _). exists m'. split; [exact H1|]. rewrite H2. vm_compute. reflexivity.
Defined.

Lemma cm_close_all_witness :
  crashed (CloseAll (after dialled) [("e"%string, 0%nat)]) = None /\
  crashed (CloseAll (CloseAll (after dialled) [("e"%string, 0%nat)]) []) = Some CloseOfClosed.
Proof.
  destruct (cm_close_all dialled (after dialled) [("e"%string, 0%nat)]) as [_ H].
  - vm_compute; reflexivity.
  - repeat constructor; by intros t.
  - vm_compute; reflexivity.
  - apply (bool_decide_unpack _). vm_compute. exact I.
  - assert (crashed (CloseAll (after dialled) [("e"%string, 0%nat)]) = None) as H0 by (vm_compute; reflexivity).
    split; [exact H0|]. apply (H H0).
Defined.
