(* ===== verification/PubSub.v ===== *)
(** * Publish and subscribe over Redis ([pkg/redis/pubsub.go])

    The subscription table, the handlers and the goroutines that receive messages.
    The operations hold the mutex throughout and are single steps; a receiving
    goroutine is a state machine, since it reads the fields without the mutex.  What
    Redis and its client answer, and the messages that arrive, are choices of the
    steps.  Handlers are values of any type; a handler that is started is recorded
    with its arguments.  A run ends with a channel closed twice or a call on a nil
    pointer. *)

From stdpp Require Import base gmap strings numbers list.
From Stdlib Require Import ZArith Lia.
From S2P Require Import Prelude.

Record redis_Message := MkMsg {
  Channel : string;
  Pattern : string;
  Payload : list byte
}.

Inductive PsError :=
  | ErrNoChannels
  | ErrNilHandler
  | ErrClientType
  | ErrSubscribe
  | ErrNotInitialized
  | ErrUnsubscribe
  | ErrPublish
  | ErrCloseClient
  | ErrNumSub.

Inductive ps_crash := CloseOfClosed | NilPointer.

(** A receiving goroutine: at the [select], about to call [ReceiveMessage] of
    [ps.pubsub], in that call, with a message, or gone. *)
Inductive receiver :=
  | AtSelect
  | Calling
  | Receiving (client : nat)
  | Handling (msg : redis_Message)
  | Exited.

(** What [Publish] is given: the text of other values is made by [fmt]. *)
Inductive published := PubString (s : list byte) | PubBytes (b : list byte) | PubOther (text : list byte).

Section pubsub.
Context {H : Type}.

(** [pubsub]: the client that subscribes.  [stop_closed]: [stopChan] is closed.
    [started]: the handlers started, with their arguments, and [handled] the
    messages handled, the last ones last. *)
Record RedisPubSub := MkPubSub {
  pubsub : option nat;
  handlers : gmap string (list H);
  patternHandlers : gmap string (list H);
  activeChannels : gset string;
  isRunning : bool;
  stop_closed : bool;
  receivers : gmap nat receiver;
  started : list (H * string * list byte);
  handled : list redis_Message;
  ps_crashed : option ps_crash
}.

Definition NewPubSub : RedisPubSub := MkPubSub None ∅ ∅ ∅ false false ∅ [] [] None.

Definition set_client (ps : RedisPubSub) (c : option nat) : RedisPubSub :=
  MkPubSub c (handlers ps) (patternHandlers ps) (activeChannels ps) (isRunning ps) (stop_closed ps) (receivers ps)
    (started ps) (handled ps) (ps_crashed ps).
Definition set_tables (ps : RedisPubSub) (hs pats : gmap string (list H)) (act : gset string) : RedisPubSub :=
  MkPubSub (pubsub ps) hs pats act (isRunning ps) (stop_closed ps) (receivers ps) (started ps) (handled ps) (ps_crashed ps).
Definition set_running (ps : RedisPubSub) (running stopped : bool) : RedisPubSub :=
  MkPubSub (pubsub ps) (handlers ps) (patternHandlers ps) (activeChannels ps) running stopped (receivers ps)
    (started ps) (handled ps) (ps_crashed ps).
Definition set_receivers (ps : RedisPubSub) (rs : gmap nat receiver) : RedisPubSub :=
  MkPubSub (pubsub ps) (handlers ps) (patternHandlers ps) (activeChannels ps) (isRunning ps) (stop_closed ps) rs
    (started ps) (handled ps) (ps_crashed ps).
Definition set_ps_crashed (ps : RedisPubSub) (c : ps_crash) : RedisPubSub :=
  MkPubSub (pubsub ps) (handlers ps) (patternHandlers ps) (activeChannels ps) (isRunning ps) (stop_closed ps) (receivers ps)
    (started ps) (handled ps) (Some c).
Definition log_message (ps : RedisPubSub) (st : list (H * string * list byte)) (msg : redis_Message) : RedisPubSub :=
  MkPubSub (pubsub ps) (handlers ps) (patternHandlers ps) (activeChannels ps) (isRunning ps) (stop_closed ps) (receivers ps)
    (started ps ++ st) (handled ps ++ [msg]) (ps_crashed ps).

Definition message_text (m : published) : list byte :=
  match m with PubString s => s | PubBytes b => b | PubOther text => text end.

(** [Publish]: the command it sends, and its result. *)
Definition Publish (channel : string) (message : published) (ok : bool) : (string * list byte) * outcome PsError unit :=
  ((channel, message_text message), if ok then Ret tt else Fail ErrPublish).

(** [startMessageLoop] *)
Definition startMessageLoop (ps : RedisPubSub) : RedisPubSub :=
  if isRunning ps then ps
  else
    let ps := set_running ps true (stop_closed ps) in
    set_receivers ps (<[fresh (dom (receivers ps)) := AtSelect]> (receivers ps)).

(** The client is made by the first subscription; [client] is the new client, when
    the pool's client has one of the two known types. *)
Definition ensure_client (ps : RedisPubSub) (client : option nat) : outcome PsError RedisPubSub :=
  match pubsub ps with
  | Some _ => Ret ps
  | None =>
      match client with
      | None => Fail ErrClientType
      | Some c => Ret (startMessageLoop (set_client ps (Some c)))
      end
  end.

Fixpoint add_handlers (hs : gmap string (list H)) (h : H) (channels : list string) : gmap string (list H) :=
  match channels with
  | [] => hs
  | c :: rest => add_handlers (<[c := default [] (hs !! c) ++ [h]]> hs) h rest
  end.

Fixpoint add_active (act : gset string) (channels : list string) : gset string :=
  match channels with [] => act | c :: rest => add_active ({[ c ]} ∪ act) rest end.

Definition Subscribe (ps : RedisPubSub) (handler : option H) (channels : list string) (client : option nat) (ok : bool) :
    RedisPubSub * outcome PsError unit :=
  match channels, handler with
  | [], _ => (ps, Fail ErrNoChannels)
  | _, None => (ps, Fail ErrNilHandler)
  | _, Some h =>
      match ensure_client ps client with
      | Ret ps =>
          let ps := set_tables ps (add_handlers (handlers ps) h channels) (patternHandlers ps) (add_active (activeChannels ps) channels) in
          (ps, if ok then Ret tt else Fail ErrSubscribe)
      | Fail e => (ps, Fail e)
      | Panic => (ps, Panic)
      end
  end.

Fixpoint remove_keys (hs : gmap string (list H)) (channels : list string) : gmap string (list H) :=
  match channels with [] => hs | c :: rest => remove_keys (delete c hs) rest end.

Fixpoint remove_active (act : gset string) (channels : list string) : gset string :=
  match channels with [] => act | c :: rest => remove_active (act ∖ {[ c ]}) rest end.

Definition Unsubscribe (ps : RedisPubSub) (channels : list string) (ok : bool) : RedisPubSub * outcome PsError unit :=
  match pubsub ps with
  | None => (ps, Fail ErrNotInitialized)
  | Some _ =>
      if ok then (set_tables ps (remove_keys (handlers ps) channels) (patternHandlers ps) (remove_active (activeChannels ps) channels), Ret tt)
      else (ps, Fail ErrUnsubscribe)
  end.

Definition PSubscribe (ps : RedisPubSub) (handler : option H) (patterns : list string) (client : option nat) (ok : bool) :
    RedisPubSub * outcome PsError unit :=
  match patterns, handler with
  | [], _ => (ps, Fail ErrNoChannels)
  | _, None => (ps, Fail ErrNilHandler)
  | _, Some h =>
      match ensure_client ps client with
      | Ret ps => (set_tables ps (handlers ps) (add_handlers (patternHandlers ps) h patterns) (activeChannels ps),
                   if ok then Ret tt else Fail ErrSubscribe)
      | Fail e => (ps, Fail e)
      | Panic => (ps, Panic)
      end
  end.

Definition PUnsubscribe (ps : RedisPubSub) (patterns : list string) (ok : bool) : RedisPubSub * outcome PsError unit :=
  match pubsub ps with
  | None => (ps, Fail ErrNotInitialized)
  | Some _ =>
      if ok then (set_tables ps (handlers ps) (remove_keys (patternHandlers ps) patterns) (activeChannels ps), Ret tt)
      else (ps, Fail ErrUnsubscribe)
  end.

Definition NumActiveChannels (ps : RedisPubSub) : nat := size (activeChannels ps).

(** [order]: the order in which the map is visited. *)
Definition ActiveChannels (order : list string) : list string := order.

(** [counts]: the answer of Redis; a channel that is not in it counts nobody. *)
Definition NumSubscribers (counts : option (gmap string Z)) (channel : string) : outcome PsError Z :=
  match counts with Some m => Ret (default 0%Z (m !! channel)) | None => Fail ErrNumSub end.

(** [ok]: the client can be closed. *)
Definition Close (ps : RedisPubSub) (ok : bool) : RedisPubSub * outcome PsError unit :=
  if isRunning ps then
    if stop_closed ps then (set_ps_crashed ps CloseOfClosed, Panic)
    else
      let ps := set_running ps false true in
      match pubsub ps with
      | Some _ => if ok then (set_tables (set_client ps None) ∅ ∅ ∅, Ret tt) else (ps, Fail ErrCloseClient)
      | None => (set_tables ps ∅ ∅ ∅, Ret tt)
      end
  else (ps, Ret tt).

(** The handlers [handleMessage] starts. *)
Definition starts (ps : RedisPubSub) (msg : redis_Message) : list (H * string * list byte) :=
  let start h := (h, Channel msg, Payload msg) in
  (start <$> default [] (handlers ps !! Channel msg)) ++
  (if decide (Pattern msg = ""%string) then [] else start <$> default [] (patternHandlers ps !! Pattern msg)).

Definition handleMessage (ps : RedisPubSub) (msg : redis_Message) : RedisPubSub := log_message ps (starts ps msg) msg.

(** One step of a receiving goroutine; [got] is what [ReceiveMessage] returns. *)
Definition receiver_step (ps : RedisPubSub) (g : nat) (got : option redis_Message) : option RedisPubSub :=
  match receivers ps !! g with
  | Some AtSelect => Some (set_receivers ps (<[g := if stop_closed ps then Exited else Calling]> (receivers ps)))
  | Some Calling =>
      match pubsub ps with
      | None => Some (set_ps_crashed ps NilPointer)
      | Some c => Some (set_receivers ps (<[g := Receiving c]> (receivers ps)))
      end
  | Some (Receiving _) =>
      match got with
      | Some msg => Some (set_receivers ps (<[g := Handling msg]> (receivers ps)))
      | None => Some (set_receivers ps (<[g := AtSelect]> (receivers ps)))
      end
  | Some (Handling msg) =>
      let ps := handleMessage ps msg in Some (set_receivers ps (<[g := AtSelect]> (receivers ps)))
  | Some Exited | None => None
  end.

Inductive ps_action :=
  | DoSubscribe (handler : option H) (channels : list string) (client : option nat) (ok : bool)
  | DoUnsubscribe (channels : list string) (ok : bool)
  | DoPSubscribe (handler : option H) (patterns : list string) (client : option nat) (ok : bool)
  | DoPUnsubscribe (patterns : list string) (ok : bool)
  | DoClose (ok : bool)
  | DoReceive (g : nat) (got : option redis_Message).

Definition ps_step (ps : RedisPubSub) (act : ps_action) : option RedisPubSub :=
  match ps_crashed ps with
  | Some _ => None
  | None =>
      match act with
      | DoSubscribe h cs c ok => Some (Subscribe ps h cs c ok).1
      | DoUnsubscribe cs ok => Some (Unsubscribe ps cs ok).1
      | DoPSubscribe h cs c ok => Some (PSubscribe ps h cs c ok).1
      | DoPUnsubscribe cs ok => Some (PUnsubscribe ps cs ok).1
      | DoClose ok => Some (Close ps ok).1
      | DoReceive g got => receiver_step ps g got
      end
  end.

Fixpoint ps_run (ps : RedisPubSub) (acts : list ps_action) : option RedisPubSub :=
  match acts with
  | [] => Some ps
  | act :: rest => match ps_step ps act with Some ps => ps_run ps rest | None => None end
  end.
End pubsub.
Arguments RedisPubSub : clear implicits.
Arguments ps_action : clear implicits.

(** ** Tables *)

Section tables.
Context {H : Type}.
Implicit Types (hs : gmap string (list H)) (ps : RedisPubSub H).

Lemma lookup_add_handlers hs h channels c :
  NoDup channels ->
  default [] (add_handlers hs h channels !! c) = default [] (hs !! c) ++ (if decide (c ∈ channels) then [h] else []).
Proof.
  revert hs. induction channels as [|d channels IH]; intros hs Hnd; cbn [add_handlers].
  - rewrite decide_False by apply not_elem_of_nil. by rewrite app_nil_r.
  - apply NoDup_cons in Hnd as [Hd Hnd]. rewrite IH by done. destruct (decide (d = c)) as [-> |Hdc].
    + rewrite lookup_insert_eq, (decide_False _ _ Hd), decide_True by left. simpl. by rewrite app_nil_r.
    + rewrite lookup_insert_ne by done. f_equal. apply decide_ext. rewrite elem_of_cons. naive_solver.
Qed.

Lemma dom_add_handlers hs h channels : dom (add_handlers hs h channels) = add_active (dom hs) channels.
Proof. revert hs. induction channels as [|c channels IH]; intros hs; [done|]. cbn. by rewrite IH, dom_insert_L. Qed.

Lemma dom_remove_keys hs channels : dom (remove_keys hs channels) = remove_active (dom hs) channels.
Proof. revert hs. induction channels as [|c channels IH]; intros hs; [done|]. cbn. by rewrite IH, dom_delete_L. Qed.

(** A goroutine that has passed the check of [stopChan]. *)
Definition past (r : receiver) : bool := match r with Calling | Receiving _ | Handling _ => true | _ => false end.

Definition one_past ps : Prop :=
  forall g1 g2 r1 r2, receivers ps !! g1 = Some r1 -> receivers ps !! g2 = Some r2 -> past r1 = true -> past r2 = true -> g1 = g2.

Definition none_past ps : Prop := forall g r, receivers ps !! g = Some r -> past r = false.

(** The channels that count as active are those with handlers; a service that runs
    has a client; until it is closed it has one receiving goroutine when it runs and
    none before; and no two goroutines are ever past the check. *)
Record ps_inv ps : Prop := {
  inv_active : activeChannels ps = dom (handlers ps);
  inv_client : isRunning ps = true -> is_Some (pubsub ps);
  inv_open : stop_closed ps = false -> is_Some (pubsub ps) -> isRunning ps = true;
  inv_none : stop_closed ps = false -> isRunning ps = false -> receivers ps = ∅;
  inv_single : stop_closed ps = false -> forall g1 g2, is_Some (receivers ps !! g1) -> is_Some (receivers ps !! g2) -> g1 = g2;
  inv_past : one_past ps
}.

Lemma ensure_client_inv ps client ps' : ps_inv ps -> ensure_client ps client = Ret ps' -> ps_inv ps'.
Proof.
  intros [Ha Hc Ho Hn Hs Hp]. unfold ensure_client. destruct (pubsub ps) as [c|] eqn:Ec.
  { intros [= <-]. split; rewrite ?Ec; eauto. }
  destruct client as [c|]; [|done]. intros [= <-]. unfold startMessageLoop. cbn [isRunning set_client].
  destruct (isRunning ps) eqn:Er; [destruct (Hc eq_refl); congruence|].
  split; cbn [activeChannels handlers isRunning pubsub stop_closed receivers set_receivers set_running set_client]; eauto; try done.
  - intros Hst g1 g2. rewrite (Hn Hst eq_refl). rewrite !lookup_insert_is_Some, lookup_empty. intros [<-|[_ []%is_Some_None]] [<-|[_ []%is_Some_None]]; done.
  - assert (forall g r, <[fresh (dom (receivers ps)) := AtSelect]> (receivers ps) !! g = Some r -> past r = true -> receivers ps !! g = Some r) as Hi.
    { intros g r [[<- <-]|[_ Hg]]%lookup_insert_Some; done. }
    intros g1 g2 r1 r2 H1 H2 P1 P2. eapply Hp; eauto.
Qed.

(** The same goroutines and flags. *)
Lemma ps_inv_tables ps hs pats act : ps_inv ps -> act = dom hs -> ps_inv (set_tables ps hs pats act).
Proof. intros [Ha Hc Ho Hn Hs Hp] ->. by split. Qed.

(** A goroutine moves on. *)
Lemma ps_inv_receiver ps g r r' :
  ps_inv ps -> receivers ps !! g = Some r -> (past r' = true -> past r = true \/ stop_closed ps = false) ->
  ps_inv (set_receivers ps (<[g := r']> (receivers ps))).
Proof.
  intros [Ha Hc Ho Hn Hs Hp] Hg Hr. split; cbn [activeChannels handlers isRunning pubsub stop_closed receivers set_receivers]; eauto.
  - intros Hst Hru. rewrite (Hn Hst Hru) in Hg. by rewrite lookup_empty in Hg.
  - intros Hst g1 g2. rewrite !lookup_insert_is_Some. intros H1 H2. apply Hs; [done|..].
    + destruct H1 as [<-|[_ ?]]; [by eexists|done].
    + destruct H2 as [<-|[_ ?]]; [by eexists|done].
  - assert (forall k q, <[g := r']> (receivers ps) !! k = Some q -> past q = true -> stop_closed ps = false \/ exists q', receivers ps !! k = Some q' /\ past q' = true) as Hi.
    { intros k q [[<- <-]|[_ Hk]]%lookup_insert_Some Hq; [|by right; exists q]. destruct (Hr Hq) as [|]; [right; by exists r|by left]. }
    intros g1 g2 r1 r2 H1 H2 P1 P2. cbn [receivers set_receivers] in H1, H2. destruct (Hi _ _ H1 P1) as [Hst|(q1 & Hq1 & Pq1)].
    { apply Hs; [done|..]; [apply lookup_insert_Some in H1|apply lookup_insert_Some in H2]; naive_solver. }
    destruct (Hi _ _ H2 P2) as [Hst|(q2 & Hq2 & Pq2)]; [|by eapply Hp].
    apply Hs; [done|..]; [apply lookup_insert_Some in H1|apply lookup_insert_Some in H2]; naive_solver.
Qed.

Lemma ps_inv_new : ps_inv (NewPubSub (H := H)).
Proof. split; try done; [by intros _ [? [=]]|by intros _ ? ? [? [=]]]. Qed.

Lemma close_inv ps ok : ps_inv ps -> ps_crashed (Close ps ok).1 = None -> ps_inv (Close ps ok).1.
Proof.
  intros [Ha Hc Ho Hn Hs Hp]. unfold Close. destruct (isRunning ps) eqn:Er; [|by split; rewrite ?Er; eauto].
  destruct (stop_closed ps); [done|]. intros _. destruct (Hc eq_refl) as [c Hcl]. cbn [pubsub set_running]. rewrite Hcl.
  destruct ok; split; cbn; try done; by rewrite dom_empty_L.
Qed.

Lemma pubsub_step_inv ps act ps' : ps_inv ps -> ps_step ps act = Some ps' -> ps_crashed ps' = None -> ps_inv ps'.
Proof.
  intros Hi. unfold ps_step. destruct (ps_crashed ps); [done|].
  destruct act as [h cs c ok|cs ok|h cs c ok|cs ok|ok|g got].
  - intros [= <-] _. unfold Subscribe. destruct cs as [|c0 cs]; [done|]. destruct h as [h|]; [|done].
    destruct (ensure_client ps c) as [ps1|e|] eqn:Ee; [|done..]. apply (ensure_client_inv _ _ _ Hi) in Ee.
    apply ps_inv_tables; [done|]. by rewrite dom_add_handlers, (inv_active _ Ee).
  - intros [= <-] _. unfold Unsubscribe. destruct (pubsub ps); [destruct ok|]; try done.
    apply ps_inv_tables; [done|]. by rewrite dom_remove_keys, (inv_active _ Hi).
  - intros [= <-] _. unfold PSubscribe. destruct cs as [|c0 cs]; [done|]. destruct h as [h|]; [|done].
    destruct (ensure_client ps c) as [ps1|e|] eqn:Ee; [|done..]. apply (ensure_client_inv _ _ _ Hi) in Ee.
    apply ps_inv_tables; [done|]. apply (inv_active _ Ee).
  - intros [= <-] _. unfold PUnsubscribe. destruct (pubsub ps); [destruct ok|]; try done.
    apply ps_inv_tables; [done|]. apply (inv_active _ Hi).
  - intros [= <-]. by apply close_inv.
  - unfold receiver_step. destruct (receivers ps !! g) as [r|] eqn:Hg; [|done].
    destruct r as [| |c|msg|]; try done; [|destruct (pubsub ps)|destruct got|]; intros [= <-] Hc; try done;
      try (eapply ps_inv_receiver; eauto; by (destruct (stop_closed ps); auto)).
    apply (ps_inv_receiver (handleMessage ps msg) g (Handling msg)); [|done..]. by destruct Hi.
Qed.

Lemma ps_step_running ps act ps' : ps_step ps act = Some ps' -> ps_crashed ps = None.
Proof. unfold ps_step. by destruct (ps_crashed ps). Qed.

Lemma pubsub_run_inv ps acts ps' : ps_inv ps -> ps_run ps acts = Some ps' -> ps_crashed ps' = None -> ps_inv ps'.
Proof.
  revert ps. induction acts as [|act acts IH]; intros ps Hi; cbn [ps_run]; [by intros [= <-]|].
  destruct (ps_step ps act) as [ps1|] eqn:Hs; [|done]. intros Hr Hc. eapply IH; [|done..]. eapply pubsub_step_inv; [done..|].
  destruct acts as [|act' acts]; cbn [ps_run] in Hr; [by simplify_eq|]. destruct (ps_step ps1 act') eqn:Hs'; [|done].
  by eapply ps_step_running.
Qed.
End tables.

(** ** After [Close] *)

Section closing.
Context {H : Type}.
Implicit Types (ps : RedisPubSub H).

Lemma ensure_client_keeps ps client ps' :
  ensure_client ps client = Ret ps' ->
  stop_closed ps' = stop_closed ps /\ handled ps' = handled ps /\
  forall g r, receivers ps' !! g = Some r -> past r = true -> receivers ps !! g = Some r.
Proof.
  unfold ensure_client. destruct (pubsub ps); [by intros [= <-]|]. destruct client as [c|]; [|done]. intros [= <-].
  unfold startMessageLoop. cbn [isRunning set_client]. destruct (isRunning ps); [done|]. split_and!; [done..|].
  cbn. by intros g r [[<- <-]|[_ Hg]]%lookup_insert_Some.
Qed.

Definition is_receive (act : ps_action H) : bool := match act with DoReceive _ _ => true | _ => false end.

(** Operations handle no message and let no goroutine past the check. *)
Lemma operation_keeps ps act ps' :
  stop_closed ps = true -> ps_step ps act = Some ps' -> is_receive act = false ->
  stop_closed ps' = true /\ handled ps' = handled ps /\
  forall g r, receivers ps' !! g = Some r -> past r = true -> receivers ps !! g = Some r.
Proof.
  intros Hst Hs Hact. revert Hs. unfold ps_step. destruct (ps_crashed ps); [done|].
  destruct act as [h cs c ok|cs ok|h cs c ok|cs ok|ok|g got]; [..|done].
  1,3: intros [= <-]; unfold Subscribe, PSubscribe; destruct cs as [|c0 cs]; [done|]; destruct h as [h|]; [|done];
    destruct (ensure_client ps c) as [ps1|e|] eqn:Ee; [|done..]; apply ensure_client_keeps in Ee as (E1 & E2 & E3);
    cbn; rewrite E1, E2; done.
  1,2: intros [= <-]; unfold Unsubscribe, PUnsubscribe; destruct (pubsub ps); [destruct ok|]; done.
  intros [= <-]. unfold Close. rewrite Hst. by destruct (isRunning ps).
Qed.

(** A goroutine past the check handles at most one message before it is back. *)
Lemma receiver_keeps ps g got ps' :
  stop_closed ps = true -> receiver_step ps g got = Some ps' ->
  stop_closed ps' = true /\
  ((handled ps' = handled ps /\ forall k r, receivers ps' !! k = Some r -> past r = true ->
      exists r', receivers ps !! k = Some r' /\ past r' = true) \/
   (length (handled ps') = S (length (handled ps)) /\ (exists r, receivers ps !! g = Some r /\ past r = true) /\
      forall k r, receivers ps' !! k = Some r -> past r = true -> k <> g /\ receivers ps !! k = Some r)).
Proof.
  intros Hst. unfold receiver_step. destruct (receivers ps !! g) as [q|] eqn:Hg; [|done].
  assert (forall q', (past q' = true -> past q = true) -> forall k r, <[g := q']> (receivers ps) !! k = Some r -> past r = true ->
      exists r', receivers ps !! k = Some r' /\ past r' = true) as Hi.
  { intros q' Hq' k r [[<- <-]|[_ Hk]]%lookup_insert_Some Hr; [exists q; split; [done|by apply Hq']|by exists r]. }
  destruct q as [| |c|msg|]; try done.
  - intros [= <-]. rewrite Hst. split; [done|]. left. split; [done|]. by apply Hi.
  - destruct (pubsub ps); intros [= <-]; (split; [done|]); left; (split; [done|]); [by apply Hi|]. intros k r Hk Hr. by exists r.
  - destruct got; intros [= <-]; (split; [done|]); left; (split; [done|]); by apply Hi.
  - intros [= <-]. split; [done|]. right. split_and!; [cbn; rewrite length_app; simpl; lia|by eexists|].
    cbn. by intros k r [[<- <-]|[Hk ?]]%lookup_insert_Some.
Qed.

Lemma no_more_messages ps acts ps' :
  stop_closed ps = true -> none_past ps -> ps_run ps acts = Some ps' -> handled ps' = handled ps.
Proof.
  revert ps. induction acts as [|act acts IH]; intros ps Hst Hn; cbn [ps_run]; [by intros [= <-]|].
  destruct (ps_step ps act) as [ps1|] eqn:Hs; [|done]. intros Hr.
  assert (stop_closed ps1 = true /\ handled ps1 = handled ps /\ none_past ps1) as (H1 & H2 & H3); [|rewrite <- H2; by eapply IH].
  assert (forall g r, receivers ps !! g = Some r -> past r = true -> False) as Hno by (intros g r Hg Hp; by rewrite (Hn _ _ Hg) in Hp).
  destruct act as [h cs c ok|cs ok|h cs c ok|cs ok|ok|g got].
  1-5: destruct (operation_keeps _ _ _ Hst Hs eq_refl) as (E1 & E2 & E3); split_and!; [done..|];
    intros k r Hk; destruct (past r) eqn:Hp; [|done]; destruct (Hno k r); eauto.
  unfold ps_step in Hs. destruct (ps_crashed ps); [done|].
  destruct (receiver_keeps _ _ _ _ Hst Hs) as (E1 & [(E2 & E3)|(_ & (r & Hg & Hp) & _)]); [|by destruct (Hno g r)].
  split_and!; [done..|]. intros k r Hk. destruct (past r) eqn:Hp; [|done]. destruct (E3 _ _ Hk Hp) as (r' & Hk' & Hp'). by destruct (Hno k r').
Qed.

Lemma one_more_message ps acts ps' :
  stop_closed ps = true -> one_past ps -> ps_run ps acts = Some ps' -> (length (handled ps') <= S (length (handled ps)))%nat.
Proof.
  revert ps. induction acts as [|act acts IH]; intros ps Hst Ho; cbn [ps_run]; [intros [= <-]; lia|].
  destruct (ps_step ps act) as [ps1|] eqn:Hs; [|done]. intros Hr.
  destruct act as [h cs c ok|cs ok|h cs c ok|cs ok|ok|g got].
  1-5: destruct (operation_keeps _ _ _ Hst Hs eq_refl) as (E1 & <- & E3); apply IH; [done| |done];
    intros g1 g2 r1 r2 H1 H2 P1 P2; eapply Ho; eauto.
  unfold ps_step in Hs. destruct (ps_crashed ps); [done|].
  destruct (receiver_keeps _ _ _ _ Hst Hs) as (E1 & [(<- & E3)|(E2 & (r & Hg & Hp) & E3)]).
  - apply IH; [done| |done]. intros g1 g2 r1 r2 H1 H2 P1 P2. destruct (E3 _ _ H1 P1) as (? & ? & ?), (E3 _ _ H2 P2) as (? & ? & ?).
    by eapply Ho.
  - assert (none_past ps1) as Hnp.
    { intros k q Hk. destruct (past q) eqn:Hq; [|done]. destruct (E3 _ _ Hk Hq) as [Hkg Hk']. destruct Hkg. by eapply Ho. }
    rewrite (no_more_messages _ _ _ E1 Hnp Hr). by rewrite E2.
Qed.

(** Once the service has been closed it is dead: whatever is subscribed
    afterwards, at most one more message is handled, by the goroutine that was
    waiting for one. *)
Theorem pubsub_dead_after_close acts ps acts' ps'
    (Hreach : ps_run NewPubSub acts = Some ps) (Hok : ps_crashed ps = None)
    (Hclosed : stop_closed ps = true) (Hrun : ps_run ps acts' = Some ps') :
  (length (handled ps') <= S (length (handled ps)))%nat.
Proof. eapply one_more_message; [done| |done]. by destruct (pubsub_run_inv _ _ _ ps_inv_new Hreach Hok). Qed.

(** In every run the active channels are those with handlers, a running service
    has a client, and two goroutines never receive at the same time. *)
Theorem pubsub_invariant acts ps (Hreach : ps_run NewPubSub acts = Some ps) (Hok : ps_crashed ps = None) :
  activeChannels ps = dom (handlers ps) /\ (isRunning ps = true -> is_Some (pubsub ps)) /\ one_past ps.
Proof. by destruct (pubsub_run_inv _ _ _ ps_inv_new Hreach Hok). Qed.

(** A closed service that is subscribed to again looks alive, and closing it
    again ends the program. *)
Theorem pubsub_reopen_panics acts ps h channels client ok1 ok2
    (Hreach : ps_run NewPubSub acts = Some ps) (Hok : ps_crashed ps = None)
    (Hclosed : stop_closed ps = true) (Hclient : pubsub ps = None) (Hchannels : channels <> []) :
  let ps' := (Subscribe ps (Some h) channels (Some client) ok1).1 in
  isRunning ps' = true /\ (Close ps' ok2).2 = Panic.
Proof.
  destruct (pubsub_run_inv _ _ _ ps_inv_new Hreach Hok) as [_ Hc _ _ _ _].
  assert (isRunning ps = false) as Hr by (destruct (isRunning ps); [destruct (Hc eq_refl); congruence|done]).
  unfold Subscribe, ensure_client. destruct channels as [|c channels]; [done|]. rewrite Hclient.
  unfold startMessageLoop. cbn [isRunning set_client]. rewrite Hr. cbn. unfold Close. cbn. by rewrite Hclosed.
Qed.

(** When the client cannot be closed the service is stuck: later calls of
    [Close] do nothing and report success, the client and the handlers stay, and
    subscriptions start no goroutine. *)
Theorem pubsub_failed_close_stuck acts ps
    (Hreach : ps_run NewPubSub acts = Some ps) (Hok : ps_crashed ps = None)
    (Hrunning : isRunning ps = true) (Hopen : stop_closed ps = false) :
  let ps' := (Close ps false).1 in
  (Close ps false).2 = Fail ErrCloseClient /\ pubsub ps' = pubsub ps /\ handlers ps' = handlers ps /\
  (forall ok, Close ps' ok = (ps', Ret tt)) /\
  forall h channels client ok, receivers (Subscribe ps' h channels client ok).1 = receivers ps'.
Proof.
  destruct (pubsub_run_inv _ _ _ ps_inv_new Hreach Hok) as [_ Hc _ _ _ _]. destruct (Hc Hrunning) as [c Hcl].
  assert (Close ps false = (set_running ps false true, Fail ErrCloseClient)) as E.
  { unfold Close. rewrite Hrunning, Hopen. cbn [pubsub set_running]. by rewrite Hcl. }
  intros ps'. subst ps'. rewrite E. cbn [fst snd]. split_and!; [done..|].
  intros h channels client ok. unfold Subscribe, ensure_client. cbn [pubsub set_running]. rewrite Hcl.
  by destruct channels, h.
Qed.
End closing.

(** ** Delivery *)

Section delivery.
Context {H : Type} `{EqDecision H}.
Implicit Types (ps : RedisPubSub H).

(** The messages Redis sends for one publication to a client that has subscribed to
    the channel and to [patterns]: one for the channel and one for each pattern that
    matches. *)
Definition publication (matches : string -> bool) (patterns : list string) (channel : string) (payload : list byte) :
    list redis_Message :=
  MkMsg channel "" payload :: ((fun p => MkMsg channel p payload) <$> filter (fun p => Is_true (matches p)) patterns).

(** How often a handler is registered. *)
Definition times (h : H) (l : list H) : nat := length (filter (fun x => x = h) l).

Definition started_times (h : H) (channel : string) (payload : list byte) (l : list (H * string * list byte)) : nat :=
  length (filter (fun x => x = (h, channel, payload)) l).

Lemma started_times_map h channel payload (l : list H) :
  started_times h channel payload ((fun x => (x, channel, payload)) <$> l) = times h l.
Proof.
  unfold started_times, times. induction l as [|x l IH]; [done|]. rewrite fmap_cons, !filter_cons.
  destruct (decide (x = h)) as [-> |Hx]; [rewrite !decide_True by done; simpl; by rewrite IH|].
  rewrite !decide_False by congruence. done.
Qed.

Lemma started_times_app h channel payload l1 l2 :
  started_times h channel payload (l1 ++ l2) = (started_times h channel payload l1 + started_times h channel payload l2)%nat.
Proof. unfold started_times. by rewrite filter_app, length_app. Qed.

(** A publication starts a handler of the channel once for the channel and once
    more for every pattern that matches, besides the handlers of the patterns.  The
    payload is the text that was published. *)
Theorem pubsub_deliveries ps matches patterns channel message ok h
    (Hpatterns : Forall (fun p => p <> ""%string) patterns) :
  let payload := (Publish channel message ok).1.2 in
  let matching := filter (fun p => Is_true (matches p)) patterns in
  started_times h channel payload (concat (starts ps <$> publication matches patterns channel payload)) =
  (S (length matching) * times h (default [] (handlers ps !! channel)) +
   sum_list ((fun p => times h (default [] (patternHandlers ps !! p))) <$> matching))%nat.
Proof.
  intros payload matching. unfold publication. fold matching. rewrite fmap_cons. cbn [concat]. rewrite started_times_app.
  assert (forall p, started_times h channel payload (starts ps (MkMsg channel p payload)) =
    (times h (default [] (handlers ps !! channel)) +
     if decide (p = ""%string) then 0 else times h (default [] (patternHandlers ps !! p)))%nat) as Hone.
  { intros p. unfold starts. cbn [Channel Pattern Payload]. rewrite started_times_app, started_times_map. f_equal.
    destruct (decide _); [done|apply started_times_map]. }
  rewrite Hone, decide_True by done.
  assert (Forall (fun p => p <> ""%string) matching) as Hm.
  { apply Forall_forall. intros p [_ Hp]%list_elem_of_filter. rewrite Forall_forall in Hpatterns. by apply Hpatterns. }
  assert (started_times h channel payload (concat (starts ps <$> ((fun p => MkMsg channel p payload) <$> matching))) =
    (length matching * times h (default [] (handlers ps !! channel)) +
     sum_list ((fun p => times h (default [] (patternHandlers ps !! p))) <$> matching))%nat) as ->; [|lia].
  induction Hm as [|p l Hp _ IH]; [done|]. rewrite !fmap_cons. cbn [concat sum_list length]. rewrite started_times_app, Hone, decide_False, IH by done. simpl. lia.
Qed.

(** A subscription that fails leaves its handlers behind; repeated with success
    it registers them a second time. *)
Theorem pubsub_failed_subscribe_doubles ps h channels c client client2
    (Hchannels : NoDup channels) (Hc : c ∈ channels) (Hclient : is_Some (pubsub ps)) :
  let r1 := Subscribe ps (Some h) channels client false in
  let r2 := Subscribe r1.1 (Some h) channels client2 true in
  r1.2 = Fail ErrSubscribe /\ r2.2 = Ret tt /\
  default [] (handlers r2.1 !! c) = default [] (handlers ps !! c) ++ [h; h] /\ c ∈ activeChannels r1.1.
Proof.
  assert (forall act, c ∈ add_active act channels) as Hact.
  { clear -Hc. assert (forall act, c ∈ act \/ c ∈ channels -> c ∈ add_active act channels) as Hx; [|auto]. clear Hc.
    induction channels as [|d l IH]; intros act Hx; cbn [add_active]; [by destruct Hx as [|?%elem_of_nil]|].
    apply IH. destruct Hx as [|[-> |]%elem_of_cons]; set_solver. }
  destruct Hclient as [k Hk]. unfold Subscribe at 1, ensure_client. rewrite Hk. destruct channels as [|d l]; [by apply elem_of_nil in Hc|].
  cbn [fst snd]. unfold Subscribe, ensure_client. cbn [pubsub set_tables]. rewrite Hk. cbn [fst snd handlers activeChannels set_tables].
  split_and!; [done..| |apply Hact]. rewrite !lookup_add_handlers, decide_True by done. by rewrite <- app_assoc.
Qed.
End delivery.

(** ** Witnesses *)

Definition closed_run : list (ps_action nat) :=
  [DoSubscribe (Some 1%nat) ["a"%string] (Some 0%nat) true; DoReceive 0 None; DoReceive 0 None; DoClose true].

Definition ps_after (acts : list (ps_action nat)) : RedisPubSub nat := default NewPubSub (ps_run NewPubSub acts).

Definition late_run : list (ps_action nat) :=
  [DoSubscribe (Some 2%nat) ["a"%string] (Some 1%nat) true; DoReceive 0 (Some (MkMsg "a" "" [])); DoReceive 0 None; DoReceive 1 None].

Lemma pubsub_dead_after_close_witness :
  (length (handled (ps_after (closed_run ++ late_run))) <= 1)%nat /\ started (ps_after (closed_run ++ late_run)) = [(2%nat, "a"%string, [])].
Proof.
  split; [|vm_compute; reflexivity].
  apply (pubsub_dead_after_close closed_run (ps_after closed_run) late_run); vm_compute; reflexivity.
Defined.

Lemma pubsub_invariant_witness : activeChannels (ps_after closed_run) = dom (handlers (ps_after closed_run)).
Proof. apply (pubsub_invariant closed_run); vm_compute; reflexivity. Defined.

Lemma pubsub_reopen_panics_witness :
  (Close (Subscribe (ps_after closed_run) (Some 2%nat) ["a"%string] (Some 1%nat) true).1 true).2 = Panic.
Proof.
  apply (pubsub_reopen_panics closed_run); [vm_compute; reflexivity..|discriminate].
Defined.

Lemma pubsub_failed_close_stuck_witness :
  let ps := ps_after [DoSubscribe (Some 1%nat) ["a"%string] (Some 0%nat) true] in
  (Close ps false).2 = Fail ErrCloseClient /\ forall ok, Close (Close ps false).1 ok = ((Close ps false).1, Ret tt).
Proof.
  intros ps.
  destruct (pubsub_failed_close_stuck [DoSubscribe (Some 1%nat) ["a"%string] (Some 0%nat) true] ps) as (H1 & _ & _ & H2 & _);
    [vm_compute; reflexivity..|]. split; [exact H1|exact H2].
Defined.

Definition both_run : list (ps_action nat) :=
  [DoSubscribe (Some 1%nat) ["a"%string] (Some 0%nat) true; DoPSubscribe (Some 2%nat) ["a*"%string] None true].

Lemma pubsub_deliveries_witness :
  started_times 1%nat "a" [] (concat (starts (ps_after both_run) <$> publication (fun _ => true) ["a*"%string] "a" [])) = 2%nat.
Proof.
  rewrite (pubsub_deliveries (ps_after both_run) (fun _ => true) ["a*"%string] "a" (PubString []) true 1%nat);
    [vm_compute; reflexivity|]. apply Forall_singleton. discriminate.
Defined.

Lemma pubsub_failed_subscribe_doubles_witness :
  default [] (handlers (Subscribe (Subscribe (ps_after both_run) (Some 5%nat) ["b"%string] None false).1
    (Some 5%nat) ["b"%string] None true).1 !! "b"%string) = [5%nat; 5%nat].
Proof.
  destruct (pubsub_failed_subscribe_doubles (ps_after both_run) 5%nat ["b"%string] "b" None None) as (_ & _ & H & _).
  - apply NoDup_singleton.
  - left.
  - vm_compute. by eexists.
  - exact H.
Defined.
