(* ===== verification/NetServer.v ===== *)
(** * The game server's clients ([pkg/network/server.go], [message_handler.go])

    The table of clients with its lock, the queues of the clients, the dispatch of
    messages and the handlers of the five kinds of requests.  [Stop],
    [checkHeartbeats] and [Broadcast] call [Close] of a client with the lock held,
    and [Close] takes the lock: an operation can therefore block for good.  An
    operation that blocks keeps what it holds, so the server is marked [stuck] and
    every later operation that needs the lock blocks as well.  [Close] by the
    goroutines of a client is two steps, since it waits for the lock in the middle.
    Protocol buffers are a class; the clock is a sequence of readings. *)

From stdpp Require Import base gmap strings numbers list pretty.
From Stdlib Require Import ZArith Lia SpecFloat.
From S2P Require Import Prelude Float32.

Local Open Scope Z_scope.

(** ** Messages *)

Record MessageHeader := MkHeader {
  MsgId : Z;
  Timestamp : Z;
  SessionId : string;
  Version : Z;
  ResultCode : Z;
  ResultMsg : string
}.

Record pb_Position := MkPosition { X : float32; Y : float32; Z_ : float32 }.

Record UserInfo := MkUserInfo {
  ui_UserId : string; ui_Username : string; ui_Nickname : string; ui_Level : Z; ui_Exp : Z; ui_VipLevel : Z;
  ui_LastLoginTime : Z; ui_CreatedTime : Z
}.

Record ServerInfo := MkServerInfo {
  si_ServerId : string; si_ServerName : string; si_ServerStatus : Z; si_ServerAddress : string; si_ServerPort : Z;
  si_OnlineCount : Z; si_MaxOnlineCount : Z
}.

Record BuffEffect := MkBuff { BuffId : Z; BuffName : string; Duration : Z; Stacks : Z }.

Record CombatResult := MkCombatResult {
  cr_TargetId : string; cr_Hit : bool; cr_Critical : bool; cr_Damage : Z; cr_RemainingHp : Z; cr_BuffEffects : list BuffEffect
}.

Record EntityPosition := MkEntity {
  en_EntityId : string; en_EntityType : string; en_Position : pb_Position; en_Rotation : float32; en_Velocity : pb_Position
}.

(** The fields of the requests that the handlers use. *)
Record LoginRequest := MkLogin { lr_Header : option MessageHeader; lr_Username : string }.
Record HeartbeatRequest := MkHeartbeat { hr_Header : option MessageHeader }.
Record PositionSyncRequest := MkPositionSync {
  pr_Header : option MessageHeader; pr_EntityId : string; pr_Position : option pb_Position
}.
Record ChatRequest := MkChat {
  ch_Header : option MessageHeader; ch_SenderId : string; ch_SenderName : string; ch_Content : string;
  ch_ChatType : Z; ch_TargetId : string; ch_ChannelId : string
}.
Record CombatCommandRequest := MkCombat {
  co_Header : option MessageHeader; co_AttackerId : string; co_TargetId : string; co_SkillId : Z
}.

(** The messages the server sends. *)
Inductive pb_message :=
  | LoginResponse (Header : MessageHeader) (UserId Token : string) (info : UserInfo) (server : ServerInfo)
  | HeartbeatResponse (Header : MessageHeader) (ServerTime : Z)
  | PositionSyncResponse (Header : MessageHeader) (Success : bool) (NearbyEntities : list EntityPosition)
  | ChatResponse (Header : MessageHeader) (Delivered : bool) (MessageId : Z) (ts : Z)
  | ChatBroadcast (request : ChatRequest)
  | CombatCommandResponse (Header : MessageHeader) (Success : bool) (Results : list CombatResult).

(** [proto.Unmarshal] and [proto.Marshal] at the types in use; [None] is an error. *)
Class Proto := {
  Unmarshal_Login : list byte -> option LoginRequest;
  Unmarshal_Heartbeat : list byte -> option HeartbeatRequest;
  Unmarshal_PositionSync : list byte -> option PositionSyncRequest;
  Unmarshal_Chat : list byte -> option ChatRequest;
  Unmarshal_Combat : list byte -> option CombatCommandRequest;
  Marshal : pb_message -> option (list byte)
}.

Definition LOGIN_REQUEST : Z := 1001.
Definition LOGIN_RESPONSE : Z := 1002.
Definition HEARTBEAT_REQUEST : Z := 2001.
Definition HEARTBEAT_RESPONSE : Z := 2002.
Definition POSITION_SYNC_REQUEST : Z := 3001.
Definition POSITION_SYNC_RESPONSE : Z := 3002.
Definition CHAT_REQUEST : Z := 4001.
Definition CHAT_RESPONSE : Z := 4002.
Definition COMBAT_COMMAND_REQUEST : Z := 5001.
Definition COMBAT_COMMAND_RESPONSE : Z := 5002.
Definition ChatType_WORLD : Z := 0.
Definition ChatType_PRIVATE : Z := 1.

(** ** Clients and server *)

(** [Send]: what is in the channel.  [closing]: some goroutine is in [Close] with
    [closeMutex]. *)
Record Client := MkClient {
  ID : string;
  conn : nat;
  Send : list (list byte);
  closed : bool;
  closing : bool;
  lastPing : Z
}.

Inductive net_event :=
  | ConnClosed (conn : nat)
  | FrameWritten (conn : nat) (data : list byte).

Inductive handler := HLogin | HHeartbeat | HPositionSync | HChat | HCombatCommand.

Inductive NetError := ErrSendFull | ErrUnmarshal | ErrMarshal.

Record Server := MkServer {
  clients : gmap string nat;
  objects : gmap nat Client;
  handlers : gmap Z handler;
  stuck : bool;
  events : list net_event
}.

Definition NewServer : Server := MkServer ∅ ∅ ∅ false [].

Definition set_clients (s : Server) (m : gmap string nat) : Server := MkServer m (objects s) (handlers s) (stuck s) (events s).
Definition set_object (s : Server) (a : nat) (c : Client) : Server :=
  MkServer (clients s) (<[a := c]> (objects s)) (handlers s) (stuck s) (events s).
Definition set_stuck (s : Server) : Server := MkServer (clients s) (objects s) (handlers s) true (events s).
Definition emit (s : Server) (e : net_event) : Server := MkServer (clients s) (objects s) (handlers s) (stuck s) (events s ++ [e]).

Definition set_Send (c : Client) (q : list (list byte)) : Client := MkClient (ID c) (conn c) q (closed c) (closing c) (lastPing c).
Definition set_lastPing (c : Client) (now : Z) : Client := MkClient (ID c) (conn c) (Send c) (closed c) (closing c) now.
Definition set_closing (c : Client) (cl b : bool) : Client := MkClient (ID c) (conn c) (Send c) cl b (lastPing c).

Definition RegisterHandler (s : Server) (msgID : Z) (h : handler) : Server :=
  MkServer (clients s) (objects s) (<[msgID := h]> (handlers s)) (stuck s) (events s).

Definition NewMessageProcessor (s : Server) : Server :=
  let s := RegisterHandler s LOGIN_REQUEST HLogin in
  let s := RegisterHandler s HEARTBEAT_REQUEST HHeartbeat in
  let s := RegisterHandler s POSITION_SYNC_REQUEST HPositionSync in
  let s := RegisterHandler s CHAT_REQUEST HChat in
  RegisterHandler s COMBAT_COMMAND_REQUEST HCombatCommand.

Definition Send_capacity : nat := 256.

(** [generateID] *)
Definition generateID (nano : Z) : string := pretty nano.

(** [newClientFromWS]; [None] when it blocks. *)
Definition newClientFromWS (s : Server) (c : nat) (nano now : Z) : option (Server * nat) :=
  let a := fresh (dom (objects s)) in
  let s := set_object s a (MkClient (generateID nano) c [] false false now) in
  if stuck s then None else Some (set_clients s (<[generateID nano := a]> (clients s)), a).

(** A non-blocking send. *)
Definition SendMessage (s : Server) (a : nat) (message : list byte) : Server * outcome NetError unit :=
  match objects s !! a with
  | None => (s, Panic)
  | Some c =>
      if (length (Send c) <? Send_capacity)%nat then (set_object s a (set_Send c (Send c ++ [message])), Ret tt)
      else (s, Fail ErrSendFull)
  end.

(** *** Close *)

(** [Close] up to the lock of the table: [closeMutex], the flag, the connection. *)
Definition close_begin (s : Server) (a : nat) (c : Client) : Server :=
  emit (set_object s a (set_closing c true true)) (ConnClosed (conn c)).

(** The rest of [Close], once the lock is free. *)
Definition close_end (s : Server) (a : nat) (c : Client) : Server :=
  set_object (set_clients s (delete (ID c) (clients s))) a (set_closing c (closed c) false).

(** [Close] by a goroutine that has the table's lock.  It returns only for a client
    that is closed already; [false] when it blocks, on [closeMutex] or on the lock. *)
Definition close_locked (s : Server) (a : nat) : Server * bool :=
  match objects s !! a with
  | None => (s, true)
  | Some c =>
      if closing c then (set_stuck s, false)
      else if closed c then (s, true)
      else (set_stuck (close_begin s a c), false)
  end.

(** *** The operations that take the lock; [order] is the order of the table. *)

Fixpoint stop_clients (s : Server) (order : list (string * nat)) : Server * bool :=
  match order with
  | [] => (s, true)
  | (_, a) :: rest =>
      match close_locked s a with
      | (s, true) => stop_clients s rest
      | (s, false) => (s, false)
      end
  end.

(** [Stop] from the moment it asks for the lock. *)
Definition Stop (s : Server) (order : list (string * nat)) : Server * bool :=
  if stuck s then (s, false) else stop_clients s order.

Fixpoint broadcast_clients (s : Server) (message : list byte) (order : list (string * nat)) : Server * bool :=
  match order with
  | [] => (s, true)
  | (_, a) :: rest =>
      match SendMessage s a message with
      | (s, Ret _) => broadcast_clients s message rest
      | (s, _) =>
          match close_locked s a with
          | (s, true) => broadcast_clients s message rest
          | (s, false) => (s, false)
          end
      end
  end.

(** One step with respect to the queues: the code holds the lock of the table for reading
    only, so that writers and senders may come in between two clients. *)
Definition Broadcast (s : Server) (message : list byte) (order : list (string * nat)) : Server * bool :=
  if stuck s then (s, false) else broadcast_clients s message order.

Definition heartbeat_timeout (HeartbeatIntervalSec : Z) : Z := int64 (int64 (HeartbeatIntervalSec * 2) * 1000000000).

Fixpoint heartbeat_clients (s : Server) (timeout now : Z) (order : list (string * nat)) : Server * bool :=
  match order with
  | [] => (s, true)
  | (id, a) :: rest =>
      match objects s !! a with
      | None => heartbeat_clients s timeout now rest
      | Some c =>
          if now - lastPing c >? timeout then
            match close_locked s a with
            | (s, true) => heartbeat_clients (set_clients s (delete id (clients s))) timeout now rest
            | (s, false) => (s, false)
            end
          else heartbeat_clients s timeout now rest
      end
  end.

Definition checkHeartbeats (s : Server) (HeartbeatIntervalSec now : Z) (order : list (string * nat)) : Server * bool :=
  if stuck s then (s, false) else heartbeat_clients s (heartbeat_timeout HeartbeatIntervalSec) now order.

(** ** The goroutines of a client *)

(** The period of the ticker of [writePump]: [time.NewTicker] panics when it is not
    positive. *)
Definition ping_ticker (HeartbeatIntervalSec : Z) : outcome NetError Z :=
  let d := int64 (Z.quot HeartbeatIntervalSec 2 * 1000000000) in
  if d <=? 0 then Panic else Ret d.

(** [writePump] takes a message from the queue and puts those that are queued behind
    it into the same frame; [ok]: the frame can be written.  [None] when the queue
    is empty. *)
Definition write_pump (s : Server) (a : nat) (ok : bool) : option (Server * bool) :=
  match objects s !! a with
  | Some c =>
      match Send c with
      | [] => None
      | message :: queued =>
          let s := set_object s a (set_Send c []) in
          Some (if ok then emit s (FrameWritten (conn c) (message ++ concat queued)) else s, ok)
      end
  | None => None
  end.

(** [int32(message[0])<<24 | int32(message[1])<<16 | int32(message[2])<<8 | int32(message[3])] *)
Definition message_id (message : list byte) : Z :=
  match message with
  | b0 :: b1 :: b2 :: b3 :: _ =>
      Z.lor (Z.lor (Z.lor (swrap 32 (Z.shiftl (byte_val b0) 24)) (Z.shiftl (byte_val b1) 16)) (Z.shiftl (byte_val b2) 8))
        (byte_val b3)
  | _ => 0
  end.

Definition intToBytes (val : Z) : list byte := be_put 4 (uwrap 32 val).

Section processor.
Context `{Proto}.
(** The readings of the clock, in nanoseconds. *)
Context (clock : nat -> Z).

Definition millis (nano : Z) : Z := Z.quot nano 1000000.
Definition seconds (nano : Z) : Z := Z.quot nano 1000000000.

(** A nil header is dereferenced. *)
Definition createResponseHeader (reqHeader : option MessageHeader) (msgID : Z) : outcome NetError MessageHeader :=
  match reqHeader with
  | None => Panic
  | Some h => Ret (MkHeader msgID (millis (clock 0)) (SessionId h) (Version h) 0 "success")
  end.

Definition unmarshal {A} (f : list byte -> option A) (message : list byte) : outcome NetError A :=
  data ← Prelude.slice 4 (length message) message;
  match f data with Some r => Ret r | None => Fail ErrUnmarshal end.

Definition marshal (m : pb_message) : outcome NetError (list byte) :=
  match Marshal m with Some data => Ret data | None => Fail ErrMarshal end.

Definition server_info : ServerInfo := MkServerInfo "server_1" "Game Server 1" 1 "127.0.0.1" 8080 100 1000.

Definition login_response (request : LoginRequest) : outcome NetError pb_message :=
  header ← createResponseHeader (lr_Header request) LOGIN_RESPONSE;
  Ret (LoginResponse header ("user_" +:+ lr_Username request) ("mock_token_" +:+ lr_Username request)
         (MkUserInfo ("user_" +:+ lr_Username request) (lr_Username request) ("Player_" +:+ lr_Username request) 1 0 0
            (seconds (clock 1)) (seconds (clock 2)))
         server_info).

Definition heartbeat_response (request : HeartbeatRequest) : outcome NetError pb_message :=
  header ← createResponseHeader (hr_Header request) HEARTBEAT_RESPONSE;
  Ret (HeartbeatResponse header (millis (clock 1))).

Definition ten : float32 := f32_of_int 10.
Definition zero : float32 := f32_of_int 0.

Definition position_response (request : PositionSyncRequest) : outcome NetError pb_message :=
  match pr_Position request with
  | None => Panic
  | Some p =>
      header ← createResponseHeader (pr_Header request) POSITION_SYNC_RESPONSE;
      Ret (PositionSyncResponse header true
             [MkEntity "npc_1" "npc" (MkPosition (f32_add (X p) ten) (Y p) (f32_add (Z_ p) ten)) zero (MkPosition zero zero zero)])
  end.

Definition chat_response (request : ChatRequest) : outcome NetError pb_message :=
  header ← createResponseHeader (ch_Header request) CHAT_RESPONSE;
  Ret (ChatResponse header true (clock 1) (seconds (clock 2))).

Definition combat_response (request : CombatCommandRequest) : outcome NetError pb_message :=
  header ← createResponseHeader (co_Header request) COMBAT_COMMAND_RESPONSE;
  Ret (CombatCommandResponse header true [MkCombatResult (co_TargetId request) true false 100 900 [MkBuff 1 "Bleed" 5 1]]).

(** [None]: the handler does not return. *)
Definition reply (s : Server) (a : nat) (msgID : Z) (response : outcome NetError pb_message) : Server * option (outcome NetError unit) :=
  match response ≫= marshal with
  | Ret data => let '(s, o) := SendMessage s a (intToBytes msgID ++ data) in (s, Some o)
  | Fail e => (s, Some (Fail e))
  | Panic => (s, Some Panic)
  end.

Definition HandleLoginRequest (s : Server) (a : nat) (message : list byte) : Server * option (outcome NetError unit) :=
  reply s a LOGIN_RESPONSE (unmarshal Unmarshal_Login message ≫= login_response).

Definition HandleHeartbeatRequest (s : Server) (a : nat) (message : list byte) : Server * option (outcome NetError unit) :=
  match unmarshal Unmarshal_Heartbeat message ≫= heartbeat_response with
  | Ret response =>
      match objects s !! a with
      | None => (s, Some Panic)
      | Some c => reply (set_object s a (set_lastPing c (clock 2))) a HEARTBEAT_RESPONSE (Ret response)
      end
  | Fail e => (s, Some (Fail e))
  | Panic => (s, Some Panic)
  end.

Definition HandlePositionSyncRequest (s : Server) (a : nat) (message : list byte) : Server * option (outcome NetError unit) :=
  reply s a POSITION_SYNC_RESPONSE (unmarshal Unmarshal_PositionSync message ≫= position_response).

Definition HandleChatRequest (s : Server) (a : nat) (message : list byte) (order : list (string * nat)) :
    Server * option (outcome NetError unit) :=
  match unmarshal Unmarshal_Chat message with
  | Ret request =>
      match chat_response request with
      | Ret response =>
          if decide (ch_ChatType request = ChatType_WORLD) then
            match marshal (ChatBroadcast request) with
            | Ret data =>
                match Broadcast s (intToBytes CHAT_REQUEST ++ data) order with
                | (s, true) => reply s a CHAT_RESPONSE (Ret response)
                | (s, false) => (s, None)
                end
            | Fail e => (s, Some (Fail e))
            | Panic => (s, Some Panic)
            end
          else reply s a CHAT_RESPONSE (Ret response)
      | Fail e => (s, Some (Fail e))
      | Panic => (s, Some Panic)
      end
  | Fail e => (s, Some (Fail e))
  | Panic => (s, Some Panic)
  end.

Definition HandleCombatCommandRequest (s : Server) (a : nat) (message : list byte) : Server * option (outcome NetError unit) :=
  reply s a COMBAT_COMMAND_RESPONSE (unmarshal Unmarshal_Combat message ≫= combat_response).

Definition run_handler (s : Server) (h : handler) (a : nat) (message : list byte) (order : list (string * nat)) :
    Server * option (outcome NetError unit) :=
  match h with
  | HLogin => HandleLoginRequest s a message
  | HHeartbeat => HandleHeartbeatRequest s a message
  | HPositionSync => HandlePositionSyncRequest s a message
  | HChat => HandleChatRequest s a message order
  | HCombatCommand => HandleCombatCommandRequest s a message
  end.

(** What becomes of the goroutine that reads: it goes on, it panics (and with it
    the program), or it blocks. *)
Inductive next := Continues | Panics | Blocks.

(** Errors of the handlers are logged. *)
Definition handleMessage (s : Server) (a : nat) (message : list byte) (order : list (string * nat)) : Server * next :=
  if (length message <? 4)%nat then (s, Continues)
  else
    match handlers s !! message_id message with
    | None => (s, Continues)
    | Some h =>
        match run_handler s h a message order with
        | (s, Some Panic) => (s, Panics)
        | (s, Some _) => (s, Continues)
        | (s, None) => (s, Blocks)
        end
    end.
End processor.

(** ** Runs *)

Inductive net_action :=
  | NConnect (conn : nat) (nano now : Z)
  | NCloseBegin (a : nat)
  | NCloseEnd (a : nat)
  | NStop (order : list (string * nat))
  | NBroadcast (message : list byte) (order : list (string * nat))
  | NHeartbeats (interval now : Z) (order : list (string * nat))
  | NSend (a : nat) (message : list byte)
  | NWrite (a : nat) (ok : bool)
  | NMessage (clock : nat -> Z) (a : nat) (message : list byte) (order : list (string * nat)).

Section runs.
Context `{Proto}.

(** [None] when the action waits for something, or when the program has ended. *)
Definition net_step (s : Server) (act : net_action) : option Server :=
  match act with
  | NConnect c nano now => fst <$> newClientFromWS s c nano now
  | NCloseBegin a =>
      match objects s !! a with
      | Some c => if closing c then None else if closed c then Some s else Some (close_begin s a c)
      | None => None
      end
  | NCloseEnd a =>
      match objects s !! a with
      | Some c => if closing c && negb (stuck s) then Some (close_end s a c) else None
      | None => None
      end
  | NStop order => if stuck s then None else Some (Stop s order).1
  | NBroadcast m order => if stuck s then None else Some (Broadcast s m order).1
  | NHeartbeats i now order => if stuck s then None else Some (checkHeartbeats s i now order).1
  | NSend a m => match objects s !! a with Some _ => Some (SendMessage s a m).1 | None => None end
  | NWrite a ok => fst <$> write_pump s a ok
  | NMessage clock a m order =>
      match handleMessage clock s a m order with (s, Panics) => None | (s, _) => Some s end
  end.

Fixpoint net_run (s : Server) (acts : list net_action) : option Server :=
  match acts with
  | [] => Some s
  | act :: rest => match net_step s act with Some s => net_run s rest | None => None end
  end.

(** An entry of the table is a client that is open or whose [Close] waits for the
    lock. *)
Definition entries_live (s : Server) : Prop :=
  forall id a, clients s !! id = Some a ->
    exists c, objects s !! a = Some c /\ ID c = id /\ (closing c = true \/ closed c = false).

Definition net_inv (s : Server) : Prop := stuck s = false -> entries_live s.

(** Changes that leave the identity and the state of every client alone. *)
Definition same_clients (s s' : Server) : Prop :=
  clients s' = clients s /\ stuck s' = stuck s /\ handlers s' = handlers s /\
  forall a c, objects s !! a = Some c -> exists c', objects s' !! a = Some c' /\
    ID c' = ID c /\ closing c' = closing c /\ closed c' = closed c.

#[local] Instance same_clients_preorder : PreOrder same_clients.
Proof.
  split; [intros s; split_and!; [done..|]; intros a c Hc; by exists c|].
  intros s1 s2 s3 (E1 & E2 & E3 & E4) (F1 & F2 & F3 & F4). split_and!; [congruence..|]. intros a c Hc.
  destruct (E4 _ _ Hc) as (c2 & Hc2 & ? & ? & ?). destruct (F4 _ _ Hc2) as (c3 & Hc3 & ? & ? & ?). exists c3. split_and!; congruence.
Qed.

Lemma same_clients_inv s s' : same_clients s s' -> net_inv s -> net_inv s'.
Proof.
  intros (E1 & E2 & _ & E4) Hi Hs id a Ha. rewrite E1 in Ha. rewrite E2 in Hs. destruct (Hi Hs _ _ Ha) as (c & Hc & Hid & Hcl).
  destruct (E4 _ _ Hc) as (c' & Hc' & F1 & F2 & F3). exists c'. by rewrite F1, F2, F3.
Qed.

Lemma set_object_same s a c c' :
  objects s !! a = Some c -> ID c' = ID c -> closing c' = closing c -> closed c' = closed c -> same_clients s (set_object s a c').
Proof.
  intros Hc E1 E2 E3. split_and!; [done..|]. intros b d Hd. simpl. destruct (decide (a = b)) as [-> |Hab].
  - exists c'. rewrite lookup_insert_eq. by simplify_eq.
  - exists d. by rewrite lookup_insert_ne.
Qed.

Lemma SendMessage_same s a m : same_clients s (SendMessage s a m).1.
Proof.
  unfold SendMessage. destruct (objects s !! a) as [c|] eqn:Hc; [|reflexivity]. destruct (_ <? _)%nat; [|reflexivity].
  by eapply set_object_same.
Qed.

(** With the lock held a live client cannot be closed. *)
Lemma close_locked_live s a c :
  objects s !! a = Some c -> closing c = true \/ closed c = false ->
  (close_locked s a).2 = false /\ stuck (close_locked s a).1 = true.
Proof.
  intros Hc Hl. unfold close_locked. rewrite Hc. destruct (closing c); [done|]. destruct (closed c); [|done]. by destruct Hl.
Qed.

Lemma close_locked_cases s a :
  close_locked s a = (s, true) \/ ((close_locked s a).2 = false /\ stuck (close_locked s a).1 = true).
Proof.
  unfold close_locked. destruct (objects s !! a) as [c|]; [|by left]. destruct (closing c); [by right|]. destruct (closed c); [by left|by right].
Qed.

Lemma stop_clients_cases s order :
  stop_clients s order = (s, true) \/ ((stop_clients s order).2 = false /\ stuck (stop_clients s order).1 = true).
Proof.
  revert s. induction order as [|[id a] order IH]; intros s; [by left|]. cbn [stop_clients].
  destruct (close_locked_cases s a) as [-> |[E1 E2]]; [apply IH|]. destruct (close_locked s a) as [s' []]; [done|]. by right.
Qed.

Lemma broadcast_clients_cases s m order :
  ((broadcast_clients s m order).2 = true /\ same_clients s (broadcast_clients s m order).1) \/
  ((broadcast_clients s m order).2 = false /\ stuck (broadcast_clients s m order).1 = true).
Proof.
  revert s. induction order as [|[id a] order IH]; intros s; [by left|]. cbn [broadcast_clients].
  pose proof (SendMessage_same s a m) as Hs. destruct (SendMessage s a m) as [s1 o]. simpl in Hs.
  assert (((broadcast_clients s1 m order).2 = true /\ same_clients s (broadcast_clients s1 m order).1) \/
    ((broadcast_clients s1 m order).2 = false /\ stuck (broadcast_clients s1 m order).1 = true)) as Hrest.
  { destruct (IH s1) as [[E1 E2]|]; [left; split; [done|by etrans]|by right]. }
  destruct o as [u|e|]; [done|..]; destruct (close_locked_cases s1 a) as [-> |[E1 E2]]; try done;
    destruct (close_locked s1 a) as [s2 []]; try done; by right.
Qed.

Lemma heartbeat_clients_inv s timeout now order :
  net_inv s -> net_inv (heartbeat_clients s timeout now order).1.
Proof.
  revert s. induction order as [|[id a] order IH]; intros s Hi; [done|]. cbn [heartbeat_clients].
  destruct (objects s !! a) as [c|]; [|by apply IH]. destruct (_ >? _); [|by apply IH].
  destruct (close_locked_cases s a) as [-> |[E1 E2]].
  - apply IH. intros Hs k b. simpl. intros [_ Hb]%lookup_delete_Some. by apply (Hi Hs).
  - destruct (close_locked s a) as [s' []]; [done|]. simpl in *. intros Hs. congruence.
Qed.

Lemma stuck_inv s : stuck s = true -> net_inv s.
Proof. intros Hs Hf. congruence. Qed.

Lemma Broadcast_cases s m order :
  ((Broadcast s m order).2 = true /\ same_clients s (Broadcast s m order).1) \/
  ((Broadcast s m order).2 = false /\ stuck (Broadcast s m order).1 = true).
Proof. unfold Broadcast. destruct (stuck s) eqn:Hs; [by right|apply broadcast_clients_cases]. Qed.

Lemma reply_same s a id r : same_clients s (reply s a id r).1.
Proof.
  unfold reply. destruct (r ≫= marshal) as [data|e|]; [|reflexivity..].
  pose proof (SendMessage_same s a (intToBytes id ++ data)) as Hs. by destruct (SendMessage s a _).
Qed.

(** A handler changes queues and times only, or gets stuck. *)
Lemma run_handler_cases clock s h a m order :
  same_clients s (run_handler clock s h a m order).1 \/
  ((run_handler clock s h a m order).2 = None /\ stuck (run_handler clock s h a m order).1 = true).
Proof.
  destruct h; cbn [run_handler]; try (left; apply reply_same).
  - left. unfold HandleHeartbeatRequest. destruct (_ ≫= _) as [r|e|]; [|reflexivity..].
    destruct (objects s !! a) as [c|] eqn:Hc; [|reflexivity]. etrans; [|apply reply_same]. by eapply set_object_same.
  - unfold HandleChatRequest. destruct (unmarshal _ m) as [r|e|]; [|left; reflexivity..].
    destruct (chat_response clock r) as [resp|e|]; [|left; reflexivity..].
    destruct (decide _); [|left; apply reply_same]. destruct (marshal _) as [data|e'|]; [|left; reflexivity..].
    destruct (Broadcast_cases s (intToBytes CHAT_REQUEST ++ data) order) as [[E1 E2]|[E1 E2]];
      destruct (Broadcast s _ order) as [s' []]; try done; simpl in *; [left|by right]. etrans; [exact E2|apply reply_same].
Qed.

Lemma handleMessage_cases clock s a m order :
  same_clients s (handleMessage clock s a m order).1 \/
  ((handleMessage clock s a m order).2 = Blocks /\ stuck (handleMessage clock s a m order).1 = true).
Proof.
  unfold handleMessage. destruct (_ <? _)%nat; [left; reflexivity|]. destruct (handlers s !! _) as [h|]; [|left; reflexivity].
  destruct (run_handler_cases clock s h a m order) as [E|[E1 E2]]; destruct (run_handler clock s h a m order) as [s' [[| |]|]];
    simpl in *; try done; try (by left). by right.
Qed.

Lemma net_step_inv s act s' : net_inv s -> net_step s act = Some s' -> net_inv s'.
Proof.
  intros Hi. destruct act as [c nano now|a|a|order|m order|i now order|a m|a ok|clock a m order]; cbn [net_step].
  - unfold newClientFromWS. simpl. destruct (stuck s) eqn:Hs; [done|]. intros [= <-] _ id a. simpl.
    intros [[<- <-]|[Hne Ha]]%lookup_insert_Some.
    + eexists. rewrite lookup_insert_eq. split; [done|]. simpl. auto.
    + destruct (Hi Hs _ _ Ha) as (d & Hd & Hx). exists d. rewrite lookup_insert_ne; [done|]. intros <-.
      apply elem_of_dom_2 in Hd. by apply is_fresh in Hd.
  - destruct (objects s !! a) as [c|] eqn:Hc; [|done]. destruct (closing c); [done|]. destruct (closed c); intros [= <-]; [done|].
    intros Hs id b Hb. destruct (Hi Hs _ _ Hb) as (d & Hd & Hid & Hx). simpl. destruct (decide (a = b)) as [-> |Hab].
    + rewrite Hc in Hd. injection Hd as <-. eexists. rewrite lookup_insert_eq. split; [done|]. simpl. auto.
    + exists d. by rewrite lookup_insert_ne.
  - destruct (objects s !! a) as [c|] eqn:Hc; [|done]. destruct (closing c && _) eqn:E; [|done]. apply andb_prop in E as [E1 E2].
    intros [= <-] Hs id b. simpl. intros [Hne Hb]%lookup_delete_Some. destruct (Hi Hs _ _ Hb) as (d & Hd & Hid & Hx).
    exists d. rewrite lookup_insert_ne; [done|]. intros <-. congruence.
  - destruct (stuck s) eqn:Hs; [done|]. intros [= <-]. unfold Stop. rewrite Hs.
    destruct (stop_clients_cases s order) as [-> |[_ E]]; [done|by apply stuck_inv].
  - destruct (stuck s) eqn:Hs; [done|]. intros [= <-].
    destruct (Broadcast_cases s m order) as [[_ E]|[_ E]]; [by eapply same_clients_inv|by apply stuck_inv].
  - destruct (stuck s) eqn:Hs; [done|]. intros [= <-]. unfold checkHeartbeats. rewrite Hs. by apply heartbeat_clients_inv.
  - destruct (objects s !! a); [|done]. intros [= <-]. eapply same_clients_inv; [apply SendMessage_same|done].
  - unfold write_pump. destruct (objects s !! a) as [c|] eqn:Hc; [|done]. destruct (Send c) as [|x q]; [done|]. intros [= <-].
    assert (same_clients s (set_object s a (set_Send c []))) as Hsame by by eapply set_object_same.
    eapply same_clients_inv; [|done]. destruct ok; [|exact Hsame]. etrans; [exact Hsame|]. split_and!; [done..|]. intros b d Hd. by exists d.
  - destruct (handleMessage_cases clock s a m order) as [E|[E1 E2]]; destruct (handleMessage clock s a m order) as [s1 []];
      try done; intros [= <-]; [by eapply same_clients_inv..|by apply stuck_inv].
Qed.

Lemma net_run_inv s acts s' : net_inv s -> net_run s acts = Some s' -> net_inv s'.
Proof.
  revert s. induction acts as [|act acts IH]; intros s Hi; cbn [net_run]; [by intros [= <-]|].
  destruct (net_step s act) eqn:Hs; [|done]. apply IH. by eapply net_step_inv.
Qed.

Lemma net_inv_new : net_inv (NewMessageProcessor NewServer).
Proof. by intros _ id a Ha. Qed.

(** ** Operations under the lock *)

Definition live (s : Server) (order : list (string * nat)) : Prop :=
  forall id a, (id, a) ∈ order -> exists c, objects s !! a = Some c /\ (closing c = true \/ closed c = false).

Lemma live_cons s id a order : live s ((id, a) :: order) ->
  (exists c, objects s !! a = Some c /\ (closing c = true \/ closed c = false)) /\ live s order.
Proof. intros Hl. split; [apply (Hl id a); left|]. intros k b Hb. apply (Hl k b). by right. Qed.

Lemma order_live s order : net_inv s -> stuck s = false -> map_order (clients s) order -> live s order /\ NoDup order.*2.
Proof.
  intros Hi Hs Ho. assert (forall id a, (id, a) ∈ order -> exists c, objects s !! a = Some c /\ ID c = id /\ (closing c = true \/ closed c = false)) as He.
  { intros id a Ha%(map_order_elem _ _ _ _ Ho). by apply (Hi Hs). }
  split; [intros id a Ha; destruct (He _ _ Ha) as (c & Hc & _ & Hx); by exists c|].
  apply (NoDup_fmap_1 (fun a => match objects s !! a with Some c => ID c | None => ""%string end)).
  replace (_ <$> order.*2) with order.*1; [by eapply map_order_nodup|].
  rewrite <- list_fmap_compose. apply list_fmap_ext. intros i [id a] Hia. simpl. destruct (He id a) as (c & -> & -> & _); [|done].
  by eapply list_elem_of_lookup_2.
Qed.

Lemma stop_clients_returns s order : live s order -> ((stop_clients s order).2 = true <-> order = []).
Proof.
  destruct order as [|[id a] order]; [done|]. intros [(c & Hc & Hx) _]%live_cons. cbn [stop_clients].
  destruct (close_locked_live s a c Hc Hx) as [E _]. destruct (close_locked s a) as [s' []]; done.
Qed.

Lemma heartbeat_clients_returns s timeout now order :
  live s order ->
  ((heartbeat_clients s timeout now order).2 = true <->
   forall id a c, (id, a) ∈ order -> objects s !! a = Some c -> now - lastPing c <= timeout).
Proof.
  induction order as [|[id a] order IH]; [by split; [intros _ ? ? ? ?%elem_of_nil|]|]. intros [(c & Hc & Hx) Hl]%live_cons.
  cbn [heartbeat_clients]. rewrite Hc. destruct (Z.gtb_spec (now - lastPing c) timeout) as [Hgt|Hle].
  - destruct (close_locked_live s a c Hc Hx) as [E _]. destruct (close_locked s a) as [s' []]; [done|]. simpl. split; [done|].
    intros Hall. specialize (Hall id a c (list_elem_of_here _ _) Hc). lia.
  - rewrite (IH Hl). split.
    + intros Hall k b d [[= -> ->]|Hb]%elem_of_cons Hd; [simplify_eq; lia|by eapply Hall].
    + intros Hall k b d Hb. eapply Hall. by right.
Qed.

(** The objects after a broadcast that returns. *)
Definition delivered (objs : gmap nat Client) (m : list byte) (order : list (string * nat)) (a : nat) : option Client :=
  (fun c => if decide (a ∈ order.*2) then set_Send c (Send c ++ [m]) else c) <$> objs !! a.

Lemma broadcast_clients_returns s m order :
  live s order -> NoDup order.*2 ->
  ((broadcast_clients s m order).2 = true <->
   forall id a c, (id, a) ∈ order -> objects s !! a = Some c -> (length (Send c) < Send_capacity)%nat) /\
  ((broadcast_clients s m order).2 = true -> forall a, objects (broadcast_clients s m order).1 !! a = delivered (objects s) m order a).
Proof.
  revert s. induction order as [|[id a] order IH]; intros s Hl Hnd.
  { split; [by split; [intros _ ? ? ? ?%elem_of_nil|]|]. intros _ a. simpl. unfold delivered. by destruct (objects s !! a). }
  apply live_cons in Hl as [(c & Hc & Hx) Hl]. apply NoDup_cons in Hnd as [Ha Hnd]. cbn [broadcast_clients].
  unfold SendMessage. rewrite Hc. destruct (Nat.ltb_spec (length (Send c)) Send_capacity) as [Hlt|Hge].
  - set (s1 := set_object s a (set_Send c (Send c ++ [m]))).
    assert (forall b, b <> a -> objects s1 !! b = objects s !! b) as Hoth by (intros b Hb; simpl; by rewrite lookup_insert_ne).
    assert (forall k b, (k, b) ∈ order -> b <> a) as Hne.
    { intros k b Hb ->. apply Ha. apply list_elem_of_fmap. by exists (k, a). }
    destruct (IH s1) as [H1 H2]; [|done|].
    { intros k b Hb. rewrite Hoth by by eapply Hne. by eapply Hl. }
    split.
    + rewrite H1. split.
      * intros Hall k b d [[= -> ->]|Hb]%elem_of_cons Hd; [by simplify_eq|]. eapply Hall; [done|]. by rewrite Hoth by by eapply Hne.
      * intros Hall k b d Hb Hd. rewrite Hoth in Hd by by eapply Hne. eapply Hall; [by right|done].
    + intros Hr b. rewrite (H2 Hr). unfold delivered. cbn [fmap list_fmap snd]. destruct (decide (b = a)) as [-> |Hba].
      * simpl. rewrite lookup_insert_eq, Hc. simpl. rewrite (decide_False _ _ Ha), decide_True by left. done.
      * rewrite Hoth by done. destruct (objects s !! b); [|done]. simpl. f_equal. apply decide_ext. rewrite elem_of_cons. naive_solver.
  - destruct (close_locked_live s a c Hc Hx) as [E _]. destruct (close_locked s a) as [s' []]; [done|]. simpl. split; [|done].
    split; [done|]. intros Hall. specialize (Hall id a c (list_elem_of_here _ _) Hc). lia.
Qed.

(** C23: with the lock free, [Stop] returns only when no client is in the table, a
    heartbeat check only when no client has timed out, and a broadcast only when
    no queue is full, each client then having the message last in its queue.
    Otherwise they block for good, since closing a client needs the lock they hold. *)
Theorem net_returns_iff acts s order interval now message
    (Hreach : net_run (NewMessageProcessor NewServer) acts = Some s) (Hfree : stuck s = false)
    (Horder : map_order (clients s) order) :
  ((Stop s order).2 = true <-> clients s = ∅) /\
  ((checkHeartbeats s interval now order).2 = true <->
     forall id a c, clients s !! id = Some a -> objects s !! a = Some c -> now - lastPing c <= heartbeat_timeout interval) /\
  ((Broadcast s message order).2 = true <->
     forall id a c, clients s !! id = Some a -> objects s !! a = Some c -> (length (Send c) < Send_capacity)%nat) /\
  ((Broadcast s message order).2 = true ->
     forall id a c, clients s !! id = Some a -> objects s !! a = Some c ->
       exists c', objects (Broadcast s message order).1 !! a = Some c' /\ Send c' = Send c ++ [message]).
Proof.
  pose proof (net_run_inv _ _ _ net_inv_new Hreach) as Hi. destruct (order_live _ _ Hi Hfree Horder) as [Hl Hnd].
  unfold Stop, checkHeartbeats, Broadcast. rewrite Hfree. destruct (broadcast_clients_returns s message order Hl Hnd) as [H1 H2].
  split_and!.
  - rewrite (stop_clients_returns _ _ Hl). by apply map_order_nil.
  - rewrite (heartbeat_clients_returns _ _ _ _ Hl). by setoid_rewrite (map_order_elem _ _ _ _ Horder).
  - rewrite H1. by setoid_rewrite (map_order_elem _ _ _ _ Horder).
  - intros Hr id a c Ha Hc. rewrite (H2 Hr). unfold delivered. rewrite Hc. simpl. eexists. split; [done|]. rewrite decide_True; [done|].
    apply list_elem_of_fmap. exists (id, a). split; [done|]. by apply (map_order_elem _ _ _ _ Horder).
Qed.

(** ** Stuck *)

Lemma net_stuck_step s act s' :
  stuck s = true -> net_step s act = Some s' -> stuck s' = true /\ clients s' = clients s.
Proof.
  intros Hs. destruct act as [c nano now|a|a|order|m order|i now order|a m|a ok|clock a m order]; cbn [net_step]; rewrite ?Hs; try done.
  - unfold newClientFromWS. simpl. by rewrite Hs.
  - destruct (objects s !! a) as [c|]; [|done]. destruct (closing c); [done|]. destruct (closed c); by intros [= <-].
  - destruct (objects s !! a) as [c|]; [|done]. by rewrite andb_false_r.
  - destruct (objects s !! a); [|done]. intros [= <-]. destruct (SendMessage_same s a m) as (-> & -> & _). done.
  - unfold write_pump. destruct (objects s !! a) as [c|]; [|done]. destruct (Send c); [done|]. by destruct ok; intros [= <-].
  - unfold handleMessage. destruct (_ <? _)%nat; [by intros [= <-]|]. destruct (handlers s !! _) as [h|]; [|by intros [= <-]].
    assert (stuck (run_handler clock s h a m order).1 = true /\ clients (run_handler clock s h a m order).1 = clients s) as [E1 E2].
    { assert (forall s', same_clients s s' -> stuck s' = true /\ clients s' = clients s) as Hsame by by intros s1 (-> & -> & _).
      destruct h; cbn [run_handler]; try (apply Hsame, reply_same).
      - unfold HandleHeartbeatRequest. destruct (_ ≫= _) as [r|e|]; [|done..]. destruct (objects s !! a) as [c|] eqn:Hc; [|done].
        apply Hsame. etrans; [|apply reply_same]. by eapply set_object_same.
      - unfold HandleChatRequest, Broadcast. rewrite Hs. destruct (unmarshal _ m) as [r|e|]; [|done..].
        destruct (chat_response clock r) as [resp|e|]; [|done..]. destruct (decide _); [|apply Hsame, reply_same].
        by destruct (marshal _). }
    by destruct (run_handler clock s h a m order) as [s1 [[| |]|]]; simpl in *; try done; intros [= <-].
Qed.

(** Once an operation has blocked with the lock, the table never changes again:
    no client gets in or out, and no operation on the table returns. *)
Theorem net_stuck_forever s acts s'
    (Hstuck : stuck s = true) (Hrun : net_run s acts = Some s') :
  clients s' = clients s /\
  (forall c nano now, newClientFromWS s' c nano now = None) /\
  (forall order, (Stop s' order).2 = false) /\ (forall m order, (Broadcast s' m order).2 = false) /\
  (forall i now order, (checkHeartbeats s' i now order).2 = false) /\
  (forall a, net_step s' (NCloseEnd a) = None).
Proof.
  assert (stuck s' = true /\ clients s' = clients s) as [Hs' E].
  { revert s Hstuck Hrun. induction acts as [|act acts IH]; intros s Hs; cbn [net_run]; [by intros [= <-]|].
    destruct (net_step s act) as [s1|] eqn:Hst; [|done]. destruct (net_stuck_step _ _ _ Hs Hst) as [Hs1 <-]. by apply IH. }
  split_and!; [done|..].
  - intros c nano now. unfold newClientFromWS. simpl. by rewrite Hs'.
  - intros order. unfold Stop. by rewrite Hs'.
  - intros m order. unfold Broadcast. by rewrite Hs'.
  - intros i now order. unfold checkHeartbeats. by rewrite Hs'.
  - intros a. simpl. destruct (objects s' !! a); [|done]. by rewrite Hs', andb_false_r.
Qed.

(** ** Dispatch *)

Lemma lor_add a b n : 0 <= n -> 0 <= b < 2 ^ n -> Z.lor (a * 2 ^ n) b = a * 2 ^ n + b.
Proof.
  intros Hn Hb. assert (Z.land (a * 2 ^ n) b = 0) as Hl.
  { destruct (Z.eq_dec b 0) as [-> |Hb0]; [apply Z.land_0_r|]. apply Z.bits_inj'. intros i Hi. rewrite Z.land_spec, Z.bits_0. destruct (Z.lt_ge_cases i n) as [Hlt|Hge].
    - by rewrite Z.mul_pow2_bits_low.
    - rewrite (Z.bits_above_log2 b i), andb_false_r; [done|lia|].
      apply Z.log2_lt_pow2; [lia|]. apply (Z.lt_le_trans _ (2 ^ n)); [lia|]. apply Z.pow_le_mono_r; lia. }
  rewrite Z.add_nocarry_lxor by done. by rewrite Z.lxor_lor.
Qed.

Lemma message_id_spec message :
  (4 <= length message)%nat -> message_id message = swrap 32 (be_get (take 4 message)).
Proof.
  intros Hl. destruct message as [|b0 [|b1 [|b2 [|b3 rest]]]]; simpl in Hl; try lia. change (take 4 _) with [b0; b1; b2; b3]. cbn [message_id].
  pose proof (byte_val_range b0). pose proof (byte_val_range b1). pose proof (byte_val_range b2). pose proof (byte_val_range b3).
  rewrite !Z.shiftl_mul_pow2 by lia. set (x := byte_val b0) in *. set (y := byte_val b1) in *. set (z := byte_val b2) in *. set (w := byte_val b3) in *.
  assert (exists k, swrap 32 (x * 2 ^ 24) = k * 2 ^ 24 /\ (k = x \/ k = x - 256) /\ -128 <= k < 128) as (k & -> & Hk & Hr).
  { unfold swrap. destruct (Z.lt_ge_cases x 128).
    - exists x. split; [|lia]. rewrite Z.mod_small; lia.
    - exists (x - 256). split; [|lia]. rewrite <- (Z.mod_unique (x * 2 ^ 24 + 2 ^ (32 - 1)) (2 ^ 32) 1 (x * 2 ^ 24 + 2 ^ 31 - 2 ^ 32)); lia. }
  rewrite lor_add by lia. replace (k * 2 ^ 24 + y * 2 ^ 16) with ((k * 2 ^ 8 + y) * 2 ^ 16) by lia. rewrite lor_add by lia.
  replace ((k * 2 ^ 8 + y) * 2 ^ 16 + z * 2 ^ 8) with (((k * 2 ^ 8 + y) * 2 ^ 8 + z) * 2 ^ 8) by lia. rewrite lor_add by lia.
  change (be_get [b0; b1; b2; b3]) with (x * 2 ^ 24 + (y * 2 ^ 16 + (z * 2 ^ 8 + (w * 1 + 0)))).
  replace (x * 2 ^ 24 + _) with (x * 2 ^ 24 + y * 2 ^ 16 + z * 2 ^ 8 + w) by lia.
  destruct Hk as [-> | ->].
  - rewrite swrap_small; [lia|lia|]. unfold in_s. lia.
  - unfold swrap. rewrite <- (Z.mod_unique (x * 2 ^ 24 + y * 2 ^ 16 + z * 2 ^ 8 + w + 2 ^ (32 - 1)) (2 ^ 32) 1
      (x * 2 ^ 24 + y * 2 ^ 16 + z * 2 ^ 8 + w + 2 ^ 31 - 2 ^ 32)); lia.
Qed.

Lemma message_id_intToBytes id rest : in_s 32 id -> message_id (intToBytes id ++ rest) = id.
Proof.
  intros Hid. rewrite message_id_spec by (rewrite length_app; unfold intToBytes; rewrite length_be_put; lia).
  unfold intToBytes. rewrite take_app_length' by by rewrite length_be_put. rewrite be_get_put. unfold uwrap.
  change (256 ^ Z.of_nat 4) with (2 ^ 32). rewrite Z.mod_mod by lia. unfold swrap. rewrite Zplus_mod_idemp_l. by apply swrap_small.
Qed.

(** The five requests and their handlers. *)
Definition request_handlers : list (Z * handler) :=
  [(LOGIN_REQUEST, HLogin); (HEARTBEAT_REQUEST, HHeartbeat); (POSITION_SYNC_REQUEST, HPositionSync);
   (CHAT_REQUEST, HChat); (COMBAT_COMMAND_REQUEST, HCombatCommand)].

Lemma registered_handler id h :
  handlers (NewMessageProcessor NewServer) !! id = Some h <-> (id, h) ∈ request_handlers.
Proof.
  split.
  - simpl. intros Hh. repeat (apply lookup_insert_Some in Hh as [[<- <-]|[_ Hh]]; [unfold request_handlers; set_solver|]).
    by rewrite lookup_empty in Hh.
  - unfold request_handlers. rewrite !elem_of_cons, elem_of_nil. intros Hh.
    repeat destruct Hh as [[= -> ->]|Hh]; [vm_compute; reflexivity..|done].
Qed.

(** A message whose first four bytes are the number of a request goes to its
    handler, whole; every other message is ignored. *)
Theorem net_dispatch clock s a id body order
    (Hid : in_s 32 id) (Hh : handlers s = handlers (NewMessageProcessor NewServer)) :
  (forall h, (id, h) ∈ request_handlers ->
     handleMessage clock s a (intToBytes id ++ body) order =
     match run_handler clock s h a (intToBytes id ++ body) order with
     | (s', Some Panic) => (s', Panics)
     | (s', Some _) => (s', Continues)
     | (s', None) => (s', Blocks)
     end) /\
  ((forall h, (id, h) ∉ request_handlers) -> handleMessage clock s a (intToBytes id ++ body) order = (s, Continues)).
Proof.
  unfold handleMessage. rewrite (proj2 (Nat.ltb_ge _ _)) by (rewrite length_app; unfold intToBytes; rewrite length_be_put; lia).
  rewrite (message_id_intToBytes id body Hid), Hh. split.
  - intros h Hin%registered_handler. by rewrite Hin.
  - intros Hno. destruct (handlers (NewMessageProcessor NewServer) !! id) as [h|] eqn:E; [|done].
    apply registered_handler in E. by destruct (Hno h).
Qed.

(** What a handler dereferences of a request that decodes. *)
Definition has_fields (h : handler) (data : list byte) : bool :=
  match h with
  | HLogin => match Unmarshal_Login data with Some r => bool_decide (is_Some (lr_Header r)) | None => true end
  | HHeartbeat => match Unmarshal_Heartbeat data with Some r => bool_decide (is_Some (hr_Header r)) | None => true end
  | HPositionSync =>
      match Unmarshal_PositionSync data with
      | Some r => bool_decide (is_Some (pr_Header r)) && bool_decide (is_Some (pr_Position r))
      | None => true
      end
  | HChat => match Unmarshal_Chat data with Some r => bool_decide (is_Some (ch_Header r)) | None => true end
  | HCombatCommand => match Unmarshal_Combat data with Some r => bool_decide (is_Some (co_Header r)) | None => true end
  end.

Lemma SendMessage_not_panic s a m : is_Some (objects s !! a) -> (SendMessage s a m).2 <> Panic.
Proof. intros [c Hc]. unfold SendMessage. rewrite Hc. by destruct (_ <? _)%nat. Qed.

Lemma reply_panics s a id r : is_Some (objects s !! a) -> ((reply s a id r).2 = Some Panic <-> r = Panic).
Proof.
  intros Ha. unfold reply. destruct r as [m|e|]; cbn [mbind outcome_bind]; [|done..]. unfold marshal.
  destruct (Marshal m) as [data|]; [|done]. pose proof (SendMessage_not_panic s a (intToBytes id ++ data) Ha) as Hp.
  destruct (SendMessage s a _) as [s' o]. simpl in *. naive_solver.
Qed.

Lemma unmarshal_body {A} (f : list byte -> option A) id body :
  unmarshal f (intToBytes id ++ body) = match f body with Some r => Ret r | None => Fail ErrUnmarshal end.
Proof.
  unfold unmarshal, intToBytes. rewrite <- (app_nil_r body) at 2. rewrite app_assoc.
  rewrite (slice_at 4 _ (be_put 4 (uwrap 32 id)) body []); [done|by rewrite length_be_put|]. rewrite !length_app, length_be_put. simpl. lia.
Qed.

Lemma header_panics clock h id (f : MessageHeader -> pb_message) :
  (createResponseHeader clock h id ≫= (fun x => Ret (f x))) = Panic <-> h = None.
Proof. by destruct h. Qed.

Lemma same_clients_object s s' a : same_clients s s' -> is_Some (objects s !! a) -> is_Some (objects s' !! a).
Proof. intros (_ & _ & _ & Hs) [c Hc]. destruct (Hs _ _ Hc) as (c' & ? & _). by exists c'. Qed.

Lemma missing {A} (o : option A) : bool_decide (is_Some o) = false <-> o = None.
Proof. rewrite bool_decide_eq_false, eq_None_not_Some. done. Qed.

(** A request that decodes but carries no header, or a position update without
    a position, ends the program; no other message does. *)
Theorem net_handler_panics_iff clock s h a id body order (Ha : is_Some (objects s !! a)) :
  (run_handler clock s h a (intToBytes id ++ body) order).2 = Some Panic <-> has_fields h body = false.
Proof.
  destruct h; cbn [run_handler has_fields].
  - unfold HandleLoginRequest. rewrite reply_panics, unmarshal_body by done. destruct (Unmarshal_Login body) as [r|]; [|done].
    change (Ret r ≫= login_response clock) with (login_response clock r). unfold login_response. by rewrite missing, (header_panics clock).
  - unfold HandleHeartbeatRequest. rewrite unmarshal_body. destruct (Unmarshal_Heartbeat body) as [r|]; [|done].
    rewrite missing. cbn [mbind outcome_bind]. unfold heartbeat_response. destruct (hr_Header r) as [hd|]; [|done].
    cbn [createResponseHeader mbind outcome_bind]. destruct Ha as [c Hc]. rewrite Hc. rewrite reply_panics; [done|].
    eexists. simpl. apply lookup_insert_eq.
  - unfold HandlePositionSyncRequest. rewrite reply_panics, unmarshal_body by done. destruct (Unmarshal_PositionSync body) as [r|]; [|done].
    change (Ret r ≫= position_response clock) with (position_response clock r). rewrite andb_false_iff, !missing. unfold position_response. destruct (pr_Position r) as [p|]; [|naive_solver].
    rewrite (header_panics clock). naive_solver.
  - unfold HandleChatRequest. rewrite unmarshal_body. destruct (Unmarshal_Chat body) as [r|]; [|done].
    rewrite missing. unfold chat_response. destruct (ch_Header r) as [hd|]; cbn [createResponseHeader mbind outcome_bind]; [|done].
    destruct (decide _); [|by rewrite reply_panics]. unfold marshal. destruct (Marshal (ChatBroadcast r)) as [data|]; [|done].
    destruct (Broadcast_cases s (intToBytes CHAT_REQUEST ++ data) order) as [[E1 E2]|[E1 E2]];
      destruct (Broadcast s _ order) as [s' []]; try done. rewrite reply_panics; [done|]. by eapply same_clients_object.
  - unfold HandleCombatCommandRequest. rewrite reply_panics, unmarshal_body by done. destruct (Unmarshal_Combat body) as [r|]; [|done].
    change (Ret r ≫= combat_response clock) with (combat_response clock r). unfold combat_response. by rewrite missing, (header_panics clock).
Qed.

(** The messages that are queued when the writer runs leave in order, in one
    frame without anything between them: a peer that reads a frame as one message
    sees the number of the first. *)
Theorem net_frame_merges s a c message queued
    (Hc : objects s !! a = Some c) (Hq : Send c = message :: queued) (Hm : (4 <= length message)%nat) :
  exists s', write_pump s a true = Some (s', true) /\
    events s' = events s ++ [FrameWritten (conn c) (concat (message :: queued))] /\
    (Send <$> objects s' !! a) = Some [] /\ message_id (concat (message :: queued)) = message_id message.
Proof.
  unfold write_pump. rewrite Hc, Hq. eexists. split; [done|]. split; [done|]. simpl. rewrite lookup_insert_eq. split; [done|].
  do 4 (destruct message as [|? message]; [simpl in Hm; lia|]). done.
Qed.

(** Two clients that connect in the same nanosecond get the same ID: the
    first is out of the table, and when it is closed the second is out as well. *)
Theorem net_id_collision s c1 c2 nano t1 t2 s1 a1 s2 a2
    (H1 : newClientFromWS s c1 nano t1 = Some (s1, a1)) (H2 : newClientFromWS s1 c2 nano t2 = Some (s2, a2)) :
  a1 <> a2 /\ clients s2 !! generateID nano = Some a2 /\ (forall id, clients s !! id <> Some a1 -> clients s2 !! id <> Some a1) /\
  exists s3, net_run s2 [NCloseBegin a1; NCloseEnd a1] = Some s3 /\ clients s3 !! generateID nano = None /\
    (closed <$> objects s3 !! a2) = Some false.
Proof.
  unfold newClientFromWS in H1, H2. simpl in H1, H2. destruct (stuck s) eqn:Hs; [done|]. injection H1 as <- <-. simpl in H2.
  rewrite Hs in H2. injection H2 as <- <-. set (b := fresh (dom (objects s))) in *.
  set (os := <[b := MkClient (generateID nano) c1 [] false false t1]> (objects s)) in *.
  assert (b <> fresh (dom os)) as Hne.
  { intros E. apply (is_fresh (dom os)). rewrite <- E. subst os. rewrite dom_insert. set_solver. }
  split_and!; [done|apply lookup_insert_eq|..].
  - intros id Hid. simpl. intros [[E1 E2]|[Hn [[E1 E2]|[_ Hx]]%lookup_insert_Some]]%lookup_insert_Some; congruence.
  - cbn [net_run net_step objects]. simpl. rewrite (lookup_insert_ne os) by done. subst os. rewrite lookup_insert_eq. simpl.
    rewrite lookup_insert_eq. simpl. rewrite Hs. simpl. eexists. split; [done|]. simpl. rewrite lookup_delete_eq. split; [done|].
    rewrite !(lookup_insert_ne _ b) by done. by rewrite lookup_insert_eq.
Qed.
End runs.

(** The ticker of the writer: an interval below two seconds ends the program. *)
Theorem net_ticker_panics_iff interval (Hi : 0 <= interval < 2 ^ 33) : ping_ticker interval = Panic <-> interval < 2.
Proof.
  unfold ping_ticker. rewrite Z.quot_div_nonneg by lia.
  assert (0 <= interval / 2 < 2 ^ 32) as Hd by (split; [apply Z.div_pos; lia|apply Z.div_lt_upper_bound; lia]).
  rewrite int64_small by lia. destruct (Z.leb_spec (interval / 2 * 1000000000) 0) as [Hle|Hgt].
  - split; [|done]. intros _. assert (interval / 2 = 0) as E by lia. apply Z.div_small_iff in E; lia.
  - split; [done|]. intros Hlt. rewrite Z.div_small in Hgt by lia. lia.
Qed.

(** ** Witnesses *)

(** A codec that decodes everything: a header only from data that is not empty. *)
Definition toy_header (data : list byte) : option MessageHeader :=
  match data with [] => None | _ => Some (MkHeader 0 0 "s" 1 0 "") end.

Definition toy_proto : Proto := {|
  Unmarshal_Login data := Some (MkLogin (toy_header data) "u");
  Unmarshal_Heartbeat data := Some (MkHeartbeat (toy_header data));
  Unmarshal_PositionSync data := Some (MkPositionSync (toy_header data) "e" None);
  Unmarshal_Chat data := Some (MkChat (toy_header data) "u" "u" "hi" ChatType_WORLD "" "");
  Unmarshal_Combat data := Some (MkCombat (toy_header data) "a" "t" 1);
  Marshal _ := Some [Byte.x2a]
|}.

Definition one_client : list net_action := [NConnect 7 100 0].
Definition net_after (acts : list net_action) : Server :=
  default NewServer (@net_run toy_proto (NewMessageProcessor NewServer) acts).

Lemma net_returns_iff_witness :
  clients (net_after one_client) <> ∅ /\
  ((Stop (net_after one_client) [("100"%string, 0%nat)]).2 = true <-> clients (net_after one_client) = ∅).
Proof.
  split; [vm_compute; discriminate|].
  apply (@net_returns_iff toy_proto one_client (net_after one_client) [("100"%string, 0%nat)] 30 0 []).
  - vm_compute; reflexivity.
  - vm_compute; reflexivity.
  - vm_compute. reflexivity.
Defined.

Definition stopped_server : list net_action := one_client ++ [NStop [("100"%string, 0%nat)]].

Lemma net_stuck_forever_witness :
  clients (net_after (stopped_server ++ [NSend 0 []])) = clients (net_after stopped_server) /\
  newClientFromWS (net_after (stopped_server ++ [NSend 0 []])) 8 200 0 = None.
Proof.
  destruct (@net_stuck_forever toy_proto (net_after stopped_server) [NSend 0 []] (net_after (stopped_server ++ [NSend 0 []])))
    as (H1 & H2 & _); [vm_compute; reflexivity..|]. split; [exact H1|apply H2].
Defined.

Lemma net_dispatch_witness :
  @handleMessage toy_proto (fun _ => 0) (net_after one_client) 0 (intToBytes LOGIN_REQUEST ++ [Byte.x01]) [] =
  match @run_handler toy_proto (fun _ => 0) (net_after one_client) HLogin 0 (intToBytes LOGIN_REQUEST ++ [Byte.x01]) [] with
  | (s', Some Panic) => (s', Panics)
  | (s', Some _) => (s', Continues)
  | (s', None) => (s', Blocks)
  end.
Proof.
  apply (@net_dispatch toy_proto).
  - unfold in_s, LOGIN_REQUEST. lia.
  - vm_compute; reflexivity.
  - left.
Defined.

Lemma net_handler_panics_iff_witness :
  (@run_handler toy_proto (fun _ => 0) (net_after one_client) HLogin 0 (intToBytes LOGIN_REQUEST ++ []) []).2 = Some Panic.
Proof.
  apply (@net_handler_panics_iff toy_proto); [|reflexivity]. exists (MkClient "100" 7 [] false false 0). vm_compute. reflexivity.
Defined.

Lemma net_frame_merges_witness :
  exists s', write_pump (net_after (one_client ++ [NSend 0 (intToBytes 1); NSend 0 (intToBytes 2)])) 0 true = Some (s', true) /\
    events s' = [FrameWritten 7 (intToBytes 1 ++ intToBytes 2)].
Proof.
  destruct (net_frame_merges (net_after (one_client ++ [NSend 0 (intToBytes 1); NSend 0 (intToBytes 2)])) 0
    (MkClient "100" 7 [intToBytes 1; intToBytes 2] false false 0) (intToBytes 1) [intToBytes 2]) as (s' & H1 & H2 & _).
  - vm_compute; reflexivity.
  - reflexivity.
  - vm_compute; lia.
  - exists s'. split; [exact H1|exact H2].
Defined.

Lemma net_id_collision_witness :
  exists s3, @net_run toy_proto (net_after [NConnect 7 100 0; NConnect 8 100 0]) [NCloseBegin 0; NCloseEnd 0] = Some s3 /\
    clients s3 !! "100"%string = None.
Proof.
  destruct (@net_id_collision toy_proto (NewMessageProcessor NewServer) 7 8 100 0 0 (net_after [NConnect 7 100 0]) 0
    (net_after [NConnect 7 100 0; NConnect 8 100 0]) 1) as (_ & _ & _ & s3 & H1 & H2 & _);
    [vm_compute; reflexivity..|]. exists s3. split; [exact H1|exact H2].
Defined.

Lemma net_ticker_panics_iff_witness : ping_ticker 1 = Panic.
Proof. apply net_ticker_panics_iff; lia. Defined.
