(* ===== verification/Config.v ===== *)
(** * The configuration of the game server ([pkg/config/config.go])

    [Load] uses the one viper of the process, which keeps its search paths from one
    call to the next: the paths are a state.  What viper finds in a directory and
    how it decodes it are a class; [path/filepath] is modelled as far as [Load] uses
    it. *)

From stdpp Require Import base strings numbers list sets pretty.
From Stdlib Require Import ZArith Lia Ascii.
From S2P Require Import Prelude.

Local Open Scope Z_scope.

Record ServerConfig := MkServerConfig {
  Host : string;
  Port : Z;
  MaxConnections : Z;
  ReadTimeoutMs : Z;
  WriteTimeoutMs : Z;
  HeartbeatIntervalSec : Z
}.

Record DatabaseConfig := MkDatabaseConfig {
  db_Driver : string;
  db_Host : string;
  db_Port : Z;
  db_User : string;
  db_Password : string;
  db_DBName : string;
  db_MaxOpenConns : Z;
  db_MaxIdleConns : Z;
  db_ConnMaxLifetimeSec : Z
}.

Record RedisConfig := MkRedisConfig {
  re_Host : string;
  re_Port : Z;
  re_Password : string;
  re_DB : Z;
  re_PoolSize : Z;
  re_MinIdleConns : Z
}.

Record GameConfig := MkGameConfig {
  WorldSizeX : Z;
  WorldSizeY : Z;
  PositionSyncIntervalMs : Z;
  MaxPlayersPerZone : Z;
  ZoneSize : Z
}.

Record LogConfig := MkLogConfig {
  Level : string;
  File : string;
  MaxSizeMB : Z;
  MaxBackups : Z;
  MaxAgeDays : Z;
  Compress : bool
}.

Record Config := MkConfig {
  cfg_Server : ServerConfig;
  cfg_Database : DatabaseConfig;
  cfg_Redis : RedisConfig;
  cfg_Game : GameConfig;
  cfg_Log : LogConfig
}.

(** ** Paths *)

(** The elements of a path, [current] being read. *)
Fixpoint split_path (path : string) (current : string) : list string :=
  match path with
  | EmptyString => [current]
  | String c rest =>
      if decide (c = "/"%char) then current :: split_path rest EmptyString
      else split_path rest (current +:+ String c EmptyString)
  end.

(** One element of [filepath.Clean]; [out] is the result so far, last first. *)
Definition clean_element (rooted : bool) (out : list string) (e : string) : list string :=
  if decide (e = "" \/ e = ".") then out
  else if decide (e = "..") then
    match out with
    | [] => if rooted then [] else [".."]
    | top :: rest => if decide (top = "..") then ".." :: out else rest
    end
  else e :: out.

Fixpoint join_path (es : list string) : string :=
  match es with
  | [] => ""
  | [e] => e
  | e :: rest => e +:+ "/" +:+ join_path rest
  end.

Definition is_rooted (path : string) : bool := match path with String c _ => bool_decide (c = "/"%char) | EmptyString => false end.

Definition Clean (path : string) : string :=
  let rooted := is_rooted path in
  let es := reverse (foldl (clean_element rooted) [] (split_path path "")) in
  if rooted then "/" +:+ join_path es else if decide (es = []) then "." else join_path es.

(** [filepath.Dir]: what is before the last separator, with it, cleaned. *)
Definition Dir (path : string) : string :=
  let before := reverse (tail (reverse (split_path path ""))) in
  Clean (foldr (fun e acc => e +:+ "/" +:+ acc) "" before).

(** ** Loading *)

(** [find_in]: the file with the name and type of the configuration in a directory;
    [parses]: [ReadInConfig] can read it; [decode]: [Unmarshal] with the environment. *)
Class Viper (file : Type) := {
  find_in : string -> option file;
  parses : file -> bool;
  decode : file -> option Config
}.

Inductive config_error := ErrRead | ErrUnmarshal | ErrMkdir.

Section load.
Context `{Viper file}.
(** [os.MkdirAll] of a directory succeeds. *)
Context (MkdirAll : string -> bool).

(** [viper.AddConfigPath] *)
Definition AddConfigPath (paths : list string) (p : string) : list string := if decide (p ∈ paths) then paths else paths ++ [p].

(** [viper.ReadInConfig]: the first directory that has the file. *)
Fixpoint search (paths : list string) : option file :=
  match paths with
  | [] => None
  | p :: rest => match find_in p with Some f => Some f | None => search rest end
  end.

Definition search_paths (paths : list string) (configPath : string) : list string :=
  let paths := if decide (configPath = "") then paths else AddConfigPath paths configPath in
  AddConfigPath (AddConfigPath paths "./config") ".".

(** The paths of viper after the call, and the result. *)
Definition Load (paths : list string) (configPath : string) : list string * (Config + config_error) :=
  let paths := search_paths paths configPath in
  (paths,
   match search paths with
   | None => inr ErrRead
   | Some f =>
       if parses f then
         match decode f with
         | None => inr ErrUnmarshal
         | Some config =>
             if decide (File (cfg_Log config) = "") then inl config
             else if MkdirAll (Dir (File (cfg_Log config))) then inl config else inr ErrMkdir
         end
       else inr ErrRead
   end).
End load.

Definition GetDSN (c : DatabaseConfig) : string :=
  "host=" +:+ db_Host c +:+ " port=" +:+ pretty (db_Port c) +:+ " user=" +:+ db_User c +:+ " password=" +:+ db_Password c +:+
  " dbname=" +:+ db_DBName c +:+ " sslmode=disable".

Definition GetRedisAddr (c : RedisConfig) : string := re_Host c +:+ ":" +:+ pretty (re_Port c).

(** ** Properties *)

(** A search that succeeds ignores what is added behind. *)
Lemma search_app `{Viper file} ps qs f : search ps = Some f -> search (ps ++ qs) = Some f.
Proof. induction ps as [|p ps IH]; simpl; [done|]. destruct (find_in p); auto. Qed.

Lemma AddConfigPath_app ps p : exists qs, AddConfigPath ps p = ps ++ qs.
Proof. unfold AddConfigPath. destruct (decide _); [by exists []; rewrite app_nil_r|by exists [p]]. Qed.

Lemma search_paths_app ps p : exists qs, search_paths ps p = ps ++ qs.
Proof.
  unfold search_paths.
  assert (exists qs, (if decide (p = "") then ps else AddConfigPath ps p) = ps ++ qs) as [q0 ->].
  { destruct (decide _); [by exists []; rewrite app_nil_r|apply AddConfigPath_app]. }
  destruct (AddConfigPath_app (ps ++ q0) "./config") as [q1 ->]. destruct (AddConfigPath_app ((ps ++ q0) ++ q1) ".") as [q2 ->].
  exists (q0 ++ q1 ++ q2). by rewrite !app_assoc.
Qed.

(** The process has one list of paths: once a call has found a file, every later
    call returns what the first returned, whatever path it is given. *)
Theorem config_load_sticky `{Viper file} mkdir ps p f (Hf : search (Load mkdir ps p).1 = Some f) q :
  (Load mkdir (Load mkdir ps p).1 q).2 = (Load mkdir ps p).2.
Proof.
  simpl in *. destruct (search_paths_app (search_paths ps p) q) as [qs ->]. by rewrite (search_app _ qs f Hf), Hf.
Qed.

(** A first call with a path reads the file of that path if there is one, and that of
    the default directories otherwise. *)
Theorem config_load_order `{Viper file} mkdir p (Hp : p <> "" /\ p <> "./config" /\ p <> ".") :
  (Load mkdir [] p).1 = [p; "./config"; "."] /\
  search (Load mkdir [] p).1 =
    match find_in p with Some f => Some f | None => match find_in "./config" with Some f => Some f | None => find_in "." end end /\
  ((Load mkdir [] p).2 = inr ErrRead <->
   match search (Load mkdir [] p).1 with Some f => parses f = false | None => True end).
Proof.
  assert ((Load mkdir [] p).1 = [p; "./config"; "."]) as E.
  { simpl. unfold search_paths. rewrite decide_False by naive_solver. unfold AddConfigPath at 3. rewrite decide_False by set_solver.
    unfold AddConfigPath at 2. rewrite decide_False by set_solver. simpl. unfold AddConfigPath. rewrite decide_False by set_solver. done. }
  split; [done|]. rewrite E. simpl in E. split; [simpl; by destruct (find_in p), (find_in "./config"), (find_in ".")|].
  unfold Load. rewrite E. cbn [snd]. destruct (search _) as [f|]; [|done]. destruct (parses f); [|done]. split; [|done].
  destruct (decode f) as [c|]; [|done]. destruct (decide _); [done|]. by destruct (mkdir _).
Qed.

(** *** The connection string *)

Fixpoint no_space (s : string) : bool :=
  match s with EmptyString => true | String c rest => negb (bool_decide (c = " "%char)) && no_space rest end.

Lemma cut_at_space a b x y : no_space a -> no_space b -> a +:+ String " " x = b +:+ String " " y -> a = b /\ x = y.
Proof.
  revert b. induction a as [|c a IH]; intros [|c' b] Ha Hb E; simpl in *; simplify_eq; try done.
  destruct (IH b) as [-> ->]; [naive_solver..|done].
Qed.

Lemma pretty_N_go_no_space n : forall s, no_space s -> no_space (pretty_N_go n s).
Proof.
  induction (N.lt_wf_0 n) as [n _ IH]. intros s Hs. destruct (decide (n = 0%N)) as [->|Hn]; [by rewrite pretty_N_go_0|].
  rewrite pretty_N_go_step by lia. apply IH; [apply N.div_lt; lia|]. cbn [no_space]. apply andb_True. split; [|done].
  pose proof (N.mod_lt n 10 ltac:(lia)). clear -H. destruct (n `mod` 10)%N as [|p]; [done|]. by do 4 (try destruct p as [p|p|]).
Qed.

Lemma pretty_N_no_space (n : N) : no_space (pretty n).
Proof. unfold pretty, pretty_N. destruct (decide _); [done|by apply pretty_N_go_no_space]. Qed.

Lemma pretty_no_space (n : Z) : no_space (pretty n).
Proof. destruct n as [|p|p]; [done|apply (pretty_N_no_space (Npos p))..]. Qed.

Lemma append_assoc (a b c : string) : (a +:+ b) +:+ c = a +:+ b +:+ c.
Proof. induction a as [|x a IH]; [done|]. change (String x ((a +:+ b) +:+ c) = String x (a +:+ b +:+ c)). by rewrite IH. Qed.

Definition plain_values (c : DatabaseConfig) : bool :=
  no_space (db_Host c) && no_space (db_User c) && no_space (db_Password c) && no_space (db_DBName c).

(** The string determines the values that it is made of as long as none of them
    contains a space; the values are not quoted, so a password that contains one
    can be read as another password and another database. *)
Theorem dsn_values c1 c2 :
  (plain_values c1 -> plain_values c2 -> GetDSN c1 = GetDSN c2 ->
   db_Host c1 = db_Host c2 /\ db_Port c1 = db_Port c2 /\ db_User c1 = db_User c2 /\ db_Password c1 = db_Password c2 /\
   db_DBName c1 = db_DBName c2) /\
  (forall dr h po u pw name x mo mi l,
     GetDSN (MkDatabaseConfig dr h po u (pw +:+ " dbname=" +:+ name) x mo mi l) =
     GetDSN (MkDatabaseConfig dr h po u pw (name +:+ " dbname=" +:+ x) mo mi l)).
Proof.
  split; [|intros; unfold GetDSN; cbn [db_Host db_Port db_User db_Password db_DBName]; by rewrite !append_assoc].
  unfold plain_values. rewrite !andb_True. intros [[[? ?] ?] ?] [[[? ?] ?] ?] E. unfold GetDSN in E.
  apply String.app_inj in E. apply (cut_at_space _ _ (_ +:+ _) (_ +:+ _)) in E as [E1 E]; [|done..]. apply String.app_inj in E.
  apply (cut_at_space _ _ (_ +:+ _) (_ +:+ _)) in E as [E2%(inj pretty) E]; [|apply pretty_no_space..]. apply String.app_inj in E.
  apply (cut_at_space _ _ (_ +:+ _) (_ +:+ _)) in E as [E3 E]; [|done..]. apply String.app_inj in E.
  apply (cut_at_space _ _ (_ +:+ _) (_ +:+ _)) in E as [E4 E]; [|done..]. apply String.app_inj in E.
  by apply cut_at_space in E as [E5 _].
Qed.

(** ** Witnesses *)

Definition game_defaults : GameConfig := MkGameConfig 5000 5000 100 100 500.
Definition config_of (host : string) : Config :=
  MkConfig (MkServerConfig host 8080 5000 5000 5000 30)
    (MkDatabaseConfig "postgres" "localhost" 5432 "mmo_user" "mmo_password" "mmo_db" 100 10 3600)
    (MkRedisConfig "localhost" 6379 "" 0 100 10) game_defaults (MkLogConfig "info" "logs/server.log" 100 10 30 true).

(** Directories that have a configuration each, named after them. *)
#[local] Instance two_directories : Viper string := {
  find_in p := if decide (p = "/etc/a" \/ p = "/etc/b") then Some p else None;
  parses _ := true;
  decode p := Some (config_of p)
}.

Lemma config_load_sticky_witness :
  (Load (fun _ => true) [] "/etc/a").2 = inl (config_of "/etc/a") /\
  (Load (fun _ => true) (Load (fun _ => true) [] "/etc/a").1 "/etc/b").2 = (Load (fun _ => true) [] "/etc/a").2.
Proof. split; [reflexivity|]. apply (config_load_sticky (fun _ => true) [] "/etc/a" "/etc/a"). reflexivity. Defined.

Lemma config_load_order_witness : (Load (fun _ => true) [] "/etc/a").1 = ["/etc/a"; "./config"; "."].
Proof. apply (config_load_order (fun _ => true) "/etc/a"). repeat split; discriminate. Defined.

Example log_directory : Dir "logs/server.log" = "logs" /\ Dir "server.log" = "." /\ Dir "/var/../a//b.log" = "/a".
Proof. repeat split; reflexivity. Qed.
