(* ===== verification/NetPumps.v ===== *)
(** * The goroutines of a client of the game server ([pkg/network/server.go])

    [readPump] and [writePump] of one client over the server of [NetServer.v], in
    time: the deadline of reads, the ticker of pings, the frames that arrive and the
    two calls of [Close] at the end.  Every action carries the time at which it
    happens, in nanoseconds; a frame also carries the time at which it arrived.  Of
    the websocket library the model uses that a read fails once the deadline has
    passed unless the frame had arrived before, that the pong handler runs inside
    [ReadMessage], and that a closed connection fails.  Of [time.Ticker] it uses
    that a tick which finds its channel full is dropped. *)

From stdpp Require Import base gmap strings numbers list pretty.
From Stdlib Require Import ZArith Lia.
From S2P Require Import Prelude Float32 Config NetServer.

Local Open Scope Z_scope.

Definition read_timeout (cfg : ServerConfig) : Z := int64 (ReadTimeoutMs cfg * 1000000).

(** [addr] of [Start] *)
Definition server_addr (cfg : ServerConfig) : string := Host cfg +:+ ":" +:+ pretty (Port cfg).

(** The ticker of [heartbeatChecker], as that of [writePump]. *)
Definition heartbeat_ticker (cfg : ServerConfig) : outcome NetError Z :=
  let d := int64 (HeartbeatIntervalSec cfg * 1000000000) in
  if d <=? 0 then Panic else Ret d.

(** Where a goroutine is: in its loop, blocked in a handler, before [Close], in
    [Close] waiting for the lock of the table, or at its end. *)
Inductive phase := InLoop | InHandler | BeforeClose | InClose | Finished.

#[export] Instance phase_eq_dec : EqDecision phase.
Proof. solve_decision. Defined.

(** [due]: the time of the next tick; [unanswered]: the times of the pings without
    an answer, oldest first; [renewed]: when the deadline of reads was last set;
    [cancelled]: the context of the server, from which that of the client derives. *)
Record pumps := MkPumps {
  addr : nat;
  now : Z;
  reader : phase;
  read_deadline : Z;
  renewed : Z;
  writer : phase;
  opened : Z;
  period : Z;
  due : Z;
  unanswered : list Z;
  cancelled : bool
}.

Definition set_now (p : pumps) (t : Z) : pumps :=
  MkPumps (addr p) t (reader p) (read_deadline p) (renewed p) (writer p) (opened p) (period p) (due p) (unanswered p) (cancelled p).
Definition set_reader (p : pumps) (r : phase) : pumps :=
  MkPumps (addr p) (now p) r (read_deadline p) (renewed p) (writer p) (opened p) (period p) (due p) (unanswered p) (cancelled p).
Definition set_writer (p : pumps) (w : phase) : pumps :=
  MkPumps (addr p) (now p) (reader p) (read_deadline p) (renewed p) w (opened p) (period p) (due p) (unanswered p) (cancelled p).

Section pumps.
Context `{Proto}.
Context (cfg : ServerConfig).

(** [SetReadDeadline(time.Now().Add(...))] *)
Definition renew (p : pumps) (t : Z) : pumps :=
  MkPumps (addr p) t (reader p) (t + read_timeout cfg) t (writer p) (opened p) (period p) (due p) (tail (unanswered p)) (cancelled p).

(** The first tick after [t] of a ticker of the given period that started at [t0]. *)
Definition next_tick (t0 d t : Z) : Z := t0 + d * ((t - t0) / d + 1).

Definition pinged (p : pumps) (t : Z) : pumps :=
  MkPumps (addr p) t (reader p) (read_deadline p) (renewed p) (writer p) (opened p) (period p)
    (next_tick (opened p) (period p) t) (unanswered p ++ [t]) (cancelled p).

(** [readPump] starts at [r0] and [writePump] at [w0]. *)
Definition start_pumps (a : nat) (r0 w0 : Z) : outcome NetError pumps :=
  d ← ping_ticker (HeartbeatIntervalSec cfg);
  Ret (MkPumps a (Z.max r0 w0) InLoop (r0 + read_timeout cfg) r0 InLoop w0 d (w0 + d) [] false).

(** [handleWebSocket]; [None] when it blocks. *)
Definition handleWebSocket (s : Server) (upgraded : bool) (c : nat) (nano t r0 w0 : Z) :
    option (outcome NetError (Server * option pumps)) :=
  if upgraded then
    match newClientFromWS s c nano t with
    | None => None
    | Some (s, a) => Some (p ← start_pumps a r0 w0; Ret (s, Some p))
    end
  else Some (Ret (s, None)).

Inductive frame := Data (message : list byte) (clock : nat -> Z) (order : list (string * nat)) | Pong.

Inductive read_error := Timeout | PeerGone | LocallyClosed.

Inductive who := Reader | Writer.

Inductive pump_action :=
  | PRead (arrived t : Z) (f : frame)
  | PReadError (t : Z) (e : read_error)
  | PPing (t : Z) (ok : bool)
  | PWrite (t : Z) (ok : bool)
  | PDone (t : Z)
  | PCancel (t : Z)
  | PCloseBegin (t : Z) (g : who)
  | PCloseEnd (t : Z) (g : who)
  | POther (t : Z) (act : net_action).

Definition action_time (act : pump_action) : Z :=
  match act with
  | PRead _ t _ | PReadError t _ | PPing t _ | PWrite t _ | PDone t | PCancel t | PCloseBegin t _ | PCloseEnd t _ | POther t _ => t
  end.

Definition phase_of (p : pumps) (g : who) : phase := match g with Reader => reader p | Writer => writer p end.
Definition set_phase (p : pumps) (g : who) (ph : phase) : pumps :=
  match g with Reader => set_reader p ph | Writer => set_writer p ph end.

Definition is_closed (s : Server) (a : nat) : bool :=
  match objects s !! a with Some c => closed c | None => false end.

Definition is_closing (s : Server) (a : nat) : bool :=
  match objects s !! a with Some c => closing c | None => false end.

(** The pong handler. *)
Definition pong (s : Server) (a : nat) (t : Z) : Server :=
  match objects s !! a with Some c => set_object s a (set_lastPing c t) | None => s end.

(** One iteration of the loop of [readPump]. *)
Definition read_frame (s : Server) (p : pumps) (t : Z) (f : frame) : option (Server * pumps) :=
  match f with
  | Pong => Some (pong s (addr p) t, renew p t)
  | Data m clock order =>
      match handleMessage clock s (addr p) m order with
      | (s, Continues) => Some (s, p)
      | (s, Blocks) => Some (s, set_reader p InHandler)
      | (s, Panics) => None
      end
  end.

(** [PCancel] is the first statement of [Stop].  [Send] is never closed, so the
    writer always finds it open.  [None] when the action is not possible, or ends
    the program. *)
Definition pump_step (s : Server) (p : pumps) (act : pump_action) : option (Server * pumps) :=
  let t := action_time act in
  if t <? now p then None
  else
    let p := set_now p t in
    match act with
    | PRead arrived _ f =>
        if decide (reader p = InLoop) then
          if (arrived <=? t) && (arrived <=? read_deadline p) then read_frame s p t f else None
        else None
    | PReadError _ e =>
        if decide (reader p = InLoop) then
          match e with
          | Timeout => if read_deadline p <=? t then Some (s, set_reader p BeforeClose) else None
          | PeerGone => Some (s, set_reader p BeforeClose)
          | LocallyClosed => if is_closed s (addr p) then Some (s, set_reader p BeforeClose) else None
          end
        else None
    | PPing _ ok =>
        if decide (writer p = InLoop) then
          if due p <=? t then Some (s, if ok then pinged p t else set_writer p BeforeClose) else None
        else None
    | PWrite _ ok =>
        if decide (writer p = InLoop) then
          match write_pump s (addr p) ok with
          | Some (s, true) => Some (s, p)
          | Some (s, false) => Some (s, set_writer p BeforeClose)
          | None => None
          end
        else None
    | PDone _ =>
        if decide (writer p = InLoop) then
          if is_closed s (addr p) || cancelled p then Some (s, set_writer p BeforeClose) else None
        else None
    | PCancel _ =>
        Some (s, MkPumps (addr p) t (reader p) (read_deadline p) (renewed p) (writer p) (opened p) (period p) (due p) (unanswered p) true)
    | PCloseBegin _ g =>
        if decide (phase_of p g = BeforeClose) then
          match net_step s (NCloseBegin (addr p)) with
          | Some s' => Some (s', set_phase p g (if is_closed s (addr p) then Finished else InClose))
          | None => None
          end
        else None
    | PCloseEnd _ g =>
        if decide (phase_of p g = InClose) then
          match net_step s (NCloseEnd (addr p)) with
          | Some s' => Some (s', set_phase p g Finished)
          | None => None
          end
        else None
    | POther _ act => (fun s' => (s', p)) <$> net_step s act
    end.

(** A run in which every action satisfies [ok] where it happens. *)
Inductive pump_run (ok : pumps -> pump_action -> Prop) : Server -> pumps -> list pump_action -> Server -> pumps -> Prop :=
  | pump_start s p : pump_run ok s p [] s p
  | pump_more s p acts s1 p1 act s2 p2 :
      pump_run ok s p acts s1 p1 -> ok p1 act -> pump_step s1 p1 act = Some (s2, p2) -> pump_run ok s p (acts ++ [act]) s2 p2.

(** A client that answers pings and nothing else with pongs. *)
Definition polite (p : pumps) (act : pump_action) : Prop :=
  match act with
  | PRead arrived _ Pong => match unanswered p with [] => False | u :: _ => u <= arrived end
  | _ => True
  end.

(** The writer takes a tick within [e], and a ping is answered within [d]; nobody
    else handles messages of this client, whose handlers read the clock after the
    message. *)
Definition prompt (e d : Z) (p : pumps) (act : pump_action) : Prop :=
  (writer p = InLoop -> action_time act <= due p + e) /\
  match unanswered p with [] => True | u :: _ => action_time act <= u + d end /\
  match act with
  | PRead _ t (Data _ clock _) => forall i, t <= clock i
  | POther _ (NMessage _ a _ _) => a <> addr p
  | _ => True
  end.
End pumps.

(** ** The last ping of a client *)

(** The client keeps its last ping or gets one that satisfies [P]. *)
Definition ping_or (P : Z -> Prop) (a : nat) (s s' : Server) : Prop :=
  forall c, objects s !! a = Some c -> exists c', objects s' !! a = Some c' /\ (lastPing c' = lastPing c \/ P (lastPing c')).

#[export] Instance ping_or_preorder P a : PreOrder (ping_or P a).
Proof.
  split; [intros s c Hc; exists c; auto|]. intros s1 s2 s3 H1 H2 c Hc.
  destruct (H1 _ Hc) as (c1 & Hc1 & E1), (H2 _ Hc1) as (c2 & Hc2 & E2). exists c2. split; [done|].
  destruct E2 as [->|]; auto.
Qed.

Lemma ping_or_objects P a s s' : objects s' = objects s -> ping_or P a s s'.
Proof. intros E c Hc. exists c. rewrite E. auto. Qed.

Lemma ping_or_set P a s s' b c c' :
  objects s !! b = Some c -> objects s' = <[b := c']> (objects s) -> lastPing c' = lastPing c \/ (a = b -> P (lastPing c')) ->
  ping_or P a s s'.
Proof.
  intros Hb E Hp c0 Hc0. destruct (decide (a = b)) as [<-|Hne].
  - exists c'. rewrite E, lookup_insert_eq. split; [done|]. destruct Hp; [left; congruence|auto].
  - exists c0. rewrite E, lookup_insert_ne by done. auto.
Qed.

Lemma ping_or_SendMessage P a s b m : ping_or P a s (SendMessage s b m).1.
Proof.
  unfold SendMessage. destruct (objects s !! b) as [c|] eqn:Hb; [|reflexivity].
  destruct (_ <? _)%nat; [|reflexivity]. eapply ping_or_set; [done|reflexivity|by left].
Qed.

Lemma ping_or_close_locked P a s b : ping_or P a s (close_locked s b).1.
Proof.
  unfold close_locked. destruct (objects s !! b) as [c|] eqn:Hb; [|reflexivity].
  destruct (closing c); [by apply ping_or_objects|]. destruct (closed c); [reflexivity|].
  eapply ping_or_set; [done|reflexivity|by left].
Qed.

Lemma ping_or_stop P a order : forall s, ping_or P a s (stop_clients s order).1.
Proof.
  induction order as [|[id b] rest IH]; intros s; simpl; [reflexivity|].
  pose proof (ping_or_close_locked P a s b) as Hc. destruct (close_locked s b) as [s' []]; [|done].
  etrans; [exact Hc|apply IH].
Qed.

Lemma ping_or_broadcast_clients P a m order : forall s, ping_or P a s (broadcast_clients s m order).1.
Proof.
  induction order as [|[id b] rest IH]; intros s; simpl; [reflexivity|].
  pose proof (ping_or_SendMessage P a s b m) as Hc. destruct (SendMessage s b m) as [s' o]. simpl in Hc.
  pose proof (ping_or_close_locked P a s' b) as Hl. destruct (close_locked s' b) as [s2 r]. simpl in Hl.
  assert (ping_or P a s s2) as Hl2 by (by etrans).
  destruct o, r; simpl; try done; (etrans; [|apply IH]); done.
Qed.

Lemma ping_or_Broadcast P a s m order : ping_or P a s (Broadcast s m order).1.
Proof. unfold Broadcast. destruct (stuck s); [reflexivity|apply ping_or_broadcast_clients]. Qed.

Lemma ping_or_heartbeats P a timeout t order : forall s, ping_or P a s (heartbeat_clients s timeout t order).1.
Proof.
  induction order as [|[id b] rest IH]; intros s; simpl; [reflexivity|].
  destruct (objects s !! b) as [c|]; [|apply IH]. destruct (_ >? _); [|apply IH].
  pose proof (ping_or_close_locked P a s b) as Hl. destruct (close_locked s b) as [s' []]; [|done].
  etrans; [exact Hl|]. etrans; [|apply IH]. by apply ping_or_objects.
Qed.

Section server.
Context `{Proto}.

Lemma ping_or_reply P a s b id r : ping_or P a s (reply s b id r).1.
Proof.
  unfold reply. destruct (r ≫= marshal) as [data| |]; try reflexivity.
  pose proof (ping_or_SendMessage P a s b (intToBytes id ++ data)) as Hs. by destruct (SendMessage s b _).
Qed.

Lemma ping_or_run_handler clock a s h b m order :
  ping_or (fun z => a = b /\ z = clock 2%nat) a s (run_handler clock s h b m order).1.
Proof.
  destruct h; cbn [run_handler]; [apply ping_or_reply|..|apply ping_or_reply].
  - unfold HandleHeartbeatRequest. destruct (_ ≫= _) as [r| |]; try reflexivity.
    destruct (objects s !! b) as [c|] eqn:Hb; [|reflexivity]. etrans; [|apply ping_or_reply].
    eapply ping_or_set; [done|reflexivity|]. right. auto.
  - apply ping_or_reply.
  - unfold HandleChatRequest. destruct (unmarshal _ _) as [r| |]; try reflexivity.
    destruct (chat_response clock r); try reflexivity. destruct (decide _); [|apply ping_or_reply].
    destruct (marshal _) as [data| |]; try reflexivity.
    pose proof (ping_or_Broadcast (fun z => a = b /\ z = clock 2%nat) a s (intToBytes CHAT_REQUEST ++ data) order) as Hb.
    destruct (Broadcast s _ order) as [s' []]; [|done]. etrans; [exact Hb|apply ping_or_reply].
Qed.

Lemma ping_or_handleMessage clock a s b m order :
  ping_or (fun z => a = b /\ z = clock 2%nat) a s (handleMessage clock s b m order).1.
Proof.
  unfold handleMessage. destruct (_ <? _)%nat; [reflexivity|]. destruct (handlers s !! _) as [h|]; [|reflexivity].
  pose proof (ping_or_run_handler clock a s h b m order) as Hr. by destruct (run_handler clock s h b m order) as [s' [[]|]].
Qed.

Lemma ping_or_write a b s ok s' r : write_pump s b ok = Some (s', r) -> ping_or (fun _ => False) a s s'.
Proof.
  unfold write_pump. destruct (objects s !! b) as [c|] eqn:Hb; [|done]. destruct (Send c) as [|m q]; [done|].
  intros [= <- <-]. eapply ping_or_set; [done|by destruct ok|by left].
Qed.

(** Only a message of the client itself, or a pong, changes its last ping. *)
Lemma net_step_lastPing a s act s' :
  match act with NMessage _ b _ _ => b <> a | _ => True end -> net_step s act = Some s' -> ping_or (fun _ => False) a s s'.
Proof.
  intros Hm Hs. destruct act; cbn [net_step] in Hs.
  - unfold newClientFromWS in Hs. simpl in Hs. destruct (stuck s); [done|]. injection Hs as <-. intros c Hc. exists c. simpl.
    rewrite lookup_insert_ne; [auto|]. intros E. apply (is_fresh (dom (objects s))). rewrite E. by apply elem_of_dom_2 in Hc.
  - destruct (objects s !! a0) as [c|] eqn:Hb; [|done]. destruct (closing c); [done|].
    destruct (closed c); injection Hs as <-; [reflexivity|]. eapply ping_or_set; [done|reflexivity|by left].
  - destruct (objects s !! a0) as [c|] eqn:Hb; [|done]. destruct (_ && _); [|done]. injection Hs as <-.
    eapply ping_or_set; [done|reflexivity|by left].
  - destruct (stuck s) eqn:Hk; [done|]. injection Hs as <-. unfold Stop. rewrite Hk. apply ping_or_stop.
  - destruct (stuck s); [done|]. injection Hs as <-. apply ping_or_Broadcast.
  - destruct (stuck s) eqn:Hk; [done|]. injection Hs as <-. unfold checkHeartbeats. rewrite Hk. apply ping_or_heartbeats.
  - destruct (objects s !! a0); [|done]. injection Hs as <-. apply ping_or_SendMessage.
  - destruct (write_pump s a0 ok) as [[s1 r]|] eqn:Hw; [|done]. injection Hs as <-. by eapply ping_or_write.
  - pose proof (ping_or_handleMessage clock a s a0 message order) as Hh.
    destruct (handleMessage clock s a0 message order) as [s1 n]. simpl in Hh.
    assert (ping_or (fun _ => False) a s s1) as Hp.
    { intros c Hc. destruct (Hh c Hc) as (c' & ? & [?|[? _]]); [exists c'; auto|congruence]. }
    by destruct n; [injection Hs as <-|..|injection Hs as <-].
Qed.
End server.

Section timing.
Context `{Proto}.
Context (cfg : ServerConfig).

(** What a step does to the times. *)
Definition times_step (p p' : pumps) (act : pump_action) : Prop :=
  match act with
  | PRead _ t Pong => read_deadline p' = t + read_timeout cfg /\ renewed p' = t /\ due p' = due p /\ unanswered p' = tail (unanswered p)
  | PPing t true =>
      due p <= t /\ read_deadline p' = read_deadline p /\ renewed p' = renewed p /\
      due p' = next_tick (opened p) (period p) t /\ unanswered p' = unanswered p ++ [t]
  | _ => read_deadline p' = read_deadline p /\ renewed p' = renewed p /\ due p' = due p /\ unanswered p' = unanswered p
  end.

Lemma pump_step_times s p act s' p' :
  pump_step cfg s p act = Some (s', p') ->
  now p <= action_time act /\ now p' = action_time act /\ addr p' = addr p /\ opened p' = opened p /\ period p' = period p /\
  (writer p' = InLoop -> writer p = InLoop) /\ times_step p p' act /\
  match act with
  | PRead arrived t _ => reader p = InLoop /\ arrived <= t /\ arrived <= read_deadline p
  | PReadError t Timeout => read_deadline p <= t
  | _ => True
  end.
Proof.
  unfold pump_step. destruct (Z.ltb_spec (action_time act) (now p)) as [|Hn]; [done|].
  destruct act as [arrived t f|t e|t ok|t ok|t|t|t g|t g|t act]; cbn [action_time] in *; intros Hs;
    cbn [set_now reader writer read_deadline due addr] in Hs.
  - destruct (decide _) as [Hr|]; [|done]. destruct (_ && _) eqn:Hb; [|done].
    apply andb_true_iff in Hb as [Hb1%Z.leb_le Hb2%Z.leb_le].
    unfold read_frame in Hs. destruct f as [m clock order|].
    + destruct (handleMessage _ _ _ _ _) as [s1 []]; try done; injection Hs as <- <-; simpl; split_and!; auto; lia.
    + injection Hs as <- <-. simpl. split_and!; auto; lia.
  - destruct (decide _); [|done]. destruct e.
    + destruct (Z.leb_spec (read_deadline p) t); [|done]. injection Hs as <- <-. simpl. split_and!; auto.
    + injection Hs as <- <-. simpl. split_and!; auto.
    + destruct (is_closed _ _); [|done]. injection Hs as <- <-. simpl. split_and!; auto.
  - destruct (decide _); [|done]. destruct (Z.leb_spec (due p) t); [|done]. injection Hs as <- <-.
    destruct ok; simpl; split_and!; auto; done.
  - destruct (decide _); [|done]. destruct (write_pump _ _ _) as [[s1 []]|]; [..|done]; injection Hs as <- <-; simpl;
      split_and!; auto; done.
  - destruct (decide _); [|done]. destruct (_ || _); [|done]. injection Hs as <- <-. simpl; split_and!; auto; done.
  - injection Hs as <- <-. simpl. split_and!; auto.
  - destruct (decide _) as [Hg|]; [|done]. destruct (net_step _ _); [|done]. injection Hs as <- <-.
    destruct g; simpl in *; split_and!; auto; by destruct (is_closed _ _).
  - destruct (decide _) as [Hg|]; [|done]. destruct (net_step _ _); [|done]. injection Hs as <- <-.
    destruct g; simpl in *; split_and!; auto; done.
  - destruct (net_step s act); [|done]. injection Hs as <- <-. simpl. split_and!; auto.
Qed.

Lemma next_tick_bounds t0 d t : 0 < d -> t < next_tick t0 d t <= t + d.
Proof.
  intros Hd. unfold next_tick. pose proof (Z.div_mod (t - t0) d ltac:(lia)) as E. pose proof (Z.mod_pos_bound (t - t0) d Hd). nia.
Qed.

Lemma start_pumps_inv a r0 w0 p : start_pumps cfg a r0 w0 = Ret p ->
  0 < period p /\ p = MkPumps a (Z.max r0 w0) InLoop (r0 + read_timeout cfg) r0 InLoop w0 (period p) (w0 + period p) [] false.
Proof.
  unfold start_pumps, ping_ticker. destruct (Z.leb_spec (int64 (Z.quot (HeartbeatIntervalSec cfg) 2 * 1000000000)) 0) as [|Hp]; [done|].
  intros [= <-]. by split.
Qed.

Lemma handleWebSocket_inv s c nano t0 r0 w0 s0 p0 :
  handleWebSocket cfg s true c nano t0 r0 w0 = Some (Ret (s0, Some p0)) ->
  start_pumps cfg (addr p0) r0 w0 = Ret p0 /\
  objects s0 !! addr p0 = Some (MkClient (generateID nano) c [] false false t0).
Proof.
  unfold handleWebSocket. destruct (newClientFromWS s c nano t0) as [[s1 a]|] eqn:Hn; [|done].
  destruct (start_pumps cfg a r0 w0) as [p| |] eqn:Hp; try done. intros [= <- <-].
  destruct (start_pumps_inv _ _ _ _ Hp) as [_ E]. assert (addr p = a) as -> by (rewrite E; done). split; [done|].
  unfold newClientFromWS in Hn. simpl in Hn. destruct (stuck s); [done|]. injection Hn as <- <-. simpl. apply lookup_insert_eq.
Qed.

(** *** A deadline before the first ping *)

(** No ping before the first tick, no pong before a ping. *)
Definition silent_inv (r0 w0 d : Z) (p : pumps) : Prop :=
  read_deadline p = r0 + read_timeout cfg /\ Forall (fun u => w0 + d <= u) (unanswered p) /\ w0 + d <= due p /\ period p = d.

Lemma silent_step r0 w0 d s p act s' p' :
  0 < d -> r0 + read_timeout cfg < w0 + d -> silent_inv r0 w0 d p -> polite p act -> pump_step cfg s p act = Some (s', p') ->
  silent_inv r0 w0 d p' /\ forall arrived t, act <> PRead arrived t Pong.
Proof.
  intros Hd Hlt (H1 & H2 & H3 & H4) Hpol Hs. apply pump_step_times in Hs as (_ & _ & _ & _ & E & _ & Ht & Hx).
  destruct act as [arrived t [m clock order|]|t e|t []|t ok|t|t|t g|t g|t act]; cbn [times_step] in Ht;
    try (destruct Ht as (? & ? & ? & ?); split; [|done]; unfold silent_inv; split_and!; congruence).
  - simpl in Hpol. destruct (unanswered p) as [|u us]; [done|]. apply Forall_cons in H2 as [Hu _]. lia.
  - destruct Ht as (Ht & E1 & _ & E2 & E3). split; [|done]. rewrite H4 in E, E2. unfold silent_inv. rewrite E1, E2, E3. split_and!; [done| | |done].
    + apply Forall_app. split; [done|]. apply Forall_singleton. lia.
    + pose proof (next_tick_bounds (opened p) d t Hd). lia.
Qed.

Lemma silent_run r0 w0 d s p acts s' p' :
  0 < d -> r0 + read_timeout cfg < w0 + d -> silent_inv r0 w0 d p -> pump_run cfg polite s p acts s' p' ->
  silent_inv r0 w0 d p' /\ forall arrived t f, PRead arrived t f ∈ acts -> arrived <= r0 + read_timeout cfg /\ f <> Pong.
Proof.
  intros Hd Hlt Hi. induction 1 as [s p|s p acts s1 p1 act s2 p2 Hr IH Hok Hs].
  - split; [done|]. intros ??? Hin. by apply elem_of_nil in Hin.
  - destruct (IH Hi) as [Hi1 Ha]. destruct (silent_step _ _ _ _ _ _ _ _ Hd Hlt Hi1 Hok Hs) as [Hi2 Hnp]. split; [done|].
    intros arrived t f [Hin|Hin%list_elem_of_singleton]%elem_of_app; [by eapply Ha|]. subst act. split.
    + apply pump_step_times in Hs as (_ & _ & _ & _ & _ & _ & _ & _ & _ & Hle). destruct Hi1 as [<- _]. done.
    + intros ->. by destruct (Hnp arrived t).
Qed.

(** [Close] of a client that is open, by its reader, takes it out of the table. *)
Lemma reader_closes s p c t :
  reader p = BeforeClose -> now p <= t -> objects s !! addr p = Some c -> closed c = false -> closing c = false -> stuck s = false ->
  exists s1 p1 s2 p2, pump_step cfg s p (PCloseBegin t Reader) = Some (s1, p1) /\
    pump_step cfg s1 p1 (PCloseEnd t Reader) = Some (s2, p2) /\
    clients s2 !! ID c = None /\ is_closed s2 (addr p) = true /\ reader p2 = Finished.
Proof.
  intros Hr Ht Hc Hcl Hcg Hst. unfold pump_step. cbn [action_time]. rewrite (proj2 (Z.ltb_ge _ _)) by done.
  cbn [phase_of set_now reader addr]. rewrite decide_True by done. cbn [net_step]. rewrite Hc, Hcg, Hcl. unfold is_closed at 1.
  rewrite Hc, Hcl. do 4 eexists. split; [done|]. cbn [set_phase set_reader now reader addr]. rewrite Z.ltb_irrefl, decide_True by done.
  simpl. rewrite lookup_insert_eq. simpl. rewrite Hst. simpl. split; [done|]. simpl. rewrite lookup_delete_eq. split_and!; try done.
  unfold is_closed. simpl. by rewrite lookup_insert_eq.
Qed.

(** C25: when the first ping is due after the first deadline, a client that sends pongs only
    as answers to pings never sends one in time: of what it sends nothing that arrives
    later than the timeout after its connection is read, however many other messages it sends, and
    from the deadline on the reader ends and takes the client out of the table.  Pongs
    that nobody asked for would move the deadline. *)
Theorem net_read_timeout s c nano t0 r0 w0 s0 p0 acts s1 p1
    (Hstart : handleWebSocket cfg s true c nano t0 r0 w0 = Some (Ret (s0, Some p0)))
    (Hlate : r0 + read_timeout cfg < w0 + period p0) (Hrun : pump_run cfg polite s0 p0 acts s1 p1) :
  (forall arrived t f, PRead arrived t f ∈ acts -> arrived <= r0 + read_timeout cfg /\ f <> Pong) /\
  (forall t cl, reader p1 = InLoop -> now p1 <= t -> r0 + read_timeout cfg <= t ->
     objects s1 !! addr p1 = Some cl -> closed cl = false -> closing cl = false -> stuck s1 = false ->
     exists p2 s3 p3 s4 p4, pump_step cfg s1 p1 (PReadError t Timeout) = Some (s1, p2) /\
       pump_step cfg s1 p2 (PCloseBegin t Reader) = Some (s3, p3) /\
       pump_step cfg s3 p3 (PCloseEnd t Reader) = Some (s4, p4) /\
       clients s4 !! ID cl = None /\ is_closed s4 (addr p1) = true).
Proof.
  destruct (handleWebSocket_inv _ _ _ _ _ _ _ _ Hstart) as [Hp _]. destruct (start_pumps_inv _ _ _ _ Hp) as [Hd E].
  assert (silent_inv r0 w0 (period p0) p0) as Hi by (rewrite E; split_and!; [done|by constructor|simpl; lia|done]).
  destruct (silent_run _ _ _ _ _ _ _ _ Hd Hlate Hi Hrun) as [[Hi1 _] Ha]. split; [done|].
  intros t cl Hr Ht Hdl Hc Hcl Hcg Hst.
  destruct (reader_closes s1 (set_reader (set_now p1 t) BeforeClose) cl t) as (s3 & p3 & s4 & p4 & E1 & E2 & E3 & E4 & _); try done.
  exists (set_reader (set_now p1 t) BeforeClose), s3, p3, s4, p4. split; [|done].
  unfold pump_step. cbn [action_time]. rewrite (proj2 (Z.ltb_ge _ _)) by done. cbn [set_now reader read_deadline].
  rewrite decide_True by done. by rewrite (proj2 (Z.leb_le _ _)) by lia.
Qed.

(** *** Pings that keep a client *)

Definition alive_inv (e lag : Z) (s : Server) (p : pumps) : Prop :=
  0 < period p /\ read_deadline p = renewed p + read_timeout cfg /\ renewed p <= now p /\ due p <= now p + period p /\
  (writer p = InLoop ->
     match unanswered p with
     | [] => due p <= renewed p + period p + e
     | u :: _ => u <= renewed p + period p + 2 * e
     end) /\
  Forall (fun u => u <= now p) (unanswered p) /\
  forall c, objects s !! addr p = Some c -> renewed p - lag <= lastPing c.

(** How a step changes the last ping of the client. *)
Lemma pump_step_lastPing s p act s' p' lag :
  0 <= lag -> (forall c, objects s !! addr p = Some c -> renewed p - lag <= lastPing c) -> renewed p <= now p ->
  match act with
  | PRead _ t (Data _ clock _) => forall i, t <= clock i
  | POther _ (NMessage _ a _ _) => a <> addr p
  | _ => True
  end ->
  is_Some (objects s !! addr p) -> pump_step cfg s p act = Some (s', p') ->
  is_Some (objects s' !! addr p) /\ forall c, objects s' !! addr p = Some c -> renewed p' - lag <= lastPing c.
Proof.
  intros Hlag Hl Hrn Hok [c0 Hc0] Hs. pose proof (pump_step_times _ _ _ _ _ Hs) as (Hnow & _ & _ & _ & _ & _ & Ht & Hx).
  enough (exists c', objects s' !! addr p = Some c' /\ renewed p' - lag <= lastPing c') as (c' & Hc' & Hle).
  { split; [by exists c'|]. intros c Hc. congruence. }
  specialize (Hl _ Hc0).
  assert (forall P, ping_or P (addr p) s s' -> renewed p' = renewed p -> (forall z, P z -> renewed p <= z) ->
    exists c', objects s' !! addr p = Some c' /\ renewed p' - lag <= lastPing c') as Hping.
  { intros P Hpo Er HP. destruct (Hpo _ Hc0) as (c' & Hc' & [E|Hz]); exists c'; (split; [done|]); [lia|]. apply HP in Hz. lia. }
  unfold pump_step in Hs. destruct (_ <? _); [done|].
  destruct act as [arrived t f|t e|t ok|t ok|t|t|t g|t g|t act]; cbn [action_time set_now reader writer addr] in *.
  - destruct (decide _); [|done]. destruct (_ && _); [|done]. destruct f as [m clock order|]; cbn [read_frame] in Hs.
    + pose proof (ping_or_handleMessage clock (addr p) s (addr p) m order) as Hh. cbn [addr set_now] in Hs.
      destruct Ht as (_ & Er & _). destruct (handleMessage clock s (addr p) m order) as [s1 n]. simpl in Hh.
      assert (s' = s1) as -> by (by destruct n; simplify_eq). eapply Hping; [exact Hh|done|].
      intros z [_ ->]. specialize (Hok 2%nat). lia.
    + destruct Ht as (_ & Er & _). injection Hs as <- <-. simpl in Er. unfold pong. cbn [addr set_now]. rewrite Hc0.
      exists (set_lastPing c0 t). simpl. rewrite lookup_insert_eq. split; [done|]. simpl. lia.
  - destruct Ht as (_ & Er & _). destruct (decide _); [|done]. apply (Hping (fun _ => False)); [|done|done].
    destruct e; [destruct (_ <=? _)| |destruct (is_closed _ _)]; try done; injection Hs as <- <-; reflexivity.
  - destruct (decide _); [|done]. destruct (_ <=? _); [|done]. apply (Hping (fun _ => False)); [|by destruct ok; naive_solver|done].
    injection Hs as <- <-. reflexivity.
  - destruct Ht as (_ & Er & _). destruct (decide _); [|done]. destruct (write_pump _ _ _) as [[s1 r]|] eqn:Hw; [|done].
    apply (Hping (fun _ => False)); [|done|done]. assert (s' = s1) as -> by (by destruct r; simplify_eq). by eapply ping_or_write.
  - destruct Ht as (_ & Er & _). destruct (decide _); [|done]. destruct (_ || _); [|done]. injection Hs as <- <-.
    apply (Hping (fun _ => False)); [reflexivity|done|done].
  - destruct Ht as (_ & Er & _). injection Hs as <- <-. apply (Hping (fun _ => False)); [reflexivity|done|done].
  - destruct Ht as (_ & Er & _). destruct (decide _); [|done]. destruct (net_step s _) as [s1|] eqn:Hn; [|done]. injection Hs as <- <-.
    apply (Hping (fun _ => False)); [by eapply net_step_lastPing; [|exact Hn]|done|done].
  - destruct Ht as (_ & Er & _). destruct (decide _); [|done]. destruct (net_step s _) as [s1|] eqn:Hn; [|done]. injection Hs as <- <-.
    apply (Hping (fun _ => False)); [by eapply net_step_lastPing; [|exact Hn]|done|done].
  - destruct Ht as (_ & Er & _). destruct (net_step s act) as [s1|] eqn:Hn; [|done]. injection Hs as <- <-.
    apply (Hping (fun _ => False)); [|done|done]. eapply net_step_lastPing; [|exact Hn]. by destruct act.
Qed.

Lemma alive_step e d lag s p act s' p' :
  0 <= e -> 0 <= lag -> alive_inv e lag s p -> is_Some (objects s !! addr p) -> prompt e d p act ->
  pump_step cfg s p act = Some (s', p') -> alive_inv e lag s' p' /\ is_Some (objects s' !! addr p').
Proof.
  intros He Hlag (Hd & Hdl & Hrn & Hdue & Hw & Hu & Hl) Ho (Hp1 & Hp2 & Hp3) Hs.
  destruct (pump_step_lastPing _ _ _ _ _ lag Hlag Hl Hrn Hp3 Ho Hs) as [Ho' Hl'].
  apply pump_step_times in Hs as (Hn & En & Ea & Eo & Ep & Hwr & Ht & _). rewrite Ea. split; [|done].
  unfold alive_inv. rewrite Ea, En, Ep.
  assert (Forall (fun u => u <= action_time act) (unanswered p)) as Hu' by (eapply Forall_impl; [exact Hu|simpl; lia]).
  destruct act as [arrived t [m clock order|]|t er|t []|t ok|t|t|t g|t g|t act]; cbn [times_step action_time] in *;
    try (destruct Ht as (-> & Er & -> & ->); rewrite Er in Hl' |- *; split_and!; try (intros W; exact (Hw (Hwr W))); auto; lia).
  - destruct Ht as (-> & Er & -> & ->). rewrite Er. split_and!; auto; try lia.
    + intros _. destruct (unanswered p) as [|u1 [|u2 us]]; simpl; [lia..|]. apply Forall_cons in Hu' as [_ [? _]%Forall_cons]. lia.
    + destruct (unanswered p); [done|]. by apply Forall_cons in Hu' as [_ ?].
    + by rewrite <- Er.
  - destruct Ht as (Hdt & E1 & E2 & E3 & E4). rewrite E1, E2, E3, E4. pose proof (next_tick_bounds (opened p) (period p) t Hd).
    split_and!; auto; try lia.
    + intros W. specialize (Hw (Hwr W)). specialize (Hp1 (Hwr W)). destruct (unanswered p); simpl; lia.
    + apply Forall_app. split; [done|]. apply Forall_singleton. lia.
    + by rewrite <- E2.
Qed.

Lemma alive_run e d lag s p acts s' p' :
  0 <= e -> 0 <= lag -> alive_inv e lag s p -> is_Some (objects s !! addr p) -> pump_run cfg (prompt e d) s p acts s' p' ->
  alive_inv e lag s' p' /\ is_Some (objects s' !! addr p').
Proof.
  intros He Hlag Hi Ho. induction 1 as [|s p acts s1 p1 act s2 p2 Hr IH Hok Hs]; [done|].
  destruct (IH Hi Ho). by eapply alive_step.
Qed.

(** Nothing prompt happens long after the deadline was last set. *)
Lemma alive_bound e d lag s p act : 0 <= d -> alive_inv e lag s p -> writer p = InLoop -> prompt e d p act ->
  action_time act <= renewed p + period p + 2 * e + d.
Proof.
  intros Hd (_ & _ & _ & _ & Hw & _) W (Hp1 & Hp2 & _). specialize (Hw W). specialize (Hp1 W).
  destruct (unanswered p); lia.
Qed.

(** C24: a client that answers each ping within [d], on a server whose delays are at most [e], is not
    timed out by its reader as long as its writer runs, if the read timeout is more than the period of the pings
    with two delays and the time of an answer; and not by the check of the heartbeats either,
    if moreover the heartbeat timeout is at least the period with three delays and the time of an answer. *)
Theorem net_pings_keep e d s c nano t0 r0 w0 s0 p0 acts s1 p1
    (He : 0 <= e) (Hd : 0 <= d) (Hstart : handleWebSocket cfg s true c nano t0 r0 w0 = Some (Ret (s0, Some p0)))
    (Hr0 : t0 <= r0 <= t0 + e) (Hw0 : w0 <= r0 + e) (Hslack : period p0 + 2 * e + d < read_timeout cfg)
    (Hrun : pump_run cfg (prompt e d) s0 p0 acts s1 p1) (Hw : writer p1 = InLoop) :
  (forall t, prompt e d p1 (PReadError t Timeout) -> pump_step cfg s1 p1 (PReadError t Timeout) = None) /\
  (forall t order, prompt e d p1 (POther t (NHeartbeats (HeartbeatIntervalSec cfg) t order)) ->
     period p0 + 3 * e + d <= heartbeat_timeout (HeartbeatIntervalSec cfg) ->
     exists cl, objects s1 !! addr p1 = Some cl /\
       (t - lastPing cl >? heartbeat_timeout (HeartbeatIntervalSec cfg)) = false).
Proof.
  destruct (handleWebSocket_inv _ _ _ _ _ _ _ _ Hstart) as [Hp Ho]. destruct (start_pumps_inv _ _ _ _ Hp) as [Hpos E].
  assert (alive_inv e e s0 p0) as Hi.
  { unfold alive_inv. split; [done|]. rewrite Ho. rewrite E. simpl. split_and!; try lia; [constructor|]. intros ? [= <-]. simpl. lia. }
  assert (period p1 = period p0) as Eper.
  { clear - Hrun. induction Hrun as [|s p acts s1 p1 act s2 p2 Hr IH Hok Hs]; [done|].
    apply pump_step_times in Hs as (_ & _ & _ & _ & Ep & _). congruence. }
  destruct (alive_run _ d _ _ _ _ _ _ He He Hi (mk_is_Some _ _ Ho) Hrun) as [Hi1 [cl Hcl]].
  split.
  - intros t Hprompt. pose proof (alive_bound _ _ _ _ _ _ Hd Hi1 Hw Hprompt) as Hb. simpl in Hb.
    destruct (pump_step cfg s1 p1 (PReadError t Timeout)) as [[s2 p2]|] eqn:Hs; [|done].
    apply pump_step_times in Hs as (_ & _ & _ & _ & _ & _ & _ & Hx). destruct Hi1 as (_ & Hdl & _). lia.
  - intros t order Hprompt Hhb. exists cl. split; [done|]. pose proof (alive_bound _ _ _ _ _ _ Hd Hi1 Hw Hprompt) as Hb. simpl in Hb.
    destruct Hi1 as (_ & _ & _ & _ & _ & _ & Hl). specialize (Hl _ Hcl). rewrite Z.gtb_ltb. apply Z.ltb_ge. lia.
Qed.
End timing.

(** ** Witnesses *)

(** [config/config.json] *)
Definition repo_config : ServerConfig := MkServerConfig "0.0.0.0" 8080 5000 5000 5000 30.
Definition quick_config : ServerConfig := MkServerConfig "0.0.0.0" 8080 5000 5000 5000 2.

Definition sec : Z := 1000000000.
Definition fresh_client (cfg : ServerConfig) : Server * option pumps :=
  match @handleWebSocket cfg (NewMessageProcessor NewServer) true 7 100 0 0 0 with
  | Some (Ret r) => r
  | _ => (NewServer, None)
  end.
Definition no_pumps : pumps := MkPumps 0 0 Finished 0 0 Finished 0 1 0 [] false.
Definition pumps_of (cfg : ServerConfig) : pumps := default no_pumps (fresh_client cfg).2.

(** What a list of actions leads to. *)
Definition pump_after (cfg : ServerConfig) (acts : list pump_action) : Server * pumps :=
  foldl (fun sp act => default sp (@pump_step toy_proto cfg sp.1 sp.2 act)) ((fresh_client cfg).1, pumps_of cfg) acts.

Definition a_message : pump_action := PRead (4 * sec) (4 * sec) (Data (intToBytes HEARTBEAT_REQUEST ++ [Byte.x01]) (fun _ => 4 * sec) []).

Lemma net_read_timeout_witness :
  exists p2 s3 p3 s4 p4,
    @pump_step toy_proto repo_config (pump_after repo_config [a_message]).1 (pump_after repo_config [a_message]).2 (PReadError (5 * sec) Timeout) =
      Some ((pump_after repo_config [a_message]).1, p2) /\
    @pump_step toy_proto repo_config (pump_after repo_config [a_message]).1 p2 (PCloseBegin (5 * sec) Reader) = Some (s3, p3) /\
    @pump_step toy_proto repo_config s3 p3 (PCloseEnd (5 * sec) Reader) = Some (s4, p4) /\
    clients s4 !! "100"%string = None /\ is_closed s4 0 = true.
Proof.
  destruct (@net_read_timeout toy_proto repo_config (NewMessageProcessor NewServer) 7 100 0 0 0
    (fresh_client repo_config).1 (pumps_of repo_config) [a_message] (pump_after repo_config [a_message]).1 (pump_after repo_config [a_message]).2)
    as [_ Hend].
  - vm_compute. reflexivity.
  - vm_compute. reflexivity.
  - apply (pump_more repo_config polite _ _ [] (fresh_client repo_config).1 (pumps_of repo_config)); [constructor|exact I|].
    vm_compute. reflexivity.
  - apply (Hend (5 * sec) (MkClient "100" 7 [intToBytes HEARTBEAT_RESPONSE ++ [Byte.x2a]] false false (4 * sec)));
      solve [vm_compute; reflexivity|vm_compute; discriminate].
Defined.

Definition ping_pong : list pump_action := [PPing (1 * sec) true; PRead (1 * sec + 5) (1 * sec + 6) Pong].

Lemma net_pings_keep_witness :
  @pump_step toy_proto quick_config (pump_after quick_config ping_pong).1 (pump_after quick_config ping_pong).2 (PReadError (2 * sec) Timeout) = None /\
  exists cl, objects (pump_after quick_config ping_pong).1 !! 0%nat = Some cl /\
    (2 * sec - lastPing cl >? heartbeat_timeout 2) = false.
Proof.
  destruct (@net_pings_keep toy_proto quick_config 100000000 sec (NewMessageProcessor NewServer) 7 100 0 0 0
    (fresh_client quick_config).1 (pumps_of quick_config) ping_pong (pump_after quick_config ping_pong).1 (pump_after quick_config ping_pong).2)
    as [H1 H2].
  - vm_compute. discriminate.
  - vm_compute. discriminate.
  - vm_compute. reflexivity.
  - split; vm_compute; discriminate.
  - vm_compute. discriminate.
  - vm_compute. reflexivity.
  - apply (pump_more quick_config (prompt 100000000 sec) _ _ [PPing (1 * sec) true] (pump_after quick_config [PPing (1 * sec) true]).1
      (pump_after quick_config [PPing (1 * sec) true]).2).
    + apply (pump_more quick_config (prompt 100000000 sec) _ _ [] (fresh_client quick_config).1 (pumps_of quick_config)); [constructor| |].
      * split; [|split; exact I]. intros _. vm_compute. discriminate.
      * vm_compute. reflexivity.
    + split; [|split; [|exact I]]; [intros _|]; vm_compute; discriminate.
    + vm_compute. reflexivity.
  - vm_compute. reflexivity.
  - split.
    + apply H1. split; [|split; [|exact I]]; [intros _; vm_compute; discriminate|vm_compute; exact I].
    + destruct (H2 (2 * sec) []) as (cl & Hc & Hl).
      * split; [|split; [|exact I]]; [intros _; vm_compute; discriminate|vm_compute; exact I].
      * vm_compute. intros E. discriminate E.
      * exists cl. split; [exact Hc|exact Hl].
Defined.
