(* ===== verification/GrpcRpc.v ===== *)
(** * Remote calls ([pkg/rpc/rpc.go], [grpc_server.go], [grpc_client.go], [call.go])

    The methods of a service and how they are found by reflection, the dispatch of a
    request on the server, the client with its retries, asynchronous calls and the
    end of a client.  Types are described as [reflect] describes them.  Protocol
    buffer messages and [anypb] are a class with the laws of their documentation;
    the network is what it answers to each attempt. *)

From stdpp Require Import base gmap strings numbers list.
From Stdlib Require Import ZArith Lia.
From S2P Require Import Prelude RpcWire.

Local Open Scope Z_scope.

(** ** Types *)

(** [Named path pkg name]: a defined type, with the import path of its package, as
    [PkgPath] returns it, the name of the package and its own; both are empty for a
    predeclared type. *)
Inductive go_type :=
  | Ptr (t : go_type)
  | Named (pkgPath pkgName name : string).

#[export]
Instance go_type_eq_dec : EqDecision go_type.
Proof. solve_decision. Defined.

Fixpoint type_String (t : go_type) : string :=
  match t with
  | Ptr t => "*" +:+ type_String t
  | Named _ pkg name => if decide (pkg = ""%string) then name else pkg +:+ "." +:+ name
  end.

(** [isExportedOrBuiltinType] *)
Fixpoint isExportedOrBuiltinType (t : go_type) : bool :=
  match t with
  | Ptr t => isExportedOrBuiltinType t
  | Named path _ _ => bool_decide (path = ""%string) || bool_decide (path = "proto_define"%string)
  end.

Definition error_type : go_type := Named "" "" "error".

(** [reflect.Method]: the inputs begin with the receiver. *)
Record go_method (F : Type) := MkMethod {
  m_Name : string;
  m_PkgPath : string;
  m_In : list go_type;
  m_Out : list go_type;
  m_Func : F
}.
Arguments MkMethod {F}. Arguments m_Name {F}. Arguments m_PkgPath {F}. Arguments m_In {F}. Arguments m_Out {F}. Arguments m_Func {F}.

Record MethodType (F : Type) := MkMethodType {
  Method : F;
  ArgType : go_type;
  ReplyType : go_type
}.
Arguments MkMethodType {F}. Arguments Method {F}. Arguments ArgType {F}. Arguments ReplyType {F}.

Record Service (F : Type) := MkService {
  Name : string;
  Methods : gmap string (MethodType F)
}.
Arguments MkService {F}. Arguments Name {F}. Arguments Methods {F}.

Section services.
Context {F : Type}.

(** The condition under which [NewService] takes a method. *)
Definition method_type (m : go_method F) : option (MethodType F) :=
  if decide (m_PkgPath m <> ""%string) then None
  else
    match m_In m, m_Out m with
    | [_; ctx; arg; reply], [out] =>
        if bool_decide (type_String ctx = "context.Context"%string) && isExportedOrBuiltinType arg
           && isExportedOrBuiltinType reply && bool_decide (out = error_type)
        then Some (MkMethodType (m_Func m) arg reply) else None
    | _, _ => None
    end.

Fixpoint register_methods (ms : list (go_method F)) (acc : gmap string (MethodType F)) : gmap string (MethodType F) :=
  match ms with
  | [] => acc
  | m :: rest =>
      match method_type m with
      | Some mt => register_methods rest (<[m_Name m := mt]> acc)
      | None => register_methods rest acc
      end
  end.

Inductive RpcError :=
  | NoServiceName
  | ServiceRegistered (name : string)
  | ServiceNotFound (name : string)
  | MethodNotFound (service method : string)
  | MethodFailed (text : string).

(** [NewService]: [name] is the name of the receiver's type, [ms] its methods. *)
Definition NewService (name : string) (ms : list (go_method F)) : outcome RpcError (Service F) :=
  if decide (name = ""%string) then Fail NoServiceName else Ret (MkService name (register_methods ms ∅)).
End services.
Arguments RpcError : clear implicits.

(** ** Messages *)

(** [pb_type m]: the Go type of a message, a pointer.  [pb_zero t] is
    [reflect.New(t.Elem())].  [UnmarshalTo] resets the message it is given and fails
    when the types differ. *)
Class Protobuf (msg any : Type) := {
  pb_type : msg -> go_type;
  implements : go_type -> bool;
  pb_zero : go_type -> msg;
  any_New : msg -> option any;
  UnmarshalTo : any -> msg -> option msg;
  zero_type t : pb_type (pb_zero t) = t;
  any_roundtrip m a t : any_New m = Some a -> pb_type t = pb_type m -> UnmarshalTo a t = Some m
}.

Record pb_RPCRequest (any : Type) := MkReq { q_ServiceMethod : string; q_Sequence : Z; q_Args : option any }.
Arguments MkReq {any}. Arguments q_ServiceMethod {any}. Arguments q_Sequence {any}. Arguments q_Args {any}.

Record pb_RPCResponse (any : Type) := MkResp {
  p_ServiceMethod : string; p_Sequence : Z; p_Error : string; p_Reply : option any
}.
Arguments MkResp {any}. Arguments p_ServiceMethod {any}. Arguments p_Sequence {any}. Arguments p_Error {any}. Arguments p_Reply {any}.

Section rpc.
Context {msg any : Type} `{Protobuf msg any}.
(** The receivers, with their state, and what their methods do with arguments and
    reply. *)
Context {S F : Type} (invoke : S -> F -> msg -> msg -> S * msg * option string).

(** ** The server *)

Record GRPCServer := MkServer {
  services : gmap string (Service F);
  closing : bool;
  server_closed : bool
}.

Definition NewGRPCServer : GRPCServer := MkServer ∅ false false.

Definition Register (s : GRPCServer) (name : string) (ms : list (go_method F)) : GRPCServer * outcome RpcError unit :=
  match NewService name ms with
  | Ret service =>
      match services s !! Name service with
      | Some _ => (s, Fail (ServiceRegistered (Name service)))
      | None => (MkServer (<[Name service := service]> (services s)) (closing s) (server_closed s), Ret tt)
      end
  | Fail e => (s, Fail e)
  | Panic => (s, Panic)
  end.

(** [Start] up to the listening: the services it offers besides the general one, or
    an error. *)
Definition Start (s : GRPCServer) (listens : bool) : option (list string) :=
  if closing s || server_closed s then None
  else if listens then
    Some (filter (fun n => is_Some (services s !! n)) ["PlayerService"%string; "MessageService"%string])
  else None.

Definition Stop (s : GRPCServer) : GRPCServer :=
  if server_closed s then s else MkServer (services s) false true.

(** [Service.Call] with arguments and reply: a method that does not take them
    panics in [reflect]. *)
Definition service_Call (st : S) (service : Service F) (methodName : string) (args reply : msg) :
    S * outcome RpcError msg :=
  match Methods service !! methodName with
  | None => (st, Fail (MethodNotFound (Name service) methodName))
  | Some mt =>
      if decide (pb_type args = ArgType mt /\ pb_type reply = ReplyType mt) then
        match invoke st (Method mt) args reply with
        | (st, _, Some e) => (st, Fail (MethodFailed e))
        | (st, reply, None) => (st, Ret reply)
        end
      else (st, Panic)
  end.

(** The texts of the errors. *)
Definition error_text (e : RpcError) : string :=
  match e with
  | NoServiceName => "no service name"
  | ServiceRegistered n => "service already registered: " +:+ n
  | ServiceNotFound n => "service not found: " +:+ n
  | MethodNotFound s m => "method not found: " +:+ s +:+ "." +:+ m
  | MethodFailed text => text
  end.

Definition ill_formed (serviceMethod : string) : string := "service/method request ill-formed: " +:+ serviceMethod.

(** [reflect.New] of the element type: a type that is no pointer panics. *)
Definition new_value (t : go_type) : outcome string msg :=
  match t with
  | Ptr _ => if implements t then Ret (pb_zero t) else Fail "does not implement proto.Message"%string
  | Named _ _ _ => Panic
  end.

(** What [UnmarshalTo] and [anypb.New] say of an error is not modelled: the texts end
    with the colon. *)
Definition unpack (args : option any) (target : msg) : outcome string msg :=
  match args with
  | None => Ret target
  | Some a => match UnmarshalTo a target with Some m => Ret m | None => Fail "failed to unpack args: "%string end
  end.

(** The part of [Call] that produces a reply or the text of an error. *)
Definition server_reply (s : GRPCServer) (st : S) (req : pb_RPCRequest any) : S * outcome string any :=
  match parseServiceMethod (q_ServiceMethod req) with
  | Ret (serviceName, methodName) =>
      match services s !! serviceName with
      | None => (st, Fail (error_text (ServiceNotFound serviceName)))
      | Some service =>
          match Methods service !! methodName with
          | None => (st, Fail (error_text (MethodNotFound serviceName methodName)))
          | Some mt =>
              match new_value (ArgType mt) with
              | Panic => (st, Panic)
              | Fail e => (st, Fail ("argument " +:+ e))
              | Ret target =>
                  match unpack (q_Args req) target with
                  | Panic => (st, Panic)
                  | Fail e => (st, Fail e)
                  | Ret args =>
                      match new_value (ReplyType mt) with
                      | Panic => (st, Panic)
                      | Fail e => (st, Fail ("reply " +:+ e))
                      | Ret reply =>
                          match service_Call st service methodName args reply with
                          | (st, Panic) => (st, Panic)
                          | (st, Fail e) => (st, Fail (error_text e))
                          | (st, Ret reply) =>
                              match any_New reply with
                              | Some a => (st, Ret a)
                              | None => (st, Fail "failed to pack reply: "%string)
                              end
                          end
                      end
                  end
              end
          end
      end
  | Fail _ => (st, Fail (ill_formed (q_ServiceMethod req)))
  | Panic => (st, Panic)
  end.

(** [Call] of the server: errors are in the response.  [None]: a panic, of which the
    interceptor makes an empty answer. *)
Definition server_Call (s : GRPCServer) (st : S) (req : pb_RPCRequest any) : S * option (pb_RPCResponse any) :=
  match server_reply s st req with
  | (st, Ret a) => (st, Some (MkResp (q_ServiceMethod req) (q_Sequence req) "" (Some a)))
  | (st, Fail e) => (st, Some (MkResp (q_ServiceMethod req) (q_Sequence req) e None))
  | (st, Panic) => (st, None)
  end.

(** [UpdatePosition] of the direct services, and the same for other names. *)
Definition direct_Call (s : GRPCServer) (st : S) (serviceName methodName : string) (req : msg) (respType : go_type) :
    S * outcome RpcError msg :=
  match services s !! serviceName with
  | None => (st, Fail (ServiceNotFound serviceName))
  | Some service => service_Call st service methodName req (pb_zero respType)
  end.

Definition chat_response_type : go_type := Ptr (Named "mmo-server/proto_define" "proto_define" "ChatResponse").

Definition SendChat (s : GRPCServer) (st : S) (req : msg) : S * outcome RpcError msg :=
  direct_Call s st "MessageService" "SendChat" req chat_response_type.

(** [ReceiveEvents]: the events it has sent, and its result once the context of the
    stream is done.  Nobody has the channel that its goroutine reads. *)
Definition ReceiveEvents (s : GRPCServer) (context_done : bool) : list msg * option (outcome RpcError unit) :=
  match services s !! "MessageService"%string with
  | None => ([], Some (Fail (ServiceNotFound "MessageService")))
  | Some _ => ([], if context_done then Some (Ret tt) else None)
  end.

(** [StreamCall] over the requests that arrive: the responses sent, and whether it
    returns; [sent] tells which sends succeed.  The interceptor that recovers from
    panics is for single calls: a panic in a stream ends the program. *)
Fixpoint StreamCall (s : GRPCServer) (st : S) (reqs : list (pb_RPCRequest any)) (sent : nat -> bool) (i : nat) :
    S * list (pb_RPCResponse any) * bool :=
  match reqs with
  | [] => (st, [], true)
  | req :: rest =>
      match server_Call s st req with
      | (st, None) => (st, [], false)
      | (st, Some resp) =>
          if sent i then let '(st, rs, returns) := StreamCall s st rest sent (Datatypes.S i) in (st, resp :: rs, returns)
          else (st, [], true)
      end
  end.
End rpc.
Arguments GRPCServer : clear implicits.

(** ** The client *)

Inductive ClientErr :=
  | ErrConnectionClosed
  | ErrPackArgs
  | ErrCancelled
  | ErrUnpackReply
  | ErrGrpc
  | ErrText (text : string)
  | ErrAllRetries (last : ClientErr).

(** [strings.Contains] *)
Fixpoint has_prefix (p l : list byte) : bool :=
  match p, l with
  | [], _ => true
  | a :: p, b :: l => bool_decide (a = b) && has_prefix p l
  | _ :: _, [] => false
  end.

Fixpoint contains_bytes (l p : list byte) : bool :=
  has_prefix p l || match l with [] => false | _ :: l => contains_bytes l p end.

Definition strings_Contains (s p : string) : bool := contains_bytes (str_bytes s) (str_bytes p).

Definition isRetryableError (errMsg : string) : bool :=
  strings_Contains errMsg "not available" || strings_Contains errMsg "timeout" || strings_Contains errMsg "temporarily unavailable".

(** The codes of gRPC that the client tells apart. *)
Inductive grpc_code := Unavailable | DeadlineExceeded | ResourceExhausted | Aborted | OtherCode.

Definition isRetryableGRPCError (c : grpc_code) : bool := match c with OtherCode => false | _ => true end.

Definition maxRetries : nat := 3.

Section client.
Context {msg any : Type} `{Protobuf msg any}.
(** [send i st]: what the attempt number [i] does on the other side, and its
    answer. *)
Context {S : Type} (send : nat -> pb_RPCRequest any -> S -> S * (pb_RPCResponse any + grpc_code)).
(** Whether the context is done while the client waits for an attempt, and whether
    the client is closed when it starts one. *)
Context (cancelled closed_at : nat -> bool).

(** The loop over the attempts: the state of the other side, the number of requests
    sent, and the reply or the error. *)
Fixpoint attempts (more i : nat) (last : ClientErr) (st : S) (req : pb_RPCRequest any) (reply : msg) :
    S * nat * outcome ClientErr msg :=
  match more with
  | O => (st, 0%nat, Fail (ErrAllRetries last))
  | Datatypes.S more =>
      if (0 <? i)%nat && cancelled i then (st, 0%nat, Fail ErrCancelled)
      else if closed_at i then (st, 0%nat, Fail ErrConnectionClosed)
      else
        match send i req st with
        | (st, inl resp) =>
            if decide (p_Error resp = ""%string) then
              (st, 1%nat, match p_Reply resp with
                          | None => Ret reply
                          | Some a => match UnmarshalTo a reply with Some m => Ret m | None => Fail ErrUnpackReply end
                          end)
            else if isRetryableError (p_Error resp) then
              let '(st, n, o) := attempts more (Datatypes.S i) (ErrText (p_Error resp)) st req reply in (st, Datatypes.S n, o)
            else (st, 1%nat, Fail (ErrText (p_Error resp)))
        | (st, inr code) =>
            if isRetryableGRPCError code then
              let '(st, n, o) := attempts more (Datatypes.S i) ErrGrpc st req reply in (st, Datatypes.S n, o)
            else (st, 1%nat, Fail (ErrAllRetries ErrGrpc))
        end
  end.

Definition nextSequence (seq : Z) : Z := uwrap 64 (seq + 1).

(** [Call]: the sequence number after it, and what the loop gives. *)
Definition client_Call (seq : Z) (st : S) (closed : bool) (serviceMethod : string) (args reply : msg) :
    Z * (S * nat * outcome ClientErr msg) :=
  if closed then (seq, (st, 0%nat, Fail ErrConnectionClosed))
  else
    match any_New args with
    | None => (seq, (st, 0%nat, Fail ErrPackArgs))
    | Some a =>
        let sequence := nextSequence seq in
        (sequence, attempts maxRetries 0 ErrGrpc st (MkReq serviceMethod sequence (Some a)) reply)
    end.
End client.

(** ** Asynchronous calls *)

(** [ac_seq]: the sequence number of a call that was sent.  [ac_signals]: how often the call was put into its channel, or would have been
    with room for it.  [ac_running]: its goroutine has not finished. *)
Record acall (msg : Type) := MkCall {
  ac_seq : Z;
  ac_error : option ClientErr;
  ac_reply : msg;
  ac_signals : nat;
  ac_running : bool
}.
Arguments MkCall {msg}. Arguments ac_seq {msg}. Arguments ac_error {msg}. Arguments ac_reply {msg}. Arguments ac_signals {msg}. Arguments ac_running {msg}.

Section async.
Context {msg any : Type} `{Protobuf msg any}.

Record GRPCClient := MkClient {
  seq : Z;
  pending : gmap Z nat;
  calls : gmap nat (acall msg);
  client_closed : bool
}.

Definition new_client : GRPCClient := MkClient 0 ∅ ∅ false.

(** [connected]: [GetRPCServiceClient] has a connection. *)
Definition NewGRPCClient (connected : bool) : option GRPCClient := if connected then Some new_client else None.

(** [call.done()], with the error the call has then. *)
Definition call_done (c : acall msg) (e : option ClientErr) (reply : msg) (running : bool) : acall msg :=
  MkCall (ac_seq c) e reply (S (ac_signals c)) running.

(** [Go] up to the goroutine; [saw_closed] is what it read under [mutex], which it
    has released when it enters the call among the pending ones.  The second
    component is the call. *)
Definition Go (c : GRPCClient) (saw_closed : bool) (args reply : msg) : GRPCClient * nat :=
  let a := fresh (dom (calls c)) in
  let call := MkCall 0 None reply 0 false in
  if saw_closed then
    (MkClient (seq c) (pending c) (<[a := call_done call (Some ErrConnectionClosed) reply false]> (calls c)) (client_closed c), a)
  else
    match any_New args with
    | None => (MkClient (seq c) (pending c) (<[a := call_done call (Some ErrPackArgs) reply false]> (calls c)) (client_closed c), a)
    | Some _ =>
        let sequence := nextSequence (seq c) in
        (MkClient sequence (<[sequence := a]> (pending c)) (<[a := MkCall sequence None reply 0 true]> (calls c)) (client_closed c), a)
    end.

(** The end of the goroutine of a call. *)
Definition go_finish (c : GRPCClient) (a : nat) (call : acall msg) (answer : pb_RPCResponse any + grpc_code) : GRPCClient :=
  let call' :=
    match answer with
    | inr _ => call_done call (Some ErrGrpc) (ac_reply call) false
    | inl resp =>
        if decide (p_Error resp = ""%string) then
          match p_Reply resp with
          | None => call_done call (ac_error call) (ac_reply call) false
          | Some x =>
              match UnmarshalTo x (ac_reply call) with
              | Some m => call_done call (ac_error call) m false
              | None => call_done call (Some ErrUnpackReply) (ac_reply call) false
              end
          end
        else call_done call (Some (ErrText (p_Error resp))) (ac_reply call) false
    end in
  MkClient (seq c) (delete (ac_seq call) (pending c)) (<[a := call']> (calls c)) (client_closed c).

(** The calls that [Close] ends. *)
Definition cancel_call (call : acall msg) : acall msg := call_done call (Some ErrConnectionClosed) (ac_reply call) (ac_running call).

Fixpoint cancel_pending (cs : gmap nat (acall msg)) (order : list (Z * nat)) : gmap nat (acall msg) :=
  match order with
  | [] => cs
  | (_, a) :: rest => cancel_pending (alter cancel_call a cs) rest
  end.

Definition client_Close (c : GRPCClient) (order : list (Z * nat)) : GRPCClient :=
  if client_closed c then c
  else MkClient (seq c) ∅ (cancel_pending (calls c) order) true.
End async.
Arguments GRPCClient : clear implicits.

(** ** Which methods a service has *)

Section method_theorems.
Context {F : Type}.
Implicit Types (ms : list (go_method F)).

Lemma register_methods_lookup ms acc n mt :
  NoDup (m_Name <$> ms) ->
  register_methods ms acc !! n = Some mt <->
  (exists m, m ∈ ms /\ m_Name m = n /\ method_type m = Some mt) \/
  (acc !! n = Some mt /\ forall m, m ∈ ms -> m_Name m = n -> method_type m = None).
Proof.
  revert acc. induction ms as [|m ms IH]; intros acc Hnd; cbn [register_methods].
  - split; [intros Hn; right; split; [done|]; by intros ? ?%elem_of_nil|]. intros [(m & []%elem_of_nil & _)|[Hn _]]. done.
  - apply NoDup_cons in Hnd as [Hm Hnd].
    assert (forall m', m' ∈ ms -> m_Name m' <> m_Name m) as Hne.
    { intros m' Hm' E. apply Hm. rewrite <- E. by apply list_elem_of_fmap_2. }
    destruct (method_type m) as [mt'|] eqn:Emt; rewrite IH by done; setoid_rewrite elem_of_cons.
    + rewrite lookup_insert_Some. split.
      * intros [(m' & ? & ? & ?)|[[[<- <-]|[Hn Ha]] Hall]]; [left; by exists m'; auto|left; by exists m; auto|].
        right. split; [done|]. intros m' [-> |Hm'] E; [done|by apply Hall].
      * intros [(m' & [-> |Hm'] & <- & E)|[Ha Hall]]; [right|left; by exists m'|].
        -- split; [left; split; [done|congruence]|]. intros m' Hm' E'. by destruct (Hne m').
        -- right. split; [right; split; [|done]|by intros m' Hm'; apply Hall; auto]. intros E. rewrite Hall in Emt; auto. done.
    + split.
      * intros [(m' & ? & ? & ?)|[Ha Hall]]; [left; by exists m'; auto|]. right. split; [done|]. intros m' [-> |Hm'] E; [done|by apply Hall].
      * intros [(m' & [-> |Hm'] & <- & E)|[Ha Hall]]; [congruence|left; by exists m'|right; split; [done|]; intros m' Hm'; apply Hall; auto].
Qed.

(** The import path of the repository's messages. *)
Definition repo_message (name : string) : go_type := Ptr (Named "mmo-server/proto_define" "proto_define" name).

(** A method like those of the services of the repository. *)
Definition repo_method (m : go_method F) : Prop :=
  exists recv ctx arg reply out, m_In m = [recv; ctx; repo_message arg; repo_message reply] /\ m_Out m = out.

Lemma repo_method_skipped m : repo_method m -> method_type m = None.
Proof.
  intros (recv & ctx & arg & reply & out & E1 & E2). unfold method_type. rewrite E1. case_decide; [done|].
  destruct (m_Out m) as [|o [|]]; try done. by rewrite andb_false_r.
Qed.

Lemma repo_service_empty ms : Forall repo_method ms -> register_methods ms ∅ = ∅.
Proof. generalize (∅ : gmap string (MethodType F)). intros acc Hms. revert acc. induction Hms as [|m ms Hm _ IH]; intros acc; [done|]. cbn [register_methods]. by rewrite (repo_method_skipped _ Hm). Qed.

(** A service has exactly the methods that are exported and take a context, an
    argument and a reply of admitted types and return an error. *)
Theorem grpc_service_methods name ms s n mt
    (Hs : NewService name ms = Ret s) (Hnd : NoDup (m_Name <$> ms)) :
  Methods s !! n = Some mt <->
  exists m ctx recv, m ∈ ms /\ m_Name m = n /\ m_PkgPath m = ""%string /\ mt = MkMethodType (m_Func m) (ArgType mt) (ReplyType mt) /\
    m_In m = [recv; ctx; ArgType mt; ReplyType mt] /\ type_String ctx = "context.Context"%string /\ m_Out m = [error_type] /\
    isExportedOrBuiltinType (ArgType mt) = true /\ isExportedOrBuiltinType (ReplyType mt) = true.
Proof.
  unfold NewService in Hs. case_decide; [done|]. injection Hs as <-. cbn [Methods]. rewrite register_methods_lookup by done.
  rewrite lookup_empty. split.
  - intros [(m & Hm & <- & E)|[[=] _]]. unfold method_type in E. case_decide as Hp; [done|].
    destruct (m_In m) as [|recv [|ctx [|arg [|reply [|]]]]] eqn:Ein; try done. destruct (m_Out m) as [|o [|]] eqn:Eout; try done.
    destruct (_ && _) eqn:Eb; [|done]. injection E as <-. rewrite !andb_true_iff, !bool_decide_eq_true in Eb.
    destruct Eb as [[[Hc Ha] Hr] ->]. exists m, ctx, recv. split_and!; done.
  - intros (m & ctx & recv & Hm & <- & Hp & Emt & Ein & Hc & Eout & Ha & Hr). left. exists m. split_and!; [done..|].
    unfold method_type. rewrite Ein, Eout, Ha, Hr, Hc. rewrite decide_False by (intros Hn; by apply Hn). simpl. by rewrite <- Emt.
Qed.
End method_theorems.

(** ** Remote calls *)

(** What the network does with an attempt. *)
Inductive transport := Delivered | LostRequest (code : grpc_code) | LostReply (code : grpc_code).

Section remote.
Context {msg any : Type} `{Protobuf msg any} {S F : Type} (invoke : S -> F -> msg -> msg -> S * msg * option string).

(** An attempt over the network; after a panic the client gets an error of another
    code. *)
Definition over_network (server : GRPCServer F) (net : nat -> transport) (i : nat) (req : pb_RPCRequest any) (st : S) :
    S * (pb_RPCResponse any + grpc_code) :=
  match net i with
  | LostRequest code => (st, inr code)
  | LostReply code => ((server_Call invoke server st req).1, inr code)
  | Delivered =>
      match server_Call invoke server st req with
      | (st, Some resp) => (st, inl resp)
      | (st, None) => (st, inr OtherCode)
      end
  end.

(** The services of the repository cannot be called.  Their methods take and
    return messages whose package has the import path [mmo-server/proto_define],
    and only [proto_define] is admitted: such a service registers without a method,
    and every call of it, also of its direct service, is answered with an error. *)
Theorem grpc_repo_service_uncallable server server' name ms method st seq args
    (Hms : Forall repo_method ms) (Hdot : Byte.x2e ∉ str_bytes name)
    (Hreg : Register server name ms = (server', Ret tt)) :
  server_Call invoke server' st (MkReq (name +:+ "." +:+ method) seq args) =
    (st, Some (MkResp (name +:+ "." +:+ method) seq ("method not found: " +:+ name +:+ "." +:+ method) None)) /\
  forall req respType, direct_Call invoke server' st name method req respType = (st, Fail (MethodNotFound name method)).
Proof.
  unfold Register, NewService in Hreg. case_decide as Hname; [done|]. cbn [Name] in Hreg. rewrite (repo_service_empty ms Hms) in Hreg.
  destruct (services server !! name) eqn:E; [done|]. injection Hreg as <-. split.
  - unfold server_Call, server_reply. cbn [q_ServiceMethod].
    assert (parseServiceMethod (name +:+ "." +:+ method) = Ret (name, method)) as -> by (by apply parse_service_method_iff).
    cbn [services]. rewrite lookup_insert_eq. cbn [Methods]. by rewrite lookup_empty.
  - intros req respType. unfold direct_Call, service_Call. cbn [services]. rewrite lookup_insert_eq. cbn [Methods Name]. by rewrite lookup_empty.
Qed.

(** C28: end to end.  A call whose first attempt is delivered, of a method that takes the
    types of the client's messages and succeeds, runs the method once on the client's arguments
    and an empty reply and gives the client the method's reply. *)
Theorem grpc_call_end_to_end server net cancelled closed_at seq st st' name method svc mt args a reply r b
    (Hsvc : services server !! name = Some svc) (Hmt : Methods svc !! method = Some mt)
    (Hname : name <> ""%string) (Hdot : Byte.x2e ∉ str_bytes name)
    (Harg : ArgType mt = pb_type args) (Hrep : ReplyType mt = pb_type reply)
    (Hptr : (exists t, pb_type args = Ptr t) /\ exists t, pb_type reply = Ptr t)
    (Himp : implements (pb_type args) = true /\ implements (pb_type reply) = true)
    (Hpack : any_New args = Some a) (Hrun : invoke st (Method mt) args (pb_zero (pb_type reply)) = (st', r, None))
    (Hr : pb_type r = pb_type reply) (Hpackr : any_New r = Some b)
    (Hnet : net 0%nat = Delivered) (Hclosed : closed_at 0%nat = false) :
  client_Call (over_network server net) cancelled closed_at seq st false (name +:+ "." +:+ method) args reply =
  (nextSequence seq, (st', 1%nat, Ret r)).
Proof.
  destruct Hptr as [[ta Hta] [tr Htr]], Himp as [Hia Hir].
  assert (parseServiceMethod (name +:+ "." +:+ method) = Ret (name, method)) as Hparse by (by apply parse_service_method_iff).
  assert (new_value (pb_type args) = Ret (pb_zero (pb_type args)) /\ new_value (pb_type reply) = Ret (pb_zero (pb_type reply))) as [Hna Hnr].
  { unfold new_value. rewrite Hta, Htr in *. by rewrite Hia, Hir. }
  unfold client_Call. rewrite Hpack. cbv zeta. unfold maxRetries. cbn [attempts Nat.ltb Nat.leb andb]. rewrite Hclosed.
  unfold over_network. rewrite Hnet. unfold server_Call, server_reply. cbn [q_ServiceMethod q_Sequence q_Args].
  rewrite Hparse, Hsvc, Hmt, Harg, Hrep, Hna. unfold unpack. rewrite (any_roundtrip _ _ _ Hpack) by apply zero_type.
  rewrite Hnr. unfold service_Call. rewrite Hmt, Harg, Hrep. rewrite decide_True by (split; [done|apply zero_type]).
  rewrite Hrun, Hpackr. cbn [p_Error p_Reply]. rewrite decide_True by done. by rewrite (any_roundtrip _ _ _ Hpackr).
Qed.

(** How many of the attempts from [i] on reach the server. *)
Fixpoint reached (net : nat -> transport) (i n : nat) : nat :=
  match n with
  | O => 0
  | Datatypes.S n => (match net i with LostRequest _ => 0 | _ => 1 end + reached net (Datatypes.S i) n)%nat
  end.

Lemma attempts_executions server net cancelled closed_at more i last st req (reply : msg) st' n o :
  attempts (over_network server net) cancelled closed_at more i last st req reply = (st', n, o) ->
  (n <= more)%nat /\ st' = Nat.iter (reached net i n) (fun st => (server_Call invoke server st req).1) st.
Proof.
  revert i last st n. induction more as [|more IH]; intros i last st n; cbn [attempts].
  { intros [= <- <- <-]. done. }
  destruct (_ && cancelled i); [intros [= <- <- <-]; split; [lia|done]|].
  destruct (closed_at i); [intros [= <- <- <-]; split; [lia|done]|].
  destruct (over_network server net i req st) as [st1 ans] eqn:Hs.
  assert (st1 = Nat.iter (match net i with LostRequest _ => 0 | _ => 1 end) (fun st => (server_Call invoke server st req).1) st) as Hst1.
  { unfold over_network in Hs. destruct (net i); [|by simplify_eq..].
    destruct (server_Call invoke server st req) as [st2 [r|]] eqn:E; injection Hs as <- _; simpl; by rewrite E. }
  assert (forall k, Nat.iter k (fun st => (server_Call invoke server st req).1) st1 =
    Nat.iter (match net i with LostRequest _ => 0 | _ => 1 end + k)%nat (fun st => (server_Call invoke server st req).1) st) as Hk.
  { intros k. rewrite Nat.add_comm, Nat.iter_add. by rewrite <- Hst1. }
  assert (forall l, (let '(st, n, o) := attempts (over_network server net) cancelled closed_at more (Datatypes.S i) l st1 req reply in
      (st, Datatypes.S n, o)) = (st', n, o) ->
    (n <= Datatypes.S more)%nat /\ st' = Nat.iter (reached net i n) (fun st => (server_Call invoke server st req).1) st) as Hrec.
  { intros l E. destruct (attempts _ _ _ more _ l st1 req reply) as [[st2 n2] o2] eqn:E2. injection E as <- <- <-.
    apply IH in E2 as [Hn ->]. split; [lia|]. cbn [reached]. by rewrite Hk. }
  assert (forall o', (st1, 1%nat, o') = (st', n, o) ->
    (n <= Datatypes.S more)%nat /\ st' = Nat.iter (reached net i n) (fun st => (server_Call invoke server st req).1) st) as Hone.
  { intros o' [= <- <- _]. split; [lia|]. cbn [reached]. by rewrite <- (Hk 0%nat). }
  destruct ans as [resp|code].
  - destruct (decide _); [apply Hone|]. destruct (isRetryableError _); [apply Hrec|apply Hone].
  - destruct (isRetryableGRPCError code); [apply Hrec|apply Hone].
Qed.

(** A call sends its request at most three times, always under the same sequence
    number, and the server executes it once for each time it arrives: a call whose
    replies are lost runs the method again. *)
Theorem grpc_call_attempts server net cancelled closed_at seq st name args reply seq' st' n o a
    (Hpack : any_New args = Some a)
    (Hcall : client_Call (over_network server net) cancelled closed_at seq st false name args reply = (seq', (st', n, o))) :
  (n <= maxRetries)%nat /\
  st' = Nat.iter (reached net 0 n) (fun st => (server_Call invoke server st (MkReq name (nextSequence seq) (Some a))).1) st.
Proof. unfold client_Call in Hcall. rewrite Hpack in Hcall. apply (f_equal snd) in Hcall. exact (attempts_executions _ _ _ _ _ _ _ _ _ _ _ _ _ Hcall). Qed.
End remote.

(** ** Ends of asynchronous calls *)

Section async_theorems.
Context {msg any : Type} `{Protobuf msg any}.
Implicit Types (c : GRPCClient msg).

(** Calls, their ends and [Close] in any order; fewer than 2^64 calls.  A call may
    have found the client open before it was closed. *)
Inductive async_step : GRPCClient msg -> GRPCClient msg -> Prop :=
  | StepGo c (saw_closed : bool) args reply :
      seq c + 1 < 2 ^ 64 -> (saw_closed = true -> client_closed c = true) -> async_step c (Go c saw_closed args reply).1
  | StepFinish c a call answer :
      calls c !! a = Some call -> ac_running call = true -> async_step c (go_finish c a call answer)
  | StepClose c order : map_order (pending c) order -> async_step c (client_Close c order).

Record async_inv c : Prop := {
  as_seq : 0 <= seq c < 2 ^ 64;
  as_pending s a : pending c !! s = Some a ->
    exists call, calls c !! a = Some call /\ ac_seq call = s /\ ac_running call = true /\ ac_signals call = 0%nat;
  as_running a call : calls c !! a = Some call -> ac_running call = true ->
    ac_seq call <= seq c /\
    (pending c !! ac_seq call = Some a \/ (ac_signals call = 1%nat /\ ac_error call = Some ErrConnectionClosed));
  as_distinct a b call call' : calls c !! a = Some call -> calls c !! b = Some call' ->
    ac_running call = true -> ac_running call' = true -> ac_seq call = ac_seq call' -> a = b;
  as_done a call : calls c !! a = Some call -> ac_running call = false -> (1 <= ac_signals call <= 2)%nat
}.

Lemma async_inv_new : async_inv new_client.
Proof. by split. Qed.

Lemma go_ended_inv c a e reply : async_inv c -> calls c !! a = None ->
  async_inv (MkClient (seq c) (pending c) (<[a := MkCall 0 (Some e) reply 1 false]> (calls c)) (client_closed c)).
Proof.
  intros [Hs Hp Hr Hu Hd] Hfresh. split; simpl; [done|..].
  - intros s b Hb. destruct (Hp _ _ Hb) as (call & Hc & ?). exists call. rewrite lookup_insert_ne by congruence. done.
  - intros b call [[<- <-]|[_ Hb]]%lookup_insert_Some Hrun; [done|by apply Hr].
  - intros b b' d d' [[<- <-]|[_ Hb]]%lookup_insert_Some [[<- <-]|[_ Hb']]%lookup_insert_Some Hrun Hrun'; [done..|by eapply Hu].
  - intros b call [[<- <-]|[_ Hb]]%lookup_insert_Some Hrun; [simpl; lia|by eapply Hd].
Qed.

Lemma go_sent_inv c a reply : async_inv c -> seq c + 1 < 2 ^ 64 -> calls c !! a = None ->
  async_inv (MkClient (seq c + 1) (<[seq c + 1 := a]> (pending c)) (<[a := MkCall (seq c + 1) None reply 0 true]> (calls c)) (client_closed c)).
Proof.
  intros [Hs Hp Hr Hu Hd] Hlt Hfresh.
  assert (forall b call, calls c !! b = Some call -> ac_running call = true -> ac_seq call <> seq c + 1) as Hne.
  { intros b call Hb Hrun. destruct (Hr _ _ Hb Hrun). lia. }
  split; simpl; [lia|..].
  - intros s b [[<- <-]|[Hns Hb]]%lookup_insert_Some; [eexists; by rewrite lookup_insert_eq|].
    destruct (Hp _ _ Hb) as (call & Hc & ?). exists call. rewrite lookup_insert_ne by congruence. done.
  - intros b call [[<- <-]|[Hnb Hb]]%lookup_insert_Some Hrun; [split; [simpl; lia|left; apply lookup_insert_eq]|].
    destruct (Hr _ _ Hb Hrun) as [Hle Hcase]. split; [lia|]. pose proof (Hne _ _ Hb Hrun).
    rewrite lookup_insert_ne by done. done.
  - intros b b' d d' [[<- <-]|[_ Hb]]%lookup_insert_Some [[<- <-]|[_ Hb']]%lookup_insert_Some Hrun Hrun' E; [done| | |by eapply Hu].
    + by destruct (Hne _ _ Hb' Hrun').
    + by destruct (Hne _ _ Hb Hrun).
  - intros b call [[<- <-]|[_ Hb]]%lookup_insert_Some Hrun; [done|by eapply Hd].
Qed.

Lemma go_inv c saw args reply : async_inv c -> seq c + 1 < 2 ^ 64 -> async_inv (Go c saw args reply).1.
Proof.
  intros Hi Hlt. assert (calls c !! fresh (dom (calls c)) = None) as Hfresh by (apply not_elem_of_dom, is_fresh).
  unfold Go. destruct saw; [by apply go_ended_inv|]. destruct (any_New args) as [x|]; [|by apply go_ended_inv].
  unfold nextSequence. rewrite uwrap_small by (unfold in_u; destruct (as_seq c Hi); lia). by apply go_sent_inv.
Qed.

(** The end of a goroutine signals the call once more. *)
Lemma finished_call c a call (answer : pb_RPCResponse any + grpc_code) :
  exists call', calls (go_finish c a call answer) = <[a := call']> (calls c) /\
    ac_running call' = false /\ ac_signals call' = S (ac_signals call).
Proof.
  unfold go_finish. destruct answer as [resp|code]; [|by eexists]. destruct (decide _); [|by eexists].
  destruct (p_Reply resp) as [x|]; [|by eexists]. destruct (UnmarshalTo x _); by eexists.
Qed.

Lemma finish_inv c a call answer :
  async_inv c -> calls c !! a = Some call -> ac_running call = true -> async_inv (go_finish c a call answer).
Proof.
  intros [Hs Hp Hr Hu Hd] Hc Hrun. destruct (finished_call c a call answer) as (call' & E & Hrun' & Hsig).
  assert ((ac_signals call <= 1)%nat) as Hle.
  { destruct (Hr _ _ Hc Hrun) as [_ [Hpend|[-> _]]]; [|done]. destruct (Hp _ _ Hpend) as (d & Hd' & _ & _ & Hz).
    rewrite Hc in Hd'. injection Hd' as <-. lia. }
  split; rewrite ?E; simpl; [done|..].
  - intros s b [Hne Hb]%lookup_delete_Some. destruct (Hp _ _ Hb) as (d & Hd' & Hseq & Hx). exists d.
    rewrite lookup_insert_ne; [done|]. intros <-. rewrite Hc in Hd'. injection Hd' as <-. done.
  - intros b d [[<- <-]|[Hne Hb]]%lookup_insert_Some Hrd; [congruence|]. destruct (Hr _ _ Hb Hrd) as [Hl Hcase]. split; [done|].
    rewrite lookup_delete_ne; [done|]. intros Hseq. by destruct Hne; eapply Hu.
  - intros b b' d d' [[<- <-]|[_ Hb]]%lookup_insert_Some [[<- <-]|[_ Hb']]%lookup_insert_Some Hrd Hrd'; [congruence..|by eapply Hu].
  - intros b d [[<- <-]|[_ Hb]]%lookup_insert_Some Hrd; [lia|by eapply Hd].
Qed.

Lemma cancel_pending_lookup (cs : gmap nat (acall msg)) (order : list (Z * nat)) a :
  NoDup order.*2 -> cancel_pending cs order !! a = if decide (a ∈ order.*2) then cancel_call <$> cs !! a else cs !! a.
Proof.
  revert cs. induction order as [|[s b] order IH]; intros cs Hnd; cbn [cancel_pending fmap list_fmap snd]; [done|].
  apply NoDup_cons in Hnd as [Hb Hnd]. rewrite IH by done. destruct (decide (b = a)) as [-> |Hba].
  - rewrite (decide_False _ _ Hb), decide_True by left. apply lookup_alter_eq.
  - rewrite lookup_alter_ne by done. destruct (decide (a ∈ order.*2)) as [Hin|Hin], (decide (a ∈ b :: order.*2)) as [Hin'|Hin']; try done.
    + destruct Hin'. by right.
    + apply elem_of_cons in Hin' as [-> |]; done.
Qed.

(** The calls that are pending, in any order. *)
Lemma pending_order c order : async_inv c -> map_order (pending c) order ->
  NoDup order.*2 /\ forall a, a ∈ order.*2 <-> exists s, pending c !! s = Some a.
Proof.
  intros Hi Ho. pose proof (as_pending c Hi) as Hp. split.
  - apply (NoDup_fmap_1 (fun a => match calls c !! a with Some call => ac_seq call | None => 0 end)).
    replace (_ <$> order.*2) with order.*1; [by eapply map_order_nodup|]. rewrite <- list_fmap_compose. apply list_fmap_ext.
    intros i [s a] Hia. simpl. apply list_elem_of_lookup_2, (map_order_elem _ _ _ _ Ho) in Hia.
    by destruct (Hp _ _ Hia) as (call & -> & -> & _).
  - intros a. rewrite list_elem_of_fmap. split.
    + intros ([s b] & -> & Hb). exists s. by apply (map_order_elem _ _ _ _ Ho).
    + intros [s Ha]. exists (s, a). split; [done|]. by apply (map_order_elem _ _ _ _ Ho).
Qed.

(** What [Close] makes of a call. *)
Lemma closed_call c order a d : async_inv c -> map_order (pending c) order -> cancel_pending (calls c) order !! a = Some d ->
  (exists call, calls c !! a = Some call /\ d = cancel_call call /\ ac_signals call = 0%nat /\ ac_running call = true) \/
  (calls c !! a = Some d /\ forall s, pending c !! s <> Some a).
Proof.
  intros Hi Ho. destruct (pending_order c order Hi Ho) as [Hnd Hin]. rewrite cancel_pending_lookup by done.
  destruct (decide _) as [Ha|Ha].
  - intros (call & Hc & ->)%fmap_Some. left. exists call. apply Hin in Ha as [s Ha].
    destruct (as_pending c Hi _ _ Ha) as (call' & Hc' & _ & Hr' & Hz). rewrite Hc in Hc'. by injection Hc' as <-.
  - intros Hd'. right. split; [done|]. intros s Hs'. apply Ha, Hin. by exists s.
Qed.

Lemma async_close_inv c order : async_inv c -> map_order (pending c) order -> async_inv (client_Close c order).
Proof.
  intros Hi Ho. pose proof (fun a d => closed_call c order a d Hi Ho) as Hcase. unfold client_Close.
  destruct (client_closed c) eqn:Hcl; [done|]. destruct Hi as [Hs Hp Hr Hu Hd].
  assert (forall a d, cancel_pending (calls c) order !! a = Some d ->
    exists call, calls c !! a = Some call /\ ac_seq call = ac_seq d /\ ac_running call = ac_running d) as Hsame.
  { intros a d [(call & Hc & -> & _)|[Hc _]]%Hcase; by eexists. }
  split; simpl; [done|done|..].
  - intros a d Ha Hrd. destruct (Hsame _ _ Ha) as (call & Hc & <- & Hrc). rewrite Hrd in Hrc.
    destruct (Hr _ _ Hc Hrc) as [Hle Hor]. split; [done|]. right.
    destruct (Hcase _ _ Ha) as [(call' & _ & -> & Hz & _)|[Hc' Hno]]; [simpl; by rewrite Hz|].
    rewrite Hc in Hc'. injection Hc' as <-. destruct Hor as [Hpend|Hx]; [by destruct (Hno (ac_seq call))|done].
  - intros a b d d' Ha Hb Hrd Hrd' Hseq. destruct (Hsame _ _ Ha) as (call & Hc & E & Hrc), (Hsame _ _ Hb) as (call' & Hc' & E' & Hrc').
    apply (Hu a b call call'); congruence.
  - intros a d [(call & Hc & -> & Hz & Hrun)|[Hc _]]%Hcase Hrd; [simpl in Hrd; congruence|by eapply Hd].
Qed.

Lemma async_step_inv c c' : async_step c c' -> async_inv c -> async_inv c'.
Proof. destruct 1; intros Hi; [by apply go_inv|by apply finish_inv|by apply async_close_inv]. Qed.

Lemma async_reach_inv c : rtc async_step new_client c -> async_inv c.
Proof.
  assert (forall a b, rtc async_step a b -> async_inv a -> async_inv b) as Hrtc.
  { intros a b Hab. induction Hab as [|a a' b Hs _ IH]; [done|]. intros Ha. by eapply IH, async_step_inv. }
  intros Hr. eapply Hrtc; [exact Hr|apply async_inv_new].
Qed.

(** A call that has ended was signalled once or twice.  It is twice for the calls
    that are pending when the client is closed: [Close] signals them with an error,
    and their goroutine signals them again; if the answer arrives after all, the
    call carries the reply and the error. *)
Theorem grpc_async_signals c0 c (Hnew : NewGRPCClient true = Some c0) (Hreach : rtc async_step c0 c) :
  (forall a call, calls c !! a = Some call -> ac_running call = false -> (1 <= ac_signals call <= 2)%nat) /\
  forall s a order, client_closed c = false -> pending c !! s = Some a -> map_order (pending c) order ->
    exists call, calls (client_Close c order) !! a = Some call /\ ac_running call = true /\
      ac_error call = Some ErrConnectionClosed /\
      forall (resp : pb_RPCResponse any) x m, p_Error resp = ""%string -> p_Reply resp = Some x ->
        UnmarshalTo x (ac_reply call) = Some m ->
        exists call', calls (go_finish (client_Close c order) a call (inl resp)) !! a = Some call' /\
          ac_signals call' = 2%nat /\ ac_reply call' = m /\ ac_error call' = Some ErrConnectionClosed.
Proof.
  injection Hnew as <-. pose proof (async_reach_inv c Hreach) as Hi. split; [apply (as_done c Hi)|]. intros s a order Hcl Ha Ho.
  destruct (pending_order c order Hi Ho) as [Hnd Hin]. destruct (as_pending c Hi _ _ Ha) as (call & Hc & Hseq & Hrun & Hz).
  exists (cancel_call call). unfold client_Close. rewrite Hcl. simpl. rewrite cancel_pending_lookup by done.
  rewrite decide_True by (apply Hin; by exists s). rewrite Hc. split_and!; [done..|]. intros resp x m He Hp Hm. unfold go_finish. simpl.
  rewrite He, decide_True, Hp, Hm by done. eexists. rewrite lookup_insert_eq. split; [done|]. simpl. by rewrite Hz.
Qed.
End async_theorems.

(** ** Concrete calls *)

Module Instances.
(** A message is its type and a number. *)
#[local, program]
Instance toy_protobuf : Protobuf (go_type * nat) (go_type * nat) := {|
  pb_type := fst;
  implements := fun _ => true;
  pb_zero := fun t => (t, 0%nat);
  any_New := Some;
  UnmarshalTo := fun a t => if decide (a.1 = t.1) then Some a else None
|}.
Next Obligation. done. Qed.
Next Obligation. intros m a t [= ->] E. by rewrite decide_True. Qed.

Definition number : go_type := Ptr (Named "proto_define" "proto_define" "Number").
Definition receiver : go_type := Ptr (Named "example/services" "services" "Adder").
Definition context : go_type := Named "context" "context" "Context".
Definition add_method : go_method unit := MkMethod "Add" "" [receiver; context; number; number] [error_type] tt.
Definition hidden_method : go_method unit := MkMethod "hidden" "example/services" [receiver; context; number; number] [error_type] tt.
Definition chat_method : go_method unit :=
  MkMethod "SendChat" "" [receiver; context; repo_message "ChatRequest"; repo_message "ChatResponse"] [error_type] tt.

(** [Add] adds its argument to the receiver's total and returns that. *)
Definition run (st : nat) (f : unit) (args reply : go_type * nat) : nat * (go_type * nat) * option string :=
  ((st + args.2)%nat, (reply.1, (st + args.2)%nat), None).

Definition adder : Service unit := MkService "Adder" (register_methods [add_method; hidden_method] ∅).
Definition adder_server : GRPCServer unit := (Register NewGRPCServer "Adder" [add_method; hidden_method]).1.
Definition never (_ : nat) : bool := false.

Lemma grpc_service_methods_witness :
  Methods adder !! "Add"%string = Some (MkMethodType tt number number).
Proof.
  apply (grpc_service_methods "Adder" [add_method; hidden_method] adder "Add" (MkMethodType tt number number)); [reflexivity| |].
  - apply (bool_decide_unpack _). vm_compute. exact I.
  - exists add_method, context, receiver. split; [left|]. split_and!; vm_compute; reflexivity.
Defined.

Lemma grpc_repo_service_uncallable_witness :
  server_Call run (Register NewGRPCServer "ChatService" [chat_method]).1 5%nat (MkReq "ChatService.SendChat" 1 None) =
  (5%nat, Some (MkResp "ChatService.SendChat" 1 "method not found: ChatService.SendChat" None)).
Proof.
  refine (proj1 (grpc_repo_service_uncallable run NewGRPCServer _ "ChatService" [chat_method] "SendChat" 5%nat 1 None _ _ _)).
  - repeat constructor. exists receiver, context, "ChatRequest"%string, "ChatResponse"%string, [error_type]. split; reflexivity.
  - apply (bool_decide_unpack _). vm_compute. exact I.
  - reflexivity.
Defined.

Lemma grpc_call_end_to_end_witness :
  client_Call (over_network run adder_server (fun _ => Delivered)) never never 0 2%nat false "Adder.Add" (number, 5%nat) (number, 0%nat) =
  (1, (7%nat, 1%nat, Ret (number, 7%nat))).
Proof.
  refine (grpc_call_end_to_end run adder_server (fun _ => Delivered) never never 0 2%nat 7%nat "Adder" "Add" adder
    (MkMethodType tt number number) (number, 5%nat) (number, 5%nat) (number, 0%nat) (number, 7%nat) (number, 7%nat)
    _ _ _ _ _ _ _ _ _ _ _ _ _ _); try (vm_compute; reflexivity).
  - discriminate.
  - apply (bool_decide_unpack _). vm_compute. exact I.
  - split; eexists; reflexivity.
  - split; reflexivity.
Defined.

(** Two replies are lost: the total has grown three times. *)
Lemma grpc_call_attempts_witness :
  let net i := match i with 0%nat | 1%nat => LostReply DeadlineExceeded | _ => Delivered end in
  (3 <= maxRetries)%nat /\ 17%nat = Nat.iter 3 (fun st => (server_Call run adder_server st (MkReq "Adder.Add" 1 (Some (number, 5%nat)))).1) 2%nat.
Proof.
  exact (grpc_call_attempts run adder_server (fun i => match i with 0%nat | 1%nat => LostReply DeadlineExceeded | _ => Delivered end)
    never never 0 2%nat "Adder.Add" (number, 5%nat) (number, 0%nat) 1 17%nat 3%nat (Ret (number, 17%nat)) (number, 5%nat)
    eq_refl ltac:(vm_compute; reflexivity)).
Defined.

Lemma grpc_async_signals_witness :
  let c := (Go new_client false (number, 5%nat) (number, 0%nat)).1 in
  exists call, calls (client_Close c [(1, 0%nat)]) !! 0%nat = Some call /\ ac_running call = true /\ ac_error call = Some ErrConnectionClosed.
Proof.
  assert (rtc async_step new_client (Go new_client false (number, 5%nat) (number, 0%nat)).1) as Hreach.
  { apply rtc_once. apply StepGo; [reflexivity|discriminate]. }
  destruct (proj2 (grpc_async_signals _ _ eq_refl Hreach) 1 0%nat [(1, 0%nat)]) as (call & Hc & Hr & He & _).
  - reflexivity.
  - vm_compute. reflexivity.
  - vm_compute. reflexivity.
  - exists call. split; [exact Hc|]. split; [exact Hr|exact He].
Defined.
End Instances.
