(* ===== verification/GatewayServers.v ===== *)
(** * The gateway's servers and its life ([pkg/gateway])

    The configuration ([config.go]), the two WebSocket servers
    ([websocket_server.go], [secure_websocket_server.go]), the QUIC server
    ([quic_server.go]) and the construction, start and stop of the gateway
    ([handler.go]).  [Start] of a server runs in a goroutine of its own, which a
    [Stop] may overtake; so the goroutines are part of the state.  The HTTP server
    and the QUIC listener appear with the states their documentation names, and
    [viper] through the rule by which it finds fields. *)

From stdpp Require Import base gmap strings pretty fin_maps numbers relations list.
From Stdlib Require Import ZArith Lia.
From S2P Require Import Prelude Config Message Registry Router Session Gateway.

Local Open Scope Z_scope.

(** ** Configuration *)

Record WebSocketConfig := MkWSConfig {
  ws_Enabled : bool;
  ws_Address : string;
  ws_ReadTimeout : Z;
  ws_WriteTimeout : Z;
  ws_IdleTimeout : Z;
  ws_BufferSize : Z
}.

(** The fields it shares with [WebSocketConfig], and the files. *)
Record SecureWSConfig := MkSecureConfig {
  sec_ws : WebSocketConfig;
  sec_CertFile : string;
  sec_KeyFile : string
}.

Record QUICConfig := MkQUICConfig {
  quic_Enabled : bool;
  quic_Address : string;
  quic_CertFile : string;
  quic_KeyFile : string;
  quic_IdleTimeout : Z;
  quic_MaxStreams : Z;
  quic_BufferSize : Z
}.

Record RouterConfig := MkRouterConfig {
  Timeout : Z;
  ServiceMap : gmap Z string
}.

Record Config := MkConfig {
  cfg_ID : string;
  Region : string;
  WebSocket : WebSocketConfig;
  SecureWebSocket : SecureWSConfig;
  QUIC : QUICConfig;
  RouterCfg : RouterConfig;
  LoadBalancerType : string;
  SessionCleanupInterval : Z;
  MaxSessionInactiveTime : Z
}.

Definition DefaultConfig : Config := {|
  cfg_ID := "gateway-1";
  Region := "default";
  WebSocket := MkWSConfig true ":8080" 30 30 120 4096;
  SecureWebSocket := MkSecureConfig (MkWSConfig false ":8443" 30 30 120 4096) "cert.pem" "key.pem";
  QUIC := MkQUICConfig false ":8443" "cert.pem" "key.pem" 120 100 4096;
  RouterCfg := MkRouterConfig 5000 (<[1 := "gateway"%string]> (<[2 := "chat"%string]> (<[3 := "game"%string]> {[ 4 := "auth"%string ]})));
  LoadBalancerType := "round_robin";
  SessionCleanupInterval := 60;
  MaxSessionInactiveTime := 300
|}.

(** [time.Duration(n) * time.Second] and the like, in nanoseconds. *)
Definition seconds (n : Z) : Z := int64 (int64 n * 1000000000).
Definition minutes (n : Z) : Z := int64 (int64 n * 60000000000).

(** [GetKeyRotationDuration], which both servers' configurations have: the idle
    timeout, taken for minutes. *)
Definition GetKeyRotationDuration (idleTimeout : Z) : Z :=
  if idleTimeout <=? 0 then 24 * 3600000000000 else minutes idleTimeout.

(** [time.NewTicker] panics for an interval that is not positive. *)
Definition NewTicker {E} (interval : Z) : outcome E unit := panic_unless (0 <? interval).

(** ASCII letters in lower case. *)
Definition lower (s : string) : string :=
  bytes_str ((fun b => if (65 <=? byte_val b) && (byte_val b <=? 90) then byte_of (byte_val b + 32) else b) <$> str_bytes s).

(** What [viper] reads, and its [Unmarshal].  Without a tag of its own a field
    takes the value of the key that is its name, whatever the case of the letters;
    a field without a key keeps its zero value. *)
Class Viper (settings : Type) := {
  top_keys : settings -> list string;
  viper_Unmarshal : settings -> option Config;
  viper_absent s c : viper_Unmarshal s = Some c ->
    "sessioncleanupinterval"%string ∉ lower <$> top_keys s -> SessionCleanupInterval c = 0
}.

(** [LoadGatewayConfig]: [read] is what [ReadInConfig] finds, [mkdir] whether the
    directory can be made. *)
Definition LoadGatewayConfig {settings} `{Viper settings} (mkdir : string -> bool)
    (read : option settings) : option Config :=
  s ← read;
  config ← viper_Unmarshal s;
  if decide (ws_Address (WebSocket config) = ""%string) then Some config
  else if mkdir (Dir (ws_Address (WebSocket config))) then Some config else None.

(** ** The WebSocket servers *)

(** An [http.Server]: made, listening, or shut down.  A server that was shut down
    does not listen any more. *)
Inductive http_state := Created | Serving | ShutDown.

#[export]
Instance http_state_eq_dec : EqDecision http_state.
Proof. solve_decision. Defined.

Inductive ServerError :=
  | ErrDisabled
  | ErrNoHandlerSet
  | ErrCrypto
  | ErrCertificate
  | ErrListen
  | ErrShutdown.

(** The two servers have the same fields but for the [cryptoManager]. *)
Record WebSocketServer := MkWSServer {
  wss_config : WebSocketConfig;
  wss_server : option http_state;
  wss_handler : bool;
  wss_shutdownClosed : bool
}.

Definition set_http (s : WebSocketServer) (st : http_state) : WebSocketServer :=
  MkWSServer (wss_config s) (Some st) (wss_handler s) (wss_shutdownClosed s).

Definition NewWebSocketServer (config : WebSocketConfig) : outcome ServerError WebSocketServer :=
  if negb (ws_Enabled config) then Fail ErrDisabled else Ret (MkWSServer config None false false).

(** [crypto]: the key pair could be made. *)
Definition NewSecureWebSocketServer (config : SecureWSConfig) (crypto : bool) : outcome ServerError WebSocketServer :=
  if negb (ws_Enabled (sec_ws config)) then Fail ErrDisabled
  else if crypto then Ret (MkWSServer (sec_ws config) None false false) else Fail ErrCrypto.

Definition SetConnectionHandler (s : WebSocketServer) : WebSocketServer :=
  MkWSServer (wss_config s) (wss_server s) true (wss_shutdownClosed s).

(** [Start] up to the call of [ListenAndServe]. *)
Definition ws_Start (s : WebSocketServer) : WebSocketServer * outcome ServerError unit :=
  if negb (wss_handler s) then (s, Fail ErrNoHandlerSet) else (set_http s Created, Ret tt).

(** [ListenAndServe], when [bound] tells that the address is free. *)
Definition ws_listen (s : WebSocketServer) (bound : bool) : WebSocketServer * outcome ServerError unit :=
  match wss_server s with
  | Some Created => if bound then (set_http s Serving, Ret tt) else (s, Fail ErrListen)
  | _ => (s, Ret tt)
  end.

(** [Stop]: closing [shutdownCh] a second time panics; [drained] tells whether
    [Shutdown] ends before its five seconds. *)
Definition ws_Stop (s : WebSocketServer) (drained : bool) : WebSocketServer * outcome ServerError unit :=
  match wss_server s with
  | None => (s, Ret tt)
  | Some _ =>
      if wss_shutdownClosed s then (s, Panic)
      else (MkWSServer (wss_config s) (Some ShutDown) (wss_handler s) true, if drained then Ret tt else Fail ErrShutdown)
  end.

(** [handleWebSocket]: the deadlines of an upgraded connection, which is handed to
    the handler. *)
Definition handleWebSocket (s : WebSocketServer) (upgraded : option nat) (now : Z) : option (nat * Z * Z) :=
  conn ← upgraded;
  Some (conn, now + seconds (ws_ReadTimeout (wss_config s)), now + seconds (ws_WriteTimeout (wss_config s))).

(** ** The QUIC server *)

(** [qs_active]: the connections whose [handleConnection] runs.  [qs_accepting]: the
    goroutine of [acceptConnections]. *)
Record QUICServer := MkQUICServer {
  qs_listener : option bool;
  qs_handler : bool;
  qs_cancelled : bool;
  qs_accepting : bool;
  qs_connCount : Z;
  qs_active : gset nat
}.

Definition NewQUICServer (cert : bool) : outcome ServerError QUICServer :=
  if cert then Ret (MkQUICServer None false false false 0 ∅) else Fail ErrCertificate.

Definition quic_SetConnectionHandler (s : QUICServer) : QUICServer :=
  MkQUICServer (qs_listener s) true (qs_cancelled s) (qs_accepting s) (qs_connCount s) (qs_active s).

Definition quic_Start (s : QUICServer) (bound : bool) : QUICServer * outcome ServerError unit :=
  if bound then (MkQUICServer (Some true) (qs_handler s) (qs_cancelled s) true (qs_connCount s) (qs_active s), Ret tt)
  else (s, Fail ErrListen).

Definition quic_Stop (s : QUICServer) : QUICServer :=
  match qs_listener s with
  | None => s
  | Some _ => MkQUICServer (Some false) (qs_handler s) true (qs_accepting s) (qs_connCount s) (qs_active s)
  end.

(** A turn of [acceptConnections]: [None] is an error of [Accept], on which the
    loop ends when the context is cancelled. *)
Definition quic_accept (s : QUICServer) (conn : option nat) : QUICServer :=
  match conn with
  | None => if qs_cancelled s then MkQUICServer (qs_listener s) (qs_handler s) true false (qs_connCount s) (qs_active s) else s
  | Some c => MkQUICServer (qs_listener s) (qs_handler s) (qs_cancelled s) (qs_accepting s) (qs_connCount s + 1) ({[ c ]} ∪ qs_active s)
  end.

(** The deferred end of [handleConnection]. *)
Definition quic_closed (s : QUICServer) (c : nat) : QUICServer :=
  MkQUICServer (qs_listener s) (qs_handler s) (qs_cancelled s) (qs_accepting s) (qs_connCount s - 1) (qs_active s ∖ {[ c ]}).

Definition GetConnectionCount (s : QUICServer) : Z := qs_connCount s.

(** ** The gateway *)

(** The handlers of [registerInternalHandlers]. *)
Inductive internal_handler := Heartbeat | SessionInfo.

(** [fmt.Sprintf] of the counts. *)
Definition session_info (g : GatewayHandler) : string :=
  "{" +:+ bytes_str [Byte.x22] +:+ "sessions" +:+ bytes_str [Byte.x22] +:+ ": " +:+ pretty (N.of_nat (gw_GetSessionCount g)) +:+ ", "
  +:+ bytes_str [Byte.x22] +:+ "users" +:+ bytes_str [Byte.x22] +:+ ": " +:+ pretty (N.of_nat (GetUserCount g)) +:+ "}".

Definition internal_response (m : Message) (flags messageType now : Z) (length : Z) (payload : list byte) : Message :=
  {| Version := ProtocolVersion; Flags := flags; ServiceType := 1; MessageType := messageType;
     SequenceID := SequenceID m; Timestamp := uwrap 64 now; PayloadLength := length;
     SourceService := "gateway"; DestinationService := SourceService m;
     CorrelationID := CorrelationID m; SessionID := SessionID m; Payload := payload |}.

Definition run_internal (h : internal_handler) (g : GatewayHandler) (m : Message) (now : Z) : Message :=
  match h with
  | Heartbeat => internal_response m FlagPong 1 now 0 (str_bytes "pong")
  | SessionInfo =>
      let payload := str_bytes (session_info g) in
      internal_response m FlagNone 2 now (uwrap 32 (Z.of_nat (List.length payload))) payload
  end.

(** Either balancer, as [NewGatewayHandler] chooses one by its name. *)
Abbreviation balancer := (RoundRobinLoadBalancer + WeightedLoadBalancer)%type.

Definition either_SelectInstance (b : balancer) (l : list ServiceInstance) : balancer * outcome RouteError ServiceInstance :=
  match b with
  | inl b => let '(b, o) := SelectInstance b l in (inl b, o)
  | inr b => let '(b, o) := SelectInstance b l in (inr b, o)
  end.

#[export, refine]
Instance either_balancer : LoadBalancer balancer := {
  SelectInstance := either_SelectInstance;
  lb_ready b l := match b with inl b => lb_ready b l | inr b => lb_ready b l end
}.
Proof.
  - intros [b|b] l Hl; unfold either_SelectInstance; by rewrite (select_none b l Hl).
  - intros [b|b] l Hr Hl; unfold either_SelectInstance; destruct (select_up b l Hr Hl) as (b' & i & E & Hi); rewrite E; eauto.
Defined.

Definition new_balancer (name : string) : balancer :=
  if decide (name = "weighted"%string) then inr NewWeightedLoadBalancer else inl NewRoundRobinLoadBalancer.

(** The servers, and the goroutines that start them: before [Start] and before
    [ListenAndServe]. *)
Inductive server_kind := KWebSocket | KSecure | KQUIC.

#[export]
Instance server_kind_eq_dec : EqDecision server_kind.
Proof. solve_decision. Defined.

Inductive goroutine := GStart (k : server_kind) | GListen (k : server_kind).

#[export]
Instance goroutine_eq_dec : EqDecision goroutine.
Proof. solve_decision. Defined.

Record gateway := MkGW {
  gw_config : Config;
  gw_router : MessageRouter balancer;
  gw_registry : HandlerRegistry internal_handler;
  gw_sd : InMemoryServiceDiscovery;
  gw_sessions : GatewayHandler;
  gw_ws : option WebSocketServer;
  gw_secure : option WebSocketServer;
  gw_quic : option QUICServer;
  gw_spawned : list goroutine;
  gw_shutdownClosed : bool;
  gw_serviceRegistered : bool
}.

(** The loop over [config.Router.ServiceMap], in the order of the range; a service
    type is 16 bits wide. *)
Fixpoint register_types {B} (r : MessageRouter B) (l : list (Z * string)) : MessageRouter B :=
  match l with
  | [] => r
  | (serviceType, serviceName) :: rest => register_types (RegisterServiceType r (uwrap 16 serviceType) serviceName) rest
  end.

Definition registerInternalHandlers (r : HandlerRegistry internal_handler) : HandlerRegistry internal_handler :=
  let r := (RegisterHandler r 1 1 Heartbeat).1 in (RegisterHandler r 1 2 SessionInfo).1.

(** [NewGatewayHandler].  The goroutine of the session manager makes its ticker at
    once: its panic ends the program. *)
Definition gateway_New (config : Config) (order : list (Z * string)) (h : heap) (crypto : bool) : outcome ServerError gateway :=
  let router := register_types (MkRouter (new_balancer (LoadBalancerType config)) ∅) order in
  if negb crypto then Fail ErrCrypto
  else
    _ ← NewTicker (seconds (SessionCleanupInterval config));
    Ret {| gw_config := config; gw_router := router; gw_registry := registerInternalHandlers NewHandlerRegistry;
           gw_sd := NewInMemoryServiceDiscovery; gw_sessions := NewGatewayHandler h;
           gw_ws := None; gw_secure := None; gw_quic := None; gw_spawned := [];
           gw_shutdownClosed := false; gw_serviceRegistered := false |}.

Definition set_discovery (gw : gateway) (sd : InMemoryServiceDiscovery) (registered : bool) : gateway :=
  {| gw_config := gw_config gw; gw_router := gw_router gw; gw_registry := gw_registry gw; gw_sd := sd;
     gw_sessions := gw_sessions gw; gw_ws := gw_ws gw; gw_secure := gw_secure gw; gw_quic := gw_quic gw;
     gw_spawned := gw_spawned gw; gw_shutdownClosed := gw_shutdownClosed gw; gw_serviceRegistered := registered |}.

Definition set_servers (gw : gateway) (ws secure : option WebSocketServer) (quic : option QUICServer)
    (spawned : list goroutine) : gateway :=
  {| gw_config := gw_config gw; gw_router := gw_router gw; gw_registry := gw_registry gw; gw_sd := gw_sd gw;
     gw_sessions := gw_sessions gw; gw_ws := ws; gw_secure := secure; gw_quic := quic;
     gw_spawned := spawned; gw_shutdownClosed := gw_shutdownClosed gw; gw_serviceRegistered := gw_serviceRegistered gw |}.

Definition set_shutdown (gw : gateway) : gateway :=
  {| gw_config := gw_config gw; gw_router := gw_router gw; gw_registry := gw_registry gw; gw_sd := gw_sd gw;
     gw_sessions := gw_sessions gw; gw_ws := gw_ws gw; gw_secure := gw_secure gw; gw_quic := gw_quic gw;
     gw_spawned := gw_spawned gw; gw_shutdownClosed := true; gw_serviceRegistered := gw_serviceRegistered gw |}.

Definition set_gw_sessions (gw : gateway) (g : GatewayHandler) : gateway :=
  {| gw_config := gw_config gw; gw_router := gw_router gw; gw_registry := gw_registry gw; gw_sd := gw_sd gw;
     gw_sessions := g; gw_ws := gw_ws gw; gw_secure := gw_secure gw; gw_quic := gw_quic gw;
     gw_spawned := gw_spawned gw; gw_shutdownClosed := gw_shutdownClosed gw; gw_serviceRegistered := gw_serviceRegistered gw |}.

Definition instance_id (config : Config) : string := "gateway-" +:+ cfg_ID config.

Definition gateway_instance (config : Config) (now : Z) : ServiceInstance :=
  MkServiceInstance (instance_id config) "gateway" (ws_Address (WebSocket config)) 100 "up" now
    (<["version"%string := "1.0.0"%string]> {[ "region"%string := Region config ]}).

Section life.
Context (grow : nat -> nat).

Definition registerServiceInstance (gw : gateway) (now : Z) : gateway :=
  set_discovery gw (RegisterServiceInstance grow (gw_sd gw) (gateway_instance (gw_config gw) now)).1 true.

(** The parts of [Start], one for each server. *)
Definition start_ws (gw : gateway) : gateway * outcome ServerError unit :=
  if ws_Enabled (WebSocket (gw_config gw)) then
    match NewWebSocketServer (WebSocket (gw_config gw)) with
    | Ret s => (set_servers gw (Some (SetConnectionHandler s)) (gw_secure gw) (gw_quic gw) (gw_spawned gw ++ [GStart KWebSocket]), Ret tt)
    | Fail e => (set_servers gw None (gw_secure gw) (gw_quic gw) (gw_spawned gw), Fail e)
    | Panic => (gw, Panic)
    end
  else (gw, Ret tt).

Definition start_secure (gw : gateway) (crypto : bool) : gateway * outcome ServerError unit :=
  if ws_Enabled (sec_ws (SecureWebSocket (gw_config gw))) then
    match NewSecureWebSocketServer (SecureWebSocket (gw_config gw)) crypto with
    | Ret s => (set_servers gw (gw_ws gw) (Some (SetConnectionHandler s)) (gw_quic gw) (gw_spawned gw ++ [GStart KSecure]), Ret tt)
    | Fail e => (set_servers gw (gw_ws gw) None (gw_quic gw) (gw_spawned gw), Fail e)
    | Panic => (gw, Panic)
    end
  else (gw, Ret tt).

Definition start_quic (gw : gateway) (cert : bool) : gateway * outcome ServerError unit :=
  if quic_Enabled (QUIC (gw_config gw)) then
    match NewQUICServer cert with
    | Ret s => (set_servers gw (gw_ws gw) (gw_secure gw) (Some (quic_SetConnectionHandler s)) (gw_spawned gw ++ [GStart KQUIC]), Ret tt)
    | Fail e => (set_servers gw (gw_ws gw) (gw_secure gw) None (gw_spawned gw), Fail e)
    | Panic => (gw, Panic)
    end
  else (gw, Ret tt).

(** [Start]; at its end the cleanup's goroutine makes its ticker. *)
Definition gateway_Start (gw : gateway) (now : Z) (crypto cert : bool) : gateway * outcome ServerError unit :=
  let gw := registerServiceInstance gw now in
  match start_ws gw with
  | (gw, Ret _) =>
      match start_secure gw crypto with
      | (gw, Ret _) =>
          match start_quic gw cert with
          | (gw, Ret _) => (gw, NewTicker (seconds (SessionCleanupInterval (gw_config gw))))
          | r => r
          end
      | r => r
      end
  | r => r
  end.

(** How [Stop] ends; it may wait for the lock of a session for good. *)
Inductive stop_end := StopReturned | StopWaits (a : nat) | StopPanics.

(** Closing all sessions under [sessionsMutex]: [Close] waits for the reader of a
    session that is [reading]. *)
Fixpoint close_sessions (ok : io -> bool) (reading : gset nat) (g : GatewayHandler) (l : list (string * nat)) :
    GatewayHandler * list io * option nat :=
  match l with
  | [] => (g, [], None)
  | (_, a) :: rest =>
      match g_heap g !! a with
      | None => close_sessions ok reading g rest
      | Some s =>
          if decide (a ∈ reading) then (g, [], Some a)
          else
            let '(s, es, _) := Close ok s in
            let '(g, es', o) := close_sessions ok reading (set_heap g (<[a := s]> (g_heap g))) rest in (g, es ++ es', o)
      end
  end.

(** A nil server is left alone. *)
Definition stop_http (s : option WebSocketServer) (drained : bool) : outcome Empty_set (option WebSocketServer) :=
  match s with
  | None => Ret None
  | Some s => match ws_Stop s drained with (s, Panic) => Panic | (s, _) => Ret (Some s) end
  end.

(** [Stop]: [sessions] and [services] are the orders of its two ranges. *)
Definition gateway_Stop (ok : io -> bool) (gw : gateway) (drained : bool) (reading : gset nat) (sessions : list (string * nat))
    (services : list string) : gateway * list io * stop_end :=
  if gw_shutdownClosed gw then (gw, [], StopPanics)
  else
    let gw := set_shutdown gw in
    match stop_http (gw_ws gw) drained with
    | Ret ws =>
        match stop_http (gw_secure gw) drained with
        | Ret secure =>
            let gw := set_servers gw ws secure (quic_Stop <$> gw_quic gw) (gw_spawned gw) in
            match close_sessions ok reading (gw_sessions gw) sessions with
            | (g, es, Some a) => (set_gw_sessions gw g, es, StopWaits a)
            | (g, es, None) =>
                let gw := set_gw_sessions gw g in
                if gw_serviceRegistered gw then
                  (set_discovery gw (DeregisterServiceInstance (gw_sd gw) services (instance_id (gw_config gw))).1
                     (gw_serviceRegistered gw), es, StopReturned)
                else (gw, es, StopReturned)
            end
        | _ => (gw, [], StopPanics)
        end
    | _ => (gw, [], StopPanics)
    end.

(** A goroutine takes its next step: [Start] of its server, then
    [ListenAndServe]. *)
Fixpoint remove_first (x : goroutine) (l : list goroutine) : list goroutine :=
  match l with
  | [] => []
  | y :: rest => if decide (y = x) then rest else y :: remove_first x rest
  end.

Definition step_http (s : option WebSocketServer) (f : WebSocketServer -> WebSocketServer * outcome ServerError unit) :
    option WebSocketServer := (fun s => (f s).1) <$> s.

Definition run_goroutine (gw : gateway) (x : goroutine) (bound : bool) : gateway :=
  let rest := remove_first x (gw_spawned gw) in
  match x with
  | GStart KWebSocket => set_servers gw (step_http (gw_ws gw) ws_Start) (gw_secure gw) (gw_quic gw) (rest ++ [GListen KWebSocket])
  | GStart KSecure => set_servers gw (gw_ws gw) (step_http (gw_secure gw) ws_Start) (gw_quic gw) (rest ++ [GListen KSecure])
  | GStart KQUIC => set_servers gw (gw_ws gw) (gw_secure gw) ((fun s => (quic_Start s bound).1) <$> gw_quic gw) rest
  | GListen KWebSocket => set_servers gw (step_http (gw_ws gw) (fun s => ws_listen s bound)) (gw_secure gw) (gw_quic gw) rest
  | GListen KSecure => set_servers gw (gw_ws gw) (step_http (gw_secure gw) (fun s => ws_listen s bound)) (gw_quic gw) rest
  | GListen KQUIC => set_servers gw (gw_ws gw) (gw_secure gw) (gw_quic gw) rest
  end.

(** [HandleMessage], of the gateway and of [SimpleMessageHandler]: the router's
    answer within a deadline. *)
Definition HandleMessage (gw : gateway) (m : Message) (w : route_wait) : gateway * outcome RouteError Message :=
  let '(r, _, o) := Route (gw_router gw) (gw_sd gw) m w in
  ({| gw_config := gw_config gw; gw_router := r; gw_registry := gw_registry gw; gw_sd := gw_sd gw;
      gw_sessions := gw_sessions gw; gw_ws := gw_ws gw; gw_secure := gw_secure gw; gw_quic := gw_quic gw;
      gw_spawned := gw_spawned gw; gw_shutdownClosed := gw_shutdownClosed gw;
      gw_serviceRegistered := gw_serviceRegistered gw |}, fst <$> o).
End life.

(** ** Configuration files *)

(** The keys of [config/gateway.json], and the names in the tags of [Config]. *)
Definition file_keys : list string := ["session"; "websocket"; "quic"; "metrics"; "log"]%string.
Definition tag_keys : list string :=
  ["id"; "region"; "websocket"; "secure_websocket"; "quic"; "router"; "load_balancer"; "session_cleanup_interval";
   "max_session_inactive_time"]%string.

Lemma gateway_New_panics config order h :
  gateway_New config order h true = Panic <-> seconds (SessionCleanupInterval config) <= 0.
Proof.
  unfold gateway_New, NewTicker, panic_unless. cbn [negb]. destruct (Z.ltb_spec 0 (seconds (SessionCleanupInterval config))).
  - split; [done|lia].
  - done.
Qed.

(** The gateway does not start with the configuration of the repository, nor with
    one that uses the names of the tags: no key is a name of the field that holds
    the cleanup interval, which stays zero, and the ticker panics. *)
Theorem gateway_config_crashes {settings} `{Viper settings} mkdir s config order h
    (Hload : LoadGatewayConfig mkdir (Some s) = Some config)
    (Hkeys : top_keys s = file_keys \/ top_keys s = tag_keys) :
  gateway_New config order h true = Panic.
Proof.
  assert (viper_Unmarshal s = Some config) as Hu.
  { unfold LoadGatewayConfig in Hload. cbn [mbind option_bind] in Hload. destruct (viper_Unmarshal s) as [c|]; [|done].
    cbn [mbind option_bind] in Hload. case_decide; [done|]. by destruct (mkdir _). }
  apply gateway_New_panics. rewrite (viper_absent s config Hu); [done|].
  apply (bool_decide_unpack _). destruct Hkeys as [-> | ->]; by vm_compute.
Qed.

(** ** Connections of the WebSocket server *)

(** What a connection with a read deadline delivers: nothing from then on. *)
Definition respects_deadline (deadline : Z) (turns : list turn) : Prop :=
  Forall (fun t => deadline <= t_now t -> ws_in (t_in t) = None) turns.

Section deadlines.
Context {B : Type} `{LoadBalancer B} {ConvError : Type} `{ProtocolConverter ConvError}.
Context (ok : io -> bool) (sd : InMemoryServiceDiscovery) (error_text : GatewayError ConvError -> list byte).

Lemma write_keeps now s msgType data s' es o :
  WriteMessage ok now s msgType data = (s', es, o) ->
  ConnectionType s' = ConnectionType s /\ wsConn s' = wsConn s.
Proof. unfold WriteMessage. destruct (closed s); [by intros [= <- <- <-]|]. intros E. repeat case_match; by simplify_eq. Qed.

Lemma handle_keeps now r s msgType data w r' s' es o :
  handleMessage ok sd now r s msgType data w = (r', s', es, o) ->
  ConnectionType s' = ConnectionType s /\ wsConn s' = wsConn s.
Proof.
  unfold handleMessage. intros E. repeat (case_match; simplify_eq; try done); by eapply write_keeps.
Qed.

(** A turn of a websocket session at or after its deadline ends the loop. *)
Lemma loop_ends_at r s pre t post :
  ConnectionType s = ConnectionTypeWebSocket -> is_Some (wsConn s) -> ws_in (t_in t) = None ->
  session_loop ok sd error_text r s (pre ++ t :: post) = session_loop ok sd error_text r s (pre ++ [t]) /\
  (session_loop ok sd error_text r s (pre ++ [t])).2 <> Waiting.
Proof.
  intros Hc [c Hws] Ht. revert r s Hc Hws. induction pre as [|u pre IH]; intros r s Hc Hws; cbn [app session_loop].
  - unfold ReadMessage. destruct (closed s); [done|]. cbn [set_activity ConnectionType wsConn].
    rewrite Hc, Hws, Ht. rewrite decide_True by done. done.
  - destruct (ReadMessage (t_now u) (t_chunk u) (t_in u) s) as [s1 [[[mt d] st]|e|]] eqn:Hr; [|done..].
    assert (ConnectionType s1 = ConnectionTypeWebSocket /\ wsConn s1 = Some c) as [Hc1 Hw1].
    { unfold ReadMessage in Hr. destruct (closed s); [done|]. by injection Hr as <- _. }
    destruct (handleMessage ok sd (t_now u) r s1 mt d (t_wait u)) as [[[r2 s2] es] o] eqn:Hh.
    destruct (handle_keeps _ _ _ _ _ _ _ _ _ _ Hh) as [Hc2 Hw2]. rewrite Hc1 in Hc2. rewrite Hw1 in Hw2.
    destruct o as [u'|err|]; [| |done].
    + destruct (IH r2 s2 Hc2 Hw2) as [-> Hn]. split; [done|]. by destruct (session_loop ok sd error_text r2 s2 (pre ++ [t])) as [[[r3 s3] e3] o3].
    + destruct (WriteMessage ok (t_now u) s2 mt (error_text err)) as [[s3 es1] o1] eqn:Hw.
      destruct (write_keeps _ _ _ _ _ _ _ Hw) as [Hc3 Hw3]. rewrite Hc2 in Hc3. rewrite Hw2 in Hw3.
      destruct o1; [|done..]. destruct (IH r2 s3 Hc3 Hw3) as [-> Hn]. split; [done|].
      by destruct (session_loop ok sd error_text r2 s3 (pre ++ [t])) as [[[r4 s4] e4] o4].
Qed.

(** A connection of the WebSocket server is not served beyond the read timeout:
    its deadline is set once, when it is upgraded, so the first read at or after
    that moment ends the session, however often the client has written. *)
Theorem gateway_ws_deadline server conn now deadline wdeadline g uuid g' a r turns pre t post
    (Hup : handleWebSocket server (Some conn) now = Some (conn, deadline, wdeadline))
    (Hacc : handleWebSocketConnection g uuid conn now = (g', a))
    (Hconn : respects_deadline deadline turns) (Hturns : turns = pre ++ t :: post)
    (Hlate : now + seconds (ws_ReadTimeout (wss_config server)) <= t_now t) :
  handleSessionMessages ok sd error_text r g' a turns = handleSessionMessages ok sd error_text r g' a (pre ++ [t]) /\
  (handleSessionMessages ok sd error_text r g' a turns).2 <> Waiting.
Proof.
  unfold handleWebSocket in Hup. cbn [mbind option_bind] in Hup. injection Hup as <- <-.
  assert (g_heap g' !! a = Some (NewSession uuid ConnectionTypeWebSocket conn now)) as Ha.
  { unfold handleWebSocketConnection, accept in Hacc. injection Hacc as <- <-. unfold registerSession. cbn [set_heap g_heap].
    rewrite lookup_insert_eq. cbn [g_heap]. apply lookup_insert_eq. }
  assert (ws_in (t_in t) = None) as Ht.
  { unfold respects_deadline in Hconn. rewrite Hturns, Forall_app, Forall_cons in Hconn. by apply Hconn. }
  subst turns. unfold handleSessionMessages. rewrite Ha.
  destruct (loop_ends_at r (NewSession uuid ConnectionTypeWebSocket conn now) pre t post) as [-> Hn]; [done|by eexists|done|].
  split; [done|]. destruct (session_loop _ _ _ _ _ _) as [[[r1 s1] es] o]. simpl in Hn. destruct o; [|done..].
  by destruct (Close ok s1) as [[s2 es2] o2].
Qed.
End deadlines.

(** ** The connection count of the QUIC server *)

(** Connections are accepted while the loop runs, each once; they end in any
    order, also after [Stop]. *)
Inductive quic_step : QUICServer -> QUICServer -> Prop :=
  | quic_step_start s bound : qs_accepting s = false -> quic_step s (quic_Start s bound).1
  | quic_step_handler s : quic_step s (quic_SetConnectionHandler s)
  | quic_step_stop s : quic_step s (quic_Stop s)
  | quic_step_fail s : qs_accepting s = true -> quic_step s (quic_accept s None)
  | quic_step_accept s c : qs_accepting s = true -> c ∉ qs_active s -> quic_step s (quic_accept s (Some c))
  | quic_step_end s c : c ∈ qs_active s -> quic_step s (quic_closed s c).

Lemma quic_step_count s s' :
  quic_step s s' -> qs_connCount s = Z.of_nat (size (qs_active s)) -> qs_connCount s' = Z.of_nat (size (qs_active s')).
Proof.
  intros [t bound Ha|t|t|t Ha|t c Ha Hc|t c Hc] Hs; try done.
  - unfold quic_Start. by destruct bound.
  - unfold quic_Stop. by destruct (qs_listener t).
  - unfold quic_accept. by destruct (qs_cancelled t).
  - cbn [quic_accept qs_connCount qs_active]. rewrite size_union by set_solver. rewrite size_singleton. lia.
  - cbn [quic_closed qs_connCount qs_active]. rewrite size_difference by set_solver. rewrite size_singleton.
    assert (size (qs_active t) <> 0)%nat by (intros E%size_empty_inv; set_solver). lia.
Qed.

(** The count of the QUIC server is the number of the connections that are being
    handled, in every interleaving, also while connections end after [Stop]. *)
Theorem gateway_quic_count cert s0 s (Hnew : NewQUICServer cert = Ret s0) (Hsteps : rtc quic_step s0 s) :
  GetConnectionCount s = Z.of_nat (size (qs_active s)).
Proof.
  assert (GetConnectionCount s0 = Z.of_nat (size (qs_active s0))) as H0.
  { unfold NewQUICServer in Hnew. destruct cert; [|done]. by injection Hnew as <-. }
  clear Hnew. unfold GetConnectionCount in *. induction Hsteps as [|s0 s1 s2 Hstep _ IH]; [done|]. apply IH. by eapply quic_step_count.
Qed.

(** ** Start and stop of the gateway *)

Section life_theorems.
Context (grow : nat -> nat) (ok : io -> bool).

Definition http_server (gw : gateway) (k : server_kind) : option WebSocketServer :=
  match k with KWebSocket => gw_ws gw | KSecure => gw_secure gw | KQUIC => None end.

(** What may happen to a gateway: one [Start], steps of the goroutines, other
    sessions, messages, and calls of [Stop]. *)
Inductive life_step : gateway -> gateway -> Prop :=
  | life_start gw now crypto cert :
      gw_serviceRegistered gw = false -> life_step gw (gateway_Start grow gw now crypto cert).1
  | life_run gw x bound : x ∈ gw_spawned gw -> life_step gw (run_goroutine gw x bound)
  | life_sessions gw g : life_step gw (set_gw_sessions gw g)
  | life_message gw m w : life_step gw (HandleMessage gw m w).1
  | life_stop gw drained reading sessions services :
      life_step gw (gateway_Stop ok gw drained reading sessions services).1.1.

(** Of a server: there is no HTTP server exactly until its goroutine calls [Start];
    [shutdownCh] is open until [Stop]. *)
Definition server_ok (k : server_kind) (s : WebSocketServer) (spawned : list goroutine) (stopped : bool) : Prop :=
  (GStart k ∈ spawned <-> wss_server s = None) /\
  (stopped = false -> wss_shutdownClosed s = false) /\
  (wss_shutdownClosed s = true -> wss_server s = Some ShutDown) /\
  wss_handler s = true.

Record life_inv (gw : gateway) : Prop := {
  lf_nodup : NoDup (gw_spawned gw);
  lf_listen k : GStart k ∈ gw_spawned gw -> GListen k ∉ gw_spawned gw;
  lf_none k : http_server gw k = None -> k <> KQUIC -> (GStart k ∉ gw_spawned gw) /\ (GListen k ∉ gw_spawned gw);
  lf_server k s : http_server gw k = Some s -> server_ok k s (gw_spawned gw) (gw_shutdownClosed gw);
  lf_unstarted : gw_serviceRegistered gw = false -> gw_spawned gw = [] /\ gw_ws gw = None /\ gw_secure gw = None /\ gw_quic gw = None
}.

Lemma remove_first_spec x l : NoDup l -> NoDup (remove_first x l) /\
  forall y, (y ∈ remove_first x l) <-> (y ∈ l /\ y <> x).
Proof.
  induction l as [|z l IH]; intros Hnd; cbn [remove_first]; [by split; [|intros y; rewrite elem_of_nil; naive_solver]|].
  apply NoDup_cons in Hnd as [Hz Hnd]. destruct (IH Hnd) as [Hn Hin]. case_decide as Hzx.
  - subst z. split; [done|]. intros y. rewrite elem_of_cons. split; [|naive_solver].
    intros Hy. split; [by right|]. by intros ->.
  - split.
    + apply NoDup_cons. split; [|done]. intros Hc. by apply Hin in Hc as [Hc _].
    + intros y. rewrite !elem_of_cons, Hin. split; naive_solver.
Qed.

(** Only the servers and the goroutines count. *)
Lemma life_inv_same gw gw' :
  gw_spawned gw' = gw_spawned gw -> gw_ws gw' = gw_ws gw -> gw_secure gw' = gw_secure gw -> gw_quic gw' = gw_quic gw ->
  gw_shutdownClosed gw' = gw_shutdownClosed gw -> gw_serviceRegistered gw' = gw_serviceRegistered gw ->
  life_inv gw -> life_inv gw'.
Proof.
  intros E1 E2 E3 E4 E5 E6 [Hn Hl Hno Hs Hu].
  assert (forall k, http_server gw' k = http_server gw k) as Hk by (intros []; simpl; congruence).
  split; rewrite ?E1, ?E2, ?E3, ?E4, ?E5, ?E6; try done.
  - intros k. rewrite Hk. apply Hno.
  - intros k s. rewrite Hk. apply Hs.
Qed.

(** A goroutine is started for a server that was just made. *)
Lemma spawn_inv gw k s ws secure quic :
  life_inv gw -> GStart k ∉ gw_spawned gw -> GListen k ∉ gw_spawned gw -> gw_serviceRegistered gw = true ->
  wss_server s = None -> wss_shutdownClosed s = false -> wss_handler s = true ->
  (forall k', http_server (set_servers gw ws secure quic (gw_spawned gw ++ [GStart k])) k' =
    if decide (k' = k /\ k <> KQUIC) then Some s else http_server gw k') ->
  life_inv (set_servers gw ws secure quic (gw_spawned gw ++ [GStart k])).
Proof.
  intros [Hn Hl Hno Hs Hu] H1 H2 Hreg Hs1 Hs2 Hs3 Hk. split; cbn [set_servers gw_spawned gw_shutdownClosed gw_serviceRegistered].
  - apply NoDup_app. split_and!; [done| |apply NoDup_singleton]. intros x Hx ->%list_elem_of_singleton. done.
  - intros k'. rewrite !elem_of_app, !list_elem_of_singleton. intros [Hx|[= ->]]; naive_solver.
  - intros k'. rewrite Hk. destruct (decide (k' = k /\ k <> KQUIC)) as [Hd|Hd]; intros E Hq; [done|]. destruct (Hno k' E Hq).
    rewrite !elem_of_app, !list_elem_of_singleton. naive_solver.
  - intros k' s'. rewrite Hk. destruct (decide (k' = k /\ k <> KQUIC)) as [Hd|Hd].
    + intros [= <-]. destruct Hd as [-> _]. unfold server_ok. rewrite Hs1, Hs2, elem_of_app, list_elem_of_singleton. split_and!; naive_solver.
    + intros E. destruct (Hs k' s' E) as (Ha & Hb). split; [|done]. rewrite elem_of_app, list_elem_of_singleton, <- Ha.
      split; [|by left]. intros [Hx|[= ->]]; [done|]. destruct (decide (k = KQUIC)) as [-> |]; [by simpl in E|naive_solver].
  - congruence.
Qed.

Lemma start_inv gw now crypto cert :
  life_inv gw -> gw_serviceRegistered gw = false -> life_inv (gateway_Start grow gw now crypto cert).1.
Proof.
  intros Hi Hreg. destruct (lf_unstarted gw Hi Hreg) as (Esp & Ews & Esec & Eq).
  assert (life_inv (registerServiceInstance grow gw now)) as H1.
  { destruct Hi as [Hn Hl Hno Hs Hu]. split; try done. }
  unfold gateway_Start. set (gw1 := registerServiceInstance grow gw now) in *.
  assert (life_inv (start_ws gw1).1 /\ gw_serviceRegistered (start_ws gw1).1 = true /\ gw_secure (start_ws gw1).1 = None /\
    gw_quic (start_ws gw1).1 = None /\ forall x, x ∈ gw_spawned (start_ws gw1).1 -> x = GStart KWebSocket) as (H2 & R2 & S2 & Q2 & X2).
  { unfold start_ws, NewWebSocketServer. destruct (ws_Enabled _) eqn:Een; cbn [negb fst].
    - split_and!; try done.
      + eapply (spawn_inv gw1 KWebSocket (MkWSServer _ None true false)); try done; [cbn; rewrite Esp; set_solver..|]. intros []; done.
      + cbn. rewrite Esp. set_solver.
    - split_and!; try done. cbn. rewrite Esp. set_solver. }
  destruct (start_ws gw1) as [gw2 [[]| |]]; [|done..]. cbn [fst] in *.
  assert (life_inv (start_secure gw2 crypto).1 /\ gw_serviceRegistered (start_secure gw2 crypto).1 = true /\
    gw_quic (start_secure gw2 crypto).1 = None /\
    forall x, x ∈ gw_spawned (start_secure gw2 crypto).1 -> x = GStart KWebSocket \/ x = GStart KSecure) as (H3 & R3 & Q3 & X3).
  { unfold start_secure, NewSecureWebSocketServer. destruct (ws_Enabled _) eqn:Een; cbn [negb fst]; [|by split_and!; auto].
    destruct crypto; cbn [fst].
    - split_and!; try done.
      + eapply (spawn_inv gw2 KSecure (MkWSServer _ None true false)); try done; [by intros ?%X2..|]. intros []; done.
      + cbn. intros x [?%X2| ->%list_elem_of_singleton]%elem_of_app; auto.
    - split_and!; try done; [|cbn; auto]. eapply life_inv_same; [..|exact H2]; done. }
  destruct (start_secure gw2 crypto) as [gw3 [[]| |]]; [|done..]. cbn [fst] in *.
  assert (life_inv (start_quic gw3 cert).1) as H4.
  { unfold start_quic, NewQUICServer. destruct (quic_Enabled _); [|done]. destruct cert; cbn [fst].
    - eapply (spawn_inv gw3 KQUIC (MkWSServer (WebSocket (gw_config gw)) None true false)); try done.
      + by intros [|]%X3.
      + by intros [|]%X3.
      + by intros [].
    - eapply life_inv_same; [..|exact H3]; done. }
  by destruct (start_quic gw3 cert) as [gw4 [[]| |]].
Qed.

Lemma listen_ok k s l stopped bound : server_ok k s l stopped -> server_ok k (ws_listen s bound).1 l stopped.
Proof.
  unfold ws_listen. destruct (wss_server s) as [[]|] eqn:E; [|done..]. destruct bound; [|done].
  intros (Ha & Hb & Hc & Hd). split_and!; cbn; [|done| |done].
  - rewrite Ha, E. done.
  - intros Hx. specialize (Hc Hx). congruence.
Qed.

Lemma server_ok_sub k s l l' stopped : (GStart k ∈ l' <-> GStart k ∈ l) -> server_ok k s l stopped -> server_ok k s l' stopped.
Proof. intros Hl (Ha & Hb). split; [|done]. by rewrite Hl. Qed.

(** The server of a goroutine that calls [Start] has none yet, and is not stopped. *)
Lemma start_ok k s l stopped :
  GStart k ∈ l -> NoDup l -> server_ok k s l stopped -> server_ok k (ws_Start s).1 (remove_first (GStart k) l ++ [GListen k]) stopped.
Proof.
  intros Hk Hnd (Ha & Hb & Hc & Hd). unfold ws_Start. rewrite Hd. cbn [negb fst]. split_and!; cbn; [|done| |done].
  - split; [|done]. intros [Hx|Hx%list_elem_of_singleton]%elem_of_app; [|done]. by apply remove_first_spec in Hx as [_ Hx].
  - intros Hx. specialize (Hc Hx). apply Ha in Hk. congruence.
Qed.

(** A goroutine of the server [k] takes a step. *)
Lemma goroutine_inv gw k f ws secure quic spawned :
  life_inv gw -> gw_spawned gw <> [] -> NoDup spawned ->
  (forall k', k' <> k -> GStart k' ∈ gw_spawned gw -> GStart k' ∈ spawned) ->
  (forall x, x ∈ spawned -> x ∈ gw_spawned gw \/ (x = GListen k /\ (GStart k ∉ spawned) /\ GStart k ∈ gw_spawned gw)) ->
  (forall s, http_server gw k = Some s -> server_ok k s (gw_spawned gw) (gw_shutdownClosed gw) ->
    server_ok k (f s) spawned (gw_shutdownClosed gw)) ->
  (forall k', http_server (set_servers gw ws secure quic spawned) k' =
    if decide (k' = k) then f <$> http_server gw k else http_server gw k') ->
  life_inv (set_servers gw ws secure quic spawned).
Proof.
  intros [Hn Hl Hno Hs Hu] Hne Hnd Hkeep Hsub Hf Hk. split; cbn [set_servers gw_spawned gw_shutdownClosed gw_serviceRegistered].
  - done.
  - intros k' Hx Hy. destruct (Hsub _ Hx) as [Hx'|[[=] _]]. destruct (Hsub _ Hy) as [Hy'|([= ->] & Hno' & _)]; [by apply (Hl k')|done].
  - intros k'. rewrite Hk. intros E Hq. assert (http_server gw k' = None) as E'.
    { destruct (decide (k' = k)) as [-> |]; [|done]. by apply fmap_None in E. }
    destruct (Hno k' E' Hq) as [Ha Hb]. split.
    + intros [Hx|[[=] _]]%Hsub. done.
    + intros [Hx|([= ->] & _ & Hx)]%Hsub; done.
  - intros k' s'. rewrite Hk. destruct (decide (k' = k)) as [-> |Hkk].
    + intros (s0 & E & ->)%fmap_Some. by apply Hf, Hs.
    + intros E. eapply server_ok_sub; [|by apply Hs]. split; [|by apply Hkeep]. intros [Hx|[[=] _]]%Hsub. done.
  - intros Hr. destruct (Hu Hr) as [E _]. done.
Qed.

Lemma run_goroutine_inv gw x bound : life_inv gw -> x ∈ gw_spawned gw -> life_inv (run_goroutine gw x bound).
Proof.
  intros Hi Hx. assert (gw_spawned gw <> []) as Hne by (intros E; rewrite E in Hx; by apply elem_of_nil in Hx).
  destruct (remove_first_spec x (gw_spawned gw) (lf_nodup gw Hi)) as [Hnd Hin].
  assert (forall k, x = GStart k -> NoDup (remove_first x (gw_spawned gw) ++ [GListen k]) /\
    forall y, y ∈ remove_first x (gw_spawned gw) ++ [GListen k] -> y ∈ gw_spawned gw \/
      (y = GListen k /\ (GStart k ∉ remove_first x (gw_spawned gw) ++ [GListen k]) /\ GStart k ∈ gw_spawned gw)) as Hstart.
  { intros k ->. split.
    - apply NoDup_app. split_and!; [done| |apply NoDup_singleton]. intros y [Hy _]%Hin ->%list_elem_of_singleton. by apply (lf_listen gw Hi k).
    - intros y [[Hy _]%Hin| ->%list_elem_of_singleton]%elem_of_app; [by left|right]. split_and!; [done| |done].
      rewrite elem_of_app, Hin, list_elem_of_singleton. naive_solver. }
  assert (forall y, y ∈ remove_first x (gw_spawned gw) -> y ∈ gw_spawned gw) as Hrest by (by intros y [Hy _]%Hin).
  assert (forall k' l, GStart k' <> x -> GStart k' ∈ gw_spawned gw -> GStart k' ∈ remove_first x (gw_spawned gw) ++ l) as Hkeep.
  { intros k' l Hk' Hin'. apply elem_of_app. left. by apply Hin. }
  assert (forall k f ws secure quic, x = GStart k -> (forall s, f s = (ws_Start s).1) ->
    (forall k', http_server (set_servers gw ws secure quic (remove_first x (gw_spawned gw) ++ [GListen k])) k' =
      if decide (k' = k) then f <$> http_server gw k else http_server gw k') ->
    life_inv (set_servers gw ws secure quic (remove_first x (gw_spawned gw) ++ [GListen k]))) as Hcase1.
  { intros k f ws secure quic -> Hf Hk. destruct (Hstart k eq_refl) as [Hnd' Hin']. eapply (goroutine_inv gw k f); try done.
    - intros k' Hk'. apply Hkeep. congruence.
    - intros s _ Hok. rewrite Hf. apply start_ok; [done|apply (lf_nodup gw Hi)|done]. }
  assert (forall k f ws secure quic, (x = GListen k \/ (x = GStart k /\ k = KQUIC)) ->
    (forall s l, server_ok k s l (gw_shutdownClosed gw) -> server_ok k (f s) l (gw_shutdownClosed gw)) ->
    (forall k', http_server (set_servers gw ws secure quic (remove_first x (gw_spawned gw))) k' =
      if decide (k' = k) then f <$> http_server gw k else http_server gw k') ->
    life_inv (set_servers gw ws secure quic (remove_first x (gw_spawned gw)))) as Hcase2.
  { intros k f ws secure quic Hxk Hf Hk. eapply (goroutine_inv gw k f); try done.
    - intros k' Hk' Hin'. rewrite <- (app_nil_r (remove_first _ _)). apply Hkeep; [|done]. naive_solver.
    - intros y Hy. left. by apply Hrest.
    - intros s Es Hok. apply Hf. eapply server_ok_sub; [|exact Hok]. rewrite Hin. destruct Hxk as [-> |[_ ->]]; [naive_solver|done]. }
  destruct x as [[]|[]]; cbn [run_goroutine].
  - by apply (Hcase1 KWebSocket (fun s => (ws_Start s).1)); [..|intros []].
  - by apply (Hcase1 KSecure (fun s => (ws_Start s).1)); [..|intros []].
  - by apply (Hcase2 KQUIC id); [right|..|intros []].
  - by apply (Hcase2 KWebSocket (fun s => (ws_listen s bound).1)); [left|intros s l; apply listen_ok|intros []].
  - by apply (Hcase2 KSecure (fun s => (ws_listen s bound).1)); [left|intros s l; apply listen_ok|intros []].
  - by apply (Hcase2 KQUIC id); [left|..|intros []].
Qed.

(** A server that [Stop] leaves: shut down, or not started. *)
Definition stopped_server (s : WebSocketServer) : WebSocketServer :=
  match wss_server s with
  | None => s
  | Some _ => MkWSServer (wss_config s) (Some ShutDown) (wss_handler s) true
  end.

Lemma stop_http_ok s drained :
  (forall t, s = Some t -> wss_shutdownClosed t = false) -> stop_http s drained = Ret (stopped_server <$> s).
Proof.
  destruct s as [t|]; [|done]. intros Ht. specialize (Ht t eq_refl). cbn [stop_http fmap option_fmap option_map].
  unfold ws_Stop, stopped_server. destruct (wss_server t); [rewrite Ht|done]. by destruct drained.
Qed.

(** The first [Stop], up to the sessions. *)
Definition stopped_gateway (gw : gateway) : gateway :=
  set_servers (set_shutdown gw) (stopped_server <$> gw_ws gw) (stopped_server <$> gw_secure gw) (quic_Stop <$> gw_quic gw) (gw_spawned gw).

Lemma gateway_Stop_first gw drained reading sessions services :
  life_inv gw -> gw_shutdownClosed gw = false ->
  gateway_Stop ok gw drained reading sessions services =
  let gw := stopped_gateway gw in
  match close_sessions ok reading (gw_sessions gw) sessions with
  | (g, es, Some a) => (set_gw_sessions gw g, es, StopWaits a)
  | (g, es, None) =>
      let gw := set_gw_sessions gw g in
      if gw_serviceRegistered gw then
        (set_discovery gw (DeregisterServiceInstance (gw_sd gw) services (instance_id (gw_config gw))).1
           (gw_serviceRegistered gw), es, StopReturned)
      else (gw, es, StopReturned)
  end.
Proof.
  intros Hi Hsd. unfold gateway_Stop. rewrite Hsd. cbn [set_shutdown gw_ws gw_secure].
  rewrite !stop_http_ok; [done|..].
  - intros t E. by apply (lf_server gw Hi KSecure t E).
  - intros t E. by apply (lf_server gw Hi KWebSocket t E).
Qed.

Lemma stopped_inv gw : life_inv gw -> life_inv (stopped_gateway gw).
Proof.
  intros Hi. assert (forall k, http_server (stopped_gateway gw) k = stopped_server <$> http_server gw k) as Hk by (by intros []).
  destruct Hi as [Hn Hl Hno Hs Hu]. split; cbn [stopped_gateway set_servers set_shutdown gw_spawned gw_shutdownClosed gw_serviceRegistered];
    [done|done|..].
  - intros k. rewrite Hk, fmap_None. apply Hno.
  - intros k s. rewrite Hk. intros (t & E & ->)%fmap_Some. destruct (Hs k t E) as (Ha & Hb & Hc & Hd). unfold stopped_server.
    destruct (wss_server t) eqn:Et; split_and!; cbn; try done.
    + rewrite Ha. by split.
    + by rewrite Et.
    + rewrite Et. intros Hx. by specialize (Hc Hx).
  - intros Hr. destruct (Hu Hr) as (E1 & E2 & E3 & E4). cbn. by rewrite E2, E3, E4.
Qed.

Lemma life_step_inv gw gw' : life_step gw gw' -> life_inv gw -> life_inv gw'.
Proof.
  intros [gw0 now crypto cert Hr|gw0 x bound Hx|gw0 g|gw0 m w|gw0 drained reading sessions services] Hi.
  - by apply start_inv.
  - by apply run_goroutine_inv.
  - by apply (life_inv_same gw0).
  - unfold HandleMessage. destruct (Route _ _ _ _) as [[r m'] o]. by apply (life_inv_same gw0).
  - destruct (gw_shutdownClosed gw0) eqn:Hsd; [by unfold gateway_Stop; rewrite Hsd|].
    rewrite gateway_Stop_first by done. cbv zeta. destruct (close_sessions _ _ _ _) as [[g es] [a|]].
    + eapply life_inv_same; [..|by apply stopped_inv]; done.
    + cbn [set_gw_sessions gw_serviceRegistered]. destruct (gw_serviceRegistered (stopped_gateway gw0)) eqn:Hreg;
        (eapply life_inv_same; [..|by apply (stopped_inv gw0)]; by rewrite ?Hreg).
Qed.

Lemma life_new_inv config order h gw : gateway_New config order h true = Ret gw -> life_inv gw.
Proof.
  unfold gateway_New. cbn [negb]. unfold NewTicker, panic_unless. destruct (0 <? _); [|done]. gosimpl. intros [= <-].
  split; cbn; try done; [apply NoDup_nil_2|..].
  - by intros k ?%elem_of_nil.
  - intros k _ _. by split; intros ?%elem_of_nil.
  - by intros [].
Qed.

Lemma life_reach_inv config order h gw0 gw :
  gateway_New config order h true = Ret gw0 -> rtc life_step gw0 gw -> life_inv gw.
Proof. intros Hnew%life_new_inv Hs. induction Hs as [|a b c Hab _ IH]; [done|]. apply IH. by eapply life_step_inv. Qed.

(** *** A [Stop] that overtakes the goroutine of a server *)

(** A server that was shut down. *)
Definition is_down (gw : gateway) (k : server_kind) : Prop :=
  gw_serviceRegistered gw = true /\ exists s, http_server gw k = Some s /\ wss_shutdownClosed s = true.

Lemma down_step gw gw' k : life_inv gw -> life_step gw gw' -> is_down gw k -> is_down gw' k.
Proof.
  intros Hi Hs [Hreg (s & Es & Hcl)]. destruct (lf_server gw Hi k s Es) as (Ha & _ & Hc & _). specialize (Hc Hcl).
  destruct Hs as [gw0 now crypto cert Hr|gw0 x bound Hx|gw0 g|gw0 m w|gw0 drained reading sessions services].
  - congruence.
  - split; [by destruct x as [[]|[]]|].
    assert (x <> GStart k) as Hxk by (intros ->; apply Ha in Hx; congruence).
    destruct x as [[]|[]], k; cbn [run_goroutine set_servers http_server gw_ws gw_secure step_http] in *; try done; try (by exists s);
      rewrite Es; cbn [fmap option_fmap option_map]; eexists; (split; [done|]); unfold ws_listen; by rewrite Hc.
  - split; [done|]. by destruct k; exists s.
  - unfold HandleMessage. destruct (Route _ _ _ _) as [[r m'] o]. split; [done|]. by destruct k; exists s.
  - destruct (gw_shutdownClosed gw0) eqn:Hsd; [unfold gateway_Stop; rewrite Hsd; split; [done|by exists s]|].
    destruct (lf_server gw0 Hi k s Es) as (_ & Hb & _). by rewrite Hb in Hcl.
Qed.

Lemma stop_keeps gw drained reading sessions services k :
  life_inv gw -> gw_shutdownClosed gw = false ->
  let gw1 := (gateway_Stop ok gw drained reading sessions services).1.1 in
  http_server gw1 k = stopped_server <$> http_server gw k /\ gw_spawned gw1 = gw_spawned gw /\
  gw_serviceRegistered gw1 = gw_serviceRegistered gw.
Proof.
  intros Hi Hsd. cbv zeta. rewrite gateway_Stop_first by done. cbv zeta. destruct (close_sessions _ _ _ _) as [[g es] [a|]].
  - by destruct k.
  - cbn [set_gw_sessions gw_serviceRegistered]. destruct (gw_serviceRegistered (stopped_gateway gw)) eqn:E;
      split_and!; first [by destruct k|done|exact (eq_sym E)|exact E].
Qed.

(** The goroutine of a server runs to its end. *)
Lemma run_to_serving gw k s :
  life_inv gw -> http_server gw k = Some s -> GStart k ∈ gw_spawned gw ->
  exists gw2 s2, rtc life_step gw gw2 /\ http_server gw2 k = Some s2 /\ wss_server s2 = Some Serving.
Proof.
  intros Hi Es Hk. destruct (lf_server gw Hi k s Es) as (_ & _ & _ & Hh).
  set (gw1 := run_goroutine gw (GStart k) true). set (gw2 := run_goroutine gw1 (GListen k) true).
  assert (http_server gw1 k = Some (set_http s Created)) as E1.
  { destruct k; [| |done]; cbn [gw1 run_goroutine set_servers http_server gw_ws gw_secure] in *; rewrite Es;
      cbn [step_http fmap option_fmap option_map]; unfold ws_Start; by rewrite Hh. }
  assert (GListen k ∈ gw_spawned gw1) as Hl.
  { destruct k; [| |done]; cbn [gw1 run_goroutine set_servers gw_spawned]; apply elem_of_app; right; by left. }
  exists gw2, (set_http (set_http s Created) Serving). split_and!; [|by destruct k; cbn in E1 |- *; rewrite ?E1|done].
  eapply rtc_l; [by apply (life_run gw (GStart k) true)|]. apply rtc_once. by apply (life_run gw1 (GListen k) true).
Qed.

(** C26: whether a WebSocket server outlives [Stop] depends on its goroutine.  When that
    has called [Start], the server is shut down and never listens again; when
    [Stop] comes first, it finds no server, and the server listens afterwards. *)
Theorem gateway_stop_overtakes config order h gw0 gw k s drained reading sessions services
    (Hnew : gateway_New config order h true = Ret gw0) (Hreach : rtc life_step gw0 gw)
    (Hopen : gw_shutdownClosed gw = false) (Hserver : http_server gw k = Some s) :
  let gw1 := (gateway_Stop ok gw drained reading sessions services).1.1 in
  if decide (GStart k ∈ gw_spawned gw)
  then exists gw2 s2, rtc life_step gw1 gw2 /\ http_server gw2 k = Some s2 /\ wss_server s2 = Some Serving
  else forall gw2 s2, rtc life_step gw1 gw2 -> http_server gw2 k = Some s2 -> wss_server s2 = Some ShutDown.
Proof.
  pose proof (life_reach_inv _ _ _ _ _ Hnew Hreach) as Hi. cbv zeta.
  assert (life_inv (gateway_Stop ok gw drained reading sessions services).1.1) as Hi1 by (eapply life_step_inv; [apply life_stop|done]).
  destruct (stop_keeps gw drained reading sessions services k Hi Hopen) as (E1 & E2 & E3). cbv zeta in *. rewrite Hserver in E1.
  set (gw1 := (gateway_Stop ok gw drained reading sessions services).1.1) in *. destruct (decide _) as [Hst|Hst].
  - apply (run_to_serving gw1 k (stopped_server s)); [done|done|by rewrite E2].
  - intros gw2 s2 Hsteps Es2. assert (is_down gw1 k) as Hd.
    { split.
      - rewrite E3. destruct (gw_serviceRegistered gw) eqn:Er; [done|]. destruct (lf_unstarted gw Hi Er) as (_ & Ew & Esec & _).
        destruct k; cbn in Hserver; congruence.
      - exists (stopped_server s). split; [done|]. destruct (lf_server gw Hi k s Hserver) as (Ha & _). unfold stopped_server.
        destruct (wss_server s); [done|]. by destruct Hst; apply Ha. }
    clear -Hi1 Hd Hsteps Es2. revert Hi1 Hd. generalize dependent gw1. intros gw1 Hsteps Hi1 Hd.
    induction Hsteps as [gw1|a b c Hab _ IH].
    + destruct Hd as [_ (s' & Es' & Hcl)]. rewrite Es2 in Es'. injection Es' as <-. by apply (lf_server _ Hi1 k s2 Es2).
    + apply IH; [done|by eapply life_step_inv|by eapply down_step].
Qed.

(** *** How [Stop] ends *)

Lemma close_sessions_cases reading g l :
  (forall k a, (k, a) ∈ l -> is_Some (g_heap g !! a)) ->
  match close_sessions ok reading g l with
  | (g', _, Some a) => a ∈ reading /\ a ∈ l.*2
  | (g', _, None) =>
      (forall a, a ∈ l.*2 -> a ∉ reading) /\ g_sessions g' = g_sessions g /\
      (forall a, a ∈ l.*2 -> closed <$> g_heap g' !! a = Some true) /\
      (forall a, closed <$> g_heap g !! a = Some true -> closed <$> g_heap g' !! a = Some true)
  end.
Proof.
  revert g. induction l as [|[k a] l IH]; intros g Hl; cbn [close_sessions].
  { split_and!; try done; by intros a ?%elem_of_nil. }
  destruct (Hl k a) as [s Hs]; [by left|]. rewrite Hs. case_decide as Ha; [split; [done|by left]|].
  destruct (Close ok s) as [[s' es] o] eqn:Hc.
  assert (closed s' = true) as Hcl.
  { unfold Close in Hc. destruct (closed s) eqn:E; [by injection Hc as <- <- <-|]. by repeat case_match; simplify_eq. }
  set (g1 := set_heap g (<[a := s']> (g_heap g))). specialize (IH g1).
  assert (forall k a, (k, a) ∈ l -> is_Some (g_heap g1 !! a)) as Hl1.
  { intros k' b Hb. cbn [g1 set_heap g_heap]. apply lookup_insert_is_Some'. right. apply (Hl k' b). by right. }
  specialize (IH Hl1). destruct (close_sessions ok reading g1 l) as [[g' es'] [b|]].
  { destruct IH as [? ?]. split; [done|]. by right. }
  destruct IH as (H1 & H2 & H3 & H4). split_and!; [|done| |].
  - intros b [-> |Hb]%elem_of_cons; [done|by apply H1].
  - intros b [-> |Hb]%elem_of_cons; [|by apply H3]. apply H4. cbn [g1 set_heap g_heap]. rewrite lookup_insert_eq. simpl. by rewrite Hcl.
  - intros b Hb. apply H4. cbn [g1 set_heap g_heap]. destruct (decide (a = b)) as [<-|Hab].
    + rewrite lookup_insert_eq. simpl. by rewrite Hcl.
    + by rewrite lookup_insert_ne.
Qed.

(** How [Stop] ends.  A second call panics.  The first returns exactly when no
    registered session is being read, and has then closed every session; otherwise
    it waits, with the lock of the sessions, for a session that is being read, and
    the gateway stays registered. *)
Theorem gateway_stop_ends config order h gw0 gw drained reading sessions services gw' es e
    (Hnew : gateway_New config order h true = Ret gw0) (Hreach : rtc life_step gw0 gw)
    (Hheap : forall id a, g_sessions (gw_sessions gw) !! id = Some a -> is_Some (g_heap (gw_sessions gw) !! a))
    (Horder : map_order (g_sessions (gw_sessions gw)) sessions)
    (Hstop : gateway_Stop ok gw drained reading sessions services = (gw', es, e)) :
  match e with
  | StopPanics => gw_shutdownClosed gw = true
  | StopReturned => gw_shutdownClosed gw = false /\ gw_shutdownClosed gw' = true /\
      forall id a, g_sessions (gw_sessions gw) !! id = Some a ->
        (a ∉ reading) /\ closed <$> g_heap (gw_sessions gw') !! a = Some true
  | StopWaits a => gw_shutdownClosed gw = false /\ a ∈ reading /\ gw_sd gw' = gw_sd gw /\
      exists id, g_sessions (gw_sessions gw) !! id = Some a
  end.
Proof.
  pose proof (life_reach_inv _ _ _ _ _ Hnew Hreach) as Hi. destruct (gw_shutdownClosed gw) eqn:Hsd.
  { unfold gateway_Stop in Hstop. rewrite Hsd in Hstop. by injection Hstop as <- <- <-. }
  rewrite gateway_Stop_first in Hstop by done. cbv zeta in Hstop.
  assert (forall k a, (k, a) ∈ sessions -> is_Some (g_heap (gw_sessions (stopped_gateway gw)) !! a)) as Hl.
  { intros k a Ha. apply (Hheap k a). by apply (map_order_elem _ _ _ _ Horder). }
  pose proof (close_sessions_cases reading (gw_sessions (stopped_gateway gw)) sessions Hl) as Hcases.
  destruct (close_sessions ok reading (gw_sessions (stopped_gateway gw)) sessions) as [[g es'] [a|]].
  - injection Hstop as <- <- <-. destruct Hcases as [Hr Ha]. split_and!; [done..|].
    apply list_elem_of_fmap in Ha as ([id b] & -> & Hb). exists id. by apply (map_order_elem _ _ _ _ Horder).
  - destruct Hcases as (H1 & _ & H3 & _).
    assert (forall id a, g_sessions (gw_sessions gw) !! id = Some a -> a ∈ sessions.*2) as Hin.
    { intros id a Ha. apply list_elem_of_fmap. exists (id, a). split; [done|]. by apply (map_order_elem _ _ _ _ Horder). }
    cbn [set_gw_sessions gw_serviceRegistered] in Hstop.
    destruct (gw_serviceRegistered (stopped_gateway gw)); injection Hstop as <- <- <-;
      (split_and!; [done..|]; intros id a Ha%Hin; split; [by apply H1|by apply H3]).
Qed.

(** *** The gateway among the services *)

Lemma gateway_Start_keeps gw now crypto cert :
  let gw' := (gateway_Start grow gw now crypto cert).1 in
  gw_sd gw' = gw_sd (registerServiceInstance grow gw now) /\ gw_router gw' = gw_router gw /\
  gw_registry gw' = gw_registry gw /\ gw_config gw' = gw_config gw /\ gw_serviceRegistered gw' = true /\
  gw_shutdownClosed gw' = gw_shutdownClosed gw /\ gw_sessions gw' = gw_sessions gw.
Proof.
  cbv zeta. unfold gateway_Start, start_ws, NewWebSocketServer, start_secure, NewSecureWebSocketServer, start_quic, NewQUICServer.
  by repeat (case_match; simplify_eq; try done).
Qed.

Lemma register_types_lookup {B} (r : MessageRouter B) l t :
  (forall k n, (k, n) ∈ l -> 0 <= k < 65536) -> NoDup l.*1 ->
  serviceMap (register_types r l) !! t =
  match (list_to_map l : gmap Z string) !! t with Some n => Some n | None => serviceMap r !! t end.
Proof.
  revert r. induction l as [|[k n] l IH]; intros r Hl Hnd; cbn [register_types]; [by rewrite list_to_map_nil, lookup_empty|].
  apply NoDup_cons in Hnd as [Hk Hnd]. rewrite IH; [|by intros; eapply Hl; right|done].
  rewrite uwrap_small by (unfold in_u; specialize (Hl k n ltac:(by left)); lia).
  rewrite list_to_map_cons, lookup_insert. destruct (decide (k = t)) as [<-|Hkt].
  - replace (list_to_map l !! k) with (None : option string); [by cbn; rewrite lookup_insert_eq|].
    symmetry. by apply not_elem_of_list_to_map.
  - destruct (list_to_map l !! t); [done|]. cbn. by rewrite lookup_insert_ne.
Qed.

Lemma register_types_balancer {B} (r : MessageRouter B) l : loadBalancer (register_types r l) = loadBalancer r.
Proof. revert r. induction l as [|[k n] l IH]; intros r; [done|]. cbn [register_types]. by rewrite IH. Qed.

(** A balancer that was just made is ready for the gateway's instance. *)
Lemma new_balancer_ready name config now : lb_ready (new_balancer name) [gateway_instance config now].
Proof.
  unfold new_balancer. case_decide; cbn.
  - split_and!; [done| |done]. by intros i ->%list_elem_of_singleton.
  - done.
Qed.

(** A service with one instance, which is up. *)
Lemma route_one (r : MessageRouter balancer) sd m name i now :
  serviceMap r !! ServiceType m = Some name -> view sd !! name = Some [i] -> Status i = "up"%string ->
  lb_ready (loadBalancer r) [i] ->
  exists r', Route r sd m (Responded now) = (r', fill_destination m name, Ret (response_to (fill_destination m name) name now, i)).
Proof.
  intros Hn Hv Hup Hready. unfold Route, choose_instance, GetServiceName, GetServiceInstances. rewrite Hn.
  rewrite view_lookup in Hv. destruct (instances sd !! name) as [sl|]; [|done]. injection Hv as Hv. rewrite Hv.
  assert (i ∈ available [i]) as Hav by (apply elem_of_available; split; [by left|done]).
  destruct (select_up (loadBalancer r) [i] Hready) as (b & j & -> & [Hj _]%elem_of_available); [by intros E; rewrite E in Hav; apply elem_of_nil in Hav|].
  apply list_elem_of_singleton in Hj as ->. by eexists.
Qed.

Lemma start_view gw0 now crypto cert :
  gw_sd gw0 = NewInMemoryServiceDiscovery ->
  sd_inv (gw_sd (gateway_Start grow gw0 now crypto cert).1) /\
  view (gw_sd (gateway_Start grow gw0 now crypto cert).1) = {[ "gateway"%string := [gateway_instance (gw_config gw0) now] ]}.
Proof.
  intros Hsd. destruct (gateway_Start_keeps gw0 now crypto cert) as (-> & _). unfold registerServiceInstance. cbn [set_discovery gw_sd].
  rewrite Hsd. destruct (register_refines grow NewInMemoryServiceDiscovery (gateway_instance (gw_config gw0) now) sd_inv_new) as [Hi Hv].
  split; [done|]. rewrite Hv. unfold spec_register. cbn [ServiceName gateway_instance]. by apply map_eq.
Qed.

Lemma gateway_New_fields config order h gw0 :
  gateway_New config order h true = Ret gw0 ->
  gw_sd gw0 = NewInMemoryServiceDiscovery /\ gw_config gw0 = config /\
  gw_router gw0 = register_types (MkRouter (new_balancer (LoadBalancerType config)) ∅) order /\
  gw_registry gw0 = registerInternalHandlers NewHandlerRegistry /\ gw_shutdownClosed gw0 = false.
Proof. unfold gateway_New, NewTicker, panic_unless. cbn [negb]. destruct (0 <? _); [|done]. gosimpl. by intros [= <-]. Qed.

(** The handlers that the gateway registers for itself are never used.  After a
    start a heartbeat is routed to the gateway's own instance and answered with the
    router's placeholder, although the registry has the handler that answers
    [pong]. *)
Theorem gateway_handlers_unused config order h gw0 gw now crypto cert m t
    (Hnew : gateway_New config order h true = Ret gw0)
    (Horder : map_order (ServiceMap (RouterCfg config)) order)
    (Hmap : ServiceMap (RouterCfg config) !! 1 = Some "gateway"%string)
    (Hsmall : forall k n, ServiceMap (RouterCfg config) !! k = Some n -> 0 <= k < 65536)
    (Hstart : gateway_Start grow gw0 now crypto cert = (gw, Ret tt))
    (Hm : ServiceType m = ServiceTypeGateway /\ MessageType m = 1) :
  GetHandler (gw_registry gw) (ServiceType m) (MessageType m) = Ret Heartbeat /\
  Payload (run_internal Heartbeat (gw_sessions gw) m t) = str_bytes "pong" /\
  exists response, (HandleMessage gw m (Responded t)).2 = Ret response /\ Payload response = response_text /\
    SourceService response = "gateway"%string /\ DestinationService response = SourceService m.
Proof.
  destruct (gateway_New_fields _ _ _ _ Hnew) as (Hsd & Hcfg & Hr & Hreg & _).
  destruct (gateway_Start_keeps gw0 now crypto cert) as (_ & Kr & Kreg & Kc & _).
  destruct (start_view gw0 now crypto cert Hsd) as [_ Hv]. rewrite Hstart in *. cbn [fst] in *.
  destruct Hm as [Hm1 Hm2]. rewrite Hm1, Hm2. split_and!; [by rewrite Kreg, Hreg|done|].
  destruct (route_one (gw_router gw) (gw_sd gw) m "gateway" (gateway_instance (gw_config gw0) now) t) as [r' E].
  - rewrite Kr, Hr, Hm1, register_types_lookup.
    + replace (list_to_map order !! ServiceTypeGateway) with (Some "gateway"%string); [done|].
      symmetry. apply elem_of_list_to_map; [by eapply map_order_nodup|]. by apply (map_order_elem _ _ _ _ Horder).
    + intros k n Hk. apply (Hsmall k n). by apply (map_order_elem _ _ _ _ Horder).
    + by eapply map_order_nodup.
  - rewrite Hv. apply lookup_singleton_eq.
  - done.
  - rewrite Kr, Hr, register_types_balancer. apply new_balancer_ready.
  - unfold HandleMessage. rewrite E. eexists. split; [done|]. split_and!; [done..|]. cbn. unfold fill_destination. by case_decide.
Qed.

(** The instance of the gateway is registered by [Start], whatever happens to the
    servers, and gone when [Stop] has returned. *)
Theorem gateway_deregisters config order h gw0 gw o now crypto cert drained reading sessions services gw' es
    (Hnew : gateway_New config order h true = Ret gw0)
    (Hstart : gateway_Start grow gw0 now crypto cert = (gw, o))
    (Hservices : "gateway"%string ∈ services)
    (Hstop : gateway_Stop ok gw drained reading sessions services = (gw', es, StopReturned)) :
  view (gw_sd gw) = {[ "gateway"%string := [gateway_instance config now] ]} /\ view (gw_sd gw') = {[ "gateway"%string := [] ]}.
Proof.
  destruct (gateway_New_fields _ _ _ _ Hnew) as (Hsd & Hcfg & _ & _ & Hopen).
  destruct (gateway_Start_keeps gw0 now crypto cert) as (_ & _ & _ & Kc & Kreg & Kop & _).
  destruct (start_view gw0 now crypto cert Hsd) as [Hinv Hv].
  assert (life_inv gw) as Hi.
  { pose proof (start_inv gw0 now crypto cert (life_new_inv _ _ _ _ Hnew)) as Hs. rewrite Hstart in Hs. apply Hs.
    pose proof (life_new_inv _ _ _ _ Hnew). unfold gateway_New, NewTicker, panic_unless in Hnew. cbn [negb] in Hnew.
    destruct (0 <? _); [|done]. by injection Hnew as <-. }
  rewrite Hstart in *. cbn [fst] in *. rewrite Hcfg in *. split; [done|].
  rewrite gateway_Stop_first in Hstop by (done || congruence). cbv zeta in Hstop.
  destruct (close_sessions _ _ _ _) as [[g es'] [a|]]; [done|]. cbn [set_gw_sessions gw_serviceRegistered] in Hstop.
  change (gw_serviceRegistered (stopped_gateway gw)) with (gw_serviceRegistered gw) in Hstop. rewrite Kreg in Hstop.
  injection Hstop as <- <-. cbn [set_discovery gw_sd set_gw_sessions gw_config].
  change (gw_sd (stopped_gateway gw)) with (gw_sd gw). change (gw_config (stopped_gateway gw)) with (gw_config gw). rewrite Kc.
  pose proof (sd_deregister_cases grow (gw_sd gw) services (instance_id config) Hinv) as Hd.
  destruct (DeregisterServiceInstance (gw_sd gw) services (instance_id config)) as [sd' o']. destruct Hd as (_ & Hd & _).
  cbn [fst]. apply (f_equal fst) in Hd. cbn [fst] in Hd. rewrite Hd, Hv. clear -Hservices.
  induction services as [|n services IH]; [by apply elem_of_nil in Hservices|]. cbn [spec_deregister].
  destruct (decide (n = "gateway"%string)) as [-> |Hn].
  - rewrite lookup_singleton_eq. cbn [default id].
    assert (find_id (instance_id config) [gateway_instance config now] = Some 0%nat) as -> by (cbn [find_id]; by rewrite bool_decide_true).
    cbn. by rewrite insert_singleton_eq.
  - rewrite lookup_singleton_ne by done. cbn [default find_id]. apply IH. by apply elem_of_cons in Hservices as [? |].
Qed.
End life_theorems.

(** ** A concrete gateway *)

(** Settings are the whole numbers among the keys at the top. *)
Fixpoint find_key (s : list (string * Z)) (k : string) : option Z :=
  match s with
  | [] => None
  | (k', v) :: rest => if decide (lower k' = k) then Some v else find_key rest k
  end.

Lemma find_key_absent s k : k ∉ lower <$> s.*1 -> find_key s k = None.
Proof.
  induction s as [|[k' v] s IH]; [done|]. cbn [fmap list_fmap fst find_key]. intros [Hk Hs]%not_elem_of_cons.
  rewrite decide_False by congruence. by apply IH.
Qed.

Definition with_interval (n : Z) : Config :=
  {| cfg_ID := cfg_ID DefaultConfig; Region := Region DefaultConfig; WebSocket := WebSocket DefaultConfig;
     SecureWebSocket := SecureWebSocket DefaultConfig; QUIC := QUIC DefaultConfig; RouterCfg := RouterCfg DefaultConfig;
     LoadBalancerType := LoadBalancerType DefaultConfig; SessionCleanupInterval := n;
     MaxSessionInactiveTime := MaxSessionInactiveTime DefaultConfig |}.

#[export, refine]
Instance number_settings : Viper (list (string * Z)) := {
  top_keys s := s.*1;
  viper_Unmarshal s := Some (with_interval (default 0 (find_key s "sessioncleanupinterval")))
}.
Proof. intros s c [= <-] Hk. cbn. by rewrite (find_key_absent s _ Hk). Defined.

Definition repo_settings : list (string * Z) := (fun k => (k, 1)) <$> file_keys.

Lemma gateway_config_crashes_witness :
  LoadGatewayConfig (fun _ => true) (Some repo_settings) = Some (with_interval 0) /\
  gateway_New (with_interval 0) [] ∅ true = Panic.
Proof.
  split; [vm_compute; reflexivity|].
  apply (gateway_config_crashes (fun _ => true) repo_settings (with_interval 0) [] ∅); [vm_compute; reflexivity|left; reflexivity].
Defined.

#[export]
Instance no_converter : ProtocolConverter unit := {
  ToInternal _ _ _ := Fail tt;
  FromInternal _ _ _ := Fail tt
}.

Definition all_ok (e : io) : bool := true.
Definition ping (now : Z) : turn := MkTurn now 0 (MkIncoming (Some (1, [])) None []) TimedOut.
Definition late (now : Z) : turn := MkTurn now 0 (MkIncoming None None []) TimedOut.
Definition ws_server : WebSocketServer := SetConnectionHandler (MkWSServer (WebSocket DefaultConfig) None false false).
Definition rr_router : MessageRouter balancer := MkRouter (new_balancer "round_robin") ∅.

Lemma gateway_ws_deadline_witness :
  (handleSessionMessages all_ok NewInMemoryServiceDiscovery (fun _ : GatewayError unit => []) rr_router
     (handleWebSocketConnection (NewGatewayHandler ∅) "s" 7 0).1 0
     [ping 1000000000; ping 20000000000; late 30000000000; late 31000000000]).2 <> Waiting.
Proof.
  refine (proj2 (gateway_ws_deadline all_ok NewInMemoryServiceDiscovery (fun _ : GatewayError unit => []) ws_server 7 0
    30000000000 30000000000 (NewGatewayHandler ∅) "s" _ 0%nat rr_router
    [ping 1000000000; ping 20000000000; late 30000000000; late 31000000000]
    [ping 1000000000; ping 20000000000] (late 30000000000) [late 31000000000] _ _ _ _ _)).
  - reflexivity.
  - reflexivity.
  - unfold respects_deadline. repeat constructor; cbn; lia.
  - reflexivity.
  - vm_compute. discriminate.
Defined.

Definition quic_served : QUICServer := (quic_Start (MkQUICServer None false false false 0 ∅) true).1.

Lemma gateway_quic_count_witness :
  GetConnectionCount (quic_closed (quic_accept (quic_accept quic_served (Some 1%nat)) (Some 2%nat)) 1) = 1.
Proof.
  rewrite (gateway_quic_count true (MkQUICServer None false false false 0 ∅)
    (quic_closed (quic_accept (quic_accept quic_served (Some 1%nat)) (Some 2%nat)) 1)); [vm_compute; reflexivity|reflexivity|].
  apply rtc_l with quic_served; [apply quic_step_start; reflexivity|].
  apply rtc_l with (quic_accept quic_served (Some 1%nat)); [apply quic_step_accept; [reflexivity|cbn; set_solver]|].
  apply rtc_l with (quic_accept (quic_accept quic_served (Some 1%nat)) (Some 2%nat)); [apply quic_step_accept; [reflexivity|cbn; set_solver]|].
  apply rtc_once. apply quic_step_end. cbn. set_solver.
Defined.

Definition default_order : list (Z * string) := map_to_list (ServiceMap (RouterCfg DefaultConfig)).

Definition new_gateway : gateway :=
  match gateway_New DefaultConfig default_order ∅ true with
  | Ret gw => gw
  | _ => MkGW DefaultConfig rr_router NewHandlerRegistry NewInMemoryServiceDiscovery (NewGatewayHandler ∅) None None None [] false false
  end.

Definition started_gateway : gateway := (gateway_Start S new_gateway 5 true true).1.

Lemma new_gateway_ok : gateway_New DefaultConfig default_order ∅ true = Ret new_gateway.
Proof. reflexivity. Qed.

Lemma started_reached : rtc (life_step S all_ok) new_gateway started_gateway.
Proof. apply rtc_once. apply life_start. reflexivity. Qed.

(** [Stop] right after [Start]: the WebSocket server listens afterwards. *)
Lemma gateway_stop_overtakes_witness :
  exists gw2 s2, rtc (life_step S all_ok) (gateway_Stop all_ok started_gateway true ∅ [] ["gateway"%string]).1.1 gw2 /\
    http_server gw2 KWebSocket = Some s2 /\ wss_server s2 = Some Serving.
Proof.
  pose proof (gateway_stop_overtakes S all_ok DefaultConfig default_order ∅ new_gateway started_gateway KWebSocket ws_server true ∅ []
    ["gateway"%string] new_gateway_ok started_reached eq_refl eq_refl) as Hthm.
  cbv zeta in Hthm. rewrite decide_True in Hthm by (vm_compute; left). exact Hthm.
Defined.

(** With a session that is being read. *)
Definition busy_gateway : gateway := set_gw_sessions started_gateway (handleWebSocketConnection (NewGatewayHandler ∅) "s" 7 0).1.

Lemma gateway_stop_ends_witness :
  0%nat ∈ ({[ 0%nat ]} : gset nat) /\ gw_sd (gateway_Stop all_ok busy_gateway true {[ 0%nat ]} [("s"%string, 0%nat)] ["gateway"%string]).1.1 = gw_sd busy_gateway.
Proof.
  destruct (gateway_stop_ends S all_ok DefaultConfig default_order ∅ new_gateway busy_gateway true {[ 0%nat ]} [("s"%string, 0%nat)]
    ["gateway"%string] (gateway_Stop all_ok busy_gateway true {[ 0%nat ]} [("s"%string, 0%nat)] ["gateway"%string]).1.1
    (gateway_Stop all_ok busy_gateway true {[ 0%nat ]} [("s"%string, 0%nat)] ["gateway"%string]).1.2 (StopWaits 0)) as (_ & Hr & Hsd & _).
  - exact new_gateway_ok.
  - apply rtc_r with started_gateway; [exact started_reached|apply life_sessions].
  - intros id a Ha. assert (a = 0%nat) as ->; [|by vm_compute; eexists].
    assert (g_sessions (gw_sessions busy_gateway) = {[ "s"%string := 0%nat ]}) as E by (vm_compute; reflexivity).
    rewrite E in Ha. by apply lookup_singleton_Some in Ha as [_ <-].
  - vm_compute. reflexivity.
  - reflexivity.
  - split; [exact Hr|exact Hsd].
Defined.

Definition heartbeat : Message := MkMessage 1 0 1 1 9 0 0 "client" "" "c" "s" [].

Lemma gateway_handlers_unused_witness :
  exists response, (HandleMessage started_gateway heartbeat (Responded 8)).2 = Ret response /\ Payload response = response_text.
Proof.
  destruct (gateway_handlers_unused S DefaultConfig default_order ∅ new_gateway started_gateway 5 true true heartbeat 8)
    as (_ & _ & response & Hr & Hp & _).
  - exact new_gateway_ok.
  - unfold default_order, map_order. reflexivity.
  - reflexivity.
  - assert (map_Forall (fun k (_ : string) => 0 <= k < 65536) (ServiceMap (RouterCfg DefaultConfig))) as Hall
      by (apply (bool_decide_unpack _); vm_compute; exact I).
    exact Hall.
  - reflexivity.
  - split; reflexivity.
  - exists response. split; [exact Hr|exact Hp].
Defined.

Lemma gateway_deregisters_witness :
  view (gw_sd (gateway_Stop all_ok started_gateway true ∅ [] ["gateway"%string]).1.1) = {[ "gateway"%string := [] ]}.
Proof.
  refine (proj2 (gateway_deregisters S all_ok DefaultConfig default_order ∅ new_gateway started_gateway (Ret tt) 5 true true true ∅ []
    ["gateway"%string] _ (gateway_Stop all_ok started_gateway true ∅ [] ["gateway"%string]).1.2 _ _ _ _)).
  - exact new_gateway_ok.
  - reflexivity.
  - left.
  - reflexivity.
Defined.
