(* ===== verification/SecureServer.v ===== *)
(** * The secure WebSocket server and its client program
    ([pkg/gateway/secure_websocket_server.go], [tools/secure_ws_client.go])

    The server from its construction to the connections it hands on, over the
    connections of [Security.v] and the HTTP server of [GatewayServers.v], and the
    program that is meant to test it: connecting, the handshake, the loop that sends
    and the end.  The program lies in the repository twice, as
    [cmd/secure_ws_client/main.go] as well. *)

From stdpp Require Import base gmap strings numbers list.
From Stdlib Require Import ZArith Lia.
From S2P Require Import Prelude Json Security GatewayServers.

Local Open Scope Z_scope.

Section secure.
Context {PrivateKey : Type} `{Crypto PrivateKey}.

(** ** The server *)

(** [sws_http] has the address, the timeouts, the HTTP server, whether there is a
    handler, and [shutdownCh]. *)
Record SecureWebSocketServer := MkSecureServer {
  sws_http : WebSocketServer;
  sws_CertFile : string;
  sws_KeyFile : string;
  sws_crypto : CryptoManager (PrivateKey := PrivateKey)
}.

(** [int64(24 * time.Hour / time.Second)] *)
Definition rotation_seconds : Z := 24 * 3600.

Definition NewSecureServer (config : SecureWSConfig) (now : Z) (random : option PrivateKey) : outcome ServerError SecureWebSocketServer :=
  if negb (ws_Enabled (sec_ws config)) then Fail ErrDisabled
  else match NewCryptoManager (Some rotation_seconds) now random with
  | Ret cm => Ret (MkSecureServer (MkWSServer (sec_ws config) None false false) (sec_CertFile config) (sec_KeyFile config) cm)
  | Fail _ => Fail ErrCrypto
  | Panic => Panic
  end.

Definition set_sws (s : SecureWebSocketServer) (r : WebSocketServer * outcome ServerError unit) :
    SecureWebSocketServer * outcome ServerError unit :=
  (MkSecureServer r.1 (sws_CertFile s) (sws_KeyFile s) (sws_crypto s), r.2).

Definition secure_SetConnectionHandler (s : SecureWebSocketServer) : SecureWebSocketServer :=
  (set_sws s (SetConnectionHandler (sws_http s), Ret tt)).1.

(** [Start] up to the listening, which is [secure_listen]; [loads] tells of a pair of
    files whether it is a certificate with its key. *)
Definition secure_Start (s : SecureWebSocketServer) : SecureWebSocketServer * outcome ServerError unit :=
  set_sws s (ws_Start (sws_http s)).

(** [ListenAndServeTLS] listens first and then reads the files. *)
Definition secure_listen (loads : string -> string -> bool) (s : SecureWebSocketServer) (bound : bool) :
    SecureWebSocketServer * outcome ServerError unit :=
  match wss_server (sws_http s) with
  | Some Created =>
      if negb bound then (s, Fail ErrListen)
      else if loads (sws_CertFile s) (sws_KeyFile s) then set_sws s (ws_listen (sws_http s) true)
      else (s, Fail ErrCertificate)
  | _ => (s, Ret tt)
  end.

Definition secure_Stop (s : SecureWebSocketServer) (drained : bool) : SecureWebSocketServer * outcome ServerError unit :=
  set_sws s (ws_Stop (sws_http s) drained).

(** A connection that has been handed on: its deadlines are set once. *)
Record handed := MkHanded {
  hd_conn : SecureWebSocketConnection;
  hd_read_deadline : Z;
  hd_write_deadline : Z
}.

(** What becomes of an upgraded connection: what it was sent, and whether it is
    handed to the handler or closed.  [message]: the first frame and when it arrived;
    [written]: when the response is written and whether the peer takes it. *)
Definition secure_handleWebSocket (s : SecureWebSocketServer) (now : Z) (sessionID : string) (random : option PrivateKey)
    (nonce : list byte) (message : option (Z * list byte)) (written : Z * bool) :
    SecureWebSocketServer * list (list byte) * outcome ConnError handed :=
  let rd := now + seconds (ws_ReadTimeout (wss_config (sws_http s))) in
  let wd := now + seconds (ws_WriteTimeout (wss_config (sws_http s))) in
  let frame := match message with Some (t, m) => if t <? rd then Some m else None | None => None end in
  let '(cm, sc, frames, o) :=
    Handshake (sws_crypto s) (NewSecureWebSocketConnection sessionID) now random nonce frame (written.2 && (written.1 <? wd)) in
  let s := MkSecureServer (sws_http s) (sws_CertFile s) (sws_KeyFile s) cm in
  match o with
  | Ret _ => (s, frames, Ret (MkHanded sc rd wd))
  | Fail e => (s, frames, Fail e)
  | Panic => (s, frames, Panic)
  end.

(** ** The client program *)

Record client_state := MkState {
  cs_client : SecureClient (PrivateKey := PrivateKey);
  cs_connected : bool
}.

(** The frame of [Close], if it writes one. *)
Definition client_Close (c : client_state) : list (list byte) :=
  if cs_connected c && isSecure (cs_client c) then [byte_of MessageTypeClose :: be_put 4 0] else [].

(** [fmt.Sprintf("Secure echo test message #%d", i+1)] *)
Definition test_message (i : nat) : list byte := str_bytes "Secure echo test message #" ++ dec (Z.of_nat i + 1).

(** What the select finds. *)
Inductive poll := PollDone | PollInterrupt | PollDefault.

Inductive client_exit :=
  | FatalCreate
  | FatalConnect
  | FatalHandshake (e : ConnError)
  | ExitDone
  | ExitInterrupted
  | ExitSendError (e : ConnError)
  | ExitCompleted
  | Crashed.

(** The loop of [main]: [more] messages from number [i] on; [write_ok]: the write of
    a message succeeds. *)
Fixpoint send_loop (c : SecureClient (PrivateKey := PrivateKey)) (polls : nat -> poll) (write_ok : nat -> bool) (more i : nat) :
    list (list byte) * client_exit :=
  match more with
  | O => ([], ExitCompleted)
  | S more =>
      match polls i with
      | PollDone => ([], ExitDone)
      | PollInterrupt => ([], ExitInterrupted)
      | PollDefault =>
          match client_Send c (test_message i) with
          | Panic => ([], Crashed)
          | Fail e => ([], ExitSendError e)
          | Ret frame =>
              if write_ok i then let '(frames, e) := send_loop c polls write_ok more (S i) in (frame :: frames, e)
              else ([], ExitSendError ErrWrite)
          end
      end
  end.

(** [main]: the frames that go out, and how it ends.  [response]: what answers the
    handshake.  Every end behind the handshake closes the client; what a second
    [Close] writes fails, since the connection is closed. *)
Definition client_main (key : option PrivateKey) (now : Z) (dialled : bool) (hello_ok : bool) (response : option (list byte))
    (polls : nat -> poll) (write_ok : nat -> bool) (n : nat) : list (list byte) * client_exit :=
  match key with
  | None => ([], FatalCreate)
  | Some k =>
      if negb dialled then ([], FatalConnect)
      else match client_Handshake (NewSecureClient now k) hello_ok response with
      | (_, frames, Fail e) => (frames, FatalHandshake e)
      | (_, frames, Panic) => (frames, Crashed)
      | (c, frames, Ret _) =>
          match send_loop c polls write_ok n 0 with
          | (sent, Crashed) => (frames ++ sent, Crashed)
          | (sent, e) => (frames ++ sent ++ client_Close (MkState c true), e)
          end
      end
  end.
End secure.

(** ** Properties *)

Section properties.
Context {PrivateKey : Type} `{HC : Crypto PrivateKey}.

Lemma dec_ascii n : 0 <= n < 2 ^ 64 -> Forall (fun b => byte_val b < 128) (dec n).
Proof.
  intros Hn. destruct (dec_spec n Hn) as (b0 & ds & -> & Hd & _). eapply Forall_impl; [exact Hd|]. intros b Hb. unfold is_digit in Hb.
  apply andb_prop in Hb as [_ Hb%Z.leb_le]. lia.
Qed.

Lemma client_id_valid now : 0 <= now < 2 ^ 64 ->
  utf8_valid 0 (str_bytes ("client-" +:+ bytes_str (dec now))) = true /\ Z.of_nat (strlen ("client-" +:+ bytes_str (dec now))) <= 1000000.
Proof.
  intros Hn. unfold strlen. rewrite str_bytes_app, str_bytes_str. split.
  - apply utf8_ascii, Forall_app. split; [repeat constructor; by vm_compute|by apply dec_ascii].
  - rewrite length_app. change (length (str_bytes "client-")) with 7%nat. pose proof (dec_length now). lia.
Qed.

(** The program against the server: whatever the state of the server, the times and
    the random numbers, the server refuses the handshake without an answer and closes
    the connection, and the program ends there, having sent its first frame only. *)
Theorem secure_program_refused (s : SecureWebSocketServer (PrivateKey := PrivateKey)) now id random nonce t written
    (k : PrivateKey) cnow polls write_ok n (Hc : 0 <= cnow < 2 ^ 64) :
  exists request s' e,
    secure_handleWebSocket s now id random nonce (Some (t, request)) written = (s', [], Fail e) /\
    client_main (Some k) cnow true true None polls write_ok n = ([request], FatalHandshake ErrReadHandshake).
Proof.
  destruct (client_id_valid cnow Hc) as [Hv Hl]. set (c := NewSecureClient cnow k).
  assert (length (c_publicKey c) = 65%nat) as Hk by apply public_length.
  pose proof (client_hello_length c Hk Hl) as Hb.
  assert (client_request c = Ret (byte_of MessageTypeHandshake :: byte_of MessageTypeHandshakeRequest ::
    be_put 4 (Z.of_nat (length (client_hello c))) ++ client_hello c)) as Hreq by by apply handshake_frame_wire.
  set (request := byte_of MessageTypeHandshake :: _) in Hreq. exists request.
  assert (exists s' e, secure_handleWebSocket s now id random nonce (Some (t, request)) written = (s', [], Fail e)) as (s' & e & Hs).
  { unfold secure_handleWebSocket. destruct (t <? _); [|eexists _, _; reflexivity].
    destruct (secure_client_refused (sws_crypto s) (NewSecureWebSocketConnection id) c now random nonce request
      (written.2 && (written.1 <? now + seconds (ws_WriteTimeout (wss_config (sws_http s)))))) as (cm' & e & -> & _);
      [done..|]. eexists _, _. reflexivity. }
  exists s', e. split; [done|]. unfold client_main, client_Handshake. fold c. change (isSecure c) with false.
  cbn [negb]. by rewrite Hreq.
Qed.

Lemma test_message_length i : (length (test_message i) <= 46)%nat.
Proof.
  unfold test_message. rewrite length_app. change (length (str_bytes "Secure echo test message #")) with 26%nat.
  pose proof (dec_length (Z.of_nat i + 1)). lia.
Qed.

(** The frame of a test message: type, length, text. *)
Definition plain_frame (i : nat) : list byte :=
  byte_of MessageTypeData :: be_put 4 (Z.of_nat (length (test_message i))) ++ test_message i.

Lemma send_loop_all (c : SecureClient (PrivateKey := PrivateKey)) n : forall i,
  isSecure c = true -> send_loop c (fun _ => PollDefault) (fun _ => true) n i = (plain_frame <$> seq i n, ExitCompleted).
Proof.
  induction n as [|n IH]; intros i Hs; [done|]. cbn [send_loop seq]. unfold client_Send. rewrite Hs. cbn [negb].
  pose proof (test_message_length i). rewrite data_frame_wire by lia. by rewrite IH.
Qed.

(** After a handshake the program sends its messages in order and then closes; the
    messages are not encrypted: each is in its frame as it is. *)
Theorem secure_program_plaintext (k : PrivateKey) cnow response c n
    (Hresp : client_response (NewSecureClient cnow k) (Some response) = (c, Ret tt))
    (Hc : 0 <= cnow < 2 ^ 64) :
  exists request,
    client_main (Some k) cnow true true (Some response) (fun _ => PollDefault) (fun _ => true) n =
      (request :: (plain_frame <$> seq 0 n) ++ [byte_of MessageTypeClose :: be_put 4 0], ExitCompleted).
Proof.
  destruct (client_id_valid cnow Hc) as [Hv Hl]. unfold client_main, client_Handshake. change (isSecure (NewSecureClient cnow k)) with false.
  cbn [negb]. unfold client_request. rewrite handshake_frame_wire by (apply client_hello_length; [apply public_length|done]).
  rewrite Hresp. assert (isSecure c = true) as Hs.
  { unfold client_response in Hresp. destruct (handshake_body _ _) as [body| |]; try (by injection Hresp).
    destruct (decode_struct _ _ _) as [[key id]|]; [|by injection Hresp]. destruct (negb _); [by injection Hresp|].
    destruct (Agree _ _); [|by injection Hresp]. by injection Hresp as <-. }
  rewrite send_loop_all by done. eexists. unfold client_Close. simpl. by rewrite Hs.
Qed.

(** What reads give on a connection with a deadline: the time in seconds, and a
    frame only before the deadline. *)
Definition timed (deadline : Z) (reads : list (Z * list byte)) : list (Z * option (list byte)) :=
  (fun r => (r.1 / second, if r.1 <? deadline then Some r.2 else None)) <$> reads.

(** A connection that was handed on lives for the configured timeouts from the moment
    it was upgraded: a read from then on fails, whatever arrives, and a message that
    is sent later does not go out. *)
Theorem secure_lifetime (s : SecureWebSocketServer (PrivateKey := PrivateKey)) now id random nonce message written s' frames h
    (Hup : secure_handleWebSocket s now id random nonce message written = (s', frames, Ret h)) :
  (forall ok t m reads pongs, now + seconds (ws_ReadTimeout (wss_config (sws_http s))) <= t ->
     Receive ok (sws_crypto s') (hd_conn h) (timed (hd_read_deadline h) ((t, m) :: reads)) pongs =
       (pongs, timed (hd_read_deadline h) reads, Some (Fail ErrRead))) /\
  (forall t rnd data, now + seconds (ws_WriteTimeout (wss_config (sws_http s))) <= t ->
     forall u, (Send (sws_crypto s') (hd_conn h) (t / second) rnd data (t <? hd_write_deadline h)).2 <> Ret u).
Proof.
  unfold secure_handleWebSocket in Hup. set (frame := match message with Some _ => _ | None => _ end) in Hup.
  destruct (Handshake _ _ _ _ _ _ _) as [[[cm sc] fs] o] eqn:Hh. destruct o as [u|e|]; [|done..]. injection Hup as <- <- <-.
  assert (isEncrypted sc = true) as He.
  { unfold Handshake in Hh. cbn [handshakeDone NewSecureWebSocketConnection] in Hh. repeat case_match; simplify_eq; done. }
  cbn [hd_conn hd_read_deadline hd_write_deadline sws_crypto]. split.
  - intros ok t m reads pongs Ht. cbn [timed fmap list_fmap Receive fst snd]. rewrite He. cbn [negb].
    by rewrite (proj2 (Z.ltb_ge _ _)).
  - intros t rnd data Ht v. unfold Send. rewrite He. cbn [negb]. rewrite (proj2 (Z.ltb_ge _ _)) by done.
    destruct (EncryptWithTimestamp _ _ _ _ _ _); [|done..]. by destruct (data_frame _).
Qed.
End properties.

(** ** Witnesses *)

Definition sample_server : SecureWebSocketServer (PrivateKey := byte) :=
  MkSecureServer (MkWSServer (MkWSConfig true ":8443" 30 30 120 4096) (Some Serving) true false) "cert.pem" "key.pem" toy_manager.

Lemma secure_program_refused_witness :
  exists request s' e,
    secure_handleWebSocket sample_server 5 "s9" None toy_nonce (Some (6, request)) (7, true) = (s', [], Fail e) /\
    client_main (Some Byte.x22) 77 true true None (fun _ => PollDefault) (fun _ => true) 5 = ([request], FatalHandshake ErrReadHandshake).
Proof. apply secure_program_refused. lia. Defined.

(** What a server that knows the session ID of the client would answer. *)
Definition good_response : list byte :=
  match handshake_frame MessageTypeHandshakeResponse
          (hello_back (PublicKey Byte.x11) (str_bytes "client-77") toy_nonce 3) with Ret r => r | _ => [] end.

Lemma secure_program_plaintext_witness :
  exists request,
    client_main (Some Byte.x22) 77 true true (Some good_response) (fun _ => PollDefault) (fun _ => true) 2 =
      (request :: (plain_frame <$> seq 0 2) ++ [byte_of MessageTypeClose :: be_put 4 0], ExitCompleted).
Proof.
  apply (secure_program_plaintext Byte.x22 77 good_response (client_response (NewSecureClient 77 Byte.x22) (Some good_response)).1);
    [vm_compute; reflexivity|lia].
Defined.

Definition hello_frame : list byte :=
  match handshake_frame MessageTypeHandshakeRequest (raw_hello (PublicKey Byte.x22) (str_bytes "s1") 3 60) with Ret r => r | _ => [] end.

Definition handed_on : SecureWebSocketServer * list (list byte) * outcome ConnError handed :=
  secure_handleWebSocket sample_server 5 "s1" None toy_nonce (Some (6, hello_frame)) (7, true).

Definition handed_of (r : SecureWebSocketServer (PrivateKey := byte) * list (list byte) * outcome ConnError handed) : handed :=
  match r.2 with Ret h => h | _ => MkHanded (open_connection "") 0 0 end.

Lemma secure_lifetime_witness :
  Receive (fun _ => true) (sws_crypto handed_on.1.1) (hd_conn (handed_of handed_on))
    (timed (hd_read_deadline (handed_of handed_on)) [(30000000005, Security.ping)]) 0 = (0%nat, [], Some (Fail ErrRead)).
Proof.
  apply (secure_lifetime sample_server 5 "s1" None toy_nonce (Some (6, hello_frame)) (7, true) handed_on.1.1 handed_on.1.2 (handed_of handed_on));
    [vm_compute; reflexivity|vm_compute; discriminate].
Defined.
