(* ===== verification/RedisCache.v ===== *)
(** * The Redis cache ([pkg/redis/cache.go])

    The operations of [RedisCache] over an interface of the Redis commands they
    use, with expiry and a network that may lose a request or a reply; a finite
    map implements the interface.  Values are encoded through a class of codecs,
    of which JSON strings and objects of strings are instances, to the byte.  The
    cache is an instance of the cache that the synchronization of entities
    ([CacheSync.v]) relies on.  Times are in nanoseconds. *)

From stdpp Require Import base gmap strings fin_maps numbers relations list.
From Stdlib Require Import ZArith Lia.
From S2P Require Import Prelude Json CacheSync.

Local Open Scope Z_scope.

(** ** The Redis commands *)

Section live.
Context {K : Type} (entry : K -> option (string * option Z)).

(** An entry that has no deadline, or one that has not passed. *)
Definition live (now : Z) (k : K) : option string :=
  match entry k with
  | Some (v, None) => Some v
  | Some (v, Some d) => if now <? d then Some v else None
  | None => None
  end.
End live.

(** A 64-bit integer in decimal. *)
Definition int_text (n : Z) : string := bytes_str (if n <? 0 then Byte.x2d :: dec (- n) else dec n).

(** [s_entry r k]: the value of a key, and when it expires.  [SET] without expiry
    takes an old one away, for a duration of zero; a positive duration, in whole
    milliseconds, sets a new one.  [MSET] takes the expiry of every key away.
    [INCR] takes a missing key for zero, keeps the expiry, refuses values that
    are no 64-bit integers ([s_int]) and stores the sum in decimal.  [EXPIRE] is in whole
    seconds.  [KEYS] gives the keys that are there and match the pattern ([s_match]), each
    once, in an order that is left open. *)
Class RedisStore (R : Type) := {
  s_entry : R -> string -> option (string * option Z);
  s_int : string -> option Z;
  s_match : string -> string -> bool;
  s_GET : R -> Z -> string -> option string;
  s_SET : R -> Z -> string -> string -> Z -> R;
  s_DEL : R -> Z -> string -> R * Z;
  s_EXISTS : R -> Z -> string -> Z;
  s_MGET : R -> Z -> list string -> list (option string);
  s_MSET : R -> Z -> list (string * string) -> R;
  s_INCR : R -> Z -> string -> R * option Z;
  s_EXPIRE : R -> Z -> string -> Z -> R * bool;
  s_KEYS : R -> Z -> string -> list string;
  s_get_spec r now k : s_GET r now k = live (s_entry r) now k;
  s_set_spec r now k v ttl : 0 <= ttl -> Z.rem ttl 1000000 = 0 -> forall k',
    s_entry (s_SET r now k v ttl) k' =
      if decide (k' = k) then Some (v, if decide (ttl = 0) then None else Some (now + ttl)) else s_entry r k';
  s_del_spec r now k :
    (s_DEL r now k).2 = (match s_GET r now k with Some _ => 1 | None => 0 end) /\
    forall k', s_entry (s_DEL r now k).1 k' = if decide (k' = k) then None else s_entry r k';
  s_exists_spec r now k : s_EXISTS r now k = (match s_GET r now k with Some _ => 1 | None => 0 end);
  s_mget_spec r now ks : s_MGET r now ks = s_GET r now <$> ks;
  s_mset_spec r now l : NoDup l.*1 -> forall k,
    s_entry (s_MSET r now l) k =
      match (list_to_map l : gmap string string) !! k with Some v => Some (v, None) | None => s_entry r k end;
  s_int_text n : - 2 ^ 63 <= n < 2 ^ 63 -> s_int (int_text n) = Some n;
  s_int_range s n : s_int s = Some n -> - 2 ^ 63 <= n < 2 ^ 63;
  s_incr_spec r now k :
    match default (Some 0) (s_int <$> s_GET r now k) with
    | Some n =>
        if decide (n + 1 < 2 ^ 63) then
          (s_INCR r now k).2 = Some (n + 1) /\
          forall k', s_entry (s_INCR r now k).1 k' =
            if decide (k' = k) then Some (int_text (n + 1), match s_GET r now k with Some _ => s_entry r k ≫= snd | None => None end)
            else s_entry r k'
        else s_INCR r now k = (r, None)
    | None => s_INCR r now k = (r, None)
    end;
  s_expire_spec r now k ttl : 0 < ttl -> Z.rem ttl 1000000000 = 0 ->
    (s_EXPIRE r now k ttl).2 = bool_decide (is_Some (s_GET r now k)) /\
    forall k', s_entry (s_EXPIRE r now k ttl).1 k' =
      if decide (k' = k) then (fun v => (v, Some (now + ttl))) <$> s_GET r now k else s_entry r k';
  s_keys_spec r now pattern : NoDup (s_KEYS r now pattern) /\
    forall k, k ∈ s_KEYS r now pattern <-> s_match pattern k = true /\ is_Some (s_GET r now k)
}.

(** ** Values *)

(** The values that are stored: [json.Marshal] and [json.Unmarshal] of their type,
    what they print as, and those that are strings or bytes. *)
Class CacheValue (V : Type) := {
  v_Marshal : V -> option string;
  v_Unmarshal : string -> option V;
  v_text : V -> option string;
  v_Sprint : V -> string;
  v_image : V -> V;
  v_roundtrip v s : v_Marshal v = Some s -> v_Unmarshal s = Some (v_image v)
}.

(** ** The cache *)

Record CacheConfig := MkCacheConfig {
  DefaultTTL : Z;
  Compress : bool;
  CompressMinSize : Z;
  EnableJSON : bool;
  StatsCollectionInterval : Z
}.

Definition DefaultCacheConfig : CacheConfig := {|
  DefaultTTL := 3600000000000; Compress := false; CompressMinSize := 1024; EnableJSON := true;
  StatsCollectionInterval := 300000000000 |}.

(** The counters that are written. *)
Record CacheStats := MkStats { Hits : Z; Misses : Z; Errors : Z }.

Definition hit (s : CacheStats) : CacheStats := MkStats (Hits s + 1) (Misses s) (Errors s).
Definition miss (s : CacheStats) : CacheStats := MkStats (Hits s) (Misses s + 1) (Errors s).
Definition failed (s : CacheStats) : CacheStats := MkStats (Hits s) (Misses s) (Errors s + 1).

Inductive CacheError :=
  | ErrPoolMissing
  | ErrPing
  | ErrMiss (key : string)
  | ErrRedis
  | ErrDecode
  | ErrEncode
  | ErrTarget
  | ErrNoKey (key : string).

Record RedisCache := MkCache { config : CacheConfig; stats : CacheStats }.

Definition set_stats (c : RedisCache) (s : CacheStats) : RedisCache := MkCache (config c) s.

(** [NewCache]: [pool] tells that there is a pool, [ping] that Redis answers. *)
Definition NewCache (pool : bool) (cfg : option CacheConfig) (ping : bool) : outcome CacheError RedisCache :=
  if negb pool then Fail ErrPoolMissing
  else if ping then Ret (MkCache (default DefaultCacheConfig cfg) (MkStats 0 0 0)) else Fail ErrPing.

(** The destination of [Get]: nil, a pointer to a string, or one to a value of
    [V].  In JSON mode a string is decoded as well. *)
Inductive dest := DNil | DString | DValue.

Inductive got (V : Type) := GotString (s : string) | GotValue (v : V).
Arguments GotString {V}. Arguments GotValue {V}.

Section cache.
Context {R V : Type} `{RedisStore R} `{CacheValue V}.

(** [json.Unmarshal] into the destination. *)
Definition decode_into (d : dest) (val : string) : option (got V) :=
  match d with
  | DNil => None
  | DString => (fun b => GotString (bytes_str b)) <$> unmarshal_string (str_bytes val)
  | DValue => GotValue <$> v_Unmarshal val
  end.

Definition Get (net : delivery) (r : R) (now : Z) (c : RedisCache) (key : string) (d : dest) :
    RedisCache * outcome CacheError (got V) :=
  match (send net r (r, s_GET r now key)).2 with
  | None => (set_stats c (failed (stats c)), Fail ErrRedis)
  | Some None => (set_stats c (miss (stats c)), Fail (ErrMiss key))
  | Some (Some val) =>
      let c := set_stats c (hit (stats c)) in
      if EnableJSON (config c) && negb (match d with DNil => true | _ => false end) then
        match decode_into d val with
        | Some x => (c, Ret x)
        | None => (set_stats c (failed (stats c)), Fail ErrDecode)
        end
      else match d with
           | DString => (c, Ret (GotString val))
           | _ => (c, Fail ErrTarget)
           end
  end.

(** The text that is stored for a value. *)
Definition encode (c : RedisCache) (value : V) : option string :=
  if EnableJSON (config c) then v_Marshal value
  else Some (match v_text value with Some s => s | None => v_Sprint value end).

Definition Set_ (net : delivery) (r : R) (now : Z) (c : RedisCache) (key : string) (value : V) (ttl : Z) :
    R * RedisCache * outcome CacheError unit :=
  let ttl := if decide (ttl = 0) then DefaultTTL (config c) else ttl in
  match encode c value with
  | None => (r, set_stats c (failed (stats c)), Fail ErrEncode)
  | Some val =>
      match send net r (s_SET r now key val ttl, tt) with
      | (r, None) => (r, set_stats c (failed (stats c)), Fail ErrRedis)
      | (r, Some _) => (r, c, Ret tt)
      end
  end.

Definition Delete (net : delivery) (r : R) (now : Z) (c : RedisCache) (key : string) :
    R * RedisCache * outcome CacheError unit :=
  match send net r (s_DEL r now key) with
  | (r, None) => (r, set_stats c (failed (stats c)), Fail ErrRedis)
  | (r, Some result) => if result =? 0 then (r, c, Fail (ErrNoKey key)) else (r, c, Ret tt)
  end.

Definition Exists_ (net : delivery) (r : R) (now : Z) (c : RedisCache) (key : string) : RedisCache * outcome CacheError bool :=
  match (send net r (r, s_EXISTS r now key)).2 with
  | None => (set_stats c (failed (stats c)), Fail ErrRedis)
  | Some result => (c, Ret (0 <? result))
  end.

(** The loop that counts the answers of [MGet]. *)
Fixpoint count_answers (s : CacheStats) (vals : list (option string)) : CacheStats :=
  match vals with
  | [] => s
  | None :: rest => count_answers (miss s) rest
  | Some _ :: rest => count_answers (hit s) rest
  end.

Definition MGet (net : delivery) (r : R) (now : Z) (c : RedisCache) (keys : list string) :
    RedisCache * outcome CacheError (list (option string)) :=
  if decide (length keys = 0%nat) then (c, Ret [])
  else
    match (send net r (r, s_MGET r now keys)).2 with
    | None => (set_stats c (failed (stats c)), Fail ErrRedis)
    | Some vals => (set_stats c (count_answers (stats c) vals), Ret vals)
    end.

(** The pairs of [MSet], in the order of the range. *)
Fixpoint encode_pairs (c : RedisCache) (items : list (string * V)) : option (list (string * string)) :=
  match items with
  | [] => Some []
  | (k, v) :: rest => val ← encode c v; pairs ← encode_pairs c rest; Some ((k, val) :: pairs)
  end.

Definition MSet (net : delivery) (r : R) (now : Z) (c : RedisCache) (items : list (string * V)) :
    R * RedisCache * outcome CacheError unit :=
  if decide (length items = 0%nat) then (r, c, Ret tt)
  else
    match encode_pairs c items with
    | None => (r, set_stats c (failed (stats c)), Fail ErrEncode)
    | Some pairs =>
        match send net r (s_MSET r now pairs, tt) with
        | (r, None) => (r, set_stats c (failed (stats c)), Fail ErrRedis)
        | (r, Some _) => (r, c, Ret tt)
        end
    end.

Definition Incr (net : delivery) (r : R) (now : Z) (c : RedisCache) (key : string) : R * RedisCache * outcome CacheError Z :=
  match send net r (s_INCR r now key) with
  | (r, Some (Some val)) => (r, c, Ret val)
  | (r, _) => (r, set_stats c (failed (stats c)), Fail ErrRedis)
  end.

Definition Expire (net : delivery) (r : R) (now : Z) (c : RedisCache) (key : string) (ttl : Z) :
    R * RedisCache * outcome CacheError unit :=
  match send net r (s_EXPIRE r now key ttl) with
  | (r, None) => (r, set_stats c (failed (stats c)), Fail ErrRedis)
  | (r, Some success) => if negb success then (r, c, Fail (ErrNoKey key)) else (r, c, Ret tt)
  end.

Definition Keys (net : delivery) (r : R) (now : Z) (c : RedisCache) (pattern : string) :
    RedisCache * outcome CacheError (list string) :=
  match (send net r (r, s_KEYS r now pattern)).2 with
  | None => (set_stats c (failed (stats c)), Fail ErrRedis)
  | Some keys => (c, Ret keys)
  end.

Definition Stats (c : RedisCache) : CacheStats := stats c.
End cache.

(** ** The cache as a map with deadlines *)

Section refinement.
Context {R V : Type} `{HR : RedisStore R} `{HV : CacheValue V}.
Implicit Types (r : R) (c : RedisCache) (v : V).

(** The abstract cache holds values, and the numbers that [Incr] stored. *)
Inductive cell := CVal (v : V) | CNum (n : Z).

Abbreviation store := (gmap string (cell * option Z)).

Definition alive (a : store) (now : Z) (k : string) : option cell :=
  match a !! k with
  | Some (x, None) => Some x
  | Some (x, Some d) => if now <? d then Some x else None
  | None => None
  end.

(** The text of a cell, and the number it counts as. *)
Definition cell_text (x : cell) : option string :=
  match x with CVal v => v_Marshal v | CNum n => Some (int_text n) end.

Definition cell_number (x : cell) : option Z :=
  match x with CVal v => v_Marshal v ≫= s_int | CNum n => Some n end.

(** A cell as a value: what [json] makes of a value it wrote, or of a number. *)
Definition cell_value (x : cell) : option V :=
  match x with CVal v => Some (v_image v) | CNum n => v_Unmarshal (int_text n) end.

Inductive cache_op :=
  | OpSet (key : string) (value : V) (ttl : Z)
  | OpGet (key : string) (d : dest)
  | OpDelete (key : string)
  | OpExists (key : string)
  | OpMGet (keys : list string)
  | OpMSet (items : list (string * V))
  | OpIncr (key : string)
  | OpExpire (key : string) (ttl : Z)
  | OpKeys (pattern : string)
  | OpStats.

Inductive answer :=
  | ADone (o : outcome CacheError unit)
  | AGot (o : outcome CacheError (got V))
  | AExists (o : outcome CacheError bool)
  | AMany (o : outcome CacheError (list (option string)))
  | ANum (o : outcome CacheError Z)
  | AKeys (o : outcome CacheError (list string))
  | AStats (s : CacheStats).

(** Two answers are the same up to the order of keys. *)
Definition same_answer (x y : answer) : Prop :=
  match x, y with
  | AKeys (Ret l), AKeys (Ret l') => l ≡ₚ l'
  | _, _ => x = y
  end.

Definition cache_step r c (now : Z) (op : cache_op) : R * RedisCache * answer :=
  match op with
  | OpSet k v ttl => let '(r, c, o) := Set_ Delivered r now c k v ttl in (r, c, ADone o)
  | OpGet k d => let '(c, o) := Get Delivered r now c k d in (r, c, AGot o)
  | OpDelete k => let '(r, c, o) := Delete Delivered r now c k in (r, c, ADone o)
  | OpExists k => let '(c, o) := Exists_ Delivered r now c k in (r, c, AExists o)
  | OpMGet ks => let '(c, o) := MGet Delivered r now c ks in (r, c, AMany o)
  | OpMSet l => let '(r, c, o) := MSet Delivered r now c l in (r, c, ADone o)
  | OpIncr k => let '(r, c, o) := Incr Delivered r now c k in (r, c, ANum o)
  | OpExpire k ttl => let '(r, c, o) := Expire Delivered r now c k ttl in (r, c, ADone o)
  | OpKeys p => let '(c, o) := Keys Delivered r now c p in (r, c, AKeys o)
  | OpStats => (r, c, AStats (Stats c))
  end.

(** The values of [MSet], when all of them can be encoded. *)
Definition encodable_items (l : list (string * V)) : Prop := Forall (fun x => is_Some (v_Marshal x.2)) l.

#[global] Instance encodable_items_dec l : Decision (encodable_items l).
Proof. unfold encodable_items. apply _. Defined.

(** What the counters make of an answer. *)
Definition counted (s : CacheStats) (x : answer) : CacheStats :=
  match x with
  | AGot (Ret _) | AGot (Fail ErrTarget) => hit s
  | AGot (Fail (ErrMiss _)) => miss s
  | AGot (Fail ErrDecode) => failed (hit s)
  | AMany (Ret vals) => foldl (fun s (o : option string) => match o with Some _ => hit s | None => miss s end) s vals
  | ADone (Fail ErrEncode) | ANum (Fail ErrRedis) => failed s
  | _ => s
  end.

Definition spec_get (a : store) (now : Z) (k : string) (d : dest) : outcome CacheError (got V) :=
  match alive a now k, d with
  | None, _ => Fail (ErrMiss k)
  | Some _, DNil => Fail ErrTarget
  | Some x, DValue => match cell_value x with Some v => Ret (GotValue v) | None => Fail ErrDecode end
  | Some x, DString =>
      match cell_text x ≫= (fun t => unmarshal_string (str_bytes t)) with
      | Some b => Ret (GotString (bytes_str b))
      | None => Fail ErrDecode
      end
  end.

Definition spec_step (cfg : CacheConfig) (a : store) (s : CacheStats) (now : Z) (op : cache_op) : store * answer :=
  match op with
  | OpSet k v ttl =>
      match v_Marshal v with
      | None => (a, ADone (Fail ErrEncode))
      | Some _ =>
          let ttl := if decide (ttl = 0) then DefaultTTL cfg else ttl in
          (<[k := (CVal v, if decide (ttl = 0) then None else Some (now + ttl))]> a, ADone (Ret tt))
      end
  | OpGet k d => (a, AGot (spec_get a now k d))
  | OpDelete k => (delete k a, ADone (match alive a now k with Some _ => Ret tt | None => Fail (ErrNoKey k) end))
  | OpExists k => (a, AExists (Ret (bool_decide (is_Some (alive a now k)))))
  | OpMGet ks => (a, AMany (Ret ((fun k => alive a now k ≫= cell_text) <$> ks)))
  | OpMSet l =>
      if decide (encodable_items l) then
        (((fun v => (CVal v, None)) <$> (list_to_map l : gmap string V)) ∪ a, ADone (Ret tt))
      else (a, ADone (Fail ErrEncode))
  | OpIncr k =>
      match default (Some 0) (cell_number <$> alive a now k) with
      | Some n =>
          if decide (n + 1 < 2 ^ 63) then
            (<[k := (CNum (n + 1), match alive a now k with Some _ => a !! k ≫= snd | None => None end)]> a, ANum (Ret (n + 1)))
          else (a, ANum (Fail ErrRedis))
      | None => (a, ANum (Fail ErrRedis))
      end
  | OpExpire k ttl =>
      match alive a now k with
      | Some x => (<[k := (x, Some (now + ttl))]> a, ADone (Ret tt))
      | None => (delete k a, ADone (Fail (ErrNoKey k)))
      end
  | OpKeys p => (a, AKeys (Ret (filter (fun k => s_match p k = true /\ is_Some (alive a now k)) (map_to_list a).*1)))
  | OpStats => (a, AStats s)
  end.

(** What Redis documents: times to live in whole milliseconds, for [EXPIRE] in whole
    seconds, and not negative; and a Go map of items. *)
Definition ttl_ok (ttl : Z) : Prop := 0 <= ttl /\ Z.rem ttl 1000000 = 0.

Definition op_ok (op : cache_op) : Prop :=
  match op with
  | OpSet _ _ ttl => ttl_ok ttl
  | OpMSet l => NoDup l.*1
  | OpExpire _ ttl => 0 < ttl /\ Z.rem ttl 1000000000 = 0
  | _ => True
  end.

(** The texts in Redis are those of the values and numbers. *)
Definition holds_text (x : cell) (s : string) : Prop :=
  cell_text x = Some s /\ match x with CNum n => - 2 ^ 63 <= n < 2 ^ 63 | CVal _ => True end.

Definition stores r (a : store) : Prop :=
  forall k, match s_entry r k, a !! k with
            | Some (s, d), Some (x, d') => d = d' /\ holds_text x s
            | None, None => True
            | _, _ => False
            end.

(** What [GET] gives, and what is alive. *)
Lemma stores_live r a now k : stores r a ->
  match s_GET r now k, alive a now k with
  | Some s, Some x => holds_text x s /\ s_entry r k ≫= snd = a !! k ≫= snd
  | None, None => True
  | _, _ => False
  end.
Proof.
  intros Hs. rewrite s_get_spec. unfold live, alive. specialize (Hs k).
  destruct (s_entry r k) as [[s d]|], (a !! k) as [[v d']|]; [|done..]. destruct Hs as [<- Hv].
  destruct d as [d|]; [|done]. by destruct (now <? d).
Qed.

Lemma holds_number x s : holds_text x s -> s_int s = cell_number x.
Proof. destruct x as [v|n]; intros [Ht Hn]; cbn in *; [by rewrite Ht|]. injection Ht as <-. by apply s_int_text. Qed.

Lemma holds_value x s : holds_text x s -> v_Unmarshal s = cell_value x.
Proof. destruct x as [v|n]; intros [Ht Hn]; cbn in *; [by apply v_roundtrip|]. by injection Ht as <-. Qed.

(** A key that is set, or taken away. *)
Lemma stores_insert r r' a k s x d :
  stores r a -> (forall k', s_entry r' k' = if decide (k' = k) then Some (s, d) else s_entry r k') -> holds_text x s ->
  stores r' (<[k := (x, d)]> a).
Proof.
  intros Hs E Hx k'. rewrite E, lookup_insert. destruct (decide (k' = k)) as [-> |Hk]; [by rewrite decide_True|].
  rewrite (decide_False (P := k = k')) by congruence. apply Hs.
Qed.

Lemma stores_delete r r' a k :
  stores r a -> (forall k', s_entry r' k' = if decide (k' = k) then None else s_entry r k') -> stores r' (delete k a).
Proof.
  intros Hs E k'. rewrite E, lookup_delete. destruct (decide (k' = k)) as [-> |Hk]; [by rewrite decide_True|].
  rewrite (decide_False (P := k = k')) by congruence. apply Hs.
Qed.

Lemma encode_pairs_spec c l : EnableJSON (config c) = true ->
  if decide (encodable_items l)
  then exists ps, encode_pairs c l = Some ps /\ ps.*1 = l.*1 /\ Forall2 (fun x y => v_Marshal x.2 = Some y.2) l ps
  else encode_pairs c l = None.
Proof.
  intros Hj. induction l as [|[k v] l IH]; cbn [encode_pairs].
  { rewrite decide_True by apply Forall_nil_2. by exists []. }
  unfold encode at 1 2. rewrite Hj. unfold encodable_items in *. destruct (v_Marshal v) as [s|] eqn:Ev.
  - cbn [mbind option_bind]. destruct (decide (Forall _ l)) as [Hl|Hl].
    + rewrite decide_True by (apply Forall_cons; split; [by eexists|done]). destruct IH as (ps & -> & E & Hf).
      cbn [mbind option_bind]. exists ((k, s) :: ps). split; [done|]. split; [by rewrite !fmap_cons, E|by constructor].
    + rewrite decide_False by (intros [_ ?]%Forall_cons; done). by rewrite IH.
  - rewrite decide_False by (intros [[? ?] _]%Forall_cons; simpl in *; congruence). done.
Qed.

Lemma pairs_lookup (l : list (string * V)) ps k :
  ps.*1 = l.*1 -> Forall2 (fun x y => v_Marshal x.2 = Some y.2) l ps ->
  match (list_to_map ps : gmap string string) !! k, (list_to_map l : gmap string V) !! k with
  | Some s, Some v => v_Marshal v = Some s
  | None, None => True
  | _, _ => False
  end.
Proof.
  intros E Hf. induction Hf as [|[k1 v1] [k2 s2] l ps Hx Hf IH]; [by rewrite !list_to_map_nil, !lookup_empty|].
  rewrite !fmap_cons in E. injection E as -> E. rewrite !list_to_map_cons. cbn [fst snd] in *.
  destruct (decide (k1 = k)) as [-> |Hk]; [by rewrite !lookup_insert_eq|]. rewrite !lookup_insert_ne by done. by apply IH.
Qed.

(** What an operation of the cache and one of the map are to have in common. *)
Definition refines c (x : R * RedisCache * answer) (y : store * answer) : Prop :=
  stores x.1.1 y.1 /\ config x.1.2 = config c /\ same_answer x.2 y.2 /\ stats x.1.2 = counted (stats c) x.2.

Section step.
Variables (r : R) (c : RedisCache) (a : store) (now : Z).
Hypotheses (Hs : stores r a) (Hj : EnableJSON (config c) = true) (Hd : ttl_ok (DefaultTTL (config c))).

Lemma refines_set k v ttl : ttl_ok ttl -> refines c (cache_step r c now (OpSet k v ttl)) (spec_step (config c) a (stats c) now (OpSet k v ttl)).
Proof.
  intros Httl. cbn [cache_step spec_step]. unfold Set_, encode. rewrite Hj. destruct (v_Marshal v) as [s|] eqn:Ev; [|by split_and!]. cbn [send fst snd].
  set (t := if decide (ttl = 0) then _ else _). assert (ttl_ok t) as [Ht1 Ht2] by (subst t; by case_decide).
  split_and!; [|done..]. eapply stores_insert; [exact Hs|by apply s_set_spec|done].
Qed.

Lemma refines_get k d : refines c (cache_step r c now (OpGet k d)) (spec_step (config c) a (stats c) now (OpGet k d)).
Proof.
  cbn [cache_step spec_step]. unfold Get, spec_get. cbn [send fst snd]. pose proof (stores_live r a now k Hs) as Hl.
  destruct (s_GET r now k) as [s|], (alive a now k) as [x|]; [|done..|by split_and!]. destruct Hl as [Hx _]. cbn [set_stats config]. rewrite Hj.
  destruct d; cbn [andb negb decode_into]; [by split_and!| |].
  - pose proof Hx as [Ht _]. rewrite Ht. cbn [mbind option_bind]. destruct (unmarshal_string _); by split_and!.
  - rewrite (holds_value x s Hx). destruct (cell_value x); by split_and!.
Qed.

Lemma refines_delete k : refines c (cache_step r c now (OpDelete k)) (spec_step (config c) a (stats c) now (OpDelete k)).
Proof.
  cbn [cache_step spec_step]. unfold Delete. destruct (s_del_spec r now k) as [E1 E2]. destruct (s_DEL r now k) as [r' n]. cbn [send fst snd] in *.
  pose proof (stores_live r a now k Hs) as Hl. pose proof (stores_delete r r' a k Hs E2) as Hs'.
  destruct (s_GET r now k), (alive a now k); try done; subst n; by split_and!.
Qed.

Lemma refines_exists k : refines c (cache_step r c now (OpExists k)) (spec_step (config c) a (stats c) now (OpExists k)).
Proof.
  cbn [cache_step spec_step]. unfold Exists_. cbn [send fst snd]. rewrite s_exists_spec. pose proof (stores_live r a now k Hs) as Hl.
  destruct (s_GET r now k), (alive a now k); by split_and!.
Qed.

Lemma count_answers_foldl s vals : count_answers s vals = foldl (fun s (o : option string) => match o with Some _ => hit s | None => miss s end) s vals.
Proof. revert s. induction vals as [|[v|] vals IH]; intros s; cbn; [done|apply IH..]. Qed.

Lemma refines_mget ks : refines c (cache_step r c now (OpMGet ks)) (spec_step (config c) a (stats c) now (OpMGet ks)).
Proof.
  cbn [cache_step spec_step]. unfold MGet. case_decide as Hl; [apply nil_length_inv in Hl as ->; by split_and!|]. cbn [send fst snd].
  split_and!; [done|done| |apply count_answers_foldl]. cbn [snd same_answer]. do 2 f_equal. rewrite s_mget_spec. apply list_fmap_ext. intros i k _.
  pose proof (stores_live r a now k Hs) as Hk. destruct (s_GET r now k), (alive a now k); try done. destruct Hk as [[Hk _] _]. by rewrite <- Hk.
Qed.

Lemma refines_mset l : NoDup l.*1 -> refines c (cache_step r c now (OpMSet l)) (spec_step (config c) a (stats c) now (OpMSet l)).
Proof.
  intros Hnd. cbn [cache_step spec_step]. unfold MSet. pose proof (encode_pairs_spec c l Hj) as He. destruct (decide (length l = 0%nat)) as [Hl|Hl].
  { apply nil_length_inv in Hl as ->. rewrite decide_True by apply Forall_nil_2. split_and!; [|done..].
    by rewrite list_to_map_nil, fmap_empty, map_empty_union. }
  destruct (decide (encodable_items l)) as [Hen|Hen]; [|rewrite He; by split_and!]. destruct He as (ps & -> & E & Hf).
  cbn [send fst snd]. split_and!; [|done..]. intros k. cbn [fst]. rewrite s_mset_spec by (by rewrite E).
  rewrite lookup_union, lookup_fmap. pose proof (pairs_lookup l ps k E Hf) as Hk.
  destruct (list_to_map ps !! k), (list_to_map l !! k); [by destruct (a !! k)|done..|]. cbn [fmap option_fmap option_map].
  rewrite (left_id_L None _). apply Hs.
Qed.

Lemma refines_incr k : refines c (cache_step r c now (OpIncr k)) (spec_step (config c) a (stats c) now (OpIncr k)).
Proof.
  cbn [cache_step spec_step]. unfold Incr. pose proof (stores_live r a now k Hs) as Hl. pose proof (s_incr_spec r now k) as Hi.
  assert (default (Some 0) (s_int <$> s_GET r now k) = default (Some 0) (cell_number <$> alive a now k)) as En.
  { destruct (s_GET r now k), (alive a now k); try done. destruct Hl as [Hx _]. cbn. by apply holds_number. }
  rewrite <- En. destruct (default (Some 0) _) as [n|] eqn:Ed; [|rewrite Hi; by split_and!].
  destruct (decide (n + 1 < 2 ^ 63)) as [Hn|]; [|rewrite Hi; by split_and!]. destruct Hi as [E1 E2].
  destruct (s_INCR r now k) as [r' o]. cbn [send fst snd] in *. subst o. split_and!; [|done..]. cbn [fst].
  assert (- 2 ^ 63 <= n) as Hlow.
  { destruct (s_GET r now k); cbn in Ed; [by apply s_int_range in Ed as [? _]|injection Ed as <-; lia]. }
  apply (stores_insert r r' a k (int_text (n + 1))); [done| |split; [done|lia]]. intros k'. rewrite E2. case_decide; [|done].
  destruct (s_GET r now k), (alive a now k); try done. by destruct Hl as [_ ->].
Qed.

Lemma refines_expire k ttl : 0 < ttl -> Z.rem ttl 1000000000 = 0 ->
  refines c (cache_step r c now (OpExpire k ttl)) (spec_step (config c) a (stats c) now (OpExpire k ttl)).
Proof.
  intros H1 H2. cbn [cache_step spec_step]. unfold Expire. pose proof (stores_live r a now k Hs) as Hl. destruct (s_expire_spec r now k ttl H1 H2) as [E1 E2].
  destruct (s_EXPIRE r now k ttl) as [r' b]. cbn [send fst snd] in *. subst b.
  destruct (s_GET r now k) as [s|], (alive a now k) as [x|]; try done; cbn in *; (split_and!; [|done..]); cbn [fst].
  - eapply stores_insert; [done|exact E2|apply Hl].
  - by eapply stores_delete.
Qed.

Lemma refines_keys p : refines c (cache_step r c now (OpKeys p)) (spec_step (config c) a (stats c) now (OpKeys p)).
Proof.
  cbn [cache_step spec_step]. unfold Keys. cbn [send fst snd]. split_and!; [done|done| |done]. cbn [snd same_answer].
  destruct (s_keys_spec r now p) as [Hnd Hk]. apply NoDup_Permutation; [done|apply NoDup_filter, NoDup_fst_map_to_list|].
  intros k. rewrite Hk, list_elem_of_filter. pose proof (stores_live r a now k Hs) as Hl.
  assert (is_Some (s_GET r now k) <-> is_Some (alive a now k)) as Ha by (destruct (s_GET r now k), (alive a now k); done).
  rewrite Ha. split; [|tauto]. intros [Hm Hx]. split_and!; [done..|]. unfold alive in Hx.
  destruct (a !! k) as [[x d]|] eqn:E; [|by destruct Hx]. apply list_elem_of_fmap. exists (k, (x, d)). split; [done|]. by apply elem_of_map_to_list.
Qed.
End step.

Lemma stores_step r c a now op :
  stores r a -> EnableJSON (config c) = true -> ttl_ok (DefaultTTL (config c)) -> op_ok op ->
  refines c (cache_step r c now op) (spec_step (config c) a (stats c) now op).
Proof.
  intros Hs Hj Hd Hop. destruct op.
  - by apply refines_set.
  - by apply refines_get.
  - by apply refines_delete.
  - by apply refines_exists.
  - by apply refines_mget.
  - by apply refines_mset.
  - by apply refines_incr.
  - apply refines_expire; [done|apply Hop..].
  - by apply refines_keys.
  - by split_and!.
Qed.

Fixpoint cache_run r c (ops : list (Z * cache_op)) : R * RedisCache * list answer :=
  match ops with
  | [] => (r, c, [])
  | (now, op) :: rest =>
      let '(r, c, o) := cache_step r c now op in
      let '(r, c, os) := cache_run r c rest in (r, c, o :: os)
  end.

(** The counters are those of the answers so far. *)
Fixpoint spec_run (cfg : CacheConfig) (a : store) (s : CacheStats) (ops : list (Z * cache_op)) : list answer :=
  match ops with
  | [] => []
  | (now, op) :: rest => let '(a, o) := spec_step cfg a s now op in o :: spec_run cfg a (counted s o) rest
  end.

Lemma same_counted s x y : same_answer x y -> counted s x = counted s y.
Proof. destruct x as [| | | | |[]|], y as [| | | | |[]|]; intros E; cbn [same_answer] in E; first [done | by rewrite E]. Qed.

End refinement.
Arguments cell : clear implicits.
Arguments cache_op : clear implicits.
Arguments answer : clear implicits.

(** ** Lost replies *)

(** A write whose reply is lost is reported as an error and counted as one, and is
    in the cache: it is read back until it expires. *)
Theorem rc_lost_reply {R V} `{RedisStore R} `{CacheValue V} (r r' : R) now c c' key (v : V) ttl o s
    (Hset : Set_ LostReply r now c key v ttl = (r', c', o))
    (Hjson : EnableJSON (config c) = true) (Httl : ttl_ok ttl) (Hpos : 0 < ttl) (Henc : v_Marshal v = Some s) :
  o = Fail ErrRedis /\ Errors (stats c') = Errors (stats c) + 1 /\
  forall later, now <= later -> (Get Delivered r' later c' key DValue).2 =
    if later <? now + ttl then Ret (GotValue (v_image v)) else Fail (ErrMiss key).
Proof.
  destruct Httl as [Ht1 Ht2]. unfold Set_, encode in Hset. rewrite decide_False in Hset by lia. rewrite Hjson, Henc in Hset.
  cbn [send fst snd] in Hset. injection Hset as <- <- <-. split_and!; [done..|]. intros later Hl.
  unfold Get. cbn [send fst snd]. rewrite s_get_spec. unfold live. rewrite s_set_spec by done. rewrite decide_True by done.
  rewrite decide_False by lia. destruct (later <? now + ttl); [|done]. cbn [set_stats config]. rewrite Hjson.
  cbn [andb negb decode_into]. by rewrite (v_roundtrip v s Henc).
Qed.

(** ** The cache of the synchronization *)

(** The cache as a process sees it: the server, the counters, the time, and what
    the network does with each command. *)
Record redis_client (R : Type) := MkClient {
  rc_redis : R;
  rc_stats : CacheStats;
  rc_now : Z;
  rc_net : nat -> delivery;
  rc_sent : nat
}.
Arguments MkClient {R}. Arguments rc_redis {R}. Arguments rc_stats {R}. Arguments rc_now {R}. Arguments rc_net {R}. Arguments rc_sent {R}.

Section sync.
Context {R V : Type} `{HR : RedisStore R} `{HV : CacheValue V} (cfg : CacheConfig) (CacheTTL : Z).
Implicit Types (c : redis_client R).

Definition as_cache c : RedisCache := MkCache cfg (rc_stats c).

(** After a command. *)
Definition after c (r : R) (cache : RedisCache) : redis_client R :=
  MkClient r (stats cache) (rc_now c) (rc_net c) (S (rc_sent c)).

Definition client_Get c (key : string) : redis_client R * option V :=
  let '(cache, o) := Get (rc_net c (rc_sent c)) (rc_redis c) (rc_now c) (as_cache c) key DValue in
  (after c (rc_redis c) cache, match o with Ret (GotValue v) => Some v | _ => None end).

Definition client_Set c (key : string) (v : V) : redis_client R * bool :=
  let '(r, cache, o) := Set_ (rc_net c (rc_sent c)) (rc_redis c) (rc_now c) (as_cache c) key v CacheTTL in
  (after c r cache, match o with Ret _ => true | _ => false end).

Definition client_Delete c (key : string) : redis_client R * bool :=
  let '(r, cache, o) := Delete (rc_net c (rc_sent c)) (rc_redis c) (rc_now c) (as_cache c) key in
  (after c r cache, match o with Ret _ => true | _ => false end).

(** [GetMulti] decodes the texts, and takes one that it cannot decode for a miss. *)
Definition client_MGet c (keys : list string) : redis_client R * option (list (option V)) :=
  let '(cache, o) := MGet (rc_net c (rc_sent c)) (rc_redis c) (rc_now c) (as_cache c) keys in
  (after c (rc_redis c) cache, match o with Ret vals => Some ((fun x => x ≫= v_Unmarshal) <$> vals) | _ => None end).

Definition client_MSet c (items : list (string * V)) : redis_client R * bool :=
  let '(r, cache, o) := MSet (rc_net c (rc_sent c)) (rc_redis c) (rc_now c) (as_cache c) items in
  (after c r cache, match o with Ret _ => true | _ => false end).

Definition client_cached c (key : string) : option V := s_GET (rc_redis c) (rc_now c) key ≫= v_Unmarshal.

Lemma entry_cached c c' k : s_entry (rc_redis c') k = s_entry (rc_redis c) k -> rc_now c' = rc_now c -> client_cached c' k = client_cached c k.
Proof. intros E Et. unfold client_cached. rewrite !s_get_spec, Et. unfold live. by rewrite E. Qed.

Lemma send_cases {A} net (r : R) (reply : R * A) : (send net r reply).1 = r \/ (send net r reply).1 = reply.1.
Proof. destruct net; auto. Qed.

Lemma client_get_law c k :
  (forall k', client_cached (client_Get c k).1 k' = client_cached c k') /\
  forall e, (client_Get c k).2 = Some e -> client_cached c k = Some e.
Proof.
  unfold client_Get. destruct (Get _ _ _ _ _ _) as [cache o] eqn:Hg. split; [done|]. cbn [snd]. intros e He.
  destruct o as [[|v]| |]; try done. injection He as <-. unfold Get in Hg. unfold client_cached.
  destruct (rc_net c (rc_sent c)); try done. cbn [send snd] in Hg. destruct (s_GET _ _ _) as [val|]; [|done].
  cbn [as_cache set_stats config] in Hg. destruct (EnableJSON cfg); [|done]. cbn [andb negb decode_into] in Hg.
  cbn [mbind option_bind]. destruct (v_Unmarshal val); [|done]. by injection Hg as _ <-.
Qed.

Context (Hjson : EnableJSON cfg = true) (Httl : ttl_ok CacheTTL) (Hpos : 0 < CacheTTL).

Lemma client_set_law c k e :
  (forall k', k' <> k -> client_cached (client_Set c k e).1 k' = client_cached c k') /\
  ((client_Set c k e).2 = true -> client_cached (client_Set c k e).1 k = Some (v_image e)).
Proof.
  destruct Httl as [Ht1 Ht2]. unfold client_Set, Set_, encode. rewrite decide_False by lia. cbn [as_cache config]. rewrite Hjson.
  destruct (v_Marshal e) as [s|] eqn:Es; [|done].
  pose proof (s_set_spec (rc_redis c) (rc_now c) k s CacheTTL Ht1 Ht2) as Hset.
  destruct (rc_net c (rc_sent c)); cbn [send fst snd]; (split; [|done || intros _]).
  - intros k' Hk. apply entry_cached; [|done]. cbn [after rc_redis]. by rewrite Hset, decide_False.
  - unfold client_cached. cbn [after rc_redis rc_now]. rewrite s_get_spec. unfold live. rewrite Hset, decide_True, decide_False by (done || lia).
    replace (rc_now c <? rc_now c + CacheTTL) with true by lia. cbn [mbind option_bind]. by apply v_roundtrip.
  - done.
  - intros k' Hk. apply entry_cached; [|done]. cbn [after rc_redis]. by rewrite Hset, decide_False.
Qed.

Lemma client_delete_law c k :
  (forall k', k' <> k -> client_cached (client_Delete c k).1 k' = client_cached c k') /\
  ((client_Delete c k).2 = true -> client_cached (client_Delete c k).1 k = None).
Proof.
  unfold client_Delete, Delete. destruct (s_del_spec (rc_redis c) (rc_now c) k) as [E1 E2].
  destruct (s_DEL (rc_redis c) (rc_now c) k) as [r n]. cbn [fst snd] in *.
  assert (forall cache, (forall k', k' <> k -> client_cached (after c r cache) k' = client_cached c k') /\ client_cached (after c r cache) k = None) as Hr.
  { intros cache. split.
    - intros k' Hk. apply entry_cached; [|done]. cbn [after rc_redis]. by rewrite E2, decide_False.
    - unfold client_cached. cbn [after rc_redis]. rewrite s_get_spec. unfold live. by rewrite E2, decide_True. }
  destruct (rc_net c (rc_sent c)); cbn [send fst snd].
  - destruct (n =? 0); cbn [fst snd]; split; (apply Hr || done || intros _; apply Hr).
  - done.
  - split; [apply Hr|done].
Qed.

Lemma client_mget_law c ks :
  (forall k', client_cached (client_MGet c ks).1 k' = client_cached c k') /\
  forall l, (client_MGet c ks).2 = Some l -> Forall2 (fun k o => forall e, o = Some e -> client_cached c k = Some e) ks l.
Proof.
  unfold client_MGet, MGet. case_decide as Hks; [apply nil_length_inv in Hks as ->; split; [done|]; intros l [= <-]; constructor|].
  destruct (rc_net c (rc_sent c)); cbn [send snd]; (split; [done|]); [|done..]. intros l [= <-]. rewrite s_mget_spec.
  rewrite <- list_fmap_compose. apply Forall2_fmap_r, Forall_Forall2_diag, Forall_true. intros k e He. exact He.
Qed.

(** The interface of the synchronization. *)
#[local]
Instance client_cache : Cache (redis_client R) V := {|
  cached := client_cached;
  image := v_image;
  cache_Get := client_Get;
  cache_Set := client_Set;
  cache_Delete := client_Delete;
  cache_MGet := client_MGet;
  cache_MSet := client_MSet;
  cache_get_law := client_get_law;
  cache_set_law := client_set_law;
  cache_delete_law := client_delete_law;
  cache_mget_law := client_mget_law
|}.
End sync.

(** Through the Redis cache and the synchronization a read returns the last write:
    after an accepted [Set], at any later time, whether or not the cached copy has
    expired and whatever the network does to the read. *)
Theorem rc_read_your_writes {R value} `{RedisStore R} `{CacheValue (gmap string value)} cfg CacheTTL
    (Hjson : EnableJSON cfg = true) (Httl : ttl_ok CacheTTL) (Hpos : 0 < CacheTTL)
    config e now (c c' : redis_client R) cs cs' t id d opts ss started later net
    (Hset : @CacheSync.Set_ value config e (redis_client R) (client_cache cfg CacheTTL Hjson Httl Hpos) now c cs t id d opts
            = (c', cs', ss, started, Ret tt))
    (Hopts : Immediate (default no_options opts) = false) (Htime : rc_now c' <= later) :
  exists c2 cs2 d', @CacheSync.Get value e (redis_client R) (client_cache cfg CacheTTL Hjson Httl Hpos)
      (MkClient (rc_redis c') (rc_stats c') later net (rc_sent c')) cs' t id = (c2, cs2, Ret d') /\ (d' = d \/ d' = v_image d).
Proof.
  destruct (cs_read_your_writes config e now c c' cs cs' t id d opts ss started Hset Hopts) as [_ Hget].
  apply Hget. cbn [cached client_cache]. unfold client_cached. cbn [rc_redis rc_now]. rewrite !s_get_spec. unfold live.
  destruct (s_entry (rc_redis c') (formatCacheKey t id)) as [[v [dl|]]|]; [|by right|by left].
  destruct (Z.ltb_spec later dl); [right; by replace (rc_now c' <? dl) with true by lia|by left].
Qed.

(** What [MSet] stores does not expire, whatever the configuration says. *)
Theorem rc_mset_never_expires {R V} `{RedisStore R} `{CacheValue V} (r r' : R) now c c' items key (v : V)
    (Hjson : EnableJSON (config c) = true) (Hnd : NoDup items.*1) (Hin : (key, v) ∈ items)
    (Hset : MSet Delivered r now c items = (r', c', Ret tt)) :
  forall later, (Get Delivered r' later c' key DValue).2 = Ret (GotValue (v_image v)).
Proof.
  intros later. unfold MSet in Hset. destruct (decide (length items = 0%nat)) as [Hl|Hl].
  { apply nil_length_inv in Hl as ->. by apply elem_of_nil in Hin. }
  pose proof (encode_pairs_spec c items Hjson) as He. destruct (decide (encodable_items items)); [|by rewrite He in Hset].
  destruct He as (ps & Hps & E & Hf). rewrite Hps in Hset. cbn [send fst snd] in Hset. injection Hset as <- <-.
  pose proof (pairs_lookup items ps key E Hf) as Hk. rewrite (elem_of_list_to_map_1 items key v Hnd Hin) in Hk.
  unfold Get. cbn [send fst snd]. rewrite s_get_spec. unfold live. rewrite s_mset_spec by (by rewrite E).
  destruct (list_to_map ps !! key) as [s|]; [|done]. cbn [set_stats config]. rewrite Hjson. cbn [andb negb decode_into].
  by rewrite (v_roundtrip v s Hk).
Qed.

(** ** A store and codecs *)

Abbreviation store_map := (gmap string (string * option Z)).

Lemma int_text_parse n : - 2 ^ 63 <= n < 2 ^ 63 -> ParseInt 64 (str_bytes (int_text n)) = Some n.
Proof.
  intros Hn. unfold int_text. rewrite str_bytes_str. destruct (Z.ltb_spec n 0) as [Hneg|Hpos].
  - unfold ParseInt. change (byte_val Byte.x2d =? 45) with true. cbv iota. rewrite ParseUint_dec by lia. cbn [mbind option_bind].
    replace (- n <=? 2 ^ (64 - 1)) with true by lia. f_equal. lia.
  - apply ParseInt_dec; lia.
Qed.

Definition map_incr (r : store_map) (now : Z) (k : string) : store_map * option Z :=
  match default (Some 0) ((fun s => ParseInt 64 (str_bytes s)) <$> live (r !!.) now k) with
  | Some n =>
      if decide (n + 1 < 2 ^ 63) then
        (<[k := (int_text (n + 1), match live (r !!.) now k with Some _ => r !! k ≫= snd | None => None end)]> r, Some (n + 1))
      else (r, None)
  | None => (r, None)
  end.

Lemma ParseInt_range l n : ParseInt 64 l = Some n -> - 2 ^ 63 <= n < 2 ^ 63.
Proof.
  assert (forall l v, ParseUint 64 l = Some v -> 0 <= v) as Hpos.
  { intros l' v. unfold ParseUint. destruct (_ || _) eqn:E; [done|]. apply orb_false_iff in E as [_ E]. apply negb_false_iff in E.
    destruct (_ <? _); [|done]. intros [= <-]. clear -E. unfold dec_val.
    assert (forall a, 0 <= a -> 0 <= fold_left (fun a b => 10 * a + (byte_val b - 48)) l' a) as Hf; [|by apply Hf].
    induction l' as [|b l' IH]; intros a Ha; [done|]. cbn [fold_left forallb] in *. apply andb_true_iff in E as [Hb E].
    apply IH; [done|]. unfold is_digit in Hb. apply andb_true_iff in Hb as [Hb _]. lia. }
  unfold ParseInt. destruct l as [|b r]; [done|]. destruct (byte_val b =? 45).
  - destruct (ParseUint 64 r) as [v|] eqn:E; [|done]. cbn [mbind option_bind]. specialize (Hpos _ _ E).
    destruct (Z.leb_spec v (2 ^ (64 - 1))); [|done]. intros [= <-]. lia.
  - destruct (ParseUint 64 (b :: r)) as [v|] eqn:E; [|done]. cbn [mbind option_bind]. specialize (Hpos _ _ E).
    destruct (Z.ltb_spec v (2 ^ (64 - 1))); [|done]. intros [= <-]. lia.
Qed.

(** Patterns with [*] and [?]; those with sets of characters are not needed here. *)
Fixpoint glob (p s : list byte) {struct p} : bool :=
  match p with
  | [] => match s with [] => true | _ => false end
  | Byte.x2a :: p => (fix star (s : list byte) : bool := glob p s || match s with [] => false | _ :: s => star s end) s
  | b :: p => match s with [] => false | x :: s => (bool_decide (b = Byte.x3f) || bool_decide (b = x)) && glob p s end
  end.

#[export, refine]
Instance store_map_ok : RedisStore store_map := {
  s_entry r k := r !! k;
  s_int s := ParseInt 64 (str_bytes s);
  s_match pattern k := glob (str_bytes pattern) (str_bytes k);
  s_GET r now k := live (r !!.) now k;
  s_SET r now k v ttl := <[k := (v, if decide (ttl = 0) then None else Some (now + ttl))]> r;
  s_DEL r now k := (delete k r, match live (r !!.) now k with Some _ => 1 | None => 0 end);
  s_EXISTS r now k := match live (r !!.) now k with Some _ => 1 | None => 0 end;
  s_MGET r now ks := live (r !!.) now <$> ks;
  s_MSET r now l := ((fun v => (v, None)) <$> (list_to_map l : gmap string string)) ∪ r;
  s_INCR := map_incr;
  s_EXPIRE r now k ttl :=
    match live (r !!.) now k with
    | Some v => (<[k := (v, Some (now + ttl))]> r, true)
    | None => (delete k r, false)
    end;
  s_KEYS r now pattern := filter (fun k => glob (str_bytes pattern) (str_bytes k) = true /\ is_Some (live (r !!.) now k)) (map_to_list r).*1
}.
Proof.
  - done.
  - intros r now k v ttl _ _ k'. rewrite lookup_insert. repeat case_decide; congruence.
  - intros r now k. split; [done|]. intros k'. cbn. rewrite lookup_delete. repeat case_decide; congruence.
  - done.
  - done.
  - intros r now l _ k. rewrite lookup_union, lookup_fmap. destruct (list_to_map l !! k); [by destruct (r !! k)|].
    cbn [fmap option_fmap option_map]. by rewrite (left_id_L None _).
  - apply int_text_parse.
  - intros s n. apply ParseInt_range.
  - intros r now k. unfold map_incr. destruct (default _ _) as [n|]; [|done]. destruct (decide (n + 1 < 2 ^ 63)); [|done].
    split; [done|]. intros k'. cbn [fst]. rewrite lookup_insert. destruct (decide (k' = k)) as [-> |]; [by rewrite decide_True|by rewrite decide_False].
  - intros r now k ttl _ _. destruct (live (r !!.) now k) as [v|]; cbn; (split; [done|]); intros k'.
    + rewrite lookup_insert. repeat case_decide; congruence.
    + rewrite lookup_delete. repeat case_decide; congruence.
  - intros r now pattern. split; [apply NoDup_filter, NoDup_fst_map_to_list|]. intros k. rewrite list_elem_of_filter. split; [tauto|].
    intros [Hm Hx]. split_and!; [done..|]. unfold live in Hx. destruct (r !! k) as [x|] eqn:E; [|by destruct Hx].
    apply list_elem_of_fmap. exists (k, x). split; [done|]. by apply elem_of_map_to_list.
Defined.

(** Strings, as [encoding/json] writes and reads them. *)
#[export, refine]
Instance string_value : CacheValue string := {
  v_Marshal s := Some (bytes_str (quoted (str_bytes s)));
  v_Unmarshal t := bytes_str <$> unmarshal_string (str_bytes t);
  v_text s := Some s;
  v_Sprint s := s;
  v_image s := bytes_str (to_valid 0 (str_bytes s))
}.
Proof. intros v s [= <-]. by rewrite str_bytes_str, unmarshal_quoted. Defined.

(** *** Entities with string values *)

Abbreviation entity := (gmap string string).

(** The entries in the order of their keys, as [json.Marshal] writes a map. *)
Definition sorted_entries (m : entity) : list (list byte * string) :=
  fold_left (fun acc x => put_sorted (str_bytes x.1) x.2 acc) (map_to_list m) [].

Definition entry_field (x : list byte * string) : list byte * list byte := (x.1, quoted (str_bytes x.2)).

Definition entity_text (m : entity) : list byte := object_text (entry_field <$> sorted_entries m).

Fixpoint decode_members (acc : entity) (ms : list (list byte * list byte * json)) : option entity :=
  match ms with
  | [] => Some acc
  | (k, _, v) :: rest => s ← decode_text [] v; decode_members (<[bytes_str (unquote 0 k) := bytes_str s]> acc) rest
  end.

Definition decode_entity (data : list byte) : option entity :=
  match parse data with
  | Some (JObj ms) => decode_members ∅ ms
  | Some JNull => Some ∅
  | _ => None
  end.

(** What is left of a string after encoding: its valid UTF-8. *)
Definition valid (s : list byte) : string := bytes_str (to_valid 0 s).

Definition entity_image (m : entity) : entity :=
  fold_left (fun acc x => <[valid x.1 := valid (str_bytes x.2)]> acc) (sorted_entries m) ∅.

Lemma decode_fields acc (l : list (list byte * string)) :
  decode_members acc (members_of (entry_field <$> l) ((fun x => JStr (encode_string 0 (str_bytes x.2))) <$> l)) =
  Some (fold_left (fun acc x => <[valid x.1 := valid (str_bytes x.2)]> acc) l acc).
Proof.
  revert acc. induction l as [|[k v] l IH]; intros acc; [done|]. unfold members_of in *. rewrite !fmap_cons. cbn [zip_with fst snd entry_field decode_members decode_text].
  cbn [mbind option_bind fold_left fst snd]. rewrite !unquote_encode. apply IH.
Qed.

Lemma decode_entity_text m : decode_entity (entity_text m) = Some (entity_image m).
Proof.
  unfold decode_entity, entity_text, entity_image. destruct (sorted_entries m) as [|x l]; [by vm_compute|].
  rewrite (parse_object _ ((fun x => JStr (encode_string 0 (str_bytes x.2))) <$> (x :: l))); [apply decode_fields| |done].
  apply Forall2_fmap_l, Forall2_fmap_r, Forall_Forall2_diag, Forall_true. intros y. apply value_quoted.
Qed.

#[export, refine]
Instance entity_value : CacheValue entity := {
  v_Marshal m := Some (bytes_str (entity_text m));
  v_Unmarshal t := decode_entity (str_bytes t);
  v_text _ := None;
  v_Sprint m := bytes_str (entity_text m);
  v_image := entity_image
}.
Proof. intros v s [= <-]. by rewrite str_bytes_str, decode_entity_text. Defined.

Lemma put_sorted_perm {A} k (x : A) l : k ∉ l.*1 -> put_sorted k x l ≡ₚ (k, x) :: l.
Proof.
  induction l as [|[k' x'] l IH]; [done|]. rewrite fmap_cons. cbn [fst put_sorted]. intros [Hk Hl]%not_elem_of_cons.
  rewrite bool_decide_eq_false_2 by done. destruct (bytes_le k k'); [done|]. rewrite (IH Hl). apply perm_swap.
Qed.

Lemma sorted_entries_perm m : sorted_entries m ≡ₚ (fun x => (str_bytes x.1, x.2)) <$> map_to_list m.
Proof.
  unfold sorted_entries. assert (forall (l : list (string * string)) acc, NoDup (l.*1) -> (forall x, x ∈ l -> str_bytes x.1 ∉ acc.*1) ->
    fold_left (fun acc x => put_sorted (str_bytes x.1) x.2 acc) l acc ≡ₚ ((fun x => (str_bytes x.1, x.2)) <$> l) ++ acc) as Hf.
  { induction l as [|[k v] l IH]; intros acc Hnd Hacc; [done|]. cbn [fold_left]. apply NoDup_cons in Hnd as [Hk Hnd].
    assert (str_bytes k ∉ acc.*1) as Hka by (apply (Hacc (k, v)); by left).
    pose proof (put_sorted_perm (str_bytes k) v acc Hka) as Hp. rewrite IH; [|done|].
    - rewrite Hp, fmap_cons. cbn [fst snd app]. by rewrite Permutation_middle.
    - intros [k' v'] Hx. cbn [fst]. rewrite Hp, fmap_cons. cbn [fst]. apply not_elem_of_cons. split.
      + intros E. apply Hk. assert (k = k') as -> by (rewrite <- (bytes_str_bytes k), <- (bytes_str_bytes k'); by rewrite E).
        apply list_elem_of_fmap. by exists (k', v').
      + apply (Hacc (k', v')). by right. }
  rewrite Hf; [by rewrite app_nil_r|apply NoDup_fst_map_to_list|]. intros x _. by apply not_elem_of_nil.
Qed.

(** An entity whose keys and values are valid UTF-8 comes back from its JSON text
    as it was. *)
Theorem rc_entity_roundtrip (m : entity)
    (Hvalid : map_Forall (fun k v => utf8_valid 0 (str_bytes k) = true /\ utf8_valid 0 (str_bytes v) = true) m) :
  decode_entity (entity_text m) = Some m.
Proof.
  rewrite decode_entity_text. f_equal. unfold entity_image.
  assert (forall (l : list (list byte * string)) acc, (forall x, x ∈ l -> valid x.1 = bytes_str x.1 /\ valid (str_bytes x.2) = x.2) -> NoDup (l.*1) ->
    fold_left (fun acc x => <[valid x.1 := valid (str_bytes x.2)]> acc) l acc =
    (list_to_map ((fun x => (bytes_str x.1, x.2)) <$> l) : entity) ∪ acc) as Hf.
  { induction l as [|[k v] l IH]; intros acc Hv Hnd; [by rewrite fmap_nil, list_to_map_nil, map_empty_union|]. cbn [fold_left fst snd].
    apply NoDup_cons in Hnd as [Hk Hnd]. destruct (Hv (k, v)) as [E1 E2]; [by left|]. cbn [fst snd] in *. rewrite E1, E2.
    rewrite IH by (done || (intros; apply Hv; by right)). rewrite fmap_cons, list_to_map_cons. cbn [fst snd].
    rewrite <- insert_union_l. symmetry. apply insert_union_r. apply not_elem_of_list_to_map. rewrite <- list_fmap_compose.
    intros Hin. apply Hk. apply list_elem_of_fmap in Hin as ([k' v'] & E & Hin). cbn in E. apply list_elem_of_fmap. exists (k', v').
    split; [|done]. cbn. by rewrite <- (str_bytes_str k), E, str_bytes_str. }
  pose proof (sorted_entries_perm m) as Hp. rewrite Hf.
  - rewrite map_union_empty. rewrite (list_to_map_proper _ (map_to_list m)); [apply list_to_map_to_list| |].
    + rewrite <- list_fmap_compose. rewrite Hp. rewrite <- list_fmap_compose.
      apply (NoDup_fmap_2_strong _ _). 2: apply NoDup_map_to_list.
      intros [k1 v1] [k2 v2] H1 H2 E. cbn in E. rewrite !bytes_str_bytes in E. subst k2. f_equal.
      apply elem_of_map_to_list in H1, H2. congruence.
    + rewrite Hp, <- list_fmap_compose. rewrite <- (list_fmap_id (map_to_list m)) at 2. match goal with |- ?a ≡ₚ ?b => cut (a = b); [by intros ->|] end. apply list_fmap_ext. intros i [k v] _. cbn. by rewrite bytes_str_bytes.
  - intros x. rewrite Hp. intros ([k v] & -> & Hkv)%list_elem_of_fmap. apply elem_of_map_to_list in Hkv. destruct (Hvalid k v Hkv).
    cbn [fst snd]. unfold valid. rewrite !to_valid_id by done. by rewrite !bytes_str_bytes.
  - rewrite Hp, <- list_fmap_compose. apply (NoDup_fmap_2_strong _ _). 2: apply NoDup_map_to_list.
    intros [k1 v1] [k2 v2] H1 H2 E. cbn in E. assert (k1 = k2) as -> by (rewrite <- (bytes_str_bytes k1), <- (bytes_str_bytes k2); by rewrite E).
    f_equal. apply elem_of_map_to_list in H1, H2. congruence.
Qed.

(** ** Concrete runs *)

Definition fresh_cache : RedisCache := MkCache DefaultCacheConfig (MkStats 0 0 0).

(** A value written for five seconds, two written by [MSet], a counter that is given a
    deadline, and reads of them all. *)
Definition sample_run : list (Z * cache_op string) :=
  [(0, OpSet "a" "x" 5000000000); (1, OpMSet [("b", "y"); ("c", "z")]%string); (4000000000, OpGet "a" DValue);
   (5000000000, OpGet "a" DValue); (10 ^ 30, OpGet "b" DString); (2, OpMGet ["b"; "d"]%string); (3, OpDelete "b"); (4, OpExists "b");
   (5, OpIncr "n"); (6, OpExpire "n" 1000000000); (7, OpIncr "n"); (8, OpIncr "a"); (9, OpKeys "?"); (2000000000, OpIncr "n");
   (2000000000, OpStats)].


Lemma rc_lost_reply_witness :
  let '(r', c', o) := Set_ LostReply (∅ : store_map) 0 fresh_cache "a" "x"%string 5000000000 in
  o = Fail ErrRedis /\ (Get (V := string) Delivered r' 4000000000 c' "a" DValue).2 = Ret (GotValue "x"%string).
Proof.
  destruct (rc_lost_reply (∅ : store_map) (Set_ LostReply (∅ : store_map) 0 fresh_cache "a" "x"%string 5000000000).1.1 0 fresh_cache
    (Set_ LostReply (∅ : store_map) 0 fresh_cache "a" "x"%string 5000000000).1.2 "a" "x"%string 5000000000 (Fail ErrRedis)
    (bytes_str (quoted (str_bytes "x")))) as (_ & _ & Hget).
  - reflexivity.
  - reflexivity.
  - split; [lia|reflexivity].
  - lia.
  - reflexivity.
  - split; [reflexivity|]. exact (Hget 4000000000 ltac:(lia)).
Defined.

Lemma rc_mset_never_expires_witness :
  let '(r', c', _) := MSet Delivered (∅ : store_map) 0 fresh_cache [("a", "x")]%string in
  (Get (V := string) Delivered r' (10 ^ 40) c' "a" DValue).2 = Ret (GotValue "x"%string).
Proof.
  refine (rc_mset_never_expires (∅ : store_map) _ 0 fresh_cache _ [("a", "x")]%string "a" "x"%string _ _ _ _ (10 ^ 40)).
  - reflexivity.
  - apply (bool_decide_unpack _). vm_compute. exact I.
  - left.
  - reflexivity.
Defined.

Lemma rc_entity_roundtrip_witness :
  decode_entity (entity_text (<["name"%string := "x<y"%string]> {[ "hp"%string := "7"%string ]})) =
  Some (<["name"%string := "x<y"%string]> {[ "hp"%string := "7"%string ]}).
Proof. apply rc_entity_roundtrip. apply (bool_decide_unpack _). vm_compute. exact I. Defined.

Definition sync_ttl : Z := 60000000000.

Lemma sync_ttl_ok : ttl_ok sync_ttl.
Proof. split; [unfold sync_ttl; lia|reflexivity]. Qed.

Definition sample_client : redis_client store_map := MkClient ∅ (MkStats 0 0 0) 0 (fun _ => Delivered) 0.

(** The copy has expired and the network is down: the entity is read all the
    same. *)
Lemma rc_read_your_writes_witness :
  let C := client_cache (R := store_map) (V := entity) DefaultCacheConfig sync_ttl eq_refl sync_ttl_ok eq_refl in
  exists c' cs' ss started,
    @CacheSync.Set_ string DefaultCacheSyncConfig no_players _ C 5 sample_client NewCacheSync "player" "1" (hero "8") None
      = (c', cs', ss, started, Ret tt) /\
    exists c2 cs2 d', @CacheSync.Get string no_players _ C
        (MkClient (rc_redis c') (rc_stats c') (rc_now c' + 10 ^ 12) (fun _ => LostRequest) (rc_sent c')) cs' "player" "1"
      = (c2, cs2, Ret d') /\ (d' = hero "8" \/ d' = v_image (hero "8")).
Proof.
  intros C.
  destruct (@CacheSync.Set_ string DefaultCacheSyncConfig no_players _ C 5 sample_client NewCacheSync "player" "1" (hero "8") None)
    as [[[[c' cs'] ss] started] o] eqn:E. assert (o = Ret tt) as -> by (apply (f_equal snd) in E; by vm_compute in E).
  exists c', cs', ss, started. split; [exact eq_refl|].
  apply (rc_read_your_writes DefaultCacheConfig sync_ttl eq_refl sync_ttl_ok eq_refl DefaultCacheSyncConfig no_players 5
    sample_client c' NewCacheSync cs' "player" "1" (hero "8") None ss started (rc_now c' + 10 ^ 12) (fun _ => LostRequest) E); [reflexivity|lia].
Defined.
