(* ===== verification/StandaloneRpc.v ===== *)
(** * The standalone echo server and its client
      ([pkg/rpc/server_standalone.go], [pkg/rpc/client_standalone.go])

    One client connection: the calls with their channels, the map of pending calls,
    the two directions of the socket, the goroutines of the server and of the client
    that hold a request or a response.  A write is one message on the socket; a read
    takes up to 4096 bytes of what is there, whether that is part of a message, one
    or several.  JSON is that of [Json], byte by byte.  The steps of the goroutines
    interleave freely.  The texts of the errors of [encoding/json] are a parameter. *)

From stdpp Require Import base gmap strings numbers list.
From Stdlib Require Import ZArith Lia.
From S2P Require Import Prelude Json.

Local Open Scope Z_scope.

(** ** Requests and responses *)

(** An empty [Args] or [Reply] is [nil]. *)
Record SimpleJsonRequest := MkRequest {
  rq_ServiceMethod : list byte;
  rq_Sequence : Z;
  rq_Args : list byte
}.

Record SimpleJsonResponse := MkResponse {
  rs_ServiceMethod : list byte;
  rs_Sequence : Z;
  rs_Error : list byte;
  rs_Reply : list byte
}.

Record EchoReply := MkEchoReply { er_Message : list byte; er_Time : Z }.

(** [json.Marshal] of the structs. *)
Definition marshal_args (message : list byte) : list byte := object_text [(str_bytes "message", quoted message)].

Definition marshal_int (z : Z) : list byte := if z <? 0 then Byte.x2d :: dec (- z) else dec z.

Definition marshal_reply (r : EchoReply) : list byte :=
  object_text [(str_bytes "message", quoted (er_Message r)); (str_bytes "time", marshal_int (er_Time r))].

Definition marshal_rawmessage (raw : list byte) : option (list byte) :=
  if bool_decide (raw = []) then Some (str_bytes "null") else marshal_raw raw.

Definition marshal_request (r : SimpleJsonRequest) : option (list byte) :=
  args ← marshal_rawmessage (rq_Args r);
  Some (object_text [(str_bytes "service_method", quoted (rq_ServiceMethod r)); (str_bytes "sequence", dec (rq_Sequence r));
                     (str_bytes "args", args)]).

Definition marshal_response (r : SimpleJsonResponse) : option (list byte) :=
  reply ← marshal_rawmessage (rs_Reply r);
  Some (object_text [(str_bytes "service_method", quoted (rs_ServiceMethod r)); (str_bytes "sequence", dec (rs_Sequence r));
                     (str_bytes "error", quoted (rs_Error r)); (str_bytes "reply", reply)]).

(** [json.Unmarshal] of the structs. *)
Definition decode_request (r : SimpleJsonRequest) (key raw : list byte) (v : json) : option SimpleJsonRequest :=
  if bool_decide (key = str_bytes "SERVICE_METHOD") then
    m ← decode_text (rq_ServiceMethod r) v; Some (MkRequest m (rq_Sequence r) (rq_Args r))
  else if bool_decide (key = str_bytes "SEQUENCE") then
    s ← decode_uint 64 (rq_Sequence r) v; Some (MkRequest (rq_ServiceMethod r) s (rq_Args r))
  else if bool_decide (key = str_bytes "ARGS") then Some (MkRequest (rq_ServiceMethod r) (rq_Sequence r) raw)
  else Some r.

Definition unmarshal_request : list byte -> option SimpleJsonRequest := decode_struct decode_request (MkRequest [] 0 []).

Definition decode_response (r : SimpleJsonResponse) (key raw : list byte) (v : json) : option SimpleJsonResponse :=
  if bool_decide (key = str_bytes "SERVICE_METHOD") then
    m ← decode_text (rs_ServiceMethod r) v; Some (MkResponse m (rs_Sequence r) (rs_Error r) (rs_Reply r))
  else if bool_decide (key = str_bytes "SEQUENCE") then
    s ← decode_uint 64 (rs_Sequence r) v; Some (MkResponse (rs_ServiceMethod r) s (rs_Error r) (rs_Reply r))
  else if bool_decide (key = str_bytes "ERROR") then
    e ← decode_text (rs_Error r) v; Some (MkResponse (rs_ServiceMethod r) (rs_Sequence r) e (rs_Reply r))
  else if bool_decide (key = str_bytes "REPLY") then
    Some (MkResponse (rs_ServiceMethod r) (rs_Sequence r) (rs_Error r) raw)
  else Some r.

Definition unmarshal_response : list byte -> option SimpleJsonResponse :=
  decode_struct decode_response (MkResponse [] 0 [] []).

Definition decode_args (m : list byte) (key raw : list byte) (v : json) : option (list byte) :=
  if bool_decide (key = str_bytes "MESSAGE") then decode_text m v else Some m.

Definition unmarshal_args : list byte -> option (list byte) := decode_struct decode_args [].

Definition decode_reply (r : EchoReply) (key raw : list byte) (v : json) : option EchoReply :=
  if bool_decide (key = str_bytes "MESSAGE") then m ← decode_text (er_Message r) v; Some (MkEchoReply m (er_Time r))
  else if bool_decide (key = str_bytes "TIME") then t ← decode_int 64 (er_Time r) v; Some (MkEchoReply (er_Message r) t)
  else Some r.

Definition unmarshal_reply : list byte -> option EchoReply := decode_struct decode_reply (MkEchoReply [] 0).

(** ** The server *)

Definition echo_method : list byte := str_bytes "SimpleEchoService.Echo".

(** [SimpleEchoService.Echo], [now] being [time.Now().UnixNano()]. *)
Definition Echo (now : Z) (message : list byte) : EchoReply := MkEchoReply message (Z.quot now 1000000).

(** The errors of [handleRequest].  [Echo] has none and a reply can be written, so
    that the errors of those two calls are left out. *)
Inductive RequestError :=
  | ErrInvalidRequest
  | ErrUnknownMethod (method : list byte)
  | ErrInvalidArgs (args : list byte)
  | ErrSerializeResponse (reply : list byte).

Definition handleRequest (now : Z) (data : list byte) : list byte + RequestError :=
  match unmarshal_request data with
  | None => inr ErrInvalidRequest
  | Some req =>
      if bool_decide (rq_ServiceMethod req <> echo_method) then inr (ErrUnknownMethod (rq_ServiceMethod req))
      else match unmarshal_args (rq_Args req) with
           | None => inr (ErrInvalidArgs (rq_Args req))
           | Some args =>
               let reply := marshal_reply (Echo now args) in
               match marshal_response (MkResponse (rq_ServiceMethod req) (rq_Sequence req) [] reply) with
               | Some response => inl response
               | None => inr (ErrSerializeResponse reply)
               end
           end
  end.

Section server.
(** The text of the error with which [json.Unmarshal] refuses a text. *)
Context (json_error : list byte -> list byte).

(** [err.Error()] *)
Definition error_text (data : list byte) (e : RequestError) : list byte :=
  match e with
  | ErrInvalidRequest => str_bytes "invalid request format: " ++ json_error data
  | ErrUnknownMethod m => str_bytes "unknown service method: " ++ m
  | ErrInvalidArgs args => str_bytes "invalid arguments: " ++ json_error args
  | ErrSerializeResponse reply => json_error reply
  end.

(** What [handleConnection] writes for a text that it read. *)
Definition answer (now : Z) (data : list byte) : list byte :=
  match handleRequest now data with
  | inl response => response
  | inr e => default [] (marshal_response (MkResponse [] 0 (error_text data e) []))
  end.

(** ** The client and the connection *)

Inductive CallError :=
  | ErrSerialize
  | ErrConnectionClosed
  | ErrSending
  | ErrContext
  | ErrTimedOut
  | ErrRpc (text : list byte).

(** Where a call is: about to write its request, waiting for the response, or
    returned. *)
Inductive phase :=
  | Sending (request : list byte)
  | Waiting
  | Returned (result : SimpleJsonResponse + CallError).

(** [SimpleCall] with the arguments of its [Call]; the channel [Response] holds at
    most one response, [Done] is open or closed. *)
Record SimpleCall := MkCall {
  ServiceMethod : list byte;
  Message : list byte;
  Sequence : Z;
  Response : option SimpleJsonResponse;
  Done : bool;
  at_ : phase
}.

(** The client, the socket in both directions, the texts that the goroutines of the
    server and [processResponse] hold, the responses taken from [pending] that are
    not yet sent to their calls, the responses that a full channel dropped, and
    whether a [close] of a closed channel has crashed the client. *)
Record conn_state := MkConn {
  connected : bool;
  closed : bool;
  seq : Z;
  pending : gmap Z nat;
  calls : list SimpleCall;
  upstream : list (list byte);
  requests : list (list byte);
  downstream : list (list byte);
  responses : list (list byte);
  sending : list (nat * SimpleJsonResponse);
  dropped : nat;
  panicked : bool
}.

Definition NewSimpleClient : conn_state := MkConn true false 0 ∅ [] [] [] [] [] [] 0 false.

(** [conn.Read(buffer)]: [n] bytes of what is on the socket. *)
Fixpoint read_bytes (n : nat) (messages : list (list byte)) : list byte * list (list byte) :=
  match messages with
  | [] => ([], [])
  | m :: ms =>
      if bool_decide (n < length m)%nat then (take n m, drop n m :: ms)
      else let '(data, rest) := read_bytes (n - length m) ms in (m ++ data, rest)
  end.

Definition buffer_size : nat := 4096.

Definition can_read (n : nat) (messages : list (list byte)) : bool :=
  bool_decide (0 < n <= buffer_size)%nat && bool_decide (n <= length (concat messages))%nat.

Definition set_calls (st : conn_state) (p : gmap Z nat) (cs : list SimpleCall) : conn_state :=
  MkConn (connected st) (closed st) (seq st) p cs (upstream st) (requests st) (downstream st) (responses st)
    (sending st) (dropped st) (panicked st).

Definition at_phase (c : SimpleCall) (p : phase) : SimpleCall :=
  MkCall (ServiceMethod c) (Message c) (Sequence c) (Response c) (Done c) p.

(** [Call] returns [e] after it took itself off the pending calls. *)
Definition call_fails (st : conn_state) (i : nat) (c : SimpleCall) (e : CallError) : conn_state :=
  set_calls st (delete (Sequence c) (pending st)) (<[i := at_phase c (Returned (inr e))]> (calls st)).

(** [Call] up to the write. *)
Definition call_begin (st : conn_state) (method message : list byte) : conn_state :=
  let s := uwrap 64 (seq st + 1) in
  let i := length (calls st) in
  let st := MkConn (connected st) (closed st) s (<[s := i]> (pending st)) (calls st) (upstream st) (requests st)
              (downstream st) (responses st) (sending st) (dropped st) (panicked st) in
  let c := MkCall method message s None false in
  match marshal_request (MkRequest method s (marshal_args message)) with
  | None => set_calls st (delete s (pending st)) (calls st ++ [c (Returned (inr ErrSerialize))])
  | Some request => set_calls st (pending st) (calls st ++ [c (Sending request)])
  end.

(** The write: a connection that was set to [nil] is noticed, the write on a closed
    one fails, and so it can at any time. *)
Definition call_send (st : conn_state) (i : nat) (c : SimpleCall) (request : list byte) (ok : bool) : conn_state :=
  if negb (connected st) then call_fails st i c ErrConnectionClosed
  else if closed st || negb ok then call_fails st i c ErrSending
  else
    let st := set_calls st (pending st) (<[i := at_phase c Waiting]> (calls st)) in
    MkConn (connected st) (closed st) (seq st) (pending st) (calls st) (upstream st ++ [request]) (requests st)
      (downstream st) (responses st) (sending st) (dropped st) (panicked st).

(** The [select] of [Call] takes the response from the channel. *)
Definition call_receive (st : conn_state) (i : nat) (c : SimpleCall) (r : SimpleJsonResponse) : conn_state :=
  let result := if bool_decide (rs_Error r <> []) then inr (ErrRpc (rs_Error r)) else inl r in
  set_calls st (pending st)
    (<[i := MkCall (ServiceMethod c) (Message c) (Sequence c) None (Done c) (Returned result)]> (calls st)).

(** [processResponse] up to the end of its critical section; [k] is the goroutine. *)
Definition process_lookup (st : conn_state) (k : nat) (data : list byte) : conn_state :=
  let st := MkConn (connected st) (closed st) (seq st) (pending st) (calls st) (upstream st) (requests st)
              (downstream st) (delete k (responses st)) (sending st) (dropped st) (panicked st) in
  match unmarshal_response data with
  | None => st
  | Some resp =>
      match pending st !! rs_Sequence resp with
      | None => st
      | Some i =>
          MkConn (connected st) (closed st) (seq st) (delete (rs_Sequence resp) (pending st)) (calls st) (upstream st)
            (requests st) (downstream st) (responses st) (sending st ++ [(i, resp)]) (dropped st) (panicked st)
      end
  end.

(** The end of [processResponse]: the response goes to the channel if that is empty,
    and [Done] is closed. *)
Definition process_deliver (st : conn_state) (k i : nat) (resp : SimpleJsonResponse) (c : SimpleCall) : conn_state :=
  MkConn (connected st) (closed st) (seq st) (pending st)
    (<[i := MkCall (ServiceMethod c) (Message c) (Sequence c) (Some (default resp (Response c))) true (at_ c)]> (calls st))
    (upstream st) (requests st) (downstream st) (responses st) (delete k (sending st))
    (if bool_decide (Response c = None) then dropped st else S (dropped st)) (panicked st || Done c).

(** The steps: calls and their ends, reads of the two sides, the goroutines [k] of the
    server ([now] being its clock, [ok] whether the write succeeds) and of the client, a
    read of the client that fails,
    and [Close]. *)
Inductive event :=
  | EvCall (method message : list byte)
  | EvSend (i : nat) (ok : bool)
  | EvReceive (i : nat)
  | EvContext (i : nat)
  | EvTimeout (i : nat)
  | EvServerRead (n : nat)
  | EvServe (k : nat) (now : Z) (ok : bool)
  | EvClientRead (n : nat)
  | EvProcess (k : nat)
  | EvDeliver (k : nat)
  | EvReadFails
  | EvClose.

(** A call that waits. *)
Definition waiting (st : conn_state) (i : nat) : option SimpleCall :=
  c ← calls st !! i; match at_ c with Waiting => Some c | _ => None end.

Definition step (st : conn_state) (ev : event) : option conn_state :=
  match ev with
  | EvCall method message => Some (call_begin st method message)
  | EvSend i ok =>
      c ← calls st !! i;
      match at_ c with Sending request => Some (call_send st i c request ok) | _ => None end
  | EvReceive i => c ← waiting st i; r ← Response c; Some (call_receive st i c r)
  | EvContext i => c ← waiting st i; Some (call_fails st i c ErrContext)
  | EvTimeout i => c ← waiting st i; Some (call_fails st i c ErrTimedOut)
  | EvServerRead n =>
      if can_read n (upstream st) then
        let '(data, rest) := read_bytes n (upstream st) in
        Some (MkConn (connected st) (closed st) (seq st) (pending st) (calls st) rest (requests st ++ [data])
                (downstream st) (responses st) (sending st) (dropped st) (panicked st))
      else None
  | EvServe k now ok =>
      data ← requests st !! k;
      Some (MkConn (connected st) (closed st) (seq st) (pending st) (calls st) (upstream st) (delete k (requests st))
              (if ok then downstream st ++ [answer now data] else downstream st) (responses st) (sending st) (dropped st) (panicked st))
  | EvClientRead n =>
      if connected st && negb (closed st) && can_read n (downstream st) then
        let '(data, rest) := read_bytes n (downstream st) in
        Some (MkConn (connected st) (closed st) (seq st) (pending st) (calls st) (upstream st) (requests st)
                rest (responses st ++ [data]) (sending st) (dropped st) (panicked st))
      else None
  | EvProcess k => data ← responses st !! k; Some (process_lookup st k data)
  | EvDeliver k => '(i, resp) ← sending st !! k; c ← calls st !! i; Some (process_deliver st k i resp c)
  | EvReadFails =>
      if connected st then
        Some (MkConn false (closed st) (seq st) (pending st) (calls st) (upstream st) (requests st) (downstream st)
                (responses st) (sending st) (dropped st) (panicked st))
      else None
  | EvClose =>
      Some (MkConn (connected st) (closed st || connected st) (seq st) (pending st) (calls st) (upstream st) (requests st)
              (downstream st) (responses st) (sending st) (dropped st) (panicked st))
  end.

Fixpoint run (st : conn_state) (evs : list event) : option conn_state :=
  match evs with
  | [] => Some st
  | ev :: evs => st ← step st ev; run st evs
  end.

End server.

(** [CallEcho] on what [Call] returned. *)
Definition CallEcho (result : SimpleJsonResponse + CallError) : (list byte * Z) + option CallError :=
  match result with
  | inr e => inr (Some e)
  | inl resp => match unmarshal_reply (rs_Reply resp) with
                | Some reply => inl (er_Message reply, er_Time reply)
                | None => inr None
                end
  end.

(** ** The texts, proved *)

(** The requests and the responses on the socket. *)
Definition request_text (method : list byte) (s : Z) (message : list byte) : list byte :=
  object_text [(str_bytes "service_method", quoted method); (str_bytes "sequence", dec s);
               (str_bytes "args", marshal_args message)].

Definition response_text (method : list byte) (s : Z) (error reply : list byte) : list byte :=
  object_text [(str_bytes "service_method", quoted method); (str_bytes "sequence", dec s);
               (str_bytes "error", quoted error); (str_bytes "reply", reply)].

(** The values of the texts. *)
Definition args_value (message : list byte) : json :=
  JObj (members_of [(str_bytes "message", quoted message)] [JStr (encode_string 0 message)]).

Definition reply_value (m : list byte) (t : Z) : json :=
  JObj (members_of [(str_bytes "message", quoted m); (str_bytes "time", dec t)] [JStr (encode_string 0 m); JNum (dec t)]).

Lemma marshal_reply_dec m t : 0 <= t -> marshal_reply (MkEchoReply m t) = object_text [(str_bytes "message", quoted m); (str_bytes "time", dec t)].
Proof. intros Ht. unfold marshal_reply, marshal_int. cbn [er_Message er_Time]. by rewrite (proj2 (Z.ltb_ge t 0)). Qed.

Lemma nested_args m : nested 4 1 (marshal_args m) (args_value m).
Proof. apply (nested_object 1 0); [|done]. repeat constructor; apply nested_quoted. Qed.

Lemma nested_reply m t : 0 <= t < 2 ^ 63 -> nested 5 1 (marshal_reply (MkEchoReply m t)) (reply_value m t).
Proof.
  intros Ht. rewrite marshal_reply_dec by lia. apply (nested_object 1 0); [|done].
  repeat apply Forall2_cons_2; cbn [snd]; [apply nested_quoted|apply nested_dec; lia|constructor].
Qed.

Lemma marshal_rawmessage_value m k raw v :
  nested m k raw v -> (k <= maxNestingDepth)%N -> compact v = raw -> marshal_rawmessage raw = Some raw.
Proof.
  intros Hn Hk Hc. unfold marshal_rawmessage. rewrite bool_decide_eq_false_2 by (by destruct Hn as [Hs _]; intros ->).
  unfold marshal_raw. rewrite (parse_nested m k raw v Hn Hk). cbn. by rewrite Hc.
Qed.

Lemma compact_args m : compact (args_value m) = marshal_args m.
Proof. apply compact_object. repeat constructor; apply compact_quoted. Qed.

Lemma compact_reply m t : 0 <= t -> compact (reply_value m t) = marshal_reply (MkEchoReply m t).
Proof. intros Ht. rewrite marshal_reply_dec by done. apply compact_object. repeat constructor; apply compact_quoted. Qed.

Lemma marshal_request_text method s message :
  marshal_request (MkRequest method s (marshal_args message)) = Some (request_text method s message).
Proof.
  unfold marshal_request. cbn [rq_Args rq_Sequence rq_ServiceMethod].
  by rewrite (marshal_rawmessage_value _ _ _ _ (nested_args message) ltac:(done) (compact_args message)).
Qed.

Lemma nested_null k : nested 1 k (str_bytes "null") JNull.
Proof. split; [done|]. intros [|f] d r Hf _ _; [lia|]. cbn [parse_value str_bytes app]. done. Qed.

Lemma marshal_response_text method s e m k reply v :
  nested m k reply v -> (k <= maxNestingDepth)%N -> compact v = reply ->
  marshal_response (MkResponse method s e reply) = Some (response_text method s e reply).
Proof.
  intros Hn Hk Hc. unfold marshal_response. cbn [rs_Reply rs_Sequence rs_ServiceMethod rs_Error].
  by rewrite (marshal_rawmessage_value _ _ _ _ Hn Hk Hc).
Qed.

Lemma decode_uint_dec old n : in_u 64 n -> decode_uint 64 old (JNum (dec n)) = Some n.
Proof. intros Hn. by apply ParseUint_dec. Qed.

Lemma request_value method s message :
  in_u 64 s -> parse (request_text method s message)
  = Some (JObj (members_of [(str_bytes "service_method", quoted method); (str_bytes "sequence", dec s);
                            (str_bytes "args", marshal_args message)]
                  [JStr (encode_string 0 method); JNum (dec s); args_value message])).
Proof.
  intros Hs. apply (parse_nested (S (S 4 + 3)) (1 + 1)); [|done]. apply nested_object; [|done].
  repeat apply Forall2_cons_2; cbn [snd]; [| |apply nested_args|constructor].
  - eapply nested_mono; [|apply nested_quoted]. lia.
  - eapply nested_mono; [|by apply nested_dec]. lia.
Qed.

Lemma response_value method s e m reply v :
  in_u 64 s -> nested (S m) 1 reply v -> parse (response_text method s e reply)
  = Some (JObj (members_of [(str_bytes "service_method", quoted method); (str_bytes "sequence", dec s);
                            (str_bytes "error", quoted e); (str_bytes "reply", reply)]
                  [JStr (encode_string 0 method); JNum (dec s); JStr (encode_string 0 e); v])).
Proof.
  intros Hs Hv. apply (parse_nested (S (S (S m) + 4)) (1 + 1)); [|done]. apply nested_object; [|done].
  assert (forall x, nested (S m) 1 (quoted x) (JStr (encode_string 0 x))) as Hq
    by (intros x; eapply nested_mono; [|apply nested_quoted]; lia).
  repeat apply Forall2_cons_2; cbn [snd]; [apply Hq| |apply Hq|done|constructor].
  eapply nested_mono; [|by apply nested_dec]. lia.
Qed.

Lemma unmarshal_request_text method s message :
  in_u 64 s -> unmarshal_request (request_text method s message) = Some (MkRequest (to_valid 0 method) s (marshal_args message)).
Proof.
  intros Hs. unfold unmarshal_request, decode_struct. rewrite request_value by done.
  cbn [members_of zip_with fst snd decode_all]. unfold decode_request. struct_keys.
  cbn [decode_text mbind option_bind rq_Sequence rq_ServiceMethod rq_Args]. rewrite unquote_encode, decode_uint_dec by done. done.
Qed.

Lemma unmarshal_response_text method s e m reply v :
  in_u 64 s -> nested (S m) 1 reply v -> unmarshal_response (response_text method s e reply)
  = Some (MkResponse (to_valid 0 method) s (to_valid 0 e) reply).
Proof.
  intros Hs Hv. unfold unmarshal_response, decode_struct. rewrite (response_value _ _ _ m _ v) by done.
  cbn [members_of zip_with fst snd decode_all]. unfold decode_response. struct_keys.
  cbn [decode_text mbind option_bind rs_Sequence rs_ServiceMethod rs_Error rs_Reply]. rewrite !unquote_encode, decode_uint_dec by done. done.
Qed.

Lemma unmarshal_args_text message : unmarshal_args (marshal_args message) = Some (to_valid 0 message).
Proof.
  unfold unmarshal_args, decode_struct. rewrite (parse_nested _ _ _ _ (nested_args message) ltac:(done)). unfold args_value.
  cbn [members_of zip_with fst snd decode_all]. unfold decode_args. struct_keys. cbn [decode_text mbind option_bind].
  by rewrite unquote_encode.
Qed.

Lemma unmarshal_reply_text m t :
  0 <= t < 2 ^ 63 -> unmarshal_reply (marshal_reply (MkEchoReply m t)) = Some (MkEchoReply (to_valid 0 m) t).
Proof.
  intros Ht. unfold unmarshal_reply, decode_struct. rewrite (parse_nested _ _ _ _ (nested_reply m t Ht) ltac:(done)).
  unfold reply_value. cbn [members_of zip_with fst snd decode_all]. unfold decode_reply. struct_keys.
  cbn [decode_text mbind option_bind er_Message er_Time]. rewrite unquote_encode.
  unfold decode_int. rewrite ParseInt_dec by lia. done.
Qed.

(** ** Safety, whatever is on the socket *)

(** What a call has received is for it. *)
Record call_ok (c : SimpleCall) : Prop := {
  co_response r : Response c = Some r -> rs_Sequence r = Sequence c;
  co_result r : at_ c = Returned (inl r) -> rs_Sequence r = Sequence c /\ rs_Error r = []
}.

(** A call that has received nothing. *)
Definition open_call (cs : list SimpleCall) (s : Z) (i : nat) : Prop :=
  exists c, cs !! i = Some c /\ Sequence c = s /\ Done c = false /\ Response c = None.

Record safe (p : gmap Z nat) (cs : list SimpleCall) (sd : list (nat * SimpleJsonResponse)) : Prop := {
  safe_pending s i : p !! s = Some i -> open_call cs s i /\ (i ∉ sd.*1);
  safe_nodup : NoDup sd.*1;
  safe_sending i r : (i, r) ∈ sd -> open_call cs (rs_Sequence r) i;
  safe_calls i c : cs !! i = Some c -> call_ok c
}.

Lemma open_update cs s i j c c' :
  open_call cs s i -> cs !! j = Some c -> Sequence c' = Sequence c -> Done c' = Done c ->
  Response c' = Response c \/ Response c' = None -> open_call (<[j := c']> cs) s i.
Proof.
  intros (c0 & Hi & Hs & Hd & Hr) Hj Es Ed Er. destruct (decide (i = j)) as [->|Hne].
  - simplify_eq. exists c'. rewrite list_lookup_insert_eq by (by eapply lookup_lt_Some). split_and!; congruence || (destruct Er; congruence).
  - exists c0. by rewrite list_lookup_insert_ne.
Qed.

Lemma open_app cs s i l : open_call cs s i -> open_call (cs ++ l) s i.
Proof. intros (c & Hi & ?). exists c. split; [by apply lookup_app_l_Some|done]. Qed.

(** A call that moves on. *)
Lemma safe_update p p' cs sd i c c' :
  safe p cs sd -> cs !! i = Some c -> p' ⊆ p -> Sequence c' = Sequence c -> Done c' = Done c ->
  Response c' = Response c \/ Response c' = None -> call_ok c' -> safe p' (<[i := c']> cs) sd.
Proof.
  intros [Hp Hn Hs Hc] Hi Hsub Es Ed Er Hok. split.
  - intros s j Hj. destruct (Hp s j) as [Ho Hnot]; [by eapply lookup_weaken|]. split; [by eapply open_update|done].
  - done.
  - intros j r Hj. eapply open_update; eauto.
  - intros j c0 [(-> & -> & _)|[_ Hj]]%list_lookup_insert_Some; [done|by eapply Hc].
Qed.

Lemma safe_begin p cs sd s c :
  safe p cs sd -> Sequence c = s -> Done c = false -> Response c = None -> call_ok c ->
  safe (<[s := length cs]> p) (cs ++ [c]) sd.
Proof.
  intros [Hp Hn Hs Hc] Es Ed Er Hok. split.
  - intros s' i [[<- <-]|[_ Hi]]%lookup_insert_Some.
    + split; [exists c; split_and!; [by apply list_lookup_middle|done..]|].
      intros ([i r] & Ei & (c0 & Hi%lookup_lt_Some & _)%Hs)%list_elem_of_fmap. cbn [fst] in Ei. lia.
    + destruct (Hp s' i Hi). split; [by apply open_app|done].
  - done.
  - intros i r Hi. by apply open_app, Hs.
  - intros i c0 [Hi|[_ E]]%lookup_app_Some; [by eapply Hc|]. destruct (i - length cs)%nat; simplify_eq/=; done.
Qed.

Lemma safe_lookup p cs sd i r :
  safe p cs sd -> p !! rs_Sequence r = Some i -> safe (delete (rs_Sequence r) p) cs (sd ++ [(i, r)]).
Proof.
  intros [Hp Hn Hs Hc] Hi. destruct (Hp _ _ Hi) as [Ho Hnot]. split.
  - intros s j [Hne Hj]%lookup_delete_Some. destruct (Hp s j Hj) as [Ho' Hnot']. split; [done|].
    rewrite fmap_app, elem_of_app. intros [?|Ej%list_elem_of_singleton]; [done|]. cbn [fst] in Ej. subst j.
    destruct Ho as (c & ? & ? & _), Ho' as (c' & ? & ? & _). congruence.
  - rewrite fmap_app. apply NoDup_app. split_and!; [done| |apply NoDup_singleton].
    intros j Hj ->%list_elem_of_singleton. done.
  - intros j r' [Hj|E%list_elem_of_singleton]%elem_of_app; [by apply Hs|by simplify_eq].
  - done.
Qed.

Lemma safe_deliver p cs sd k i r c :
  safe p cs sd -> sd !! k = Some (i, r) -> cs !! i = Some c ->
  Response c = None /\ Done c = false /\
  safe p (<[i := MkCall (ServiceMethod c) (Message c) (Sequence c) (Some r) true (at_ c)]> cs) (delete k sd).
Proof.
  intros [Hp Hn Hs Hc] Hk Hi. apply delete_Permutation in Hk as Hperm. set (sd' := delete k sd) in *. clearbody sd'.
  destruct (Hs i r) as (c0 & ? & Hseq & ? & ?); [by apply list_elem_of_lookup; eauto|]. simplify_eq.
  rewrite Hperm in Hn. cbn [fmap list_fmap fst] in Hn. apply NoDup_cons in Hn as [Hnot Hn].
  assert (forall s j, j <> i -> open_call cs s j ->
            open_call (<[i := MkCall (ServiceMethod c) (Message c) (Sequence c) (Some r) true (at_ c)]> cs) s j) as Hkeep.
  { intros s j Hne (c' & ? & ?). exists c'. by rewrite list_lookup_insert_ne. }
  split_and!; [done..|]. split.
  - intros s j Hj. destruct (Hp s j Hj) as [Ho Hno]. rewrite Hperm in Hno. cbn [fmap list_fmap fst] in Hno.
    apply not_elem_of_cons in Hno as [Hne Hno]. split; [by apply Hkeep|done].
  - done.
  - intros j r' Hj. apply Hkeep.
    + intros ->. apply Hnot, list_elem_of_fmap. by exists (i, r').
    + apply Hs. rewrite Hperm. by right.
  - intros j c' [(-> & <- & _)|[_ Hj]]%list_lookup_insert_Some; [|by eapply Hc]. destruct (Hc _ _ Hi) as [_ Hres].
    split; cbn [Response Sequence at_]; [by intros r' [= <-]|done].
Qed.

Definition safe_state (st : conn_state) : Prop :=
  safe (pending st) (calls st) (sending st) /\ dropped st = 0%nat /\ panicked st = false.

Lemma safe_fails st i c e : safe_state st -> calls st !! i = Some c -> safe_state (call_fails st i c e).
Proof.
  intros (Hs & Hd & Hp) Hi. split_and!; [|done..]. destruct (safe_calls _ _ _ Hs _ _ Hi) as [Hr _].
  eapply safe_update; [done|done|apply delete_subseteq|done|done|by left|]. split; [done|by intros r].
Qed.

Lemma waiting_spec st i c : waiting st i = Some c -> calls st !! i = Some c /\ at_ c = Waiting.
Proof. unfold waiting. destruct (calls st !! i) as [c0|]; [|done]. cbn. destruct (at_ c0) eqn:E; [done|by intros [= <-]|done]. Qed.

Section runs.
Context (json_error : list byte -> list byte).

Lemma safe_step st ev st' : safe_state st -> step json_error st ev = Some st' -> safe_state st'.
Proof.
  intros Hst. pose proof Hst as (Hs & Hd & Hp). destruct ev as [method message|i ok|i|i|i|n|k now ok|n|k|k| |]; cbn [step].
  - intros [= <-]. unfold call_begin. set (s := uwrap 64 _). rewrite marshal_request_text.
    split_and!; [|done..]. cbn. apply safe_begin; [done..|]. by split.
  - destruct (calls st !! i) as [c|] eqn:Hi; [|done]. cbn. destruct (at_ c) as [request| |] eqn:Ha; [|done..]. intros [= <-].
    unfold call_send. destruct (negb _); [by apply safe_fails|]. destruct (_ || _); [by apply safe_fails|].
    split_and!; [|done..]. cbn. eapply safe_update; [done|done|done|done|done|by left|].
    destruct (safe_calls _ _ _ Hs _ _ Hi). by split.
  - destruct (waiting st i) as [c|] eqn:Hw; [|done]. apply waiting_spec in Hw as [Hi Ha]. cbn.
    destruct (Response c) as [r|] eqn:Hr; [|done]. intros [= <-]. split_and!; [|done..]. cbn.
    destruct (safe_calls _ _ _ Hs _ _ Hi) as [Hresp _].
    eapply safe_update; [done|done|done|done|done|by right|]. split; [done|]. cbn. intros r'. case_bool_decide as E; [done|].
    intros [= <-]. split; [by apply Hresp|done].
  - destruct (waiting st i) as [c|] eqn:Hw; [|done]. apply waiting_spec in Hw as [Hi Ha]. intros [= <-]. by apply safe_fails.
  - destruct (waiting st i) as [c|] eqn:Hw; [|done]. apply waiting_spec in Hw as [Hi Ha]. intros [= <-]. by apply safe_fails.
  - destruct (can_read _ _); [|done]. destruct (read_bytes _ _). by intros [= <-].
  - destruct (requests st !! k); [|done]. by intros [= <-].
  - destruct (_ && _); [|done]. destruct (read_bytes _ _). by intros [= <-].
  - destruct (responses st !! k) as [data|]; [|done]. intros [= <-]. unfold process_lookup.
    destruct (unmarshal_response data) as [r|]; [|done]. cbn [pending]. destruct (pending st !! _) as [i|] eqn:Hi; [|done].
    split_and!; [|done..]. by apply safe_lookup.
  - destruct (sending st !! k) as [[i r]|] eqn:Hk; [|done]. cbn. destruct (calls st !! i) as [c|] eqn:Hi; [|done]. intros [= <-].
    destruct (safe_deliver _ _ _ _ _ _ _ Hs Hk Hi) as (Hr & Hdone & Hs'). unfold process_deliver. rewrite Hr, Hdone.
    split_and!; [done| |]; cbn; [done|]. by rewrite Hp.
  - destruct (connected st); [|done]. by intros [= <-].
  - by intros [= <-].
Qed.

Lemma client_run_inv (P : conn_state -> Prop) evs st st' :
  (forall st ev st', P st -> step json_error st ev = Some st' -> P st') -> P st -> run json_error st evs = Some st' -> P st'.
Proof.
  intros Hstep. revert st. induction evs as [|ev evs IH]; intros st Hs; cbn [run]; [by intros [= <-]|].
  destruct (step json_error st ev) as [st1|] eqn:E; [|done]. cbn. apply IH. by eapply Hstep.
Qed.

Lemma safe_new : safe_state NewSimpleClient.
Proof. split_and!; [|done..]. split; [done|constructor|by intros i r ?%elem_of_nil|done]. Qed.

(** C12: safety of the standalone client.  However the reads cut the bytes, and however calls, contexts, timeouts and
    goroutines interleave: no channel is closed twice, no response is dropped because a channel is full, and a
    [Call] that returns a response returns one with its own sequence number and no error. *)
Theorem sa_safe evs st :
  run json_error NewSimpleClient evs = Some st ->
  panicked st = false /\ dropped st = 0%nat /\
  forall i c r, calls st !! i = Some c -> at_ c = Returned (inl r) -> rs_Sequence r = Sequence c /\ rs_Error r = [].
Proof.
  intros Hrun. destruct (client_run_inv safe_state _ _ _ safe_step safe_new Hrun) as (Hs & Hd & Hp). split_and!; [done..|].
  intros i c r Hi. by apply (safe_calls _ _ _ Hs _ _ Hi).
Qed.

(** ** Errors of the server *)

Definition clock_ok (now : Z) : Prop := 0 <= now < 2 ^ 63.

(** What the client makes of the answer to a call. *)
Definition echo_response (s : Z) (message : list byte) (now : Z) : SimpleJsonResponse :=
  MkResponse echo_method s [] (marshal_reply (Echo now (to_valid 0 message))).

Lemma echo_time now : clock_ok now -> 0 <= Z.quot now 1000000 < 2 ^ 63.
Proof. unfold clock_ok. intros Hn. split; [apply Z.quot_pos; lia|]. apply Z.quot_lt_upper_bound; lia. Qed.

Lemma handleRequest_echo now method s message :
  clock_ok now -> in_u 64 s -> to_valid 0 method = echo_method ->
  handleRequest now (request_text method s message)
  = inl (response_text echo_method s [] (marshal_reply (Echo now (to_valid 0 message)))).
Proof.
  intros Hn Hs Hm. unfold handleRequest. rewrite unmarshal_request_text by done. cbn [rq_ServiceMethod rq_Args rq_Sequence].
  rewrite Hm, bool_decide_eq_false_2 by auto. rewrite unmarshal_args_text.
  apply echo_time in Hn. unfold Echo. by rewrite (marshal_response_text _ _ _ _ _ _ _ (nested_reply _ _ Hn) ltac:(done) (compact_reply _ _ (proj1 Hn))).
Qed.

Lemma unmarshal_answer_echo now method s message :
  clock_ok now -> in_u 64 s -> to_valid 0 method = echo_method ->
  unmarshal_response (answer json_error now (request_text method s message)) = Some (echo_response s message now).
Proof.
  intros Hn Hs Hm. unfold answer. rewrite handleRequest_echo by done. apply echo_time in Hn.
  rewrite (unmarshal_response_text _ _ _ 4 _ (reply_value (to_valid 0 message) (Z.quot now 1000000))); [done|done|by apply nested_reply].
Qed.

Lemma unmarshal_answer_error now data e :
  handleRequest now data = inr e ->
  unmarshal_response (answer json_error now data) = Some (MkResponse [] 0 (to_valid 0 (error_text json_error data e)) (str_bytes "null")).
Proof.
  intros He. unfold answer. rewrite He.
  change (marshal_response _) with (Some (response_text [] 0 (error_text json_error data e) (str_bytes "null"))).
  by apply (unmarshal_response_text [] 0 (error_text json_error data e) 0 _ JNull); [|apply nested_null].
Qed.

(** The calls are numbered from one, until the numbers wrap around. *)
Definition counted (st : conn_state) : Prop :=
  Z.of_nat (length (calls st)) < 2 ^ 64 ->
  seq st = Z.of_nat (length (calls st)) /\
  (forall i c, calls st !! i = Some c -> Sequence c = Z.of_nat i + 1) /\
  pending st !! 0 = None.

Lemma counted_update st p c c' i :
  counted st -> calls st !! i = Some c -> Sequence c' = Sequence c -> p ⊆ pending st -> counted (set_calls st p (<[i := c']> (calls st))).
Proof.
  intros Hc Hi Hs Hp. unfold counted in *. cbn. rewrite length_insert. intros Hl. destruct (Hc Hl) as (Hseq & Hcs & H0).
  split_and!; [done| |by eapply lookup_weaken_None].
  intros j c0 [(-> & <- & _)|[_ Hj]]%list_lookup_insert_Some; [|by apply Hcs]. rewrite Hs. by apply Hcs.
Qed.

Lemma counted_fails st i c e : counted st -> calls st !! i = Some c -> counted (call_fails st i c e).
Proof. intros Hc Hi. by apply (counted_update st _ c); [..|apply delete_subseteq]. Qed.

Lemma counted_step st ev st' : counted st -> step json_error st ev = Some st' -> counted st'.
Proof.
  intros Hst. destruct ev as [method message|i ok|i|i|i|n|k now ok|n|k|k| |]; cbn [step].
  - intros [= <-]. unfold call_begin. rewrite marshal_request_text. unfold counted in *. cbn. rewrite length_app. cbn [length]. intros Hl.
    destruct Hst as (Hseq & Hcs & H0); [lia|]. unfold uwrap. rewrite Z.mod_small by lia.
    split_and!; [lia| |by rewrite lookup_insert_ne by lia].
    intros i c [Hi|[Hge E]]%lookup_app_Some; [by apply Hcs|]. destruct (i - length (calls st))%nat eqn:Hd; simplify_eq/=. lia.
  - destruct (calls st !! i) as [c|] eqn:Hi; [|done]. cbn. destruct (at_ c) as [request| |] eqn:Ha; [|done..]. intros [= <-].
    unfold call_send. destruct (negb _); [by apply counted_fails|].
    destruct (_ || _); [by apply counted_fails|].
    by apply (counted_update st (pending st) c (at_phase c Waiting) i).
  - destruct (waiting st i) as [c|] eqn:Hw; [|done]. apply waiting_spec in Hw as [Hi Ha]. cbn.
    destruct (Response c) as [r|] eqn:Hr; [|done]. intros [= <-]. by apply (counted_update st (pending st) c).
  - destruct (waiting st i) as [c|] eqn:Hw; [|done]. apply waiting_spec in Hw as [Hi Ha]. intros [= <-]. by apply counted_fails.
  - destruct (waiting st i) as [c|] eqn:Hw; [|done]. apply waiting_spec in Hw as [Hi Ha]. intros [= <-]. by apply counted_fails.
  - destruct (can_read _ _); [|done]. destruct (read_bytes _ _). by intros [= <-].
  - destruct (requests st !! k); [|done]. by intros [= <-].
  - destruct (_ && _); [|done]. destruct (read_bytes _ _). by intros [= <-].
  - destruct (responses st !! k) as [data|]; [|done]. intros [= <-]. unfold process_lookup.
    destruct (unmarshal_response data) as [r|]; [|done]. cbn [pending]. destruct (pending st !! _) as [i|] eqn:Hi; [|done].
    intros Hl. destruct (Hst Hl) as (Hseq & Hcs & H0). split_and!; [done..|]. cbn. by apply lookup_delete_None; right.
  - destruct (sending st !! k) as [[i r]|] eqn:Hk; [|done]. cbn. destruct (calls st !! i) as [c|] eqn:Hi; [|done]. intros [= <-].
    by apply (counted_update st (pending st) c (MkCall (ServiceMethod c) (Message c) (Sequence c) (Some (default r (Response c))) true (at_ c)) i).
  - destruct (connected st); [|done]. by intros [= <-].
  - by intros [= <-].
Qed.

Lemma counted_new : counted NewSimpleClient.
Proof. by intros _. Qed.

(** An error of the server does not reach the call that it answers.  The error response carries the sequence number 0,
    which no call of the first 2^64 - 1 has: the client drops it, and the pending calls, the calls and their channels stay as they
    are.  The call waits for its context or for the timeout of ten seconds. *)
Theorem sa_error_is_lost evs st now data e k :
  run json_error NewSimpleClient evs = Some st -> Z.of_nat (length (calls st)) < 2 ^ 64 ->
  handleRequest now data = inr e -> responses st !! k = Some (answer json_error now data) ->
  exists st', step json_error st (EvProcess k) = Some st' /\
    pending st' = pending st /\ calls st' = calls st /\ sending st' = sending st /\ responses st' = delete k (responses st).
Proof.
  intros Hrun Hl He Hk. destruct (client_run_inv counted _ _ _ counted_step counted_new Hrun Hl) as (_ & _ & H0).
  cbn [step]. rewrite Hk. cbn [mbind option_bind]. eexists. split; [done|]. unfold process_lookup.
  rewrite (unmarshal_answer_error _ _ _ He). cbn [rs_Sequence pending]. by rewrite H0.
Qed.

(** ** Messages read one by one *)

(** The reads take one message each, and the server's clock and writes are well. *)
Definition framed (st : conn_state) (ev : event) : bool :=
  match ev with
  | EvServerRead n => match upstream st with m :: _ => bool_decide (n = length m) | [] => false end
  | EvClientRead n => match downstream st with m :: _ => bool_decide (n = length m) | [] => false end
  | EvServe k now ok => bool_decide (0 <= now < 2 ^ 63) && ok
  | _ => true
  end.

Fixpoint framed_run (st : conn_state) (evs : list event) : bool :=
  match evs with
  | [] => true
  | ev :: evs => framed st ev && match step json_error st ev with Some st => framed_run st evs | None => true end
  end.

Definition call_text (c : SimpleCall) : list byte := request_text (ServiceMethod c) (Sequence c) (Message c).

Definition echoes (c : SimpleCall) : Prop := to_valid 0 (ServiceMethod c) = echo_method.

Definition sent (c : SimpleCall) : Prop := match at_ c with Sending _ => False | _ => True end.

(** A response that answers a call. *)
Definition answers (c : SimpleCall) (r : SimpleJsonResponse) : Prop :=
  echoes c /\ exists now, clock_ok now /\ r = echo_response (Sequence c) (Message c) now.

(** A text from the server: an error, or the answer to a call that was sent. *)
Definition server_text (cs : list SimpleCall) (d : list byte) : Prop :=
  exists r, unmarshal_response d = Some r /\
    (rs_Sequence r = 0 \/ exists i c, cs !! i = Some c /\ sent c /\ answers c r).

(** The request of a waiting call, or its answer, is on its way. *)
Definition on_its_way (p : gmap Z nat) (sd : list (nat * SimpleJsonResponse)) (up down : list (list byte))
    (i : nat) (c : SimpleCall) : Prop :=
  (p !! Sequence c = Some i /\
    (call_text c ∈ up \/ exists d r, d ∈ down /\ unmarshal_response d = Some r /\ answers c r))
  \/ i ∈ sd.*1 \/ Response c <> None.

Record traced (p : gmap Z nat) (cs : list SimpleCall) (sd : list (nat * SimpleJsonResponse)) (up down : list (list byte)) :
    Prop := {
  tr_up d : d ∈ up -> exists i c, cs !! i = Some c /\ sent c /\ d = call_text c;
  tr_down d : d ∈ down -> server_text cs d;
  tr_sending i c d : cs !! i = Some c -> at_ c = Sending d -> d = call_text c /\ p !! Sequence c = Some i;
  tr_waiting i c : cs !! i = Some c -> at_ c = Waiting -> echoes c -> on_its_way p sd up down i c;
  tr_got i c r : cs !! i = Some c -> (i, r) ∈ sd \/ Response c = Some r \/ at_ c = Returned (inl r) -> answers c r;
  tr_error i c e : cs !! i = Some c -> at_ c = Returned (inr (ErrRpc e)) -> False
}.

(** Calls that differ in their progress only. *)
Definition same_call (c c' : SimpleCall) : Prop :=
  ServiceMethod c' = ServiceMethod c /\ Message c' = Message c /\ Sequence c' = Sequence c /\ (sent c -> sent c').

Lemma same_text c c' : same_call c c' -> call_text c' = call_text c.
Proof. intros (H1 & H2 & H3 & _). unfold call_text. by rewrite H1, H2, H3. Qed.

Lemma same_answers c c' r : same_call c c' -> answers c r -> answers c' r.
Proof. intros (H1 & H2 & H3 & _). unfold answers, echoes. by rewrite H1, H2, H3. Qed.

Lemma server_text_update cs i c c' d :
  cs !! i = Some c -> same_call c c' -> server_text cs d -> server_text (<[i := c']> cs) d.
Proof.
  intros Hi Hs (r & Hr & Hc). exists r. split; [done|]. destruct Hc as [H0|(j & cj & Hj & Hsent & Ha)]; [by left|]. right.
  destruct (decide (j = i)) as [->|Hne]; [|by exists j, cj; rewrite list_lookup_insert_ne].
  simplify_eq. exists i, c'. rewrite list_lookup_insert_eq by (by eapply lookup_lt_Some).
  split_and!; [done|by apply Hs|by eapply same_answers].
Qed.

(** A call that moves on. *)
Lemma traced_update p p' cs sd up up' down i c c' :
  traced p cs sd up down -> cs !! i = Some c -> same_call c c' -> sent c' ->
  (forall j cj, cs !! j = Some cj -> j <> i -> p !! Sequence cj = Some j -> p' !! Sequence cj = Some j) ->
  (forall d, d ∈ up -> d ∈ up') -> (forall d, d ∈ up' -> d ∈ up \/ d = call_text c) ->
  (at_ c' = Waiting -> echoes c -> on_its_way p' sd up' down i c') ->
  (forall r, Response c' = Some r -> answers c r) -> (forall r, at_ c' = Returned (inl r) -> answers c r) ->
  (forall e, at_ c' <> Returned (inr (ErrRpc e))) ->
  traced p' (<[i := c']> cs) sd up' down.
Proof.
  intros [Hup Hdn Hsn Hw Hg He] Hi Hsame Hsent Hp Hu Hu' Hway Hresp Hret Herr.
  split.
  - intros d Hd. assert (exists j cj, cs !! j = Some cj /\ (sent cj \/ j = i) /\ d = call_text cj) as (j & cj & Hj & Hsj & ->).
    { destruct (Hu' d Hd) as [(j & cj & ? & ? & ->)%Hup| ->]; [exists j, cj; auto|exists i, c; auto]. }
    destruct (decide (j = i)) as [->|Hne].
    + simplify_eq. exists i, c'. rewrite list_lookup_insert_eq by (by eapply lookup_lt_Some). by rewrite (same_text c c').
    + exists j, cj. rewrite list_lookup_insert_ne by done. split_and!; [done|by destruct Hsj|done].
  - intros d Hd. eapply server_text_update; eauto.
  - intros j cj d [(<- & <- & _)|[Hne Hj]]%list_lookup_insert_Some Ha; [by unfold sent in Hsent; rewrite Ha in Hsent|].
    destruct (Hsn j cj d Hj Ha) as [-> Hpj]. auto.
  - intros j cj [(<- & <- & _)|[Hne Hj]]%list_lookup_insert_Some Ha Hec.
    + apply Hway; [done|]. destruct Hsame as (E & _). unfold echoes in *. by rewrite <- E.
    + destruct (Hw j cj Hj Ha Hec) as [[Hpj Hor]|Hr]; [left|by right].
      split; [by apply Hp|]. destruct Hor as [?|?]; [left; auto|by right].
  - intros j cj r [(<- & <- & _)|[Hne Hj]]%list_lookup_insert_Some Hor; [|by apply (Hg j)].
    apply (same_answers c); [done|]. destruct Hor as [?|[?|?]]; [by apply (Hg i c r Hi); left|auto|auto].
  - intros j cj e [(<- & <- & _)|[Hne Hj]]%list_lookup_insert_Some; [apply Herr|by apply (He j)].
Qed.

Lemma traced_ext p cs sd up up' down down' :
  traced p cs sd up down -> (forall d, d ∈ up <-> d ∈ up') -> (forall d, d ∈ down <-> d ∈ down') -> traced p cs sd up' down'.
Proof.
  intros [Hup Hdn Hsn Hw Hg He] Hu Hd. split; [by intros d ?%Hu; auto|by intros d ?%Hd; auto|done| |done|done].
  intros i c Hi Ha Hec. destruct (Hw i c Hi Ha Hec) as [[Hp Hor]|?]; [left|by right]. split; [done|].
  destruct Hor as [?|(d & r & ? & ?)]; [left; by apply Hu|right; exists d, r; by rewrite <- Hd].
Qed.

Lemma traced_begin p cs sd up down c :
  traced p cs sd up down -> (forall j cj, cs !! j = Some cj -> Sequence cj <> Sequence c) ->
  (forall i r, (i, r) ∈ sd -> (i < length cs)%nat) ->
  at_ c = Sending (call_text c) -> Response c = None -> traced (<[Sequence c := length cs]> p) (cs ++ [c]) sd up down.
Proof.
  intros [Hup Hdn Hsn Hw Hg He] Hfresh Hsd Ha Hr.
  assert (forall j cj, cs !! j = Some cj -> (cs ++ [c]) !! j = Some cj) as Happ by (intros; by apply lookup_app_l_Some).
  assert (forall j cj, (cs ++ [c]) !! j = Some cj -> cs !! j = Some cj \/ (j = length cs /\ cj = c)) as Hinv.
  { intros j cj [?|[Hle E]]%lookup_app_Some; [by left|right]. destruct (j - length cs)%nat eqn:Ej; simplify_eq/=. split; [lia|done]. }
  split.
  - intros d (j & cj & ? & ? & ?)%Hup. exists j, cj. auto.
  - intros d (r & ? & Hor)%Hdn. exists r. split; [done|]. destruct Hor as [?|(j & cj & ? & ?)]; [by left|right; exists j, cj; auto].
  - intros j cj d [Hj|[-> ->]]%Hinv Hcj.
    + destruct (Hsn j cj d Hj Hcj). split; [done|]. rewrite lookup_insert_ne; [done|]. apply not_eq_sym. by eapply Hfresh.
    + rewrite Ha in Hcj. simplify_eq. by rewrite lookup_insert_eq.
  - intros j cj [Hj|[-> ->]]%Hinv Hcj Hec; [|by rewrite Ha in Hcj].
    destruct (Hw j cj Hj Hcj Hec) as [[? ?]|?]; [left|by right]. split; [|done].
    rewrite lookup_insert_ne; [done|]. apply not_eq_sym. by eapply Hfresh.
  - intros j cj r [Hj|[-> ->]]%Hinv; [by apply (Hg j)|]. intros [Hin%Hsd|[?|?]]; [lia|congruence|congruence].
  - intros j cj e [Hj|[-> ->]]%Hinv; [by apply (He j)|]. congruence.
Qed.

Lemma handleRequest_unknown now c :
  in_u 64 (Sequence c) -> ~ echoes c -> handleRequest now (call_text c) = inr (ErrUnknownMethod (to_valid 0 (ServiceMethod c))).
Proof.
  intros Hs Hm. unfold handleRequest, call_text. rewrite unmarshal_request_text by done. cbn [rq_ServiceMethod].
  by rewrite bool_decide_eq_true_2.
Qed.

Lemma answer_echoes now c :
  in_u 64 (Sequence c) -> clock_ok now -> echoes c ->
  exists r, unmarshal_response (answer json_error now (call_text c)) = Some r /\ answers c r.
Proof. intros Hs Hn Hc. eexists. split; [by apply unmarshal_answer_echo|]. split; [done|]. by exists now. Qed.

Lemma traced_serve p cs sd up down d now :
  traced p cs sd (d :: up) down -> (forall i c, cs !! i = Some c -> in_u 64 (Sequence c)) -> clock_ok now ->
  traced p cs sd up (answer json_error now d :: down).
Proof.
  intros [Hup Hdn Hsn Hw Hg He] Hu Hn. split; [intros d' ?; apply Hup; by right| |done| |done|done].
  - intros d' [->|?]%elem_of_cons; [|by apply Hdn]. destruct (Hup d) as (i & c & Hi & Hsent & ->); [by left|].
    destruct (decide (to_valid 0 (ServiceMethod c) = echo_method)) as [Hec|Hec].
    + destruct (answer_echoes now c) as (r & Hr & Ha); [by eapply Hu|done|done|]. exists r. split; [done|]. right. by exists i, c.
    + eexists. split; [apply unmarshal_answer_error, handleRequest_unknown; [by eapply Hu|done]|by left].
  - intros i c Hi Ha Hec. destruct (Hw i c Hi Ha Hec) as [[Hp Hor]|?]; [left|by right]. split; [done|].
    destruct Hor as [[<-|?]%elem_of_cons|(d' & r & ? & ?)]; [|by left|right; exists d', r; split; [by right|done]].
    right. destruct (answer_echoes now c) as (r & Hr & Hans); [by eapply Hu|done|done|].
    exists (answer json_error now (call_text c)), r. split; [by left|done].
Qed.

Lemma answers_sequence c r : answers c r -> rs_Sequence r = Sequence c /\ rs_Error r = [].
Proof. by intros (_ & now & _ & ->). Qed.

Lemma traced_drop p cs sd up down d r :
  traced p cs sd up (d :: down) -> unmarshal_response d = Some r -> p !! rs_Sequence r = None -> traced p cs sd up down.
Proof.
  intros [Hup Hdn Hsn Hw Hg He] Hr Hp. split; [done|intros d' ?; apply Hdn; by right|done| |done|done].
  intros i c Hi Ha Hec. destruct (Hw i c Hi Ha Hec) as [[Hpi Hor]|?]; [left|by right]. split; [done|].
  destruct Hor as [?|(d' & r' & [->|?]%elem_of_cons & Hr' & Hans)]; [by left| |right; by exists d', r'].
  simplify_eq. apply answers_sequence in Hans as [E _]. congruence.
Qed.

Lemma traced_take p cs sd up down d r i :
  traced p cs sd up (d :: down) -> unmarshal_response d = Some r -> p !! rs_Sequence r = Some i -> p !! 0 = None ->
  (forall s j, p !! s = Some j -> exists c, cs !! j = Some c /\ Sequence c = s) ->
  (forall j k cj ck, cs !! j = Some cj -> cs !! k = Some ck -> Sequence cj = Sequence ck -> j = k) ->
  traced (delete (rs_Sequence r) p) cs (sd ++ [(i, r)]) up down.
Proof.
  intros [Hup Hdn Hsn Hw Hg He] Hr Hp H0 Hsafe Huniq.
  destruct (Hdn d) as (r' & Hr' & Hor); [by left|]. simplify_eq. destruct Hor as [E|(k & c & Hk & Hsent & Hans)]; [by rewrite E in Hp; simplify_eq|].
  apply answers_sequence in Hans as Hseq. destruct Hseq as [Hseq _].
  assert (k = i) as ->. { destruct (Hsafe _ _ Hp) as (c' & Hc' & E). apply (Huniq k i c c'); congruence. }
  split; [done|intros d' ?; apply Hdn; by right| | | |done].
  - intros j cj d' Hj Ha. destruct (Hsn j cj d' Hj Ha) as [-> Hpj]. split; [done|]. rewrite lookup_delete_ne; [done|].
    intros E. rewrite Hseq in E. pose proof (Huniq _ _ _ _ Hk Hj E). subst j. simplify_eq. unfold sent in Hsent. by rewrite Ha in Hsent.
  - intros j cj Hj Ha Hec. destruct (decide (j = i)) as [->|Hne].
    { right. left. rewrite fmap_app. apply elem_of_app. right. by left. }
    assert (rs_Sequence r <> Sequence cj) as Hs. { intros E. rewrite Hseq in E. by apply Hne, (Huniq j i cj c). }
    destruct (Hw j cj Hj Ha Hec) as [[Hpj Hor]|[?|?]].
    + left. split; [by rewrite lookup_delete_ne|]. destruct Hor as [?|(d' & r' & [->|?]%elem_of_cons & Hr2 & Hans')]; [by left| |right; by exists d', r'].
      simplify_eq. by apply answers_sequence in Hans' as [? _].
    + right. left. rewrite fmap_app. apply elem_of_app. by left.
    + by right; right.
  - intros j cj r' Hj [[?|E%list_elem_of_singleton]%elem_of_app|?]; [by apply (Hg j); auto| |by apply (Hg j); auto].
    by simplify_eq.
Qed.

Lemma traced_deliver p cs sd up down k i r c :
  traced p cs sd up down -> sd !! k = Some (i, r) -> cs !! i = Some c -> Response c = None ->
  traced p (<[i := MkCall (ServiceMethod c) (Message c) (Sequence c) (Some r) true (at_ c)]> cs) (delete k sd) up down.
Proof.
  intros Ht Hk Hi Hr. set (c' := MkCall _ _ _ _ _ _). apply delete_Permutation in Hk as Hperm. pose proof Ht as [Hup Hdn Hsn Hw Hg He].
  assert (answers c r) as Hans by (apply (Hg i c r Hi); left; by eapply list_elem_of_lookup_2).
  assert (same_call c c') as Hsame by done.
  assert (forall d, d ∈ delete k sd -> d ∈ sd) as Hsub by (intros d Hd; rewrite Hperm; by right).
  split.
  - intros d (j & cj & Hj & Hsent & ->)%Hup. destruct (decide (j = i)) as [->|Hne]; [|by exists j, cj; rewrite list_lookup_insert_ne].
    simplify_eq. exists i, c'. by rewrite list_lookup_insert_eq by (by eapply lookup_lt_Some).
  - intros d Hd. eapply server_text_update; eauto.
  - intros j cj d [(<- & <- & _)|[Hne Hj]]%list_lookup_insert_Some Ha; [by apply (Hsn i c)|by apply Hsn].
  - intros j cj [(<- & <- & _)|[Hne Hj]]%list_lookup_insert_Some Ha Hec; [by right; right|].
    destruct (Hw j cj Hj Ha Hec) as [?|[Hin|?]]; [by left| |by right; right]. right. left. rewrite Hperm in Hin.
    cbn [fmap list_fmap fst] in Hin. apply elem_of_cons in Hin as [->|?]; done.
  - intros j cj r' [(<- & <- & _)|[Hne Hj]]%list_lookup_insert_Some Hor.
    + apply (same_answers c); [done|]. destruct Hor as [?|[[= <-]|?]]; [apply (Hg i c r' Hi); left; auto|done|by apply (Hg i c r' Hi); auto].
    + apply (Hg j cj r' Hj). destruct Hor as [?|?]; auto.
  - intros j cj e [(<- & <- & _)|[Hne Hj]]%list_lookup_insert_Some; [by apply (He i c)|by apply (He j)].
Qed.

Definition traced_state (st : conn_state) : Prop :=
  traced (pending st) (calls st) (sending st) (upstream st ++ requests st) (downstream st ++ responses st).

Definition numbered (st : conn_state) : Prop :=
  (forall i c, calls st !! i = Some c -> in_u 64 (Sequence c)) /\
  (forall i j ci cj, calls st !! i = Some ci -> calls st !! j = Some cj -> Sequence ci = Sequence cj -> i = j) /\
  pending st !! 0 = None.

Lemma counted_numbered st : counted st -> Z.of_nat (length (calls st)) < 2 ^ 64 -> numbered st.
Proof.
  intros Hc Hl. destruct (Hc Hl) as (_ & Hcs & H0). split_and!; [| |done].
  - intros i c Hi. apply lookup_lt_Some in Hi as Hlt. rewrite (Hcs i c Hi). unfold in_u. lia.
  - intros i j ci cj Hi Hj. rewrite (Hcs i ci Hi), (Hcs j cj Hj). lia.
Qed.

Lemma read_one_message m ms : Forall (fun d => d <> []) ms -> read_bytes (length m) (m :: ms) = (m, ms).
Proof.
  intros Hms. cbn [read_bytes]. rewrite bool_decide_eq_false_2, Nat.sub_diag by lia.
  destruct Hms as [|d ms Hd Hms]; cbn [read_bytes]; [by rewrite app_nil_r|].
  rewrite bool_decide_eq_true_2 by (destruct d; [done|simpl; lia]). by rewrite take_0, drop_0, app_nil_r.
Qed.

Lemma traced_nonempty p cs sd up down : traced p cs sd up down -> Forall (fun d => d <> []) (up ++ down).
Proof.
  intros [Hup Hdn _ _ _ _]. apply Forall_forall. intros d [(i & c & _ & _ & ->)%Hup|(r & Hr & _)%Hdn]%elem_of_app; [done|].
  by intros ->.
Qed.

Lemma traced_fails st i c e :
  traced_state st -> numbered st -> calls st !! i = Some c -> (forall t, e <> ErrRpc t) -> traced_state (call_fails st i c e).
Proof.
  intros Ht (_ & Huniq & _) Hi He. pose proof Ht as [_ _ _ _ Hg _].
  apply (traced_update (pending st) _ _ _ (upstream st ++ requests st) _ _ i c); [done|done|done|done| |done|by left|done| |done|].
  - intros j cj Hj Hne Hp. cbn. rewrite lookup_delete_ne; [done|]. intros E. by apply Hne, (Huniq j i cj c).
  - intros r Hr. by apply (Hg i c r Hi); right; left.
  - cbn. intros t [= E]. by eapply He.
Qed.

Lemma traced_begins st method message :
  traced_state st -> safe_state st -> numbered (call_begin st method message) -> traced_state (call_begin st method message).
Proof.
  unfold call_begin. rewrite marshal_request_text. set (s := uwrap 64 _). intros Ht (Hs & _) (_ & Huniq & _).
  apply (traced_begin _ _ _ _ _ (MkCall method message s None false (Sending (request_text method s message)))); [done| | |done|done].
  - intros j cj Hj E. cbn in Huniq. apply lookup_lt_Some in Hj as Hlt.
    assert (j = length (calls st)); [|lia]. eapply Huniq; [by apply lookup_app_l_Some|by apply list_lookup_middle|done].
  - intros i r (c & Hi%lookup_lt_Some & _)%(safe_sending _ _ _ Hs). done.
Qed.

Lemma traced_sends st i c request ok :
  traced_state st -> numbered st -> calls st !! i = Some c -> at_ c = Sending request ->
  traced_state (call_send st i c request ok).
Proof.
  intros Ht Hn Hi Ha. unfold call_send. destruct (negb _); [by apply traced_fails|]. destruct (_ || _); [by apply traced_fails|].
  pose proof Ht as [_ _ Hsn _ Hg _]. destruct (Hsn i c request Hi Ha) as [-> Hp]. unfold traced_state. cbn.
  apply (traced_update (pending st) _ _ _ (upstream st ++ requests st) _ _ i c); [done|done|by split_and!|done|done|set_solver|set_solver| | |done|done].
  - intros _ Hec. left. split; [done|]. left. apply elem_of_app. left. apply elem_of_app. right. by left.
  - intros r Hr. by apply (Hg i c r Hi); right; left.
Qed.

Lemma traced_receives st i c r :
  traced_state st -> calls st !! i = Some c -> Response c = Some r -> traced_state (call_receive st i c r).
Proof.
  intros Ht Hi Hr. pose proof Ht as [_ _ _ _ Hg _]. assert (answers c r) as Hans by (apply (Hg i c r Hi); auto).
  unfold call_receive. destruct (answers_sequence _ _ Hans) as [_ E]. rewrite E, bool_decide_eq_false_2 by auto.
  apply (traced_update (pending st) _ _ _ (upstream st ++ requests st) _ _ i c); [done|done|done|done|done|done|by left|done|done| |done].
  by intros r' [= <-].
Qed.

Lemma elem_of_deleted {A} k (l : list A) x : l !! k = Some x -> forall y, y ∈ l <-> y ∈ x :: delete k l.
Proof. intros Hk y. by rewrite (delete_Permutation l k x Hk) at 1. Qed.

Lemma traced_processes st k data :
  traced_state st -> safe_state st -> numbered st -> responses st !! k = Some data -> traced_state (process_lookup st k data).
Proof.
  intros Ht (Hs & _) (_ & Huniq & H0) Hk. pose proof (elem_of_deleted k _ _ Hk) as Hel.
  assert (traced (pending st) (calls st) (sending st) (upstream st ++ requests st) (data :: downstream st ++ delete k (responses st))) as Ht'.
  { eapply traced_ext; [exact Ht|done|]. intros d. rewrite elem_of_app, Hel, !elem_of_cons, elem_of_app. tauto. }
  unfold process_lookup. destruct (tr_down _ _ _ _ _ Ht' data) as (r & Hr & _); [by left|]. rewrite Hr. cbn [pending].
  destruct (pending st !! rs_Sequence r) as [i|] eqn:Hp; [|by eapply traced_drop].
  eapply traced_take; [done|done|done|done| |done].
  intros s j (Hj & _)%(safe_pending _ _ _ Hs). destruct Hj as (c & ? & ? & _). eauto.
Qed.

Lemma traced_reads {A} (x : A) d (l ms : list A) : x ∈ (d :: l) ++ ms <-> x ∈ l ++ ms ++ [d].
Proof. set_solver. Qed.

Lemma traced_step st ev st' :
  traced_state st -> safe_state st -> numbered st -> numbered st' -> framed st ev = true ->
  step json_error st ev = Some st' -> traced_state st'.
Proof.
  intros Ht Hs Hn Hn' Hf. pose proof (traced_nonempty _ _ _ _ _ Ht) as Hne.
  destruct ev as [method message|i ok|i|i|i|n|k now ok|n|k|k| |]; cbn [step framed] in *.
  - intros [= <-]. by apply traced_begins.
  - destruct (calls st !! i) as [c|] eqn:Hi; [|done]. cbn. destruct (at_ c) as [request| |] eqn:Ha; [|done..]. intros [= <-].
    by apply traced_sends.
  - destruct (waiting st i) as [c|] eqn:Hw; [|done]. apply waiting_spec in Hw as [Hi Ha]. cbn.
    destruct (Response c) as [r|] eqn:Hr; [|done]. intros [= <-]. by apply traced_receives.
  - destruct (waiting st i) as [c|] eqn:Hw; [|done]. apply waiting_spec in Hw as [Hi Ha]. intros [= <-]. by apply traced_fails.
  - destruct (waiting st i) as [c|] eqn:Hw; [|done]. apply waiting_spec in Hw as [Hi Ha]. intros [= <-]. by apply traced_fails.
  - destruct (can_read _ _); [|done]. unfold traced_state in *. destruct (upstream st) as [|m ms] eqn:E; [done|]. apply bool_decide_eq_true in Hf as ->.
    rewrite read_one_message by (decompose_Forall; done). intros [= <-]. cbn. eapply traced_ext; [exact Ht| |done].
    intros d. apply traced_reads.
  - destruct (requests st !! k) as [d|] eqn:Hk; [|done]. apply andb_true_iff in Hf as [Hnow%bool_decide_eq_true ->]. intros [= <-]. pose proof (elem_of_deleted k _ _ Hk) as Hel.
    assert (traced (pending st) (calls st) (sending st) (d :: upstream st ++ delete k (requests st)) (downstream st ++ responses st)) as Ht'.
    { eapply traced_ext; [exact Ht| |done]. intros d'. rewrite elem_of_app, Hel, !elem_of_cons, elem_of_app. tauto. }
    unfold traced_state. cbn. eapply traced_ext; [eapply traced_serve; [exact Ht'|apply Hn|done]|done|]. set_solver.
  - destruct (_ && _); [|done]. unfold traced_state in *. destruct (downstream st) as [|m ms] eqn:E; [done|]. apply bool_decide_eq_true in Hf as ->.
    rewrite read_one_message by (decompose_Forall; done). intros [= <-]. cbn. eapply traced_ext; [exact Ht|done|].
    intros d. apply traced_reads.
  - destruct (responses st !! k) as [data|] eqn:Hk; [|done]. intros [= <-]. by apply traced_processes.
  - destruct (sending st !! k) as [[i r]|] eqn:Hk; [|done]. cbn. destruct (calls st !! i) as [c|] eqn:Hi; [|done]. intros [= <-].
    destruct Hs as (Hs & _). destruct (safe_deliver _ _ _ _ _ _ _ Hs Hk Hi) as (Hr & _). unfold process_deliver. rewrite Hr.
    by apply traced_deliver.
  - destruct (connected st); [|done]. by intros [= <-].
  - by intros [= <-].
Qed.

Lemma step_grows st ev st' : step json_error st ev = Some st' -> (length (calls st) <= length (calls st'))%nat.
Proof.
  destruct ev as [method message|i ok|i|i|i|n|k now ok|n|k|k| |]; cbn [step].
  - intros [= <-]. unfold call_begin. rewrite marshal_request_text. cbn. rewrite length_app. lia.
  - destruct (calls st !! i) as [c|]; [|done]. cbn. destruct (at_ c); [|done..]. intros [= <-].
    unfold call_send. destruct (negb _); [|destruct (_ || _)]; cbn; by rewrite length_insert.
  - destruct (waiting st i) as [c|]; [|done]. cbn. destruct (Response c); [|done]. intros [= <-]. cbn. by rewrite length_insert.
  - destruct (waiting st i) as [c|]; [|done]. intros [= <-]. cbn. by rewrite length_insert.
  - destruct (waiting st i) as [c|]; [|done]. intros [= <-]. cbn. by rewrite length_insert.
  - destruct (can_read _ _); [|done]. destruct (read_bytes _ _). by intros [= <-].
  - destruct (requests st !! k); [|done]. by intros [= <-].
  - destruct (_ && _); [|done]. destruct (read_bytes _ _). by intros [= <-].
  - destruct (responses st !! k) as [data|]; [|done]. intros [= <-]. unfold process_lookup.
    destruct (unmarshal_response data); [|done]. cbn [pending]. by destruct (pending st !! _).
  - destruct (sending st !! k) as [[i r]|]; [|done]. cbn. destruct (calls st !! i); [|done]. intros [= <-]. cbn. by rewrite length_insert.
  - destruct (connected st); [|done]. by intros [= <-].
  - by intros [= <-].
Qed.

Lemma run_grows evs st st' : run json_error st evs = Some st' -> (length (calls st) <= length (calls st'))%nat.
Proof.
  revert st. induction evs as [|ev evs IH]; intros st; cbn [run]; [by intros [= <-]|].
  destruct (step json_error st ev) as [st1|] eqn:E; [|done]. cbn. intros ?%IH. apply step_grows in E. lia.
Qed.

Lemma traced_run evs st st' :
  traced_state st -> safe_state st -> counted st -> framed_run st evs = true -> run json_error st evs = Some st' ->
  Z.of_nat (length (calls st')) < 2 ^ 64 -> traced_state st'.
Proof.
  revert st. induction evs as [|ev evs IH]; intros st Ht Hs Hc; cbn [run framed_run]; [by intros _ [= <-]|].
  intros [Hf Hfs]%andb_true_iff. destruct (step json_error st ev) as [st1|] eqn:E; [|done]. cbn. intros Hrun Hl.
  apply step_grows in E as Hg1. apply run_grows in Hrun as Hg2.
  pose proof (safe_step _ _ _ Hs E) as Hs1. pose proof (counted_step _ _ _ Hc E) as Hc1.
  apply (IH st1); [|done..]. eapply traced_step; [done|done| | |done|done]; apply counted_numbered; (done || lia).
Qed.

Lemma traced_new : traced_state NewSimpleClient.
Proof. split; try done; by intros d ?%elem_of_nil. Qed.

Lemma CallEcho_answer c r :
  answers c r -> exists now, clock_ok now /\ CallEcho (inl r) = inl (to_valid 0 (Message c), Z.quot now 1000000).
Proof.
  intros (_ & now & Hn & ->). exists now. split; [done|]. apply echo_time in Hn. unfold CallEcho, echo_response, Echo. cbn [rs_Reply].
  rewrite unmarshal_reply_text by done. cbn [er_Message er_Time]. by rewrite to_valid_idem.
Qed.

(** Echo, end to end.  As long as every read takes one message, whatever the interleaving: a [CallEcho] that gets a response
    returns the message that it sent (with the replacement character for bytes that are not UTF-8) and the server's clock
    in milliseconds; a call of another method gets no response; and no call returns an error of the server. *)
Theorem sa_echo_results evs st i c :
  run json_error NewSimpleClient evs = Some st -> framed_run NewSimpleClient evs = true ->
  Z.of_nat (length (calls st)) < 2 ^ 64 -> calls st !! i = Some c ->
  (forall r, at_ c = Returned (inl r) ->
     to_valid 0 (ServiceMethod c) = echo_method /\
     exists now, clock_ok now /\ CallEcho (inl r) = inl (to_valid 0 (Message c), Z.quot now 1000000)) /\
  (forall e, at_ c <> Returned (inr (ErrRpc e))).
Proof.
  intros Hrun Hf Hl Hi. pose proof (traced_run _ _ _ traced_new safe_new counted_new Hf Hrun Hl) as [_ _ _ _ Hg He].
  split; [|intros e Ha; by eapply He]. intros r Ha. assert (answers c r) as Hans by (apply (Hg i c r Hi); auto).
  split; [apply Hans|by apply CallEcho_answer].
Qed.

(** C7: every echo is answered.  As long as every read takes one message and no write of the server fails: once the socket and
    the goroutines are drained, each call of the echo method that still waits has its response in its channel, and
    returns with it: with the message it sent, in which bytes that are not UTF-8 are replaced. *)
Theorem sa_answered evs st i c :
  run json_error NewSimpleClient evs = Some st -> framed_run NewSimpleClient evs = true ->
  Z.of_nat (length (calls st)) < 2 ^ 64 ->
  upstream st = [] /\ requests st = [] /\ downstream st = [] /\ responses st = [] /\ sending st = [] ->
  calls st !! i = Some c -> at_ c = Waiting -> to_valid 0 (ServiceMethod c) = echo_method ->
  exists st' c' r, step json_error st (EvReceive i) = Some st' /\ calls st' !! i = Some c' /\ at_ c' = Returned (inl r) /\
    exists now, clock_ok now /\ CallEcho (inl r) = inl (to_valid 0 (Message c), Z.quot now 1000000).
Proof.
  intros Hrun Hf Hl (E1 & E2 & E3 & E4 & E5) Hi Ha Hec.
  pose proof (traced_run _ _ _ traced_new safe_new counted_new Hf Hrun Hl) as [_ _ _ Hw Hg _].
  rewrite E1, E2, E3, E4, E5 in Hw. cbn [app] in Hw.
  destruct (Hw i c Hi Ha Hec) as [[_ [?%elem_of_nil|(d & r & ?%elem_of_nil & _)]]|[?%elem_of_nil|Hr]]; [done..|].
  destruct (Response c) as [r|] eqn:E; [|done]. assert (answers c r) as Hans by (apply (Hg i c r Hi); auto).
  cbn [step]. unfold waiting. rewrite Hi. cbn. rewrite Ha. cbn. rewrite E. cbn.
  destruct (answers_sequence _ _ Hans) as [_ Her]. do 3 eexists. split; [done|]. unfold call_receive. cbn.
  rewrite list_lookup_insert_eq by (by eapply lookup_lt_Some). split; [done|]. cbn [at_]. rewrite Her, bool_decide_eq_false_2 by auto.
  split; [done|]. by apply CallEcho_answer.
Qed.

(** Without framing, requests are lost.  Two requests that one read takes together are refused as one; and the first read of a
    request that is longer than the buffer of 4096 bytes is refused.  In both cases the client gets an error response only,
    which it drops. *)
Theorem sa_no_framing now c1 c2 rest n data rest' :
  in_u 64 (Sequence c1) ->
  handleRequest now (call_text c1 ++ call_text c2) = inr ErrInvalidRequest /\
  ((buffer_size < length (call_text c1))%nat -> can_read n (call_text c1 :: rest) = true ->
   read_bytes n (call_text c1 :: rest) = (data, rest') -> handleRequest now data = inr ErrInvalidRequest).
Proof.
  intros Hs. pose proof (request_value (ServiceMethod c1) (Sequence c1) (Message c1) Hs) as Hp. fold (call_text c1) in Hp.
  assert (exists l, call_text c1 = Byte.x7b :: l) as [l El] by (by eexists).
  assert (forall d, parse d = None -> handleRequest now d = inr ErrInvalidRequest) as Hno.
  { intros d Hd. unfold handleRequest, unmarshal_request, decode_struct. by rewrite Hd. }
  split.
  - apply Hno. rewrite El in *. by eapply parse_two.
  - intros Hlong Hcan Hread. apply Hno. unfold can_read in Hcan. apply andb_true_iff in Hcan as [Hn%bool_decide_eq_true _].
    cbn [read_bytes] in Hread. rewrite bool_decide_eq_true_2 in Hread by lia. injection Hread as <- <-.
    assert (exists y, call_text c1 = y ++ [Byte.x7d]) as [y Ey].
    { unfold call_text, request_text, object_text. eexists (_ :: _). done. }
    destruct n as [|n]; [lia|]. rewrite El. cbn [take]. eapply parse_cut.
    + cbn [app]. rewrite take_drop, <- El. exact Hp.
    + rewrite El in Ey, Hlong. destruct y as [|b y]; [done|]. injection Ey as _ ->. cbn [length] in Hlong.
      rewrite length_app in Hlong. cbn [length] in Hlong. rewrite drop_app_le by lia. by apply skip_space_snoc.
Qed.
End runs.

(** ** A call, end to end *)

Module Examples.

Definition no_text (data : list byte) : list byte := [].

Definition one_call : list event := [EvCall echo_method (str_bytes "hi"); EvSend 0 true].

Definition request_length : nat := length (request_text echo_method 1 (str_bytes "hi")).

Definition echoed : list event := one_call ++ [EvServerRead request_length; EvServe 0 1700000000000000000 true].

Definition response_length : nat :=
  length (response_text echo_method 1 [] (marshal_reply (Echo 1700000000000000000 (str_bytes "hi")))).

Definition answered : list event := echoed ++ [EvClientRead response_length; EvProcess 0; EvDeliver 0].

(** The state at the end of a run that is possible. *)
Definition after (evs : list event) : conn_state := default NewSimpleClient (run no_text NewSimpleClient evs).

Lemma after_run evs : is_Some (run no_text NewSimpleClient evs) -> run no_text NewSimpleClient evs = Some (after evs).
Proof. unfold after. by intros [st ->]. Qed.

(** The call of such a run, and what it returned. *)
Definition the_call (evs : list event) : SimpleCall :=
  default (MkCall [] [] 0 None false Waiting) (calls (after evs) !! 0%nat).

Definition the_response (evs : list event) : SimpleJsonResponse :=
  match at_ (the_call evs) with Returned (inl r) => r | _ => MkResponse [] 0 [] [] end.

Lemma sa_safe_witness : run no_text NewSimpleClient answered = Some (after answered) /\ panicked (after answered) = false.
Proof.
  assert (run no_text NewSimpleClient answered = Some (after answered)) as Hrun by (apply after_run; vm_compute; by eexists).
  split; [exact Hrun|]. apply (sa_safe no_text answered _ Hrun).
Defined.

(** A call of a method that the server does not know, up to the error response. *)
Definition refused : list event :=
  [EvCall (str_bytes "Nope") []; EvSend 0 true; EvServerRead (length (request_text (str_bytes "Nope") 1 []));
   EvServe 0 0 true;
   EvClientRead (length (answer no_text 0 (request_text (str_bytes "Nope") 1 [])))].

Lemma sa_error_is_lost_witness :
  exists st', step no_text (after refused) (EvProcess 0) = Some st' /\ pending st' = pending (after refused) /\
    pending st' !! 1 = Some 0%nat.
Proof.
  assert (run no_text NewSimpleClient refused = Some (after refused)) as Hrun by (apply after_run; vm_compute; by eexists).
  destruct (sa_error_is_lost no_text refused _ 0 (request_text (str_bytes "Nope") 1 []) (ErrUnknownMethod (str_bytes "Nope")) 0 Hrun)
    as (st' & Hst & Hp & _); [by vm_compute..|].
  exists st'. split_and!; [exact Hst|exact Hp|]. rewrite Hp. by vm_compute.
Defined.

Lemma sa_echo_results_witness :
  let evs := answered ++ [EvReceive 0] in
  at_ (the_call evs) = Returned (inl (the_response evs)) /\
  exists now, clock_ok now /\ CallEcho (inl (the_response evs)) = inl (str_bytes "hi", Z.quot now 1000000).
Proof.
  set (evs := answered ++ [EvReceive 0]). cbv zeta.
  assert (run no_text NewSimpleClient evs = Some (after evs)) as Hrun by (apply after_run; vm_compute; by eexists).
  assert (at_ (the_call evs) = Returned (inl (the_response evs))) as Hr by (vm_compute; reflexivity).
  split; [exact Hr|]. change (str_bytes "hi") with (to_valid 0 (str_bytes "hi")).
  replace (str_bytes "hi") with (Message (the_call evs)) by (vm_compute; reflexivity).
  apply (sa_echo_results no_text evs (after evs) 0 (the_call evs) Hrun);
    [vm_compute; reflexivity|vm_compute; reflexivity|vm_compute; reflexivity|exact Hr].
Defined.

Lemma sa_answered_witness :
  exists st', step no_text (after answered) (EvReceive 0) = Some st' /\ sending (after answered) = [].
Proof.
  assert (run no_text NewSimpleClient answered = Some (after answered)) as Hrun by (apply after_run; vm_compute; by eexists).
  destruct (sa_answered no_text answered (after answered) 0 (the_call answered) Hrun) as (st' & _ & _ & Hst & _);
    [vm_compute; reflexivity|vm_compute; reflexivity|split_and!; vm_compute; reflexivity|vm_compute; reflexivity..|].
  exists st'. split; [exact Hst|vm_compute; reflexivity].
Defined.

Lemma sa_no_framing_witness :
  let c := MkCall echo_method (str_bytes "hi") 1 None false Waiting in
  in_u 64 (Sequence c) /\ handleRequest 0 (call_text c ++ call_text c) = inr ErrInvalidRequest.
Proof. intros c. split; [done|]. apply (proj1 (sa_no_framing 0 c c [] 0 [] [] ltac:(done))). Defined.

End Examples.
