(* ===== verification/DbPool.v ===== *)
(** * The database pool ([pkg/db/connection_pool.go])

    The wrapper of the pool of pgx: its construction and health check, the contexts of
    statements, the statistics and the log of queries.  What the wrapped pool answers
    is given with each operation; how many rows of a query can still be read under a
    context is a class.  The rows that [CacheSync] reads come through this pool, which
    composes the two. *)

From stdpp Require Import base gmap strings numbers list.
From Stdlib Require Import ZArith Lia SpecFloat.
From S2P Require Import Prelude Float32 CacheSync.

Local Open Scope Z_scope.

(** ** Contexts *)

(** The deadline, if any, and whether [cancel] was called. *)
Record context := MkContext { deadline : option Z; cancelled : bool }.

Definition Background : context := MkContext None false.

Definition live (ctx : context) (now : Z) : bool :=
  negb (cancelled ctx) && match deadline ctx with Some d => now <? d | None => true end.

(** [context.WithTimeout] *)
Definition with_timeout (ctx : context) (now timeout : Z) : context :=
  MkContext (Some (match deadline ctx with Some d => Z.min d (now + timeout) | None => now + timeout end)) (cancelled ctx).

Definition cancel (ctx : context) : context := MkContext (deadline ctx) true.

(** [time.Duration.Milliseconds], of nanoseconds *)
Definition Milliseconds (d : Z) : Z := Z.quot d 1000000.

Definition max (a b : Z) : Z := if b <? a then a else b.

(** ** The database pool *)

(** The times are nanoseconds; the limits of the wrapped pool are handed on. *)
Record DBConfig := MkDBConfig {
  MaxConnections : Z;
  MinConnections : Z;
  ConnectTimeout : Z;
  QueryTimeout : Z
}.

Definition DefaultDBConfig : DBConfig :=
  {| MaxConnections := 20; MinConnections := 5; ConnectTimeout := 10 * 10 ^ 9; QueryTimeout := 30 * 10 ^ 9 |}.

(** The status of the last health check: none, success, or the error. *)
Inductive health := NotChecked | Healthy | Unhealthy (error : string).

Record PoolStats := MkPoolStats {
  TotalConnections : Z;
  IdleConnections : Z;
  ActiveConnections : Z;
  ps_MaxConnections : Z;
  AcquireCount : Z;
  AcquireDurationAvgMs : float64;
  QueriesExecuted : Z;
  AvgQueryDurationMs : float64;
  LastHealthCheckTime : Z;
  LastHealthCheckStatus : health
}.

Definition no_stats : PoolStats := MkPoolStats 0 0 0 0 0 (S754_zero false) 0 (S754_zero false) 0 NotChecked.

(** [queryLog] has the number of executions and the total time of each text;
    [pool_open] is the wrapped pool's. *)
Record pgConnPool := MkPool {
  config : DBConfig;
  stats : PoolStats;
  queryLog : gmap string (Z * Z);
  pool_open : bool
}.

Definition set_stats (p : pgConnPool) (s : PoolStats) : pgConnPool := MkPool (config p) s (queryLog p) (pool_open p).

Inductive PoolError := ErrParse | ErrConnect | ErrHealth (error : string) | ErrQuery (error : string) | ErrAcquire (error : string)
  | ErrExec (error : string) | ErrBegin (error : string).

(** The context of a statement: its own deadline when there is a query timeout. *)
Definition statement_context (p : pgConnPool) (now : Z) (ctx : context) : context :=
  if 0 <? QueryTimeout (config p) then with_timeout ctx now (QueryTimeout (config p)) else ctx.

(** That context after the function that made it has returned: [defer cancel()]. *)
Definition returned_context (p : pgConnPool) (now : Z) (ctx : context) : context :=
  if 0 <? QueryTimeout (config p) then cancel (statement_context p now ctx) else ctx.

Definition recordQueryStats (p : pgConnPool) (sql : string) (duration : Z) : pgConnPool :=
  let s := stats p in
  let executed := int64 (QueriesExecuted s + 1) in
  let currentCount := f64_of_int (int64 (executed - 1)) in
  let newDurationMs := f64_of_int (Milliseconds duration) in
  let avg := if SFltb (S754_zero false) currentCount
             then f64_div (f64_add (f64_mul (AvgQueryDurationMs s) currentCount) newDurationMs) (f64_of_int executed)
             else newDurationMs in
  let info := match queryLog p !! sql with
              | Some (count, total) => (int64 (count + 1), int64 (total + duration))
              | None => (1, duration)
              end in
  MkPool (config p)
    (MkPoolStats (TotalConnections s) (IdleConnections s) (ActiveConnections s) (ps_MaxConnections s) (AcquireCount s)
       (AcquireDurationAvgMs s) executed avg (LastHealthCheckTime s) (LastHealthCheckStatus s))
    (<[sql := info]> (queryLog p)) (pool_open p).

(** [time.Since], [elapsed] being what the monotonic clock shows. *)
Section rows.
Context {row : Type}.

(** Rows that the server has for the caller, and the context they are read under. *)
Record Rows := MkRows { rows_context : context; rows_all : list row }.

(** The answer of the wrapped pool: an error, or the rows of the statement. *)
Definition Query (p : pgConnPool) (now elapsed : Z) (ctx : context) (sql : string) (answer : list row + string) :
    pgConnPool * (Rows + PoolError) :=
  let p' := recordQueryStats p sql elapsed in
  match answer with
  | inr e => (p', inr (ErrQuery e))
  | inl rows => (p', inl (MkRows (returned_context p now ctx) rows))
  end.

(** A [Row] reports the error of the query when it is scanned. *)
Definition QueryRow (p : pgConnPool) (now elapsed : Z) (ctx : context) (sql : string) (answer : list row + string) :
    pgConnPool * (Rows + PoolError) :=
  let p' := recordQueryStats p sql elapsed in
  match answer with
  | inr e => (p', inr (ErrQuery e))
  | inl rows => (p', inl (MkRows (returned_context p now ctx) rows))
  end.
End rows.

Definition Exec (p : pgConnPool) (elapsed : Z) (sql : string) (answer : Z + string) : pgConnPool * (Z + PoolError) :=
  let p' := recordQueryStats p sql elapsed in
  match answer with inr e => (p', inr (ErrExec e)) | inl n => (p', inl n) end.

(** A connection or a transaction does not depend on the context it was got with. *)
Definition Acquire (answer : unit + string) : unit + PoolError :=
  match answer with inr e => inr (ErrAcquire e) | inl _ => inl tt end.

Definition Begin (answer : unit + string) : unit + PoolError :=
  match answer with inr e => inr (ErrBegin e) | inl _ => inl tt end.

(** The row is scanned before the context is cancelled; [answer] is the error of the
    scan. *)
Definition HealthCheck (p : pgConnPool) (now : Z) (answer : option string) : pgConnPool * option PoolError :=
  let s := stats p in
  let status h := MkPoolStats (TotalConnections s) (IdleConnections s) (ActiveConnections s) (ps_MaxConnections s) (AcquireCount s)
       (AcquireDurationAvgMs s) (QueriesExecuted s) (AvgQueryDurationMs s) now h in
  match answer with
  | Some e => (set_stats p (status (Unhealthy e)), Some (ErrHealth e))
  | None => (set_stats p (status Healthy), None)
  end.

(** The statistics of the wrapped pool. *)
Record pgx_Stat := MkStat {
  TotalConns : Z; IdleConns : Z; AcquiredConns : Z; MaxConns : Z; st_AcquireCount : Z; AcquireDuration : Z
}.

(** The caller gets a pointer to the statistics in the pool. *)
Definition Stats (p : pgConnPool) (st : pgx_Stat) : pgConnPool :=
  let s := stats p in
  set_stats p
    (MkPoolStats (TotalConns st) (IdleConns st) (AcquiredConns st) (MaxConns st) (st_AcquireCount st)
       (f64_div (f64_of_int (Milliseconds (AcquireDuration st))) (f64_of_int (max 1 (st_AcquireCount st))))
       (QueriesExecuted s) (AvgQueryDurationMs s) (LastHealthCheckTime s) (LastHealthCheckStatus s)).

Definition Close (p : pgConnPool) : pgConnPool := MkPool (config p) (stats p) (queryLog p) false.

(** What the wrapped pool answers to the construction: that the URL parses, that it
    connects, and the error of the health check.  The pool that is made is
    given with the error, to say what becomes of its connections. *)
Definition NewConnectionPool (cfg : option DBConfig) (now : Z) (parses connects : bool) (check : option string) :
    option pgConnPool * option PoolError :=
  let cfg := default DefaultDBConfig cfg in
  if negb parses then (None, Some ErrParse)
  else if negb connects then (None, Some ErrConnect)
  else let '(p, e) := HealthCheck (MkPool cfg no_stats ∅ true) now check in
       match e with Some e => (Some (Close p), Some e) | None => (Some p, None) end.

(** *** Sequences of operations *)

Section steps.
Context {row : Type}.

Inductive pool_op :=
  | OpQuery (now elapsed : Z) (ctx : context) (sql : string) (answer : list row + string)
  | OpQueryRow (now elapsed : Z) (ctx : context) (sql : string) (answer : list row + string)
  | OpExec (elapsed : Z) (sql : string) (answer : Z + string)
  | OpHealthCheck (now : Z) (answer : option string)
  | OpStats (st : pgx_Stat)
  | OpClose.

Definition pool_step (p : pgConnPool) (op : pool_op) : pgConnPool :=
  match op with
  | OpQuery now elapsed ctx sql answer => (Query p now elapsed ctx sql answer).1
  | OpQueryRow now elapsed ctx sql answer => (QueryRow p now elapsed ctx sql answer).1
  | OpExec elapsed sql answer => (Exec p elapsed sql answer).1
  | OpHealthCheck now answer => (HealthCheck p now answer).1
  | OpStats st => Stats p st
  | OpClose => Close p
  end.

(** The statements of a sequence with their times. *)
Definition statement_of (op : pool_op) : option (string * Z) :=
  match op with
  | OpQuery _ elapsed _ sql _ | OpQueryRow _ elapsed _ sql _ | OpExec elapsed sql _ => Some (sql, elapsed)
  | _ => None
  end.

Definition statements (ops : list pool_op) : list (string * Z) := omap statement_of ops.

(** What the log should hold for a text. *)
Definition log_of (l : list (string * Z)) (sql : string) : option (Z * Z) :=
  match filter (fun x => x.1 = sql) l with
  | [] => None
  | l => Some (Z.of_nat (length l), int64 (foldr (fun x acc => x.2 + acc) 0 l))
  end.

(** *** The log and the counter *)

Lemma int64_add_l a b : int64 (int64 a + b) = int64 (a + b).
Proof.
  unfold int64, swrap. set (h := 2 ^ (64 - 1)). f_equal.
  replace ((a + h) mod 2 ^ 64 - h + b + h) with ((a + h) mod 2 ^ 64 + b) by lia.
  rewrite Z.add_mod_idemp_l by lia. f_equal. lia.
Qed.

Definition logged (p : pgConnPool) (l : list (string * Z)) : Prop :=
  QueriesExecuted (stats p) = Z.of_nat (length l) /\ forall sql, queryLog p !! sql = log_of l sql.

Lemma sum_snoc (l : list (string * Z)) x :
  foldr (fun y acc => y.2 + acc) 0 (l ++ [x]) = foldr (fun y acc => y.2 + acc) 0 l + x.2.
Proof. induction l as [|y l IH]; simpl; [lia|]. rewrite IH. lia. Qed.

Lemma log_of_snoc l sql d sql' :
  log_of (l ++ [(sql, d)]) sql' =
  if decide (sql = sql') then
    Some (match log_of l sql with Some (n, t) => (n + 1, int64 (t + d)) | None => (1, int64 d) end)
  else log_of l sql'.
Proof.
  unfold log_of. rewrite filter_app, filter_cons, filter_nil. cbn [fst]. case_decide as E.
  - subst sql'. destruct (filter _ l) as [|x l'] eqn:Hl; [simpl; do 3 f_equal; lia|].
    cbn [app]. rewrite app_comm_cons, sum_snoc, length_app, int64_add_l. cbn [length snd]. do 2 f_equal. lia.
  - by rewrite app_nil_r.
Qed.

Lemma log_of_count l sql n t : log_of l sql = Some (n, t) -> n <= Z.of_nat (length l).
Proof.
  unfold log_of. intros E. assert (n = Z.of_nat (length (filter (fun x => x.1 = sql) l))) as -> by (by destruct (filter _ l); simplify_eq).
  pose proof (length_filter (fun x : string * Z => x.1 = sql) l). lia.
Qed.

Lemma logged_record p l sql d :
  logged p l -> Z.of_nat (length l) + 1 < 2 ^ 63 -> in_s 64 d -> logged (recordQueryStats p sql d) (l ++ [(sql, d)]).
Proof.
  intros [Hq Hlog] Hlt Hd. split.
  - cbn. rewrite Hq, length_app. cbn [length]. rewrite int64_small by lia. lia.
  - intros sql'. cbn [queryLog recordQueryStats]. rewrite log_of_snoc, Hlog. destruct (decide (sql = sql')) as [<-|Hne].
    + rewrite lookup_insert_eq. destruct (log_of l sql) as [[n t]|] eqn:E.
      * apply log_of_count in E as Hn. unfold log_of in E. destruct (filter _ l); simplify_eq. rewrite (int64_small (_ + 1)) by (simpl in *; lia). done.
      * by rewrite (int64_small d).
    + by rewrite lookup_insert_ne, Hlog.
Qed.

Lemma logged_step p l op :
  logged p l -> Z.of_nat (length (l ++ statements [op])) < 2 ^ 63 -> (forall sql d, statement_of op = Some (sql, d) -> in_s 64 d) ->
  logged (pool_step p op) (l ++ statements [op]).
Proof.
  intros Hl Hlt Hd. destruct op as [now elapsed ctx sql answer|now elapsed ctx sql answer|elapsed sql answer|now answer|st|];
    cbn [statements omap list_omap statement_of] in *; rewrite ?app_nil_r in *; rewrite ?length_app in Hlt; cbn [length] in Hlt;
    cbn [pool_step]; unfold Query, QueryRow, Exec, HealthCheck.
  - assert (logged (recordQueryStats p sql elapsed) (l ++ [(sql, elapsed)])) by (apply logged_record; [done|lia|by eapply Hd]).
    by destruct answer.
  - assert (logged (recordQueryStats p sql elapsed) (l ++ [(sql, elapsed)])) by (apply logged_record; [done|lia|by eapply Hd]).
    by destruct answer.
  - assert (logged (recordQueryStats p sql elapsed) (l ++ [(sql, elapsed)])) by (apply logged_record; [done|lia|by eapply Hd]).
    by destruct answer.
  - by destruct answer.
  - done.
  - done.
Qed.

Lemma logged_run ops p l :
  logged p l -> Z.of_nat (length (l ++ statements ops)) < 2 ^ 63 -> Forall (fun x => in_s 64 x.2) (statements ops) ->
  logged (fold_left pool_step ops p) (l ++ statements ops).
Proof.
  revert p l. induction ops as [|op ops IH]; intros p l Hl Hlt Hall; [by rewrite app_nil_r|].
  assert (statements (op :: ops) = statements [op] ++ statements ops) as E by (cbn; by destruct (statement_of op)).
  rewrite E in *. apply Forall_app in Hall as [H1 H2]. rewrite app_assoc in *. cbn [fold_left].
  apply IH; [|done|done]. apply logged_step; [done| |].
  - rewrite length_app in Hlt. lia.
  - intros sql d Hs. cbn in H1. rewrite Hs in H1. by inv H1.
Qed.

(** C32: the log of queries refines the history.  After any sequence of fewer than 2^63 statements, health checks, statistics and
    closes, [QueriesExecuted] is the number of statements, and the log has for each text the number of its
    executions and the sum of their times on 64 bits, failed statements included. *)
Theorem db_log_refines_history cfg now ops p :
  NewConnectionPool cfg now true true None = (Some p, None) ->
  Z.of_nat (length (statements ops)) < 2 ^ 63 ->
  Forall (fun x => in_s 64 x.2) (statements ops) ->
  QueriesExecuted (stats (fold_left pool_step ops p)) = Z.of_nat (length (statements ops)) /\
  forall sql, queryLog (fold_left pool_step ops p) !! sql = log_of (statements ops) sql.
Proof. intros [= <-] Hlt Hall. apply (logged_run ops _ []); [|done|done]. split; [done|]. intros sql. apply lookup_empty. Qed.

End steps.

(** *** Rows after the return *)

(** What [Next] delivers of the rows that the server has, under a context at a time:
    all of them while the context is live, the first ones at most otherwise (documented
    behaviour of pgx: the end of the context interrupts the query). *)
Class PgxRows (row : Type) := {
  delivered : context -> Z -> list row -> list row;
  delivered_live ctx now l : live ctx now = true -> delivered ctx now l = l;
  delivered_prefix ctx now l : delivered ctx now l `prefix_of` l
}.

(** A context that ends at once ends the rows. *)
#[export]
Instance prompt_rows row : PgxRows row.
Proof.
  refine {| delivered := fun ctx now l => if live ctx now then l else [] |}.
  - intros ctx now l ->. done.
  - intros ctx now l. destruct (live ctx now); [done|apply prefix_nil].
Defined.

Definition read_rows {row} `{PgxRows row} (r : Rows) (now : Z) : list row := delivered (rows_context r) now (rows_all r).

Lemma returned_dead p now ctx t : 0 < QueryTimeout (config p) -> live (returned_context p now ctx) t = false.
Proof. intros Hq. unfold returned_context. rewrite (proj2 (Z.ltb_lt _ _) Hq). done. Qed.

Lemma returned_same p now ctx : QueryTimeout (config p) <= 0 -> returned_context p now ctx = ctx.
Proof. intros Hq. unfold returned_context. by rewrite (proj2 (Z.ltb_ge _ _) Hq). Qed.

(** Rows are handed out with a cancelled context.  With a query timeout, as in the default configuration, the context of the rows
    that [Query] and [QueryRow] return is cancelled by the time they return; without one the rows can be read as long as the
    caller's context lives. *)
Theorem db_query_rows_cancelled {row} `{PgxRows row} (p p' : pgConnPool) now elapsed ctx sql (rows : list row) r t :
  Query p now elapsed ctx sql (inl rows) = (p', inl r) \/ QueryRow p now elapsed ctx sql (inl rows) = (p', inl r) ->
  (0 < QueryTimeout (config p) -> live (rows_context r) t = false) /\
  (QueryTimeout (config p) <= 0 -> live ctx t = true -> read_rows r t = rows).
Proof.
  unfold Query, QueryRow. intros Hr. assert (r = MkRows (returned_context p now ctx) rows) as -> by (destruct Hr; by simplify_eq).
  split; cbn [rows_context]; [apply returned_dead|]. intros Hq Hl. unfold read_rows. cbn [rows_context rows_all].
  rewrite returned_same by done. by apply delivered_live.
Qed.

(** ** Reading entities through the pool *)

Section entities.
Context {value : Type} (as_string : value -> option string) `{Cache C (gmap string value)}.
(** The rows that the tables have, the order of the other choices, and when the rows are
    asked for and read. *)
Context (table : string -> list string -> list (list (string * value)) + string).
Context (e : environment (value := value)) (ctx : context) (asked elapsed readat : Z).

(** [processOperation] gives the rows of [pool.Query] to the handler of the query;
    an attempt that fails is repeated with the same answer. *)
Definition pool_environment `{PgxRows (list (string * value))} (p : pgConnPool) : environment :=
  MkEnv (dirty_order e) (type_order e) (entity_order e) (field_order e) (exec e)
    (fun t ids => match (Query p asked elapsed ctx ("SELECT * FROM " +:+ t) (table t ids)).2 with
                  | inr _ => QueryFailed
                  | inl r => QueryRows (read_rows r readat)
                  end).

Lemma pool_query_dead (p : pgConnPool) t ids rows :
  0 < QueryTimeout (config p) -> table t ids = inl rows ->
  query (pool_environment (H0 := prompt_rows _) p) t ids = QueryRows [].
Proof.
  intros Hq Ht. cbn [query pool_environment]. rewrite Ht. cbn [Query snd]. unfold read_rows. cbn [delivered prompt_rows rows_context].
  by rewrite returned_dead.
Qed.

(** Entities that exist are not found.  With the default configuration and a driver that ends the rows when their context is cancelled,
    [Get] of an entity that is only in the database reports that it does not exist, and [GetMulti] returns nothing and no
    error, as it does not look at [rows.Err]; without a query timeout, [Get] returns the row. *)
Theorem db_entities_not_found (p : pgConnPool) c c' c'' cs t ent row rows :
  env_ok e ->
  cache_Get c (formatCacheKey t ent) = (c', None) -> cache_MGet c (formatCacheKey t <$> [ent]) = (c'', Some [None]) ->
  dirty_entry cs (formatDirtyKey t ent) = None -> table t [ent] = inl (row :: rows) ->
  let env := pool_environment (H0 := prompt_rows _) p in
  (0 < QueryTimeout (config p) ->
     (Get env c cs t ent).2 = Fail CacheSync.ErrQuery /\
     (GetMulti as_string env c cs t [ent]).1.2 = ∅ /\ (GetMulti as_string env c cs t [ent]).2 = None) /\
  (QueryTimeout (config p) <= 0 -> live ctx readat = true ->
     (Get env c cs t ent).2 = Ret (row_entity row)).
Proof.
  intros He Hget Hmget Hd Ht env. split.
  - intros Hq. pose proof (pool_query_dead p t [ent] _ Hq Ht) as Hdead. fold env in Hdead. split; [|].
    + unfold Get, query_one. rewrite Hget, Hd. cbn [mbind option_bind]. by rewrite Hdead.
    + unfold GetMulti. rewrite decide_False by done. rewrite Hmget. cbn [sort_answers app length dirty_scan lookup list_lookup from_option].
      change (dirty_entry (set_sync_stats cs _) (formatDirtyKey t (id ent))) with (dirty_entry cs (formatDirtyKey t ent)).
      rewrite Hd. cbn [mbind option_bind take length]. rewrite decide_False by done. rewrite Hdead.
      change (rows_by_id as_string []) with (∅ : gmap string (gmap string value)).
      assert (entity_order env ∅ = []) as ->.
      { pose proof (eo_entity e He ∅) as Ho. unfold map_order in Ho. rewrite map_to_list_empty in Ho. by apply Permutation_nil_r in Ho. }
      done.
  - intros Hq Hl. unfold Get, query_one. rewrite Hget, Hd. cbn [mbind option_bind]. subst env. cbn [query pool_environment].
    rewrite Ht. cbn [Query snd]. unfold read_rows. cbn [delivered prompt_rows rows_context rows_all].
    rewrite returned_same by done. rewrite Hl. done.
Qed.
End entities.

(** ** Examples *)

Module Examples.

(** The pool of the default configuration. *)
Definition default_pool : pgConnPool :=
  set_stats (MkPool DefaultDBConfig no_stats ∅ true)
    (MkPoolStats 0 0 0 0 0 (S754_zero false) 0 (S754_zero false) 5 Healthy).

Definition some_ops : list (pool_op (row := unit)) :=
  [OpQuery 6 2000000 Background "a" (inl []); OpExec 4000000 "b" (inr "no"%string); OpHealthCheck 9 None;
   OpExec 5000000 "a" (inl 1)].

Lemma db_log_refines_history_witness :
  NewConnectionPool None 5 true true None = (Some default_pool, None) /\
  queryLog (fold_left pool_step some_ops default_pool) !! "a"%string = Some (2, 7000000).
Proof.
  split; [done|].
  destruct (db_log_refines_history None 5 some_ops default_pool eq_refl) as [_ Hlog];
    [done|repeat constructor; by vm_compute|].
  rewrite (Hlog "a"%string). by vm_compute.
Defined.

(** The average of the three times, in milliseconds. *)
Example average_time :
  AvgQueryDurationMs (stats (fold_left pool_step some_ops default_pool)) = f64_div (f64_of_int 11) (f64_of_int 3).
Proof. vm_compute. reflexivity. Qed.

Lemma db_query_rows_cancelled_witness :
  live (rows_context (MkRows (returned_context default_pool 6 Background) [tt])) 7 = false.
Proof.
  destruct (db_query_rows_cancelled (row := unit) default_pool (recordQueryStats default_pool "a" 1) 6 1 Background "a" [tt]
              (MkRows (returned_context default_pool 6 Background) [tt]) 7) as [Hdead _]; [by left|].
  by apply Hdead.
Defined.

(** A table with one hero. *)
Definition one_hero (t : string) (ids : list string) : list (list (string * string)) + string :=
  inl [[("id", "7"); ("hp", "9")]]%string.

Lemma db_entities_not_found_witness :
  let env := pool_environment one_hero (sample_env (fun _ => ExecDone) (fun _ _ => QueryFailed)) Background 6 1 8 default_pool in
  (Get env (∅ : gmap string fields) NewCacheSync "hero" "7").2 = Fail CacheSync.ErrQuery.
Proof.
  intros env.
  apply (db_entities_not_found Some one_hero (sample_env (fun _ => ExecDone) (fun _ _ => QueryFailed)) Background 6 1 8
           default_pool (∅ : gmap string fields) ∅ ∅ NewCacheSync "hero" "7" [("id", "7"); ("hp", "9")]%string []);
    [apply sample_env_ok|done..].
Defined.

End Examples.
