(* ===== verification/RedisPool.v ===== *)
(** * The Redis pool ([pkg/redis/connection_pool.go])

    The wrapper of the clients of go-redis: construction, health check, statistics and
    [Close].  What the clients answer is given with each operation. *)

From stdpp Require Import base gmap strings numbers list.
From Stdlib Require Import ZArith Lia.
From S2P Require Import Prelude DbPool.

Local Open Scope Z_scope.

(** ** The pool *)

(** The other settings are handed to the client. *)
Record PoolConfig := MkPoolConfig { Addresses : list string; UseCluster : bool; DialTimeout : Z }.

Definition DefaultConfig : PoolConfig :=
  {| Addresses := ["localhost:6379"%string]; UseCluster := false; DialTimeout := 5 * 10 ^ 9 |}.

Record PoolStats := MkPoolStats {
  TotalConnections : Z;
  IdleConnections : Z;
  StaleConnections : Z;
  ActiveConnections : Z;
  Hits : Z;
  Misses : Z;
  Timeouts : Z;
  TotalCommandsProcessed : Z
}.

(** The clients that were made, and whether they are open. *)
Record ConnectionPool := MkPool {
  config : PoolConfig;
  stats : PoolStats;
  clusterClient : option bool;
  singleClient : option bool
}.

Inductive PoolError :=
  | ErrNoAddress
  | ErrNotInitialized
  | ErrPing (error : string)
  | ErrUnexpected (reply : string)
  | ErrClose (error : string)
  | ErrNotCluster
  | ErrNodes (error : string)
  | ErrInfo (error : string).

Definition initSingleClient (p : ConnectionPool) : ConnectionPool + PoolError :=
  if bool_decide (Addresses (config p) = []) then inr ErrNoAddress
  else inl (MkPool (config p) (stats p) (clusterClient p) (Some true)).

Definition initClusterClient (p : ConnectionPool) : ConnectionPool + PoolError :=
  if bool_decide (Addresses (config p) = []) then inr ErrNoAddress
  else inl (MkPool (config p) (stats p) (Some true) (singleClient p)).

(** Whether [GetClient] returns a client: the one that was made. *)
Definition GetClient (p : ConnectionPool) : option bool :=
  if UseCluster (config p) then clusterClient p else singleClient p.

(** [reply] is what the server answers to [PING]. *)
Definition HealthCheck (p : ConnectionPool) (reply : string + string) : option PoolError :=
  match GetClient p with
  | None => Some ErrNotInitialized
  | Some _ =>
      match reply with
      | inr e => Some (ErrPing e)
      | inl text => if bool_decide (text = "PONG"%string) then None else Some (ErrUnexpected text)
      end
  end.

(** The pool that was made is given with an error too, to say what becomes of its
    client. *)
Definition NewConnectionPool (cfg : option PoolConfig) (reply : string + string) : option ConnectionPool * option PoolError :=
  let cfg := default DefaultConfig cfg in
  let p := MkPool cfg (MkPoolStats 0 0 0 0 0 0 0 0) None None in
  match if UseCluster cfg then initClusterClient p else initSingleClient p with
  | inr e => (None, Some e)
  | inl p => match HealthCheck p reply with Some e => (Some p, Some e) | None => (Some p, None) end
  end.

(** [answer] is the error of the client's [Close]. *)
Definition Close (p : ConnectionPool) (answer : option string) : ConnectionPool * option PoolError :=
  if UseCluster (config p) && bool_decide (is_Some (clusterClient p)) then
    (MkPool (config p) (stats p) (Some false) (singleClient p), ErrClose <$> answer)
  else match singleClient p with
       | Some _ => (MkPool (config p) (stats p) (clusterClient p) (Some false), ErrClose <$> answer)
       | None => (p, None)
       end.

(** The answers to [CLUSTER NODES] and [CLUSTER INFO]. *)
Definition GetClusterInfo (p : ConnectionPool) (nodes info : string + string) : gmap string string + PoolError :=
  if negb (UseCluster (config p)) then inr ErrNotCluster
  else match clusterClient p with
       | None => inr ErrNotInitialized
       | Some _ =>
           match nodes, info with
           | inr e, _ => inr (ErrNodes e)
           | inl _, inr e => inr (ErrInfo e)
           | inl n, inl i => inl (<["info"%string := i]> {["nodes"%string := n]})
           end
       end.

(** The counters of go-redis are of 32 bits. *)
Record redis_Stats := MkStats { TotalConns : Z; IdleConns : Z; StaleConns : Z }.

Definition Stats (p : ConnectionPool) (st : redis_Stats) : ConnectionPool :=
  match GetClient p with
  | None => p
  | Some _ =>
      let s := stats p in
      MkPool (config p)
        (MkPoolStats (TotalConns st) (IdleConns st) (StaleConns st) (uwrap 32 (TotalConns st - IdleConns st))
           (Hits s) (Misses s) (Timeouts s) (TotalCommandsProcessed s))
        (clusterClient p) (singleClient p)
  end.

Inductive pool_op := OpStats (st : redis_Stats) | OpClose (answer : option string) | OpHealthCheck (reply : string + string).

Definition pool_step (p : ConnectionPool) (op : pool_op) : ConnectionPool :=
  match op with
  | OpStats st => Stats p st
  | OpClose answer => (Close p answer).1
  | OpHealthCheck _ => p
  end.

Lemma step_zero p op :
  Hits (stats p) = 0 /\ Misses (stats p) = 0 /\ Timeouts (stats p) = 0 /\ TotalCommandsProcessed (stats p) = 0 ->
  let p' := pool_step p op in
  Hits (stats p') = 0 /\ Misses (stats p') = 0 /\ Timeouts (stats p') = 0 /\ TotalCommandsProcessed (stats p') = 0.
Proof.
  intros Hz. destruct op as [st|answer|reply]; cbn [pool_step]; [| |done].
  - unfold Stats. by destruct (GetClient p).
  - unfold Close. destruct (_ && _); [done|]. by destruct (singleClient p).
Qed.

(** The statistics of the Redis pool.  The number of active connections is the difference of two counters that are read one after
    the other: it is right when the first is not the smaller one, and about 2^32 otherwise; hits, misses, timeouts and commands are
    reported as zero whatever happened. *)
Theorem redis_pool_stats cfg reply p ops st :
  NewConnectionPool cfg reply = (Some p, None) -> in_u 32 (TotalConns st) -> in_u 32 (IdleConns st) ->
  let s := stats (Stats (fold_left pool_step ops p) st) in
  ActiveConnections s = (if IdleConns st <=? TotalConns st then TotalConns st - IdleConns st
                         else 2 ^ 32 + TotalConns st - IdleConns st) /\
  Hits s = 0 /\ Misses s = 0 /\ Timeouts s = 0 /\ TotalCommandsProcessed s = 0.
Proof.
  intros Hnew Ht Hi. unfold NewConnectionPool, initSingleClient, initClusterClient in Hnew. cbn [config] in Hnew.
  assert (Hits (stats p) = 0 /\ Misses (stats p) = 0 /\ Timeouts (stats p) = 0 /\ TotalCommandsProcessed (stats p) = 0 /\ is_Some (GetClient p)) as Hp.
  { destruct (UseCluster _) eqn:Hu; (case_bool_decide; [done|]); (destruct (HealthCheck _ _); [done|]); injection Hnew as <-; unfold GetClient; cbn in *; rewrite Hu; eauto 10. }
  clear Hnew. assert (forall p, is_Some (GetClient p) -> forall op, is_Some (GetClient (pool_step p op))) as Hkeep.
  { clear. intros p Hp op. destruct op as [st|answer|reply]; cbn [pool_step]; [| |done].
    - unfold Stats. destruct (GetClient p) eqn:E; [|done]. unfold GetClient in *. cbn. destruct (UseCluster _); by rewrite E.
    - unfold Close, GetClient in *. destruct (UseCluster (config p)) eqn:Hu; cbn [andb].
      + rewrite bool_decide_eq_true_2 by done. cbn. rewrite Hu. eauto.
      + destruct (singleClient p); cbn; [|by destruct Hp]. rewrite Hu. eauto. }
  revert p Hp. induction ops as [|op ops IH]; intros p (H1 & H2 & H3 & H4 & Hc); cbn [fold_left].
  - unfold Stats. destruct Hc as [b ->]. cbn. split; [|done]. unfold in_u, uwrap in *. destruct (Z.leb_spec (IdleConns st) (TotalConns st)).
    + apply Z.mod_small. lia.
    + rewrite <- (Z.mod_small (2 ^ 32 + TotalConns st - IdleConns st) (2 ^ 32)) by lia.
      rewrite <- (Z.mod_add (TotalConns st - IdleConns st) 1) by lia. f_equal. lia.
  - apply IH. destruct (step_zero p op) as (? & ? & ? & ?); [done|]. auto 10.
Qed.

(** A pool that cannot be used.  When the health check fails, the database pool closes the connections it has opened; the Redis pool
    returns the error and leaves its client open, with nobody to close it. *)
Theorem pools_failed_check dbcfg now e rcfg reply err p :
  NewConnectionPool rcfg reply = (Some p, Some err) ->
  (exists q, DbPool.NewConnectionPool dbcfg now true true (Some e) = (Some q, Some (DbPool.ErrHealth e)) /\ DbPool.pool_open q = false /\
     DbPool.LastHealthCheckStatus (DbPool.stats q) = DbPool.Unhealthy e) /\
  GetClient p = Some true.
Proof.
  intros Hnew. split; [by eexists|]. unfold NewConnectionPool, initSingleClient, initClusterClient in Hnew. cbn [config] in Hnew.
  unfold GetClient. destruct (UseCluster _) eqn:Hu; (case_bool_decide; [done|]); (destruct (HealthCheck _ _); [|done]); injection Hnew as <- <-; cbn in *; by rewrite Hu.
Qed.

(** ** Examples *)

Lemma redis_pool_stats_witness :
  exists p, NewConnectionPool None (inl "PONG"%string) = (Some p, None) /\
    ActiveConnections (stats (Stats p (MkStats 3 4 0))) = 2 ^ 32 - 1.
Proof.
  eexists. split; [done|]. etransitivity.
  - apply (redis_pool_stats None (inl "PONG"%string) _ [] (MkStats 3 4 0) eq_refl); by vm_compute.
  - done.
Defined.

Lemma pools_failed_check_witness :
  exists p err, NewConnectionPool None (inr "refused"%string) = (Some p, Some err) /\ GetClient p = Some true.
Proof.
  do 2 eexists. split; [done|]. apply (pools_failed_check None 0 "down" None (inr "refused"%string) (ErrPing "refused")). done.
Defined.
