(* ===== verification/RpcServices.v ===== *)
(** * Endpoints and the example service ([pkg/rpc/factory.go],
      [pkg/rpc/example_service.go], [GetClient] of [pkg/rpc/load_balancer.go])

    The factory of clients and servers, the check of an endpoint with the addresses of
    the [net] package, and [PlayerService] with the positions it keeps.  Positions
    are pointers into a heap, as the service stores the pointer of the request.  Whether
    a port is free, and the clock, are arguments. *)

From stdpp Require Import base gmap strings numbers list.
From Stdlib Require Import ZArith Lia SpecFloat.
From S2P Require Import Prelude Float32 LoadBalancer NetServer.

Local Open Scope Z_scope.

(** ** Addresses *)

Definition b_colon : byte := Byte.x3a.
Definition b_open : byte := Byte.x5b.
Definition b_close : byte := Byte.x5d.

(** [strings.IndexByte] and its counterpart from the end. *)
Fixpoint index_byte (b : byte) (l : list byte) : option nat :=
  match l with
  | [] => None
  | x :: l => if bool_decide (x = b) then Some 0%nat else S <$> index_byte b l
  end.

Fixpoint last_byte (b : byte) (l : list byte) : option nat :=
  match l with
  | [] => None
  | x :: l => match last_byte b l with
              | Some i => Some (S i)
              | None => if bool_decide (x = b) then Some 0%nat else None
              end
  end.

Inductive AddrError := ErrMissingPort | ErrTooManyColons | ErrMissingBracket | ErrUnexpectedOpen | ErrUnexpectedClose.

(** The end of [net.SplitHostPort]: no bracket may stand behind [j] and [k]. *)
Definition split_rest (hostport host : list byte) (i j k : nat) : (list byte * list byte) + AddrError :=
  if bool_decide (is_Some (index_byte b_open (drop j hostport))) then inr ErrUnexpectedOpen
  else if bool_decide (is_Some (index_byte b_close (drop k hostport))) then inr ErrUnexpectedClose
  else inl (host, drop (i + 1) hostport).

(** [net.SplitHostPort] *)
Definition SplitHostPort (hostport : list byte) : (list byte * list byte) + AddrError :=
  match last_byte b_colon hostport with
  | None => inr ErrMissingPort
  | Some i =>
      if bool_decide (head hostport = Some b_open) then
        match index_byte b_close hostport with
        | None => inr ErrMissingBracket
        | Some e =>
            if bool_decide (e + 1 = length hostport)%nat then inr ErrMissingPort
            else if bool_decide (e + 1 = i)%nat then split_rest hostport (sub 1 (e - 1) hostport) i 1 (e + 1)
            else if bool_decide (hostport !! (e + 1)%nat = Some b_colon) then inr ErrTooManyColons
            else inr ErrMissingPort
        end
      else
        let host := take i hostport in
        if bool_decide (is_Some (index_byte b_colon host)) then inr ErrTooManyColons
        else split_rest hostport host i 0 0
  end.

(** ** The factory *)

Definition TransportGRPC : string := "grpc".
Definition DefaultTransport : string := TransportGRPC.

Section factory.
(** What [NewGRPCClient] and [NewGRPCServer] make of an endpoint. *)
Context {client server : Type} (NewGRPCClient : string -> option client) (NewGRPCServer : string -> server).

Inductive FactoryError := ErrUnsupportedTransport (transport : string) | ErrDial | ErrInstance (e : LbError).

Definition NewRPCClient (endpoint transport : string) : client + FactoryError :=
  if bool_decide (transport = TransportGRPC) then
    match NewGRPCClient endpoint with Some c => inl c | None => inr ErrDial end
  else inr (ErrUnsupportedTransport transport).

(** [None] is a nil server. *)
Definition NewRPCServer (endpoint transport : string) : option server :=
  if bool_decide (transport = TransportGRPC) then Some (NewGRPCServer endpoint) else None.

(** [LoadBalancer.GetClient] *)
Definition GetClient {R} `{ServiceRegistry R} (intn : Z -> Z) (lb : LoadBalancer) (registry : R) (serviceName : string) :
    LoadBalancer * outcome FactoryError client :=
  let '(lb, o) := GetInstance intn lb registry serviceName in
  (lb, match o with
       | Panic => Panic
       | Fail e => Fail (ErrInstance e)
       | Ret p => match NewRPCClient (Endpoint (deref (reg_heap registry) p)) TransportGRPC with
                  | inl c => Ret c
                  | inr e => Fail e
                  end
       end).
End factory.

(** [NewPlayerServiceClient] and [NewMessageServiceClient]: a client over a connection of
    its own.  [opened]: the connections that the program has opened; the generated clients
    hand theirs out to nobody. *)
Section direct_clients.
Context {conn : Type} (dial : string -> option conn).

Definition new_direct_client (opened : list conn) (endpoint : string) : list conn * option conn :=
  match dial endpoint with Some c => (opened ++ [c], Some c) | None => (opened, None) end.

Definition NewPlayerServiceClient : list conn -> string -> list conn * option conn := new_direct_client.
Definition NewMessageServiceClient : list conn -> string -> list conn * option conn := new_direct_client.

(** The clients for a list of endpoints, [true] for players. *)
Fixpoint make_clients (opened : list conn) (l : list (bool * string)) : list conn * list conn :=
  match l with
  | [] => (opened, [])
  | (player, endpoint) :: l =>
      let '(opened, c) := (if player then NewPlayerServiceClient else NewMessageServiceClient) opened endpoint in
      let '(opened, cs) := make_clients opened l in (opened, option_list c ++ cs)
  end.

(** Every client that is made opens a connection, also for an endpoint that has one: as
    many as endpoints could be dialled, in their order, and all stay open. *)
Theorem direct_clients_open opened l :
  make_clients opened l = (opened ++ omap dial l.*2, omap dial l.*2).
Proof.
  revert opened. induction l as [|[player endpoint] l IH]; intros opened; cbn; [by rewrite app_nil_r|].
  assert ((if player then NewPlayerServiceClient else NewMessageServiceClient) opened endpoint = new_direct_client opened endpoint) as -> by (by destruct player).
  unfold new_direct_client. destruct (dial endpoint) as [c|]; rewrite IH; [|done]. by rewrite <- app_assoc.
Qed.
End direct_clients.

Inductive PrepareError := ErrEndpointFormat (e : AddrError) | ErrPortNotAvailable (port : list byte).

(** [net.Listen] on an address that does not parse fails; otherwise [free] decides. *)
Definition net_Listen (free : list byte -> bool) (address : list byte) : bool :=
  match SplitHostPort address with inl _ => free address | inr _ => false end.

Definition PrepareEndpoint (free : list byte -> bool) (endpoint : list byte) (transport : string) : option PrepareError :=
  if bool_decide (transport = TransportGRPC) then
    match SplitHostPort endpoint with
    | inr e => Some (ErrEndpointFormat e)
    | inl (host, port) =>
        let host := if bool_decide (host = []) then str_bytes "localhost" else host in
        if net_Listen free (host ++ b_colon :: port) then None else Some (ErrPortNotAvailable port)
    end
  else None.

(** *** Addresses, proved *)

Lemma index_byte_none b l : index_byte b l = None <-> b ∉ l.
Proof.
  induction l as [|x l IH]; cbn [index_byte]; [split; [intros _; apply not_elem_of_nil|done]|].
  rewrite not_elem_of_cons. case_bool_decide as E; [subst; split; [done|by intros [? _]]|].
  rewrite fmap_None, IH. naive_solver.
Qed.

Lemma index_byte_first b l r : b ∉ l -> index_byte b (l ++ b :: r) = Some (length l).
Proof.
  intros Hl. induction l as [|x l IH]; cbn [index_byte app length]; [by rewrite bool_decide_eq_true_2|].
  apply not_elem_of_cons in Hl as [Hne Hl]. rewrite bool_decide_eq_false_2 by auto. by rewrite IH.
Qed.

Lemma last_byte_none b l : b ∉ l -> last_byte b l = None.
Proof.
  induction l as [|x l IH]; [done|]. intros [Hne Hl]%not_elem_of_cons. cbn [last_byte]. rewrite IH by done.
  by rewrite bool_decide_eq_false_2 by auto.
Qed.

Lemma last_byte_at b l r : b ∉ r -> last_byte b (l ++ b :: r) = Some (length l).
Proof.
  intros Hr. induction l as [|x l IH]; cbn [last_byte app length]; [|by rewrite IH].
  by rewrite last_byte_none, bool_decide_eq_true_2.
Qed.

(** Text without brackets, and without colons. *)
Definition no_brackets (l : list byte) : Prop := (b_open ∉ l) /\ (b_close ∉ l).
Definition plain (l : list byte) : Prop := (b_colon ∉ l) /\ no_brackets l.

Lemma split_rest_plain hostport host i j k :
  b_open ∉ drop j hostport -> b_close ∉ drop k hostport -> split_rest hostport host i j k = inl (host, drop (i + 1) hostport).
Proof.
  intros Ho%index_byte_none Hc%index_byte_none. unfold split_rest. rewrite Ho, Hc.
  by rewrite !bool_decide_eq_false_2 by (by intros [? ?]).
Qed.

Lemma head_plain h x : no_brackets h -> x <> b_open -> forall l, head (h ++ x :: l) <> Some b_open.
Proof. intros [Ho _] Hx l. destruct h as [|y h]; cbn; [congruence|]. intros [= ->]. set_solver. Qed.

(** A host without brackets: its colons are too many. *)
Lemma split_host h p :
  no_brackets h -> plain p ->
  SplitHostPort (h ++ b_colon :: p) = if decide (b_colon ∈ h) then inr ErrTooManyColons else inl (h, p).
Proof.
  intros Hh (Hp & Hpb). pose proof (head_plain h b_colon Hh ltac:(done) p) as Hhead. unfold SplitHostPort.
  rewrite last_byte_at by done. rewrite bool_decide_eq_false_2 by done. rewrite take_app_length.
  destruct (decide (b_colon ∈ h)) as [Hc|Hc].
  - rewrite bool_decide_eq_true_2; [done|]. destruct (index_byte b_colon h) eqn:E; [by eexists|]. by apply index_byte_none in E.
  - apply index_byte_none in Hc as ->. rewrite bool_decide_eq_false_2 by (by intros [? ?]).
    rewrite split_rest_plain; [|rewrite drop_0; unfold no_brackets in *; set_solver..].
    do 2 f_equal. rewrite drop_app_ge by lia. by replace (length h + 1 - length h)%nat with 1%nat by lia.
Qed.

(** A host in brackets. *)
Lemma split_brackets h p :
  no_brackets h -> plain p -> SplitHostPort (b_open :: h ++ b_close :: b_colon :: p) = inl (h, p).
Proof.
  intros Hh (Hp & Hpb). unfold SplitHostPort.
  change (b_open :: h ++ b_close :: b_colon :: p) with ((b_open :: h) ++ b_close :: b_colon :: p).
  assert ((b_open :: h) ++ b_close :: b_colon :: p = (b_open :: h ++ [b_close]) ++ b_colon :: p) as E by (cbn; by rewrite <- app_assoc).
  rewrite E at 1. rewrite last_byte_at by done. rewrite bool_decide_eq_true_2 by done.
  assert (b_close ∉ b_open :: h) as Hc by (destruct Hh; set_solver). rewrite index_byte_first by done.
  rewrite bool_decide_eq_false_2 by (rewrite length_app; cbn; lia).
  rewrite bool_decide_eq_true_2 by (cbn; rewrite length_app; cbn; lia).
  rewrite split_rest_plain.
  - f_equal. f_equal.
    + unfold sub. cbn [app drop length]. replace (S (length h) - 1)%nat with (length h) by lia. apply take_app_length.
    + rewrite E. replace (length (b_open :: h ++ [b_close]) + 1)%nat with (length (b_open :: h ++ [b_close]) + 1)%nat by done.
      rewrite drop_app_ge by lia. by replace (_ + 1 - _)%nat with 1%nat by lia.
  - cbn [app drop]. destruct Hh, Hpb. rewrite ?drop_0. set_solver.
  - rewrite drop_app_ge by lia. replace (length (b_open :: h) + 1 - length (b_open :: h))%nat with 1%nat by lia. cbn [drop].
    destruct Hpb. set_solver.
Qed.

(** An endpoint is prepared.  For a host without colons, [PrepareEndpoint] succeeds exactly when the port is free on that host, or on
    localhost when the host is empty; for a host in brackets that has a colon, as every IPv6 address has, it always reports that the port
    is not available, since it drops the brackets before it listens. *)
Theorem prepare_endpoint_spec free h p :
  no_brackets h -> plain p ->
  (b_colon ∉ h ->
     PrepareEndpoint free (h ++ b_colon :: p) TransportGRPC = None <->
     free ((if bool_decide (h = []) then str_bytes "localhost" else h) ++ b_colon :: p) = true) /\
  (b_colon ∈ h -> PrepareEndpoint free (b_open :: h ++ b_close :: b_colon :: p) TransportGRPC = Some (ErrPortNotAvailable p)).
Proof.
  intros Hh Hp. unfold PrepareEndpoint, net_Listen. split; intros Hc.
  - rewrite (split_host h p) by done. rewrite decide_False by done. cbn iota.
    set (host := if bool_decide (h = []) then _ else _).
    assert (no_brackets host /\ b_colon ∉ host) as [H1 H2].
    { unfold host. case_bool_decide; [|done]. unfold no_brackets. split_and!; apply (bool_decide_unpack _); by vm_compute. }
    rewrite (split_host host p) by done. rewrite decide_False by done. rewrite bool_decide_eq_true_2 by done. by destruct (free _).
  - rewrite split_brackets by done. cbn iota. rewrite (bool_decide_eq_false_2 (h = [])) by (intros ->; set_solver).
    rewrite (split_host h p) by done. by rewrite decide_True.
Qed.

(** Clients by load balancing.  [GetClient] dials the endpoint of an instance that is registered under the name and not down; it
    fails only when there is none, or when the endpoint cannot be dialled. *)
Theorem lb_client_endpoint {client} (dial : string -> option client) {R} `{ServiceRegistry R} intn lb registry serviceName l :
  intn_in_range intn -> reg_valid registry -> reg_GetInstances registry serviceName = Ret l ->
  dispatch_ready (reg_heap registry) (selector_for lb serviceName) l ->
  match (GetClient dial intn lb registry serviceName).2 with
  | Ret c => exists p i, p ∈ l /\ reg_heap registry !! p = Some i /\ Name i = serviceName /\ Status i <> "down"%string /\
               dial (Endpoint i) = Some c
  | Fail e => (e = ErrInstance (ErrNoInstancesFound serviceName) /\ l = []) \/
              (e = ErrDial /\ exists p i, p ∈ l /\ reg_heap registry !! p = Some i /\ dial (Endpoint i) = None)
  | Panic => False
  end.
Proof.
  intros Hi Hv Hg Hr. pose proof (balancer_spec intn lb registry serviceName l Hi Hv Hg Hr) as Hb. unfold GetClient.
  destruct (GetInstance intn lb registry serviceName) as [lb' [p|e|]]; cbn [snd] in *; [|left; destruct Hb as [-> ?]; done|done].
  destruct Hb as (Hin & i & Hp & Hn & Hs). rewrite (deref_alloc _ _ _ Hp). unfold NewRPCClient.
  rewrite bool_decide_eq_true_2 by done. destruct (dial (Endpoint i)) as [c|] eqn:Hd; [by exists p, i|]. right. split; [done|]. by exists p, i.
Qed.

(** ** The player service *)

Record Vector3 := MkVector3 { vX : float32; vY : float32; vZ : float32 }.

(** An [EntityPosition] of which the velocity is not set. *)
Record NearbyEntity := MkNearby { ne_EntityId : string; ne_EntityType : string; ne_Position : pb_Position; ne_Rotation : float32 }.

(** The positions by player: [None] is the nil map; a position may be nil too. *)
Record PlayerService := MkPlayerService {
  playerPositions : option (gmap string (option nat));
  vectors : gmap nat Vector3
}.

Record PlayerPositionResponse := MkPositionResponse {
  Success : bool;
  ErrorMessage : string;
  pr_Timestamp : Z;
  CorrectedPosition : option nat;
  NearbyEntities : list NearbyEntity
}.

(** The number [n / 10] as a [float32] literal. *)
Definition tenths (n : Z) : float32 := f32_div (f32_of_int n) (f32_of_int 10).

Definition in_ms (nano : Z) : Z := Z.quot nano 1000000.

Definition GetPlayerInfo (Username : string) : pb_message :=
  LoginResponse (MkHeader LOGIN_RESPONSE 1615471200000 "session-123" 1 0 "Success") "player123" "auth-token-xyz"
    (MkUserInfo "player123" Username ("Player_" +:+ Username) 10 5000 2 1615471200000 1610000000000)
    (MkServerInfo "sv001" "Game Server 1" 1 "game1.example.com" 8080 1250 2000).

(** The two entities are always the same. *)
Definition SyncPlayerPosition (nano : Z) : MessageHeader * bool * list NearbyEntity :=
  (MkHeader POSITION_SYNC_RESPONSE (in_ms nano) "session-123" 1 0 "Success", true,
   [MkNearby "npc-1" "NPC" (MkPosition (tenths 1005) (tenths 0) (tenths 2003)) (tenths 450);
    MkNearby "player-456" "PLAYER" (MkPosition (tenths 1207) (tenths 0) (tenths 1802)) (tenths 900)]).

(** The position is stored before it is looked at: a request without one panics. *)
Definition UpdatePosition (s : PlayerService) (nano : Z) (PlayerId : string) (Position : option nat) :
    PlayerService * outcome Empty_set PlayerPositionResponse :=
  let m := default ∅ (playerPositions s) in
  let s := MkPlayerService (Some (<[PlayerId := Position]> m)) (vectors s) in
  match Position ≫= fun p => vectors s !! p with
  | None => (s, Panic)
  | Some v =>
      let corrected := fresh (dom (vectors s)) in
      (MkPlayerService (playerPositions s) (<[corrected := v]> (vectors s)),
       Ret (MkPositionResponse true "" (in_ms nano) (Some corrected)
              [MkNearby "npc-1" "NPC" (MkPosition (f32_add (vX v) (f32_of_int 10)) (vY v) (f32_add (vZ v) (f32_of_int 10)))
                 (f32_of_int 45)]))
  end.

(** [cancelled]: the context is done within the two seconds. *)
Definition SlowOperation (nano : Z) (cancelled : bool) : option PlayerPositionResponse :=
  if cancelled then None else Some (MkPositionResponse true "" (in_ms nano) None []).

Definition GetPlayerPosition (s : PlayerService) (nano : Z) (PlayerId : string) : PlayerService * PlayerPositionResponse :=
  let m := default ∅ (playerPositions s) in
  (MkPlayerService (Some m) (vectors s),
   match m !! PlayerId with
   | None => MkPositionResponse false "Player position not found" 0 None []
   | Some pos => MkPositionResponse true "" (in_ms nano) pos []
   end).

(** Positions of the example service.  After an update, the position of the player is the one of the request, by pointer, and those of
    the others are as before; the answer carries a copy of it.  An update without a position panics, but is stored: from then
    on the player has a position, which is nil. *)
Theorem player_position_updates s nano nano' id pos v other :
  vectors s !! pos = Some v -> other <> id ->
  (exists s' r q, UpdatePosition s nano id (Some pos) = (s', Ret r) /\ CorrectedPosition r = Some q /\ q <> pos /\
     vectors s' !! q = Some v /\
     CorrectedPosition (GetPlayerPosition s' nano' id).2 = Some pos /\ vectors s' !! pos = Some v /\
     (GetPlayerPosition s' nano' other).2 = (GetPlayerPosition s nano' other).2) /\
  (exists s', UpdatePosition s nano id None = (s', Panic) /\
     Success (GetPlayerPosition s' nano' id).2 = true /\ CorrectedPosition (GetPlayerPosition s' nano' id).2 = None).
Proof.
  intros Hv Hne. split.
  - unfold UpdatePosition. cbn. rewrite Hv. set (q := fresh (dom (vectors s))).
    assert (q <> pos) as Hq. { intros E. apply (is_fresh (dom (vectors s))). fold q. rewrite E. by apply elem_of_dom_2 in Hv. }
    do 3 eexists. split; [done|]. split; [done|]. split; [exact Hq|]. cbn.
    rewrite !lookup_insert_eq, !lookup_insert_ne by auto. done.
  - unfold UpdatePosition. cbn. eexists. split; [done|]. cbn. by rewrite lookup_insert_eq.
Qed.

(** ** Examples *)

Lemma prepare_endpoint_spec_witness :
  (b_colon ∈ str_bytes "::1") /\
  PrepareEndpoint (fun _ => true) (str_bytes "[::1]:50051") TransportGRPC = Some (ErrPortNotAvailable (str_bytes "50051")) /\
  PrepareEndpoint (fun _ => true) (str_bytes ":50051") TransportGRPC = None.
Proof.
  split; [by apply (bool_decide_unpack _)|]. split.
  - apply (prepare_endpoint_spec (fun _ => true) (str_bytes "::1") (str_bytes "50051"));
      [split; apply (bool_decide_unpack _); by vm_compute|split_and!; apply (bool_decide_unpack _); by vm_compute|].
    by apply (bool_decide_unpack _).
  - apply (proj1 (prepare_endpoint_spec (fun _ => true) [] (str_bytes "50051")
             ltac:(split; apply (bool_decide_unpack _); by vm_compute) ltac:(split_and!; apply (bool_decide_unpack _); by vm_compute)));
      [apply (bool_decide_unpack _); by vm_compute|done].
Defined.

Definition one_player : PlayerService := MkPlayerService None {[ 0%nat := MkVector3 (tenths 10) (tenths 20) (tenths 30) ]}.

Lemma player_position_updates_witness :
  exists s', UpdatePosition one_player 0 "a" None = (s', Panic) /\ Success (GetPlayerPosition s' 5 "a").2 = true.
Proof.
  destruct (player_position_updates one_player 0 5 "a" 0 (MkVector3 (tenths 10) (tenths 20) (tenths 30)) "b") as [_ (s' & Hp & Hs & _)];
    [by vm_compute|done|]. exists s'. exact (conj Hp Hs).
Defined.

Lemma lb_client_endpoint_witness :
  exists c, (GetClient (fun e => Some e) (fun _ => 0) NewLoadBalancer sample_registry "chat").2 = Ret c /\
    exists p i, p ∈ LoadBalancer.GetInstances sample_registry "chat" /\ reg_heap sample_registry !! p = Some i /\ Endpoint i = c.
Proof.
  pose proof (lb_client_endpoint (fun e => Some e) (fun _ => 0) NewLoadBalancer sample_registry "chat" _
                ltac:(intros n; lia) sample_reachable eq_refl I) as H.
  destruct (GetClient _ _ _ _ _).2 as [c|e|] eqn:E; [|vm_compute in E; discriminate E..].
  destruct H as (p & i & Hp & Hi & _ & _ & [= Hd]). exists c. split; [reflexivity|]. by exists p, i.
Defined.
