(* ===== verification/LbTest.v ===== *)
(** * The load-balancing test program ([examples/load_balancer/main.go])

    A registry with three instances each of two services, two clients that ask the
    balancer for instances, a goroutine that takes an instance out, one that adds one
    and one that watches; over [LoadBalancer.v].  Every goroutine is cut where it uses
    the registry, so that the delays between them do not matter.  What the registry
    answers is refined to [live_players] and [live_chats]. *)

From stdpp Require Import base gmap strings pretty fin_maps numbers relations list.
From Stdlib Require Import ZArith Lia.
From S2P Require Import Prelude Selection LoadBalancer.

Local Open Scope Z_scope.

Definition player_service : string := "player-service".
Definition chat_service : string := "chat-service".

(** ** The program *)

Section program.
(** The UUIDs of the instances, in the order in which they are made. *)
Context (uuid : nat -> string).

(** The instances of the two loops, [i] from 1 to 3, and the one added later. *)
Definition player_instance (id : string) (i : Z) : ServiceInstance :=
  MkInstance id player_service ("localhost:808" +:+ pretty i) {[ "zone"%string := "zone-" +:+ pretty (Z.quot (i - 1) 2 + 1) ]} 1 "active".

Definition chat_instance (id : string) (i : Z) : ServiceInstance :=
  MkInstance id chat_service ("localhost:809" +:+ pretty i) {[ "region"%string := "region-" +:+ pretty (Z.quot (i - 1) 2 + 1) ]} (i * 2) "active".

Definition late_instance (id : string) : ServiceInstance :=
  MkInstance id player_service "localhost:8084" {[ "zone"%string := "zone-3"%string ]} 1 "active".

(** Instance [k] lives at address [k]. *)
Definition test_instance (k : nat) : ServiceInstance :=
  if decide (k < 3)%nat then player_instance (uuid k) (Z.of_nat k + 1)
  else if decide (k < 6)%nat then chat_instance (uuid k) (Z.of_nat k - 2)
  else late_instance (uuid k).

(** [registry.Register(ctx, &ServiceInstance{...})]; an error is logged. *)
Definition add_instance (r : InMemoryRegistry) (k : nat) : InMemoryRegistry :=
  let r := set_object r k (test_instance k) in
  match Register r k with Ret r' => r' | _ => r end.

(** The two selectors, at addresses 0 and 1. *)
Definition test_balancer : LoadBalancer :=
  let lb := {| selectors := ∅; selector_at := {[ 0%nat := SelRoundRobin (MkRoundRobin 0); 1%nat := SelWeighted MkWeightedSelector ]} |} in
  SetSelector (SetSelector lb player_service 0%nat) chat_service 1%nat.

(** Where the goroutines are. *)
Inductive test_pc := TRegister (k : nat) | TSelect | TWait | TReturned.
Inductive down_pc := DWait | DGot (p : ptr) | DEnd.
Inductive watch_pc := WStart | WLoop (ch : chan) | WEnd.

(** A client: what [GetInstance] returned, and whether the loop has ended. *)
Record requests := MkRequests { answers : list (outcome LbError ptr); ended : bool }.

Record test := MkTest {
  t_registry : InMemoryRegistry;
  t_lb : LoadBalancer;
  t_main : test_pc;
  t_down : down_pc;
  t_added : bool;
  t_player : requests;
  t_chat : requests;
  t_monitor : watch_pc;
  t_cancelled : bool
}.

Definition test_start : test :=
  MkTest NewInMemoryRegistry test_balancer (TRegister 0) DWait false (MkRequests [] false) (MkRequests [] false) WStart false.

(** [registerServices] has returned. *)
Definition started (s : test) : bool := match t_main s with TRegister _ => false | _ => true end.

Definition upd_registry (s : test) (r : InMemoryRegistry) : test :=
  MkTest r (t_lb s) (t_main s) (t_down s) (t_added s) (t_player s) (t_chat s) (t_monitor s) (t_cancelled s).

Definition upd_main (s : test) (m : test_pc) (cancelled : bool) : test :=
  MkTest (t_registry s) (t_lb s) m (t_down s) (t_added s) (t_player s) (t_chat s) (t_monitor s) cancelled.

Definition upd_down (s : test) (d : down_pc) : test :=
  MkTest (t_registry s) (t_lb s) (t_main s) d (t_added s) (t_player s) (t_chat s) (t_monitor s) (t_cancelled s).

Definition upd_monitor (s : test) (w : watch_pc) : test :=
  MkTest (t_registry s) (t_lb s) (t_main s) (t_down s) (t_added s) (t_player s) (t_chat s) w (t_cancelled s).

Definition upd_clients (s : test) (lb : LoadBalancer) (player chat : requests) : test :=
  MkTest (t_registry s) lb (t_main s) (t_down s) (t_added s) player chat (t_monitor s) (t_cancelled s).

(** A turn of [clientRequests] with a count of ten. *)
Definition client_turn (intn : Z -> Z) (s : test) (service : string) (c : requests) : LoadBalancer * requests :=
  if decide (length (answers c) < 10)%nat then
    if t_cancelled s then (t_lb s, MkRequests (answers c) true)
    else let '(lb, o) := GetInstance intn (t_lb s) (t_registry s) service in (lb, MkRequests (answers c ++ [o]) false)
  else (t_lb s, MkRequests (answers c) true).

Definition player_turn (intn : Z -> Z) (s : test) : test :=
  let '(lb, c) := client_turn intn s player_service (t_player s) in upd_clients s lb c (t_chat s).

Definition chat_turn (intn : Z -> Z) (s : test) : test :=
  let '(lb, c) := client_turn intn s chat_service (t_chat s) in upd_clients s lb (t_player s) c.

(** The goroutine that waits two seconds: the first instance, if there is one. *)
Definition down_fetch (s : test) : test :=
  upd_down s (match GetInstances (t_registry s) player_service with [] => DEnd | p :: _ => DGot p end).

(** The error of [Deregister] is dropped. *)
Definition down_deregister (s : test) (p : ptr) (order : list (string * list ptr)) : test :=
  upd_down (match Deregister (t_registry s) order (ID (deref (objects (t_registry s)) p)) with
            | Ret r => upd_registry s r
            | _ => s
            end) DEnd.

Definition late_add (s : test) : test :=
  MkTest (add_instance (t_registry s) 6) (t_lb s) (t_main s) (t_down s) true (t_player s) (t_chat s) (t_monitor s) (t_cancelled s).

Inductive test_step : test -> test -> Prop :=
  | TsRegister s k :
      t_main s = TRegister k -> (k < 6)%nat -> test_step s (upd_main (upd_registry s (add_instance (t_registry s) k)) (TRegister (S k)) (t_cancelled s))
  | TsRegistered s : t_main s = TRegister 6 -> test_step s (upd_main s TSelect (t_cancelled s))
  | TsInterrupt s : t_main s = TSelect -> test_step s (upd_main s TWait true)
  | TsDone s : t_main s = TSelect -> t_cancelled s = true -> test_step s (upd_main s TWait true)
  | TsReturn s : t_main s = TWait -> ended (t_player s) = true -> ended (t_chat s) = true -> test_step s (upd_main s TReturned (t_cancelled s))
  | TsPlayer s intn : started s = true -> ended (t_player s) = false -> intn_in_range intn -> test_step s (player_turn intn s)
  | TsChat s intn : started s = true -> ended (t_chat s) = false -> intn_in_range intn -> test_step s (chat_turn intn s)
  | TsDownFetch s : started s = true -> t_down s = DWait -> test_step s (down_fetch s)
  | TsDown s p order :
      t_down s = DGot p -> map_order (services (t_registry s)) order -> test_step s (down_deregister s p order)
  | TsLate s : started s = true -> t_added s = false -> test_step s (late_add s)
  | TsWatch s :
      t_monitor s = WStart ->
      test_step s (upd_monitor (upd_registry s (WatchService (t_registry s) player_service).1) (WLoop (WatchService (t_registry s) player_service).2))
  | TsReceive s ch : t_monitor s = WLoop ch -> test_step s (upd_registry s (receive (t_registry s) ch))
  | TsMonitorEnd s ch : t_monitor s = WLoop ch -> t_cancelled s = true -> test_step s (upd_monitor s WEnd)
  | TsUnwatch s ch name r :
      t_cancelled s = true -> goroutines (t_registry s) !! ch = Some name -> watch_done (t_registry s) name ch = Ret r ->
      test_step s (upd_registry s r)
  | TsCleanup s order r :
      map_order (services (t_registry s)) order -> cleanup (t_registry s) order = Ret r -> test_step s (upd_registry s r).
End program.

(** ** What the registry answers *)

(** The registry mode: at every tick the instances of three services, if any, by
    endpoint, weight and status. *)
Definition registry_report (r : InMemoryRegistry) : list (string * list (string * string * Z * string)) :=
  filter (fun x => x.2 <> [])
    ((fun svc => (svc, (fun p => let i := deref (objects r) p in (ID i, Endpoint i, Weight i, Status i)) <$> GetInstances r svc))
       <$> [player_service; chat_service; "example-service"%string]).

(** The live instances of the players' service. *)
Definition live_players (registered : nat) (down added : bool) : list ptr :=
  (if down then [1; 2]%nat else take registered [0; 1; 2]%nat) ++ (if added then [6%nat] else []).

Definition live_chats (registered : nat) : list ptr := take (registered - 3) [3; 4; 5]%nat.

(** How many of the six instances are registered. *)
Definition registered_count (s : test) : nat := match t_main s with TRegister k => k | _ => 6 end.

Definition is_taken (s : test) : bool := match t_down s with DEnd => true | _ => false end.

(** ** Exact answers of the registry *)

Lemma active_ext h h' l : (forall p, p ∈ l -> is_down h' p = is_down h p) -> active h' l = active h l.
Proof.
  induction l as [|p l IH]; [done|]. intros H. cbn. rewrite (H p) by apply list_elem_of_here.
  by rewrite IH by (intros q Hq; by apply H, list_elem_of_further).
Qed.

Lemma active_app h l l' : active h (l ++ l') = active h l ++ active h l'.
Proof. induction l as [|p l IH]; [done|]. cbn. rewrite IH. by destruct (negb _). Qed.

Lemma active_filter h (q : ptr) i l : Status i = "down"%string ->
  active (<[q := i]> h) l = filter (fun p => p <> q) (active h l).
Proof.
  intros Hi. induction l as [|p l IH]; [done|]. cbn. unfold is_down in *. rewrite deref_insert.
  case_decide as E.
  - subst p. rewrite Hi, bool_decide_eq_true_2 by done. cbn. rewrite IH. destruct (negb _); [|done].
    by rewrite filter_cons_False by (intros H; by apply H).
  - destruct (negb _); [|done]. rewrite filter_cons_True by done. by rewrite IH.
Qed.

Lemma services_alloc r n l p : lb_inv r -> services r !! n = Some l -> p ∈ l -> is_Some (objects r !! p).
Proof. intros Hr Hl Hp. destruct (sv_alloc _ _ _ (li_services r Hr _ _ Hl) p Hp) as (i & -> & _). done. Qed.

(** A new instance comes last. *)
Lemma register_appends r p i :
  lb_inv r -> objects r !! p = None -> Status i <> "down"%string ->
  (forall l q, services r !! Name i = Some l -> q ∈ l -> ID (deref (objects r) q) <> ID i) ->
  exists r', Register (set_object r p i) p = Ret r' /\ objects r' = <[p := i]> (objects r) /\
    forall n, GetInstances r' n = GetInstances r n ++ (if decide (n = Name i) then [p] else []).
Proof.
  intros Hr Hp Hst Hid. assert (lb_inv (set_object r p i)) as Hr1 by (apply set_object_inv; [done|]; intros j; by rewrite Hp).
  assert (objects (set_object r p i) !! p = Some i) as Hp1 by (cbn; by rewrite lookup_insert_eq).
  destruct (register_inv _ _ _ Hr1 Hp1) as (cs & -> & _). eexists. split; [done|]. split; [done|].
  assert (forall n l, services r !! n = Some l -> forall q, q ∈ l -> q <> p) as Hne.
  { intros n l Hl q Hq ->. destruct (services_alloc r n l p Hr Hl Hq) as [j Hj]. congruence. }
  assert (forall n l, services r !! n = Some l -> active (<[p := i]> (objects r)) l = active (objects r) l) as Ha.
  { intros n l Hl. apply active_ext. intros q Hq. unfold is_down. rewrite deref_insert, decide_False; [done|].
    intros <-. by apply (Hne n l Hl p). }
  assert (active (<[p := i]> (objects r)) [p] = [p]) as Hone.
  { cbn. unfold is_down. rewrite deref_insert, decide_True by done. by rewrite bool_decide_eq_false_2. }
  assert (registered (set_object r p i) p = default [] (services r !! Name i) ++ [p]) as Hreg.
  { unfold registered. rewrite (deref_alloc _ _ _ Hp1). cbn [set_object services].
    pose proof (find_id_spec (objects (set_object r p i)) (ID i) (default [] (services r !! Name i))) as Hf.
    destruct (find_id _ _ _) as [k|]; [|done]. destruct Hf as (q & Hq & Hqi & _). apply list_elem_of_lookup_2 in Hq.
    destruct (services r !! Name i) as [l|] eqn:El; [|by apply elem_of_nil in Hq]. exfalso. apply (Hid l q eq_refl Hq).
    cbn in Hqi. rewrite deref_insert, decide_False in Hqi; [done|]. intros <-. by apply (Hne _ l El p). }
  intros n. unfold GetInstances. cbn [services objects set_chans set_service set_object]. rewrite lookup_insert.
  destruct (decide (Name i = n)) as [<-|Hn].
  - rewrite decide_True by done. rewrite Hreg, active_app, Hone. by destruct (services r !! Name i) as [l|] eqn:El; [cbn; rewrite (Ha _ l El)|].
  - rewrite decide_False by done. rewrite app_nil_r. destruct (services r !! n) as [l|] eqn:El; [|done]. by apply (Ha n).
Qed.

(** Deregistering the only instance with an ID takes it out. *)
Lemma deregister_removes r order id p :
  lb_inv r -> map_order (services r) order -> (exists n, holds r n id p) -> (forall n q, holds r n id q -> q = p) ->
  exists r' i, Deregister r order id = Ret r' /\ objects r' = <[p := set_status i "down"]> (objects r) /\ objects r !! p = Some i /\
    forall n, GetInstances r' n = filter (fun q => q <> p) (GetInstances r n).
Proof.
  intros Hr Ho (n0 & l0 & Hl0 & Hp0 & Hid0) Huniq.
  pose proof (deregister_cases r order id Hr (fun n l H => proj1 (map_order_elem _ _ n l Ho) H)) as H.
  destruct (services_alloc r n0 l0 p Hr Hl0 Hp0) as [i Hi].
  destruct (Deregister r order id) as [r'|e|]; [|exfalso; destruct H as [_ H]; eapply (H n0 l0 p); [by apply map_order_elem with (services r)|done..]|done].
  destruct H as (n1 & q & cs & Hq & -> & _). apply Huniq in Hq as ->. exists (set_chans (mark_down r p) cs), i. split; [done|].
  cbn. rewrite (deref_alloc _ _ _ Hi). split; [done|]. split; [done|]. intros n. unfold GetInstances. cbn.
  rewrite (deref_alloc _ _ _ Hi). destruct (services r !! n); [by apply active_filter|done].
Qed.

(** Watching changes no answer. *)
Lemma watch_done_keeps r name ch r' : watch_done r name ch = Ret r' -> objects r' = objects r /\ services r' = services r.
Proof. unfold watch_done. destruct (chans r !! ch) as [c|]; [|done]. destruct (closed c); [done|]. by intros [= <-]. Qed.

Lemma receive_keeps r ch : objects (receive r ch) = objects r /\ services (receive r ch) = services r.
Proof. unfold receive. by destruct (chans r !! ch) as [[[|] ]|]. Qed.

(** ** The invariant of the program *)

Lemma test_instance_id uuid k : ID (test_instance uuid k) = uuid k.
Proof. unfold test_instance. by repeat case_decide. Qed.

Lemma test_instance_active uuid k : Status (test_instance uuid k) = "active"%string.
Proof. unfold test_instance. by repeat case_decide. Qed.

(** Instance [k] with some status. *)
Definition is_test_instance (uuid : nat -> string) (k : nat) (i : ServiceInstance) : Prop :=
  set_status i "active" = test_instance uuid k.

Definition service_of (k : nat) : string := if decide (3 <= k < 6)%nat then chat_service else player_service.

Lemma test_instance_name uuid k : Name (test_instance uuid k) = service_of k.
Proof. unfold test_instance, service_of. repeat case_decide; try done; lia. Qed.

(** The registry against what it should answer: [m] instances are registered. *)
Record registry_ok (uuid : nat -> string) (r : InMemoryRegistry) (m : nat) (down added : bool) : Prop := {
  ro_lb : lb_inv r;
  ro_objects k i : objects r !! k = Some i -> is_test_instance uuid k i;
  ro_alloc k : is_Some (objects r !! k) <-> (k < m)%nat \/ (added = true /\ k = 6%nat);
  ro_players : GetInstances r player_service = live_players m down added;
  ro_chats : GetInstances r chat_service = live_chats m
}.

Section program_runs.
Context (uuid : nat -> string).
(** The UUIDs are different. *)
Context (uuids_differ : forall i j, (i <= 6)%nat -> (j <= 6)%nat -> uuid i = uuid j -> i = j).

Lemma registry_id r m down added k :
  registry_ok uuid r m down added -> is_Some (objects r !! k) -> ID (deref (objects r) k) = uuid k.
Proof.
  intros Hr [i Hi]. rewrite (deref_alloc _ _ _ Hi). rewrite <- test_instance_id. by rewrite <- (ro_objects _ _ _ _ _ Hr k i Hi).
Qed.

Lemma registry_alloc_le r m down added k :
  registry_ok uuid r m down added -> (m <= 6)%nat -> is_Some (objects r !! k) -> (k <= 6)%nat.
Proof. intros Hr Hm Hk%(ro_alloc _ _ _ _ _ Hr). lia. Qed.

(** [add_instance] of a new instance. *)
Lemma registry_add r m down added k :
  registry_ok uuid r m down added -> (m <= 6)%nat -> (k <= 6)%nat -> objects r !! k = None ->
  lb_inv (add_instance uuid r k) /\
  (forall j i, objects (add_instance uuid r k) !! j = Some i -> is_test_instance uuid j i) /\
  (forall j, is_Some (objects (add_instance uuid r k) !! j) <-> j = k \/ is_Some (objects r !! j)) /\
  forall n, GetInstances (add_instance uuid r k) n = GetInstances r n ++ (if decide (n = service_of k) then [k] else []).
Proof.
  intros Hr Hm Hk Hn. unfold add_instance.
  destruct (register_appends r k (test_instance uuid k)) as (r' & Hreg & Hob & Hg).
  - apply Hr.
  - done.
  - by rewrite test_instance_active.
  - intros l q Hl Hq. pose proof (services_alloc r _ l q (ro_lb _ _ _ _ _ Hr) Hl Hq) as Hal.
    rewrite (registry_id _ _ _ _ q Hr Hal), test_instance_id. intros E.
    apply uuids_differ in E; [|by eapply registry_alloc_le|done]. subst q. rewrite Hn in Hal. by destruct Hal.
  - assert (objects (set_object r k (test_instance uuid k)) !! k = Some (test_instance uuid k)) as Hal by (cbn; by rewrite lookup_insert_eq).
    assert (lb_inv (set_object r k (test_instance uuid k))) as Hl by (apply set_object_inv; [apply Hr|]; intros j; by rewrite Hn).
    destruct (register_inv _ _ _ Hl Hal) as (cs & Hreg' & Hl'). rewrite Hreg in Hreg'. injection Hreg' as E. rewrite Hreg. rewrite <- E in Hl'.
    split; [done|]. rewrite Hob. split; [|split].
    + intros j i [[-> <-]|[_ Hj]]%lookup_insert_Some; [|by apply (ro_objects _ _ _ _ _ Hr)].
      unfold is_test_instance, set_status. rewrite <- (test_instance_active uuid j). by destruct (test_instance uuid j).
    + intros j. rewrite lookup_insert. case_decide; naive_solver.
    + intros n. by rewrite Hg, test_instance_name.
Qed.

Lemma registry_next r m :
  registry_ok uuid r m false false -> (m < 6)%nat -> registry_ok uuid (add_instance uuid r m) (S m) false false.
Proof.
  intros Hr Hm. destruct (registry_add r m false false m Hr ltac:(lia) ltac:(lia)) as (H1 & H2 & H3 & H4).
  { apply eq_None_not_Some. rewrite (ro_alloc _ _ _ _ _ Hr). naive_solver lia. }
  split; [done..| | |]; rewrite ?H4, ?(ro_players _ _ _ _ _ Hr), ?(ro_chats _ _ _ _ _ Hr).
  - intros j. rewrite H3, (ro_alloc _ _ _ _ _ Hr). naive_solver lia.
  - destruct m as [|[|[|[|[|[|m]]]]]]; [done..|lia].
  - destruct m as [|[|[|[|[|[|m]]]]]]; [done..|lia].
Qed.

Lemma registry_late r down :
  registry_ok uuid r 6 down false -> registry_ok uuid (add_instance uuid r 6) 6 down true.
Proof.
  intros Hr. destruct (registry_add r 6 down false 6 Hr ltac:(lia) ltac:(lia)) as (H1 & H2 & H3 & H4).
  { apply eq_None_not_Some. rewrite (ro_alloc _ _ _ _ _ Hr). naive_solver lia. }
  split; [done..| | |]; rewrite ?H4, ?(ro_players _ _ _ _ _ Hr), ?(ro_chats _ _ _ _ _ Hr).
  - intros j. rewrite H3, (ro_alloc _ _ _ _ _ Hr). naive_solver lia.
  - by destruct down.
  - done.
Qed.

Lemma registry_down r order added :
  registry_ok uuid r 6 false added -> map_order (services r) order ->
  exists r', Deregister r order (ID (deref (objects r) 0%nat)) = Ret r' /\ registry_ok uuid r' 6 true added.
Proof.
  intros Hr Ho. assert (0%nat ∈ GetInstances r player_service) as H0 by (rewrite (ro_players _ _ _ _ _ Hr); exact (list_elem_of_here _ _)).
  apply elem_of_GetInstances in H0 as (l & Hl & Hin & _).
  assert (is_Some (objects r !! 0%nat)) as Hal by (by eapply services_alloc; [apply Hr|..]).
  destruct (deregister_removes r order (ID (deref (objects r) 0%nat)) 0%nat) as (r' & i & Hd & Hob & Hi & Hg).
  - apply Hr.
  - done.
  - exists player_service, l. done.
  - intros n q (l' & Hl' & Hq & Hid). assert (is_Some (objects r !! q)) as Hqa by (by eapply services_alloc; [apply Hr|..]).
    rewrite (registry_id _ _ _ _ _ Hr Hqa), (registry_id _ _ _ _ _ Hr Hal) in Hid.
    apply uuids_differ in Hid; [done|by eapply registry_alloc_le|lia].
  - exists r'. split; [done|]. split.
    + pose proof (deregister_cases r order (ID (deref (objects r) 0%nat)) (ro_lb _ _ _ _ _ Hr) (fun n l H => proj1 (map_order_elem _ _ n l Ho) H)) as H.
      rewrite Hd in H. by destruct H as (? & ? & ? & _ & _ & ?).
    + rewrite Hob. intros k j [[<- <-]|[_ Hj]]%lookup_insert_Some; [|by apply (ro_objects _ _ _ _ _ Hr)]. exact (ro_objects _ _ _ _ _ Hr 0%nat i Hi).
    + intros k. rewrite Hob, lookup_insert. case_decide as E; [|apply (ro_alloc _ _ _ _ _ Hr)]. subst k.
      rewrite <- (ro_alloc _ _ _ _ _ Hr). naive_solver.
    + rewrite Hg, (ro_players _ _ _ _ _ Hr). by destruct added.
    + rewrite Hg, (ro_chats _ _ _ _ _ Hr). done.
Qed.

(** Steps that change no answer. *)
Lemma registry_same r r' m down added :
  registry_ok uuid r m down added -> lb_inv r' -> objects r' = objects r -> (forall n, GetInstances r' n = GetInstances r n) ->
  registry_ok uuid r' m down added.
Proof. intros [H1 H2 H3 H4 H5] Hl Ho Hg. split; rewrite ?Ho, ?Hg; done. Qed.

(** *** Choosing *)

(** The selectors of the program after [n] requests for players. *)
Definition balancer_at (lb : LoadBalancer) (n : nat) : Prop :=
  selectors lb = selectors test_balancer /\
  selector_at lb !! 0%nat = Some (SelRoundRobin (MkRoundRobin (Z.of_nat n))) /\ selector_at lb !! 1%nat = Some (SelWeighted MkWeightedSelector).

(** The answers that are expected of a service. *)
Definition answered (service : string) (o : outcome LbError ptr) : Prop := exists p, o = Ret p /\ service_of p = service.

Lemma player_choice intn lb r n down added :
  registry_ok uuid r 6 down added -> balancer_at lb n -> (n < 10)%nat ->
  exists lb' o, GetInstance intn lb r player_service = (lb', o) /\ balancer_at lb' (S n) /\ answered player_service o /\
    (down = false -> added = false -> o = Ret (n mod 3)%nat).
Proof.
  intros Hr (Hs & H0 & H1) Hn. unfold GetInstance. cbn [reg_GetInstances reg_heap inmemory_registry]. rewrite (ro_players _ _ _ _ _ Hr).
  assert (selectors lb !! player_service = Some 0%nat) as Hsel by (rewrite Hs; by vm_compute).
  unfold selector_for, store_selector. rewrite Hsel. cbn [mbind option_bind]. rewrite H0.
  set (l := live_players 6 down added). assert (l <> []) as Hl by (unfold l, live_players; by destruct down).
  rewrite decide_False by (by intros ?%nil_length_inv). cbn [default Select any_selector]. unfold dispatch_Select. cbn [id Select roundrobin_selector].
  unfold roundrobin_Select. rewrite decide_False by (by intros ?%nil_length_inv). cbn [nextIdx].
  destruct (index_in_range (E := LbError) l (Z.rem (Z.of_nat n) (llen l))) as (p & Hp & Hin).
  { apply Z.rem_bound_pos; [lia|]. unfold llen. destruct l; [done|]. cbn. lia. }
  eexists _, _. split; [reflexivity|]. split_and!.
  - split; [done|]. cbn. rewrite lookup_insert_eq, lookup_insert_ne by done. split; [|done]. do 3 f_equal.
    rewrite int64_small by lia. lia.
  - exists p. split; [done|]. apply list_elem_of_lookup_2 in Hin. unfold l, live_players in Hin.
    assert (p ∈ [0; 1; 2; 6]%nat) as Hp' by (destruct down, added; cbn in Hin; set_solver).
    rewrite !elem_of_cons, elem_of_nil in Hp'. by destruct Hp' as [-> |[-> |[-> |[-> |[]]]]].
  - intros -> ->. unfold l. do 10 (destruct n as [|n]; [by vm_compute|]). lia.
Qed.

Lemma chat_choice intn lb r n down added :
  registry_ok uuid r 6 down added -> balancer_at lb n -> intn_in_range intn ->
  exists lb' o, GetInstance intn lb r chat_service = (lb', o) /\ balancer_at lb' n /\ answered chat_service o.
Proof.
  intros Hr (Hs & H0 & H1) Hi. unfold GetInstance. cbn [reg_GetInstances reg_heap inmemory_registry]. rewrite (ro_chats _ _ _ _ _ Hr).
  assert (selectors lb !! chat_service = Some 1%nat) as Hsel by (rewrite Hs; by vm_compute).
  unfold selector_for, store_selector. rewrite Hsel. cbn [mbind option_bind]. rewrite H1. change (live_chats 6) with [3; 4; 5]%nat.
  rewrite decide_False by done. cbn [default Select any_selector]. unfold dispatch_Select. cbn [id Select weighted_selector].
  assert (forall k, (k < 6)%nat -> weight_of (objects r) k = weight_of {[ k := test_instance uuid k ]} k) as Hw.
  { intros k Hk. destruct (proj2 (ro_alloc _ _ _ _ _ Hr k) (or_introl Hk)) as [i Hk']. unfold weight_of, deref.
    rewrite Hk', lookup_singleton_eq. change (default no_instance (Some ?x)) with x.
    pose proof (ro_objects _ _ _ _ _ Hr k i Hk') as E. unfold is_test_instance in E. rewrite <- E. done. }
  destruct (weighted_Select_scan intn (objects r) MkWeightedSelector [3; 4; 5]%nat) as (p & Hp & _ & ->); [done|done| |].
  { cbn [sum]. rewrite !Hw by lia. unfold weight_of, deref. rewrite !lookup_singleton_eq. by vm_compute. }
  eexists _, _. split; [reflexivity|]. split.
  - split; [done|]. cbn. rewrite lookup_insert_eq, lookup_insert_ne by done. done.
  - exists p. split; [done|]. rewrite !elem_of_cons, elem_of_nil in Hp. by destruct Hp as [-> |[-> |[-> |[]]]].
Qed.

(** *** Runs *)

Record test_ok (s : test) : Prop := {
  to_registry : registry_ok uuid (t_registry s) (registered_count s) (is_taken s) (t_added s);
  to_count : (registered_count s <= 6)%nat;
  to_early : started s = false -> t_down s = DWait /\ t_added s = false /\ t_cancelled s = false;
  to_got p : t_down s = DGot p -> p = 0%nat;
  to_lb : balancer_at (t_lb s) (length (answers (t_player s)));
  to_players : Forall (answered player_service) (answers (t_player s));
  to_chats : Forall (answered chat_service) (answers (t_chat s));
  to_bounds : (length (answers (t_player s)) <= 10)%nat /\ (length (answers (t_chat s)) <= 10)%nat;
  to_turns : is_taken s = false -> t_added s = false ->
    answers (t_player s) = (fun k => Ret (k mod 3)%nat) <$> seq 0 (length (answers (t_player s)));
  to_waits : t_cancelled s = false -> t_main s <> TWait /\ t_main s <> TReturned;
  to_ended : t_cancelled s = false ->
    (ended (t_player s) = true -> length (answers (t_player s)) = 10%nat) /\ (ended (t_chat s) = true -> length (answers (t_chat s)) = 10%nat)
}.

Lemma started_count s : started s = true -> registered_count s = 6%nat.
Proof. unfold started, registered_count. by destruct (t_main s). Qed.

Lemma test_ok_registry s r :
  test_ok s -> lb_inv r -> objects r = objects (t_registry s) -> (forall n, GetInstances r n = GetInstances (t_registry s) n) ->
  test_ok (upd_registry s r).
Proof. intros [? ? ? ? ? ? ? ? ? ? ?] Hl Ho Hg. split; [|done..]. by eapply registry_same. Qed.

Lemma test_ok_monitor s w : test_ok s -> test_ok (upd_monitor s w).
Proof. intros [? ? ? ? ? ? ? ? ? ? ?]. by split. Qed.

Lemma get_same r r' : objects r' = objects r -> services r' = services r -> forall n, GetInstances r' n = GetInstances r n.
Proof. intros Ho Hs n. unfold GetInstances. by rewrite Ho, Hs. Qed.

(** A state of the clients that goes with the rest. *)
Record clients_ok (s : test) (lb : LoadBalancer) (p c : requests) : Prop := {
  ck_lb : balancer_at lb (length (answers p));
  ck_players : Forall (answered player_service) (answers p);
  ck_chats : Forall (answered chat_service) (answers c);
  ck_bounds : (length (answers p) <= 10)%nat /\ (length (answers c) <= 10)%nat;
  ck_turns : is_taken s = false -> t_added s = false -> answers p = (fun k => Ret (k mod 3)%nat) <$> seq 0 (length (answers p));
  ck_ended : t_cancelled s = false ->
    (ended p = true -> length (answers p) = 10%nat) /\ (ended c = true -> length (answers c) = 10%nat)
}.

Lemma test_ok_clients s lb p c : test_ok s -> clients_ok s lb p c -> test_ok (upd_clients s lb p c).
Proof. intros [? ? ? ? ? ? ? ? ? ? ?] [? ? ? ? ? ?]. by split. Qed.

Lemma player_turn_ok intn s : test_ok s -> started s = true -> test_ok (player_turn intn s).
Proof.
  intros Hok Hst. pose proof Hok as [H1 _ _ _ H5 H6 H7 H8 H9 _ H11]. rewrite (started_count _ Hst) in H1. unfold player_turn, client_turn.
  case_decide as Hl; [destruct (t_cancelled s) eqn:Hc|].
  - apply test_ok_clients; [done|]. split; cbn; try done. by rewrite Hc.
  - destruct (player_choice intn (t_lb s) (t_registry s) (length (answers (t_player s))) _ _ H1 H5 Hl) as (lb & o & -> & Hlb & Ho & Ht).
    apply test_ok_clients; [done|]. split; cbn; rewrite ?length_app; cbn; try done.
    + by rewrite Nat.add_1_r.
    + apply Forall_app. split; [done|by apply Forall_singleton].
    + lia.
    + intros Hd Ha. rewrite seq_app, fmap_app. cbn. rewrite (H9 Hd Ha) at 1. by rewrite (Ht Hd Ha).
    + intros _. split; [done|by apply H11].
  - apply test_ok_clients; [done|]. split; cbn; try done. intros Hc. split; [lia|by apply H11].
Qed.

Lemma chat_turn_ok intn s : test_ok s -> started s = true -> intn_in_range intn -> test_ok (chat_turn intn s).
Proof.
  intros Hok Hst Hi. pose proof Hok as [H1 _ _ _ H5 H6 H7 H8 H9 _ H11]. rewrite (started_count _ Hst) in H1. unfold chat_turn, client_turn.
  case_decide as Hl; [destruct (t_cancelled s) eqn:Hc|].
  - apply test_ok_clients; [done|]. split; cbn; try done. by rewrite Hc.
  - destruct (chat_choice intn (t_lb s) (t_registry s) _ _ _ H1 H5 Hi) as (lb & o & -> & Hlb & Ho).
    apply test_ok_clients; [done|]. split; cbn; rewrite ?length_app; cbn; try done.
    + apply Forall_app. split; [done|by apply Forall_singleton].
    + lia.
    + intros _. split; [|done]. by apply H11.
  - apply test_ok_clients; [done|]. split; cbn; try done. intros Hc. split; [by apply H11|lia].
Qed.

Lemma test_step_ok s s' : test_step uuid s s' -> test_ok s -> test_ok s'.
Proof.
  intros Hs Hok. pose proof Hok as [H1 H2 H3 H4 H5 H6 H7 H8 H9 H10 H11].
  destruct Hs as [s k Hm Hk|s Hm|s Hm|s Hm Hc|s Hm Hp Hc|s intn Hst _ _|s intn Hst _ Hi|s Hst Hd|s p order Hd Ho|s Hst Ha|s _|s ch _|s ch _ _|s ch name r _ Hg Hw|s order r Ho Hcl].
  - destruct H3 as (Hd & Ha & Hc); [by unfold started; rewrite Hm|]. unfold registered_count, is_taken in H1. rewrite Hm, Hd, Ha in H1.
    split; cbn; try done; try lia.
    + unfold registered_count, is_taken. cbn. rewrite Hd, Ha. by apply registry_next.
  - unfold registered_count in H1. rewrite Hm in H1. by split.
  - unfold registered_count in H1. rewrite Hm in H1. split; try done.
  - unfold registered_count in H1. rewrite Hm in H1. by split.
  - unfold registered_count in H1. rewrite Hm in H1. split; try done. cbn. intros Hcc. by destruct (H10 Hcc).
  - by apply player_turn_ok.
  - by apply chat_turn_ok.
  - unfold down_fetch. assert (is_taken s = false) as Ht by (unfold is_taken; by rewrite Hd). rewrite (started_count _ Hst), Ht in H1.
    rewrite (ro_players _ _ _ _ _ H1). change (live_players 6 false (t_added s)) with (0 :: 1 :: 2 :: if t_added s then [6] else [])%nat.
    split; try done.
    + cbn. unfold registered_count, is_taken. cbn. fold (registered_count s). by rewrite (started_count _ Hst).
    + intros E. unfold started in *. cbn in E. congruence.
    + by intros p [= <-].
    + intros _. by apply H9.
  - assert (started s = true) as Hst by (destruct (started s); [done|]; destruct H3 as [? _]; congruence).
    assert (is_taken s = false) as Ht by (unfold is_taken; by rewrite Hd). rewrite (started_count _ Hst), Ht in H1.
    apply H4 in Hd as ->. unfold down_deregister. destruct (registry_down _ order _ H1 Ho) as (r & -> & Hr).
    split; try done.
    + unfold registered_count, is_taken. cbn. fold (registered_count s). by rewrite (started_count _ Hst).
    + intros E. unfold started in *. cbn in E. congruence.
  - rewrite (started_count _ Hst), Ha in H1. split; try done.
    + unfold registered_count, is_taken. cbn. fold (registered_count s) (is_taken s). rewrite (started_count _ Hst). by apply registry_late.
    + intros E. unfold started in *. cbn in E. congruence.
  - apply test_ok_monitor, test_ok_registry; [done|apply watch_service_inv, H1|done|by apply get_same].
  - destruct (receive_keeps (t_registry s) ch). apply test_ok_registry; [done|apply receive_inv, H1|done|by apply get_same].
  - by apply test_ok_monitor.
  - destruct (watch_done_keeps _ _ _ _ Hw). destruct (watch_done_inv (t_registry s) name ch) as (r' & Hw' & Hr'); [apply H1|done|].
    rewrite Hw in Hw'. injection Hw' as <-. apply test_ok_registry; [done|done|done|by apply get_same].
  - destruct (cleanup_spec (t_registry s) order) as (r' & Hc' & Hr & Hob & Hsv);
      [apply H1|intros *; by apply map_order_elem|by eapply map_order_nodup|].
    rewrite Hc' in Hcl. injection Hcl as <-. apply test_ok_registry; [done..|]. intros n. unfold GetInstances. rewrite Hsv, Hob.
    destruct (services (t_registry s) !! n); [|done]. cbn. case_decide; [by rewrite active_idemp|done].
Qed.

Lemma test_reach_ok s : rtc (test_step uuid) test_start s -> test_ok s.
Proof.
  intros Hr. assert (test_ok test_start) as H0.
  { split; try done; cbn; try lia.
    - split; [apply lb_reachable_inv, rtc_refl|done| |done|done]. intros k. cbn. rewrite lookup_empty. split; [by intros []|]. intros [?|[? _]]; [lia|done]. }
  induction Hr as [s|a b s Hab _ IH]; [done|]. by eapply IH, test_step_ok.
Qed.

(** The test program under any schedule: every request of either client gets an
    instance of its service, although an instance is taken out and another added
    in between; while neither has happened the players' requests go to the three
    instances in turn. *)
Theorem lbt_requests_served s (Hrun : rtc (test_step uuid) test_start s) :
  Forall (answered player_service) (answers (t_player s)) /\ Forall (answered chat_service) (answers (t_chat s)) /\
  (is_taken s = false -> t_added s = false ->
     answers (t_player s) = (fun k => Ret (k mod 3)%nat) <$> seq 0 (length (answers (t_player s)))).
Proof. destruct (test_reach_ok s Hrun). done. Qed.

(** C30: the registry of the test program refines the list of what should be live: at
    every point of every run the players' service answers with the instances registered so far
    without the first one once it is taken out, then the late one, and the chat service
    with its own. *)
Theorem lbt_registry_refines s (Hrun : rtc (test_step uuid) test_start s) :
  GetInstances (t_registry s) player_service = live_players (registered_count s) (is_taken s) (t_added s) /\
  GetInstances (t_registry s) chat_service = live_chats (registered_count s).
Proof. destruct (to_registry s (test_reach_ok s Hrun)). done. Qed.

(** The test program does not end by itself: until it is interrupted it is
    registering or waits in its [select], and both clients may have made all ten
    requests; once it is interrupted it can return. *)
Theorem lbt_waits_for_interrupt s (Hrun : rtc (test_step uuid) test_start s) :
  (t_cancelled s = false ->
     t_main s <> TReturned /\ t_main s <> TWait /\
     (ended (t_player s) = true -> length (answers (t_player s)) = 10%nat) /\ (ended (t_chat s) = true -> length (answers (t_chat s)) = 10%nat)) /\
  (t_cancelled s = true -> exists s', rtc (test_step uuid) s s' /\ t_main s' = TReturned).
Proof.
  destruct (test_reach_ok s Hrun) as [_ _ H3 _ _ _ _ _ _ H10 H11]. split.
  - intros Hc. destruct (H10 Hc). split_and!; [done|done|by apply H11..].
  - intros Hc. assert (started s = true) as Hst by (destruct (started s); [done|]; destruct H3 as (_ & _ & ?); [done|congruence]).
    assert (forall s0, started s0 = true -> t_cancelled s0 = true -> exists s1, rtc (test_step uuid) s0 s1 /\
      ended (t_player s1) = true /\ ended (t_chat s1) = ended (t_chat s0) /\ t_main s1 = t_main s0 /\ t_cancelled s1 = true) as Hp.
    { intros s0 Hs0 Hc0. destruct (ended (t_player s0)) eqn:E; [by exists s0|]. eexists. split.
      - apply rtc_once, (TsPlayer uuid s0 (fun _ => 0)); [done..|]. intros n; lia.
      - unfold player_turn, client_turn. rewrite Hc0. by case_decide. }
    assert (forall s0, started s0 = true -> t_cancelled s0 = true -> exists s1, rtc (test_step uuid) s0 s1 /\
      ended (t_chat s1) = true /\ ended (t_player s1) = ended (t_player s0) /\ t_main s1 = t_main s0 /\ t_cancelled s1 = true) as Hch.
    { intros s0 Hs0 Hc0. destruct (ended (t_chat s0)) eqn:E; [by exists s0|]. eexists. split.
      - apply rtc_once, (TsChat uuid s0 (fun _ => 0)); [done..|]. intros n; lia.
      - unfold chat_turn, client_turn. rewrite Hc0. by case_decide. }
    destruct (Hp s Hst Hc) as (s1 & Hr1 & Hp1 & _ & Hm1 & Hc1).
    destruct (Hch s1) as (s2 & Hr2 & Hch2 & Hp2 & Hm2 & Hc2); [by unfold started in *; rewrite Hm1|done|].
    assert (t_main s2 = t_main s) as Hm by congruence. assert (ended (t_player s2) = true) as Hp2' by congruence.
    destruct (t_main s) as [k| | |] eqn:Em; [by unfold started in Hst; rewrite Em in Hst| | |].
    + eexists. split; [|exact (eq_refl : t_main (upd_main (upd_main s2 TWait true) TReturned true) = TReturned)].
      etrans; [exact Hr1|]. etrans; [exact Hr2|]. eapply rtc_l; [by apply TsInterrupt|].
      apply rtc_once. by apply (TsReturn uuid (upd_main s2 TWait true)).
    + eexists. split; [|exact (eq_refl : t_main (upd_main s2 TReturned (t_cancelled s2)) = TReturned)].
      etrans; [exact Hr1|]. etrans; [exact Hr2|]. apply rtc_once. by apply TsReturn.
    + exists s2. split; [by etrans|done].
Qed.
End program_runs.

(** In the registry mode nobody registers, so that nothing is ever printed. *)
Theorem lbt_registry_mode_silent r
    (Hrun : rtc (fun r r' => exists order, map_order (services r) order /\ cleanup r order = Ret r') NewInMemoryRegistry r) :
  registry_report r = [].
Proof.
  assert (services r = ∅) as Hs.
  { assert (services NewInMemoryRegistry = ∅) as H0 by done. induction Hrun as [r|a b r (order & Ho & Hc) _ IH]; [done|].
    by eapply IH, no_services_cleanup. }
  unfold registry_report, GetInstances. rewrite Hs. cbn. by rewrite !lookup_empty.
Qed.

(** ** Examples *)

Definition sample_uuids (k : nat) : string := pretty k.

Lemma sample_uuids_differ i j : (i <= 6)%nat -> (j <= 6)%nat -> sample_uuids i = sample_uuids j -> i = j.
Proof. intros _ _. apply (inj pretty). Qed.

(** All six instances are registered, the first player's is taken out, one request. *)
Lemma sample_test_run : exists s, rtc (test_step sample_uuids) test_start s /\ is_taken s = true /\
  GetInstances (t_registry s) player_service = [1; 2]%nat /\ length (answers (t_player s)) = 1%nat.
Proof.
  eexists. split.
  - do 6 (eapply rtc_l; [by apply TsRegister; [vm_compute; reflexivity|lia]|]). eapply rtc_l; [by apply TsRegistered; vm_compute|].
    eapply rtc_l; [apply TsDownFetch; by vm_compute|]. eapply rtc_l; [eapply TsDown; [by vm_compute|apply map_order_default]|].
    apply rtc_once, (TsPlayer _ _ (fun _ => 0)); [by vm_compute..|]. intros n; lia.
  - by vm_compute.
Qed.

Lemma lbt_requests_served_witness : exists s, rtc (test_step sample_uuids) test_start s /\
  length (answers (t_player s)) = 1%nat /\ Forall (answered player_service) (answers (t_player s)).
Proof.
  destruct sample_test_run as (s & Hr & _ & _ & Hl). exists s. split; [exact Hr|]. split; [exact Hl|].
  apply (lbt_requests_served sample_uuids sample_uuids_differ s Hr).
Defined.

Lemma lbt_registry_refines_witness : exists s, rtc (test_step sample_uuids) test_start s /\
  GetInstances (t_registry s) player_service = live_players (registered_count s) true (t_added s).
Proof.
  destruct sample_test_run as (s & Hr & Ht & _). exists s. split; [exact Hr|]. rewrite <- Ht.
  apply (lbt_registry_refines sample_uuids sample_uuids_differ s Hr).
Defined.

Lemma lbt_waits_for_interrupt_witness : t_main test_start <> TReturned.
Proof. apply (lbt_waits_for_interrupt sample_uuids sample_uuids_differ test_start (rtc_refl _ _)). reflexivity. Defined.

Lemma lbt_registry_mode_silent_witness : registry_report NewInMemoryRegistry = [].
Proof. apply (lbt_registry_mode_silent NewInMemoryRegistry). apply rtc_refl. Defined.
