(* ===== verification/LbServer.v ===== *)
(** * The example server and client of the load balancer
      ([examples/load_balancer/server], [examples/load_balancer/client])

    Two programs over [LoadBalancer.v].  The server registers itself, renews its
    registration at every tick, takes commands from a console and is to end on a
    signal; the client balances requests over the instances it finds.  The
    goroutines of each program are cut where they write what they share or wait;
    standard input is the list of runes that will be typed, read by [fmt.Scanln]. *)

From stdpp Require Import base gmap strings pretty fin_maps numbers relations list.
From Stdlib Require Import ZArith Lia.
From S2P Require Import Prelude Selection LoadBalancer RpcServices.

Local Open Scope Z_scope.

(** ** Reading a command *)

(** The spaces of [fmt]. *)
Definition is_space (r : Z) : bool :=
  existsb (fun '(lo, hi) => (lo <=? r) && (r <=? hi))
    [(9, 13); (32, 32); (133, 133); (160, 160); (5760, 5760); (8192, 8202); (8232, 8233); (8239, 8239); (8287, 8287); (12288, 12288)].

Definition newline : Z := 10.

(** The runes of a word, and what follows it. *)
Fixpoint scan_word (l : list Z) : list Z * list Z :=
  match l with
  | [] => ([], [])
  | r :: rest => if is_space r then ([], l) else let '(w, after) := scan_word rest in (r :: w, after)
  end.

(** The end of a line: the first rune that is no space is taken as well. *)
Fixpoint scan_end (l : list Z) : list Z :=
  match l with
  | [] => []
  | r :: rest => if (r =? newline) || negb (is_space r) then rest else scan_end rest
  end.

(** [fmt.Scanln(&cmd)] with [cmd] empty before: what it leaves to be read, and [cmd].
    A newline before the word, and the end of the input, leave it empty. *)
Fixpoint Scanln (l : list Z) : list Z * list Z :=
  match l with
  | [] => ([], [])
  | r :: rest =>
      if r =? newline then (rest, [])
      else if is_space r then Scanln rest
      else let '(w, after) := scan_word l in (scan_end after, w)
  end.

(** The runes of a text of the program. *)
Definition runes (s : string) : list Z := byte_val <$> str_bytes s.

Definition is_digit (r : Z) : bool := (48 <=? r) && (r <=? 57).

Definition digits_value (l : list Z) : Z := fold_left (fun n r => n * 10 + (r - 48)) l 0.

(** [strconv.Atoi]: a sign, digits, the range of [int]. *)
Definition Atoi (l : list Z) : option Z :=
  let '(neg, ds) := match l with
                    | 45 :: ds => (true, ds)
                    | 43 :: ds => (false, ds)
                    | _ => (false, l)
                    end in
  if bool_decide (ds = []) || negb (forallb is_digit ds) then None
  else
    let n := if neg : bool then - digits_value ds else digits_value ds in
    if (- 2 ^ 63 <=? n) && (n <? 2 ^ 63) then Some n else None.

Inductive command := CmdStatus | CmdDown | CmdUp | CmdExit | CmdWeight (w : option Z) | CmdUnknown.

(** The switch over the command. *)
Definition parse_command (cmd : list Z) : command :=
  if bool_decide (cmd = runes "status") then CmdStatus
  else if bool_decide (cmd = runes "down") then CmdDown
  else if bool_decide (cmd = runes "up") then CmdUp
  else if bool_decide (cmd = runes "exit") then CmdExit
  else if bool_decide (7 < length cmd)%nat && bool_decide (take 7 cmd = runes "weight ") then CmdWeight (Atoi (drop 7 cmd))
  else CmdUnknown.

(** ** The server *)

Record server_flags := MkServerFlags {
  f_id : string;
  f_service : string;
  f_port : Z;
  f_weight : Z;
  f_zone : string
}.

(** The ID of the flag, or the first eight characters of a new UUID. *)
Definition server_id (f : server_flags) (uuid : string) : string :=
  if bool_decide (f_id f = ""%string) then String.substring 0 8 uuid else f_id f.

Definition server_instance (f : server_flags) (uuid : string) : ServiceInstance :=
  MkInstance (server_id f uuid) (f_service f) ("localhost:" +:+ pretty (f_port f)) {[ "zone"%string := f_zone f ]} (f_weight f) "active".

(** [ExampleService.Hello] *)
Definition Hello (serverID name : string) : string := "Hello, " +:+ name +:+ "! From server " +:+ serverID.

(** Where the goroutines are: the one that waits for a signal, the console, the
    health check and the program itself. *)
Inductive handler_pc := HWait | HCancel | HEnd.
Inductive console_pc := CLoop | CRead | CRegister | CSend | CEnd.
Inductive health_pc := KWait | KRegister | KEnd.
Inductive server_pc := MListen | MRegister | MServe | MWait | MStop | MReturned | MFatal.

(** [sv_signals]: how many signals the channel buffers, at most one.  [sv_stopped]:
    whether [GracefulStop] of the gRPC server was called. *)
Record server := MkServer {
  sv_registry : InMemoryRegistry;
  sv_signals : nat;
  sv_handler : handler_pc;
  sv_cancelled : bool;
  sv_console : option console_pc;
  sv_health : option health_pc;
  sv_main : server_pc;
  sv_stopped : bool;
  sv_stdin : list Z
}.

(** The address of the instance. *)
Definition instance_ptr : ptr := 0%nat.

Definition server_start (f : server_flags) (uuid : string) (stdin : list Z) : server :=
  MkServer (set_object NewInMemoryRegistry instance_ptr (server_instance f uuid)) 0 HWait false None None MListen false stdin.

Definition with_registry (s : server) (r : InMemoryRegistry) : server :=
  MkServer r (sv_signals s) (sv_handler s) (sv_cancelled s) (sv_console s) (sv_health s) (sv_main s) (sv_stopped s) (sv_stdin s).

Definition with_signals (s : server) (n : nat) : server :=
  MkServer (sv_registry s) n (sv_handler s) (sv_cancelled s) (sv_console s) (sv_health s) (sv_main s) (sv_stopped s) (sv_stdin s).

Definition with_handler (s : server) (h : handler_pc) (cancelled : bool) : server :=
  MkServer (sv_registry s) (sv_signals s) h cancelled (sv_console s) (sv_health s) (sv_main s) (sv_stopped s) (sv_stdin s).

Definition with_console (s : server) (c : console_pc) (stdin : list Z) : server :=
  MkServer (sv_registry s) (sv_signals s) (sv_handler s) (sv_cancelled s) (Some c) (sv_health s) (sv_main s) (sv_stopped s) stdin.

Definition with_health (s : server) (k : health_pc) : server :=
  MkServer (sv_registry s) (sv_signals s) (sv_handler s) (sv_cancelled s) (sv_console s) (Some k) (sv_main s) (sv_stopped s) (sv_stdin s).

Definition with_main (s : server) (m : server_pc) (stopped : bool) : server :=
  MkServer (sv_registry s) (sv_signals s) (sv_handler s) (sv_cancelled s) (sv_console s) (sv_health s) m stopped (sv_stdin s).

Definition set_weight (i : ServiceInstance) (w : Z) : ServiceInstance :=
  MkInstance (ID i) (Name i) (Endpoint i) (Tags i) w (Status i).

(** A write to a field of [instance], which the registry shares. *)
Definition write_instance (s : server) (f : ServiceInstance -> ServiceInstance) : server :=
  with_registry s (set_object (sv_registry s) instance_ptr (f (deref (objects (sv_registry s)) instance_ptr))).

(** The body of the console's loop up to a [Register] or a send. *)
Definition console_read (s : server) : server :=
  let '(rest, cmd) := Scanln (sv_stdin s) in
  match parse_command cmd with
  | CmdDown => with_console (write_instance s (fun i => set_status i "down")) CRegister rest
  | CmdUp => with_console (write_instance s (fun i => set_status i "active")) CRegister rest
  | CmdWeight (Some w) => with_console (write_instance s (fun i => set_weight i w)) CRegister rest
  | CmdExit => with_console s CSend rest
  | CmdStatus | CmdWeight None | CmdUnknown => with_console s CLoop rest
  end.

(** [Register] has returned: the program goes on, with the two goroutines, or ends. *)
Definition main_registered (s : server) (o : outcome LbError InMemoryRegistry) : server :=
  match o with
  | Ret r => with_main (with_console (with_health (with_registry s r) KWait) CLoop (sv_stdin s)) MServe (sv_stopped s)
  | _ => with_main s MFatal (sv_stopped s)
  end.

(** The result of a [Register] or [Deregister] that is only logged. *)
Definition logged (s : server) (o : outcome LbError InMemoryRegistry) : server :=
  match o with Ret r => with_registry s r | _ => s end.

(** How [Serve] ends: without an error or with [ErrServerStopped], or with another. *)
Inductive serve_result := ServeStopped | ServeError.

Section server.
(** What [grpc.Server.Serve] may return, given whether the server was stopped. *)
Context (serve_may : bool -> serve_result -> Prop).

Inductive server_step : server -> server -> Prop :=
  | SvSignal s : server_step s (with_signals s (if decide (sv_signals s < 1)%nat then S (sv_signals s) else sv_signals s))
  | SvHandle s n order :
      sv_handler s = HWait -> sv_signals s = S n -> map_order (services (sv_registry s)) order ->
      server_step s (with_handler (logged (with_signals s n)
        (Deregister (sv_registry s) order (ID (deref (objects (sv_registry s)) instance_ptr)))) HCancel (sv_cancelled s))
  | SvCancel s : sv_handler s = HCancel -> server_step s (with_handler s HEnd true)
  | SvListen s (ok : bool) :
      sv_main s = MListen -> server_step s (with_main s (if ok then MRegister else MFatal) (sv_stopped s))
  | SvRegister s :
      sv_main s = MRegister -> Register (sv_registry s) instance_ptr <> Panic ->
      server_step s (main_registered s (Register (sv_registry s) instance_ptr))
  | SvTick s :
      sv_health s = Some KWait -> server_step s (with_health (write_instance s (fun i => set_status i "active")) KRegister)
  | SvRenew s :
      sv_health s = Some KRegister -> Register (sv_registry s) instance_ptr <> Panic ->
      server_step s (with_health (logged s (Register (sv_registry s) instance_ptr)) KWait)
  | SvHealthEnd s : sv_health s = Some KWait -> sv_cancelled s = true -> server_step s (with_health s KEnd)
  | SvPrompt s :
      sv_console s = Some CLoop -> server_step s (with_console s (if sv_cancelled s then CEnd else CRead) (sv_stdin s))
  | SvRead s : sv_console s = Some CRead -> server_step s (console_read s)
  | SvConsoleRegister s :
      sv_console s = Some CRegister -> Register (sv_registry s) instance_ptr <> Panic ->
      server_step s (with_console (logged s (Register (sv_registry s) instance_ptr)) CLoop (sv_stdin s))
  | SvConsoleSend s :
      sv_console s = Some CSend -> (sv_signals s < 1)%nat ->
      server_step s (with_console (with_signals s (S (sv_signals s))) CEnd (sv_stdin s))
  | SvServe s r :
      sv_main s = MServe -> serve_may (sv_stopped s) r ->
      server_step s (with_main s (match r with ServeStopped => MWait | ServeError => MFatal end) (sv_stopped s))
  | SvDone s : sv_main s = MWait -> sv_cancelled s = true -> server_step s (with_main s MStop (sv_stopped s))
  | SvGracefulStop s : sv_main s = MStop -> server_step s (with_main s MReturned true)
  | SvCleanup s order r :
      map_order (services (sv_registry s)) order -> cleanup (sv_registry s) order = Ret r -> server_step s (with_registry s r).
End server.

(** ** The client *)

Record client_flags := MkClientFlags {
  cf_service : string;
  cf_count : Z;
  cf_balance : string;
  cf_monitor : bool
}.

(** A request: asks for an instance, then for a client, and then is sent, or failed. *)
Inductive request_pc := RFetch | RClient | RSent | RFailed.

#[export] Instance request_pc_eq_dec : EqDecision request_pc.
Proof. solve_decision. Defined.

Inductive monitor_pc := WStart | WLoop (ch : chan) | WEnd.

Inductive client_pc := LLoop | LWait | LReturned.

(** [cl_next] is [i]; request [i] stands at place [i - 1] of [cl_requests]. *)
Record client := MkClient {
  cl_registry : InMemoryRegistry;
  cl_lb : LoadBalancer;
  cl_next : Z;
  cl_requests : list request_pc;
  cl_cancelled : bool;
  cl_monitor : monitor_pc;
  cl_main : client_pc
}.

(** The selector that the flag names, at address 0. *)
Definition client_selector (balanceType : string) : Selector :=
  if bool_decide (balanceType = "round-robin"%string) then SelRoundRobin (MkRoundRobin 0)
  else if bool_decide (balanceType = "weighted"%string) then SelWeighted MkWeightedSelector
  else SelRandom MkRandomSelector.

Definition client_balancer (f : client_flags) : LoadBalancer :=
  SetSelector {| selectors := ∅; selector_at := {[ 0%nat := client_selector (cf_balance f) ]} |} (cf_service f) 0%nat.

Definition client_start (f : client_flags) : client :=
  MkClient NewInMemoryRegistry (client_balancer f) 1 [] false (if cf_monitor f then WStart else WEnd) LLoop.

Definition cl_with_registry (s : client) (r : InMemoryRegistry) (m : monitor_pc) : client :=
  MkClient r (cl_lb s) (cl_next s) (cl_requests s) (cl_cancelled s) m (cl_main s).

Definition cl_with_request (s : client) (lb : LoadBalancer) (k : nat) (pc : request_pc) : client :=
  MkClient (cl_registry s) lb (cl_next s) (<[k := pc]> (cl_requests s)) (cl_cancelled s) (cl_monitor s) (cl_main s).

Definition cl_with_main (s : client) (cancelled : bool) (m : client_pc) : client :=
  MkClient (cl_registry s) (cl_lb s) (cl_next s) (cl_requests s) cancelled (cl_monitor s) m.

(** The next turn of the loop: the [break] leaves the [select] and not the loop, so
    that a cancelled context changes nothing but a line of the log. *)
Definition client_turn (s : client) : client :=
  MkClient (cl_registry s) (cl_lb s) (int64 (cl_next s + 1)) (cl_requests s ++ [RFetch]) (cl_cancelled s) (cl_monitor s) (cl_main s).

Section client.
Context {conn : Type} (dial : string -> option conn) (f : client_flags).

Definition request_fetch (intn : Z -> Z) (s : client) (k : nat) : client :=
  let '(lb, o) := GetInstance intn (cl_lb s) (cl_registry s) (cf_service f) in
  cl_with_request s lb k (match o with Ret _ => RClient | _ => RFailed end).

(** [doRequest] only waits. *)
Definition request_client (intn : Z -> Z) (s : client) (k : nat) : client :=
  let '(lb, o) := GetClient dial intn (cl_lb s) (cl_registry s) (cf_service f) in
  cl_with_request s lb k (match o with Ret _ => RSent | _ => RFailed end).

(** The steps of the loop and of the requests. *)
Inductive client_progress : client -> client -> Prop :=
  | ClTurn s : cl_main s = LLoop -> cl_next s <= cf_count f -> client_progress s (client_turn s)
  | ClLoopEnd s : cl_main s = LLoop -> cf_count f < cl_next s -> client_progress s (cl_with_main s (cl_cancelled s) LWait)
  | ClFetch s k intn : intn_in_range intn -> cl_requests s !! k = Some RFetch -> client_progress s (request_fetch intn s k)
  | ClClient s k intn : intn_in_range intn -> cl_requests s !! k = Some RClient -> client_progress s (request_client intn s k)
  | ClReturn s :
      cl_main s = LWait -> Forall (fun pc => pc = RSent \/ pc = RFailed) (cl_requests s) ->
      client_progress s (cl_with_main s true LReturned).

(** The others: the signal, the monitor, the goroutine of its channel, the cleanup. *)
Inductive client_other : client -> client -> Prop :=
  | ClSignal s : client_other s (cl_with_main s true (cl_main s))
  | ClWatch s :
      cl_monitor s = WStart ->
      client_other s (cl_with_registry s (WatchService (cl_registry s) (cf_service f)).1
                        (WLoop (WatchService (cl_registry s) (cf_service f)).2))
  | ClReceive s ch : cl_monitor s = WLoop ch -> client_other s (cl_with_registry s (receive (cl_registry s) ch) (WLoop ch))
  | ClMonitorEnd s ch :
      cl_monitor s = WLoop ch ->
      cl_cancelled s = true \/ chans (cl_registry s) !! ch = Some (MkChan [] true) ->
      client_other s (cl_with_registry s (cl_registry s) WEnd)
  | ClUnwatch s ch name r :
      cl_cancelled s = true -> goroutines (cl_registry s) !! ch = Some name -> watch_done (cl_registry s) name ch = Ret r ->
      client_other s (cl_with_registry s r (cl_monitor s))
  | ClCleanup s order r :
      map_order (services (cl_registry s)) order -> cleanup (cl_registry s) order = Ret r ->
      client_other s (cl_with_registry s r (cl_monitor s)).

Definition client_step (s s' : client) : Prop := client_progress s s' \/ client_other s s'.
End client.

(** ** The server, proved *)

Lemma scan_word_no_space l : Forall (fun r => is_space r = false) (scan_word l).1.
Proof.
  induction l as [|r l IH]; cbn [scan_word]; [constructor|]. destruct (is_space r) eqn:E; [constructor|].
  destruct (scan_word l). by constructor.
Qed.

(** A command is one word. *)
Lemma Scanln_no_space l : Forall (fun r => is_space r = false) (Scanln l).2.
Proof.
  induction l as [|r l IH]; cbn [Scanln]; [constructor|]. destruct (r =? newline); [constructor|].
  destruct (is_space r) eqn:E; [done|]. pose proof (scan_word_no_space (r :: l)). by destruct (scan_word (r :: l)).
Qed.

Lemma parse_command_word cmd : Forall (fun r => is_space r = false) cmd -> forall w, parse_command cmd <> CmdWeight w.
Proof.
  intros Hc w. unfold parse_command. do 4 (case_bool_decide; [done|]).
  destruct (_ && _) eqn:E; [|done]. apply andb_true_iff in E as [_ E%bool_decide_eq_true].
  pose proof (Forall_take _ 7%nat _ Hc) as Ht. rewrite E in Ht. apply (Forall_lookup_1 _ _ 6%nat 32) in Ht; done.
Qed.

(** The instance of the flags, with some status. *)
Definition is_instance (f : server_flags) (uuid : string) (i : ServiceInstance) : Prop :=
  set_status i "active" = server_instance f uuid.

Lemma is_instance_status f uuid i st : is_instance f uuid i -> is_instance f uuid (set_status i st).
Proof. done. Qed.

(** What every run keeps. *)
Record server_ok (f : server_flags) (uuid : string) (s : server) : Prop := {
  so_lb : lb_inv (sv_registry s);
  so_instance : exists i, objects (sv_registry s) !! instance_ptr = Some i /\ is_instance f uuid i;
  so_services name l : services (sv_registry s) !! name = Some l -> name = f_service f /\ (l = [instance_ptr] \/ l = []);
  so_stopped : sv_stopped s = false;
  so_main : sv_main s = MListen \/ sv_main s = MRegister \/ sv_main s = MServe \/ sv_main s = MFatal
}.

Section server_runs.
Context (serve_may : bool -> serve_result -> Prop).
(** [Serve] returns an error other than [ErrServerStopped] unless the server is stopped. *)
Context (serve_until_stopped : forall r, serve_may false r -> r = ServeError).
Context (f : server_flags) (uuid : string).

Lemma server_write s g :
  server_ok f uuid s -> (forall i, is_instance f uuid i -> is_instance f uuid (g i)) -> server_ok f uuid (write_instance s g).
Proof.
  intros [Hl (i & Hi & Hf) Hs H1 H2] Hg. split; [| |done..]; cbn [write_instance with_registry sv_registry].
  - apply set_object_inv; [done|]. intros j Hj. rewrite Hi in Hj. injection Hj as <-. rewrite (deref_alloc _ _ _ Hi).
    specialize (Hg i Hf). unfold is_instance, set_status, server_instance in *. split; congruence.
  - exists (g i). rewrite (deref_alloc _ _ _ Hi). cbn. rewrite lookup_insert_eq. split; [done|]. by apply Hg.
Qed.

Lemma server_write_status s st : server_ok f uuid s -> server_ok f uuid (write_instance s (fun i => set_status i st)).
Proof. intros Hok. apply server_write; [done|]. intros i. apply is_instance_status. Qed.

(** Registering leaves the instance, once, under the name. *)
Lemma server_register s :
  server_ok f uuid s ->
  exists r, Register (sv_registry s) instance_ptr = Ret r /\ server_ok f uuid (with_registry s r) /\
    objects r = objects (sv_registry s) /\ services r !! f_service f = Some [instance_ptr].
Proof.
  intros [Hl (i & Hi & Hf) Hs H1 H2]. destruct (register_inv _ _ _ Hl Hi) as (cs & -> & Hl').
  assert (Name i = f_service f) as Hn by (unfold is_instance, set_status, server_instance in Hf; congruence).
  assert (registered (sv_registry s) instance_ptr = [instance_ptr]) as Hr.
  { unfold registered. rewrite (deref_alloc _ _ _ Hi). destruct (services (sv_registry s) !! Name i) as [l|] eqn:El; [|done].
    destruct (Hs _ _ El) as [_ [-> | ->]]; [|done]. cbn. rewrite (deref_alloc _ _ _ Hi), bool_decide_eq_true_2; done. }
  eexists. split; [done|]. rewrite Hr, Hn in *. split_and!; [|done|cbn; by rewrite lookup_insert_eq].
  split; [exact Hl'|by exists i| |done..]. cbn. intros name l. rewrite lookup_insert. case_decide as E; [|by apply Hs].
  intros [= <-]. by split; [|left].
Qed.

Lemma server_deregister s order id :
  server_ok f uuid s -> map_order (services (sv_registry s)) order ->
  server_ok f uuid (logged s (Deregister (sv_registry s) order id)).
Proof.
  intros Hok Ho. pose proof Hok as [Hl (i & Hi & Hf) Hs H1 H2].
  pose proof (deregister_cases (sv_registry s) order id Hl (fun n l H => proj1 (map_order_elem _ _ n l Ho) H)) as H.
  destruct (Deregister _ _ _) as [r| |]; [|done..]. destruct H as (name & p & cs & (l & Hn & Hp & _) & -> & Hr).
  split; [done| |done..]. cbn. destruct (Hs _ _ Hn) as [_ [-> | ->]]; [|by apply elem_of_nil in Hp].
  apply list_elem_of_singleton in Hp as ->. rewrite lookup_insert_eq, (deref_alloc _ _ _ Hi). eexists. split; [done|].
  by apply is_instance_status.
Qed.

Lemma active_one h (p : ptr) : active h [p] = [p] \/ active h [p] = [].
Proof. cbn. destruct (negb _); auto. Qed.

Lemma server_cleanup s order r :
  server_ok f uuid s -> map_order (services (sv_registry s)) order -> cleanup (sv_registry s) order = Ret r ->
  server_ok f uuid (with_registry s r).
Proof.
  intros [Hl Hi Hs H1 H2] Ho Hc.
  destruct (cleanup_spec (sv_registry s) order) as (r' & Hc' & Hr & Hob & Hsv);
    [done|intros *; by apply map_order_elem|by eapply map_order_nodup|].
  rewrite Hc' in Hc. injection Hc as <-. split; [done|by rewrite <- Hob in Hi| |done..]. cbn. intros name l. rewrite Hsv.
  intros (l0 & Hn & ->)%fmap_Some. case_decide; [|by apply Hs].
  destruct (Hs _ _ Hn) as [-> [-> | ->]]; (split; [done|]); [apply active_one|by right].
Qed.

(** The parts of the state that the registry and the place of the program do not see. *)
Lemma server_ok_same s s' :
  server_ok f uuid s -> sv_registry s' = sv_registry s -> sv_stopped s' = sv_stopped s -> sv_main s' = sv_main s -> server_ok f uuid s'.
Proof. intros [H1 H2 H3 H4 H5] E1 E2 E3. split; rewrite ?E1, ?E2, ?E3; done. Qed.

Lemma server_console s : server_ok f uuid s -> server_ok f uuid (console_read s).
Proof.
  intros Hok. unfold console_read. pose proof (Scanln_no_space (sv_stdin s)) as Hw. destruct (Scanln (sv_stdin s)) as [rest cmd].
  pose proof (parse_command_word cmd Hw) as Hn.
  destruct (parse_command cmd) as [| | | |w|]; [by eapply server_ok_same| | |by eapply server_ok_same|by destruct (Hn w)|by eapply server_ok_same];
    (eapply server_ok_same; [by apply server_write_status|done..]).
Qed.

Lemma server_step_ok s s' : server_step serve_may s s' -> server_ok f uuid s -> server_ok f uuid s'.
Proof.
  intros Hs Hok. destruct Hs as [s|s n order _ _ Ho|s _|s ok Hm|s Hm _|s _|s _ _|s _ _|s _|s _|s _ _|s _ _|s r Hm Hr|s Hm _|s Hm|s order r Ho Hc];
    try (by eapply server_ok_same).
  - eapply server_ok_same; [apply (server_deregister (with_signals s n)); [by eapply server_ok_same|exact Ho]|done..].
  - destruct Hok as [H1 H2 H3 H4 H5]. split; [done..|]. cbn. destruct ok; auto.
  - destruct (server_register s Hok) as (r & -> & [H1 H2 H3 H4 H5] & _). split; [done..|]. cbn. auto.
  - eapply server_ok_same; [by apply (server_write_status s "active")|done..].
  - destruct (server_register s Hok) as (r & -> & Hr & _). by eapply server_ok_same.
  - by apply server_console.
  - destruct (server_register s Hok) as (r & -> & Hr & _). by eapply server_ok_same.
  - destruct Hok as [H1 H2 H3 H4 H5]. rewrite H4 in Hr. apply serve_until_stopped in Hr as ->. split; [done..|]. cbn. auto.
  - pose proof (so_main _ _ _ Hok) as H. rewrite Hm in H. naive_solver.
  - pose proof (so_main _ _ _ Hok) as H. rewrite Hm in H. naive_solver.
  - by eapply server_cleanup.
Qed.

Lemma server_start_ok stdin : server_ok f uuid (server_start f uuid stdin).
Proof.
  split; cbn.
  - apply (set_object_inv NewInMemoryRegistry); [apply lb_reachable_inv, rtc_refl|]. by intros j.
  - exists (server_instance f uuid). by rewrite lookup_insert_eq.
  - intros name l. by rewrite lookup_empty.
  - done.
  - auto.
Qed.

Lemma server_reach_ok stdin s : rtc (server_step serve_may) (server_start f uuid stdin) s -> server_ok f uuid s.
Proof.
  intros Hr. pose proof (server_start_ok stdin) as H0. induction Hr as [s|a b s Hab _ IH]; [done|]. by eapply IH, server_step_ok.
Qed.

(** The example server cannot be ended: whatever signals arrive and whatever is
    typed, the program never gets past [Serve], because only what comes after it
    stops the gRPC server. *)
Theorem lbs_never_returns stdin s (Hrun : rtc (server_step serve_may) (server_start f uuid stdin) s) :
  sv_stopped s = false /\ sv_main s <> MWait /\ sv_main s <> MStop /\ sv_main s <> MReturned.
Proof. destruct (server_reach_ok stdin s Hrun) as [_ _ _ Hs Hm]. split; [done|].
  destruct Hm as [-> |[-> |[-> | ->]]]; done.
Qed.

(** What the registry of the example server holds in every run: the instance of
    the flags alone, under its name alone, with the ID, the endpoint and the weight of
    the flags, so that no command changes the weight; and registering it never fails. *)
Theorem lbs_registry stdin s (Hrun : rtc (server_step serve_may) (server_start f uuid stdin) s) :
  (exists i, objects (sv_registry s) !! instance_ptr = Some i /\ set_status i "active" = server_instance f uuid) /\
  (forall name p, p ∈ GetInstances (sv_registry s) name -> name = f_service f /\ p = instance_ptr) /\
  (exists r, Register (sv_registry s) instance_ptr = Ret r).
Proof.
  pose proof (server_reach_ok stdin s Hrun) as Hok. destruct (server_register s Hok) as (r & Hr & _). destruct Hok as [_ Hi Hs _ _].
  split; [done|]. split; [|by exists r]. intros name p (l & Hl & Hp & _)%elem_of_GetInstances.
  destruct (Hs _ _ Hl) as [-> [-> | ->]]; [by apply list_elem_of_singleton in Hp|by apply elem_of_nil in Hp].
Qed.

(** The health check takes back whatever was said about the service: from every
    state in which its goroutine waits, marked down on the console or deregistered by
    the signal handler, a tick lists the instance again. *)
Theorem lbs_tick_undoes_down stdin s
    (Hrun : rtc (server_step serve_may) (server_start f uuid stdin) s) (Hwait : sv_health s = Some KWait) :
  exists s', nsteps (server_step serve_may) 2 s s' /\ GetInstances (sv_registry s') (f_service f) = [instance_ptr] /\
    sv_cancelled s' = sv_cancelled s /\ sv_handler s' = sv_handler s.
Proof.
  pose proof (server_reach_ok stdin s Hrun) as Hok.
  set (s1 := with_health (write_instance s (fun i => set_status i "active")) KRegister).
  assert (server_step serve_may s s1) as H1 by by apply SvTick.
  pose proof (server_step_ok _ _ H1 Hok) as Hok1. destruct (server_register s1 Hok1) as (r & Hr & Hok2 & Hob & Hsv).
  exists (with_health (logged s1 (Register (sv_registry s1) instance_ptr)) KWait). split_and!.
  - eapply nsteps_l; [exact H1|]. apply nsteps_once, SvRenew; [done|by rewrite Hr].
  - rewrite Hr. cbn [logged with_health with_registry sv_registry]. unfold GetInstances. rewrite Hsv. cbn [active].
    unfold is_down. rewrite Hob. cbn. rewrite deref_insert, decide_True by done. by rewrite bool_decide_eq_false_2.
  - by rewrite Hr.
  - by rewrite Hr.
Qed.
End server_runs.

(** ** The client, proved *)

(** What is left to do: three steps for a request that is not started, two or one for
    one under way. *)
Definition request_work (pc : request_pc) : nat :=
  match pc with RFetch => 2 | RClient => 1 | RSent | RFailed => 0 end.

Definition client_work (f : client_flags) (s : client) : nat :=
  3 * Z.to_nat (cf_count f + 1 - cl_next s) + sum_list_with request_work (cl_requests s) +
  match cl_main s with LLoop => 2 | LWait => 1 | LReturned => 0 end.

Section client_runs.
Context {conn : Type} (dial : string -> option conn) (f : client_flags).
(** The loop ends before its counter wraps. *)
Context (count_fits : cf_count f < 2 ^ 63 - 1).

Record client_ok (s : client) : Prop := {
  co_services : services (cl_registry s) = ∅;
  co_requests : Forall (fun pc => pc = RFetch \/ pc = RFailed) (cl_requests s);
  co_next : cl_next s = Z.of_nat (length (cl_requests s)) + 1;
  co_bound : cl_next s <= Z.max 0 (cf_count f) + 1;
  co_main : cl_main s <> LLoop -> cf_count f < cl_next s;
  co_done : cl_main s = LReturned -> Forall (eq RFailed) (cl_requests s)
}.

Lemma fetch_fails intn s : services (cl_registry s) = ∅ ->
  GetInstance intn (cl_lb s) (cl_registry s) (cf_service f) = (cl_lb s, Fail (ErrNoInstancesFound (cf_service f))).
Proof. intros Hs. unfold GetInstance. cbn. unfold GetInstances. by rewrite Hs, lookup_empty. Qed.

Lemma client_other_ok s s' : client_other f s s' -> client_ok s -> client_ok s'.
Proof.
  intros Hs [H1 H2 H3 H4 H5 H6].
  destruct Hs as [s|s _|s ch _|s ch _ _|s ch name r _ _ Hd|s order r Ho Hc]; (split; [|done..]); try done; cbn.
  - unfold receive. by destruct (chans (cl_registry s) !! ch) as [[[|] ]|].
  - unfold watch_done in Hd. repeat case_match; try done; by injection Hd as <-.
  - by eapply no_services_cleanup.
Qed.

Lemma client_progress_ok s s' : client_progress dial f s s' -> client_ok s -> client_ok s'.
Proof.
  intros Hs [H1 H2 H3 H4 H5 H6]. destruct Hs as [s Hm Hn|s Hm Hn|s k intn _ Hk|s k intn _ Hk|s Hm Hd].
  - split; cbn; [done|apply Forall_app; split; [done|repeat constructor; auto]| | |by rewrite Hm|by rewrite Hm].
    + rewrite length_app, int64_small by lia. cbn. lia.
    + rewrite int64_small by lia. lia.
  - split; cbn; [done..|]. by rewrite Hm in H6.
  - unfold request_fetch. rewrite fetch_fails by done.
    split; cbn; [done|apply Forall_insert; auto|by rewrite length_insert|done..|]. intros Hr. apply Forall_insert; auto.
  - apply (Forall_lookup_1 _ _ _ _ H2) in Hk. naive_solver.
  - split; cbn; [done..| |].
    + intros _. apply H5. by rewrite Hm.
    + intros _. apply Forall_forall. intros pc Hpc. rewrite Forall_forall in Hd, H2.
      destruct (Hd pc Hpc) as [-> | ->]; [|done]. by destruct (H2 _ Hpc).
Qed.

Lemma client_reach_ok s : rtc (client_step dial f) (client_start f) s -> client_ok s.
Proof.
  intros Hr. assert (client_ok (client_start f)) as H0 by (split; cbn; [done|done|done|lia|done|done]).
  induction Hr as [s|a b s [Hab|Hab] _ IH]; [done|by eapply IH, client_progress_ok|by eapply IH, client_other_ok].
Qed.

(** The example client never sends anything: its registry is its own and nobody
    registers in it, so in every run every request fails because there is no
    instance; a request that is interrupted is started all the same, and the
    program returns with exactly as many failed requests as were asked for. *)
Theorem lbc_every_request_fails s (Hrun : rtc (client_step dial f) (client_start f) s) :
  Forall (fun pc => pc = RFetch \/ pc = RFailed) (cl_requests s) /\
  (forall intn, (GetInstance intn (cl_lb s) (cl_registry s) (cf_service f)).2 = Fail (ErrNoInstancesFound (cf_service f))) /\
  (cl_main s = LReturned -> cl_requests s = replicate (Z.to_nat (cf_count f)) RFailed).
Proof.
  destruct (client_reach_ok s Hrun) as [H1 H2 H3 H4 H5 H6]. split_and!; [done|intros intn; by rewrite fetch_fails|].
  intros Hm. symmetry. apply replicate_as_elem_of. specialize (H5 ltac:(by rewrite Hm)). split; [lia|].
  intros pc Hpc. specialize (H6 Hm). rewrite Forall_forall in H6. symmetry. by apply H6.
Qed.

(** C34: the example client ends: until it has returned, the loop or a request can go on,
    and each of their steps, but nothing else, takes from the work that is left. *)
Theorem lbc_terminates s (Hrun : rtc (client_step dial f) (client_start f) s) :
  (cl_main s <> LReturned -> exists s', client_progress dial f s s') /\
  (forall s', client_progress dial f s s' -> (client_work f s' < client_work f s)%nat) /\
  (forall s', client_other f s s' -> client_work f s' = client_work f s).
Proof.
  destruct (client_reach_ok s Hrun) as [H1 H2 H3 H4 H5 H6]. split_and!.
  - intros Hm. destruct (cl_main s) eqn:Em; [| |done].
    + destruct (Z.le_gt_cases (cl_next s) (cf_count f)); eexists; [by apply ClTurn|by apply ClLoopEnd].
    + destruct (decide (Forall (eq RFailed) (cl_requests s))) as [Hd|Hd].
      * eexists. apply ClReturn; [done|]. eapply Forall_impl; [exact Hd|]. intros pc <-. by right.
      * apply not_Forall_Exists in Hd; [|solve_decision]. apply Exists_exists in Hd as (pc & Hpc & Hne).
        rewrite Forall_forall in H2. destruct (H2 pc Hpc) as [-> | ->]; [|done]. apply list_elem_of_lookup in Hpc as [k Hk].
        eexists. apply (ClFetch dial f s k (fun _ => 0)); [intros n; lia|done].
  - intros s' Hs. unfold client_work. destruct Hs as [s Hm Hn|s Hm Hn|s k intn _ Hk|s k intn _ Hk|s Hm _]; cbn.
    + rewrite sum_list_with_app, int64_small by lia. cbn. lia.
    + rewrite Hm. lia.
    + unfold request_fetch. rewrite fetch_fails by done. cbn. pose proof (sum_list_insert request_work _ _ _ RFailed Hk) as H. cbn in H. lia.
    + apply (Forall_lookup_1 _ _ _ _ H2) in Hk. naive_solver.
    + rewrite Hm. lia.
  - intros s' Hs. unfold client_work. by destruct Hs.
Qed.
End client_runs.

(** ** Examples *)

(** A weight cannot be typed: the command ends at the space, the first digit is lost
    and the others are the next command. *)
Example weight_is_split :
  Scanln (runes "weight 25" ++ [newline]) = (runes "5" ++ [newline], runes "weight") /\
  parse_command (runes "weight") = CmdUnknown.
Proof. by vm_compute. Qed.

Definition sample_flags : server_flags := MkServerFlags "" "chat" 8080 3 "default".
Definition sample_uuid : string := "0b9f2a6c-1111-4222-8333-944445555666".

(** A server that serves until it is stopped. *)
Definition sample_serve (stopped : bool) (r : serve_result) : Prop := if stopped then True else r = ServeError.

(** The signal has been handled, and the health check has not seen it yet. *)
Lemma sample_shutdown : exists s,
  rtc (server_step sample_serve) (server_start sample_flags sample_uuid (runes "down")) s /\
  sv_cancelled s = true /\ sv_health s = Some KWait /\ sv_main s = MServe /\
  GetInstances (sv_registry s) "chat" = [].
Proof.
  eexists. split.
  - eapply rtc_l; [by apply (SvListen _ _ true)|]. eapply rtc_l; [by apply SvRegister; vm_compute|].
    eapply rtc_l; [apply SvSignal|]. eapply rtc_l; [eapply SvHandle; [done|by vm_compute|apply map_order_default]|].
    apply rtc_once. by apply SvCancel.
  - by vm_compute.
Qed.

Lemma lbs_never_returns_witness : exists s,
  rtc (server_step sample_serve) (server_start sample_flags sample_uuid (runes "down")) s /\
  sv_cancelled s = true /\ sv_main s <> MReturned.
Proof.
  destruct sample_shutdown as (s & Hr & Hc & _). exists s. split; [exact Hr|]. split; [exact Hc|].
  by apply (lbs_never_returns sample_serve (fun r H => H) sample_flags sample_uuid (runes "down") s Hr).
Defined.

Lemma lbs_registry_witness : exists s,
  rtc (server_step sample_serve) (server_start sample_flags sample_uuid (runes "down")) s /\
  exists r, Register (sv_registry s) instance_ptr = Ret r.
Proof.
  destruct sample_shutdown as (s & Hr & _). exists s. split; [exact Hr|].
  by apply (lbs_registry sample_serve (fun r H => H) sample_flags sample_uuid (runes "down") s Hr).
Defined.

(** The service is gone, and comes back with the next tick. *)
Lemma lbs_tick_undoes_down_witness : exists s,
  GetInstances (sv_registry s) "chat" = [] /\
  exists s', nsteps (server_step sample_serve) 2 s s' /\ GetInstances (sv_registry s') "chat" = [instance_ptr] /\ sv_cancelled s' = true.
Proof.
  destruct sample_shutdown as (s & Hr & Hc & Hk & _ & Hg). exists s. split; [exact Hg|].
  destruct (lbs_tick_undoes_down sample_serve (fun r H => H) sample_flags sample_uuid (runes "down") s Hr Hk) as (s' & Hn & Hi & Hd & _).
  exists s'. split; [exact Hn|]. split; [exact Hi|]. by rewrite Hd.
Defined.

Definition sample_client : client_flags := MkClientFlags "chat" 1 "round-robin" true.

(** Interrupted before its only request. *)
Lemma sample_client_run : exists s, rtc (client_step (fun e : string => Some e) sample_client) (client_start sample_client) s /\
  cl_main s = LReturned.
Proof.
  eexists. split.
  - eapply rtc_l; [right; apply ClSignal|]. eapply rtc_l; [left; by apply ClTurn|]. eapply rtc_l; [left; by apply ClLoopEnd|].
    eapply rtc_l; [left; by apply (ClFetch _ _ _ 0 (fun _ => 0)); [intros n; lia|vm_compute]|].
    apply rtc_once. left. apply ClReturn; [by vm_compute|]. vm_compute. apply Forall_singleton. by right.
  - by vm_compute.
Qed.

Lemma lbc_every_request_fails_witness : exists s,
  rtc (client_step (fun e : string => Some e) sample_client) (client_start sample_client) s /\ cl_requests s = [RFailed].
Proof.
  destruct sample_client_run as (s & Hr & Hm). exists s. split; [exact Hr|].
  apply (lbc_every_request_fails (fun e : string => Some e) sample_client); [done|exact Hr|exact Hm].
Defined.

Lemma lbc_terminates_witness : exists s', client_progress (fun e : string => Some e) sample_client (client_start sample_client) s'.
Proof. apply (lbc_terminates (fun e : string => Some e) sample_client); [done|apply rtc_refl|done]. Defined.
