(* ===== verification/Metrics.v ===== *)
(** * Metrics ([pkg/metrics/metrics.go], [pkg/metrics/collectors.go])

    The manager's four tables over one Prometheus registry, the HTTP server, the
    collecting goroutine and the five collectors.  Which names and labels Prometheus
    accepts is a parameter; a registered name is taken for all kinds.  A series keeps
    what was done to it, in order: the library turns that into numbers.  [MustRegister],
    a wrong number of label values and a negative addition to a counter panic, as the
    library documents. *)

From stdpp Require Import base gmap strings numbers list relations.
From Stdlib Require Import ZArith Lia SpecFloat.
From S2P Require Import Prelude Float32 Json.

Local Open Scope Z_scope.

(** ** The manager *)

Inductive update := Added (v : float64) | Set_ (v : float64) | Subtracted (v : float64) | Observed (v : float64).

(** The label names and the series by label values. *)
Record vec := MkVec { label_names : list string; series : gmap (list string) (list update) }.

Record MetricsManager := MkManager {
  registry : gset string;
  counterVecs : gmap string vec;
  gaugeVecs : gmap string vec;
  histograms : gmap string vec;
  summaries : gmap string vec;
  (** whether the server, once made, has been shut down *)
  server : option bool
}.

Definition NewMetricsManager : MetricsManager := MkManager ∅ ∅ ∅ ∅ ∅ None.

Inductive MetricsError := ErrExists (name : string) | ErrMissing (name : string) | ErrRunning.

(** [WithLabelValues] *)
Definition with_labels (v : vec) (values : list string) : bool :=
  bool_decide (length values = length (label_names v)) && forallb (fun s => utf8_valid 0 (str_bytes s)) values.

Definition update_series (v : vec) (values : list string) (u : update) : vec :=
  MkVec (label_names v) (<[values := default [] (series v !! values) ++ [u]]> (series v)).

(** The update of a series of a table, common to the operations. *)
Definition apply_update (t : gmap string vec) (name : string) (values : list string) (u : update) :
    outcome MetricsError (gmap string vec) :=
  match t !! name with
  | None => Fail (ErrMissing name)
  | Some v => if with_labels v values then Ret (<[name := update_series v values u]> t) else Panic
  end.

Definition set_counters (m : MetricsManager) (t : gmap string vec) : MetricsManager :=
  MkManager (registry m) t (gaugeVecs m) (histograms m) (summaries m) (server m).
Definition set_gauges (m : MetricsManager) (t : gmap string vec) : MetricsManager :=
  MkManager (registry m) (counterVecs m) t (histograms m) (summaries m) (server m).
Definition set_histograms (m : MetricsManager) (t : gmap string vec) : MetricsManager :=
  MkManager (registry m) (counterVecs m) (gaugeVecs m) t (summaries m) (server m).
Definition set_summaries (m : MetricsManager) (t : gmap string vec) : MetricsManager :=
  MkManager (registry m) (counterVecs m) (gaugeVecs m) (histograms m) t (server m).

(** [Counter.Add] panics on a negative value. *)
Definition IncrementCounter (m : MetricsManager) (name : string) (value : float64) (labelValues : list string) :
    outcome MetricsError MetricsManager :=
  match counterVecs m !! name with
  | None => Fail (ErrMissing name)
  | Some _ =>
      t ← apply_update (counterVecs m) name labelValues (Added value);
      if SFltb value (S754_zero false) then Panic else Ret (set_counters m t)
  end.

Definition SetGauge (m : MetricsManager) (name : string) (value : float64) (labelValues : list string) :
    outcome MetricsError MetricsManager :=
  t ← apply_update (gaugeVecs m) name labelValues (Set_ value); Ret (set_gauges m t).

Definition IncrementGauge (m : MetricsManager) (name : string) (value : float64) (labelValues : list string) :
    outcome MetricsError MetricsManager :=
  t ← apply_update (gaugeVecs m) name labelValues (Added value); Ret (set_gauges m t).

Definition DecrementGauge (m : MetricsManager) (name : string) (value : float64) (labelValues : list string) :
    outcome MetricsError MetricsManager :=
  t ← apply_update (gaugeVecs m) name labelValues (Subtracted value); Ret (set_gauges m t).

Definition ObserveHistogram (m : MetricsManager) (name : string) (value : float64) (labelValues : list string) :
    outcome MetricsError MetricsManager :=
  t ← apply_update (histograms m) name labelValues (Observed value); Ret (set_histograms m t).

Definition ObserveSummary (m : MetricsManager) (name : string) (value : float64) (labelValues : list string) :
    outcome MetricsError MetricsManager :=
  t ← apply_update (summaries m) name labelValues (Observed value); Ret (set_summaries m t).

(** The function that [MeasureDuration] returns, when [seconds] have passed: an error
    is logged. *)
Definition MeasureDuration (m : MetricsManager) (metricName : string) (seconds : float64) (labelValues : list string) :
    outcome MetricsError MetricsManager :=
  match ObserveHistogram m metricName seconds labelValues with Fail _ => Ret m | o => o end.

Definition StartServer (m : MetricsManager) : outcome MetricsError MetricsManager :=
  match server m with
  | Some _ => Fail ErrRunning
  | None => Ret (MkManager (registry m) (counterVecs m) (gaugeVecs m) (histograms m) (summaries m) (Some false))
  end.

(** The field keeps the server that was shut down. *)
Definition StopServer (m : MetricsManager) : MetricsManager :=
  match server m with
  | None => m
  | Some _ => MkManager (registry m) (counterVecs m) (gaugeVecs m) (histograms m) (summaries m) (Some true)
  end.

Section prometheus.
(** The names and labels that make a valid metric. *)
Context (desc_ok : string -> list string -> bool).

(** [promauto]'s [MustRegister]: the registry knows names, not kinds. *)
Definition must_register (m : MetricsManager) (name : string) (labelNames : list string) : outcome MetricsError MetricsManager :=
  if desc_ok name labelNames && bool_decide (name ∉ registry m) then
    Ret (MkManager ({[ name ]} ∪ registry m) (counterVecs m) (gaugeVecs m) (histograms m) (summaries m) (server m))
  else Panic.

Definition RegisterCounter (m : MetricsManager) (name : string) (labelNames : list string) : outcome MetricsError MetricsManager :=
  if bool_decide (is_Some (counterVecs m !! name)) then Fail (ErrExists name)
  else m ← must_register m name labelNames; Ret (set_counters m (<[name := MkVec labelNames ∅]> (counterVecs m))).

Definition RegisterGauge (m : MetricsManager) (name : string) (labelNames : list string) : outcome MetricsError MetricsManager :=
  if bool_decide (is_Some (gaugeVecs m !! name)) then Fail (ErrExists name)
  else m ← must_register m name labelNames; Ret (set_gauges m (<[name := MkVec labelNames ∅]> (gaugeVecs m))).

Definition RegisterHistogram (m : MetricsManager) (name : string) (labelNames : list string) : outcome MetricsError MetricsManager :=
  if bool_decide (is_Some (histograms m !! name)) then Fail (ErrExists name)
  else m ← must_register m name labelNames; Ret (set_histograms m (<[name := MkVec labelNames ∅]> (histograms m))).

Definition RegisterSummary (m : MetricsManager) (name : string) (labelNames : list string) : outcome MetricsError MetricsManager :=
  if bool_decide (is_Some (summaries m !! name)) then Fail (ErrExists name)
  else m ← must_register m name labelNames; Ret (set_summaries m (<[name := MkVec labelNames ∅]> (summaries m))).

(** ** The collectors *)

(** A call of which the error is not looked at. *)
Definition ignore (m : MetricsManager) (o : outcome MetricsError MetricsManager) : outcome MetricsError MetricsManager :=
  match o with Fail _ => Ret m | o => o end.

Definition ensure_gauge (m : MetricsManager) (name : string) (labelNames : list string) : outcome MetricsError MetricsManager :=
  if bool_decide (is_Some (gaugeVecs m !! name)) then Ret m else ignore m (RegisterGauge m name labelNames).

Definition system_metrics : list string :=
  ["system_memory_alloc_bytes"; "system_memory_total_alloc_bytes"; "system_memory_sys_bytes"; "system_memory_heap_objects";
   "system_gc_next_bytes"; "system_gc_pause_total_ns"; "system_goroutines"; "system_cpu_threads"]%string.

Definition ensureSystemMetricsRegistered (m : MetricsManager) : outcome MetricsError MetricsManager :=
  fold_left (fun o name => m ← o; ensure_gauge m name []) system_metrics (Ret m).

(** The values are those of the runtime, in the order of the names. *)
Definition SystemStatsCollector (m : MetricsManager) (values : list Z) : outcome MetricsError MetricsManager :=
  m ← ensureSystemMetricsRegistered m;
  fold_left (fun o x => m ← o; ignore m (SetGauge m x.1 (f64_of_int x.2) [])) (zip system_metrics values) (Ret m).

Definition ConnectionStatsCollector (m : MetricsManager) (count : Z) : outcome MetricsError MetricsManager :=
  m ← ensure_gauge m "connection_count" []; ignore m (SetGauge m "connection_count" (f64_of_int count) []).

(** [counts] in the order in which the map is ranged over. *)
Definition MessageStatsCollector (m : MetricsManager) (counts : list (string * Z)) : outcome MetricsError MetricsManager :=
  m ← (if bool_decide (is_Some (counterVecs m !! "messages_total"%string)) then Ret m
       else ignore m (RegisterCounter m "messages_total" ["type"; "service"]%string));
  fold_left (fun o x => m ← o; ignore m (IncrementCounter m "messages_total" (f64_of_int x.2) [x.1; "gateway"%string])) counts (Ret m).

Definition operation_collector (metric : string) (m : MetricsManager) (stats : list (string * float64)) :
    outcome MetricsError MetricsManager :=
  m ← ensure_gauge m metric ["operation"%string];
  fold_left (fun o x => m ← o; ignore m (SetGauge m metric x.2 [x.1])) stats (Ret m).

Definition RedisStatsCollector := operation_collector "redis_operations".
Definition DatabaseStatsCollector := operation_collector "database_operations".

(** ** Operations in sequence *)

Inductive kind := Counter | Gauge | Histogram | Summary.

Definition table (m : MetricsManager) (k : kind) : gmap string vec :=
  match k with Counter => counterVecs m | Gauge => gaugeVecs m | Histogram => histograms m | Summary => summaries m end.

Definition register (k : kind) : MetricsManager -> string -> list string -> outcome MetricsError MetricsManager :=
  match k with
  | Counter => RegisterCounter | Gauge => RegisterGauge | Histogram => RegisterHistogram | Summary => RegisterSummary
  end.

Inductive metrics_op :=
  | OpRegister (k : kind) (name : string) (labels : list string)
  | OpIncrementCounter (name : string) (v : float64) (values : list string)
  | OpSetGauge (name : string) (v : float64) (values : list string)
  | OpIncrementGauge (name : string) (v : float64) (values : list string)
  | OpDecrementGauge (name : string) (v : float64) (values : list string)
  | OpObserveHistogram (name : string) (v : float64) (values : list string)
  | OpObserveSummary (name : string) (v : float64) (values : list string)
  | OpStartServer
  | OpStopServer.

Definition metrics_step (m : MetricsManager) (op : metrics_op) : outcome MetricsError MetricsManager :=
  match op with
  | OpRegister k name labels => register k m name labels
  | OpIncrementCounter name v values => IncrementCounter m name v values
  | OpSetGauge name v values => SetGauge m name v values
  | OpIncrementGauge name v values => IncrementGauge m name v values
  | OpDecrementGauge name v values => DecrementGauge m name v values
  | OpObserveHistogram name v values => ObserveHistogram m name v values
  | OpObserveSummary name v values => ObserveSummary m name v values
  | OpStartServer => StartServer m
  | OpStopServer => Ret (StopServer m)
  end.

(** A call that returns an error leaves the manager as it is; [None] after a panic. *)
Fixpoint metrics_run (m : MetricsManager) (ops : list metrics_op) : option MetricsManager :=
  match ops with
  | [] => Some m
  | op :: ops => match metrics_step m op with
                 | Ret m => metrics_run m ops
                 | Fail _ => metrics_run m ops
                 | Panic => None
                 end
  end.

(** *** Registration *)

Definition set_table (k : kind) (m : MetricsManager) (t : gmap string vec) : MetricsManager :=
  match k with
  | Counter => set_counters m t | Gauge => set_gauges m t | Histogram => set_histograms m t | Summary => set_summaries m t
  end.

#[local]
Instance kind_eq_dec : EqDecision kind.
Proof. solve_decision. Defined.

(** A name is registered when one table has it, and one table only. *)
Record metrics_inv (m : MetricsManager) : Prop := {
  mi_registry name : name ∈ registry m <-> exists k, is_Some (table m k !! name);
  mi_kind name k k' : is_Some (table m k !! name) -> is_Some (table m k' !! name) -> k = k'
}.

Lemma table_set k m t k' : table (set_table k m t) k' = if decide (k = k') then t else table m k'.
Proof. by destruct k, k'. Qed.

Lemma registry_set k m t : registry (set_table k m t) = registry m.
Proof. by destruct k. Qed.

Lemma register_spec k m name labels :
  register k m name labels =
  if bool_decide (is_Some (table m k !! name)) then Fail (ErrExists name)
  else if desc_ok name labels && bool_decide (name ∉ registry m) then
    Ret (set_table k (MkManager ({[ name ]} ∪ registry m) (counterVecs m) (gaugeVecs m) (histograms m) (summaries m) (server m))
           (<[name := MkVec labels ∅]> (table m k)))
  else Panic.
Proof.
  destruct k; cbn [register table]; unfold RegisterCounter, RegisterGauge, RegisterHistogram, RegisterSummary, must_register;
    (case_bool_decide; [done|]); by destruct (_ && _).
Qed.

Lemma metrics_inv_new : metrics_inv NewMetricsManager.
Proof. split; [|intros name k k' [v Hv]; by destruct k]. intros name. split; [set_solver|]. intros [k [v Hv]]. by destruct k. Qed.

(** The same names in every table. *)
Lemma metrics_inv_same m m' :
  metrics_inv m -> registry m' = registry m -> (forall k name, is_Some (table m' k !! name) <-> is_Some (table m k !! name)) ->
  metrics_inv m'.
Proof.
  intros [Hr Hk] Er Et. split.
  - intros name. rewrite Er, Hr. by setoid_rewrite Et.
  - intros name k k'. rewrite !Et. apply Hk.
Qed.

Lemma apply_update_same t name values u t' :
  apply_update t name values u = Ret t' -> forall n, is_Some (t' !! n) <-> is_Some (t !! n).
Proof.
  unfold apply_update. destruct (t !! name) as [v|] eqn:E; [|done]. destruct (with_labels _ _); [|done]. intros [= <-] n.
  destruct (decide (n = name)) as [->|Hne]; [by rewrite lookup_insert_eq, E|by rewrite lookup_insert_ne].
Qed.

Lemma metrics_inv_update k m t :
  metrics_inv m -> (forall n, is_Some (t !! n) <-> is_Some (table m k !! n)) -> metrics_inv (set_table k m t).
Proof.
  intros Hm Ht. apply (metrics_inv_same m); [done|apply registry_set|]. intros k' n. rewrite table_set. by case_decide; subst.
Qed.

Lemma metrics_inv_register k m name labels m' :
  metrics_inv m -> register k m name labels = Ret m' -> metrics_inv m'.
Proof.
  intros [Hr Hk]. rewrite register_spec. case_bool_decide as Hex; [done|]. destruct (_ && _) eqn:E; [|done]. intros [= <-].
  apply andb_true_iff in E as [_ Hfree%bool_decide_eq_true].
  assert (forall k', ~ is_Some (table m k' !! name)) as Hno by (intros k' Hk'; apply Hfree, Hr; eauto).
  set (m1 := MkManager _ _ _ _ _ _). assert (forall k', table m1 k' = table m k') as Ht1 by (by intros []).
  assert (forall k' n, is_Some (table (set_table k m1 (<[name := MkVec labels ∅]> (table m k))) k' !! n) <->
            is_Some (table m k' !! n) \/ (n = name /\ k' = k)) as Hin.
  { intros k' n. rewrite table_set. destruct (decide (k = k')) as [<-|Hne]; [|rewrite Ht1; naive_solver].
    destruct (decide (n = name)) as [->|Hn]; [rewrite lookup_insert_eq; split; eauto|rewrite lookup_insert_ne by done; naive_solver]. }
  split.
  - intros n. rewrite registry_set. cbn. rewrite elem_of_union, elem_of_singleton, Hr. setoid_rewrite Hin. naive_solver.
  - intros n k1 k2 [H1|[-> ->]]%Hin [H2|[? ->]]%Hin; [by eapply Hk|subst; by destruct (Hno k1)|by destruct (Hno k2)|done].
Qed.

(** What a step can do: register a metric, change series of a table, or set the server. *)
Lemma step_cases m op m' :
  metrics_step m op = Ret m' ->
  (exists k name labels, register k m name labels = Ret m') \/
  (exists k t, m' = set_table k m t /\ forall n, is_Some (t !! n) <-> is_Some (table m k !! n)) \/
  m' = m \/ exists b, m' = MkManager (registry m) (counterVecs m) (gaugeVecs m) (histograms m) (summaries m) (Some b).
Proof.
  assert (forall k name values u (f : gmap string vec -> outcome MetricsError MetricsManager),
            (forall t m', f t = Ret m' -> m' = set_table k m t) ->
            (apply_update (table m k) name values u ≫= f) = Ret m' ->
            exists k t, m' = set_table k m t /\ forall n, is_Some (t !! n) <-> is_Some (table m k !! n)) as Hup.
  { intros k name values u f Hf. destruct (apply_update _ _ _ _) as [t| |] eqn:E; cbn; [|done..]. intros Hft.
    exists k, t. split; [by apply Hf|by eapply apply_update_same]. }
  destruct op as [k name labels|name v values|name v values|name v values|name v values|name v values|name v values| |]; cbn [metrics_step].
  - eauto.
  - unfold IncrementCounter. destruct (counterVecs m !! name); [|done]. intros E. right. left. apply (Hup Counter _ _ _ _) in E; [done|].
    intros t m1. destruct (SFltb _ _); [done|]. by intros [= <-].
  - intros E. right. left. apply (Hup Gauge _ _ _ _) in E; [done|]. by intros t m1 [= <-].
  - intros E. right. left. apply (Hup Gauge _ _ _ _) in E; [done|]. by intros t m1 [= <-].
  - intros E. right. left. apply (Hup Gauge _ _ _ _) in E; [done|]. by intros t m1 [= <-].
  - intros E. right. left. apply (Hup Histogram _ _ _ _) in E; [done|]. by intros t m1 [= <-].
  - intros E. right. left. apply (Hup Summary _ _ _ _) in E; [done|]. by intros t m1 [= <-].
  - unfold StartServer. destruct (server m); [done|]. intros [= <-]. eauto.
  - unfold StopServer. intros [= <-]. destruct (server m); eauto.
Qed.

Lemma metrics_inv_step m op m' : metrics_inv m -> metrics_step m op = Ret m' -> metrics_inv m'.
Proof.
  intros Hm [(k & name & labels & E)|[(k & t & -> & Ht)|[->|[b ->]]]]%step_cases; [by eapply metrics_inv_register|by apply metrics_inv_update|done|].
  apply (metrics_inv_same m); [done|done|by intros []].
Qed.

Lemma metrics_inv_run ops m m' : metrics_inv m -> metrics_run m ops = Some m' -> metrics_inv m'.
Proof.
  revert m. induction ops as [|op ops IH]; intros m Hm; cbn [metrics_run]; [by intros [= <-]|].
  destruct (metrics_step m op) as [m1| |] eqn:E; [|by apply IH|done]. apply IH. by eapply metrics_inv_step.
Qed.

(** Registration on every branch.  In every state that the manager reaches, registering a metric reports an error exactly when the kind has the name
    already, panics exactly when the name is taken by another kind or is not valid, and otherwise adds the metric to its kind
    alone. *)
Theorem metrics_register ops m k name labels :
  metrics_run NewMetricsManager ops = Some m ->
  match register k m name labels with
  | Fail e => e = ErrExists name /\ is_Some (table m k !! name)
  | Panic => table m k !! name = None /\ (desc_ok name labels = false \/ exists k', k' <> k /\ is_Some (table m k' !! name))
  | Ret m' => (forall k', table m k' !! name = None) /\ desc_ok name labels = true /\
              forall k', table m' k' = if decide (k = k') then <[name := MkVec labels ∅]> (table m k) else table m k'
  end.
Proof.
  intros Hrun. destruct (metrics_inv_run _ _ _ metrics_inv_new Hrun) as [Hr Hk]. rewrite register_spec.
  case_bool_decide as Hex; [done|]. apply eq_None_not_Some in Hex.
  destruct (desc_ok name labels) eqn:Hok; cbn [andb]; [|split; auto]. case_bool_decide as Hfree.
  - split_and!; [|done|].
    + intros k'. apply eq_None_not_Some. intros Hs. apply Hfree, Hr. eauto.
    + intros k'. rewrite table_set. by destruct k, k'.
  - split; [done|]. right. apply Hr in Hfree as [k' Hk']. exists k'. split; [|done].
    intros ->. rewrite Hex in Hk'. by destruct Hk'.
Qed.

(** The HTTP server runs once.  After [StartServer] has succeeded, every later call of it reports that the server is running, also after
    [StopServer] has shut it down. *)
Theorem metrics_server_once m m1 ops m2 :
  StartServer m = Ret m1 -> metrics_run m1 ops = Some m2 -> StartServer m2 = Fail ErrRunning.
Proof.
  intros Hs Hrun. assert (is_Some (server m1)) as H1. { unfold StartServer in Hs. destruct (server m); [done|]. injection Hs as <-. by eexists. }
  clear Hs. assert (is_Some (server m2)) as [b Hb]; [|unfold StartServer; by rewrite Hb].
  revert m1 H1 Hrun. induction ops as [|op ops IH]; intros m1 H1; cbn [metrics_run]; [by intros [= <-]|].
  destruct (metrics_step m1 op) as [m'|e|] eqn:E; [|by apply IH|done]. apply IH. clear IH.
  apply step_cases in E as [(k & name & labels & E)|[(k & t & -> & _)|[->|[b ->]]]]; [|by destruct k|done|by eexists].
  rewrite register_spec in E. case_bool_decide; [done|]. destruct (_ && _); [|done]. injection E as <-. by destruct k.
Qed.

(** *** Counting messages *)

Lemma f64_of_int_positive n : 0 <= n -> SFltb (f64_of_int n) (S754_zero false) = false.
Proof.
  intros Hn. unfold f64_of_int. destruct n as [|p|p]; [done| |lia]. cbn [binary_normalize]. unfold binary_round.
  destruct (shl_align _ _ _) as [m e]. unfold binary_round_aux. destruct (shr_fexp _ _ _ e _) as [r e'].
  destruct (shr_fexp _ _ _ e' _) as [r' e'']. destruct (shr_m r'); [done| |done]. by destruct (_ <=? _).
Qed.

Definition messages_total : string := "messages_total".

(** The series of a message type. *)
Definition messages_of (m : MetricsManager) (t : string) : list update :=
  default [] (counterVecs m !! messages_total ≫= fun v => series v !! [t; "gateway"%string]).

Definition counted_messages (m : MetricsManager) : Prop :=
  exists v, counterVecs m !! messages_total = Some v /\ length (label_names v) = 2%nat.

Definition valid_count (x : string * Z) : Prop := 0 <= x.2 /\ utf8_valid 0 (str_bytes x.1) = true.

Lemma increment_message m x :
  counted_messages m -> valid_count x ->
  exists m', IncrementCounter m messages_total (f64_of_int x.2) [x.1; "gateway"%string] = Ret m' /\ counted_messages m' /\
    forall t, messages_of m' t = messages_of m t ++ (if decide (t = x.1) then [Added (f64_of_int x.2)] else []).
Proof.
  intros (v & Hv & Hl) [Hc Hu]. unfold IncrementCounter, apply_update. rewrite Hv. unfold with_labels. rewrite Hl.
  cbn [length forallb]. rewrite Hu, bool_decide_eq_true_2 by done. cbn [andb mbind outcome_bind].
  rewrite f64_of_int_positive by done. eexists. split; [done|]. split.
  - eexists. cbn. by rewrite lookup_insert_eq.
  - intros t. unfold messages_of. cbn. rewrite lookup_insert_eq, Hv. cbn. case_decide as E.
    + subst t. by rewrite lookup_insert_eq.
    + rewrite lookup_insert_ne by congruence. by rewrite app_nil_r.
Qed.

(** What one collection adds to a series. *)
Definition added_by (counts : list (string * Z)) (t : string) : list update :=
  (fun x => Added (f64_of_int x.2)) <$> filter (fun x => x.1 = t) counts.

Lemma increment_messages counts m :
  counted_messages m -> Forall valid_count counts ->
  exists m', fold_left (fun o x => m ← o; ignore m (IncrementCounter m messages_total (f64_of_int x.2) [x.1; "gateway"%string]))
               counts (Ret m) = Ret m' /\
    counted_messages m' /\ forall t, messages_of m' t = messages_of m t ++ added_by counts t.
Proof.
  intros Hm Hall. revert m Hm. induction Hall as [|x counts Hx _ IH]; intros m Hm.
  - exists m. split; [done|]. split; [done|]. intros t. by rewrite app_nil_r.
  - destruct (increment_message m x Hm Hx) as (m1 & E1 & Hm1 & Hs1). destruct (IH m1 Hm1) as (m2 & E2 & Hm2 & Hs2).
    exists m2. split; [|split; [done|]].
    + cbn [fold_left mbind outcome_bind]. rewrite E1. exact E2.
    + intros t. rewrite Hs2, Hs1, <- app_assoc. f_equal. unfold added_by. rewrite filter_cons.
      destruct (decide (x.1 = t)) as [<-|Hne]; [by rewrite decide_True|by rewrite decide_False].
Qed.

Fixpoint collections (n : nat) (counts : list (string * Z)) (m : MetricsManager) : outcome MetricsError MetricsManager :=
  match n with O => Ret m | S n => m ← MessageStatsCollector m counts; collections n counts m end.

(** Messages are counted again and again.  The collector of message counts adds the totals of its map to the counter at every collection: after
    [n + 1] collections of an unchanged map the counter of each type has received its total [n + 1] times. *)
Theorem metrics_messages_recounted n counts m :
  messages_total ∉ registry m -> counterVecs m !! messages_total = None ->
  desc_ok messages_total ["type"; "service"]%string = true -> Forall valid_count counts -> NoDup counts.*1 ->
  exists m', collections (S n) counts m = Ret m' /\
    forall t c, (t, c) ∈ counts -> messages_of m' t = replicate (S n) (Added (f64_of_int c)).
Proof.
  intros Hfree Hnone Hok Hall Hnd.
  assert (forall t c, (t, c) ∈ counts -> added_by counts t = [Added (f64_of_int c)]) as Hadd.
  { intros t c Hin. unfold added_by. clear -Hin Hnd. induction counts as [|[t' c'] counts IH]; [by apply elem_of_nil in Hin|].
    cbn in Hnd. apply NoDup_cons in Hnd as [Hnot Hnd]. rewrite filter_cons. apply elem_of_cons in Hin as [[= <- <-]|Hin].
    - rewrite decide_True by done. rewrite filter_none; [done|]. intros [t'' c''] Hx E. cbn in E. subst. apply Hnot, list_elem_of_fmap. by exists (t, c'').
    - rewrite decide_False; [by apply IH|]. cbn. intros ->. apply Hnot, list_elem_of_fmap. by exists (t, c). }
  assert (forall n m, counted_messages m -> exists m', collections n counts m = Ret m' /\
            forall t c, (t, c) ∈ counts -> messages_of m' t = messages_of m t ++ replicate n (Added (f64_of_int c))) as Hrun.
  { clear -Hadd Hall. induction n as [|n IH]; intros m Hm.
    - exists m. split; [done|]. intros t c _. by rewrite app_nil_r.
    - cbn [collections]. unfold MessageStatsCollector. fold messages_total. pose proof Hm as (v & Hv & _).
      rewrite Hv, bool_decide_eq_true_2 by (by eexists). cbn [mbind outcome_bind].
      destruct (increment_messages counts m Hm Hall) as (m1 & E1 & Hm1 & Hs1). cbn [mbind outcome_bind] in E1. rewrite E1.
      destruct (IH m1 Hm1) as (m2 & E2 & Hs2). exists m2. split; [exact E2|]. intros t c Hin.
      rewrite (Hs2 t c Hin), Hs1, (Hadd t c Hin), <- app_assoc. done. }
  cbn [collections]. unfold MessageStatsCollector. fold messages_total. rewrite Hnone, bool_decide_eq_false_2 by (by intros [? ?]).
  unfold RegisterCounter, must_register. rewrite Hnone, bool_decide_eq_false_2 by (by intros [? ?]).
  rewrite Hok, bool_decide_eq_true_2 by done. cbn [andb mbind outcome_bind ignore].
  set (m0 := set_counters _ _). assert (counted_messages m0) as H0.
  { eexists. unfold m0. cbn. by rewrite lookup_insert_eq. }
  destruct (increment_messages counts m0 H0 Hall) as (m1 & E1 & Hm1 & Hs1). cbn [mbind outcome_bind] in E1. rewrite E1.
  destruct (Hrun n m1 Hm1) as (m2 & E2 & Hs2). exists m2. split; [exact E2|]. intros t c Hin.
  rewrite (Hs2 t c Hin), Hs1, (Hadd t c Hin). unfold messages_of, m0. cbn. rewrite lookup_insert_eq. cbn. by rewrite lookup_empty.
Qed.
End prometheus.

(** ** The collecting goroutine *)

Module Collector.

Inductive phase := Collecting | Selecting.

(** [goroutines] that [Start] has started; the calls of [Stop] that wait for their
    send on [stopCh], and those that have sent and not yet cleared [isRunning]. *)
Record MetricsCollector := MkCollector {
  isRunning : bool;
  goroutines : list phase;
  stops_waiting : nat;
  stops_returning : nat;
  collected : nat
}.

Definition NewMetricsCollector : MetricsCollector := MkCollector false [] 0 0 0.

(** [time.NewTicker] panics on an interval that is not positive. *)
Definition Start (c : MetricsCollector) (interval : Z) : outcome Empty_set MetricsCollector :=
  if isRunning c then Ret c
  else if interval <=? 0 then Panic
  else Ret (MkCollector true (goroutines c ++ [Collecting]) (stops_waiting c) (stops_returning c) (collected c)).

(** [Stop] up to its send. *)
Definition Stop (c : MetricsCollector) : MetricsCollector :=
  if isRunning c then MkCollector true (goroutines c) (S (stops_waiting c)) (stops_returning c) (collected c) else c.

(** Goroutine [k] has run all collectors. *)
Definition collect_done (c : MetricsCollector) (k : nat) : option MetricsCollector :=
  match goroutines c !! k with
  | Some Collecting =>
      Some (MkCollector (isRunning c) (<[k := Selecting]> (goroutines c)) (stops_waiting c) (stops_returning c) (S (collected c)))
  | _ => None
  end.

Definition tick (c : MetricsCollector) (k : nat) : option MetricsCollector :=
  match goroutines c !! k with
  | Some Selecting =>
      Some (MkCollector (isRunning c) (<[k := Collecting]> (goroutines c)) (stops_waiting c) (stops_returning c) (collected c))
  | _ => None
  end.

(** Goroutine [k] receives from [stopCh] and ends. *)
Definition stop_received (c : MetricsCollector) (k : nat) : option MetricsCollector :=
  match goroutines c !! k, stops_waiting c with
  | Some Selecting, S n => Some (MkCollector (isRunning c) (delete k (goroutines c)) n (S (stops_returning c)) (collected c))
  | _, _ => None
  end.

(** The rest of [Stop]. *)
Definition stop_returns (c : MetricsCollector) : option MetricsCollector :=
  match stops_returning c with
  | S n => Some (MkCollector false (goroutines c) (stops_waiting c) n (collected c))
  | O => None
  end.

Inductive event := EvStart (interval : Z) | EvStop | EvCollected (k : nat) | EvTick (k : nat) | EvReceived (k : nat) | EvReturns.

Definition collector_step (c : MetricsCollector) (ev : event) : option MetricsCollector :=
  match ev with
  | EvStart interval => match Start c interval with Ret c => Some c | _ => None end
  | EvStop => Some (Stop c)
  | EvCollected k => collect_done c k
  | EvTick k => tick c k
  | EvReceived k => stop_received c k
  | EvReturns => stop_returns c
  end.

Fixpoint collector_run (c : MetricsCollector) (evs : list event) : option MetricsCollector :=
  match evs with
  | [] => Some c
  | ev :: evs => c ← collector_step c ev; collector_run c evs
  end.

Definition running_inv (c : MetricsCollector) : Prop :=
  (length (goroutines c) + stops_returning c = if isRunning c then 1 else 0)%nat.

Lemma running_step c ev c' : running_inv c -> collector_step c ev = Some c' -> running_inv c'.
Proof.
  unfold running_inv. intros Hi. destruct ev as [interval| |k|k|k|]; cbn [collector_step].
  - unfold Start. destruct (isRunning c) eqn:Hr; [intros [= <-]; by rewrite Hr|]. destruct (_ <=? 0); [done|]. intros [= <-]. cbn.
    rewrite length_app. cbn. lia.
  - unfold Stop. destruct (isRunning c) eqn:Hr; intros [= <-]; [done|by rewrite Hr].
  - unfold collect_done. destruct (goroutines c !! k) as [[]|]; [|done..]. intros [= <-]. cbn. by rewrite length_insert.
  - unfold tick. destruct (goroutines c !! k) as [[]|]; [done| |done]. intros [= <-]. cbn. by rewrite length_insert.
  - unfold stop_received. destruct (goroutines c !! k) as [[]|] eqn:Hk; [done| |done]. destruct (stops_waiting c); [done|].
    intros [= <-]. cbn. apply lookup_lt_Some in Hk as Hlt. rewrite length_delete by (by eexists). lia.
  - unfold stop_returns. destruct (stops_returning c) as [|n]; [done|]. intros [= <-]. cbn. destruct (isRunning c); lia.
Qed.

Lemma running_run evs c c' : running_inv c -> collector_run c evs = Some c' -> running_inv c'.
Proof.
  revert c. induction evs as [|ev evs IH]; intros c Hc; cbn [collector_run]; [by intros [= <-]|].
  destruct (collector_step c ev) as [c1|] eqn:E; [|done]. cbn. apply IH. by eapply running_step.
Qed.

(** One collecting goroutine.  In every interleaving of [Start], [Stop], ticks and collections at most one goroutine collects, and [isRunning]
    is set exactly while it runs or the [Stop] that ended it has not returned. *)
Theorem collector_one_goroutine evs c :
  collector_run NewMetricsCollector evs = Some c ->
  (length (goroutines c) <= 1)%nat /\
  (isRunning c = true <-> goroutines c <> [] \/ (0 < stops_returning c)%nat).
Proof.
  intros Hrun. pose proof (running_run evs NewMetricsCollector c eq_refl Hrun) as Hi. unfold running_inv in Hi.
  destruct (isRunning c); (split; [lia|]); split; try done; intros H.
  - destruct (goroutines c); [right; simpl in Hi; lia|by left].
  - destruct H as [H|H]; [destruct (goroutines c); [done|simpl in Hi; lia]|lia].
Qed.

Definition no_start (ev : event) : bool := match ev with EvStart _ => false | _ => true end.

(** A second [Stop] waits for the next [Start].  When two calls of [Stop] overlap, the goroutine takes the stop of one of them: the other waits
    for as long as the collector is not started again, whatever else happens. *)
Theorem collector_stop_blocks c evs c' :
  goroutines c = [] -> forallb no_start evs = true -> collector_run c evs = Some c' ->
  goroutines c' = [] /\ (stops_waiting c <= stops_waiting c')%nat.
Proof.
  revert c. induction evs as [|ev evs IH]; intros c Hg Hno; cbn [collector_run]; [by intros [= <-]|].
  apply andb_true_iff in Hno as [Hev Hno]. destruct (collector_step c ev) as [c1|] eqn:E; [|done]. cbn. intros Hrun.
  assert (goroutines c1 = [] /\ (stops_waiting c <= stops_waiting c1)%nat) as [Hg1 Hw].
  { destruct ev as [interval| |k|k|k|]; cbn [collector_step] in E; [done| | | | |].
    - unfold Stop in E. destruct (isRunning c); injection E as <-; cbn; split; (done || lia).
    - unfold collect_done in E. by rewrite Hg in E.
    - unfold tick in E. by rewrite Hg in E.
    - unfold stop_received in E. by rewrite Hg in E.
    - unfold stop_returns in E. destruct (stops_returning c); [done|]. by injection E as <-. }
  destruct (IH c1 Hg1 Hno Hrun). split; [done|lia].
Qed.

(** Two overlapping stops. *)
Definition two_stops : list event := [EvStart 5; EvStop; EvStop; EvCollected 0; EvReceived 0; EvReturns].

Lemma collector_one_goroutine_witness :
  exists c, collector_run NewMetricsCollector two_stops = Some c /\ (length (goroutines c) <= 1)%nat /\ stops_waiting c = 1%nat.
Proof. eexists. split; [done|]. split; [by apply (collector_one_goroutine two_stops)|done]. Defined.

Lemma collector_stop_blocks_witness :
  exists c c', collector_run NewMetricsCollector two_stops = Some c /\ collector_run c [EvStop] = Some c' /\ (stops_waiting c <= stops_waiting c')%nat.
Proof. eexists _, _. split; [done|]. split; [done|]. by apply (collector_stop_blocks _ [EvStop]). Defined.

End Collector.

(** ** Examples *)

Definition any_desc (name : string) (labels : list string) : bool := true.

Lemma metrics_register_witness :
  exists m, metrics_run any_desc NewMetricsManager [OpRegister Counter "hits" []] = Some m /\
    register any_desc Gauge m "hits" [] = Panic /\ is_Some (table m Counter !! "hits"%string).
Proof.
  eexists. split; [done|]. split; [done|].
  match goal with |- is_Some (table ?m _ !! _) => pose proof (metrics_register any_desc [OpRegister Counter "hits" []] m Gauge "hits" [] eq_refl) as H end.
  change (register any_desc Gauge _ "hits" []) with (Panic (E := MetricsError) (A := MetricsManager)) in H.
  destruct H as [_ [H|([] & Hne & Hk)]]; [done|exact Hk|done|by vm_compute in Hk; destruct Hk|by vm_compute in Hk; destruct Hk].
Defined.

Lemma metrics_server_once_witness :
  exists m1 m2, StartServer NewMetricsManager = Ret m1 /\ metrics_run any_desc m1 [OpStopServer] = Some m2 /\ StartServer m2 = Fail ErrRunning.
Proof.
  do 2 eexists. split; [done|]. split; [done|]. eapply (metrics_server_once any_desc NewMetricsManager _ [OpStopServer]); [reflexivity|reflexivity].
Defined.

Lemma metrics_messages_recounted_witness :
  exists m, collections any_desc 3 [("chat"%string, 5)] NewMetricsManager = Ret m /\ messages_of m "chat" = replicate 3 (Added (f64_of_int 5)).
Proof.
  destruct (metrics_messages_recounted any_desc 2 [("chat"%string, 5)] NewMetricsManager) as (m & Hm & Hs);
    [set_solver|done|done|repeat constructor; done|apply NoDup_singleton|].
  exists m. split; [exact Hm|]. apply Hs. by left.
Defined.
