(* ===== verification/Programs.v ===== *)
(** * Programs over the packages ([cmd/sync_test], [cmd/rpc_test])

    Two of the programs under [cmd] put the components together: the example of
    [sync_test], which synchronizes players over remote calls, and the load tests of
    [rpc_test].  The example is composed of [PlayerState.v] and [GrpcRpc.v]; the
    concurrent load test is a state machine of its goroutines and its channel. *)

From stdpp Require Import base gmap strings numbers list pretty.
From Stdlib Require Import ZArith Lia.
From S2P Require Import Prelude Float32 Aoi PlayerState RpcWire GrpcRpc.

Local Open Scope Z_scope.

(** ** The example of [sync_test] *)

(** The exported methods of the two services, as [reflect] shows them. *)
Inductive sync_func := FSyncPosition | FBroadcastMessage | FBroadcastToNearby | FGroupcastMessage.

Definition sync_method (receiver name arg reply : string) (f : sync_func) : go_method sync_func :=
  MkMethod name "" [Ptr (Named "mmo-server/pkg/sync" "sync" receiver); Named "context" "context" "Context"; repo_message arg; repo_message reply]
    [error_type] f.

Definition sync_service_methods : list (go_method sync_func) :=
  [sync_method "SyncPlayerStateService" "SyncPosition" "PositionSyncRequest" "PositionSyncResponse" FSyncPosition].

Definition broadcast_service_methods : list (go_method sync_func) :=
  [sync_method "BroadcastService" "BroadcastMessage" "ChatRequest" "ChatResponse" FBroadcastMessage;
   sync_method "BroadcastService" "BroadcastToNearby" "ChatRequest" "ChatResponse" FBroadcastToNearby;
   sync_method "BroadcastService" "GroupcastMessage" "ChatRequest" "ChatResponse" FGroupcastMessage].

(** The server of the example; the errors of [Register] are ignored. *)
Definition sync_server : GRPCServer sync_func :=
  (Register (Register NewGRPCServer "SyncPlayerStateService" sync_service_methods).1 "BroadcastService" broadcast_service_methods).1.

(** The player that a client speaks for, and the position it sends. *)
Definition example_player (clientID : nat) : string := "player" +:+ pretty (clientID mod 3 + 1)%nat.

Definition example_request (clientID : nat) (now : Z) : PositionSyncRequest :=
  let f z := f32_of_int (Z.of_nat clientID * z) in
  MkSyncRequest (example_player clientID) (f 100, f 10, f 50) (Some (f 1, f32_of_int 0, f 1)) (f 45) now.

(** What a client calls, in order. *)
Definition client_methods (clientID : nat) : list string :=
  "SyncPlayerStateService.SyncPosition"%string ::
  (if (clientID =? 1)%nat then ["BroadcastService.BroadcastMessage"; "BroadcastService.GroupcastMessage"]%string else []).

Section example.
Context {value msg any : Type} (conv : float32 -> Z) `{Protobuf msg any}.
(** What the methods do, if they are called. *)
Context (invoke : @PlayerStateManager value -> sync_func -> msg -> msg -> @PlayerStateManager value * msg * option string).

(** A call, with its messages and what the network and the client do meanwhile. *)
Record remote_call := MkRemote {
  rc_client : nat;
  rc_method : string;
  rc_args : msg;
  rc_reply : msg;
  rc_seq : Z;
  rc_closed : bool;
  rc_net : nat -> transport;
  rc_cancelled : nat -> bool;
  rc_closed_at : nat -> bool
}.

Definition run_call (m : @PlayerStateManager value) (c : remote_call) : @PlayerStateManager value * outcome ClientErr msg :=
  let '(_, (m, _, o)) :=
    client_Call (over_network invoke sync_server (rc_net c)) (rc_cancelled c) (rc_closed_at c) (rc_seq c) m (rc_closed c)
      (rc_method c) (rc_args c) (rc_reply c) in
  (m, o).

Fixpoint run_calls (m : @PlayerStateManager value) (cs : list remote_call) : @PlayerStateManager value * list (outcome ClientErr msg) :=
  match cs with
  | [] => (m, [])
  | c :: cs => let '(m, o) := run_call m c in let '(m, os) := run_calls m cs in (m, o :: os)
  end.

(** The players of the example; the error of [SubscribeToPlayer] is ignored. *)
Definition example_setup (now : Z) : outcome PsError (@PlayerStateManager value) :=
  m ← NewPlayerStateManager;
  '(m, _) ← RegisterPlayer conv now m "player1";
  '(m, _) ← RegisterPlayer conv now m "player2";
  '(m, _) ← RegisterPlayer conv now m "player3";
  match SubscribeToPlayer m "player2" "player1" with Fail _ => Ret m | o => o end.

(** The positions that are printed at the end; then the players leave. *)
Definition example_positions (m : @PlayerStateManager value) : list (option vec3) :=
  (fun id => match GetPlayer m id with Ret p => Some (Position (deref (objects m) p)) | _ => None end)
    <$> ["player1"; "player2"; "player3"]%string.

Definition example_cleanup (m : @PlayerStateManager value) : outcome PsError (@PlayerStateManager value) :=
  m ← UnregisterPlayer conv m "player1"; m ← UnregisterPlayer conv m "player2"; UnregisterPlayer conv m "player3".

(** The example between the start of the server and its stop, which are not part of it.
    [cs]: the calls of the five clients, in the order in which they happen. *)
Definition runExampleTest (now : Z) (cs : list remote_call) :
    outcome PsError (list (outcome ClientErr msg) * list (option vec3) * @PlayerStateManager value) :=
  m ← example_setup now;
  let '(m, os) := run_calls m cs in
  m' ← example_cleanup m;
  Ret (os, example_positions m, m').

(** *** What it does *)

(** A loop over attempts of which none succeeds or changes the other side. *)
Lemma attempts_fail {St} (send : nat -> pb_RPCRequest any -> St -> St * (pb_RPCResponse any + grpc_code)) cancelled closed_at req reply more :
  (forall i st, exists a, send i req st = (st, a) /\ match a with inl resp => p_Error resp <> ""%string | inr _ => True end) ->
  forall i last st, exists n e, attempts send cancelled closed_at more i last st req reply = (st, n, Fail e).
Proof.
  intros Hs. induction more as [|more IH]; intros i last st; cbn [attempts]; [by eexists _, _|].
  destruct (_ && _); [by eexists _, _|]. destruct (closed_at i); [by eexists _, _|]. destruct (Hs i st) as (a & -> & Ha).
  destruct a as [resp|code].
  - rewrite decide_False by done. destruct (isRetryableError _); [|by eexists _, _].
    destruct (IH (S i) (ErrText (p_Error resp)) st) as (n & e & ->). by eexists _, _.
  - destruct (isRetryableGRPCError code); [|by eexists _, _]. destruct (IH (S i) ErrGrpc st) as (n & e & ->). by eexists _, _.
Qed.

Definition example_methods : list string :=
  ["SyncPlayerStateService.SyncPosition"; "BroadcastService.BroadcastMessage"; "BroadcastService.GroupcastMessage"]%string.

Lemma sync_server_refuses m method seq args : method ∈ example_methods ->
  server_Call invoke sync_server m (MkReq method seq args) =
  (m, Some (MkResp method seq ("method not found: " +:+ method) None)).
Proof.
  unfold example_methods. rewrite !elem_of_cons, elem_of_nil. intros [-> |[-> |[-> |[]]]]; reflexivity.
Qed.

Lemma run_call_fails m c : rc_method c ∈ example_methods -> exists e, run_call m c = (m, Fail e).
Proof.
  intros Hm. unfold run_call, client_Call. destruct (rc_closed c); [by eexists|]. destruct (any_New (rc_args c)) as [a|]; [|by eexists].
  destruct (attempts_fail (over_network invoke sync_server (rc_net c)) (rc_cancelled c) (rc_closed_at c)
    (MkReq (rc_method c) (nextSequence (rc_seq c)) (Some a)) (rc_reply c) maxRetries) with (i := 0%nat) (last := ErrGrpc) (st := m)
    as (n & e & ->); [|by eexists].
  intros i st. unfold over_network. rewrite sync_server_refuses by done. destruct (rc_net c i); eexists; (split; [reflexivity|]); done.
Qed.

Lemma run_calls_fail cs : Forall (fun c => rc_method c ∈ example_methods) cs ->
  forall m, exists os, run_calls m cs = (m, os) /\ length os = length cs /\ Forall (fun o => exists e, o = Fail e) os.
Proof.
  induction 1 as [|c cs Hc _ IH]; intros m; cbn [run_calls]; [by exists []|].
  destruct (run_call_fails m c Hc) as [e ->]. destruct (IH m) as (os & -> & Hl & Hf). eexists. split; [done|].
  split; [simpl; lia|]. constructor; [by eexists|done].
Qed.

(** The grid is all that the answer of the AOI manager changes. *)
Lemma log_aoi_rest (m m' : @PlayerStateManager value) o : log_aoi m o = Ret m' ->
  objects m' = objects m /\ players m' = players m /\ subscribers m' = subscribers m.
Proof. unfold log_aoi. destruct o; intros [= <-]; done. Qed.

Lemma register_new now (m : @PlayerStateManager value) id : ps_inv conv m -> players m !! id = None ->
  exists m' p, RegisterPlayer conv now m id = Ret (m', p) /\ ps_inv conv m' /\ players m' = <[id := p]> (players m) /\
    objects m' = <[p := new_player id now]> (objects m) /\ objects m !! p = None.
Proof.
  intros Hi Hn. destruct (ps_register_inv conv now m id Hi) as (m' & p & Hr & Hi' & _). exists m', p. split; [done|]. split; [done|].
  unfold RegisterPlayer in Hr. rewrite Hn in Hr. cbn zeta in Hr.
  destruct (log_aoi _ _) as [m2| |] eqn:Hl; [|done..]. injection Hr as <- <-. apply log_aoi_rest in Hl as (-> & -> & _).
  split_and!; [done..|]. apply not_elem_of_dom, is_fresh.
Qed.

(** The manager of the example, before and after. *)
Lemma example_setup_good now : exists m, example_setup now = Ret m /\ ps_inv conv m /\
  dom (players m) = {["player1"; "player2"; "player3"]} /\ example_positions m = [Some origin; Some origin; Some origin].
Proof.
  destruct (new_manager_inv (value := value) conv) as (m0 & H0 & I0). unfold example_setup. rewrite H0. cbn [mbind outcome_bind].
  assert (players m0 = ∅) as E0 by (unfold NewPlayerStateManager in H0; destruct (NewAOIManager _ _ _ _ _); [injection H0 as <-|..]; done).
  destruct (register_new now m0 "player1" I0) as (m1 & p1 & -> & I1 & P1 & O1 & F1); [by rewrite E0|]. cbn [mbind outcome_bind].
  destruct (register_new now m1 "player2" I1) as (m2 & p2 & -> & I2 & P2 & O2 & F2); [by rewrite P1, E0; simplify_map_eq|]. cbn [mbind outcome_bind].
  destruct (register_new now m2 "player3" I2) as (m3 & p3 & -> & I3 & P3 & O3 & F3); [by rewrite P2, P1, E0; simplify_map_eq|]. cbn [mbind outcome_bind].
  rewrite O1 in F2. rewrite O2, O1 in F3. apply lookup_insert_None in F2 as [F2 N12]. apply lookup_insert_None in F3 as [F3 N23].
  apply lookup_insert_None in F3 as [F3 N13]. rewrite P2, P1, E0 in P3. rewrite O2, O1 in O3.
  assert (exists m4, match SubscribeToPlayer m3 "player2" "player1" with Fail _ => Ret m3 | o => o end = Ret m4 /\ ps_inv conv m4 /\
    players m4 = players m3 /\ objects m4 = objects m3) as (m4 & -> & I4 & P4 & O4).
  { pose proof (ps_step_inv conv (fun _ => []) m3 (OpSubscribe "player2" "player1") I3 I) as Hs. cbn [ps_step] in Hs.
    unfold SubscribeToPlayer in *. destruct (players m3 !! "player1"%string); [|by exists m3].
    destruct (existsb _ _); [by exists m3|]. eexists. split; [done|]. split; [exact Hs|done]. }
  exists m4. split; [done|]. split; [done|]. rewrite P4, P3. split; [set_solver|].
  unfold example_positions, GetPlayer. rewrite P4, P3, O4, O3. cbn [fmap list_fmap].
  rewrite !lookup_insert_eq, !lookup_insert_ne, !lookup_insert_eq, !lookup_insert_ne, !lookup_insert_eq by done.
  rewrite !ps_deref_insert. repeat case_decide; try congruence; done.
Qed.

Lemma cleanup_good m : ps_inv conv m -> dom (players m) = {["player1"; "player2"; "player3"]} ->
  exists m', example_cleanup m = Ret m' /\ players m' = ∅ /\ subscribers m' = ∅.
Proof.
  intros Hi Hd. unfold example_cleanup.
  assert (forall id, id ∈ dom (players m) -> exists p, players m !! id = Some p) as Hx by (intros id Hid; by apply elem_of_dom in Hid).
  destruct (Hx "player1"%string) as [p1 Q1]; [rewrite Hd; set_solver|]. destruct (Hx "player2"%string) as [p2 Q2]; [rewrite Hd; set_solver|].
  destruct (Hx "player3"%string) as [p3 Q3]; [rewrite Hd; set_solver|].
  destruct (ps_unregister_inv conv m _ p1 Hi Q1) as (m1 & -> & I1 & P1 & _). cbn [mbind outcome_bind].
  destruct (ps_unregister_inv conv m1 "player2" p2 I1) as (m2 & -> & I2 & P2 & _); [by rewrite P1, lookup_delete_ne|].
  cbn [mbind outcome_bind].
  destruct (ps_unregister_inv conv m2 "player3" p3 I2) as (m3 & -> & I3 & P3 & _); [by rewrite P2, P1, !lookup_delete_ne|].
  exists m3. assert (players m3 = ∅) as E by (apply dom_empty_inv_L; rewrite P3, P2, P1, !dom_delete_L, Hd; set_solver).
  split; [done|]. split; [done|]. apply map_empty. intros id. apply eq_None_not_Some. rewrite (pi_subs conv m3 I3), E, lookup_empty. by intros [].
Qed.

(** C29: between the start of its server and its stop the example runs to its end and does nothing: whatever the order of its clients'
    calls and whatever the network does, every call fails, the three players end
    where they started, and the manager ends empty. *)
Theorem sync_example_idle now cs
    (Hcs : Forall (fun c => rc_method c ∈ client_methods (rc_client c)) cs) :
  exists os m, runExampleTest now cs = Ret (os, [Some origin; Some origin; Some origin], m) /\
    length os = length cs /\ Forall (fun o => exists e, o = Fail e) os /\ players m = ∅ /\ subscribers m = ∅.
Proof.
  assert (Forall (fun c => rc_method c ∈ example_methods) cs) as Hcs'.
  { eapply Forall_impl; [exact Hcs|]. intros c Hc. unfold client_methods, example_methods in *.
    destruct (_ =? _)%nat; set_solver. }
  destruct (example_setup_good now) as (m & Hs & Hi & Hd & Hp). destruct (run_calls_fail cs Hcs' m) as (os & Hr & Hl & Hf).
  destruct (cleanup_good m Hi Hd) as (m' & Hc & H1 & H2). exists os, m'. unfold runExampleTest. rewrite Hs. cbn [mbind outcome_bind].
  rewrite Hr, Hc. rewrite Hp. split; [reflexivity|]. split; [exact Hl|]. split; [exact Hf|]. split; [exact H1|exact H2].
Qed.
End example.

(** ** The load tests of [rpc_test] *)

(** The average at the end: the division of a duration by an integer. *)
Definition average (duration n : Z) : outcome unit Z := if n =? 0 then Panic else Ret (int64 (Z.quot duration n)).

(** The stress test: one result per request. *)
Fixpoint stress_loop (results : list bool) (successCount failCount : nat) : nat * nat :=
  match results with
  | [] => (successCount, failCount)
  | true :: rest => stress_loop rest (S successCount) failCount
  | false :: rest => stress_loop rest successCount (S failCount)
  end.

(** The concurrent test.  [todo]: the results that each client has still to send;
    a client that cannot connect sends as many failures.  [results]: those sent. *)
Record tester := MkTester {
  todo : list nat;
  channel : list bool;
  successCount : nat;
  failCount : nat;
  results : list bool
}.

Definition new_tester (requestCount concurrentClients : nat) : tester := MkTester (replicate concurrentClients requestCount) [] 0 0 [].

Definition collected (t : tester) : nat := (successCount t + failCount t)%nat.

Inductive test_action := TResult (client : nat) (ok : bool) | TCollect.

(** [None] when a goroutine waits, or has nothing more to do. *)
Definition test_step (total : nat) (t : tester) (act : test_action) : option tester :=
  match act with
  | TResult c ok =>
      match todo t !! c with
      | Some (S k) =>
          if (length (channel t) <? total)%nat
          then Some (MkTester (<[c := k]> (todo t)) (channel t ++ [ok]) (successCount t) (failCount t) (results t ++ [ok]))
          else None
      | _ => None
      end
  | TCollect =>
      match channel t with
      | [] => None
      | b :: rest =>
          if (collected t <? total)%nat then
            Some (if b then MkTester (todo t) rest (S (successCount t)) (failCount t) (results t)
                  else MkTester (todo t) rest (successCount t) (S (failCount t)) (results t))
          else None
      end
  end.

Fixpoint test_run (total : nat) (t : tester) (acts : list test_action) : option tester :=
  match acts with
  | [] => Some t
  | act :: rest => match test_step total t act with Some t => test_run total t rest | None => None end
  end.

(** [make(chan bool, n)] panics when the size is negative; the flags are arbitrary
    integers, and a loop up to a negative count does nothing. *)
Definition concurrent_start (requestCount concurrentClients : Z) : outcome unit tester :=
  if int64 (requestCount * concurrentClients) <? 0 then Panic
  else Ret (new_tester (Z.to_nat requestCount) (Z.to_nat concurrentClients)).

(** *** Properties *)

Lemma sum_todo l c k : l !! c = Some (S k) -> sum_list l = S (sum_list (<[c := k]> l)).
Proof. revert c. induction l as [|x l IH]; intros [|c] Hc; simplify_eq/=; [lia|]. rewrite (IH _ Hc). lia. Qed.

Fixpoint count_true (l : list bool) : nat := match l with [] => 0%nat | b :: l => ((if b then 1 else 0) + count_true l)%nat end.

Lemma count_true_app l1 l2 : count_true (l1 ++ l2) = (count_true l1 + count_true l2)%nat.
Proof. induction l1 as [|b l1 IH]; simpl; [done|]. rewrite IH. lia. Qed.

(** Every result is still to be sent, in the channel, or collected. *)
Definition test_inv (total : nat) (t : tester) : Prop :=
  (sum_list (todo t) + length (channel t) + collected t = total)%nat /\
  (successCount t + count_true (channel t) = count_true (results t))%nat /\
  length (results t) = (length (channel t) + collected t)%nat.

Lemma test_step_inv total t act t' : test_inv total t -> test_step total t act = Some t' ->
  test_inv total t' /\ (2 * sum_list (todo t') + length (channel t') < 2 * sum_list (todo t) + length (channel t))%nat.
Proof.
  intros (H1 & H2 & H3) Hs. unfold test_inv, collected in *. destruct act as [c ok|]; cbn [test_step] in Hs.
  - destruct (todo t !! c) as [[|k]|] eqn:Hc; try done. destruct (_ <? _)%nat; [|done]. injection Hs as <-. simpl.
    apply sum_todo in Hc. rewrite !length_app, !count_true_app. simpl. lia.
  - destruct (channel t) as [|b rest]; [done|]. destruct (_ <? _)%nat; [|done].
    destruct b; injection Hs as <-; simpl in *; lia.
Qed.

Lemma test_run_inv total acts : forall t t', test_inv total t -> test_run total t acts = Some t' ->
  test_inv total t' /\ (2 * sum_list (todo t') + length (channel t') + length acts <= 2 * sum_list (todo t) + length (channel t))%nat.
Proof.
  induction acts as [|act acts IH]; intros t t' Hi Hr; simpl in Hr; [injection Hr as <-; split; [done|simpl; lia]|].
  destruct (test_step total t act) as [t1|] eqn:Hs; [|done]. destruct (test_step_inv _ _ _ _ Hi Hs) as [Hi1 Hm1].
  destruct (IH _ _ Hi1 Hr) as [Hi' Hm]. split; [done|]. simpl. lia.
Qed.

Lemma sum_list_pos l : (0 < sum_list l)%nat -> exists c k, l !! c = Some (S k).
Proof.
  induction l as [|x l IH]; simpl; [lia|]. destruct x as [|k]; [|by exists 0%nat, k]. intros H. destruct (IH H) as (c & k & Hc).
  by exists (S c), k.
Qed.

Lemma new_tester_inv n c : test_inv (n * c) (new_tester n c).
Proof.
  unfold test_inv, collected. simpl. assert (sum_list (replicate c n) = n * c)%nat as ->; [|lia].
  induction c as [|c IH]; simpl; [lia|]. rewrite IH. lia.
Qed.

(** The concurrent test ends, whatever the order of its goroutines: no client ever
    waits for the channel, a run has at most two steps per request, and a run that
    cannot go on has collected every result, with as many successes as were sent. *)
Theorem rpc_test_completes n c acts t
    (Hrun : test_run (n * c) (new_tester n c) acts = Some t) :
  (length acts <= 2 * (n * c))%nat /\
  (forall i k ok, todo t !! i = Some (S k) -> is_Some (test_step (n * c) t (TResult i ok))) /\
  ((forall act, test_step (n * c) t act = None) ->
     collected t = (n * c)%nat /\ length (results t) = (n * c)%nat /\ successCount t = count_true (results t)).
Proof.
  pose proof (new_tester_inv n c) as Hi0. destruct (test_run_inv _ _ _ _ Hi0 Hrun) as [(H1 & H2 & H3) Hm].
  assert (2 * sum_list (todo (new_tester n c)) = 2 * (n * c))%nat as E0 by (destruct Hi0 as [Hi0 _]; simpl in *; unfold collected in Hi0; simpl in Hi0; lia).
  assert (forall i k ok, todo t !! i = Some (S k) -> is_Some (test_step (n * c) t (TResult i ok))) as Hsend.
  { intros i k ok Hk. cbn [test_step]. rewrite Hk. apply sum_todo in Hk. rewrite (proj2 (Nat.ltb_lt _ _)) by lia. by eexists. }
  split; [simpl in *; lia|]. split; [done|]. intros Hstop.
  assert (sum_list (todo t) = 0%nat) as Hz.
  { destruct (decide (sum_list (todo t) = 0%nat)) as [|Hne]; [done|]. destruct (sum_list_pos (todo t)) as (i & k & Hk); [lia|].
    destruct (Hsend i k true Hk) as [t' Ht']. by rewrite Hstop in Ht'. }
  assert (channel t = []) as Hc.
  { specialize (Hstop TCollect). cbn [test_step] in Hstop. destruct (channel t) as [|b rest]; [done|]. simpl in H1.
    rewrite (proj2 (Nat.ltb_lt _ _)) in Hstop by lia. done. }
  rewrite Hc in *. simpl in *. lia.
Qed.

(** Without requests both tests end with a division by zero; with negative counts the
    concurrent test waits for results that nobody sends. *)
Theorem rpc_test_counts n c duration
    (Hn : - 2 ^ 31 <= n < 2 ^ 31) (Hc : - 2 ^ 31 <= c < 2 ^ 31) :
  (average duration (int64 (n * c)) = Panic <-> n = 0 \/ c = 0) /\
  (concurrent_start n c = Panic <-> n * c < 0) /\
  (n < 0 -> c < 0 -> forall t act, concurrent_start n c = Ret t -> test_step (Z.to_nat (n * c)) t act = None).
Proof.
  assert (int64 (n * c) = n * c) as E by (apply int64_small; nia). unfold average, concurrent_start. rewrite E. split_and!.
  - destruct (Z.eqb_spec (n * c) 0) as [Hz|Hz]; split; try done; [intros _; lia|intros [-> | ->]; lia].
  - destruct (Z.ltb_spec (n * c) 0); split; done || lia.
  - intros Hn0 Hc0 t act Ht. destruct (_ <? _); [done|]. injection Ht as <-. unfold new_tester.
    replace (Z.to_nat c) with 0%nat by lia. by destruct act.
Qed.

(** The counts of the stress test. *)
Theorem rpc_stress_counts rs s f :
  stress_loop rs s f = ((s + count_true rs)%nat, (f + (length rs - count_true rs))%nat) /\ (count_true rs <= length rs)%nat.
Proof.
  revert s f. induction rs as [|b rs IH]; intros s f; [simpl; split; [f_equal; lia|lia]|].
  destruct b; cbn [stress_loop count_true length]; [destruct (IH (S s) f) as [-> Hle]|destruct (IH s (S f)) as [-> Hle]];
    (split; [f_equal; lia|lia]).
Qed.

(** ** Witnesses *)

Definition two_results : list test_action := [TResult 1 true; TCollect; TResult 0 false; TCollect].
Definition tested : tester := default (new_tester 1 2) (test_run 2 (new_tester 1 2) two_results).

Lemma rpc_test_completes_witness :
  collected tested = 2%nat /\ length (results tested) = 2%nat /\ successCount tested = count_true (results tested).
Proof. apply (rpc_test_completes 1 2 two_results tested); [reflexivity|]. intros [[|[|[|c]]] ok|]; reflexivity. Defined.

Lemma rpc_test_counts_witness : average 5 (int64 (0 * 3)) = Panic /\ (concurrent_start (-1) 2 = Panic <-> -1 * 2 < 0).
Proof.
  split; [apply (rpc_test_counts 0 3 5); [lia|lia|left; reflexivity]|apply (rpc_test_counts (-1) 2 5); lia].
Defined.

Definition lost_call : remote_call (msg := go_type * nat) :=
  MkRemote 1 "BroadcastService.BroadcastMessage" (repo_message "ChatRequest", 7%nat) (repo_message "ChatResponse", 0%nat) 0 false
    (fun i => if (i =? 0)%nat then LostReply Unavailable else Delivered) (fun _ => false) (fun _ => false).

Definition no_methods (m : @PlayerStateManager unit) (f : sync_func) (args reply : go_type * nat) :
    @PlayerStateManager unit * (go_type * nat) * option string := (m, reply, None).

Lemma sync_example_idle_witness :
  exists os m,
    @runExampleTest unit _ _ sample_conv Instances.toy_protobuf no_methods 5 [lost_call] =
      Ret (os, [Some origin; Some origin; Some origin], m) /\
    length os = 1%nat /\ Forall (fun o => exists e, o = Fail e) os /\ players m = ∅ /\ subscribers m = ∅.
Proof.
  apply (@sync_example_idle unit _ _ sample_conv Instances.toy_protobuf no_methods 5 [lost_call]).
  apply Forall_singleton. right. left.
Defined.
