(* ===== verification/Commands.v ===== *)
(** * Further programs ([cmd/load_test], [cmd/grpc_test], [cmd/rpc_standalone], [StartExample])

    The load test of a WebSocket server with its counters; the processes of the
    standalone RPC server, which share a socket file; the player server of
    [grpc_test]; and the example that [rpc_test] runs, over [GrpcRpc.v] and
    [RpcServices.v]. *)

From stdpp Require Import base gmap strings pretty fin_maps numbers relations list.
From Stdlib Require Import ZArith Lia SpecFloat.
From S2P Require Import Prelude Float32 RpcWire GrpcRpc LoadBalancer NetServer RpcServices Programs.

Local Open Scope Z_scope.

(** ** The load test of connections *)

(** Where a client is: before it dials, about to send its [j]-th message, before the
    close message, waiting for its reader, at its end. *)
Inductive load_pc := LDial | LSend (j : Z) | LClose | LWait | LEnd.

(** [lc_failed]: the client counted an error.  [lc_reading]: its reader is running. *)
Record load_client := MkLoadClient {
  lc_pc : load_pc;
  lc_failed : bool;
  lc_received : nat;
  lc_reading : bool
}.

Definition new_load_client : load_client := MkLoadClient LDial false 0 false.

(** The program: starting clients, waiting for them, then for the reporter. *)
Inductive load_main := GStart | GWait | GStop | GAck | GExit.
Inductive reporter_pc := RepLoop | RepAck | RepEnd.

Record load_test := MkLoad {
  l_clients : list load_client;
  connCount : Z;
  msgCount : Z;
  errCount : Z;
  l_main : load_main;
  l_reporter : reporter_pc
}.

(** The flags: dividing by no connections panics, and so does a wait group of fewer. *)
Definition load_start (connections rampUpTime : Z) : outcome Empty_set (Z * load_test) :=
  panic_unless (negb (connections =? 0));;
  let connInterval := int64 (Z.quot (int64 (rampUpTime * 1000000000)) connections) in
  panic_unless (0 <=? connections);;
  Ret (connInterval, MkLoad [] 0 0 0 GStart RepLoop).

(** A client takes a step, and the counters change. *)
Definition load_upd (s : load_test) (k : nat) (c : load_client) (conn msg err : Z) : load_test :=
  MkLoad (<[k := c]> (l_clients s)) (swrap 32 (connCount s + conn)) (swrap 32 (msgCount s + msg)) (swrap 32 (errCount s + err))
    (l_main s) (l_reporter s).

Definition load_to (s : load_test) (m : load_main) (r : reporter_pc) : load_test :=
  MkLoad (l_clients s) (connCount s) (msgCount s) (errCount s) m r.

(** The lines that the reporter prints: the messages since the last report. *)
Definition report (s : load_test) (lastMsgCount : Z) : Z * Z * Z * Z :=
  (connCount s, msgCount s, swrap 32 (msgCount s - lastMsgCount), errCount s).

Section load_test.
Context (connections messagesPerConn : Z).

Inductive load_step : load_test -> load_test -> Prop :=
  | LdStart s : l_main s = GStart -> Z.of_nat (length (l_clients s)) < connections ->
      load_step s (MkLoad (l_clients s ++ [new_load_client]) (connCount s) (msgCount s) (errCount s) GStart (l_reporter s))
  | LdStarted s : l_main s = GStart -> connections <= Z.of_nat (length (l_clients s)) -> load_step s (load_to s GWait (l_reporter s))
  | LdDialFails s k c : l_clients s !! k = Some c -> lc_pc c = LDial ->
      load_step s (load_upd s k (MkLoadClient LEnd true (lc_received c) false) 0 0 1)
  | LdDial s k c : l_clients s !! k = Some c -> lc_pc c = LDial ->
      load_step s (load_upd s k (MkLoadClient (LSend 0) (lc_failed c) (lc_received c) true) 1 0 0)
  | LdSend s k c j : l_clients s !! k = Some c -> lc_pc c = LSend j -> j < messagesPerConn ->
      load_step s (load_upd s k (MkLoadClient (LSend (j + 1)) (lc_failed c) (lc_received c) (lc_reading c)) 0 0 0)
  | LdSendFails s k c j : l_clients s !! k = Some c -> lc_pc c = LSend j -> j < messagesPerConn ->
      load_step s (load_upd s k (MkLoadClient LClose true (lc_received c) (lc_reading c)) 0 0 1)
  | LdSent s k c j : l_clients s !! k = Some c -> lc_pc c = LSend j -> messagesPerConn <= j ->
      load_step s (load_upd s k (MkLoadClient LClose (lc_failed c) (lc_received c) (lc_reading c)) 0 0 0)
  | LdClose s k c : l_clients s !! k = Some c -> lc_pc c = LClose ->
      load_step s (load_upd s k (MkLoadClient LWait (lc_failed c) (lc_received c) (lc_reading c)) 0 0 0)
  | LdReceive s k c : l_clients s !! k = Some c -> lc_reading c = true ->
      load_step s (load_upd s k (MkLoadClient (lc_pc c) (lc_failed c) (S (lc_received c)) true) 0 1 0)
  | LdReadEnds s k c : l_clients s !! k = Some c -> lc_reading c = true ->
      load_step s (load_upd s k (MkLoadClient (lc_pc c) (lc_failed c) (lc_received c) false) 0 0 0)
  | LdEnd s k c : l_clients s !! k = Some c -> lc_pc c = LWait -> lc_reading c = false ->
      load_step s (load_upd s k (MkLoadClient LEnd (lc_failed c) (lc_received c) false) (-1) 0 0)
  | LdWaited s : l_main s = GWait -> Forall (fun c => lc_pc c = LEnd) (l_clients s) -> load_step s (load_to s GStop (l_reporter s))
  | LdStop s : l_main s = GStop -> l_reporter s = RepLoop -> load_step s (load_to s GAck RepAck)
  | LdAck s : l_main s = GAck -> l_reporter s = RepAck -> load_step s (load_to s GExit RepEnd).

(** What a client contributes to the counters. *)
Definition is_connected (c : load_client) : nat := match lc_pc c with LSend _ | LClose | LWait => 1 | _ => 0 end.
Definition has_failed (c : load_client) : nat := if lc_failed c then 1 else 0.

(** A client fails once at most, and not before it dials. *)
Definition failure_ok (c : load_client) : Prop :=
  match lc_pc c with LDial | LSend _ => lc_failed c = false | _ => True end.

Record load_ok (s : load_test) : Prop := {
  lo_conn : connCount s = swrap 32 (Z.of_nat (sum_list_with is_connected (l_clients s)));
  lo_msg : msgCount s = swrap 32 (Z.of_nat (sum_list_with lc_received (l_clients s)));
  lo_err : errCount s = swrap 32 (Z.of_nat (sum_list_with has_failed (l_clients s)));
  lo_failures : Forall failure_ok (l_clients s);
  lo_length : Z.of_nat (length (l_clients s)) <= connections;
  lo_started : l_main s <> GStart -> Z.of_nat (length (l_clients s)) = connections;
  lo_ended : l_main s <> GStart -> l_main s <> GWait -> Forall (fun c => lc_pc c = LEnd) (l_clients s);
  lo_reporter : match l_main s with GAck => l_reporter s = RepAck | GExit => l_reporter s = RepEnd | _ => l_reporter s = RepLoop end
}.

(** A client's step keeps the invariant if its counters follow. *)
Lemma load_upd_ok s k c c' conn msg err :
  load_ok s -> l_clients s !! k = Some c -> failure_ok c' -> (lc_pc c = LEnd -> lc_pc c' = LEnd) ->
  Z.of_nat (is_connected c') = Z.of_nat (is_connected c) + conn -> Z.of_nat (lc_received c') = Z.of_nat (lc_received c) + msg ->
  Z.of_nat (has_failed c') = Z.of_nat (has_failed c) + err -> load_ok (load_upd s k c' conn msg err).
Proof.
  intros [H1 H2 H3 H4 H5 H6 H7 H8] Hk Hf He E1 E2 E3.
  pose proof (sum_list_insert is_connected _ _ _ c' Hk). pose proof (sum_list_insert lc_received _ _ _ c' Hk).
  pose proof (sum_list_insert has_failed _ _ _ c' Hk).
  split; cbn [load_upd l_clients connCount msgCount errCount l_main l_reporter]; rewrite ?length_insert; try done.
  - rewrite H1, swrap_add. f_equal. lia.
  - rewrite H2, swrap_add. f_equal. lia.
  - rewrite H3, swrap_add. f_equal. lia.
  - by apply Forall_insert.
  - intros Ha Hb. specialize (H7 Ha Hb). apply Forall_insert; [done|]. apply He. by apply (Forall_lookup_1 _ _ _ _ H7 Hk).
Qed.

Lemma load_to_ok s m r :
  load_ok s -> (m <> GStart -> Z.of_nat (length (l_clients s)) = connections) ->
  (m <> GStart -> m <> GWait -> Forall (fun c => lc_pc c = LEnd) (l_clients s)) ->
  match m with GAck => r = RepAck | GExit => r = RepEnd | _ => r = RepLoop end -> load_ok (load_to s m r).
Proof. intros [H1 H2 H3 H4 H5 H6 H7 H8] Ha Hb Hc. by split. Qed.

Lemma load_step_ok s s' : load_step s s' -> load_ok s -> load_ok s'.
Proof.
  intros Hs Hok. pose proof Hok as [H1 H2 H3 H4 H5 H6 H7 H8].
  destruct Hs as [s Hm Hl|s Hm Hl|s k c Hk Hp|s k c Hk Hp|s k c j Hk Hp Hj|s k c j Hk Hp Hj|s k c j Hk Hp Hj|s k c Hk Hp|s k c Hk Hr|s k c Hk Hr|s k c Hk Hp Hr|s Hm He|s Hm Hr|s Hm Hr];
    try (pose proof (Forall_lookup_1 _ _ _ _ H4 Hk) as Hf; unfold failure_ok in Hf; rewrite ?Hp in Hf;
         eapply load_upd_ok; [done|exact Hk|..]; unfold failure_ok, is_connected, has_failed; cbn [lc_pc lc_failed lc_received]; rewrite ?Hp, ?Hf; try done; try lia).
  - split; cbn [l_clients connCount msgCount errCount l_main l_reporter]; rewrite ?sum_list_with_app, ?length_app; cbn [sum_list_with length is_connected lc_pc new_load_client lc_received has_failed lc_failed];
      rewrite ?Nat.add_0_r; try done; try lia.
    + apply Forall_app. split; [done|]. by apply Forall_singleton.
    + by rewrite Hm in H8.
  - apply load_to_ok; [done|intros _; lia|done|by rewrite Hm in H8].
  - apply load_to_ok; [done|intros _; apply H6; by rewrite Hm|done|by rewrite Hm in H8].
  - apply load_to_ok; [done|intros _; apply H6; by rewrite Hm|intros _ _; apply H7; by rewrite Hm|done].
  - apply load_to_ok; [done|intros _; apply H6; by rewrite Hm|intros _ _; apply H7; by rewrite Hm|done].
Qed.

Lemma load_reach_ok rampUpTime i s0 s : load_start connections rampUpTime = Ret (i, s0) -> rtc load_step s0 s -> load_ok s.
Proof.
  unfold load_start, panic_unless. destruct (negb _); [|done]. cbn [mbind outcome_bind]. destruct (Z.leb_spec 0 connections); [|done].
  intros [= <- <-] Hr. assert (load_ok (MkLoad [] 0 0 0 GStart RepLoop)) as H0 by (split; try done; cbn; lia).
  induction Hr as [s|a b s Hab _ IH]; [done|]. by eapply IH, load_step_ok.
Qed.

Lemma connected_none l : Forall (fun c => lc_pc c = LEnd) l -> sum_list_with is_connected l = 0%nat.
Proof. induction 1 as [|c l Hc _ IH]; [done|]. cbn. unfold is_connected at 1. by rewrite Hc, IH. Qed.

Lemma failed_le l : (sum_list_with has_failed l <= length l)%nat.
Proof. induction l as [|c l IH]; [done|]. cbn. unfold has_failed at 1. destruct (lc_failed c); lia. Qed.

(** The counters of the load test are exact: at any time [connCount] is the number
    of clients that are connected, [errCount] that of the clients that failed and
    [msgCount] that of the messages received, as 32-bit numbers; at the end nobody is
    connected, the errors are those of the clients, one each at most, and the
    handshake with the reporter cannot block. *)
Theorem load_test_counts rampUpTime i s0 s
    (Hstart : load_start connections rampUpTime = Ret (i, s0)) (Hbound : connections < 2 ^ 31) (Hrun : rtc load_step s0 s) :
  connCount s = Z.of_nat (sum_list_with is_connected (l_clients s)) /\
  errCount s = Z.of_nat (sum_list_with has_failed (l_clients s)) /\ errCount s <= connections /\
  msgCount s = swrap 32 (Z.of_nat (sum_list_with lc_received (l_clients s))) /\
  (l_main s = GExit -> connCount s = 0 /\ Z.of_nat (length (l_clients s)) = connections) /\
  (l_main s = GStop \/ l_main s = GAck -> exists s', load_step s s').
Proof.
  destruct (load_reach_ok rampUpTime i s0 s Hstart Hrun) as [H1 H2 H3 H4 H5 H6 H7 H8].
  assert (sum_list_with is_connected (l_clients s) <= length (l_clients s))%nat as Hc.
  { clear. induction (l_clients s) as [|c l IH]; [done|]. cbn. unfold is_connected at 1. destruct (lc_pc c); lia. }
  pose proof (failed_le (l_clients s)) as Hf.
  assert (forall n, (n <= length (l_clients s))%nat -> swrap 32 (Z.of_nat n) = Z.of_nat n) as Hw
    by (intros n Hn; apply swrap_small; [lia|]; unfold in_s; change (2 ^ (32 - 1)) with (2 ^ 31); lia).
  rewrite H1, H3, !Hw by done. split_and!; [done|done|lia|done| |].
  - intros Hm. split; [|by apply H6; rewrite Hm]. rewrite connected_none; [done|]. apply H7; by rewrite Hm.
  - intros [Hm|Hm]; rewrite Hm in H8; eexists; [by apply LdStop|by apply LdAck].
Qed.
End load_test.

(** One client that connects, and a second that cannot. *)
Lemma load_test_counts_witness :
  exists s, connCount s = 1 /\ errCount s = 1 /\ errCount s <= 2.
Proof.
  set (c0 := MkLoadClient (LSend 0) false 0 true). set (c1 := MkLoadClient LEnd true 0 false).
  set (s := MkLoad [c0; c1] 1 0 1 GStart RepLoop).
  destruct (load_test_counts 2 10 5 2500000000 (MkLoad [] 0 0 0 GStart RepLoop) s) as (H1 & H2 & H3 & _).
  - reflexivity.
  - lia.
  - eapply rtc_l; [apply LdStart; [reflexivity|cbn; lia]|]. eapply rtc_l; [apply LdStart; [reflexivity|cbn; lia]|].
    eapply rtc_l; [apply (LdDial _ _ _ 0); reflexivity|]. eapply rtc_l; [apply (LdDialFails _ _ _ 1); reflexivity|]. apply rtc_refl.
  - exists s. split_and!; [exact H1|exact H2|exact H3].
Defined.

(** ** The processes of the standalone server *)

(** What is at the path of the socket: nothing, a file of another kind, or the socket
    that a process made. *)
Inductive socket_file := Absent | OtherFile | SocketOf (pid : nat).

#[export] Instance socket_file_eq_dec : EqDecision socket_file.
Proof. solve_decision. Defined.

(** [StartStandaloneServer]: before [os.Stat], before [os.Remove], before [net.Listen],
    accepting, returned after a signal, ended with a fatal error, killed. *)
Inductive standalone_pc := SaCheck | SaUnlink | SaListen | SaAccept | SaReturned | SaFatal | SaDead.

(** Processes that use the same path, and who accepted the connections so far. *)
Record standalones := MkStandalones {
  sa_file : socket_file;
  sa_pcs : gmap nat standalone_pc;
  sa_accepted : list nat
}.

Definition sa_none (file : socket_file) : standalones := MkStandalones file ∅ [].

Definition sa_to (s : standalones) (file : socket_file) (pid : nat) (pc : standalone_pc) : standalones :=
  MkStandalones file (<[pid := pc]> (sa_pcs s)) (sa_accepted s).

(** A bind succeeds only where there is no file.  Closing the listener unlinks the
    path, whoever made the file.  A client reaches the process whose socket it is.  A
    process that is killed leaves the file. *)
Inductive standalone_step : standalones -> standalones -> Prop :=
  | SaStart s pid : sa_pcs s !! pid = None -> standalone_step s (sa_to s (sa_file s) pid SaCheck)
  | SaFound s pid : sa_pcs s !! pid = Some SaCheck -> sa_file s <> Absent -> standalone_step s (sa_to s (sa_file s) pid SaUnlink)
  | SaNotFound s pid : sa_pcs s !! pid = Some SaCheck -> standalone_step s (sa_to s (sa_file s) pid SaListen)
  | SaRemove s pid : sa_pcs s !! pid = Some SaUnlink -> sa_file s <> Absent -> standalone_step s (sa_to s Absent pid SaListen)
  | SaRemoveFails s pid : sa_pcs s !! pid = Some SaUnlink -> standalone_step s (sa_to s (sa_file s) pid SaFatal)
  | SaBind s pid : sa_pcs s !! pid = Some SaListen -> sa_file s = Absent -> standalone_step s (sa_to s (SocketOf pid) pid SaAccept)
  | SaBindFails s pid : sa_pcs s !! pid = Some SaListen -> standalone_step s (sa_to s (sa_file s) pid SaFatal)
  | SaConnect s pid : sa_file s = SocketOf pid -> sa_pcs s !! pid = Some SaAccept ->
      standalone_step s (MkStandalones (sa_file s) (sa_pcs s) (sa_accepted s ++ [pid]))
  | SaSignal s pid : sa_pcs s !! pid = Some SaAccept -> standalone_step s (sa_to s Absent pid SaReturned)
  | SaKill s pid pc : sa_pcs s !! pid = Some pc -> pc <> SaReturned -> pc <> SaFatal -> standalone_step s (sa_to s (sa_file s) pid SaDead).

(** Who made the socket accepts or was killed, and so do those that have accepted,
    unless they returned. *)
Record standalone_ok (s : standalones) : Prop := {
  sk_owner pid : sa_file s = SocketOf pid -> sa_pcs s !! pid = Some SaAccept \/ sa_pcs s !! pid = Some SaDead;
  sk_accepted pid : pid ∈ sa_accepted s ->
    sa_pcs s !! pid = Some SaAccept \/ sa_pcs s !! pid = Some SaReturned \/ sa_pcs s !! pid = Some SaDead
}.

(** A process that goes on keeps the invariant if it listens with its own socket or
    gives up what it had. *)
Lemma sa_to_ok s file pid pc :
  standalone_ok s -> (forall q, file = SocketOf q -> (q = pid /\ (pc = SaAccept \/ pc = SaDead)) \/ (q <> pid /\ sa_file s = SocketOf q)) ->
  (pc = SaAccept \/ pc = SaReturned \/ pc = SaDead \/ ~ pid ∈ sa_accepted s) -> standalone_ok (sa_to s file pid pc).
Proof.
  intros [Ho Ha] Hf Hp. split; cbn.
  - intros q Hq. destruct (Hf q Hq) as [[-> [-> | ->]]|[Hne Hq']]; [by left; rewrite lookup_insert_eq|by right; rewrite lookup_insert_eq|].
    rewrite lookup_insert_ne by done. by apply Ho.
  - intros q Hq. destruct (decide (pid = q)) as [<-|Hne]; [rewrite lookup_insert_eq|rewrite lookup_insert_ne by done; by apply Ha].
    destruct Hp as [-> |[-> |[-> |Hn]]]; auto. by destruct Hn.
Qed.

Lemma standalone_step_ok s s' : standalone_step s s' -> standalone_ok s -> standalone_ok s'.
Proof.
  intros Hs Hok. pose proof Hok as [Ho Ha].
  assert (forall pid pc, sa_pcs s !! pid = pc -> pc <> Some SaAccept -> pc <> Some SaReturned -> pc <> Some SaDead ->
    ~ pid ∈ sa_accepted s /\ forall q, sa_file s = SocketOf q -> q <> pid) as Hq.
  { intros pid pc Hp H1 H2 H3. split; [intros Hin; destruct (Ha _ Hin) as [?|[?|?]]; congruence|].
    intros q Hq ->. destruct (Ho _ Hq); congruence. }
  destruct Hs as [s pid Hp|s pid Hp Hf|s pid Hp|s pid Hp Hf|s pid Hp|s pid Hp Hf|s pid Hp|s pid Hf Hp|s pid Hp|s pid pc Hp H1 H2];
    try (edestruct Hq as [Hn Hd]; [exact Hp|done|done|done|]).
  1,2,3,5,7: apply sa_to_ok; [done|intros q E; right; by auto|by auto].
  - apply sa_to_ok; [done|done|by auto].
  - apply sa_to_ok; [done|intros q [= <-]; left; by auto|by auto].
  - split; [done|]. cbn. intros q [Hin| ->%list_elem_of_singleton]%elem_of_app; [by apply Ha|by left].
  - apply sa_to_ok; [done|done|by auto].
  - apply sa_to_ok; [done| |by auto]. intros q E. destruct (decide (q = pid)); [left|right]; by auto.
Qed.

Lemma standalone_reach_ok file s :
  (forall pid, file <> SocketOf pid) -> rtc standalone_step (sa_none file) s -> standalone_ok s.
Proof.
  intros Hf Hr. assert (standalone_ok (sa_none file)) as H0 by (split; cbn; [intros q ->; by destruct (Hf q)|intros q Hq; by apply elem_of_nil in Hq]).
  induction Hr as [s|a b s Hab _ IH]; [done|]. by eapply IH, standalone_step_ok.
Qed.

(** A process that starts can always take the path over. *)
Lemma standalone_takes s j :
  sa_pcs s !! j = None ->
  exists pcs, rtc standalone_step s (MkStandalones (SocketOf j) pcs (sa_accepted s)) /\ pcs !! j = Some SaAccept /\
    forall i, i <> j -> pcs !! i = sa_pcs s !! i.
Proof.
  intros Hj. set (s1 := sa_to s (sa_file s) j SaCheck).
  assert (exists s2, rtc standalone_step s1 s2 /\ sa_file s2 = Absent /\ sa_pcs s2 !! j = Some SaListen /\
    sa_accepted s2 = sa_accepted s /\ forall i, i <> j -> sa_pcs s2 !! i = sa_pcs s !! i) as (s2 & H12 & Hf & Hl & Ha & He).
  { destruct (decide (sa_file s = Absent)) as [E|E].
    - exists (sa_to s1 (sa_file s1) j SaListen). split_and!; [|done|by apply lookup_insert_eq|done|].
      + apply rtc_once, SaNotFound, lookup_insert_eq.
      + intros i Hi. cbn. by rewrite !lookup_insert_ne by done.
    - exists (sa_to (sa_to s1 (sa_file s1) j SaUnlink) Absent j SaListen). split_and!; [|done|by apply lookup_insert_eq|done|].
      + eapply rtc_l; [apply SaFound; [apply lookup_insert_eq|done]|]. apply rtc_once, SaRemove; [apply lookup_insert_eq|done].
      + intros i Hi. cbn. by rewrite !lookup_insert_ne by done. }
  exists (<[j := SaAccept]> (sa_pcs s2)). split_and!.
  - eapply rtc_l; [by apply SaStart|]. eapply rtc_r; [exact H12|]. rewrite <- Ha. by apply SaBind.
  - apply lookup_insert_eq.
  - intros i Hi. rewrite lookup_insert_ne by done. by apply He.
Qed.

(** Whatever processes have used the path and however they ended, who made the socket
    still accepts or was killed, so that only a killed server leaves a socket that
    nobody serves; and the next process takes the path over.  But it takes it from a
    server that runs as well, and when that one ends it removes the socket of its
    successor, which goes on unreachable. *)
Theorem standalone_sockets file s i j
    (Hfile : forall pid, file <> SocketOf pid) (Hrun : rtc standalone_step (sa_none file) s)
    (Hi : sa_pcs s !! i = Some SaAccept) (Hj : sa_pcs s !! j = None) :
  (forall pid, sa_file s = SocketOf pid -> sa_pcs s !! pid = Some SaAccept \/ sa_pcs s !! pid = Some SaDead) /\
  exists s1 s2, rtc standalone_step s s1 /\ sa_file s1 = SocketOf j /\ sa_pcs s1 !! i = Some SaAccept /\
    standalone_step s1 s2 /\ sa_file s2 = Absent /\ sa_pcs s2 !! j = Some SaAccept.
Proof.
  split; [by eapply standalone_reach_ok|]. assert (i <> j) as Hij by congruence.
  destruct (standalone_takes s j Hj) as (pcs & H1 & Hjj & He). set (s1 := MkStandalones (SocketOf j) pcs (sa_accepted s)) in *.
  assert (sa_pcs s1 !! i = Some SaAccept) as Hii by (cbn; by rewrite He).
  exists s1, (sa_to s1 Absent i SaReturned). split_and!; [done|done|done|by apply SaSignal|done|cbn; by rewrite lookup_insert_ne].
Qed.

Lemma standalone_sockets_witness :
  exists s1 s2, sa_file s1 = SocketOf 1 /\ sa_pcs s1 !! 0%nat = Some SaAccept /\ standalone_step s1 s2 /\ sa_file s2 = Absent /\ sa_pcs s2 !! 1%nat = Some SaAccept.
Proof.
  destruct (standalone_takes (sa_none OtherFile) 0) as (pcs & Hr & H0 & He); [reflexivity|].
  destruct (standalone_sockets OtherFile (MkStandalones (SocketOf 0) pcs []) 0 1) as [_ (s1 & s2 & _ & H)].
  - intros pid. discriminate.
  - exact Hr.
  - exact H0.
  - rewrite He; [reflexivity|discriminate].
  - exists s1, s2. exact H.
Defined.

(** ** The example of the calls *)

(** The exported methods of [PlayerService], as [reflect] shows them. *)
Inductive player_func := FGetPlayerInfo | FSyncPlayerPosition | FUpdatePosition | FSlowOperation | FGetPlayerPosition.

Definition player_method (name arg reply : string) (f : player_func) : go_method player_func :=
  MkMethod name "" [Ptr (Named "mmo-server/pkg/rpc" "rpc" "PlayerService"); Named "context" "context" "Context"; repo_message arg; repo_message reply]
    [error_type] f.

Definition player_service_methods : list (go_method player_func) :=
  [player_method "GetPlayerInfo" "LoginRequest" "LoginResponse" FGetPlayerInfo;
   player_method "SyncPlayerPosition" "PositionSyncRequest" "PositionSyncResponse" FSyncPlayerPosition;
   player_method "UpdatePosition" "PlayerPositionRequest" "PlayerPositionResponse" FUpdatePosition;
   player_method "SlowOperation" "PlayerPositionRequest" "PlayerPositionResponse" FSlowOperation;
   player_method "GetPlayerPosition" "PlayerPositionRequest" "PlayerPositionResponse" FGetPlayerPosition].

(** Where [log.Fatalf] ends the program. *)
Inductive example_fatal := FailedRegister (e : RpcError) | FailedPrepare (e : PrepareError) | FailedStart | FailedClient | FailedPlayerClient.

Definition example_endpoint : string := "localhost:50051".

Section start_example.
Context {msg any : Type} `{Protobuf msg any}.
(** What the methods would do, and whether a [LoginResponse] has its [UserInfo]. *)
Context (invoke : PlayerService -> player_func -> msg -> msg -> PlayerService * msg * option string).
Context (has_UserInfo : msg -> bool).

(** What the environment answers: the free addresses, whether the server can listen,
    whether the two clients connect, and the network of each call. *)
Record example_world := MkExampleWorld {
  ew_free : list byte -> bool;
  ew_listens : bool;
  ew_dials : bool;
  ew_connects : bool;
  ew_net : nat -> transport;
  ew_direct : transport
}.

(** [UpdatePosition] of the generated client, over the direct service of the server:
    gRPC hands the error over, or the network has one.  A service that the server does not
    offer, and a panic of it, are errors of gRPC. *)
Definition direct_over_network (server : GRPCServer player_func) (offered : list string) (net : transport) (st : PlayerService) (req : msg) :
    PlayerService * (outcome RpcError msg + grpc_code) :=
  let answer := direct_Call invoke server st "PlayerService" "UpdatePosition" req (repo_message "PlayerPositionResponse") in
  match net with
  | LostRequest code => (st, inr code)
  | LostReply code => if bool_decide ("PlayerService"%string ∈ offered) then (answer.1, inr code) else (st, inr code)
  | Delivered =>
      if bool_decide ("PlayerService"%string ∈ offered) then
        match answer with (st, Ret reply) => (st, inl (Ret reply)) | (st, Fail e) => (st, inl (Fail e)) | (st, Panic) => (st, inr OtherCode) end
      else (st, inr OtherCode)
  end.

(** The result: those of the two calls, the service and the server after [Stop]. *)
Definition StartExample (w : example_world) (loginReq loginResp posReq : msg) :
    outcome example_fatal (outcome ClientErr msg * (outcome RpcError msg + grpc_code) * PlayerService * GRPCServer player_func) :=
  match NewRPCServer (fun _ => NewGRPCServer) example_endpoint DefaultTransport with
  | None => Panic
  | Some server =>
      let service := MkPlayerService None ∅ in
      match GrpcRpc.Register server "PlayerService" player_service_methods with
      | (_, Panic) => Panic
      | (_, Fail e) => Fail (FailedRegister e)
      | (server, Ret _) =>
          match PrepareEndpoint (ew_free w) (str_bytes example_endpoint) DefaultTransport with
          | Some e => Fail (FailedPrepare e)
          | None =>
              match GrpcRpc.Start server (ew_listens w) with
              | None => Fail FailedStart
              | Some offered =>
                  match NewRPCClient (fun _ => NewGRPCClient (msg := msg) (ew_dials w)) example_endpoint DefaultTransport with
                  | inr _ => Fail FailedClient
                  | inl client =>
                      if ew_connects w then
                        let '(_, (service, _, loginAnswer)) :=
                          client_Call (over_network invoke server (ew_net w)) (fun _ => false) (fun _ => false) (seq client) service
                            (client_closed client) "PlayerService.GetPlayerInfo" loginReq loginResp in
                        match loginAnswer with
                        | Panic => Panic
                        | Ret reply => panic_unless (has_UserInfo reply)
                        | Fail _ => Ret tt
                        end;;
                        let '(service, posAnswer) := direct_over_network server offered (ew_direct w) service posReq in
                        Ret (loginAnswer, posAnswer, service, GrpcRpc.Stop server)
                      else Fail FailedPlayerClient
                  end
              end
          end
      end
  end.

(** The server after the registration. *)
Definition example_server : GRPCServer player_func := (GrpcRpc.Register NewGRPCServer "PlayerService" player_service_methods).1.

Lemma example_server_refuses st seq args :
  server_Call invoke example_server st (MkReq "PlayerService.GetPlayerInfo" seq args) =
    (st, Some (MkResp "PlayerService.GetPlayerInfo" seq "method not found: PlayerService.GetPlayerInfo" None)).
Proof. reflexivity. Qed.

Lemma example_prepare free :
  PrepareEndpoint free (str_bytes example_endpoint) DefaultTransport =
  if free (str_bytes example_endpoint) then None else Some (ErrPortNotAvailable (str_bytes "50051")).
Proof. reflexivity. Qed.

(** The two calls fail, whatever the network does, and the service is as it was. *)
Lemma example_login net st seq args reply :
  exists seq' n e, client_Call (over_network invoke example_server net) (fun _ => false) (fun _ => false) seq st false
    "PlayerService.GetPlayerInfo" args reply = (seq', (st, n, Fail e)).
Proof.
  unfold client_Call. destruct (any_New args) as [a|]; [|by eexists _, _, _].
  destruct (attempts_fail (over_network invoke example_server net) (fun _ => false) (fun _ => false)
    (MkReq "PlayerService.GetPlayerInfo" (nextSequence seq) (Some a)) reply maxRetries) with (i := 0%nat) (last := ErrGrpc) (st := st)
    as (n & e & ->); [|by eexists _, _, _].
  intros i st'. unfold over_network. rewrite example_server_refuses. destruct (net i); eexists; (split; [reflexivity|]); done.
Qed.

Lemma example_direct net st req :
  exists answer, direct_over_network example_server ["PlayerService"%string] net st req = (st, answer) /\
    (answer = inl (Fail (MethodNotFound "PlayerService" "UpdatePosition")) \/ exists code, answer = inr code).
Proof. destruct net; eexists; (split; [reflexivity|]); eauto. Qed.

(** The example runs to its end when its environment lets it start, and shows
    nothing of the service: whatever the network does, both calls fail, the service was
    never run and the server is closed.  The only other ends are the fatal errors of a
    port that is taken, of the server that cannot listen and of the connections. *)
Theorem start_example_idle w loginReq loginResp posReq :
  match StartExample w loginReq loginResp posReq with
  | Ret (login, position, service, server) =>
      (exists e, login = Fail e) /\ (position = inl (Fail (MethodNotFound "PlayerService" "UpdatePosition")) \/ exists code, position = inr code) /\
      service = MkPlayerService None ∅ /\ server_closed server = true /\
      ew_free w (str_bytes example_endpoint) = true /\ ew_listens w = true /\ ew_dials w = true /\ ew_connects w = true
  | Fail (FailedPrepare e) => e = ErrPortNotAvailable (str_bytes "50051") /\ ew_free w (str_bytes example_endpoint) = false
  | Fail FailedStart => ew_listens w = false
  | Fail FailedClient => ew_dials w = false
  | Fail FailedPlayerClient => ew_connects w = false
  | Fail (FailedRegister _) | Panic => False
  end.
Proof.
  unfold StartExample. destruct w as [free listens dials connects net direct]. cbn [ew_free ew_listens ew_dials ew_connects ew_net ew_direct].
  change (NewRPCServer _ _ _) with (Some (@NewGRPCServer player_func)). cbn beta iota.
  change (GrpcRpc.Register NewGRPCServer "PlayerService" player_service_methods) with (example_server, Ret (E := RpcError) tt). cbn beta iota.
  rewrite example_prepare. destruct (free _) eqn:Hfree; [|done]. destruct listens; [|done].
  change (GrpcRpc.Start example_server true) with (Some ["PlayerService"%string]). cbn beta iota.
  destruct dials; [|done]. change (NewRPCClient _ _ _) with (inl (B := FactoryError) (new_client (msg := msg))). cbn beta iota.
  destruct connects; [|done]. cbn [seq client_closed new_client].
  destruct (example_login net (MkPlayerService None ∅) 0 loginReq loginResp) as (seq' & n & e & ->).
  destruct (example_direct direct (MkPlayerService None ∅) posReq) as (answer & E & Ha). cbn [mbind outcome_bind]. rewrite E.
  split_and!; [by eexists|done..].
Qed.
End start_example.

(** ** The server of [grpc_test] *)

Record position_request := MkPositionRequest {
  pq_PlayerId : string;
  pq_Position : option Vector3;
  pq_Rotation : option Vector3;
  pq_Timestamp : Z
}.

Record position_answer := MkPositionAnswer {
  pa_Success : bool;
  pa_Timestamp : Z;
  pa_ErrorMessage : string;
  pa_CorrectedPosition : Vector3
}.

(** [SimplePlayerServer.UpdatePosition]: the fields of a position that is not set cannot be
    read. *)
Definition simple_UpdatePosition (nano : Z) (req : position_request) : outcome Empty_set position_answer :=
  match pq_Position req with
  | None => Panic
  | Some p => Ret (MkPositionAnswer true (in_ms nano) "" (MkVector3 (vX p) (vY p) (vZ p)))
  end.

(** The request of the client mode. *)
Definition grpc_test_request (nano : Z) : position_request :=
  MkPositionRequest "test-player-1" (Some (MkVector3 (tenths 1005) (tenths 502) (tenths 2003)))
    (Some (MkVector3 (f32_of_int 0) (f32_of_int 45) (f32_of_int 0))) (in_ms nano).

(** The server mode over the requests that arrive, with their times: nothing recovers
    from a panic, so that the program ends with it. *)
Fixpoint grpc_test_serve (reqs : list (Z * position_request)) : list position_answer * bool :=
  match reqs with
  | [] => ([], true)
  | (nano, req) :: reqs =>
      match simple_UpdatePosition nano req with
      | Ret a => let '(answers, alive) := grpc_test_serve reqs in (a :: answers, alive)
      | _ => ([], false)
      end
  end.

(** One request without a position ends the server for everybody: those before it are
    answered with their own positions, those after it by nobody; without such a request,
    among them that of the client, all are answered. *)
Theorem grpc_test_served before bad after nano
    (Hpos : Forall (fun r => is_Some (pq_Position r.2)) before) (Hbad : pq_Position bad = None) :
  grpc_test_serve (before ++ (nano, bad) :: after) = ((grpc_test_serve before).1, false) /\
  (grpc_test_serve before).2 = true /\
  (Some ∘ pa_CorrectedPosition <$> (grpc_test_serve before).1) = (pq_Position ∘ snd <$> before).
Proof.
  induction Hpos as [|[t r] before [p Hp] _ (IH1 & IH2 & IH3)]; cbn [grpc_test_serve app].
  - unfold simple_UpdatePosition. by rewrite Hbad.
  - cbn [snd] in Hp. unfold simple_UpdatePosition. rewrite Hp, IH1. destruct (grpc_test_serve before) as [answers alive].
    cbn in *. split_and!; [done|done|]. rewrite Hp, IH3. by destruct p.
Qed.

Lemma grpc_test_served_witness :
  let bad := MkPositionRequest "p" None None 0 in
  grpc_test_serve [(1, grpc_test_request 1); (2, bad); (3, grpc_test_request 3)] = ((grpc_test_serve [(1, grpc_test_request 1)]).1, false).
Proof.
  apply (grpc_test_served [(1, grpc_test_request 1)] (MkPositionRequest "p" None None 0) [(3, grpc_test_request 3)] 2).
  - constructor; [|constructor]. cbn. eexists. reflexivity.
  - reflexivity.
Defined.
