(* ===== verification/RpcModes.v ===== *)
(** * The modes of the remote-call tests ([cmd/rpc_test], [cmd/sync_test])

    Beside the example and the concurrent test of [Programs.v] the two programs have
    modes that start a server, make one call, call in a loop, provoke errors, or play
    a number of players.  They are composed of the factory, the servers and the
    client of [RpcServices.v] and [GrpcRpc.v]; the variable that the players of
    [sync_test] share is a state machine. *)

From stdpp Require Import base gmap strings pretty fin_maps numbers relations list.
From Stdlib Require Import ZArith Lia.
From S2P Require Import Prelude Float32 RpcWire PlayerState GrpcRpc RpcServices Programs Commands.

Local Open Scope Z_scope.

(** ** Starting a server *)

Definition rpc_test_endpoint : string := "/tmp/mmo-rpc-test.sock".
Definition sync_test_endpoint : string := "/tmp/mmo-sync-test.sock".

(** The mode [server] of [rpc_test] up to the signal; a server of an unknown transport
    is nil.  [free] and [free']: the addresses that are free when the endpoint is
    prepared and when the server listens. *)
Definition rpc_test_server (free free' : list byte -> bool) (endpoint transportType : string) :
    outcome example_fatal (GRPCServer player_func * list string) :=
  match NewRPCServer (fun _ => NewGRPCServer) endpoint transportType with
  | None => Panic
  | Some server =>
      match GrpcRpc.Register server "PlayerService" player_service_methods with
      | (_, Panic) => Panic
      | (_, Fail e) => Fail (FailedRegister e)
      | (server, Ret _) =>
          match PrepareEndpoint free (str_bytes endpoint) transportType with
          | Some e => Fail (FailedPrepare e)
          | None =>
              match GrpcRpc.Start server (net_Listen free' (str_bytes endpoint)) with
              | None => Fail FailedStart
              | Some offered => Ret (server, offered)
              end
          end
      end
  end.

(** The same of [sync_test]: where the program ends. *)
Inductive sync_fatal := SyncRegister (e : RpcError) | SyncRemove | SyncStart.

(** [file]: what is at the path of the endpoint; [removes]: whether it can be removed. *)
Definition sync_test_server (free : list byte -> bool) (file : socket_file) (removes : bool) (endpoint : string) :
    outcome sync_fatal (GRPCServer sync_func * list string) :=
  match NewRPCServer (fun _ => NewGRPCServer) endpoint TransportGRPC with
  | None => Panic
  | Some server =>
      match GrpcRpc.Register server "SyncPlayerStateService" sync_service_methods with
      | (_, Panic) => Panic
      | (_, Fail e) => Fail (SyncRegister e)
      | (server, Ret _) =>
          match GrpcRpc.Register server "BroadcastService" broadcast_service_methods with
          | (_, Panic) => Panic
          | (_, Fail e) => Fail (SyncRegister e)
          | (server, Ret _) =>
              if bool_decide (file <> Absent) && negb removes then Fail SyncRemove
              else match GrpcRpc.Start server (net_Listen free (str_bytes endpoint)) with
                   | None => Fail SyncStart
                   | Some offered => Ret (server, offered)
                   end
          end
      end
  end.

(** *** What becomes of it *)

Lemma rpc_test_server_eq free free' endpoint :
  rpc_test_server free free' endpoint TransportGRPC =
  match PrepareEndpoint free (str_bytes endpoint) TransportGRPC with
  | Some e => Fail (FailedPrepare e)
  | None => if net_Listen free' (str_bytes endpoint) then Ret (example_server, ["PlayerService"%string]) else Fail FailedStart
  end.
Proof.
  unfold rpc_test_server. change (NewRPCServer _ _ _) with (Some (@NewGRPCServer player_func)). cbn beta iota.
  change (GrpcRpc.Register NewGRPCServer "PlayerService" player_service_methods) with (example_server, Ret (E := RpcError) tt). cbn beta iota.
  destruct (PrepareEndpoint _ _ _); [done|]. by destruct (net_Listen _ _).
Qed.

Lemma sync_test_server_eq free file removes endpoint :
  sync_test_server free file removes endpoint =
  if bool_decide (file <> Absent) && negb removes then Fail SyncRemove
  else if net_Listen free (str_bytes endpoint) then Ret (sync_server, []) else Fail SyncStart.
Proof.
  unfold sync_test_server. change (NewRPCServer _ _ _) with (Some (@NewGRPCServer sync_func)). cbn beta iota.
  set (s1 := (GrpcRpc.Register NewGRPCServer "SyncPlayerStateService" sync_service_methods).1).
  change (GrpcRpc.Register NewGRPCServer "SyncPlayerStateService" sync_service_methods) with (s1, Ret (E := RpcError) tt). cbn beta iota.
  change (GrpcRpc.Register s1 "BroadcastService" broadcast_service_methods) with (sync_server, Ret (E := RpcError) tt). cbn beta iota.
  destruct (_ && _); [done|]. by destruct (net_Listen _ _).
Qed.

(** The server modes start with an address of a host and a port that is free, and
    [rpc_test] then offers the player service directly.  With their default endpoints,
    which are paths of sockets, neither ever starts, whatever is free; and the transport
    [shmipc] that the help names ends in a panic. *)
Theorem test_servers_start free free' file removes h p
    (Hh : plain h) (Hne : h <> []) (Hp : plain p) (Hfile : file = Absent \/ removes = true) :
  let endpoint := bytes_str (h ++ b_colon :: p) in
  ((exists offered, rpc_test_server free free' endpoint TransportGRPC = Ret (example_server, offered) /\ "PlayerService"%string ∈ offered) <->
     free (h ++ b_colon :: p) = true /\ free' (h ++ b_colon :: p) = true) /\
  (sync_test_server free file removes endpoint = Ret (sync_server, []) <-> free (h ++ b_colon :: p) = true) /\
  rpc_test_server free free' rpc_test_endpoint DefaultTransport = Fail (FailedPrepare (ErrEndpointFormat ErrMissingPort)) /\
  sync_test_server free file removes sync_test_endpoint = Fail SyncStart /\
  rpc_test_server free free' rpc_test_endpoint "shmipc" = Panic.
Proof.
  cbn zeta. rewrite rpc_test_server_eq, !sync_test_server_eq, str_bytes_str.
  assert (bool_decide (file <> Absent) && negb removes = false) as -> by (destruct Hfile as [-> | ->]; [done|by rewrite andb_false_r]).
  destruct Hh as [Hc Hb].
  assert (forall f, net_Listen f (h ++ b_colon :: p) = f (h ++ b_colon :: p)) as Hl
    by (intros f; unfold net_Listen; rewrite (split_host h p) by done; by rewrite decide_False).
  destruct (prepare_endpoint_spec free h p Hb Hp) as [Hprep _]. specialize (Hprep Hc). rewrite bool_decide_eq_false_2 in Hprep by done.
  rewrite !Hl. split_and!; [| |done|done|done].
  - destruct (PrepareEndpoint _ _ _) as [e|].
    + split; [intros (offered & [=] & _)|]. intros [Hf _]. by apply Hprep in Hf.
    + destruct Hprep as [Hprep _]. specialize (Hprep eq_refl). destruct (free' _).
      * split; [done|]. intros _. eexists. split; [done|]. by apply list_elem_of_here.
      * split; [intros (offered & [=] & _)|]. by intros [_ [=]].
  - by destruct (free _).
Qed.

Lemma test_servers_start_witness :
  sync_test_server (fun _ => true) OtherFile true "localhost:50052" = Ret (sync_server, []).
Proof.
  assert (plain (str_bytes "localhost") /\ plain (str_bytes "50052")) as [H1 H2]
    by (unfold plain, no_brackets; split_and!; apply (bool_decide_unpack _); vm_compute; reflexivity).
  destruct (test_servers_start (fun _ => true) (fun _ => true) OtherFile true (str_bytes "localhost") (str_bytes "50052")) as (_ & [_ H] & _);
    [exact H1|discriminate|exact H2|right; reflexivity|]. apply H. reflexivity.
Defined.

(** ** The calls of [rpc_test] *)

Section calls.
Context {msg any : Type} `{Protobuf msg any} {St : Type}.
Context (invoke : St -> player_func -> msg -> msg -> St * msg * option string).

(** What the network and the context do during a call. *)
Record call_world := MkCallWorld { cw_net : nat -> transport; cw_cancelled : nat -> bool }.

(** A call of a client that is not closed. *)
Definition test_call (server : GRPCServer player_func) (seq : Z) (st : St) (w : call_world) (serviceMethod : string) (args reply : msg) :
    Z * St * outcome ClientErr msg :=
  let '(seq, (st, _, o)) := client_Call (over_network invoke server (cw_net w)) (cw_cancelled w) (fun _ => false) seq st false serviceMethod args reply in
  (seq, st, o).

(** The mode [client]: [None] is the fatal error, otherwise the program waits for a
    signal. *)
Definition rpc_test_client (server : GRPCServer player_func) (st : St) (w : call_world) (request response : msg) : St * option msg :=
  let '(_, st, o) := test_call server 0 st w "PlayerService.UpdatePosition" request response in
  (st, match o with Ret r => Some r | _ => None end).

(** The mode [stress]: a call per world, with the messages of its number. *)
Fixpoint stress_results (server : GRPCServer player_func) (request : nat -> msg) (response : msg) (i : nat) (seq : Z) (st : St) (ws : list call_world) :
    St * list bool :=
  match ws with
  | [] => (st, [])
  | w :: ws =>
      let '(seq, st, o) := test_call server seq st w "PlayerService.UpdatePosition" (request i) response in
      let '(st, l) := stress_results server request response (S i) seq st ws in
      (st, (match o with Ret _ => true | _ => false end) :: l)
  end.

Definition stress_test (server : GRPCServer player_func) (request : nat -> msg) (response : msg) (st : St) (ws : list call_world) (duration : Z) :
    St * nat * nat * outcome unit Z :=
  let '(st, l) := stress_results server request response 0 0 st ws in
  let '(ok, failed) := stress_loop l 0 0 in
  (st, ok, failed, average duration (Z.of_nat (length ws))).

(** The mode [error]: three calls that should fail. *)
Definition rpc_test_error (server : GRPCServer player_func) (st : St) (w1 w2 w3 : call_world) (request response : msg) :
    St * list (outcome ClientErr msg) :=
  let '(seq, st, o1) := test_call server 0 st w1 "NonExistentService.Method" request response in
  let '(seq, st, o2) := test_call server seq st w2 "PlayerService.NonExistentMethod" request response in
  let '(_, st, o3) := test_call server seq st w3 "PlayerService.SlowOperation" request response in
  (st, [o1; o2; o3]).

(** *** What they show *)

(** The methods that the program calls, with the answers of the server. *)
Definition refusals : list (string * string) :=
  [("PlayerService.UpdatePosition", "method not found: PlayerService.UpdatePosition");
   ("NonExistentService.Method", "service not found: NonExistentService");
   ("PlayerService.NonExistentMethod", "method not found: PlayerService.NonExistentMethod");
   ("PlayerService.SlowOperation", "method not found: PlayerService.SlowOperation")]%string.

Lemma example_refuses st m text seq args : (m, text) ∈ refusals ->
  server_Call invoke example_server st (MkReq m seq args) = (st, Some (MkResp m seq text None)) /\ text <> ""%string /\ isRetryableError text = false.
Proof.
  unfold refusals. rewrite !elem_of_cons, elem_of_nil. intros [[= -> ->]|[[= -> ->]|[[= -> ->]|[[= -> ->]|[]]]]]; (split; [reflexivity|done]).
Qed.

(** A call fails; one that reaches the server at once fails with its answer. *)
Lemma test_call_fails seq st w m text args reply : (m, text) ∈ refusals ->
  exists seq' e, test_call example_server seq st w m args reply = (seq', st, Fail e) /\
    (is_Some (any_New args) -> cw_net w 0%nat = Delivered -> e = ErrText text).
Proof.
  intros Hm. unfold test_call, client_Call. destruct (any_New args) as [a|]; [|eexists _, _; split; [done|]; by intros [? [=]]].
  pose proof (fun st' => example_refuses st' m text (nextSequence seq) (Some a) Hm) as Hr.
  assert (exists n e, attempts (over_network invoke example_server (cw_net w)) (cw_cancelled w) (fun _ => false) maxRetries 0 ErrGrpc st
    (MkReq m (nextSequence seq) (Some a)) reply = (st, n, Fail e)) as (n & e & Ef).
  { apply attempts_fail. intros i st'. unfold over_network. destruct (Hr st') as (-> & Ht & _).
    destruct (cw_net w i); eexists; (split; [reflexivity|]); done. }
  destruct (cw_net w 0%nat) eqn:Hw; [|rewrite Ef; by eexists _, _..].
  eexists _, (ErrText text). split; [|done]. cbn [maxRetries attempts]. unfold over_network. rewrite Hw.
  destruct (Hr st) as (-> & Ht & He). cbn. by rewrite decide_False, He.
Qed.

Lemma stress_all_fail request response ws : forall i seq st,
  stress_results example_server request response i seq st ws = (st, replicate (length ws) false).
Proof.
  induction ws as [|w ws IH]; intros i seq st; cbn [stress_results]; [done|].
  destruct (test_call_fails seq st w "PlayerService.UpdatePosition" _ (request i) response (list_elem_of_here _ _)) as (seq' & e & -> & _). by rewrite IH.
Qed.

Lemma stress_loop_false n a b : stress_loop (replicate n false) a b = (a, (n + b)%nat).
Proof. revert b. induction n as [|n IH]; intros b; cbn [replicate stress_loop]; [done|]. rewrite IH. f_equal. lia. Qed.

(** Against the server of the same program no call succeeds, whatever the network and
    the contexts do: the mode [client] ends with its fatal error; the stress test
    counts every request as failed, and with no requests divides by zero; and the mode
    [error] finds its three errors even without a server, of which the third, where all
    requests arrive, is not the timeout that it is about but a method that the server
    does not have. *)
Theorem rpc_test_calls_fail st w ws w1 w2 w3 requests request response duration :
  rpc_test_client example_server st w request response = (st, None) /\
  stress_test example_server requests response st ws duration =
    (st, 0%nat, length ws, if decide (ws = []) then Panic else Ret (int64 (Z.quot duration (Z.of_nat (length ws))))) /\
  exists e1 e2 e3, rpc_test_error example_server st w1 w2 w3 request response = (st, [Fail e1; Fail e2; Fail e3]) /\
    (is_Some (any_New request) -> cw_net w1 0%nat = Delivered -> cw_net w2 0%nat = Delivered -> cw_net w3 0%nat = Delivered ->
     e1 = ErrText "service not found: NonExistentService" /\ e2 = ErrText "method not found: PlayerService.NonExistentMethod" /\
     e3 = ErrText "method not found: PlayerService.SlowOperation").
Proof.
  assert (forall k, is_Some (refusals !! k) -> default ("", "")%string (refusals !! k) ∈ refusals) as Hin
    by (intros k [x Hx]; rewrite Hx; by eapply list_elem_of_lookup_2).
  pose proof (Hin 0%nat ltac:(by eexists)) as H0. pose proof (Hin 1%nat ltac:(by eexists)) as H1.
  pose proof (Hin 2%nat ltac:(by eexists)) as H2. pose proof (Hin 3%nat ltac:(by eexists)) as H3. cbn in H0, H1, H2, H3.
  split_and!.
  - unfold rpc_test_client. by destruct (test_call_fails 0 st w _ _ request response H0) as (? & ? & -> & _).
  - unfold stress_test. rewrite stress_all_fail, stress_loop_false, Nat.add_0_r. unfold average. destruct ws as [|x ws]; [done|].
    rewrite decide_False by done. by destruct (Z.eqb_spec (Z.of_nat (length (x :: ws))) 0) as [E|E]; [cbn in E; lia|].
  - unfold rpc_test_error. destruct (test_call_fails 0 st w1 _ _ request response H1) as (s1 & e1 & -> & D1).
    destruct (test_call_fails s1 st w2 _ _ request response H2) as (s2 & e2 & -> & D2).
    destruct (test_call_fails s2 st w3 _ _ request response H3) as (s3 & e3 & -> & D3). exists e1, e2, e3. auto.
Qed.
End calls.

(** ** The players of [sync_test] *)

Definition client_player (playerID : nat) : string := "test-player-" +:+ pretty playerID.

Definition client_request (playerID i : nat) (now : Z) : PositionSyncRequest :=
  let base := f32_of_int (Z.of_nat playerID * 10) in
  MkSyncRequest (client_player playerID) (f32_add base (f32_of_int (Z.of_nat i)), f32_of_int 10, f32_sub base (f32_of_int (Z.of_nat i)))
    (Some (f32_of_int 1, f32_of_int 0, f32_of_int 1)) (f32_of_int (Z.of_nat i * 10)) now.

(** What a player calls, in order. *)
Definition player_calls (updateCount : Z) : list string :=
  replicate (Z.to_nat updateCount) "SyncPlayerStateService.SyncPosition"%string ++ ["BroadcastService.BroadcastMessage"%string].

(** The goroutine of a player: before its next call, before the last one, which writes
    to the variable [err] of [main], before the check of [err], and done. *)
Inductive player_pc := PSync (left : nat) | PBroadcast | PCheck (own : bool) | PDone (own said : bool).

(** [sc_err]: whether the variable that the players share is nil. *)
Record sync_clients := MkSyncClients { sc_err : bool; sc_players : list player_pc }.

(** The client has connected; a wait group of fewer than no players panics. *)
Definition sync_client_start (playerCount updateCount : Z) : outcome Empty_set sync_clients :=
  panic_unless (0 <=? playerCount);;
  Ret (MkSyncClients true (replicate (Z.to_nat playerCount) (PSync (Z.to_nat updateCount)))).

(** Steps; [ok] tells whether a call succeeds. *)
Inductive sync_client_step : sync_clients -> sync_clients -> Prop :=
  | ScSync s k n : sc_players s !! k = Some (PSync (S n)) -> sync_client_step s (MkSyncClients (sc_err s) (<[k := PSync n]> (sc_players s)))
  | ScSynced s k : sc_players s !! k = Some (PSync 0) -> sync_client_step s (MkSyncClients (sc_err s) (<[k := PBroadcast]> (sc_players s)))
  | ScBroadcast s k (ok : bool) : sc_players s !! k = Some PBroadcast -> sync_client_step s (MkSyncClients ok (<[k := PCheck ok]> (sc_players s)))
  | ScCheck s k own : sc_players s !! k = Some (PCheck own) -> sync_client_step s (MkSyncClients (sc_err s) (<[k := PDone own (sc_err s)]> (sc_players s))).

(** A player can go through its synchronizations alone. *)
Lemma sync_player_ready n : forall s k, sc_players s !! k = Some (PSync n) ->
  rtc sync_client_step s (MkSyncClients (sc_err s) (<[k := PBroadcast]> (sc_players s))).
Proof.
  induction n as [|n IH]; intros s k Hk; [by apply rtc_once, ScSynced|].
  eapply rtc_l; [by apply ScSync|]. set (s1 := MkSyncClients _ _).
  specialize (IH s1 k). cbn in IH. rewrite list_insert_insert_eq in IH. apply IH, list_lookup_insert_eq. by eapply lookup_lt_Some.
Qed.

(** A single player has the result of its own call. *)
Definition own_result (s : sync_clients) : Prop :=
  forall k own, sc_players s !! k = Some (PCheck own) -> sc_err s = own.

Lemma sync_single_step s s' : sync_client_step s s' -> length (sc_players s) = 1%nat ->
  own_result s /\ (forall k own said, sc_players s !! k = Some (PDone own said) -> said = own) ->
  length (sc_players s') = 1%nat /\ own_result s' /\ (forall k own said, sc_players s' !! k = Some (PDone own said) -> said = own).
Proof.
  intros Hs Hl [Ho Hd]. unfold own_result in *. destruct Hs as [s k n Hk|s k Hk|s k ok Hk|s k own Hk]; cbn; rewrite length_insert;
    (split; [done|]); pose proof (lookup_lt_Some _ _ _ Hk) as Hlt; assert (k = 0%nat) as -> by lia;
    destruct (sc_players s) as [|x [|]]; try done; cbn in Hk; injection Hk as ->; cbn; (split; [intros [|] ? [=]; by subst|]); intros [|] ? ? [=]; subst; [].
  by apply (Ho 0%nat).
Qed.

(** What the players of [sync_test] say of their last call.  With one player it is
    what the call returned; with two or more, which write to the same variable, a player
    whose message was sent can say that it was not. *)
Theorem sync_client_reports playerCount updateCount s0
    (Hstart : sync_client_start playerCount updateCount = Ret s0) :
  (playerCount = 1 -> forall s k own said, rtc sync_client_step s0 s -> sc_players s !! k = Some (PDone own said) -> said = own) /\
  (2 <= playerCount -> exists s, rtc sync_client_step s0 s /\ sc_players s !! 0%nat = Some (PDone true false)).
Proof.
  unfold sync_client_start, panic_unless in Hstart. destruct (Z.leb_spec 0 playerCount); [|done]. injection Hstart as <-. split.
  - intros -> s k own said Hr. set (s0 := MkSyncClients _ _) in Hr.
    assert (length (sc_players s) = 1%nat /\ own_result s /\ (forall k own said, sc_players s !! k = Some (PDone own said) -> said = own)) as (_ & _ & H1);
      [|by apply H1].
    assert (length (sc_players s0) = 1%nat /\ own_result s0 /\ (forall k own said, sc_players s0 !! k = Some (PDone own said) -> said = own)) as H0
      by (split_and!; [done|intros [|] ? [=]|intros [|] ? ? [=]]).
    clearbody s0. induction Hr as [|x y z Hxy _ IH]; [done|]. apply IH. destruct H0. by eapply sync_single_step.
  - intros H2. destruct (Z.to_nat playerCount) as [|[|n]] eqn:E; [lia..|]. clear E. cbn [replicate].
    set (u := Z.to_nat updateCount). set (l := replicate n _).
    exists (MkSyncClients false (PDone true false :: PCheck false :: l)). split; [|done].
    etrans; [by apply (sync_player_ready u _ 0)|]. etrans; [by apply (sync_player_ready u _ 1)|]. cbn.
    eapply rtc_l; [by apply (ScBroadcast _ 0 true)|]. eapply rtc_l; [by apply (ScBroadcast _ 1 false)|]. eapply rtc_l; [by apply (ScCheck _ 0 true)|]. reflexivity.
Qed.

Lemma sync_client_reports_witness :
  exists s, rtc sync_client_step (MkSyncClients true [PSync 20; PSync 20; PSync 20; PSync 20; PSync 20]) s /\ sc_players s !! 0%nat = Some (PDone true false).
Proof. apply (sync_client_reports 5 20); [reflexivity|lia]. Defined.

(** The calls of the players, in any order and over any network, to the server of the
    same program: each fails, and the players of the manager are as they were. *)
Theorem sync_client_calls_fail {value msg any : Type} `{Protobuf msg any}
    (invoke : @PlayerStateManager value -> sync_func -> msg -> msg -> @PlayerStateManager value * msg * option string)
    updateCount m cs (Hcs : Forall (fun c => rc_method c ∈ player_calls updateCount) cs) :
  exists os, run_calls invoke m cs = (m, os) /\ length os = length cs /\ Forall (fun o => exists e, o = Fail e) os.
Proof.
  apply run_calls_fail. eapply Forall_impl; [exact Hcs|]. intros c. unfold player_calls, example_methods.
  rewrite elem_of_app. intros [[-> _]%elem_of_replicate| ->%list_elem_of_singleton]; set_solver.
Qed.
