(* ===== verification/Mains.v ===== *)
(** * The three servers as programs ([cmd/gateway], [cmd/server], [cmd/metrics])

    The entry points put the packages together: they load a configuration, build and
    start a component, wait for a signal and stop it.  Here they are composed of
    [GatewayServers.v], [Config.v], [NetServer.v] and [Metrics.v]. *)

From stdpp Require Import base gmap strings fin_maps fin_map_dom numbers relations list.
From Stdlib Require Import ZArith Lia.
From S2P Require Import Prelude Session Gateway Config NetServer Float32 GatewayServers Metrics.

Local Open Scope Z_scope.

(** ** The gateway *)

(** Where [log.Fatalf] ends it. *)
Inductive gateway_fatal := GwLoad | GwCreate (e : ServerError) | GwStart (e : ServerError).

Section gateway_program.
Context (grow : nat -> nat) {settings : Type} `{GatewayServers.Viper settings}.

(** Up to the wait for the signal.  [read]: the configuration that is found; [order]:
    the order of the service map; [crypto], [crypto'], [cert]: whether the keys and the
    certificate can be made. *)
Definition gateway_main (mkdir : string -> bool) (read : option settings) (order : list (Z * string)) (h : heap) (now : Z)
    (crypto crypto' cert : bool) : outcome gateway_fatal gateway :=
  match LoadGatewayConfig mkdir read with
  | None => Fail GwLoad
  | Some config =>
      match gateway_New config order h crypto with
      | Panic => Panic
      | Fail e => Fail (GwCreate e)
      | Ret gw =>
          match gateway_Start grow gw now crypto' cert with
          | (gw, Ret _) => Ret gw
          | (_, Fail e) => Fail (GwStart e)
          | (_, Panic) => Panic
          end
      end
  end.

Lemma start_ws_config gw : exists gw', start_ws gw = (gw', Ret tt) /\ gw_config gw' = gw_config gw.
Proof.
  unfold start_ws, NewWebSocketServer. destruct (ws_Enabled _) eqn:E; [|by exists gw]. cbn. by eexists.
Qed.

Lemma start_secure_config gw crypto : exists gw', gw_config gw' = gw_config gw /\
  start_secure gw crypto = (gw', if ws_Enabled (sec_ws (SecureWebSocket (gw_config gw))) && negb crypto then Fail ErrCrypto else Ret tt).
Proof. unfold start_secure, NewSecureWebSocketServer. destruct (ws_Enabled _) eqn:E; [|by exists gw]. destruct crypto; cbn; (eexists; split; [|reflexivity]; done). Qed.

Lemma start_quic_config gw cert : exists gw', gw_config gw' = gw_config gw /\
  start_quic gw cert = (gw', if quic_Enabled (QUIC (gw_config gw)) && negb cert then Fail ErrCertificate else Ret tt).
Proof. unfold start_quic, NewQUICServer. destruct (quic_Enabled _) eqn:E; [|by exists gw]. destruct cert; cbn; (eexists; split; [|reflexivity]; done). Qed.

(** The gateway comes to its wait exactly when its configuration can be loaded and gives
    a positive cleanup interval, and the keys and the certificate of what it enables can be
    made; with the configuration file of the repository, or one with the names of the
    tags, it never does: it cannot load the file or it panics. *)
Theorem gateway_main_runs mkdir read order h now crypto crypto' cert :
  ((exists gw, gateway_main mkdir read order h now crypto crypto' cert = Ret gw) <->
   exists config, LoadGatewayConfig mkdir read = Some config /\ crypto = true /\ 0 < seconds (SessionCleanupInterval config) /\
     (ws_Enabled (sec_ws (SecureWebSocket config)) = true -> crypto' = true) /\ (quic_Enabled (QUIC config) = true -> cert = true)) /\
  (forall s, read = Some s -> top_keys s = file_keys \/ top_keys s = tag_keys -> crypto = true ->
     gateway_main mkdir read order h now crypto crypto' cert = Fail GwLoad \/ gateway_main mkdir read order h now crypto crypto' cert = Panic).
Proof.
  unfold gateway_main. split.
  - destruct (LoadGatewayConfig mkdir read) as [config|]; [|naive_solver]. destruct crypto; [|naive_solver].
    unfold gateway_New, NewTicker, panic_unless. cbn [negb]. destruct (Z.ltb_spec 0 (seconds (SessionCleanupInterval config))) as [Hs|Hs];
      [|split; [by intros [? [=]]|intros (? & [= <-] & _ & ? & _); lia]].
    cbn [mbind outcome_bind]. set (gw0 := MkGW _ _ _ _ _ _ _ _ _ _ _). unfold gateway_Start.
    assert (gw_config (registerServiceInstance grow gw0 now) = config) as E0 by (unfold registerServiceInstance; repeat case_match; done).
    destruct (start_ws_config (registerServiceInstance grow gw0 now)) as (gw1 & -> & E1).
    destruct (start_secure_config gw1 crypto') as (gw2 & E2 & ->). rewrite E1, E0.
    destruct (ws_Enabled _ && negb crypto') eqn:Hc.
    { apply andb_true_iff in Hc as [? ?%negb_true_iff]. split; [by intros [? [=]]|]. intros (? & [= <-] & _ & _ & Hx & _). naive_solver. }
    destruct (start_quic_config gw2 cert) as (gw3 & E3 & ->). rewrite E2, E1, E0.
    destruct (quic_Enabled _ && negb cert) eqn:Hq.
    { apply andb_true_iff in Hq as [? ?%negb_true_iff]. split; [by intros [? [=]]|]. intros (? & [= <-] & _ & _ & _ & Hx). naive_solver. }
    rewrite E3, E2, E1, E0. unfold NewTicker, panic_unless. destruct (Z.ltb_spec 0 (seconds (SessionCleanupInterval config))); [|lia].
    split; [|by eexists]. intros _. exists config. split_and!; [done..| |].
    + intros Hw. rewrite Hw in Hc. by destruct crypto'.
    + intros Hw. rewrite Hw in Hq. by destruct cert.
  - intros s -> Hkeys ->. destruct (LoadGatewayConfig mkdir (Some s)) as [config|] eqn:Hl; [|by left].
    right. by rewrite (gateway_config_crashes mkdir s config order h Hl Hkeys).
Qed.
End gateway_program.

(** ** The game server *)

Inductive server_fatal := SrvLoad (e : config_error) | SrvStart.

Section server_program.
Context `{Proto} `{Config.Viper file} (MkdirAll : string -> bool).

(** Up to the wait for the signal: what the clients do until then, and whether
    listening fails in its goroutine. *)
Definition server_main (configPath : string) (start_fails : bool) : outcome server_fatal Server :=
  match (Load MkdirAll [] configPath).2 with
  | inr e => Fail (SrvLoad e)
  | inl _ => if start_fails then Fail SrvStart else Ret (NewMessageProcessor NewServer)
  end.

(** After the signal the program calls [Stop] and ends when it returns. *)
Definition server_completes (s : Server) (order : list (string * nat)) : bool := (NetServer.Stop s order).2.

(** The game server ends after its signal only when no client is connected then and no
    other operation holds the lock for good: with a client in its table it hangs, whatever
    has happened before. *)
Theorem server_main_ends configPath fails s0 acts s order
    (Hmain : server_main configPath fails = Ret s0) (Hrun : net_run s0 acts = Some s) (Horder : map_order (clients s) order) :
  server_completes s order = true <-> stuck s = false /\ clients s = ∅.
Proof.
  unfold server_main in Hmain. destruct (Load _ _ _).2; [|done]. destruct fails; [done|]. injection Hmain as <-.
  unfold server_completes, NetServer.Stop. destruct (stuck s) eqn:Hs; [split; [done|by intros [? _]]|].
  destruct (order_live s order (net_run_inv _ _ _ net_inv_new Hrun) Hs Horder) as [Hl _]. rewrite (stop_clients_returns _ _ Hl).
  rewrite (map_order_nil _ _ Horder). naive_solver.
Qed.
End server_program.

(** ** The metrics server *)

(** Before [StartServer], waiting for the signal, in [collector.Stop], before
    [StopServer], and at its two ends. *)
Inductive metrics_pc := MpStartServer | MpWait | MpStopping | MpStopServer | MpReturned | MpFatal.

Record metrics_program := MkMetricsProgram {
  mp_collector : Collector.MetricsCollector;
  mp_manager : MetricsManager;
  mp_pc : metrics_pc
}.

(** The collector is started before the HTTP server. *)
Definition metrics_start (interval : Z) : outcome Empty_set metrics_program :=
  c ← Collector.Start Collector.NewMetricsCollector interval;
  Ret (MkMetricsProgram c NewMetricsManager MpStartServer).

Section metrics_program.
Context (desc_ok : string -> list string -> bool).

(** The steps of the program and of the collecting goroutine, which runs the collector
    of the system's statistics; [values] are those of the runtime. *)
Inductive metrics_program_step : metrics_program -> metrics_program -> Prop :=
  | MsCollect s k values c m :
      Collector.collect_done (mp_collector s) k = Some c -> SystemStatsCollector desc_ok (mp_manager s) values = Ret m ->
      metrics_program_step s (MkMetricsProgram c m (mp_pc s))
  | MsTick s k c :
      Collector.tick (mp_collector s) k = Some c -> metrics_program_step s (MkMetricsProgram c (mp_manager s) (mp_pc s))
  | MsStartServer s :
      mp_pc s = MpStartServer ->
      metrics_program_step s (match StartServer (mp_manager s) with
                              | Ret m => MkMetricsProgram (mp_collector s) m MpWait
                              | _ => MkMetricsProgram (mp_collector s) (mp_manager s) MpFatal
                              end)
  | MsSignal s :
      mp_pc s = MpWait ->
      metrics_program_step s (MkMetricsProgram (Collector.Stop (mp_collector s)) (mp_manager s)
                                (if Collector.isRunning (mp_collector s) then MpStopping else MpStopServer))
  | MsReceived s k c :
      Collector.stop_received (mp_collector s) k = Some c -> metrics_program_step s (MkMetricsProgram c (mp_manager s) (mp_pc s))
  | MsStopReturns s c :
      mp_pc s = MpStopping -> Collector.stop_returns (mp_collector s) = Some c ->
      metrics_program_step s (MkMetricsProgram c (mp_manager s) MpStopServer)
  | MsStopServer s :
      mp_pc s = MpStopServer -> metrics_program_step s (MkMetricsProgram (mp_collector s) (StopServer (mp_manager s)) MpReturned).

(** The names of the statistics are valid. *)
Context (Hdesc : Forall (fun name => desc_ok name [] = true) system_metrics).

(** Only gauges without labels are registered. *)
Record gauges_only (sv : option bool) (m : MetricsManager) : Prop := {
  go_registry : registry m = dom (gaugeVecs m);
  go_labels n v : gaugeVecs m !! n = Some v -> label_names v = [];
  go_server : server m = sv
}.

(** A fold of calls of which each returns. *)
Lemma fold_returns {A E M} (P : M -> Prop) (f : M -> A -> outcome E M) l :
  (forall m x, x ∈ l -> P m -> exists m', f m x = Ret m' /\ P m') ->
  forall m, P m -> exists m', fold_left (fun o x => m ← o; f m x) l (Ret m) = Ret m' /\ P m'.
Proof.
  induction l as [|x l IH]; intros Hf m Hm; [by exists m|]. cbn [fold_left mbind outcome_bind].
  destruct (Hf m x) as (m' & -> & Hm'); [by left|done|]. apply IH; [|done]. intros m0 y Hy. apply Hf. by right.
Qed.

Lemma ensure_gauge_returns sv m name : desc_ok name [] = true -> gauges_only sv m ->
  exists m', ensure_gauge desc_ok m name [] = Ret m' /\ gauges_only sv m'.
Proof.
  intros Hd [Hr Hl Hs]. unfold ensure_gauge. case_bool_decide as He; [by exists m|].
  unfold RegisterGauge. rewrite bool_decide_eq_false_2 by done. unfold must_register. rewrite Hd, bool_decide_eq_true_2
    by (rewrite Hr; intros Hin%elem_of_dom; done). cbn. eexists. split; [done|]. split; cbn; [by rewrite dom_insert_L, Hr| |done].
  intros n v [[<- <-]|[_ Hn]]%lookup_insert_Some; [done|by eapply Hl].
Qed.

Lemma set_gauge_returns sv m name value : gauges_only sv m ->
  exists m', ignore m (SetGauge m name value []) = Ret m' /\ gauges_only sv m'.
Proof.
  intros [Hr Hl Hs]. unfold SetGauge, apply_update. destruct (gaugeVecs m !! name) as [v|] eqn:Hv; [|by exists m].
  unfold with_labels. rewrite (Hl _ _ Hv). cbn. eexists. split; [done|]. split; cbn.
  - rewrite dom_insert_L, Hr. symmetry. apply subseteq_union_1_L, singleton_subseteq_l. by eapply elem_of_dom_2.
  - intros n w [[<- <-]|[_ Hn]]%lookup_insert_Some; [cbn; by apply (Hl name)|by eapply Hl].
  - done.
Qed.

(** The collector of the system's statistics never panics on such a manager. *)
Lemma system_stats_return sv m values : gauges_only sv m ->
  exists m', SystemStatsCollector desc_ok m values = Ret m' /\ gauges_only sv m'.
Proof.
  intros Hm. unfold SystemStatsCollector, ensureSystemMetricsRegistered.
  destruct (fold_returns (gauges_only sv) (fun m name => ensure_gauge desc_ok m name []) system_metrics) with (m := m)
    as (m1 & -> & H1); [intros; apply ensure_gauge_returns; [by eapply Forall_forall in Hdesc|done]|done|]. cbn [mbind outcome_bind].
  apply (fold_returns (gauges_only sv) (fun m x => ignore m (SetGauge m x.1 (f64_of_int x.2) [])) (zip system_metrics values)); [|done].
  intros m2 x _ H2. by apply set_gauge_returns.
Qed.

(** Where the collector and the HTTP server are at each point of the program. *)
Definition collector_at (pc : metrics_pc) (c : Collector.MetricsCollector) : Prop :=
  match pc with
  | MpStartServer | MpWait => exists ph n, c = Collector.MkCollector true [ph] 0 0 n
  | MpStopping => exists n, (exists ph, c = Collector.MkCollector true [ph] 1 0 n) \/ c = Collector.MkCollector true [] 0 1 n
  | MpStopServer | MpReturned => exists n, c = Collector.MkCollector false [] 0 0 n
  | MpFatal => False
  end.

Definition http_at (pc : metrics_pc) : option bool :=
  match pc with MpStartServer => None | MpReturned => Some true | _ => Some false end.

Definition program_ok (s : metrics_program) : Prop :=
  collector_at (mp_pc s) (mp_collector s) /\ gauges_only (http_at (mp_pc s)) (mp_manager s).

(** The goroutine is the only one, and collects or waits. *)
Lemma collector_turns pc c c' k :
  collector_at pc c -> Collector.collect_done c k = Some c' \/ Collector.tick c k = Some c' -> collector_at pc c'.
Proof.
  intros Hc Hs. destruct pc; cbn in *;
    repeat match goal with H : exists _, _ |- _ => destruct H | H : _ \/ _ |- _ => destruct H end; subst; try done;
    unfold Collector.collect_done, Collector.tick in *; cbn in *; destruct k as [|[]]; cbn in *; try done;
    match goal with ph : Collector.phase |- _ => destruct ph end; simplify_eq/=; eauto 10.
Qed.

Lemma program_step_ok s s' : metrics_program_step s s' -> program_ok s -> program_ok s'.
Proof.
  intros Hs [Hc Hm]. destruct Hs as [s k values c m Hd Hv|s k c Ht|s Hp|s Hp|s k c Hr|s c Hp Hr|s Hp]; unfold program_ok; cbn [mp_collector mp_manager mp_pc].
  - destruct (system_stats_return _ _ values Hm) as (m' & Em & Hm'). split; [by eapply collector_turns; eauto|congruence].
  - split; [by eapply collector_turns; eauto|done].
  - rewrite Hp in *. destruct Hm as [H1 H2 H3]. unfold StartServer. cbn in H3. rewrite H3. by split.
  - rewrite Hp in *. destruct Hc as (ph & n & ->). split; [|done]. cbn. eauto.
  - split; [|done]. destruct (mp_pc s); cbn in *;
      repeat match goal with H : exists _, _ |- _ => destruct H | H : _ \/ _ |- _ => destruct H end; try done;
      match goal with H : mp_collector s = _ |- _ => rewrite H in Hr end; unfold Collector.stop_received in Hr; cbn in Hr;
      destruct k as [|[]]; cbn in Hr; try done; match goal with ph : Collector.phase |- _ => destruct ph end; simplify_eq/=; eauto.
  - rewrite Hp in *. split; [|done]. destruct Hc as (n & [[ph E]|E]); rewrite E in Hr; cbn in Hr; simplify_eq/=. by exists n.
  - rewrite Hp in *. split; [done|]. destruct Hm as [H1 H2 H3]. unfold StopServer. cbn in H3. rewrite H3. by split.
Qed.

(** The program can return. *)
Definition can_return (s : metrics_program) : Prop := exists s', rtc metrics_program_step s s' /\ mp_pc s' = MpReturned.

Lemma can_return_step s s' : metrics_program_step s s' -> can_return s' -> can_return s.
Proof. intros Hs (s'' & Hr & Hp). exists s''. split; [by eapply rtc_l|done]. Qed.

Lemma stopping_can_return s : mp_pc s = MpStopping -> program_ok s -> can_return s.
Proof.
  assert (forall c m n, c = Collector.MkCollector true [] 0 1 n -> can_return (MkMetricsProgram c m MpStopping)) as H1.
  { intros c m n ->. eapply can_return_step; [eapply MsStopReturns; reflexivity|]. eapply can_return_step; [by apply MsStopServer|]. by eexists. }
  assert (forall m n, can_return (MkMetricsProgram (Collector.MkCollector true [Collector.Selecting] 1 0 n) m MpStopping)) as H2.
  { intros m n. eapply can_return_step; [eapply (MsReceived _ 0); reflexivity|]. by eapply H1. }
  destruct s as [c m pc]. cbn [mp_pc]. intros -> [(n & Hc) Hm]. cbn in Hc, Hm. destruct Hc as [[ph ->]| ->]; [|by eapply H1]. destruct ph; [|apply H2].
  destruct (system_stats_return _ _ [] Hm) as (m' & Em & _). eapply can_return_step; [eapply (MsCollect _ 0 []); [reflexivity|exact Em]|]. apply H2.
Qed.

Lemma program_can_return s : program_ok s -> can_return s.
Proof.
  assert (forall s, mp_pc s = MpWait -> program_ok s -> can_return s) as Hwait.
  { intros s1 Hp Hok. pose proof (MsSignal s1 Hp) as Hs. eapply can_return_step; [exact Hs|].
    apply stopping_can_return; [|by eapply program_step_ok]. cbn. destruct Hok as [Hc _]. rewrite Hp in Hc. by destruct Hc as (ph & n & ->). }
  intros Hok. pose proof Hok as [Hc Hm]. destruct (mp_pc s) eqn:Hp.
  - pose proof (MsStartServer s Hp) as Hs. eapply can_return_step; [exact Hs|].
    apply Hwait; [|by eapply program_step_ok]. unfold StartServer. by rewrite (go_server _ _ Hm).
  - by apply Hwait.
  - by apply stopping_can_return.
  - eapply can_return_step; [by apply MsStopServer|]. by eexists.
  - by exists s.
  - done.
Qed.

(** The metrics server, with an interval that is positive, in every interleaving with
    its collecting goroutine: collecting never panics, starting the HTTP server never
    fails, at every point the program can come to its end, and then the goroutine
    has ended and the HTTP server is shut down.  Without a positive interval it panics. *)
Theorem metrics_main_stops interval s0 s
    (Hstart : metrics_start interval = Ret s0) (Hrun : rtc metrics_program_step s0 s) :
  0 < interval /\ mp_pc s <> MpFatal /\ (exists s', rtc metrics_program_step s s' /\ mp_pc s' = MpReturned) /\
  (forall values, exists m, SystemStatsCollector desc_ok (mp_manager s) values = Ret m) /\
  (mp_pc s = MpReturned -> Collector.goroutines (mp_collector s) = [] /\ server (mp_manager s) = Some true).
Proof.
  unfold metrics_start, Collector.Start in Hstart. cbn [Collector.NewMetricsCollector Collector.isRunning] in Hstart.
  destruct (Z.leb_spec interval 0); [done|]. injection Hstart as <-.
  assert (program_ok s) as Hok.
  { assert (program_ok (MkMetricsProgram (Collector.MkCollector true [Collector.Collecting] 0 0 0) NewMetricsManager MpStartServer)) as H0.
    { split; [by eexists _, _|]. split; cbn; [by rewrite dom_empty_L|done|done]. }
    revert H0. induction Hrun as [|a b c Hab _ IH]; [done|]. intros H0. by eapply IH, program_step_ok. }
  pose proof Hok as [Hc Hm]. split_and!; [lia|by intros E; rewrite E in Hc|by apply program_can_return| |].
  - intros values. destruct (system_stats_return _ _ values Hm) as (m' & -> & _). by exists m'.
  - intros E. rewrite E in Hc, Hm. destruct Hc as (n & ->). split; [done|]. apply (go_server _ _ Hm).
Qed.
End metrics_program.

Lemma metrics_main_stops_witness :
  exists s0 s, metrics_start 10 = Ret s0 /\ rtc (metrics_program_step any_desc) s0 s /\ mp_pc s = MpReturned.
Proof.
  eexists. destruct (metrics_main_stops any_desc ltac:(repeat constructor) 10 _ _ eq_refl (rtc_refl _ _)) as (_ & _ & (s & Hr & Hp) & _).
  exists s. split; [reflexivity|]. split; [exact Hr|exact Hp].
Defined.
